(* ===== verification/_CoqProject ===== *)
-Q . S2P
Prelude.v
Params.v
Mmu.v
Seg.v
Bytes.v
Cstring.v
Ring.v
Spinlock.v
Proc.v
Sched.v
SchedInv.v
SchedPick.v
SchedThms.v
SchedRun.v
SchedShare.v
Kern.v
Sleeplock.v
FsData.v
Bio.v
Log.v
LogRec.v
LogTx.v
Demo.v
LogThms.v
Semaphore.v
Rwlock.v
Kalloc.v
Fs.v
FsBlk.v
FsInode.v
FsMap.v
FsFile.v
FsThms.v
Pipe.v
Vm.v
VmMap.v
VmSpace.v
VmThms.v
VmInit.v
BootMem.v
File.v
Life.v
Console.v
Env.v
UserInit.v
ConsoleThms.v
Dump.v
Kbd.v
Lwp.v
Syscall.v
Sysproc.v
Sysfile.v
Exec.v
Trap.v
TrapThms.v
Ide.v
Sh.v
ShThms.v
User.v
UserProgs.v
Grep.v
ShRun.v
Umalloc.v
UmallocThms.v
Mkfs.v
MkfsThms.v
Hw.v
Boot.v
Mp.v
Apic.v
Main.v
MainThms.v
BootThms.v
