(* ===== verification/Prelude.v ===== *)
(** * xv6 with an MLFQ and stride scheduler, threads, semaphores and large files

    A model of the kernel under [src/xv6-public] and of what is built around
    it, with the theorems that make its parts correct.  The program is a
    32-bit kernel for several CPUs.  Processes are scheduled by a multi-level
    feedback queue together with a stride queue ([proc.c]); a process may have
    several threads ([lwp.c]); semaphores and read-write locks are system
    calls ([semaphore.c], [rwlock.c]).  Files hang in trees of up to three
    levels of indirect blocks ([fs.c]) over a write-ahead log ([log.c]) and a
    buffer cache ([bio.c]); [pread] and [pwrite] take an offset ([file.c]).
    The shell, the user programs, the user library and [mkfs] run on it.

    ** How code is translated

    A routine is a function in the monad [M S A] of this file: a state [S] is
    taken to a value and a state, or to a [stop].  Stops are [panic()], what C
    leaves undefined (null pointers, indices outside of an array), a spin on a
    lock held elsewhere, a sleep in code run on its own, and the end of a
    bound on a loop.  [wp m X Q s] says that [m] run in [s] ends in [Q], or
    stops for a reason in [X]; with [X := never] it is total correctness.
    Machine integers are [Z] with their wrap-around written out ([u8], [u16],
    [u32], [i16], [i32]).  Structures are records, arrays are lists, pointers
    into arrays are indices and other pointers addresses.  Routines that give
    up their kernel stack (they call [swtch] through [sched]) are cut in two
    there, and step relations put the pieces together again.

    ** Files of the development and of the program

    - This file: outcomes, the monad with its loops, record updates, the rules
      and tactics for [wp], the hint databases, lemmas on lists and integers.
    - [Params], [Mmu], [Seg], [Bytes], [Cstring], [Ring]: [param.h],
      [fcntl.h]; [mmu.h], [memlayout.h]; the descriptors of [seginit] and
      [tvinit]; words in byte lists; [string.c] and [ulib.c]; ring buffers.
    - [Spinlock]: [spinlock.c] and the CPU table, as code and as an
      interleaving of the atomic steps of all CPUs.
    - [Proc], [Sched], [SchedInv], [SchedPick], [SchedThms], [SchedRun],
      [SchedShare]: [proc.c] and [proc.h], the scheduler, its bookkeeping and
      its choices, a CPU running processes, and CPU shares.
    - [Kern]: the interface [KernOps]/[KernLaws] of the process code for the
      rest of the kernel, with its instance; [Env] instantiates it for the
      state of the whole kernel, [Demo] for a small machine in which the
      theorems are applied to concrete states.
    - [Sleeplock], [FsData], [Bio], [Log], [LogRec], [LogTx], [LogThms]:
      [sleeplock.c], [bio.c], [memide.c], [log.c], crashes and recovery.
    - [Fs], [FsBlk], [FsInode], [FsMap], [FsFile], [FsThms]: [fs.c] from the
      bitmap over inodes and trees of blocks up to files as lists of bytes.
    - [Ide]: [ide.c] over a model of the drive.
    - [Mkfs], [MkfsThms]: [mkfs.c], and that the kernel finds a file system on
      the image.
    - [Semaphore], [Rwlock]: [semaphore.c], [rwlock.c].
    - [Kalloc], [Vm], [VmMap], [VmSpace], [VmThms], [VmInit]: [kalloc.c] and
      [vm.c]; [BootMem] carries their rules over to the code that runs before
      locks work.
    - [Pipe], [File]: [pipe.c], [file.c].
    - [Life], [Lwp], [Exec]: [fork], [exit], [wait] and the like of [proc.c];
      [lwp.c]; [exec.c].
    - [Syscall], [Sysproc], [Sysfile], [Trap], [TrapThms]: [syscall.c],
      [sysproc.c], [syslwp.c], [syssemaphore.c], [sysrwlock.c], [sysfile.c],
      [prac_syscall.c], [trap.c].
    - [Console], [ConsoleThms], [Kbd], [Dump]: [console.c], [uart.c], [kbd.c];
      what [panic], [getcallerpcs] and [procdump] print.
    - [Boot]: [bootmain.c] over the drive of [Ide].  [Hw], [Mp], [Apic]: the
      devices behind the ports and registers, [mp.c], and [lapic.c],
      [ioapic.c], [picirq.c].  [UserInit]: the state [userinit] of [proc.c]
      leaves.  [Main], [MainThms], [BootThms]: [main.c] and the initialisers it
      calls, over the kernel's state together with the devices.
    - [User], [UserProgs], [Grep]: [printf.c], [ulib.c] and the programs, as
      trees of system calls.  [Sh], [ShThms], [ShRun]: [sh.c].  [Umalloc],
      [UmallocThms]: [umalloc.c].

    ** What the theorems show

    - Locks: at most one CPU is in a critical section, whatever the
      interleaving; the same for a semaphore and for writers of a read-write
      lock.  Sleepers are not missed on one CPU; on two CPUs [xem_post] can
      miss one.
    - Crashes: a transaction, and with it a write to a file, is on the disk
      entirely or not at all after a crash at any disk write and recovery at
      the next boot; recovery can be interrupted and repeated.
    - Files: [readi] and [writei] implement slicing and splicing of a list of
      bytes through all levels of indirection, [bmap] and [balloc] keep blocks
      from being shared, [iupdate] and loading an inode are inverse, requests
      out of range are refused; the image of [mkfs] meets what these theorems
      ask of a disk; the IDE driver serves its queue in order.
    - Scheduling: which process a round of [scheduler] picks; the counters and
      the stride list stay right over any sequence of events on one CPU, and no
      step panics; a process of the highest level in use is picked within
      [NPROC] rounds.  Theorems also show runs in which a process is never
      preempted again, runs on two CPUs at once, keeps two locks after a
      refused [set_cpu_share], or leaves the CPU idle beside runnable ones.
    - Memory: no page is handed out twice; [copyuvm] and [allocuvm] by the
      bytes a process reads through its page table, with no page lost; the
      blocks of [malloc] never overlap.
    - Starting up: the boot loader leaves the kernel's segments in memory;
      [mpinit] records the processors of the BIOS's table, or never ends when
      an entry is unknown; [main] gets from the zeroed data of the kernel to
      [scheduler] on every CPU, with memory, page tables, interrupts and the
      first process as the rest of the kernel needs them, and [scheduler]
      picks that process; [cmostime] returns a date of one moment.
    - Queues and terminals: a pipe is a bounded queue; the console a line
      editor that stays on its screen; a panic gets its message out whatever
      locks are held, and silences the console.
    - The shell: every line is parsed within its bounds, printing and parsing
      are inverse, and no program keeps an end of a pipe it should not have;
      the matcher of grep agrees with the meaning of expressions.

    ** Bounds

    Loops over lists and arrays are structural.  Other loops run with fuel,
    and the theorems that say that a routine returns prove the fuel enough:
    [io_fuel] one round per block of a read or write, the length of the line
    for the parser ([parse_fuel]), the number of headers in memory for
    [malloc] and [free], the bytes left for [iappend], the length of the table
    for [mpinit].  A loop that waits for a device runs once per answer the
    device still has to give; that of [cmostime] ends once the clock is quiet,
    so that its fuel is an argument.  A file system theorem
    about a transaction asks for as many log slots and buffers as the call
    uses.  The size bounds in [UmallocThms] ([2^30] bytes a call) and in
    [MkfsThms] (138 blocks a file, the first bitmap block) are those beyond
    which the code itself goes wrong or stops.

    ** Not modelled

    The assembly ([swtch.S], [trapasm.S], [entry.S], [entryother.S],
    [bootasm.S] and the like) has no C source: [Main] begins where [entry.S]
    calls [main], and a CPU that [startothers] starts is in [mpenter] at once.
    What the hardware answers is data of the model, not derived from its
    registers.  After [main], interrupts appear as the calls they lead to.
    [usertests.c] and the other test programs test what is proved here.  The
    call stacks [acquire] records, messages on the console (but for those of
    [main], [panic] and [procdump]), memory barriers and caches of the CPU are
    left out.  CPUs interleave at lock operations, not at single memory
    accesses. *)

From Stdlib Require Import ZArith Lia.
From stdpp Require Import base numbers strings gmap list.

#[local] Open Scope Z_scope.

(** ** Outcomes

    A kernel routine either returns or stops.  [Panic] is a call of
    [panic()], [Undef] an access the C program has no defined behaviour for
    (a null or dangling pointer, an index outside its array, a division by
    zero), [Spin] a busy wait on a lock that another CPU holds, [Asleep] a
    call of [sleep()] in code that is run without other processes, [NoFuel]
    the exhaustion of the bound of an unbounded loop. *)
Inductive stop : Set :=
| Panic (msg : string)
| Undef (what : string)
| Spin (lk : Z)
| Asleep
| NoFuel.

Inductive res (A : Type) : Type :=
| Ok (a : A)
| Stop (e : stop).
Arguments Ok {A} a.
Arguments Stop {A} e.

#[export] Instance stop_eq_dec : EqDecision stop.
Proof. solve_decision. Defined.

(** ** The state and error monad

    [M S A] is code that reads and writes a state [S] and returns an [A]. *)
Definition M (S A : Type) : Type := S -> res (A * S).

Definition ret {S A} (a : A) : M S A := fun s => Ok (a, s).
Definition stop_with {S A} (e : stop) : M S A := fun _ => Stop e.
Definition panic {S A} (msg : string) : M S A := stop_with (Panic msg).
Definition undef {S A} (what : string) : M S A := stop_with (Undef what).
Definition bind {S A B} (m : M S A) (k : A -> M S B) : M S B := fun s =>
  match m s with
  | Ok (a, s') => k a s'
  | Stop e => Stop e
  end.
Definition get {S} : M S S := fun s => Ok (s, s).
Definition put {S} (s : S) : M S unit := fun _ => Ok (tt, s).
Definition gets {S A} (f : S -> A) : M S A := fun s => Ok (f s, s).
Definition modify {S} (f : S -> S) : M S unit := fun s => Ok (tt, f s).

Declare Scope kernel_scope.
Delimit Scope kernel_scope with kernel.
Notation "x <~ m ; k" := (bind m (fun x => k))
  (at level 20, m at level 99, k at level 200) : kernel_scope.
Notation "' pat <~ m ; k" := (bind m (fun x => match x with pat => k end))
  (at level 20, pat pattern, m at level 99, k at level 200) : kernel_scope.
Notation "m ;;; k" := (bind m (fun _ => k))
  (at level 100, k at level 200, right associativity) : kernel_scope.
#[local] Open Scope kernel_scope.

(** [guard_or b e] stops with [e] unless the guard [b] holds. *)
Definition guard_or {S} (b : bool) (e : stop) : M S unit :=
  if b then ret tt else stop_with e.

(** A value that must be present: a pointer that is followed, an index that
    is used. *)
Definition of_option {S A} (e : stop) (o : option A) : M S A :=
  match o with
  | Some a => ret a
  | None => stop_with e
  end.

(** Running code of a component inside a larger state. *)
Definition zoom {S T A} (getT : S -> T) (setT : T -> S -> S) (m : M T A) : M S A :=
  fun s =>
    match m (getT s) with
    | Ok (a, t) => Ok (a, setT t s)
    | Stop e => Stop e
    end.

(** *** Loops *)

(** [for (i in l) body(i)] *)
Fixpoint for_each {S X} (l : list X) (body : X -> M S unit) : M S unit :=
  match l with
  | [] => ret tt
  | x :: l => body x ;;; for_each l body
  end.

(** The same with [break] or [return]: the body yields [Some b] to leave. *)
Fixpoint for_until {S X B} (l : list X) (body : X -> M S (option B)) : M S (option B) :=
  match l with
  | [] => ret None
  | x :: l =>
      r <~ body x;
      match r with
      | Some b => ret (Some b)
      | None => for_until l body
      end
  end.

(** [while(1) body], the body yielding [inl] to go on and [inr] to leave. *)
Fixpoint loop {S X B} (fuel : nat) (body : X -> M S (X + B)) (x : X) : M S B :=
  match fuel with
  | O => stop_with NoFuel
  | S fuel =>
      r <~ body x;
      match r with
      | inl x' => loop fuel body x'
      | inr b => ret b
      end
  end.

(** ** Record update

    [r <| f := v |>] replaces one field.  [Eta R] is the expansion of a
    record into its fields; the setter of [f] is that expansion with [f]
    replaced. *)
Class Eta (R : Type) := eta_expand : R -> R.
Class Setter {R T : Type} (proj : R -> T) := setter : (T -> T) -> R -> R.
Arguments setter {R T} proj {_} f r.

Ltac derive_setter :=
  match goal with
  | |- @Setter ?R ?T ?proj =>
      let inst := constr:(_ : Eta R) in
      let e := eval hnf in inst in
      match eval pattern proj in e with
      | ?g _ =>
          let s := eval cbv beta in (fun (f : T -> T) (r : R) => g (fun x => f (proj x)) r) in
          exact s
      end
  end.
#[export] Hint Extern 1 (Setter _) => derive_setter : typeclass_instances.

Notation "r <| f := v |>" := (setter f (fun _ => v) r)
  (at level 1, f at next level, v at level 200, left associativity) : kernel_scope.
Notation "r <| f ::= g |>" := (setter f g r)
  (at level 1, f at next level, g at level 200, left associativity) : kernel_scope.

(** ** Machine integers

    C integers are [Z] values in the range of their type; every operation
    that may leave the range is followed by one of these conversions. *)
Definition u8 (x : Z) : Z := x mod 2 ^ 8.
Definition u16 (x : Z) : Z := x mod 2 ^ 16.
Definition u32 (x : Z) : Z := x mod 2 ^ 32.
Definition i16 (x : Z) : Z := (x + 2 ^ 15) mod 2 ^ 16 - 2 ^ 15.
Definition i32 (x : Z) : Z := (x + 2 ^ 31) mod 2 ^ 32 - 2 ^ 31.

Lemma u32_small (x : Z) : 0 <= x < 2 ^ 32 -> u32 x = x.
Proof. intros. unfold u32. by rewrite Z.mod_small. Qed.

Lemma i32_small (x : Z) : - 2 ^ 31 <= x < 2 ^ 31 -> i32 x = x.
Proof. intros. unfold i32. rewrite Z.mod_small; lia. Qed.

Lemma u32_range (x : Z) : 0 <= u32 x < 2 ^ 32.
Proof. apply Z.mod_pos_bound. lia. Qed.

Lemma i32_range (x : Z) : - 2 ^ 31 <= i32 x < 2 ^ 31.
Proof. unfold i32. pose proof (Z.mod_pos_bound (x + 2 ^ 31) (2 ^ 32)). lia. Qed.

Lemma u32_idemp (x : Z) : u32 (u32 x) = u32 x.
Proof. apply u32_small, u32_range. Qed.

Lemma u32_i32 (x : Z) : u32 (i32 x) = u32 x.
Proof.
  unfold u32, i32.
  rewrite Zminus_mod_idemp_l. f_equal. lia.
Qed.

Lemma i32_u32 (x : Z) : i32 (u32 x) = i32 x.
Proof. unfold i32, u32. by rewrite Zplus_mod_idemp_l. Qed.

Lemma u32_add_l (x y : Z) : u32 (u32 x + y) = u32 (x + y).
Proof. unfold u32. by rewrite Zplus_mod_idemp_l. Qed.

Lemma u32_add_r (x y : Z) : u32 (x + u32 y) = u32 (x + y).
Proof. unfold u32. by rewrite Zplus_mod_idemp_r. Qed.

Lemma u32_sub_l (x y : Z) : u32 (u32 x - y) = u32 (x - y).
Proof. unfold u32. by rewrite Zminus_mod_idemp_l. Qed.

Lemma u32_sub_r (x y : Z) : u32 (x - u32 y) = u32 (x - y).
Proof. unfold u32. by rewrite Zminus_mod_idemp_r. Qed.

Lemma u8_range (x : Z) : 0 <= u8 x < 2 ^ 8.
Proof. apply Z.mod_pos_bound. lia. Qed.

(** ** Weakest preconditions

    [wp m E Q s]: run from [s], [m] either returns a value and a state that
    satisfy [Q], or stops with an outcome that [E] allows. *)
Definition wp {S A} (m : M S A) (E : stop -> Prop) (Q : A -> S -> Prop) (s : S) : Prop :=
  match m s with
  | Ok (a, s') => Q a s'
  | Stop e => E e
  end.

#[global] Arguments wp : simpl never.
#[global] Arguments bind : simpl never.
#[global] Arguments ret : simpl never.
#[global] Arguments get : simpl never.
#[global] Arguments put : simpl never.
#[global] Arguments gets : simpl never.
#[global] Arguments modify : simpl never.
#[global] Arguments stop_with : simpl never.
#[global] Arguments guard_or : simpl never.
#[global] Arguments of_option : simpl never.
#[global] Arguments zoom : simpl never.
#[global] Arguments u8 : simpl never.
#[global] Arguments u16 : simpl never.
#[global] Arguments u32 : simpl never.
#[global] Arguments i16 : simpl never.
#[global] Arguments i32 : simpl never.

(** No stop allowed: the routine returns. *)
Definition never : stop -> Prop := fun _ => False.
(** Waiting for a lock held by another CPU is the only stop allowed. *)
Definition spins : stop -> Prop := fun e => exists lk, e = Spin lk.

Section wp_rules.
Context {S : Type}.
Implicit Types (s : S) (E : stop -> Prop).

Lemma wp_ret {A} (a : A) E (Q : A -> S -> Prop) s : Q a s -> wp (ret a) E Q s.
Proof. done. Qed.

Lemma wp_bind {A B} (m : M S A) (k : A -> M S B) E Q s :
  wp m E (fun a s' => wp (k a) E Q s') s -> wp (bind m k) E Q s.
Proof. unfold wp, bind. by destruct (m s) as [[a s']|e]. Qed.

Lemma wp_bind_inv {A B} (m : M S A) (k : A -> M S B) E Q s :
  wp (bind m k) E Q s -> wp m E (fun a s' => wp (k a) E Q s') s.
Proof. unfold wp, bind. by destruct (m s) as [[a s']|e]. Qed.

Lemma wp_conseq {A} (m : M S A) E E' (Q Q' : A -> S -> Prop) s :
  wp m E Q s -> (forall e, E e -> E' e) -> (forall a s', Q a s' -> Q' a s') -> wp m E' Q' s.
Proof. unfold wp. destruct (m s) as [[a s']|e]; eauto. Qed.

Lemma wp_mono {A} (m : M S A) E (Q Q' : A -> S -> Prop) s :
  wp m E Q s -> (forall a s', Q a s' -> Q' a s') -> wp m E Q' s.
Proof. intros. eapply wp_conseq; eauto. Qed.

Lemma wp_get E (Q : S -> S -> Prop) s : Q s s -> wp get E Q s.
Proof. done. Qed.

Lemma wp_put E (Q : unit -> S -> Prop) s s' : Q tt s' -> wp (put s') E Q s.
Proof. done. Qed.

Lemma wp_gets {A} (f : S -> A) E (Q : A -> S -> Prop) s : Q (f s) s -> wp (gets f) E Q s.
Proof. done. Qed.

Lemma wp_modify f E (Q : unit -> S -> Prop) s : Q tt (f s) -> wp (modify f) E Q s.
Proof. done. Qed.

Lemma wp_stop {A} e E (Q : A -> S -> Prop) s : E e -> wp (stop_with e) E Q s.
Proof. done. Qed.

Lemma wp_guard b e E (Q : unit -> S -> Prop) s :
  (b = true -> Q tt s) -> (b = false -> E e) -> wp (guard_or b e) E Q s.
Proof. destruct b; unfold wp, guard_or, ret, stop_with; auto. Qed.

Lemma wp_some {A} e (o : option A) a E (Q : A -> S -> Prop) s :
  o = Some a -> Q a s -> wp (of_option e o) E Q s.
Proof. by intros ->. Qed.

Lemma wp_zoom {T A} (g : S -> T) (p : T -> S -> S) (m : M T A) E (Q : A -> S -> Prop) s :
  wp m E (fun a t => Q a (p t s)) (g s) -> wp (zoom g p m) E Q s.
Proof. unfold wp, zoom. by destruct (m (g s)) as [[a t]|e]. Qed.

Lemma wp_ok {A} (m : M S A) E (Q : A -> S -> Prop) s a s' :
  wp m E Q s -> m s = Ok (a, s') -> Q a s'.
Proof. unfold wp. intros H Hm. by rewrite Hm in H. Qed.

Lemma bind_ok {A B} (m : M S A) (k : A -> M S B) s a s' :
  m s = Ok (a, s') -> bind m k s = k a s'.
Proof. unfold bind. by intros ->. Qed.

(** Loop rule: the invariant may speak of what is left to visit. *)
Lemma wp_for_each {X} (I : list X -> S -> Prop) (l : list X) body E (Q : unit -> S -> Prop) s :
  I l s ->
  (forall x r s, I (x :: r) s -> wp (body x) E (fun _ s' => I r s') s) ->
  (forall s, I [] s -> Q tt s) ->
  wp (for_each l body) E Q s.
Proof.
  intros HI Hbody HQ. revert s HI. induction l as [|x l IH]; intros s HI; cbn.
  - apply wp_ret, HQ, HI.
  - apply wp_bind. eapply wp_mono; [apply Hbody, HI|]. intros ? s' Hs'. by apply IH.
Qed.

Lemma wp_for_until {X B} (I : list X -> S -> Prop) (l : list X) body E
    (Q : option B -> S -> Prop) s :
  I l s ->
  (forall x r s, I (x :: r) s ->
     wp (body x) E (fun o s' => match o with Some b => Q (Some b) s' | None => I r s' end) s) ->
  (forall s, I [] s -> Q None s) ->
  wp (for_until l body) E Q s.
Proof.
  intros HI Hbody HQ. revert s HI. induction l as [|x l IH]; intros s HI; cbn.
  - apply wp_ret, HQ, HI.
  - apply wp_bind. eapply wp_mono; [apply Hbody, HI|].
    intros [b|] s' Hs'; [by apply wp_ret | by apply IH].
Qed.

Lemma loop_inl {X B} n (body : X -> M S (X + B)) x x' s s' :
  body x s = Ok (inl x', s') -> loop (Datatypes.S n) body x s = loop n body x' s'.
Proof. intros H. cbn. by rewrite (bind_ok _ _ _ _ _ H). Qed.

Lemma loop_inr {X B} n (body : X -> M S (X + B)) x b s s' :
  body x s = Ok (inr b, s') -> loop (Datatypes.S n) body x s = Ok (b, s').
Proof. intros H. cbn. by rewrite (bind_ok _ _ _ _ _ H). Qed.

(** More fuel does not change a result. *)
Lemma loop_more {X B} n k (body : X -> M S (X + B)) x s :
  loop n body x s <> Stop NoFuel -> loop (n + k) body x s = loop n body x s.
Proof.
  revert x s. induction n as [|n IH]; intros x s H; [done|]. cbn in *. unfold bind in *.
  destruct (body x s) as [[[x'|b] s']|e]; [|done|done]. by apply IH.
Qed.

(** A loop whose variant decreases leaves before its fuel is spent. *)
Lemma wp_loop {X B} (I : X -> S -> Prop) (var : X -> S -> nat) (fuel : nat) body x E
    (Q : B -> S -> Prop) s :
  I x s -> (var x s < fuel)%nat ->
  (forall x s, I x s ->
     wp (body x) E (fun r s' =>
       match r with
       | inl x' => I x' s' /\ (var x' s' < var x s)%nat
       | inr b => Q b s'
       end) s) ->
  wp (loop fuel body x) E Q s.
Proof.
  intros HI Hv Hbody. revert x s HI Hv.
  induction fuel as [|fuel IH]; intros x s HI Hv; [lia|]; cbn.
  apply wp_bind. eapply wp_mono; [apply Hbody, HI|].
  intros [x'|b] s'; [|by intros; apply wp_ret].
  intros [HI' Hv']. apply IH; [done|lia].
Qed.
End wp_rules.

Create HintDb kernel.
#[export] Hint Resolve wp_ret wp_get wp_put wp_gets wp_modify : kernel.

(** [wstep] makes one step of a [wp] goal, [wsteps] as many as it can. *)
Ltac wstep :=
  lazymatch goal with
  | |- wp (bind _ _) _ _ _ => apply wp_bind
  | |- wp (ret _) _ _ _ => apply wp_ret
  | |- wp get _ _ _ => apply wp_get
  | |- wp (put _) _ _ _ => apply wp_put
  | |- wp (gets _) _ _ _ => apply wp_gets
  | |- wp (modify _) _ _ _ => apply wp_modify
  | |- wp (stop_with _) _ _ _ => apply wp_stop
  end.
Ltac wsteps := repeat (wstep; cbn beta iota).

(** ** Counting *)
Fixpoint countb {A} (f : A -> bool) (l : list A) : Z :=
  match l with
  | [] => 0
  | x :: l => (if f x then 1 else 0) + countb f l
  end.

Definition bz (b : bool) : Z := if b then 1 else 0.

Section countb.
Context {A : Type}.
Implicit Types (f g : A -> bool) (l : list A).

Lemma countb_range f l : 0 <= countb f l <= Z.of_nat (length l).
Proof. induction l as [|x l IH]; cbn -[Z.of_nat]; [done|]. destruct (f x); lia. Qed.

Lemma countb_insert f l i x y :
  l !! i = Some x -> countb f (<[i := y]> l) = countb f l - bz (f x) + bz (f y).
Proof.
  revert i. induction l as [|z l IH]; intros [|i]; csimpl; intros Hl; simplify_eq.
  - unfold bz. destruct (f x), (f y); lia.
  - rewrite (IH _ Hl). lia.
Qed.

Lemma countb_pos f l : 0 < countb f l <-> exists i x, l !! i = Some x /\ f x = true.
Proof.
  induction l as [|z l IH]; cbn.
  - split; [lia|]. by intros (i & x & ? & ?).
  - pose proof (countb_range f l). split.
    + destruct (f z) eqn:Hz; [by intros _; exists 0%nat, z|].
      intros Hp. destruct (proj1 IH ltac:(lia)) as (i & x & ? & ?). by exists (S i), x.
    + intros ([|i] & x & Hx & Hf); cbn in Hx; simplify_eq.
      * rewrite Hf. lia.
      * assert (0 < countb f l) by (apply IH; eauto). destruct (f z); lia.
Qed.

Lemma countb_ext f g l : (forall x, x ∈ l -> f x = g x) -> countb f l = countb g l.
Proof.
  induction l as [|z l IH]; intros Hfg; cbn; [done|].
  rewrite (Hfg z) by set_solver. rewrite IH; [done|]. intros. apply Hfg. set_solver.
Qed.

Lemma countb_zero f l : (forall x, x ∈ l -> f x = false) -> countb f l = 0.
Proof.
  induction l as [|z l IH]; intros Hf; cbn; [done|].
  rewrite (Hf z) by set_solver. rewrite IH; [done|]. intros. apply Hf. set_solver.
Qed.
End countb.

(** The sum of a measure over a list. *)
Fixpoint sumZ {A} (f : A -> Z) (l : list A) : Z :=
  match l with
  | [] => 0
  | x :: l => f x + sumZ f l
  end.

Lemma sumZ_insert {A} (f : A -> Z) (l : list A) i x y :
  l !! i = Some x -> sumZ f (<[i := y]> l) = sumZ f l - f x + f y.
Proof.
  revert i. induction l as [|z l IH]; intros [|i]; csimpl; intros Hl; simplify_eq; [lia|].
  rewrite (IH _ Hl). lia.
Qed.

Lemma sumZ_nonneg {A} (f : A -> Z) (l : list A) :
  (forall i x, l !! i = Some x -> 0 <= f x) -> 0 <= sumZ f l.
Proof.
  induction l as [|x l IH]; intros Hf; cbn; [done|].
  pose proof (Hf 0%nat x eq_refl). assert (0 <= sumZ f l); [|lia].
  apply IH. intros i. apply (Hf (S i)).
Qed.

Lemma alter_insert_some {A} (f : A -> A) (l : list A) i x :
  l !! i = Some x -> alter f i l = <[i := f x]> l.
Proof.
  revert i. induction l as [|z l IH]; intros [|i]; csimpl; intros Hl; simplify_eq; [done|].
  by rewrite (IH _ Hl).
Qed.

(** ** A pass over the slots of a table

    [partly g r l l']: [l'] is [l] with [g] applied to the entries at the
    indices that are not in [r], those still to be visited. *)
Section partly.
Context {A : Type} (g : A -> A).
Implicit Types (l : list A) (r : list nat).

Definition partly r l l' : Prop :=
  NoDup r /\ (forall j, j ∈ r -> j < length l)%nat /\ length l' = length l /\
  forall j, l' !! j = if decide (j ∈ r) then l !! j else g <$> l !! j.

Lemma partly_start l n : length l = n -> partly (seq 0 n) l l.
Proof.
  intros Hn. split; [apply NoDup_seq|]. split; [|split; [done|]]; intros j.
  - rewrite elem_of_seq. lia.
  - case_decide as Hj; [done|]. rewrite elem_of_seq in Hj. by rewrite lookup_ge_None_2 by lia.
Qed.

Lemma partly_at r i l l' :
  partly (i :: r) l l' -> exists x, l !! i = Some x /\ l' !! i = Some x.
Proof.
  intros (_ & Hr & _ & Hl). destruct (lookup_lt_is_Some_2 l i) as [x Hx]; [apply Hr; set_solver|].
  exists x. split; [done|]. rewrite Hl, decide_True; [done|]. set_solver.
Qed.

Lemma partly_step r i l l' x :
  partly (i :: r) l l' -> l !! i = Some x -> partly r l (<[i := g x]> l').
Proof.
  intros (Hnd & Hr & Hlen & Hl) Hx. apply NoDup_cons in Hnd as [Hi Hnd].
  split; [done|]. split; [set_solver|]. split; [by rewrite length_insert|]. intros j.
  destruct (decide (i = j)) as [<-|Hne].
  - rewrite list_lookup_insert_eq by (rewrite Hlen; by eapply lookup_lt_Some).
    by rewrite decide_False, Hx.
  - rewrite list_lookup_insert_ne, Hl by done. do 2 case_decide; set_solver.
Qed.

Lemma partly_skip r i l l' x :
  partly (i :: r) l l' -> l !! i = Some x -> g x = x -> partly r l l'.
Proof.
  intros Hp Hx Hg. destruct (partly_at _ _ _ _ Hp) as (y & Hy & Hi).
  pose proof (partly_step _ _ _ _ _ Hp Hx) as Hs. rewrite Hg in Hs.
  rewrite list_insert_id in Hs; [done|]. by rewrite Hi, <- Hy.
Qed.

Lemma partly_end l l' : partly [] l l' -> l' = g <$> l.
Proof.
  intros (_ & _ & _ & Hl). apply list_eq. intros j. rewrite Hl, list_lookup_fmap.
  by rewrite decide_False by set_solver.
Qed.
End partly.

(** ** A search of the slots of a table

    A loop that leaves at the first entry that satisfies [f] and does nothing
    at the others. *)
Lemma wp_for_until_find {S A B} (f : A -> bool) (l : list A) (n : nat)
    (body : nat -> M S (option B)) (X : stop -> Prop) (Q : option B -> S -> Prop) (s : S) :
  length l = n ->
  (forall i x, l !! i = Some x -> f x = false -> body i s = Ok (None, s)) ->
  match list_find (fun x => f x = true) l with
  | Some (i, x) =>
      wp (body i) X (fun o s' => match o with Some b => Q (Some b) s' | None => False end) s
  | None => Q None s
  end ->
  wp (for_until (seq 0 n) body) X Q s.
Proof.
  intros Hn Hbody HQ.
  apply wp_for_until with (I := fun r s' => s' = s /\ exists k, r = seq k (n - k) /\ (k <= n)%nat /\
    forall j x, l !! j = Some x -> (j < k)%nat -> f x = false).
  - split; [done|]. exists 0%nat. rewrite Nat.sub_0_r. split; [done|]. split; lia.
  - intros i r ? (-> & k & Hr & Hk & Hf).
    assert (k < n)%nat as Hlt.
    { destruct (n - k)%nat eqn:Hnk; [by rewrite ?Hnk in Hr|lia]. }
    replace (n - k)%nat with (Datatypes.S (n - Datatypes.S k)) in Hr by lia.
    cbn in Hr. injection Hr as -> ->.
    destruct (lookup_lt_is_Some_2 l k) as [x Hx]; [lia|]. destruct (f x) eqn:Hfx.
    + assert (list_find (fun x => f x = true) l = Some (k, x)) as Hfind.
      { apply list_find_Some. split; [done|]. split; [done|]. intros j y Hj Hjk.
        by rewrite (Hf j y). }
      rewrite Hfind in HQ. eapply wp_mono; [done|]. by intros [b|] s'.
    + unfold wp. rewrite (Hbody k x) by done. split; [done|]. exists (Datatypes.S k).
      split; [done|]. split; [lia|]. intros j y Hj Hjk.
      destruct (decide (j = k)) as [->|]; [congruence|]. apply (Hf j); [done|lia].
  - intros ? (-> & k & Hr & Hk & Hf).
    assert (k = n) as ->. { destruct (n - k)%nat eqn:Hnk; [lia|]. by rewrite ?Hnk in Hr. }
    destruct (list_find _ l) as [[i x]|] eqn:Hfind; [|done].
    apply list_find_Some in Hfind as (Hx & Hfx & _).
    rewrite (Hf i x) in Hfx; [done|done|]. apply lookup_lt_Some in Hx. lia.
Qed.

(** The same for a list of indices. *)
Lemma wp_for_until_first {S A B} (f : A -> bool) (l : list A)
    (body : A -> M S (option B)) (X : stop -> Prop) (Q : option B -> S -> Prop) (s : S) :
  (forall x, x ∈ l -> f x = false -> body x s = Ok (None, s)) ->
  (forall x, x ∈ l -> f x = true ->
     wp (body x) X (fun o s' => match o with Some b => Q (Some b) s' | None => False end) s) ->
  ((forall x, x ∈ l -> f x = false) -> Q None s) ->
  wp (for_until l body) X Q s.
Proof.
  induction l as [|x l IH]; intros Hskip Hhit Hnone; cbn.
  { apply wp_ret, Hnone. set_solver. }
  apply wp_bind. destruct (f x) eqn:Hf.
  - eapply wp_mono; [apply Hhit; [set_solver|done]|]. intros [b|] s'; [by intros; apply wp_ret|done].
  - unfold wp at 1. rewrite Hskip by (set_solver || done). apply IH.
    + intros y Hy. apply Hskip. set_solver.
    + intros y Hy. apply Hhit. set_solver.
    + intros Hall. apply Hnone. intros y [->|Hy]%elem_of_cons; auto.
Qed.

(** [for (k = 0; k < n; k++) body(k)] with an invariant on the counter. *)
Lemma wp_for_seq {S} (I : nat -> S -> Prop) (n : nat) (body : nat -> M S unit)
    (X : stop -> Prop) (Q : unit -> S -> Prop) (s : S) :
  I 0%nat s ->
  (forall k s, (k < n)%nat -> I k s -> wp (body k) X (fun _ s' => I (Datatypes.S k) s') s) ->
  (forall s, I n s -> Q tt s) ->
  wp (for_each (seq 0 n) body) X Q s.
Proof.
  intros H0 Hbody HQ.
  apply wp_for_each with (I := fun r s => exists k, r = seq k (n - k) /\ (k <= n)%nat /\ I k s).
  - exists 0%nat. rewrite Nat.sub_0_r. split; [done|]. split; [lia|done].
  - intros x r s' (k & Hr & Hk & HI).
    assert (k < n)%nat as Hlt. { destruct (n - k)%nat eqn:Hnk; [done|lia]. }
    replace (n - k)%nat with (Datatypes.S (n - Datatypes.S k)) in Hr by lia. cbn in Hr.
    injection Hr as -> ->. eapply wp_mono; [by apply Hbody|]. intros ? s'' HI'.
    exists (Datatypes.S k). split; [done|]. split; [lia|done].
  - intros s' (k & Hr & Hk & HI). apply HQ.
    destruct (n - k)%nat eqn:Hnk; [|done]. by replace n with k by lia.
Qed.

(** The same for a loop that may leave early. *)
Lemma wp_for_until_seq {S B} (I : nat -> S -> Prop) (n : nat) (body : nat -> M S (option B))
    (E : stop -> Prop) (Q : option B -> S -> Prop) (s : S) :
  I 0%nat s ->
  (forall k s, (k < n)%nat -> I k s ->
     wp (body k) E (fun o s' => match o with Some b => Q (Some b) s' | None => I (Datatypes.S k) s' end) s) ->
  (forall s, I n s -> Q None s) ->
  wp (for_until (seq 0 n) body) E Q s.
Proof.
  intros HI Hbody HQ. apply wp_for_until with (I := fun r s => exists k, r = seq k (n - k) /\ (k <= n)%nat /\ I k s).
  - exists 0%nat. rewrite Nat.sub_0_r. split; [done|]. split; [lia|done].
  - intros x r s' (k & Hr & Hk & HI'). destruct (n - k)%nat as [|m] eqn:Hm; [done|].
    cbn in Hr. injection Hr as -> ->. eapply wp_mono; [apply Hbody; [lia|done]|].
    intros [b|] s''; [done|]. intros HI''. exists (Datatypes.S k).
    replace (n - Datatypes.S k)%nat with m by lia. split; [done|]. split; [lia|done].
  - intros s' (k & Hr & Hk & HI'). apply HQ. destruct (n - k)%nat eqn:Hm; [|done].
    by replace n with k by lia.
Qed.
