(* ===== verification/Params.v ===== *)
(** * Kernel parameters ([param.h], [types.h], [fcntl.h])

    The constants of [param.h] and [fcntl.h], with the values of the source, and the range
    predicates of the C integer types. *)
From Stdlib Require Import ZArith.
#[local] Open Scope Z_scope.

Definition NPROC : nat := 64.
Definition KSTACKSIZE : Z := 4096.
Definition NCPU : nat := 8.
Definition NOFILE : nat := 16.
Definition NFILE : nat := 100.
Definition NINODE : nat := 50.
Abbreviation NDEV := 10%Z.
Definition ROOTDEV : Z := 1.
Abbreviation MAXARG := 32%nat.
Definition MAXOPBLOCKS : Z := 10.
Definition LOGSIZE : Z := MAXOPBLOCKS * 3.
Definition NBUF : nat := 30.
Definition FSSIZE : Z := 50000.
Abbreviation STRIDE_DIVIDEND := 10000%Z.

(** [fcntl.h] *)
Abbreviation O_RDONLY := 0x000%Z.
Abbreviation O_WRONLY := 0x001%Z.
Abbreviation O_RDWR := 0x002%Z.
Abbreviation O_CREATE := 0x200%Z.

(** [x] is a value of a C [uint], [int]. *)
Definition is_uint (x : Z) : Prop := 0 <= x < 2 ^ 32.
Definition is_int (x : Z) : Prop := - 2 ^ 31 <= x < 2 ^ 31.
