(* ===== verification/Mmu.v ===== *)
(** * Address arithmetic ([mmu.h], [memlayout.h])

    The macros of the two headers on 32-bit addresses, with the equations
    that relate them. *)
From stdpp Require Import prelude.
From Stdlib Require Import ZArith Lia.
From S2P Require Import Prelude.
#[local] Open Scope Z_scope.

Definition EXTMEM : Z := 0x100000.
Definition PHYSTOP : Z := 0xE000000.
Abbreviation DEVSPACE := 0xFE000000%Z.
Definition KERNBASE : Z := 0x80000000.
Definition KERNLINK : Z := KERNBASE + EXTMEM.
Definition V2P (a : Z) : Z := u32 (a - KERNBASE).
Definition P2V (a : Z) : Z := u32 (a + KERNBASE).

Abbreviation SEG_KCODE := 1%Z.
Abbreviation SEG_KDATA := 2%Z.
Abbreviation SEG_UCODE := 3%Z.
Abbreviation SEG_UDATA := 4%Z.
Abbreviation SEG_TSS := 5%Z.
Abbreviation DPL_USER := 3%Z.
Abbreviation FL_IF := 0x200%Z.

Definition PTXSHIFT : Z := 12.
Definition PDXSHIFT : Z := 22.
Definition NPDENTRIES : Z := 1024.
Definition NPTENTRIES : Z := 1024.
Definition PGSIZE : Z := 4096.
Definition PDX (va : Z) : Z := Z.land (Z.shiftr va PDXSHIFT) 0x3FF.
Definition PTX (va : Z) : Z := Z.land (Z.shiftr va PTXSHIFT) 0x3FF.
Definition PGADDR (d t o : Z) : Z :=
  u32 (Z.lor (Z.lor (Z.shiftl d PDXSHIFT) (Z.shiftl t PTXSHIFT)) o).
Definition PGROUNDUP (sz : Z) : Z := Z.land (u32 (sz + PGSIZE - 1)) (u32 (Z.lnot (PGSIZE - 1))).
Definition PGROUNDDOWN (a : Z) : Z := Z.land a (u32 (Z.lnot (PGSIZE - 1))).

Definition PTE_P : Z := 0x001.
Definition PTE_W : Z := 0x002.
Definition PTE_U : Z := 0x004.
Definition PTE_ADDR (pte : Z) : Z := Z.land pte (u32 (Z.lnot 0xFFF)).
Definition PTE_FLAGS (pte : Z) : Z := Z.land pte 0xFFF.

(** ** Equations *)

Lemma land_ones_div (a n : Z) : 0 <= n -> Z.land a (Z.ones n) = a mod 2 ^ n.
Proof. intros. by rewrite Z.land_ones. Qed.

(** Clearing the low 12 bits of a 32-bit value. *)
Lemma land_page_mask a : 0 <= a < 2 ^ 32 -> Z.land a (u32 (Z.lnot 4095)) = a / 4096 * 4096.
Proof.
  intros Ha. change (u32 (Z.lnot 4095)) with (Z.shiftl (Z.ones 20) 12).
  change 4096 with (2 ^ 12). rewrite <- Z.shiftr_div_pow2, <- Z.shiftl_mul_pow2 by lia.
  apply Z.bits_inj'. intros n Hn. rewrite Z.land_spec.
  destruct (Z.lt_ge_cases n 12).
  - rewrite (Z.shiftl_spec_low _ _ n), (Z.shiftl_spec_low _ _ n) by lia. apply andb_false_r.
  - rewrite !Z.shiftl_spec, Z.shiftr_spec by lia. replace (n - 12 + 12) with n by lia.
    destruct (Z.lt_ge_cases n 32).
    + rewrite Z.ones_spec_low by lia. apply andb_true_r.
    + rewrite Z.ones_spec_high by lia. rewrite andb_false_r.
      destruct (Z.eq_dec a 0) as [->|]; [by rewrite Z.bits_0|].
      symmetry. apply Z.bits_above_log2; [lia|]. apply Z.log2_lt_pow2; [lia|].
      apply Z.lt_le_trans with (2 ^ 32); [lia|]. apply Z.pow_le_mono_r; lia.
Qed.

Lemma PGROUNDDOWN_div a : 0 <= a < 2 ^ 32 -> PGROUNDDOWN a = a / 4096 * 4096.
Proof. apply land_page_mask. Qed.

Lemma PTE_ADDR_div a : 0 <= a < 2 ^ 32 -> PTE_ADDR a = a / 4096 * 4096.
Proof. apply land_page_mask. Qed.

Lemma PTE_FLAGS_mod a : PTE_FLAGS a = a mod 4096.
Proof. unfold PTE_FLAGS. change 0xFFF with (Z.ones 12). by rewrite Z.land_ones. Qed.

Lemma PGROUNDUP_div a : 0 <= a <= 2 ^ 32 - 4096 -> PGROUNDUP a = (a + 4095) / 4096 * 4096.
Proof.
  intros Ha. unfold PGROUNDUP, PGSIZE. rewrite (u32_small (a + 4096 - 1)) by lia.
  change (Z.lnot (4096 - 1)) with (Z.lnot 4095).
  rewrite land_page_mask by lia. f_equal. f_equal. lia.
Qed.

Lemma PDX_div a : 0 <= a < 2 ^ 32 -> PDX a = a / 2 ^ 22.
Proof.
  intros Ha. unfold PDX, PDXSHIFT. change 0x3FF with (Z.ones 10).
  rewrite Z.land_ones, Z.shiftr_div_pow2 by lia. apply Z.mod_small.
  split; [apply Z.div_pos; lia|]. apply Z.div_lt_upper_bound; lia.
Qed.

Lemma PTX_div a : PTX a = (a / 2 ^ 12) mod 2 ^ 10.
Proof.
  unfold PTX, PTXSHIFT. change 0x3FF with (Z.ones 10).
  by rewrite Z.land_ones, Z.shiftr_div_pow2 by lia.
Qed.

(** An address is its directory index, table index and offset. *)
Lemma page_split a : 0 <= a < 2 ^ 32 ->
  a / 4096 = PDX a * 1024 + PTX a /\ 0 <= PDX a < 1024 /\ 0 <= PTX a < 1024.
Proof.
  intros Ha. rewrite PDX_div, PTX_div by done.
  pose proof (Z.mod_pos_bound (a / 2 ^ 12) (2 ^ 10) ltac:(lia)).
  assert (a / 2 ^ 22 = a / 2 ^ 12 / 2 ^ 10) as Hd by (rewrite Z.div_div by lia; done).
  pose proof (Z.div_mod (a / 2 ^ 12) (2 ^ 10) ltac:(lia)).
  assert (0 <= a / 2 ^ 22 < 1024) by (split; [apply Z.div_pos; lia|apply Z.div_lt_upper_bound; lia]).
  change (2 ^ 12) with 4096 in *. change (2 ^ 10) with 1024 in *. lia.
Qed.

Lemma V2P_P2V a : 0 <= a < 2 ^ 32 -> V2P (P2V a) = a.
Proof. intros. unfold V2P, P2V. rewrite u32_sub_l. rewrite u32_small; lia. Qed.

Lemma P2V_V2P a : 0 <= a < 2 ^ 32 -> P2V (V2P a) = a.
Proof. intros. unfold V2P, P2V. rewrite u32_add_l. rewrite u32_small; lia. Qed.
