(* ===== verification/Seg.v ===== *)
(** * Segment and gate descriptors ([mmu.h], [vm.c]: [seginit],
    [trap.c]: [tvinit])

    The descriptors with their bit fields, what the processor reads back from
    them, and the tables the kernel fills in. *)
From stdpp Require Import base list.
From Stdlib Require Import ZArith Lia.
From S2P Require Import Prelude Mmu.
#[local] Open Scope Z_scope.

Abbreviation NSEGS := 6%nat.
Abbreviation STA_X := 8%Z.
Abbreviation STA_W := 2%Z.
Abbreviation STA_R := 2%Z.
Abbreviation STS_T32A := 9%Z.
Abbreviation STS_IG32 := 14%Z.
Abbreviation STS_TG32 := 15%Z.

Record segdesc := mkseg {
  lim_15_0 : Z; base_15_0 : Z; base_23_16 : Z; sd_type : Z; sd_s : Z; sd_dpl : Z; sd_p : Z;
  lim_19_16 : Z; sd_avl : Z; sd_rsv1 : Z; sd_db : Z; sd_g : Z; base_31_24 : Z
}.

Definition SEG (type base lim dpl : Z) : segdesc :=
  mkseg (Z.land (Z.shiftr lim 12) 0xffff) (Z.land base 0xffff) (Z.land (Z.shiftr base 16) 0xff)
    type 1 dpl 1 (Z.shiftr lim 28) 0 0 1 1 (Z.shiftr base 24).
Definition SEG16 (type base lim dpl : Z) : segdesc :=
  mkseg (Z.land lim 0xffff) (Z.land base 0xffff) (Z.land (Z.shiftr base 16) 0xff)
    type 1 dpl 1 (Z.shiftr lim 16) 0 0 1 0 (Z.shiftr base 24).

(** The base and the last offset the processor computes. *)
Definition seg_base (d : segdesc) : Z := base_15_0 d + base_23_16 d * 2 ^ 16 + base_31_24 d * 2 ^ 24.
Definition seg_limit (d : segdesc) : Z :=
  let l := lim_15_0 d + lim_19_16 d * 2 ^ 16 in
  if sd_g d =? 1 then l * 2 ^ 12 + 0xfff else l.

Definition seg_null : segdesc := mkseg 0 0 0 0 0 0 0 0 0 0 0 0 0.

(** [c->gdt] after [seginit]. *)
Definition seginit_gdt (gdt : list segdesc) : list segdesc :=
  <[Z.to_nat SEG_UDATA := SEG STA_W 0 0xffffffff DPL_USER]>
  (<[Z.to_nat SEG_UCODE := SEG (Z.lor STA_X STA_R) 0 0xffffffff DPL_USER]>
  (<[Z.to_nat SEG_KDATA := SEG STA_W 0 0xffffffff 0]>
  (<[Z.to_nat SEG_KCODE := SEG (Z.lor STA_X STA_R) 0 0xffffffff 0]> gdt))).

Record gatedesc := mkgate {
  off_15_0 : Z; g_cs : Z; g_args : Z; g_rsv1 : Z; g_type : Z; g_s : Z; g_dpl : Z; g_p : Z;
  off_31_16 : Z
}.

Definition SETGATE (istrap : bool) (sel off d : Z) : gatedesc :=
  mkgate (Z.land off 0xffff) sel 0 0 (if istrap then STS_TG32 else STS_IG32) 0 d 1 (Z.shiftr off 16).

Definition gate_off (g : gatedesc) : Z := off_15_0 g + off_31_16 g * 2 ^ 16.

(** [idt] after [tvinit]; [vectors] are the entry points of the generated
    [vectors.S]. *)
Abbreviation T_SYSCALL := 64%Z.
Definition tvinit_gates (vectors : nat -> Z) : list gatedesc :=
  <[Z.to_nat T_SYSCALL :=
      SETGATE true (Z.shiftl SEG_KCODE 3) (vectors (Z.to_nat T_SYSCALL)) DPL_USER]>
    (map (fun i => SETGATE false (Z.shiftl SEG_KCODE 3) (vectors i) 0) (seq 0 256)).

(** ** What the processor sees *)

Lemma seg_base_SEG t b l d : 0 <= b < 2 ^ 32 -> seg_base (SEG t b l d) = b.
Proof.
  intros Hb. unfold seg_base, SEG; cbn [base_15_0 base_23_16 base_31_24].
  change 0xffff with (Z.ones 16). change 0xff with (Z.ones 8).
  rewrite !Z.land_ones, !Z.shiftr_div_pow2 by lia.
  change (2 ^ 24) with (2 ^ 16 * 2 ^ 8). rewrite <- Z.div_div by lia.
  pose proof (Z.div_mod b (2 ^ 16) ltac:(lia)). pose proof (Z.div_mod (b / 2 ^ 16) (2 ^ 8) ltac:(lia)).
  lia.
Qed.

Lemma gate_off_SETGATE t sel off d : gate_off (SETGATE t sel off d) = off.
Proof.
  unfold gate_off, SETGATE; cbn [off_15_0 off_31_16]. change 0xffff with (Z.ones 16).
  rewrite Z.land_ones, Z.shiftr_div_pow2 by lia.
  pose proof (Z.div_mod off (2 ^ 16) ltac:(lia)). lia.
Qed.

(** The interrupt table [tvinit] fills in has 256 present gates into the
    kernel's code segment, each at its own entry point; user code may raise
    only the system call, whose gate alone leaves interrupts on. *)
Theorem tvinit_gates_ok vectors i g :
  tvinit_gates vectors !! i = Some g ->
  (i < 256)%nat /\ gate_off g = vectors i /\ g_p g = 1 /\ g_s g = 0 /\ g_cs g = 8 /\
  (3 <= g_dpl g <-> i = 64%nat) /\ (g_type g = STS_TG32 <-> i = 64%nat) /\
  (g_type g = STS_IG32 <-> i <> 64%nat).
Proof.
  unfold tvinit_gates. change (Z.to_nat T_SYSCALL) with 64%nat.
  intros [(<- & <- & _)|[Hne Hg]]%list_lookup_insert_Some.
  - split; [lia|]. split; [apply gate_off_SETGATE|]. by vm_compute.
  - rewrite list_lookup_fmap in Hg. apply fmap_Some in Hg as (j & [-> Hj]%lookup_seq & ->).
    split; [lia|]. split; [apply gate_off_SETGATE|]. cbn. repeat split; try done; try lia.
Qed.

Lemma tvinit_gates_ok_witness :
  (64 < 256)%nat /\ gate_off (SETGATE true 8 0x80105000 3) = 0x80105000 /\ 1 = 1 /\ 0 = 0 /\ 8 = 8 /\
  (3 <= 3 <-> 64%nat = 64%nat) /\ (STS_TG32 = STS_TG32 <-> 64%nat = 64%nat) /\
  (STS_TG32 = STS_IG32 <-> 64%nat <> 64%nat).
Proof.
  apply (tvinit_gates_ok (fun _ => 0x80105000) 64 (SETGATE true 8 0x80105000 3)). reflexivity.
Defined.
