(* ===== verification/Bytes.v ===== *)
(** * Little-endian words in blocks of bytes

    Blocks, pages and on-disk structures are lists of bytes; the C code reads
    and writes [ushort] and [uint] fields of them through pointer casts. *)
From Stdlib Require Import ZArith Lia.
From stdpp Require Import base list.
From S2P Require Import Prelude.
#[local] Open Scope Z_scope.

Definition byte_at (d : list Z) (o : nat) : Z := nth o d 0.
Definition is_byte (x : Z) : Prop := 0 <= x < 256.
Definition bytes_ok (d : list Z) : Prop := Forall is_byte d.

(** [*(ushort* )(d + o)] and [*(uint* )(d + o)] *)
Definition get16 (d : list Z) (o : nat) : Z := byte_at d o + 256 * byte_at d (o + 1).
Definition get32 (d : list Z) (o : nat) : Z :=
  byte_at d o + 256 * (byte_at d (o + 1) + 256 * (byte_at d (o + 2) + 256 * byte_at d (o + 3))).

Definition put16 (d : list Z) (o : nat) (v : Z) : list Z :=
  <[(o + 1)%nat := (v / 256) mod 256]> (<[o := v mod 256]> d).
Definition put32 (d : list Z) (o : nat) (v : Z) : list Z :=
  <[(o + 3)%nat := (v / 256 ^ 3) mod 256]> (<[(o + 2)%nat := (v / 256 ^ 2) mod 256]>
    (<[(o + 1)%nat := (v / 256) mod 256]> (<[o := v mod 256]> d))).

(** [a[k]] for [uint *a = (uint* )d] *)
Definition word_at (d : list Z) (k : Z) : Z := get32 d (4 * Z.to_nat k).
Definition set_word (d : list Z) (k v : Z) : list Z := put32 d (4 * Z.to_nat k) v.

(** [memmove(d + o, s, length s)] *)
Definition splice (d : list Z) (o : nat) (s : list Z) : list Z :=
  take o d ++ s ++ drop (o + length s) d.
(** The [n] bytes at [d + o]. *)
Definition slice (d : list Z) (o n : nat) : list Z := take n (drop o d).

#[global] Arguments get16 : simpl never.
#[global] Arguments get32 : simpl never.
#[global] Arguments put16 : simpl never.
#[global] Arguments put32 : simpl never.
#[global] Arguments word_at : simpl never.
#[global] Arguments set_word : simpl never.
#[global] Arguments splice : simpl never.
#[global] Arguments slice : simpl never.

Lemma byte_at_lookup d o x : d !! o = Some x -> byte_at d o = x.
Proof.
  unfold byte_at. revert o. induction d as [|y d IH]; intros [|o]; csimpl; intros; simplify_eq; auto.
Qed.

Lemma byte_at_insert_eq d o x : (o < length d)%nat -> byte_at (<[o := x]> d) o = x.
Proof. intros. apply byte_at_lookup. by apply list_lookup_insert_eq. Qed.

Lemma byte_at_insert_ne d o o' x : o <> o' -> byte_at (<[o := x]> d) o' = byte_at d o'.
Proof.
  unfold byte_at. revert o o'. induction d as [|y d IH]; intros [|o] [|o'] Hne; csimpl; auto; try done.
Qed.

Lemma byte_at_range d o : bytes_ok d -> is_byte (byte_at d o).
Proof.
  intros Hd. unfold byte_at. revert o. induction Hd as [|x d Hx Hd IH]; intros [|o]; cbn;
    try (unfold is_byte; lia); auto.
Qed.

Lemma length_put32 d o v : length (put32 d o v) = length d.
Proof. unfold put32. by rewrite !length_insert. Qed.

Lemma length_set_word d k v : length (set_word d k v) = length d.
Proof. apply length_put32. Qed.

Lemma is_byte_mod v : is_byte (v mod 256).
Proof. apply Z.mod_pos_bound. lia. Qed.

Lemma bytes_ok_insert d o x : bytes_ok d -> is_byte x -> bytes_ok (<[o := x]> d).
Proof. intros Hd Hx. by apply Forall_insert. Qed.

Lemma bytes_ok_put32 d o v : bytes_ok d -> bytes_ok (put32 d o v).
Proof. intros Hd. unfold put32. repeat apply bytes_ok_insert; auto using is_byte_mod. Qed.

Lemma bytes_ok_set_word d k v : bytes_ok d -> bytes_ok (set_word d k v).
Proof. apply bytes_ok_put32. Qed.

Lemma get32_range d o : bytes_ok d -> 0 <= get32 d o < 2 ^ 32.
Proof.
  intros Hd. unfold get32. pose proof (byte_at_range d o Hd). pose proof (byte_at_range d (o + 1) Hd).
  pose proof (byte_at_range d (o + 2) Hd). pose proof (byte_at_range d (o + 3) Hd).
  unfold is_byte in *. lia.
Qed.

Lemma word_at_range d k : bytes_ok d -> 0 <= word_at d k < 2 ^ 32.
Proof. apply get32_range. Qed.

(** The four bytes of a word. *)
Lemma word_bytes v : 0 <= v < 2 ^ 32 ->
  v mod 256 + 256 * ((v / 256) mod 256 + 256 * ((v / 256 ^ 2) mod 256 + 256 * ((v / 256 ^ 3) mod 256)))
  = v.
Proof.
  intros Hv.
  pose proof (Z.div_mod v 256 ltac:(lia)). pose proof (Z.div_mod (v / 256) 256 ltac:(lia)).
  pose proof (Z.div_mod (v / 256 ^ 2) 256 ltac:(lia)).
  assert (v / 256 ^ 2 = v / 256 / 256) as E2 by (rewrite Z.div_div by lia; f_equal; lia).
  assert (v / 256 ^ 3 = v / 256 ^ 2 / 256) as E3 by (rewrite Z.div_div by lia; f_equal; lia).
  assert (0 <= v / 256 ^ 3 < 256).
  { split; [apply Z.div_pos; lia|apply Z.div_lt_upper_bound; lia]. }
  rewrite (Z.mod_small (v / 256 ^ 3)) by lia. lia.
Qed.

Lemma get32_put32_eq d o v :
  (o + 4 <= length d)%nat -> 0 <= v < 2 ^ 32 -> get32 (put32 d o v) o = v.
Proof.
  intros Ho Hv. unfold get32, put32.
  repeat first [ rewrite byte_at_insert_eq by (rewrite ?length_insert; lia)
               | rewrite byte_at_insert_ne by lia ].
  by apply word_bytes.
Qed.

Lemma get32_put32_ne d o o' v :
  (o + 4 <= o' \/ o' + 4 <= o)%nat -> get32 (put32 d o v) o' = get32 d o'.
Proof.
  intros Ho. unfold get32, put32. by repeat rewrite byte_at_insert_ne by lia.
Qed.

Lemma word_at_set_eq d k v :
  0 <= k -> (4 * Z.to_nat k + 4 <= length d)%nat -> 0 <= v < 2 ^ 32 ->
  word_at (set_word d k v) k = v.
Proof. intros. by apply get32_put32_eq. Qed.

Lemma word_at_set_ne d k k' v :
  0 <= k -> 0 <= k' -> k <> k' -> word_at (set_word d k v) k' = word_at d k'.
Proof. intros. apply get32_put32_ne. lia. Qed.

(** ** Copies *)

Lemma length_splice d o s : (o + length s <= length d)%nat -> length (splice d o s) = length d.
Proof. intros. unfold splice. rewrite !length_app, length_take, length_drop. lia. Qed.

Lemma length_slice d o n : (o + n <= length d)%nat -> length (slice d o n) = n.
Proof. intros. unfold slice. rewrite length_take, length_drop. lia. Qed.

Lemma slice_splice d o s : (o + length s <= length d)%nat -> slice (splice d o s) o (length s) = s.
Proof.
  intros. unfold slice, splice. rewrite drop_app_ge by (rewrite length_take; lia).
  rewrite length_take, Nat.min_l, Nat.sub_diag, drop_0 by lia. by rewrite take_app_length.
Qed.

Lemma lookup_splice d o src i :
  (o <= length d)%nat ->
  splice d o src !! i = if decide (o <= i < o + length src)%nat then src !! (i - o)%nat else d !! i.
Proof.
  intros Ho. unfold splice. case_decide as Hi.
  - rewrite lookup_app_r by (rewrite length_take; lia). rewrite length_take, Nat.min_l by lia.
    by rewrite lookup_app_l by lia.
  - destruct (decide (i < o)%nat).
    + rewrite lookup_app_l by (rewrite length_take; lia). by rewrite lookup_take_lt.
    + rewrite lookup_app_r by (rewrite length_take; lia). rewrite length_take, Nat.min_l by lia.
      rewrite lookup_app_r by lia. rewrite lookup_drop. f_equal. lia.
Qed.

Lemma lookup_slice d o n i : slice d o n !! i = if decide (i < n)%nat then d !! (o + i)%nat else None.
Proof.
  unfold slice. case_decide.
  - by rewrite lookup_take_lt, lookup_drop by done.
  - rewrite lookup_take_ge; [done|lia].
Qed.

Lemma bytes_ok_splice d o s : bytes_ok d -> bytes_ok s -> bytes_ok (splice d o s).
Proof.
  intros Hd Hs. unfold splice. apply Forall_app. split; [by apply Forall_take|].
  apply Forall_app. split; [done|by apply Forall_drop].
Qed.

Lemma bytes_ok_slice d o n : bytes_ok d -> bytes_ok (slice d o n).
Proof. intros. by apply Forall_take, Forall_drop. Qed.

(** ** Arrays of words *)

(** [a[o] = l[0]; a[o+1] = l[1]; ...] *)
Fixpoint put_words (d : list Z) (o : Z) (l : list Z) : list Z :=
  match l with
  | [] => d
  | v :: l => put_words (set_word d o v) (o + 1) l
  end.

Lemma put_words_snoc d o l v :
  put_words d o (l ++ [v]) = set_word (put_words d o l) (o + Z.of_nat (length l)) v.
Proof.
  revert d o. induction l as [|x l IH]; intros d o; cbn [put_words app length].
  { by rewrite Z.add_0_r. }
  rewrite IH. by replace (o + 1 + Z.of_nat (length l)) with (o + Z.of_nat (S (length l))) by lia.
Qed.

Lemma length_put_words d o l : length (put_words d o l) = length d.
Proof. revert d o. induction l as [|x l IH]; intros; cbn; [done|]. by rewrite IH, length_set_word. Qed.

Lemma bytes_ok_put_words d o l : bytes_ok d -> bytes_ok (put_words d o l).
Proof.
  revert d o. induction l as [|x l IH]; intros d o Hd; cbn; [done|]. by apply IH, bytes_ok_set_word.
Qed.

Lemma word_at_put_words_lt d o l k :
  0 <= k < o -> word_at (put_words d o l) k = word_at d k.
Proof.
  revert d o. induction l as [|x l IH]; intros d o Hk; cbn; [done|].
  rewrite IH by lia. apply word_at_set_ne; lia.
Qed.

Lemma word_at_put_words d o l k v :
  0 <= o -> (4 * (Z.to_nat o + length l) <= length d)%nat ->
  l !! k = Some v -> 0 <= v < 2 ^ 32 -> word_at (put_words d o l) (o + Z.of_nat k) = v.
Proof.
  revert d o k. induction l as [|x l IH]; intros d o k Ho Hlen Hk Hv; [done|]. cbn in Hlen |- *.
  destruct k as [|k]; cbn in Hk.
  - simplify_eq. rewrite Z.add_0_r, word_at_put_words_lt by lia. apply word_at_set_eq; lia.
  - replace (o + Z.of_nat (Datatypes.S k)) with (o + 1 + Z.of_nat k) by lia.
    apply IH; [lia|rewrite length_set_word; lia|done|done].
Qed.
