(* ===== verification/Cstring.v ===== *)
(** * Byte and string routines ([string.c], and the copies of [ulib.c])

    A [char*] is the list of the bytes from the address it holds to the end
    of the object it points into; running off that end is undefined.  The
    block operations work on an address space, a total map from addresses to
    bytes, because their buffers may overlap. *)
From stdpp Require Import base list strings.
From Stdlib Require Import ZArith Lia.
From S2P Require Import Prelude.
#[local] Open Scope Z_scope.

(** An address space. *)
Definition mem : Type := Z -> Z.
Definition store (a v : Z) (m : mem) : mem := fun b => if b =? a then v else m b.

(** [rep stosb]: [cnt] bytes of [data] from [addr] up. *)
Fixpoint stosb (addr data : Z) (cnt : nat) (m : mem) : mem :=
  match cnt with
  | O => m
  | S cnt => stosb (addr + 1) data cnt (store addr (u8 data) m)
  end.

(** [rep stosl]: [cnt] little-endian words. *)
Definition store32 (a v : Z) (m : mem) : mem :=
  store (a + 3) (u8 (Z.shiftr v 24)) (store (a + 2) (u8 (Z.shiftr v 16))
    (store (a + 1) (u8 (Z.shiftr v 8)) (store a (u8 v) m))).
Fixpoint stosl (addr data : Z) (cnt : nat) (m : mem) : mem :=
  match cnt with
  | O => m
  | S cnt => stosl (addr + 4) data cnt (store32 addr data m)
  end.

(** [string.c:memset].  [(int)dst % 4 == 0] holds exactly when the address
    is a multiple of four, also where the cast makes it negative. *)
Definition memset (dst c n : Z) (m : mem) : mem :=
  if (dst mod 4 =? 0) && (n mod 4 =? 0) then
    let c := Z.land c 255 in
    stosl dst (Z.lor (Z.lor (Z.lor (Z.shiftl c 24) (Z.shiftl c 16)) (Z.shiftl c 8)) c)
      (Z.to_nat (n / 4)) m
  else stosb dst c (Z.to_nat n) m.

(** [ulib.c:memset] *)
Definition ulib_memset (dst c n : Z) (m : mem) : mem := stosb dst c (Z.to_nat n) m.

Fixpoint memcmp_loop (m : mem) (s1 s2 : Z) (n : nat) : Z :=
  match n with
  | O => 0
  | S n => if m s1 =? m s2 then memcmp_loop m (s1 + 1) (s2 + 1) n else m s1 - m s2
  end.
Definition memcmp (m : mem) (v1 v2 n : Z) : Z := memcmp_loop m v1 v2 (Z.to_nat n).

(** [while(n-- > 0) *--d = *--s] *)
Fixpoint copy_down (d s : Z) (n : nat) (m : mem) : mem :=
  match n with
  | O => m
  | S n => copy_down (d - 1) (s - 1) n (store (d - 1) (m (s - 1)) m)
  end.
(** [while(n-- > 0) *d++ = *s++] *)
Fixpoint copy_up (d s : Z) (n : nat) (m : mem) : mem :=
  match n with
  | O => m
  | S n => copy_up (d + 1) (s + 1) n (store d (m s) m)
  end.

(** [string.c:memmove] *)
Definition memmove (dst src n : Z) (m : mem) : mem :=
  if (src <? dst) && (dst <? src + n) then copy_down (dst + n) (src + n) (Z.to_nat n) m
  else copy_up dst src (Z.to_nat n) m.

Definition memcpy (dst src n : Z) (m : mem) : mem := memmove dst src n m.

(** [ulib.c:memmove] always copies upwards. *)
Definition ulib_memmove (dst src n : Z) (m : mem) : mem := copy_up dst src (Z.to_nat n) m.

(** *** NUL-terminated strings *)

(** The characters of a string literal, with the terminating 0. *)
Fixpoint chars (s : string) : list Z :=
  match s with
  | EmptyString => [0]
  | String c s => Z.of_nat (Ascii.nat_of_ascii c) :: chars s
  end.

(** The same without the 0, as the format of [cprintf]. *)
Definition text (s : string) : list Z := removelast (chars s).

(** The characters up to the terminating 0. *)
Fixpoint until_nul (l : list Z) : list Z :=
  match l with
  | [] => []
  | c :: l => if c =? 0 then [] else c :: until_nul l
  end.

Fixpoint strlen (s : list Z) : option Z :=
  match s with
  | [] => None
  | c :: s => if c =? 0 then Some 0 else (fun n => n + 1) <$> strlen s
  end.

Fixpoint strncmp (p q : list Z) (n : nat) {struct n} : option Z :=
  match n with
  | O => Some 0
  | S n =>
      match p, q with
      | a :: p, b :: q =>
          if negb (a =? 0) && (a =? b) then strncmp p q n else Some (u8 a - u8 b)
      | _, _ => None
      end
  end.

Fixpoint strcmp (p q : list Z) : option Z :=
  match p, q with
  | a :: p, b :: q =>
      if negb (a =? 0) && (a =? b) then strcmp p q else Some (u8 a - u8 b)
  | _, _ => None
  end.

(** The second loop of [strncpy]: [n] zeros. *)
Fixpoint fill_zero (s : list Z) (n : nat) {struct n} : option (list Z) :=
  match n with
  | O => Some s
  | S n => match s with [] => None | _ :: s => cons 0 <$> fill_zero s n end
  end.
Fixpoint strncpy (s t : list Z) (n : nat) {struct n} : option (list Z) :=
  match n with
  | O => Some s
  | S n =>
      match s, t with
      | _ :: s, c :: t =>
          if c =? 0 then cons 0 <$> fill_zero s n else cons c <$> strncpy s t n
      | _, _ => None
      end
  end.

(** The loop of [safestrcpy], [n] being the value after [--n]; ends with
    [*s = 0]. *)
Fixpoint safestrcpy_loop (s t : list Z) (n : nat) {struct n} : option (list Z) :=
  match n with
  | O => match s with [] => None | _ :: s => Some (0 :: s) end
  | S n =>
      match s, t with
      | _ :: s, c :: t =>
          if c =? 0 then match s with [] => None | _ :: s' => Some (0 :: 0 :: s') end
          else cons c <$> safestrcpy_loop s t n
      | _, _ => None
      end
  end.
Definition safestrcpy (s t : list Z) (n : Z) : option (list Z) :=
  if n <=? 0 then Some s else safestrcpy_loop s t (Z.to_nat (n - 1)).

(** [ulib.c:strcpy] *)
Fixpoint strcpy (s t : list Z) : option (list Z) :=
  match s, t with
  | _ :: s, c :: t => if c =? 0 then Some (0 :: s) else cons c <$> strcpy s t
  | _, _ => None
  end.

(** [ulib.c:strchr]: the offset of the first [c], [Some None] for a null
    result. *)
Fixpoint strchr (s : list Z) (c : Z) : option (option nat) :=
  match s with
  | [] => None
  | d :: s =>
      if d =? 0 then Some None
      else if d =? c then Some (Some 0%nat)
      else option_map (option_map S) (strchr s c)
  end.

(** [ulib.c:atoi] *)
Fixpoint atoi_loop (s : list Z) (n : Z) : option Z :=
  match s with
  | [] => None
  | c :: s => if (48 <=? c) && (c <=? 57) then atoi_loop s (i32 (n * 10 + c - 48)) else Some n
  end.
Definition atoi (s : list Z) : option Z := atoi_loop s 0.

Lemma until_nul_take l n : (forall i, (i < n)%nat -> exists c, l !! i = Some c /\ c <> 0) -> l !! n = Some 0 -> until_nul l = take n l.
Proof.
  revert l. induction n as [|n IH]; intros [|c l] Hl Hn; cbn in *; try done.
  - by injection Hn as ->.
  - destruct (Hl 0%nat ltac:(lia)) as (d & [= <-] & Hc). rewrite (proj2 (Z.eqb_neq c 0) Hc). f_equal.
    apply IH; [|done]. intros i Hi. apply (Hl (S i)). lia.
Qed.

(** ** Block operations *)

(** The bytes a block operation may touch. *)
Definition in_range (a dst n : Z) : bool := (dst <=? a) && (a <? dst + n).

Ltac zbool :=
  unfold in_range in *;
  repeat match goal with
  | |- context [Z.eqb ?x ?y] => destruct (Z.eqb_spec x y)
  | |- context [Z.ltb ?x ?y] => destruct (Z.ltb_spec x y)
  | |- context [Z.leb ?x ?y] => destruct (Z.leb_spec x y)
  end; cbn [andb orb negb]; try lia.

Lemma stosb_spec addr data cnt m a :
  stosb addr data cnt m a = if in_range a addr (Z.of_nat cnt) then u8 data else m a.
Proof.
  revert addr m. induction cnt as [|cnt IH]; intros addr m; cbn [stosb]; [by zbool|].
  rewrite IH. unfold store. zbool; done.
Qed.

(** A word whose four bytes are equal is four equal bytes. *)
Lemma store32_spec addr v b m a :
  (forall k, 0 <= k < 4 -> u8 (Z.shiftr v (8 * k)) = b) ->
  store32 addr v m a = if in_range a addr 4 then b else m a.
Proof.
  intros Hb. unfold store32, store.
  pose proof (Hb 0 ltac:(lia)) as H0. pose proof (Hb 1 ltac:(lia)) as H1.
  pose proof (Hb 2 ltac:(lia)) as H2. pose proof (Hb 3 ltac:(lia)) as H3.
  change (8 * 0) with 0 in H0. rewrite Z.shiftr_0_r in H0.
  change (8 * 1) with 8 in H1. change (8 * 2) with 16 in H2. change (8 * 3) with 24 in H3.
  rewrite H0, H1, H2, H3. zbool; done.
Qed.

Lemma stosl_spec addr v b cnt m a :
  (forall k, 0 <= k < 4 -> u8 (Z.shiftr v (8 * k)) = b) ->
  stosl addr v cnt m a = if in_range a addr (4 * Z.of_nat cnt) then b else m a.
Proof.
  intros Hb. revert addr m. induction cnt as [|cnt IH]; intros addr m; cbn [stosl]; [by zbool|].
  rewrite IH, (store32_spec _ _ b) by done. zbool; done.
Qed.

(** The replicated byte of [memset]. *)
Lemma replicated_byte c k :
  0 <= c < 256 -> 0 <= k < 4 ->
  u8 (Z.shiftr (Z.lor (Z.lor (Z.lor (Z.shiftl c 24) (Z.shiftl c 16)) (Z.shiftl c 8)) c) (8 * k)) = c.
Proof.
  intros Hc Hk.
  set (f := fun c k => u8 (Z.shiftr (Z.lor (Z.lor (Z.lor (Z.shiftl c 24) (Z.shiftl c 16))
    (Z.shiftl c 8)) c) (8 * k)) =? c).
  assert (Hall : forallb (fun c => forallb (f (Z.of_nat c)) [0; 1; 2; 3]) (seq 0 256) = true)
    by (vm_compute; reflexivity).
  rewrite forallb_forall in Hall. specialize (Hall (Z.to_nat c)).
  rewrite Z2Nat.id in Hall by lia. specialize (Hall ltac:(apply in_seq; lia)).
  rewrite forallb_forall in Hall. apply Z.eqb_eq. apply (Hall k). cbn. lia.
Qed.

Lemma memset_at dst c n m a :
  0 <= n -> memset dst c n m a = if in_range a dst n then u8 c else m a.
Proof.
  intros Hn. unfold memset. destruct (dst mod 4 =? 0), (Z.eqb_spec (n mod 4) 0) as [H4|H4]; cbn [andb].
  - rewrite (stosl_spec _ _ (u8 c)).
    + rewrite Z2Nat.id by (apply Z.div_pos; lia). rewrite <- Z_div_exact_2 by lia. done.
    + intros k Hk. change 255 with (Z.ones 8). rewrite Z.land_ones by lia.
      apply replicated_byte; [apply u8_range|done].
  - by rewrite stosb_spec, Z2Nat.id.
  - by rewrite stosb_spec, Z2Nat.id.
  - by rewrite stosb_spec, Z2Nat.id.
Qed.

Lemma copy_up_spec d s n m a :
  ~ (s < d < s + Z.of_nat n) ->
  copy_up d s n m a = if in_range a d (Z.of_nat n) then m (s + (a - d)) else m a.
Proof.
  revert d s m. induction n as [|n IH]; intros d s m Hov; cbn [copy_up]; [by zbool|].
  rewrite IH by lia. unfold store. zbool; f_equal; lia.
Qed.

Lemma copy_down_spec d s n m a :
  s - Z.of_nat n <= d - Z.of_nat n ->
  copy_down d s n m a =
    if in_range a (d - Z.of_nat n) (Z.of_nat n) then m (s + (a - d)) else m a.
Proof.
  revert d s m. induction n as [|n IH]; intros d s m Hov; cbn [copy_down]; [by zbool|].
  rewrite IH by lia. unfold store. zbool; f_equal; lia.
Qed.

Lemma memmove_at dst src n m a :
  0 <= n -> memmove dst src n m a = if in_range a dst n then m (src + (a - dst)) else m a.
Proof.
  intros Hn. unfold memmove. destruct (Z.ltb_spec src dst), (Z.ltb_spec dst (src + n)); cbn [andb].
  1: rewrite copy_down_spec, Z2Nat.id by lia; zbool; f_equal; lia.
  all: by rewrite copy_up_spec, Z2Nat.id by lia.
Qed.

(** ** Strings *)

(** The characters before the NUL, if there is one. *)
Fixpoint str_of (s : list Z) : option (list Z) :=
  match s with
  | [] => None
  | c :: s => if c =? 0 then Some [] else cons c <$> str_of s
  end.

(** The characters of a fixed-size field of [n] bytes. *)
Fixpoint field (n : nat) (s : list Z) {struct n} : list Z :=
  match n, s with
  | S n, c :: s => if c =? 0 then [] else c :: field n s
  | _, _ => []
  end.

Lemma strlen_str_of s : strlen s = (fun w => Z.of_nat (length w)) <$> str_of s.
Proof.
  induction s as [|c s IH]; cbn [strlen str_of]; [done|]. destruct (c =? 0); [done|].
  rewrite IH. destruct (str_of s); cbn -[Z.of_nat]; [|done]. f_equal. lia.
Qed.

Lemma fill_zero_spec s n :
  (n <= length s)%nat -> fill_zero s n = Some (replicate n 0 ++ drop n s).
Proof.
  revert s. induction n as [|n IH]; intros s Hn; cbn; [done|].
  destruct s as [|x s]; cbn in Hn; [lia|]. rewrite IH by lia. done.
Qed.

(** [strncpy] writes exactly [n] bytes: the string cut to [n], then zeros. *)
Lemma strncpy_spec s t n w :
  str_of t = Some w -> (n <= length s)%nat ->
  strncpy s t n = Some (take n w ++ replicate (n - length w) 0 ++ drop n s).
Proof.
  revert s t w. induction n as [|n IH]; intros s t w Hw Hn; cbn [strncpy]; [done|].
  destruct s as [|x s]; cbn in Hn; [lia|]. destruct t as [|c t]; [done|]. cbn in Hw.
  destruct (c =? 0); simplify_eq.
  - rewrite fill_zero_spec by lia. done.
  - destruct (str_of t) as [w'|] eqn:Ht; [|done]. cbn in Hw; simplify_eq.
    rewrite (IH s t w') by (done || lia). done.
Qed.

Lemma safestrcpy_loop_spec s t n w :
  str_of t = Some w -> (n < length s)%nat ->
  exists s', safestrcpy_loop s t n = Some s' /\ str_of s' = Some (take n w) /\
    length s' = length s /\ drop (S n) s' = drop (S n) s.
Proof.
  revert s t w. induction n as [|n IH]; intros s t w Hw Hn; cbn [safestrcpy_loop].
  - destruct s as [|x s]; [cbn in Hn; lia|]. eexists. split; [done|]. done.
  - destruct s as [|x s]; [cbn in Hn; lia|]. destruct t as [|c t]; [done|]. cbn in Hw.
    destruct (c =? 0) eqn:Hc; simplify_eq.
    + destruct s as [|y s]; [cbn in Hn; lia|]. eexists. split; [done|]. done.
    + destruct (str_of t) as [w'|] eqn:Ht; [|done]. cbn in Hw; simplify_eq.
      destruct (IH s t w' Ht ltac:(cbn in Hn; lia)) as (s' & -> & Hs & Hl & Hd).
      eexists. split; [done|]. cbn. rewrite Hc, Hs, Hl. repeat split; done.
Qed.

Lemma safestrcpy_spec s t n w :
  str_of t = Some w -> 0 < n <= Z.of_nat (length s) ->
  exists s', safestrcpy s t n = Some s' /\ str_of s' = Some (take (Z.to_nat (n - 1)) w) /\
    length s' = length s /\ drop (Z.to_nat n) s' = drop (Z.to_nat n) s.
Proof.
  intros Hw Hn. unfold safestrcpy. destruct (Z.leb_spec n 0); [lia|].
  destruct (safestrcpy_loop_spec s t (Z.to_nat (n - 1)) w Hw ltac:(lia)) as (s' & H1 & H2 & H3 & H4).
  exists s'. repeat split; try done. by replace (Z.to_nat n) with (S (Z.to_nat (n - 1))) by lia.
Qed.

Lemma strncmp_def p q n :
  (n <= length p)%nat -> (n <= length q)%nat -> is_Some (strncmp p q n).
Proof.
  revert p q. induction n as [|n IH]; intros [|a p] [|b q] Hp Hq; cbn in *; try lia; eauto.
  destruct (_ && _); eauto. apply IH; lia.
Qed.

(** [strncmp] compares the two fields. *)
Lemma strncmp_field p q n r :
  Forall (fun c => 0 <= c < 256) p -> Forall (fun c => 0 <= c < 256) q ->
  strncmp p q n = Some r -> (r = 0 <-> field n p = field n q).
Proof.
  revert p q. induction n as [|n IH]; intros [|a p] [|b q] Hp Hq; cbn; intros Hr; simplify_eq; try done.
  apply Forall_cons in Hp as [Ha Hp], Hq as [Hb Hq].
  destruct (Z.eqb_spec a 0) as [->|Ha0]; cbn in Hr.
  - simplify_eq. unfold u8. rewrite !Z.mod_small by (cbn; lia).
    destruct (Z.eqb_spec b 0); split; try done; lia.
  - destruct (Z.eqb_spec a b) as [->|Hab].
    + destruct (Z.eqb_spec b 0); [lia|]. rewrite (IH p q Hp Hq Hr). split; congruence.
    + simplify_eq. unfold u8. rewrite !Z.mod_small by (cbn; lia).
      split; [lia|]. destruct (Z.eqb_spec b 0); [done|congruence].
Qed.

Lemma field_str_of n s w : str_of s = Some w -> field n s = take n w.
Proof.
  revert s w. induction n as [|n IH]; intros [|c s] w Hw; cbn in *; simplify_eq; try done.
  destruct (c =? 0); simplify_eq; [done|].
  destruct (str_of s) as [w'|] eqn:Hs; [|done]. cbn in Hw; simplify_eq. cbn. by rewrite (IH s w').
Qed.

Lemma str_of_nonzero s w : str_of s = Some w -> Forall (fun c => c <> 0) w.
Proof.
  revert w. induction s as [|c s IH]; intros w; cbn; [done|].
  destruct (Z.eqb_spec c 0); intros; simplify_eq; [done|].
  destruct (str_of s); [|done]. cbn in *; simplify_eq. constructor; [done|]. by apply IH.
Qed.

Lemma field_padded n w r : Forall (fun c => c <> 0) w ->
  field n (take n w ++ replicate (n - length w) 0 ++ r) = take n w.
Proof.
  revert w. induction n as [|n IH]; intros w Hw; [by destruct w|].
  destruct w as [|c w]; cbn; [done|]. apply Forall_cons in Hw as [Hc Hw].
  destruct (Z.eqb_spec c 0); [done|]. by rewrite IH.
Qed.
