(* ===== verification/Ring.v ===== *)
(** * Ring buffers

    The pipe and the console keep bytes in an array of [N] cells that is
    indexed by 32-bit counters modulo [N].  [ring N d a n] are the [n] bytes
    from counter [a] on. *)
From Stdlib Require Import ZArith Lia.
From stdpp Require Import base list.
From S2P Require Import Prelude Bytes.
#[local] Open Scope Z_scope.

(** The cell of a counter. *)
Definition cell (N a : Z) : nat := Z.to_nat (a mod N).

Fixpoint ring (N : Z) (d : list Z) (a : Z) (n : nat) : list Z :=
  match n with
  | O => []
  | S n => byte_at d (cell N a) :: ring N d (a + 1) n
  end.

Section ring.
Context (N : Z) (Hpos : 0 < N) (Hdiv : 2 ^ 32 mod N = 0).

Lemma cell_lt a : (cell N a < Z.to_nat N)%nat.
Proof using Hpos. unfold cell. pose proof (Z.mod_pos_bound a N Hpos). lia. Qed.

(** Two counters less than [N] apart have the same cell only when equal. *)
Lemma cell_ne a b : 0 < b - a < N -> cell N a <> cell N b.
Proof using Hpos.
  intros Hab Heq. unfold cell in Heq.
  pose proof (Z.mod_pos_bound a N Hpos). pose proof (Z.mod_pos_bound b N Hpos).
  pose proof (Z.div_mod a N ltac:(lia)). pose proof (Z.div_mod b N ltac:(lia)).
  assert (a mod N = b mod N) as He by lia. assert (b - a = N * (b / N - a / N)) by (rewrite Z.mul_sub_distr_l; lia).
  assert (0 < b / N - a / N < 1) as Hq by (split; apply (Z.mul_lt_mono_pos_l N); lia). lia.
Qed.

(** Wrapping around does not change the cell. *)
Lemma cell_u32 a : cell N (u32 a) = cell N a.
Proof using Hpos Hdiv.
  unfold cell, u32. f_equal. apply Z.mod_divide in Hdiv as [k Hk]; [|lia].
  assert (a = a mod 2 ^ 32 + (k * (a / 2 ^ 32)) * N) as Ha.
  { pose proof (Z.div_mod a (2 ^ 32) ltac:(lia)). replace (k * (a / 2 ^ 32) * N) with (k * N * (a / 2 ^ 32)) by ring. rewrite <- Hk. lia. }
  rewrite Ha at 2. by rewrite Z.mod_add by lia.
Qed.

Lemma length_ring d a n : length (ring N d a n) = n.
Proof. revert a. induction n as [|n IH]; intros a; cbn; [done|]. by rewrite IH. Qed.

Lemma ring_cell d a b n : (forall k, 0 <= k -> cell N (a + k) = cell N (b + k)) -> ring N d a n = ring N d b n.
Proof.
  revert a b. induction n as [|n IH]; intros a b Hab; cbn; [done|]. f_equal.
  - specialize (Hab 0 ltac:(lia)). rewrite !Z.add_0_r in Hab. by rewrite Hab.
  - apply IH. intros k Hk. rewrite <- !Z.add_assoc. apply Hab. lia.
Qed.

Lemma ring_u32 d a n : ring N d (u32 a) n = ring N d a n.
Proof using Hpos Hdiv.
  apply ring_cell. intros k _. rewrite <- (cell_u32 (u32 a + k)), <- (cell_u32 (a + k)). by rewrite u32_add_l.
Qed.

Lemma ring_app d a n m : ring N d a (n + m) = ring N d a n ++ ring N d (a + Z.of_nat n) m.
Proof.
  revert a. induction n as [|n IH]; intros a; cbn [ring Nat.add app].
  - by rewrite Z.add_0_r.
  - rewrite IH. do 3 f_equal. lia.
Qed.

Lemma ring_insert d a n b c :
  (forall k, 0 <= k < Z.of_nat n -> cell N (a + k) <> cell N b) ->
  ring N (<[cell N b := c]> d) a n = ring N d a n.
Proof.
  revert a. induction n as [|n IH]; intros a Hne; cbn; [done|]. f_equal.
  - apply byte_at_insert_ne. specialize (Hne 0). rewrite Z.add_0_r in Hne. intros Heq. apply Hne; [lia|done].
  - apply IH. intros k Hk. rewrite <- Z.add_assoc. apply Hne. lia.
Qed.

(** Writing the cell after the last one appends. *)
Lemma ring_snoc d a n c :
  length d = Z.to_nat N -> Z.of_nat n < N ->
  ring N (<[cell N (a + Z.of_nat n) := c]> d) a (S n) = ring N d a n ++ [c].
Proof using Hpos.
  intros Hd Hn. replace (S n) with (n + 1)%nat by lia. rewrite ring_app. f_equal.
  - apply ring_insert. intros k Hk. apply cell_ne. lia.
  - cbn. rewrite byte_at_insert_eq; [done|]. rewrite Hd. apply cell_lt.
Qed.

Lemma ring_take d a n m : (m <= n)%nat -> take m (ring N d a n) = ring N d a m.
Proof.
  intros Hm. replace n with (m + (n - m))%nat by lia. rewrite ring_app, take_app_le, take_ge; rewrite ?length_ring; done || lia.
Qed.

Lemma ring_drop d a n m : (m <= n)%nat -> drop m (ring N d a n) = ring N d (a + Z.of_nat m) (n - m).
Proof.
  intros Hm. replace n with (m + (n - m))%nat at 1 by lia. rewrite ring_app, drop_app_ge; rewrite ?length_ring; [|lia].
  by rewrite Nat.sub_diag, drop_0.
Qed.
End ring.
