(* ===== verification/Spinlock.v ===== *)
(** * CPUs and spin locks ([spinlock.c], [mycpu] and [cpuid] of [proc.c])

    The state is what the locking code touches: the per-CPU records, the
    lock words, and which CPU is executing.  The interrupt-enable flag of
    [eflags] is kept with the CPU it belongs to.  The saved call stacks
    ([pcs]) and memory barriers have no counterpart. *)
From stdpp Require Import base list gmap strings.
From Stdlib Require Import ZArith Lia.
From S2P Require Import Prelude Params.
#[local] Open Scope Z_scope.
#[local] Open Scope kernel_scope.

(** [struct cpu], without the fields only the trap and boot code use. *)
Record cpu := mkcpu {
  apicid : Z;
  intr_on : bool;       (* eflags & FL_IF of this CPU *)
  ncli : Z;
  intena : bool;
  cproc : option nat;   (* c->proc, an index of ptable.proc *)
  esp0 : Z;             (* ts.esp0, the kernel stack the next trap uses *)
  cr3 : Z               (* the page-table base register *)
}.
#[export] Instance eta_cpu : Eta cpu :=
  fun c => mkcpu (apicid c) (intr_on c) (ncli c) (intena c) (cproc c) (esp0 c) (cr3 c).

(** [struct spinlock] *)
Record spinlock := mklock {
  lname : string;
  locked : Z;
  lcpu : option nat
}.
#[export] Instance eta_spinlock : Eta spinlock :=
  fun l => mklock (lname l) (locked l) (lcpu l).

(** Locks live at addresses; a lock never written is zero. *)
Record machine := mkmachine {
  cpus : list cpu;
  here : nat;           (* the CPU that executes *)
  lapicid : Z;          (* what its local APIC reports *)
  locks : gmap Z spinlock
}.
#[export] Instance eta_machine : Eta machine :=
  fun m => mkmachine (cpus m) (here m) (lapicid m) (locks m).

Definition lock0 : spinlock := mklock "" 0 None.
Definition lock_at (m : machine) (lk : Z) : spinlock := default lock0 (locks m !! lk).

Definition set_lock (lk : Z) (l : spinlock) : M machine unit :=
  modify (fun m => m <| locks ::= <[lk := l]> |>).

(** [cpus[i]] *)
Definition cpu_at (i : nat) : M machine cpu :=
  m <~ get; of_option (Undef "cpus[i]") (cpus m !! i).
Definition set_cpu (i : nat) (c : cpu) : M machine unit :=
  modify (fun m => m <| cpus ::= <[i := c]> |>).

(** The x86 instructions. *)
Definition readeflags : M machine bool :=
  m <~ get; c <~ cpu_at (here m); ret (intr_on c).
Definition cli : M machine unit :=
  m <~ get; c <~ cpu_at (here m); set_cpu (here m) (c <| intr_on := false |>).
Definition sti : M machine unit :=
  m <~ get; c <~ cpu_at (here m); set_cpu (here m) (c <| intr_on := true |>).

(** The search of [cpus] for an APIC ID. *)
Fixpoint find_cpu (id : Z) (l : list cpu) : option nat :=
  match l with
  | [] => None
  | c :: l => if apicid c =? id then Some 0%nat else S <$> find_cpu id l
  end.

Definition mycpu : M machine nat :=
  fl <~ readeflags;
  if fl : bool then panic "mycpu called with interrupts enabled"
  else m <~ get; of_option (Panic "unknown apicid") (find_cpu (lapicid m) (cpus m)).

Definition cpuid : M machine nat := mycpu.

Definition pushcli : M machine unit :=
  eflags <~ readeflags;
  cli ;;;
  i <~ mycpu;
  c <~ cpu_at i;
  (if ncli c =? 0 then set_cpu i (c <| intena := eflags |>) else ret tt) ;;;
  c <~ cpu_at i;
  set_cpu i (c <| ncli := ncli c + 1 |>).

Definition popcli : M machine unit :=
  fl <~ readeflags;
  if fl : bool then panic "popcli - interruptible"
  else
    i <~ mycpu;
    c <~ cpu_at i;
    set_cpu i (c <| ncli := ncli c - 1 |>) ;;;
    if ncli c - 1 <? 0 then panic "popcli"
    else if (ncli c - 1 =? 0) && intena c then sti else ret tt.

Definition initlock (lk : Z) (name : string) : M machine unit :=
  set_lock lk (mklock name 0 None).

Definition holding (lk : Z) : M machine bool :=
  pushcli ;;;
  m <~ get;
  r <~ (if locked (lock_at m lk) =? 0 then ret false
        else i <~ mycpu; ret (bool_decide (lcpu (lock_at m lk) = Some i)));
  popcli ;;;
  ret r.

(** [acquire] up to and including the check that this CPU does not hold the
    lock already. *)
Definition acquire_enter (lk : Z) : M machine unit :=
  pushcli ;;;
  h <~ holding lk;
  m <~ get;
  if h : bool then panic (lname (lock_at m lk)) else ret tt.

(** One round of [while(xchg(&lk->locked, 1) != 0)]: true when it got it. *)
Definition xchg_lock (lk : Z) : M machine bool :=
  m <~ get;
  set_lock lk ((lock_at m lk) <| locked := 1 |>) ;;;
  ret (locked (lock_at m lk) =? 0).

Definition acquire_mark (lk : Z) : M machine unit :=
  i <~ mycpu;
  m <~ get;
  set_lock lk ((lock_at m lk) <| lcpu := Some i |>).

(** The spin never ends while another CPU holds the lock: [Spin]. *)
Definition acquire (lk : Z) : M machine unit :=
  acquire_enter lk ;;;
  got <~ xchg_lock lk;
  if got : bool then acquire_mark lk else stop_with (Spin lk).

Definition release_enter (lk : Z) : M machine unit :=
  h <~ holding lk;
  if h : bool then
    m <~ get; set_lock lk ((lock_at m lk) <| lcpu := None |>)
  else panic "release".

(** [movl $0, lk->locked] *)
Definition release_store (lk : Z) : M machine unit :=
  m <~ get; set_lock lk ((lock_at m lk) <| locked := 0 |>).

Definition release (lk : Z) : M machine unit :=
  release_enter lk ;;;
  release_store lk ;;;
  popcli.

(** [myproc] of [proc.c]. *)
Definition myproc : M machine (option nat) :=
  pushcli ;;;
  i <~ mycpu;
  c <~ cpu_at i;
  popcli ;;;
  ret (cproc c).

(** ** What the executing CPU sees *)

(** The executing CPU is [i], its record is [c], and [mycpu] finds it. *)
Definition on_cpu (m : machine) (i : nat) (c : cpu) : Prop :=
  here m = i /\ cpus m !! i = Some c /\ find_cpu (lapicid m) (cpus m) = Some i.

(** Lock depth and interrupt flag agree: interrupts are off under a lock. *)
Definition cpu_wf (c : cpu) : Prop := 0 <= ncli c /\ (0 < ncli c -> intr_on c = false).

Definition pushed (c : cpu) : cpu :=
  mkcpu (apicid c) false (ncli c + 1) (if ncli c =? 0 then intr_on c else intena c) (cproc c)
    (esp0 c) (cr3 c).
Definition popped (c : cpu) : cpu :=
  mkcpu (apicid c) (if (ncli c - 1 =? 0) && intena c then true else intr_on c)
    (ncli c - 1) (intena c) (cproc c) (esp0 c) (cr3 c).

Lemma find_cpu_insert id (l : list cpu) i c c' :
  l !! i = Some c -> apicid c' = apicid c -> find_cpu id (<[i := c']> l) = find_cpu id l.
Proof.
  revert i. induction l as [|d l IH]; intros [|i]; csimpl; intros Hl Ha; simplify_eq.
  - by rewrite Ha.
  - by rewrite (IH i).
Qed.

Lemma on_cpu_set m i c c' :
  on_cpu m i c -> apicid c' = apicid c -> on_cpu (m <| cpus ::= <[i := c']> |>) i c'.
Proof.
  intros (Hh & Hc & Hf) Ha. repeat split; cbn; [done| |].
  - apply list_lookup_insert_eq. by eapply lookup_lt_Some.
  - by rewrite (find_cpu_insert _ _ _ c).
Qed.

Lemma on_cpu_locks m i c f : on_cpu m i c -> on_cpu (m <| locks ::= f |>) i c.
Proof. intros (Hh & Hc & Hf). repeat split; cbn; done. Qed.
#[export] Hint Resolve on_cpu_set on_cpu_locks : kernel.

(** Two updates of the same CPU record. *)
Lemma set_cpu_twice m i c c' :
  setter cpus (<[i := c']>) (setter cpus (<[i := c]>) m) = setter cpus (<[i := c']>) m.
Proof. destruct m. unfold setter. cbn. f_equal. apply list_insert_insert_eq. Qed.

Section on_cpu_runs.
Context (m : machine) (i : nat) (c : cpu) (H : on_cpu m i c).

Lemma cpu_at_run : cpu_at i m = Ok (c, m).
Proof using H. destruct H as (_ & Hc & _). unfold cpu_at, bind, get. by rewrite Hc. Qed.

Lemma readeflags_run : readeflags m = Ok (intr_on c, m).
Proof using H.
  unfold readeflags, bind, get. pose proof H as (Hh & _ & _). rewrite Hh.
  by rewrite cpu_at_run.
Qed.

Lemma cli_run : cli m = Ok (tt, m <| cpus ::= <[i := c <| intr_on := false |>]> |>).
Proof using H.
  unfold cli, bind, get. pose proof H as (Hh & _ & _). rewrite Hh. by rewrite cpu_at_run.
Qed.

Lemma sti_run : sti m = Ok (tt, m <| cpus ::= <[i := c <| intr_on := true |>]> |>).
Proof using H.
  unfold sti, bind, get. pose proof H as (Hh & _ & _). rewrite Hh. by rewrite cpu_at_run.
Qed.

Lemma mycpu_run : intr_on c = false -> mycpu m = Ok (i, m).
Proof using H.
  intros Hi. unfold mycpu, bind. rewrite readeflags_run, Hi.
  unfold get. destruct H as (_ & _ & Hf). by rewrite Hf.
Qed.

Lemma mycpu_enabled : intr_on c = true ->
  mycpu m = Stop (Panic "mycpu called with interrupts enabled").
Proof using H. intros Hi. unfold mycpu, bind. by rewrite readeflags_run, Hi. Qed.
End on_cpu_runs.

Lemma pushcli_run m i c :
  on_cpu m i c -> pushcli m = Ok (tt, m <| cpus ::= <[i := pushed c]> |>).
Proof.
  intros H. unfold pushcli, bind at 1. rewrite (readeflags_run _ _ _ H).
  unfold bind at 1. rewrite (cli_run _ _ _ H).
  set (m1 := setter cpus _ m).
  assert (H1 : on_cpu m1 i (c <| intr_on := false |>)) by (apply (on_cpu_set _ _ c); done).
  unfold bind at 1. rewrite (mycpu_run _ _ _ H1) by done.
  unfold bind at 1. rewrite (cpu_at_run _ _ _ H1). cbn [ncli setter].
  unfold bind at 1. destruct (ncli c =? 0) eqn:Hn; cbn.
  - unfold set_cpu, modify, bind.
    assert (H2 : on_cpu (setter cpus (<[i:=c <| intr_on := false |> <| intena := intr_on c |>]>) m1) i
      (c <| intr_on := false |> <| intena := intr_on c |>)) by (eapply on_cpu_set; eauto).
    rewrite (cpu_at_run _ _ _ H2). subst m1. rewrite !set_cpu_twice.
    unfold pushed. by rewrite Hn.
  - unfold ret, set_cpu, modify, bind. rewrite (cpu_at_run _ _ _ H1). subst m1.
    rewrite !set_cpu_twice. unfold pushed. by rewrite Hn.
Qed.

Lemma popcli_run m i c :
  on_cpu m i c -> intr_on c = false -> 0 < ncli c ->
  popcli m = Ok (tt, m <| cpus ::= <[i := popped c]> |>).
Proof.
  intros H Hi Hn. unfold popcli, bind at 1. rewrite (readeflags_run _ _ _ H), Hi.
  unfold bind at 1. rewrite (mycpu_run _ _ _ H) by done.
  unfold bind at 1. rewrite (cpu_at_run _ _ _ H).
  unfold bind, set_cpu, modify. destruct (Z.ltb_spec (ncli c - 1) 0); [lia|].
  destruct ((ncli c - 1 =? 0) && intena c) eqn:Hz.
  - assert (H2 : on_cpu (setter cpus (<[i:=c <| ncli := ncli c - 1 |>]>) m) i
      (c <| ncli := ncli c - 1 |>)) by (eapply on_cpu_set; eauto).
    rewrite (sti_run _ _ _ H2), set_cpu_twice. unfold popped. by rewrite Hz.
  - unfold ret, popped. by rewrite Hz.
Qed.

(** [popcli] undoes [pushcli], up to the recorded [intena]. *)
Lemma popped_pushed c : cpu_wf c ->
  popped (pushed c) = c <| intena := if ncli c =? 0 then intr_on c else intena c |>.
Proof.
  intros [Hn Hi]. destruct c as [a on n en p e0 r3]; cbn in *. unfold popped, pushed; cbn.
  replace (n + 1 - 1) with n by lia.
  destruct (Z.eqb_spec n 0); cbn.
  - by destruct on.
  - rewrite Hi by lia. done.
Qed.

(** [holding] leaves the lock words alone and answers for this CPU. *)
Definition is_held (m : machine) (i : nat) (lk : Z) : bool :=
  negb (locked (lock_at m lk) =? 0) && bool_decide (lcpu (lock_at m lk) = Some i).

Definition refreshed (c : cpu) : cpu :=
  c <| intena := if ncli c =? 0 then intr_on c else intena c |>.

Lemma holding_run m i c lk :
  on_cpu m i c -> cpu_wf c ->
  holding lk m = Ok (is_held m i lk, m <| cpus ::= <[i := refreshed c]> |>).
Proof.
  intros H Hwf. unfold holding, bind at 1. rewrite (pushcli_run _ _ _ H).
  set (m1 := setter cpus _ m).
  assert (H1 : on_cpu m1 i (pushed c)) by (eapply on_cpu_set; eauto).
  assert (Hr : popcli m1 = Ok (tt, m <| cpus ::= <[i := refreshed c]> |>)).
  { rewrite (popcli_run _ _ _ H1); [|done|].
    - rewrite (popped_pushed _ Hwf). subst m1. by rewrite set_cpu_twice.
    - destruct Hwf. unfold pushed; cbn. lia. }
  unfold bind at 1, get. change (lock_at m1 lk) with (lock_at m lk). unfold is_held.
  destruct (locked (lock_at m lk) =? 0); cbn.
  - unfold bind, ret. by rewrite Hr.
  - unfold bind. rewrite (mycpu_run _ _ _ H1) by done. unfold ret. by rewrite Hr.
Qed.

(** *** The view of the executing CPU

    [view m L w]: CPU [w_cpu w] executes and runs process [w_proc w], it holds
    exactly the locks [L] and no other CPU holds any, it had interrupts
    [w_on w] before it took the first of them, and the records of the CPUs
    are those of [w_cpus w], its own up to the APIC id. *)
Record who := mkwho { w_cpu : nat; w_on : bool; w_proc : option nat; w_cpus : list cpu }.

Definition view (m : machine) (L : list Z) (w : who) : Prop :=
  exists c, on_cpu m (w_cpu w) c /\ ncli c = Z.of_nat (length L) /\ cproc c = w_proc w /\
    NoDup L /\
    match L with
    | [] => intr_on c = w_on w
    | _ => intr_on c = false /\ intena c = w_on w
    end /\
    (forall lk, lk ∈ L -> locked (lock_at m lk) <> 0 /\ lcpu (lock_at m lk) = Some (w_cpu w)) /\
    (forall lk, lk ∉ L -> locked (lock_at m lk) = 0) /\
    cpus m = <[w_cpu w := c]> (w_cpus w) /\ apicid <$> w_cpus w !! w_cpu w = Some (apicid c).

(** The record of the executing CPU may be replaced. *)
Lemma cpus_insert m w c c' :
  cpus m = <[w_cpu w := c]> (w_cpus w) /\ apicid <$> w_cpus w !! w_cpu w = Some (apicid c) -> apicid c' = apicid c ->
  <[w_cpu w := c']> (cpus m) = <[w_cpu w := c']> (w_cpus w) /\ apicid <$> w_cpus w !! w_cpu w = Some (apicid c').
Proof. intros [-> ->] ->. split; [apply list_insert_insert_eq|done]. Qed.

Lemma lock_at_set m lk l lk' :
  lock_at (m <| locks ::= <[lk := l]> |>) lk' = if decide (lk = lk') then l else lock_at m lk'.
Proof. unfold lock_at. cbn. rewrite lookup_insert. by case_decide. Qed.

Lemma lock_at_cpus m f lk : lock_at (m <| cpus ::= f |>) lk = lock_at m lk.
Proof. done. Qed.

Lemma set_lock_twice m lk l l' :
  setter locks (<[lk := l']>) (setter locks (<[lk := l]>) m) = setter locks (<[lk := l']>) m.
Proof. destruct m. unfold setter. cbn. f_equal. apply insert_insert_eq. Qed.

Lemma acquire_run m i c lk :
  on_cpu m i c -> cpu_wf c -> locked (lock_at m lk) = 0 ->
  acquire lk m =
    Ok (tt, m <| cpus ::= <[i := pushed c]> |>
              <| locks ::= <[lk := mklock (lname (lock_at m lk)) 1 (Some i)]> |>).
Proof.
  intros H Hwf Hfree. unfold acquire, acquire_enter, bind at 1, bind at 1.
  rewrite (pushcli_run _ _ _ H). set (m1 := setter cpus _ m).
  assert (H1 : on_cpu m1 i (pushed c)) by (eapply on_cpu_set; eauto).
  assert (Hwf1 : cpu_wf (pushed c)).
  { destruct Hwf. split; unfold pushed; cbn; [lia|done]. }
  assert (Hr : refreshed (pushed c) = pushed c).
  { unfold refreshed, pushed; cbn. destruct Hwf.
    destruct (Z.eqb_spec (ncli c + 1) 0); [lia|done]. }
  unfold bind at 1. rewrite (holding_run _ _ _ lk H1 Hwf1), Hr.
  unfold is_held. change (lock_at m1 lk) with (lock_at m lk). rewrite Hfree. cbn.
  unfold bind at 1, get. cbn. unfold ret. subst m1. rewrite set_cpu_twice.
  set (m1 := setter cpus _ m).
  unfold bind at 1, xchg_lock, bind at 1, get, bind at 1, set_lock at 1, modify, ret.
  change (lock_at m1 lk) with (lock_at m lk). rewrite Hfree. cbn -[m1 lock_at].
  unfold acquire_mark, bind at 1.
  rewrite (mycpu_run _ i (pushed c)); [|by apply on_cpu_locks|done].
  unfold bind, get, set_lock, modify. rewrite set_lock_twice, lock_at_set, decide_True by done.
  done.
Qed.

Lemma release_run m i c lk :
  on_cpu m i c -> intr_on c = false -> 0 < ncli c ->
  locked (lock_at m lk) <> 0 -> lcpu (lock_at m lk) = Some i ->
  release lk m =
    Ok (tt, m <| cpus ::= <[i := popped c]> |>
              <| locks ::= <[lk := mklock (lname (lock_at m lk)) 0 None]> |>).
Proof.
  intros H Hi Hn Hl Hc. unfold release, release_enter, bind at 1, bind at 1.
  assert (Hr : refreshed c = c).
  { unfold refreshed. destruct (Z.eqb_spec (ncli c) 0); [lia|]. by destruct c. }
  assert (Hm : m <| cpus ::= <[i := c]> |> = m).
  { destruct H as (_ & Hm & _). destruct m; unfold setter; cbn in *. f_equal.
    by apply list_insert_id. }
  rewrite (holding_run _ _ _ lk H) by (split; [lia|done]). rewrite Hr, Hm.
  unfold is_held. rewrite Hc. destruct (Z.eqb_spec (locked (lock_at m lk)) 0); [lia|].
  rewrite bool_decide_eq_true_2 by done. cbn.
  unfold bind, get, set_lock, release_store, modify. cbn.
  unfold bind, get, set_lock, modify. rewrite set_lock_twice, lock_at_set, decide_True by done.
  rewrite (popcli_run _ i c); [|by apply on_cpu_locks|done|done].
  done.
Qed.

Lemma view_wf m L w : view m L w -> exists c, on_cpu m (w_cpu w) c /\ cpu_wf c.
Proof.
  intros (c & H & Hn & _ & _ & Hi & _). exists c. split; [done|].
  split; [lia|]. destruct L; [cbn in Hn; lia|]. by destruct Hi.
Qed.

Lemma view_refreshed m L w c :
  on_cpu m (w_cpu w) c -> view m L w -> view (m <| cpus ::= <[w_cpu w := refreshed c]> |>) L w.
Proof.
  intros H (c' & H' & Hn & Hp & Hnd & Hi & Hin & Hout & Hcs).
  assert (c' = c) as ->. { destruct H as (_ & Hc & _), H' as (_ & Hc' & _). congruence. }
  exists (refreshed c). split; [by eapply on_cpu_set; eauto|].
  unfold refreshed. cbn. repeat split; try done; try by apply Hin.
  - destruct L as [|l L]; [done|]. destruct Hi as [-> <-]. split; [done|].
    destruct (Z.eqb_spec (ncli c) 0); [cbn in Hn; lia|done].
  - by apply (cpus_insert m w c (refreshed c)).
  - by apply (cpus_insert m w c (refreshed c)).
Qed.

Section view_wp.
Context (m : machine) (L : list Z) (w : who).
Context (Hv : view m L w) (E : stop -> Prop).

Lemma wp_acquire lk (Q : unit -> machine -> Prop) :
  lk ∉ L -> (forall m', view m' (lk :: L) w -> Q tt m') -> wp (acquire lk) E Q m.
Proof using Hv.
  intros Hlk HQ. destruct (view_wf _ _ _ Hv) as (c & H & Hwf).
  destruct Hv as (c' & H' & Hn & Hp & Hnd & Hi & Hin & Hout & Hcs).
  assert (c' = c) as ->. { destruct H as (_ & Hc & _), H' as (_ & Hc' & _). congruence. }
  unfold wp. rewrite (acquire_run _ _ _ _ H Hwf) by by apply Hout.
  apply HQ. exists (pushed c). split.
  { apply on_cpu_locks. by eapply on_cpu_set; eauto. }
  unfold pushed; cbn [ncli cproc intr_on intena].
  split; [cbn [length]; lia|]. split; [done|]. split; [by constructor|]. split.
  { split; [done|]. destruct L as [|l L']; cbn in Hn |- *.
    - by rewrite Hn.
    - destruct Hi as [_ Hi]. destruct (Z.eqb_spec (ncli c) 0); [lia|done]. }
  split; [|split; [|by eapply cpus_insert]]; intros lk' Hlk'; rewrite lock_at_set.
  - case_decide; [done|]. apply Hin. set_solver.
  - case_decide; [set_solver|]. apply Hout. set_solver.
Qed.

(** Taking a lock twice is a panic, not a deadlock. *)
Lemma acquire_held lk : lk ∈ L -> acquire lk m = Stop (Panic (lname (lock_at m lk))).
Proof using Hv.
  intros Hlk. destruct (view_wf _ _ _ Hv) as (c & H & Hwf).
  destruct Hv as (c' & H' & _ & _ & _ & _ & Hin & _ & _).
  destruct (Hin _ Hlk) as [Hl Hc].
  unfold acquire, acquire_enter, bind. rewrite (pushcli_run _ _ _ H).
  rewrite (holding_run _ (w_cpu w) (pushed c)); [|by apply (on_cpu_set _ _ c)|].
  - unfold is_held. rewrite lock_at_cpus, Hc.
    destruct (Z.eqb_spec (locked (lock_at m lk)) 0); [lia|].
    rewrite bool_decide_eq_true_2 by done. cbn. unfold get. by rewrite !lock_at_cpus.
  - destruct Hwf. split; unfold pushed; cbn; [lia|done].
Qed.

Lemma wp_holding lk (Q : bool -> machine -> Prop) :
  (forall m', view m' L w -> Q (bool_decide (lk ∈ L)) m') -> wp (holding lk) E Q m.
Proof using Hv.
  intros HQ. destruct (view_wf _ _ _ Hv) as (c & H & Hwf).
  unfold wp. rewrite (holding_run _ _ _ _ H Hwf).
  replace (is_held m (w_cpu w) lk) with (bool_decide (lk ∈ L)).
  { by apply HQ, view_refreshed. }
  destruct Hv as (c' & _ & _ & _ & _ & _ & Hin & Hout & Hcs). unfold is_held.
  case_bool_decide as Hlk.
  - destruct (Hin _ Hlk) as [Hl ->]. rewrite bool_decide_eq_true_2 by done.
    destruct (Z.eqb_spec (locked (lock_at m lk)) 0); [lia|done].
  - by rewrite (Hout _ Hlk).
Qed.

Lemma wp_myproc (Q : option nat -> machine -> Prop) :
  (forall m', view m' L w -> Q (w_proc w) m') -> wp myproc E Q m.
Proof using Hv.
  intros HQ. destruct (view_wf _ _ _ Hv) as (c & H & Hwf).
  unfold myproc, wp, bind at 1. rewrite (pushcli_run _ _ _ H).
  set (m1 := setter cpus _ m).
  assert (H1 : on_cpu m1 (w_cpu w) (pushed c)) by (eapply on_cpu_set; eauto).
  unfold bind at 1. rewrite (mycpu_run _ _ _ H1) by done.
  unfold bind at 1. rewrite (cpu_at_run _ _ _ H1).
  unfold bind. rewrite (popcli_run _ _ _ H1); [|done|destruct Hwf; unfold pushed; cbn; lia].
  rewrite (popped_pushed _ Hwf). subst m1. rewrite set_cpu_twice.
  pose proof (view_refreshed _ _ _ _ H Hv) as Hv'.
  unfold ret. cbn. destruct Hv as (c' & H' & _ & Hp & _).
  assert (c' = c) as ->. { destruct H as (_ & Hc & _), H' as (_ & Hc' & _). congruence. }
  rewrite Hp. by apply HQ.
Qed.
End view_wp.

Lemma wp_release m L1 L2 w lk E (Q : unit -> machine -> Prop) :
  view m (L1 ++ lk :: L2) w ->
  (forall m', view m' (L1 ++ L2) w -> Q tt m') -> wp (release lk) E Q m.
Proof.
  intros (c & H & Hn & Hp & Hnd & Hi & Hin & Hout & Hcs) HQ.
  assert (intr_on c = false /\ intena c = w_on w) as [Hoff Hen] by (by destruct L1).
  destruct (Hin lk) as [Hl Hc]; [set_solver|].
  assert (0 < ncli c). { rewrite Hn, length_app. cbn. lia. }
  unfold wp. rewrite (release_run _ _ _ _ H) by done. apply HQ. exists (popped c). split.
  { apply on_cpu_locks. by eapply on_cpu_set; eauto. }
  unfold popped; cbn [ncli cproc intr_on intena].
  apply NoDup_app in Hnd as (Hnd1 & Hd & Hnd2). apply NoDup_cons in Hnd2 as [Hnl Hnd2].
  rewrite length_app in Hn |- *. cbn in Hn.
  split; [lia|]. split; [done|]. split; [apply NoDup_app; set_solver|]. split.
  { rewrite Hen. destruct (Z.eqb_spec (ncli c - 1) 0) as [Hz|Hz]; cbn.
    - destruct L1; [|cbn in Hn; lia]. destruct L2; [|cbn in Hn; lia]. cbn.
      by destruct (w_on w).
    - destruct L1; [destruct L2; [cbn in Hn; lia|done]|done]. }
  split; [|split; [|by eapply cpus_insert]]; intros lk' Hlk'; rewrite lock_at_set.
  - case_decide as Heq; [|apply Hin; set_solver]. subst lk'.
    exfalso. apply elem_of_app in Hlk' as [?|?]; [|done]. apply (Hd lk); set_solver.
  - case_decide as Heq; [done|]. apply Hout. set_solver.
Qed.

(** Enabling interrupts outside every critical section. *)
Lemma wp_sti m w E (Q : unit -> machine -> Prop) :
  view m [] w ->
  (forall m', view m' [] (mkwho (w_cpu w) true (w_proc w) (w_cpus w)) -> Q tt m') -> wp sti E Q m.
Proof.
  intros (c & H & Hn & Hp & Hnd & Hi & Hin & Hout & Hcs) HQ.
  unfold wp. rewrite (sti_run _ _ _ H). apply HQ. exists (c <| intr_on := true |>).
  split; [by apply (on_cpu_set _ _ c)|]. cbn. repeat split; try done.
  - by apply Hin.
  - by apply Hin.
  - by eapply cpus_insert.
  - by apply Hcs.
Qed.

(** Changing the record of the executing CPU under a lock. *)
Lemma view_upd m l L w c f :
  on_cpu m (w_cpu w) c -> view m (l :: L) w ->
  apicid (f c) = apicid c -> ncli (f c) = ncli c -> intr_on (f c) = intr_on c ->
  view (m <| cpus ::= <[w_cpu w := f c]> |>) (l :: L)
    (mkwho (w_cpu w) (if decide (intena (f c) = intena c) then w_on w else intena (f c))
       (cproc (f c)) (w_cpus w)).
Proof.
  intros H (c' & H' & Hn & Hp & Hnd & [Hi He] & Hin & Hout & Hcs) Ha Hn' Hi'.
  assert (c' = c) as ->. { destruct H as (_ & Hc & _), H' as (_ & Hc' & _). congruence. }
  exists (f c). split; [by apply (on_cpu_set _ _ c)|]. cbn. rewrite Hn', Hi'.
  do 3 (split; [done|]). split; [split; [done|]; case_decide; congruence|].
  split; [done|]. split; [done|]. by eapply cpus_insert.
Qed.

(** A change that neither locks nor scheduling can see. *)
Lemma view_same m L w c c' :
  on_cpu m (w_cpu w) c -> view m L w ->
  apicid c' = apicid c -> ncli c' = ncli c -> intr_on c' = intr_on c -> cproc c' = cproc c ->
  intena c' = intena (refreshed c) ->
  view (m <| cpus ::= <[w_cpu w := c']> |>) L w.
Proof.
  intros H Hv Ha Hn Hi Hp He.
  pose proof (view_refreshed _ _ _ _ H Hv) as (c1 & H1 & Hn1 & Hp1 & Hnd & Hi1 & Hin & Hout & Hcs).
  assert (c1 = refreshed c) as ->.
  { destruct H1 as (_ & Hc1 & _). destruct H as (_ & Hc & _). cbn in Hc1.
    rewrite list_lookup_insert_eq in Hc1 by (by eapply lookup_lt_Some). congruence. }
  exists c'. split; [by apply (on_cpu_set _ _ c)|]. cbn. cbn in Hn1, Hp1.
  rewrite Hn, Hp. do 3 (split; [done|]). split; [destruct L; cbn in Hi1; rewrite Hi, ?He; done|].
  split; [done|]. split; [done|]. cbn in Hcs. destruct Hcs as [Hcs Hid]. split; [|cbn in Hid; congruence].
  rewrite <- (list_insert_insert_eq (cpus m) _ c' (refreshed c)).
  rewrite Hcs. apply list_insert_insert_eq.
Qed.

(** ** Several CPUs and one lock

    The atomic steps of [acquire] and [release], interleaved over all CPUs:
    each step is the code above run with another CPU executing. *)
Inductive phase := Outside | Spinning | Marking | Critical | Clearing | Leaving.

(** The phases between the successful [xchg] and the clearing store. *)
Definition owns (ph : phase) : bool :=
  match ph with Marking | Critical | Clearing => true | _ => false end.

Definition at_cpu (i : nat) (c : cpu) (m : machine) : machine :=
  m <| here := i |> <| lapicid := apicid c |>.

Inductive lock_step (lk : Z) : machine * list phase -> machine * list phase -> Prop :=
| ls_enter m ph i c m' :
    cpus m !! i = Some c -> ph !! i = Some Outside ->
    acquire_enter lk (at_cpu i c m) = Ok (tt, m') ->
    lock_step lk (m, ph) (m', <[i := Spinning]> ph)
| ls_spin m ph i c m' :
    cpus m !! i = Some c -> ph !! i = Some Spinning ->
    xchg_lock lk (at_cpu i c m) = Ok (false, m') ->
    lock_step lk (m, ph) (m', ph)
| ls_got m ph i c m' :
    cpus m !! i = Some c -> ph !! i = Some Spinning ->
    xchg_lock lk (at_cpu i c m) = Ok (true, m') ->
    lock_step lk (m, ph) (m', <[i := Marking]> ph)
| ls_mark m ph i c m' :
    cpus m !! i = Some c -> ph !! i = Some Marking ->
    acquire_mark lk (at_cpu i c m) = Ok (tt, m') ->
    lock_step lk (m, ph) (m', <[i := Critical]> ph)
| ls_release m ph i c m' :
    cpus m !! i = Some c -> ph !! i = Some Critical ->
    release_enter lk (at_cpu i c m) = Ok (tt, m') ->
    lock_step lk (m, ph) (m', <[i := Clearing]> ph)
| ls_store m ph i c m' :
    cpus m !! i = Some c -> ph !! i = Some Clearing ->
    release_store lk (at_cpu i c m) = Ok (tt, m') ->
    lock_step lk (m, ph) (m', <[i := Leaving]> ph)
| ls_leave m ph i c m' :
    cpus m !! i = Some c -> ph !! i = Some Leaving ->
    popcli (at_cpu i c m) = Ok (tt, m') ->
    lock_step lk (m, ph) (m', <[i := Outside]> ph).

(** All CPUs start outside with interrupts on and the lock free. *)
Definition lock_init (lk : Z) (m : machine) (ph : list phase) : Prop :=
  locked (lock_at m lk) = 0 /\ NoDup (apicid <$> cpus m) /\
  length ph = length (cpus m) /\
  (forall i c, cpus m !! i = Some c -> ncli c = 0) /\
  (forall i p, ph !! i = Some p -> p = Outside).

Inductive lock_reach (lk : Z) : machine * list phase -> Prop :=
| lr_init m ph : lock_init lk m ph -> lock_reach lk (m, ph)
| lr_step s s' : lock_reach lk s -> lock_step lk s s' -> lock_reach lk s'.

Lemma find_cpu_nodup (l : list cpu) i c :
  NoDup (apicid <$> l) -> l !! i = Some c -> find_cpu (apicid c) l = Some i.
Proof.
  revert i. induction l as [|d l IH]; intros [|i]; csimpl; intros Hnd Hl; simplify_eq.
  - by rewrite Z.eqb_refl.
  - apply NoDup_cons in Hnd as [Hd Hnd]. destruct (Z.eqb_spec (apicid d) (apicid c)) as [He|He].
    + exfalso. apply Hd. rewrite He. apply list_elem_of_fmap. exists c. split; [done|].
      by apply list_elem_of_lookup_2 in Hl.
    + by rewrite (IH i Hnd Hl).
Qed.

Lemma on_cpu_at m i c :
  NoDup (apicid <$> cpus m) -> cpus m !! i = Some c -> on_cpu (at_cpu i c m) i c.
Proof. intros Hnd Hc. repeat split; cbn; [done|]. by apply find_cpu_nodup. Qed.

(** The invariant: the lock word is set while a CPU owns the lock, owners
    are unique, a CPU in the critical section is the recorded one, and the
    CPUs between [acquire] and the end of [release] run without interrupts. *)
Record lock_inv (lk : Z) (m : machine) (ph : list phase) : Prop := {
  li_apic : NoDup (apicid <$> cpus m);
  li_len : length ph = length (cpus m);
  li_cpu : forall i c p, cpus m !! i = Some c -> ph !! i = Some p ->
    cpu_wf c /\ (p <> Outside -> 0 < ncli c);
  li_set : forall i p, ph !! i = Some p -> owns p = true -> locked (lock_at m lk) <> 0;
  li_uniq : forall i j p q, ph !! i = Some p -> ph !! j = Some q ->
    owns p = true -> owns q = true -> i = j;
  li_crit : forall i, ph !! i = Some Critical -> lcpu (lock_at m lk) = Some i
}.

(** What one step of CPU [i] may change: its own record, its phase and the
    lock.  [li_frame] reduces the invariant to those. *)
Lemma li_frame lk m ph i c c' l p p' :
  lock_inv lk m ph -> cpus m !! i = Some c -> ph !! i = Some p ->
  apicid c' = apicid c -> cpu_wf c' -> (p' <> Outside -> 0 < ncli c') ->
  (owns p' = true -> locked l <> 0 /\
     (owns p = true \/ (forall j q, ph !! j = Some q -> owns q = false))) ->
  (p' = Critical -> lcpu l = Some i) ->
  (locked l = locked (lock_at m lk) \/ (owns p = true /\ owns p' = false) \/ locked l <> 0) ->
  (lcpu l = lcpu (lock_at m lk) \/ owns p = true) ->
  forall m', cpus m' = <[i := c']> (cpus m) -> lock_at m' lk = l ->
  lock_inv lk m' (<[i := p']> ph).
Proof.
  intros [Ha Hlen Hcpu Hset Hu Hcr] Hc Hp Hap Hwf Hn Ho Hcrit Hl Hlc m' Hm' Hlk.
  assert (Hlt : (i < length ph)%nat) by by eapply lookup_lt_Some.
  assert (Hlt' : (i < length (cpus m))%nat) by by eapply lookup_lt_Some.
  split; rewrite ?Hm', ?Hlk.
  - rewrite list_fmap_insert, list_insert_id; [done|].
    rewrite list_lookup_fmap, Hc. cbn. by rewrite Hap.
  - by rewrite !length_insert.
  - intros j d q. destruct (decide (i = j)) as [<-|Hne].
    + rewrite !list_lookup_insert_eq by done. intros. by simplify_eq.
    + rewrite !list_lookup_insert_ne by done. apply Hcpu.
  - intros j q. destruct (decide (i = j)) as [<-|Hne].
    + rewrite list_lookup_insert_eq by done. intros ? Hq. simplify_eq. by apply Ho.
    + rewrite list_lookup_insert_ne by done. intros Hq Hoq.
      pose proof (Hset _ _ Hq Hoq) as Hs. destruct Hl as [->|[[Hop _]|?]]; [done| |done].
      by destruct (Hne (Hu _ _ _ _ Hp Hq Hop Hoq)).
  - assert (Hother : forall j q, i <> j -> ph !! j = Some q -> owns q = true -> owns p' = true -> False).
    { intros j q Hne Hq Hoq Hop'. destruct (Ho Hop') as [_ [Hop|Hno]].
      - by destruct (Hne (Hu _ _ _ _ Hp Hq Hop Hoq)).
      - by rewrite (Hno j q) in Hoq. }
    intros j k q r. destruct (decide (i = j)) as [<-|Hj], (decide (i = k)) as [<-|Hk];
      rewrite ?list_lookup_insert_eq, ?list_lookup_insert_ne by done; intros; simplify_eq.
    + done.
    + exfalso. by eapply (Hother k).
    + exfalso. by eapply (Hother j).
    + by eapply Hu.
  - intros j. destruct (decide (i = j)) as [<-|Hne].
    + rewrite list_lookup_insert_eq by done. intros ?. simplify_eq. by apply Hcrit.
    + rewrite list_lookup_insert_ne by done. intros Hq.
      destruct Hlc as [->|Hop]; [by apply Hcr|].
      by destruct (Hne (Hu _ _ _ _ Hp Hq Hop eq_refl)).
Qed.

Lemma refreshed_pushed c : cpu_wf c -> refreshed (pushed c) = pushed c.
Proof.
  intros [Hn _]. unfold refreshed, pushed; cbn.
  destruct (Z.eqb_spec (ncli c + 1) 0); [lia|done].
Qed.

Lemma refreshed_deep c : 0 < ncli c -> refreshed c = c.
Proof.
  intros Hn. unfold refreshed. destruct (Z.eqb_spec (ncli c) 0); [lia|]. by destruct c.
Qed.

Lemma cpu_wf_pushed c : cpu_wf c -> cpu_wf (pushed c) /\ 0 < ncli (pushed c).
Proof. intros [Hn _]. unfold cpu_wf, pushed; cbn. repeat split; lia || done. Qed.

Lemma cpu_wf_popped c : cpu_wf c -> 0 < ncli c -> cpu_wf (popped c).
Proof.
  intros [_ Hi] Hn. unfold cpu_wf, popped; cbn. split; [lia|]. intros Hn'.
  destruct (Z.eqb_spec (ncli c - 1) 0); [lia|]. cbn. by apply Hi.
Qed.

Lemma acquire_enter_run m i c lk u m' :
  on_cpu m i c -> cpu_wf c -> acquire_enter lk m = Ok (u, m') ->
  cpus m' = <[i := pushed c]> (cpus m) /\ locks m' = locks m.
Proof.
  intros H Hwf. unfold acquire_enter, bind. rewrite (pushcli_run _ _ _ H).
  rewrite (holding_run _ i (pushed c)); [|by apply (on_cpu_set _ _ c)|by apply cpu_wf_pushed].
  rewrite refreshed_pushed, set_cpu_twice by done. unfold get.
  destruct (is_held _ _ _); [done|]. unfold ret. intros; simplify_eq. done.
Qed.

Lemma release_enter_run m i c lk :
  on_cpu m i c -> cpu_wf c -> 0 < ncli c ->
  locked (lock_at m lk) <> 0 -> lcpu (lock_at m lk) = Some i ->
  release_enter lk m = Ok (tt, m <| locks ::= <[lk := (lock_at m lk) <| lcpu := None |>]> |>).
Proof.
  intros H Hwf Hn Hl Hc. unfold release_enter, bind. rewrite (holding_run _ _ _ _ H Hwf).
  rewrite refreshed_deep by done.
  assert (m <| cpus ::= <[i := c]> |> = m) as ->.
  { destruct H as (_ & Hm & _). destruct m; unfold setter; cbn in *. f_equal.
    by apply list_insert_id. }
  unfold is_held. rewrite Hc, bool_decide_eq_true_2 by done.
  by destruct (Z.eqb_spec (locked (lock_at m lk)) 0).
Qed.

Lemma lock_inv_step lk m ph m' ph' :
  lock_inv lk m ph -> lock_step lk (m, ph) (m', ph') -> lock_inv lk m' ph'.
Proof.
  intros Hinv Hs. inversion Hs as
    [? ? i c ? Hc Hp Hr|? ? i c ? Hc Hp Hr|? ? i c ? Hc Hp Hr|? ? i c ? Hc Hp Hr
    |? ? i c ? Hc Hp Hr|? ? i c ? Hc Hp Hr|? ? i c ? Hc Hp Hr]; subst;
    pose proof (on_cpu_at m i c (li_apic _ _ _ Hinv) Hc) as Hon;
    destruct (li_cpu _ _ _ Hinv _ _ _ Hc Hp) as [Hwf Hdeep];
    assert (Hid : cpus m = <[i := c]> (cpus m)) by (by rewrite list_insert_id);
    assert (Hlk : forall l, lock_at ((at_cpu i c m) <| locks ::= <[lk := l]> |>) lk = l)
      by (intros l; by rewrite lock_at_set, decide_True).
  - destruct (acquire_enter_run _ _ _ _ _ _ Hon Hwf Hr) as [Hcs Hls].
    destruct (cpu_wf_pushed _ Hwf).
    apply (li_frame lk m ph i c (pushed c) (lock_at m lk) Outside Spinning); auto; try done.
    unfold lock_at. by rewrite Hls.
  - unfold xchg_lock, bind, get, set_lock, modify, ret in Hr. simplify_eq.
    rewrite <- (list_insert_id ph' i Spinning) by done.
    apply (li_frame lk m ph' i c c ((lock_at m lk) <| locked := 1 |>) Spinning Spinning);
      auto; done.
  - unfold xchg_lock, bind, get, set_lock, modify, ret in Hr. simplify_eq.
    assert (Hfree : locked (lock_at m lk) = 0) by (by apply Z.eqb_eq).
    apply (li_frame lk m ph i c c ((lock_at m lk) <| locked := 1 |>) Spinning Marking);
      auto; try done.
    intros _. split; [done|]. right. intros j q Hq. destruct (owns q) eqn:Ho; [|done].
    by destruct (li_set _ _ _ Hinv _ _ Hq Ho).
  - unfold acquire_mark, bind in Hr. rewrite (mycpu_run _ _ _ Hon) in Hr; [|by apply Hwf, Hdeep].
    unfold get, set_lock, modify in Hr. simplify_eq.
    apply (li_frame lk m ph i c c ((lock_at m lk) <| lcpu := Some i |>) Marking Critical);
      auto; try done.
    intros _. split; [|by left]. by apply (li_set _ _ _ Hinv i Marking).
  - rewrite (release_enter_run _ _ _ _ Hon Hwf) in Hr; [|by apply Hdeep| |].
    2: by apply (li_set _ _ _ Hinv i Critical). 2: by apply (li_crit _ _ _ Hinv).
    simplify_eq.
    apply (li_frame lk m ph i c c ((lock_at m lk) <| lcpu := None |>) Critical Clearing);
      auto; try done.
    intros _. split; [|by left]. by apply (li_set _ _ _ Hinv i Critical).
  - unfold release_store, bind, get, set_lock, modify in Hr. simplify_eq.
    apply (li_frame lk m ph i c c ((lock_at m lk) <| locked := 0 |>) Clearing Leaving);
      auto; done.
  - rewrite (popcli_run _ _ _ Hon) in Hr; [|by apply Hwf, Hdeep|by apply Hdeep].
    simplify_eq.
    apply (li_frame lk m ph i c (popped c) (lock_at m lk) Leaving Outside); auto; try done.
    by apply cpu_wf_popped, Hdeep.
Qed.

Lemma lock_inv_init lk m ph : lock_init lk m ph -> lock_inv lk m ph.
Proof.
  intros (Hl & Ha & Hlen & Hn & Hp). split; [done|done|..].
  - intros i c p Hc Hi. rewrite (Hp _ _ Hi). unfold cpu_wf. rewrite (Hn _ _ Hc). split; [lia|done].
  - intros i p Hi Ho. by rewrite (Hp _ _ Hi) in Ho.
  - intros i j p q Hi _ Ho. by rewrite (Hp _ _ Hi) in Ho.
  - intros i Hi. by apply Hp in Hi.
Qed.

Lemma lock_reach_inv lk s : lock_reach lk s -> lock_inv lk s.1 s.2.
Proof.
  induction 1 as [m ph Hi|[m ph] [m' ph'] _ IH Hs]; [by apply lock_inv_init|].
  by eapply lock_inv_step.
Qed.

(** C1: mutual exclusion of spin locks.  Whatever the interleaving of the
    atomic steps of [acquire] and [release] over the CPUs, at most one CPU
    is in the critical section; it runs with interrupts disabled, and its
    [release] passes the [holding] check instead of panicking. *)
Theorem spinlock_mutual_exclusion lk m ph i j :
  lock_reach lk (m, ph) ->
  ph !! i = Some Critical -> ph !! j = Some Critical ->
  i = j /\
  exists c, cpus m !! i = Some c /\ intr_on c = false /\
    release_enter lk (at_cpu i c m) =
      Ok (tt, (at_cpu i c m) <| locks ::= <[lk := (lock_at m lk) <| lcpu := None |>]> |>).
Proof.
  intros Hr Hi Hj. apply lock_reach_inv in Hr; cbn in Hr.
  split; [by eapply (li_uniq _ _ _ Hr)|].
  destruct (cpus m !! i) as [c|] eqn:Hc.
  2: { apply lookup_lt_Some in Hi. rewrite (li_len _ _ _ Hr) in Hi.
       apply lookup_ge_None in Hc. lia. }
  destruct (li_cpu _ _ _ Hr _ _ _ Hc Hi) as [Hwf Hd].
  exists c. split; [done|]. split; [by apply Hwf, Hd|].
  apply (release_enter_run (at_cpu i c m) i c lk);
    [by apply on_cpu_at, Hc; apply (li_apic _ _ _ Hr)|done|by apply Hd| |].
  - by apply (li_set _ _ _ Hr i Critical).
  - by apply (li_crit _ _ _ Hr).
Qed.

(** Two CPUs compete for lock 7 and CPU 1 gets it. *)
Definition two_cpus : machine :=
  mkmachine [mkcpu 4 true 0 false None 0 0; mkcpu 9 true 0 false None 0 0] 0 4 ∅.

Lemma two_cpus_start : lock_reach 7 (two_cpus, [Outside; Outside]).
Proof.
  apply lr_init. split; [done|]. split; [by apply (bool_decide_unpack _)|]. split; [done|].
  split; intros [|[|i]] c; cbn; intros; by simplify_eq.
Qed.

Lemma spinlock_mutual_exclusion_witness : exists m c,
  cpus m !! 1%nat = Some c /\ intr_on c = false /\
  release_enter 7 (at_cpu 1 c m) =
    Ok (tt, (at_cpu 1 c m) <| locks ::= <[7 := (lock_at m 7) <| lcpu := None |>]> |>).
Proof.
  pose proof two_cpus_start as H.
  eapply lr_step in H; [|eapply (ls_enter _ _ _ 1); vm_compute; reflexivity].
  eapply lr_step in H; [|eapply (ls_enter _ _ _ 0); vm_compute; reflexivity].
  eapply lr_step in H; [|eapply (ls_got _ _ _ 1); vm_compute; reflexivity].
  eapply lr_step in H; [|eapply (ls_spin _ _ _ 0); vm_compute; reflexivity].
  eapply lr_step in H; [|eapply (ls_mark _ _ _ 1); vm_compute; reflexivity].
  destruct (spinlock_mutual_exclusion 7 _ _ 1 1 H eq_refl eq_refl) as [_ Hc].
  eexists. exact Hc.
Defined.
