(* ===== verification/Proc.v ===== *)
(** * Processes ([proc.h], [proc.c]): the table and the scheduler's data

    Data of the process table and of the MLFQ/stride scheduler, the monad
    operations that read and write them, and the routines of [proc.c] that
    need nothing outside it.  Pointers into [ptable.proc] are indices, a null
    pointer is [None]; a null or out-of-range access is [Undef]. *)
From stdpp Require Import base list gmap strings.
From Stdlib Require Import ZArith Lia.
From S2P Require Import Prelude Params Spinlock.
#[local] Open Scope Z_scope.
#[local] Open Scope kernel_scope.

(** ** Data *)

Inductive procstate := UNUSED | EMBRYO | SLEEPING | RUNNABLE | RUNNING | ZOMBIE.
#[export] Instance procstate_eq_dec : EqDecision procstate.
Proof. solve_decision. Defined.

(** Sleep channels are addresses used as names: of a process, of a word of
    memory, or null. *)
Inductive chan := ChNull | ChProc (i : nat) | ChAddr (a : Z).
#[export] Instance chan_eq_dec : EqDecision chan.
Proof. solve_decision. Defined.

(** Kernel code a saved context may return to. *)
Inductive kpc := KNone | KForkret | KTrapret.

(** [struct trapframe], without its padding. *)
Record trapframe := mktf {
  edi : Z; esi : Z; ebp : Z; oesp : Z; ebx : Z; edx : Z; ecx : Z; eax : Z;
  gs : Z; fs : Z; es : Z; ds : Z; trapno : Z; err : Z; eip : Z; cs : Z;
  eflags : Z; esp : Z; ss : Z
}.
#[export] Instance eta_trapframe : Eta trapframe := fun t =>
  mktf (edi t) (esi t) (ebp t) (oesp t) (ebx t) (edx t) (ecx t) (eax t) (gs t)
    (fs t) (es t) (ds t) (trapno t) (err t) (eip t) (cs t) (eflags t) (esp t) (ss t).
Definition tf_zero : trapframe := mktf 0 0 0 0 0 0 0 0 0 0 0 0 0 0 0 0 0 0 0.

(** [struct context] *)
Record context := mkctx { c_edi : Z; c_esi : Z; c_ebx : Z; c_ebp : Z; c_eip : kpc }.

(** [struct proc].  The trap frame and the context are the contents of the
    kernel stack; [kret] is the word above the context. *)
Record proc := mkproc {
  level : Z; timeallot : Z; timequant : Z; tickcount : Z; ustack : Z;
  share : Z; stride : Z; pass : Z; waiting_tid : Z; thread_count : Z;
  next_tid : Z; thread_id : Z; lwpgroup : option nat; t_link : option nat;
  s_link : option nat; retval : Z; sz : Z; pgdir : Z; kstack : Z;
  state : procstate; pid : Z; parent : option nat; tf : trapframe;
  ctx : context; kret : kpc; pchan : chan; killed : Z;
  ofile : list (option nat); cwd : option nat; name : list Z
}.
#[export] Instance eta_proc : Eta proc := fun p =>
  mkproc (level p) (timeallot p) (timequant p) (tickcount p) (ustack p)
    (share p) (stride p) (pass p) (waiting_tid p) (thread_count p)
    (next_tid p) (thread_id p) (lwpgroup p) (t_link p) (s_link p) (retval p)
    (sz p) (pgdir p) (kstack p) (state p) (pid p) (parent p) (tf p) (ctx p)
    (kret p) (pchan p) (killed p) (ofile p) (cwd p) (name p).

(** A slot of the zeroed [ptable]. *)
Definition proc0 : proc :=
  mkproc 0 0 0 0 0 0 0 0 0 0 0 0 None None None 0 0 0 0 UNUSED 0 None tf_zero
    (mkctx 0 0 0 0 KNone) KNone ChNull 0 (replicate NOFILE None) None (replicate 16 0).

(** [mlfqstr] *)
Record mlfq := mkmlfq {
  priboosttime : Z; mlfq_pass : Z; mlfq_stride : Z; mlfq_proc_cnt : Z;
  stride_share : Z; stride_head : option nat; qlevels : list Z;
  next_t : list (option nat)
}.
#[export] Instance eta_mlfq : Eta mlfq := fun q =>
  mkmlfq (priboosttime q) (mlfq_pass q) (mlfq_stride q) (mlfq_proc_cnt q)
    (stride_share q) (stride_head q) (qlevels q) (next_t q).
Definition mlfq0 : mlfq :=
  mkmlfq 0 0 0 0 0 None (replicate 3 0) (replicate NPROC None).

(** The value [p->level = -1] has in the unsigned field. *)
Definition STRIDE : Z := 2 ^ 32 - 1.

(** The kernel state the process code works on; [env] is the state of the
    other subsystems (memory, files). *)
Record kstate (E : Type) := mkk {
  mach : machine; ptable : list proc; mlfqstr : mlfq; nextpid : Z;
  initproc : option nat; ticks : Z; first : bool; kpgdir : Z; env : E
}.
Arguments mkk {E}.
Arguments mach {E}. Arguments ptable {E}. Arguments mlfqstr {E}.
Arguments nextpid {E}. Arguments initproc {E}. Arguments ticks {E}.
Arguments first {E}. Arguments kpgdir {E}. Arguments env {E}.
#[export] Instance eta_kstate {E} : Eta (kstate E) := fun s =>
  mkk (mach s) (ptable s) (mlfqstr s) (nextpid s) (initproc s) (ticks s) (first s) (kpgdir s)
    (env s).

(** Addresses of the locks of [proc.c] and [trap.c]. *)
Definition ptable_lock : Z := 2147483648.
Definition mlfqstr_lock : Z := 2147483652.
Definition tickslock : Z := 2147483656.

Section access.
Context {E : Type}.
Abbreviation K := (kstate E).

Definition on_mach {A} (m : M machine A) : M K A :=
  zoom mach (fun m s => s <| mach := m |>) m.
Definition on_env {A} (m : M E A) : M K A :=
  zoom env (fun e s => s <| env := e |>) m.

(** [ptable.proc[i]] *)
Definition proc_at (i : nat) : M K proc :=
  s <~ get; of_option (Undef "ptable.proc") (ptable s !! i).
Definition set_proc (i : nat) (p : proc) : M K unit :=
  modify (fun s => s <| ptable ::= <[i := p]> |>).
Definition upd_proc (i : nat) (f : proc -> proc) : M K unit :=
  p <~ proc_at i; set_proc i (f p).

(** Following a pointer to a process. *)
Definition deref (o : option nat) : M K nat := of_option (Undef "null pointer") o.

Definition get_mlfq : M K mlfq := gets mlfqstr.
Definition upd_mlfq (f : mlfq -> mlfq) : M K unit :=
  modify (fun s => s <| mlfqstr ::= f |>).

(** [mlfqstr.qlevels[l]], an array of three [int]s. *)
Definition qlevel_at (l : Z) : M K Z :=
  q <~ get_mlfq;
  if (0 <=? l) && (l <? 3) then of_option (Undef "qlevels") (qlevels q !! Z.to_nat l)
  else undef "qlevels".
Definition set_qlevel (l v : Z) : M K unit :=
  if (0 <=? l) && (l <? 3) then
    upd_mlfq (fun q => q <| qlevels ::= <[Z.to_nat l := v]> |>)
  else undef "qlevels".

(** [mlfqstr.next_t[pid]], an array of [NPROC] pointers. *)
Definition next_t_at (pid : Z) : M K (option nat) :=
  q <~ get_mlfq;
  if (0 <=? pid) && (pid <? Z.of_nat NPROC) then
    of_option (Undef "next_t") (next_t q !! Z.to_nat pid)
  else undef "next_t".
Definition set_next_t (pid : Z) (t : option nat) : M K unit :=
  if (0 <=? pid) && (pid <? Z.of_nat NPROC) then
    upd_mlfq (fun q => q <| next_t ::= <[Z.to_nat pid := t]> |>)
  else undef "next_t".

Definition acquire_k (lk : Z) : M K unit := on_mach (acquire lk).
Definition release_k (lk : Z) : M K unit := on_mach (release lk).
(** [myproc()], which the callers dereference. *)
Definition curproc : M K nat := o <~ on_mach myproc; deref o.
End access.

(** The slots [for(p = ptable.proc; p < &ptable.proc[NPROC]; p++)] visits. *)
Definition slots : list nat := seq 0 NPROC.

(** [(int)(STRIDE_DIVIDEND/d + 0.5)]: the division is of integers, the sum is
    truncated. *)
Definition stride_of (d : Z) : Z := Z.quot (2 * Z.quot STRIDE_DIVIDEND d + 1) 2.

Section mlfq_ops.
Context {E : Type}.
Abbreviation K := (kstate E).

Definition mlfqrm (i : nat) : M K unit :=
  p <~ proc_at i;
  (if (0 <=? level p) && (level p <=? 2) then
     q <~ qlevel_at (level p); set_qlevel (level p) (i32 (q - 1))
   else ret tt) ;;;
  upd_mlfq (fun q => q <| mlfq_proc_cnt ::= fun n => i32 (n - 1) |>).

Definition mlfqadd (i : nat) : M K unit :=
  p <~ proc_at i;
  (if (0 <=? level p) && (level p <=? 2) then
     q <~ qlevel_at (level p); set_qlevel (level p) (i32 (q + 1))
   else ret tt) ;;;
  upd_mlfq (fun q => q <| mlfq_proc_cnt ::= fun n => i32 (n + 1) |>).

(** [100 - mlfqstr.stride_share] must not be zero. *)
Definition set_mlfq_stride : M K unit :=
  q <~ get_mlfq;
  if 100 - stride_share q =? 0 then undef "division by zero"
  else upd_mlfq (fun q => q <| mlfq_stride := u32 (stride_of (i32 (100 - stride_share q))) |>).

(** The walk of [striderm] to the predecessor of [p]; a list of [NPROC]
    slots is walked in [NPROC] steps or cyclic. *)
Definition striderm_unlink (i : nat) (start : option nat) : M K unit :=
  loop (S NPROC) (fun pptr =>
    match pptr with
    | None => ret (inr tt)
    | Some j =>
        pj <~ proc_at j;
        if decide (s_link pj = Some i) then
          p <~ proc_at i;
          upd_proc j (fun pj => pj <| s_link := s_link p |>) ;;;
          ret (inr tt)
        else ret (inl (s_link pj))
    end) start.

Definition striderm (i : nat) : M K unit :=
  q <~ get_mlfq;
  (if decide (stride_head q = Some i) then
     p <~ proc_at i; upd_mlfq (fun q => q <| stride_head := s_link p |>)
   else striderm_unlink i (stride_head q)) ;;;
  upd_proc i (fun p => p <| s_link := None |>) ;;;
  p <~ proc_at i;
  upd_mlfq (fun q => q <| stride_share ::= fun n => i32 (n - share p) |>) ;;;
  set_mlfq_stride ;;;
  q <~ get_mlfq;
  match stride_head q with
  | None => upd_mlfq (fun q => q <| mlfq_pass := 0 |>)
  | Some _ => ret tt
  end.

Definition strideadd (i : nat) : M K unit :=
  q <~ get_mlfq;
  upd_proc i (fun p => p <| s_link := stride_head q |>) ;;;
  upd_mlfq (fun q => q <| stride_head := Some i |>).

Definition pinit : M K unit :=
  on_mach (initlock ptable_lock "ptable") ;;;
  on_mach (initlock mlfqstr_lock "mlfqstr") ;;;
  acquire_k mlfqstr_lock ;;;
  upd_mlfq (fun q => q <| priboosttime := 0 |>) ;;;
  set_qlevel 2 0 ;;; set_qlevel 1 0 ;;; set_qlevel 0 0 ;;;
  upd_mlfq (fun q => q <| stride_head := None |> <| stride_share := 0 |>
                       <| mlfq_pass := 0 |> <| mlfq_stride := 0 |>) ;;;
  release_k mlfqstr_lock.

(** [p->level != -1] *)
Definition in_mlfq (p : proc) : bool := negb (level p =? STRIDE).
(** [acquire(&mlfqstr.lock); mlfqadd(p); release(&mlfqstr.lock)] under
    [if(p->level != -1)], as the callers write it. *)
Definition locked_add (i : nat) : M K unit :=
  p <~ proc_at i;
  if in_mlfq p then
    acquire_k mlfqstr_lock ;;; mlfqadd i ;;; release_k mlfqstr_lock
  else ret tt.
Definition locked_rm (i : nat) : M K unit :=
  p <~ proc_at i;
  if in_mlfq p then
    acquire_k mlfqstr_lock ;;; mlfqrm i ;;; release_k mlfqstr_lock
  else ret tt.
End mlfq_ops.

(** ** Sleeping and waking *)

Section wake.
Context {E : Type}.
Abbreviation K := (kstate E).

(** [sleep] up to the call of [sched]. *)
Definition sleep_mark (c : chan) (lk : Z) : M K unit :=
  o <~ on_mach myproc;
  match o with
  | None => panic "sleep"
  | Some p =>
      if lk =? 0 then panic "sleep without lk"
      else
        (if lk =? ptable_lock then ret tt
         else acquire_k ptable_lock ;;; release_k lk) ;;;
        upd_proc p (fun p => p <| pchan := c |> <| state := SLEEPING |>) ;;;
        locked_rm p
  end.

(** [sleep] after [sched] has returned. *)
Definition sleep_tidy (p : nat) (lk : Z) : M K unit :=
  upd_proc p (fun p => p <| pchan := ChNull |>) ;;;
  if lk =? ptable_lock then ret tt
  else release_k ptable_lock ;;; acquire_k lk.

(** [p->state == SLEEPING && p->chan == chan] *)
Definition sleeps_on (c : chan) (p : proc) : bool :=
  bool_decide (state p = SLEEPING) && bool_decide (pchan p = c).

Definition wakeup_one (c : chan) : M K unit :=
  for_until slots (fun i =>
    p <~ proc_at i;
    if sleeps_on c p then
      set_proc i (p <| state := RUNNABLE |>) ;;; ret (Some tt)
    else ret None) ;;;
  ret tt.

Definition wakeup1 (c : chan) : M K unit :=
  for_each slots (fun i =>
    p <~ proc_at i;
    if sleeps_on c p then
      set_proc i (p <| state := RUNNABLE |>) ;;; locked_add i
    else ret tt).

Definition wakeup (c : chan) : M K unit :=
  acquire_k ptable_lock ;;; wakeup1 c ;;; release_k ptable_lock.

(** [kill]; its line on the console is not modelled. *)
Definition kill (id : Z) : M K Z :=
  acquire_k ptable_lock ;;;
  r <~ for_until slots (fun i =>
    p <~ proc_at i;
    if pid p =? id then
      set_proc i (p <| killed := 1 |>) ;;;
      (if decide (state p = SLEEPING) then
         upd_proc i (fun p => p <| state := RUNNABLE |>) ;;; locked_add i
       else ret tt) ;;;
      release_k ptable_lock ;;;
      ret (Some tt)
    else ret None);
  match r with
  | Some _ => ret 0
  | None => release_k ptable_lock ;;; ret (-1)
  end.

Definition getlev : M K Z :=
  i <~ curproc; p <~ proc_at i;
  let l := i32 (level p) in
  ret (if (l <? 0) || (2 <? l) then -1 else l).

(** The search of the stride list in [set_cpu_share]. *)
Definition stride_member (id : Z) (start : option nat) : M K bool :=
  loop (S NPROC) (fun pptr =>
    match pptr with
    | None => ret (inr false)
    | Some j =>
        pj <~ proc_at j;
        ret (if pid pj =? id then inr true else inl (s_link pj))
    end) start.

Definition set_cpu_share (sh : Z) : M K Z :=
  acquire_k ptable_lock ;;;
  acquire_k mlfqstr_lock ;;;
  if sh <=? 0 then ret (-1)
  else
    q <~ get_mlfq;
    if 80 <? i32 (stride_share q + sh) then ret (-1)
    else
      i <~ curproc;
      match stride_head q with
      | None =>
          mlfqrm i ;;;
          upd_mlfq (fun q => q <| stride_head := Some i |>)
      | Some _ =>
          p <~ proc_at i;
          found <~ stride_member (pid p) (stride_head q);
          if found : bool then ret tt else mlfqrm i ;;; strideadd i
      end ;;;
      upd_mlfq (fun q => q <| stride_share ::= fun n => i32 (n + sh) |>) ;;;
      upd_proc i (fun p => p <| share := sh |> <| stride := stride_of sh |>
                             <| level := STRIDE |> <| timequant := 5 |>) ;;;
      set_mlfq_stride ;;;
      release_k ptable_lock ;;;
      release_k mlfqstr_lock ;;;
      ret 0.
End wake.

(** ** Reasoning about kernel code

    The rules work on a state given by its components. *)

Section rules.
Context {E : Type} (m : machine) (pt : list proc) (q : mlfq) (np : Z) (ip : option nat).
Context (tk : Z) (fi : bool) (kp : Z) (e : E) (X : stop -> Prop).
Abbreviation st := (mkk m pt q np ip tk fi kp e).

Lemma wp_on_mach {A} (c : M machine A) (Q : A -> kstate E -> Prop) :
  wp c X (fun a m' => Q a (mkk m' pt q np ip tk fi kp e)) m -> wp (on_mach c) X Q st.
Proof. intros H. by apply wp_zoom. Qed.

Lemma wp_on_env {A} (c : M E A) (Q : A -> kstate E -> Prop) :
  wp c X (fun a e' => Q a (mkk m pt q np ip tk fi kp e')) e -> wp (on_env c) X Q st.
Proof. intros H. by apply wp_zoom. Qed.

Lemma wp_acquire_k L w lk (Q : unit -> kstate E -> Prop) :
  view m L w -> lk ∉ L ->
  (forall m', view m' (lk :: L) w -> Q tt (mkk m' pt q np ip tk fi kp e)) ->
  wp (acquire_k lk) X Q st.
Proof. intros. apply wp_on_mach. eapply wp_acquire; eauto. Qed.

Lemma wp_release_k L1 L2 w lk (Q : unit -> kstate E -> Prop) :
  view m (L1 ++ lk :: L2) w ->
  (forall m', view m' (L1 ++ L2) w -> Q tt (mkk m' pt q np ip tk fi kp e)) ->
  wp (release_k lk) X Q st.
Proof. intros. apply wp_on_mach. eapply wp_release; eauto. Qed.

Lemma wp_myproc_k L w (Q : option nat -> kstate E -> Prop) :
  view m L w ->
  (forall m', view m' L w -> Q (w_proc w) (mkk m' pt q np ip tk fi kp e)) ->
  wp (on_mach myproc) X Q st.
Proof. intros. apply wp_on_mach. eapply wp_myproc; eauto. Qed.

Lemma wp_curproc L w i (Q : nat -> kstate E -> Prop) :
  view m L w -> w_proc w = Some i ->
  (forall m', view m' L w -> Q i (mkk m' pt q np ip tk fi kp e)) ->
  wp curproc X Q st.
Proof.
  intros Hv Hi HQ. unfold curproc. apply wp_bind. eapply wp_myproc_k; [done|]. intros m' Hv'.
  eapply wp_some; [done|]. by apply HQ.
Qed.

Lemma wp_proc_at i p (Q : proc -> kstate E -> Prop) :
  pt !! i = Some p -> Q p st -> wp (proc_at i) X Q st.
Proof. intros Hi HQ. unfold proc_at. apply wp_bind, wp_get. by eapply wp_some. Qed.

Lemma proc_at_run i p : pt !! i = Some p -> proc_at i st = Ok (p, st).
Proof. intros Hi. unfold proc_at, bind, get. cbn. by rewrite Hi. Qed.

Lemma wp_set_proc i p (Q : unit -> kstate E -> Prop) :
  Q tt (mkk m (<[i := p]> pt) q np ip tk fi kp e) -> wp (set_proc i p) X Q st.
Proof. done. Qed.

Lemma wp_upd_proc i p f (Q : unit -> kstate E -> Prop) :
  pt !! i = Some p -> Q tt (mkk m (<[i := f p]> pt) q np ip tk fi kp e) ->
  wp (upd_proc i f) X Q st.
Proof. intros. unfold upd_proc. apply wp_bind. by eapply wp_proc_at. Qed.

Lemma wp_deref i (Q : nat -> kstate E -> Prop) : Q i st -> wp (deref (Some i)) X Q st.
Proof. done. Qed.

Lemma wp_get_mlfq (Q : mlfq -> kstate E -> Prop) : Q q st -> wp get_mlfq X Q st.
Proof. done. Qed.

Lemma wp_upd_mlfq f (Q : unit -> kstate E -> Prop) :
  Q tt (mkk m pt (f q) np ip tk fi kp e) -> wp (upd_mlfq f) X Q st.
Proof. done. Qed.

Lemma wp_qlevel_at l n (Q : Z -> kstate E -> Prop) :
  0 <= l < 3 -> qlevels q !! Z.to_nat l = Some n -> Q n st -> wp (qlevel_at l) X Q st.
Proof.
  intros Hl Hn HQ. unfold qlevel_at. apply wp_bind, wp_gets.
  replace ((0 <=? l) && (l <? 3)) with true by lia. by eapply wp_some.
Qed.

Lemma wp_set_qlevel l v (Q : unit -> kstate E -> Prop) :
  0 <= l < 3 ->
  Q tt (mkk m pt (q <| qlevels ::= <[Z.to_nat l := v]> |>) np ip tk fi kp e) ->
  wp (set_qlevel l v) X Q st.
Proof.
  intros Hl HQ. unfold set_qlevel.
  by replace ((0 <=? l) && (l <? 3)) with true by lia.
Qed.
End rules.

(** One step of kernel code on a state given by its components: the side
    conditions are looked up among the hypotheses. *)
Ltac kside := first [eassumption | done | set_solver | lia].
Ltac kstep :=
  lazymatch goal with
  | |- wp (bind _ _) _ _ _ => apply wp_bind
  | |- wp (ret _) _ _ _ => apply wp_ret
  | |- wp get _ _ _ => apply wp_get
  | |- wp (gets _) _ _ _ => apply wp_gets; cbn [mach ptable mlfqstr nextpid initproc ticks first kpgdir env]
  | |- wp (proc_at _) _ _ _ => eapply wp_proc_at; [eassumption|]
  | |- wp (set_proc _ _) _ _ _ => apply wp_set_proc
  | |- wp (upd_proc _ _) _ _ _ => eapply wp_upd_proc; [eassumption|]
  | |- wp get_mlfq _ _ _ => apply wp_get_mlfq
  | |- wp (upd_mlfq _) _ _ _ => apply wp_upd_mlfq
  | |- wp (deref (Some _)) _ _ _ => apply wp_deref
  | |- wp (acquire_k _) _ _ _ =>
      eapply wp_acquire_k; [eassumption|set_solver|]; let m' := fresh "m" in let Hv := fresh "Hv" in
      intros m' Hv
  | |- wp (release_k ?lk) _ _ _ =>
      first [ eapply (wp_release_k _ _ _ _ _ _ _ _ _ _ []); [cbn [app]; eassumption|]
            | eapply (wp_release_k _ _ _ _ _ _ _ _ _ _ [_]); [cbn [app]; eassumption|]
            | eapply (wp_release_k _ _ _ _ _ _ _ _ _ _ [_; _]); [cbn [app]; eassumption|] ];
      let m' := fresh "m" in let Hv := fresh "Hv" in
      intros m' Hv; cbn [app] in Hv
  end; cbn beta iota.
Ltac ksteps := repeat kstep.
