(* ===== verification/Sched.v ===== *)
(** * The scheduler ([proc.c]: [sched], [scheduler], [yield] and what they call)

    A context switch ends the segment of code that runs on one kernel stack,
    so each routine that calls [swtch] is given as the code before the switch
    and the code after it.  [switchuvm] and [switchkvm] ([vm.c]) load the
    kernel stack and the page table of the process that runs next. *)
From stdpp Require Import base list gmap strings.
From Stdlib Require Import ZArith Lia.
From S2P Require Import Prelude Params Mmu Spinlock Proc.
#[local] Open Scope Z_scope.
#[local] Open Scope kernel_scope.

(** Where control goes when a routine gives up its kernel stack. *)
Inductive handoff := Stay | ToScheduler | ToThread (t : nat).

Section sched.
Context {E : Type}.
Abbreviation K := (kstate E).

(** [mycpu()->f = ...] *)
Definition upd_mycpu (f : cpu -> cpu) : M K unit :=
  on_mach (i <~ mycpu; c <~ cpu_at i; set_cpu i (f c)).

Definition switchkvm : M K unit :=
  k <~ gets kpgdir;
  on_mach (m <~ get; c <~ cpu_at (here m); set_cpu (here m) (c <| cr3 := V2P k |>)).

(** The constant fields of the task-state segment are not modelled. *)
Definition switchuvm (o : option nat) : M K unit :=
  match o with
  | None => panic "switchuvm: no process"
  | Some i =>
      p <~ proc_at i;
      if kstack p =? 0 then panic "switchuvm: no kstack"
      else if pgdir p =? 0 then panic "switchuvm: no pgdir"
      else
        on_mach pushcli ;;;
        upd_mycpu (fun c => c <| esp0 := u32 (kstack p + KSTACKSIZE) |>) ;;;
        upd_mycpu (fun c => c <| cr3 := V2P (pgdir p) |>) ;;;
        on_mach popcli
  end.

(** [sched] up to [swtch]; the result is the [intena] it keeps. *)
Definition sched_enter : M K bool :=
  i <~ curproc;
  h <~ on_mach (holding ptable_lock);
  if negb h then panic "sched ptable.lock"
  else
    c <~ on_mach (j <~ mycpu; cpu_at j);
    if negb (ncli c =? 1) then panic "sched locks"
    else
      p <~ proc_at i;
      if decide (state p = RUNNING) then panic "sched running"
      else
        fl <~ on_mach readeflags;
        if fl : bool then panic "sched interruptible"
        else c <~ on_mach (j <~ mycpu; cpu_at j); ret (intena c).

(** [sched] once the process is switched to again. *)
Definition sched_exit (saved : bool) : M K unit :=
  upd_mycpu (fun c => c <| intena := saved |>).

Definition priboost : M K unit :=
  for_each slots (fun i =>
    p <~ proc_at i;
    if bool_decide (state p = RUNNABLE) && negb (level p =? STRIDE) && negb (pid p =? -1) then
      n <~ qlevel_at (level p); set_qlevel (level p) (i32 (n - 1)) ;;;
      set_proc i (p <| level := 2 |> <| timequant := 5 |> <| timeallot := 20 |>
                    <| tickcount := 0 |>) ;;;
      n <~ qlevel_at 2; set_qlevel 2 (i32 (n + 1))
    else ret tt).

Definition lowerlevel (i : nat) : M K unit :=
  p <~ proc_at i;
  if (level p <? 1) || (2 <? level p) then ret tt
  else
    n <~ qlevel_at (level p); set_qlevel (level p) (i32 (n - 1)) ;;;
    let l := level p - 1 in
    upd_proc i (fun p => p <| level := l |> <| tickcount := 0 |>) ;;;
    (if l =? 1 then upd_proc i (fun p => p <| timequant := 10 |> <| timeallot := 40 |>)
     else if l =? 0 then upd_proc i (fun p => p <| timequant := 20 |>)
     else ret tt) ;;;
    n <~ qlevel_at l; set_qlevel l (i32 (n + 1)).

(** [new_t->state == RUNNABLE && new_t->waiting_tid == -1] *)
Definition thread_ready (p : proc) : bool :=
  bool_decide (state p = RUNNABLE) && (waiting_tid p =? -1).

(** The search of [update_next_t]: once round the list of the group, whose
    last thread is followed by the main thread. *)
Definition update_next_t (main : nat) : M K Z :=
  m <~ proc_at main;
  o <~ next_t_at (pid m);
  let old := default main o in
  po <~ proc_at old;
  new <~ loop (S NPROC) (fun new =>
    if decide (new = old) then ret (inr new)
    else
      pn <~ proc_at new;
      ret (if thread_ready pn then inr new else inl (default main (t_link pn))))
    (default main (t_link po));
  pn <~ proc_at new;
  if thread_ready pn then set_next_t (pid m) (Some new) ;;; ret 0
  else set_next_t (pid m) None ;;; ret (-1).

(** [thread_swtch]: [inl] is its result when it returns without switching,
    [inr t] a switch to thread [t]. *)
Definition thread_swtch (main : nat) : M K (Z + nat) :=
  acquire_k mlfqstr_lock ;;;
  m <~ proc_at main;
  next <~ next_t_at (pid m);
  update_next_t main ;;;
  release_k mlfqstr_lock ;;;
  match next with
  | None => ret (inl (-1))
  | Some t =>
      o <~ on_mach myproc;
      if decide (o = Some t) then
        upd_proc t (fun p => p <| state := RUNNING |>) ;;; ret (inl 0)
      else
        upd_mycpu (fun c => c <| cproc := Some t |>) ;;;
        switchuvm (Some t) ;;;
        upd_proc t (fun p => p <| state := RUNNING |>) ;;;
        ret (inr t)
  end.

(** [yield] up to the switch, if there is one; [ToScheduler] carries on with
    [sched_enter]. *)
Definition yield_enter : M K handoff :=
  acquire_k ptable_lock ;;;
  i <~ curproc;
  c <~ proc_at i;
  main <~ deref (lwpgroup c);
  m <~ proc_at main;
  let tickc := tickcount m in
  let lev := level m in
  let allot := timeallot m in
  upd_proc main (fun m => m <| tickcount ::= fun t => u32 (t + 1) |>) ;;;
  upd_proc i (fun p => p <| state := RUNNABLE |>) ;;;
  lowered <~ (if (0 <? lev) && (allot <=? tickc) then lowerlevel main ;;; ret true
              else ret false);
  acquire_k tickslock ;;;
  acquire_k mlfqstr_lock ;;;
  s <~ get;
  (if 200 <=? u32 (ticks s - priboosttime (mlfqstr s)) then
     upd_mlfq (fun q => q <| priboosttime := ticks s |>) ;;; priboost
   else ret tt) ;;;
  release_k tickslock ;;;
  q <~ get_mlfq;
  match stride_head q with
  | Some _ =>
      if lev =? STRIDE then upd_proc main (fun m => m <| pass := i32 (pass m + stride m) |>)
      else upd_mlfq (fun q => q <| mlfq_pass := u32 (mlfq_pass q + mlfq_stride q) |>)
  | None => ret tt
  end ;;;
  release_k mlfqstr_lock ;;;
  m <~ proc_at main;
  if 1 <? thread_count m then
    r <~ thread_swtch main;
    match r with
    | inl z => ret (if z =? -1 then ToScheduler else Stay)
    | inr t => ret (ToThread t)
    end
  else if lowered : bool then ret ToScheduler
  else if timequant m =? 0 then undef "division by zero"
  else ret (if Z.rem tickc (timequant m) =? 0 then ToScheduler else Stay).

(** [yield] after the switch, or without one. *)
Definition yield_exit : M K Z := release_k ptable_lock ;;; ret 0.

(** *** [scheduler] *)

(** The declarations before its loop. *)
Definition scheduler_init : M K unit :=
  upd_mycpu (fun c => c <| cproc := None |>).

(** The search of the stride list: the last process met that is runnable and
    whose pass is at most the smallest seen.  [min_pass] is a [uint], so the
    comparison is unsigned. *)
Definition stride_pick (start : option nat) (min : Z) : M K (option nat) :=
  loop (S NPROC) (fun '(sp, min, best) =>
    match sp with
    | None => ret (inr best)
    | Some j =>
        p <~ proc_at j;
        ret (inl (if (u32 (pass p) <=? min) && bool_decide (state p = RUNNABLE)
                  then (s_link p, u32 (pass p), Some j)
                  else (s_link p, min, best)))
    end) (start, min, None).

(** The level to select from. *)
Definition pick_level : M K Z :=
  n2 <~ qlevel_at 2;
  if 0 <? n2 then ret 2
  else n1 <~ qlevel_at 1; ret (if 0 <? n1 then 1 else 0).

(** [if(searchidx < &ptable.proc[NPROC-1]) searchidx++; else searchidx = ptable.proc;] *)
Definition next_slot (i : nat) : nat := if (i <? NPROC - 1)%nat then S i else 0%nat.

(** [p->state == RUNNABLE && p->level == level && p->pid != -1] *)
Definition mlfq_ready (l : Z) (p : proc) : bool :=
  bool_decide (state p = RUNNABLE) && (level p =? l) && negb (pid p =? -1).

(** The search of the table from [searchidx]: the process found and the new
    [searchidx].  The counter ends it after [NPROC] slots. *)
Definition mlfq_pick (l : Z) (idx : nat) : M K (option nat * nat) :=
  loop NPROC (fun '(idx, cnt) =>
    p <~ proc_at idx;
    ret (if mlfq_ready l p then inr (Some idx, next_slot idx)
         else if 63 <=? cnt then inr (None, next_slot idx)
         else inl (next_slot idx, cnt + 1))) (idx, 0).

(** The body of the loop up to [contextswitch] or [norunnable]. *)
Definition scheduler_select (idx : nat) : M K (option nat * nat) :=
  on_mach sti ;;;
  acquire_k ptable_lock ;;;
  acquire_k mlfqstr_lock ;;;
  q <~ get_mlfq;
  best <~ match stride_head q with
          | Some h =>
              ph <~ proc_at h;
              stride_pick (Some h)
                (if 0 <? mlfq_proc_cnt q then mlfq_pass q else u32 (pass ph))
          | None => ret None
          end;
  match best with
  | Some j => release_k mlfqstr_lock ;;; ret (Some j, idx)
  | None =>
      l <~ pick_level;
      release_k mlfqstr_lock ;;;
      mlfq_pick l idx
  end.

(** [contextswitch] up to [swtch]: the process that is switched to, [None]
    when a group has no thread to run. *)
Definition scheduler_switch (new : nat) : M K (option nat) :=
  p <~ proc_at new;
  if 1 <? thread_count p then
    r <~ thread_swtch new;
    ret match r with inl _ => None | inr t => Some t end
  else
    upd_mycpu (fun c => c <| cproc := Some new |>) ;;;
    switchuvm (Some new) ;;;
    upd_proc new (fun p => p <| state := RUNNING |>) ;;;
    ret (Some new).

(** After the process has switched back (or was not switched to). *)
Definition scheduler_return : M K unit :=
  switchkvm ;;;
  upd_mycpu (fun c => c <| cproc := None |>) ;;;
  release_k ptable_lock.

(** [norunnable] *)
Definition scheduler_idle : M K unit := release_k ptable_lock.
End sched.

(** ** Rules for the CPU record *)

Section cpu_rules.
Context {E : Type} (m : machine) (pt : list proc) (q : mlfq) (np : Z) (ip : option nat).
Context (tk : Z) (fi : bool) (kp : Z) (e : E) (X : stop -> Prop).
Abbreviation st := (mkk m pt q np ip tk fi kp e).

Lemma upd_mycpu_run i c f :
  on_cpu m i c -> intr_on c = false ->
  upd_mycpu f st = Ok (tt, mkk (m <| cpus ::= <[i := f c]> |>) pt q np ip tk fi kp e).
Proof.
  intros H Hi. unfold upd_mycpu, on_mach, zoom. cbn.
  rewrite (bind_ok _ _ _ _ _ (mycpu_run _ _ _ H Hi)), (bind_ok _ _ _ _ _ (cpu_at_run _ _ _ H)).
  done.
Qed.

Lemma wp_upd_mycpu l L w f (Q : unit -> kstate E -> Prop) :
  view m (l :: L) w ->
  (forall c, apicid (f c) = apicid c /\ ncli (f c) = ncli c /\ intr_on (f c) = intr_on c) ->
  (forall c m', view m' (l :: L) (mkwho (w_cpu w)
       (if decide (intena (f c) = intena c) then w_on w else intena (f c))
       (cproc (f c)) (w_cpus w)) -> cproc c = w_proc w -> intena c = w_on w ->
     Q tt (mkk m' pt q np ip tk fi kp e)) ->
  wp (upd_mycpu f) X Q st.
Proof.
  intros Hv Hf HQ. pose proof Hv as (c & H & Hn & Hp & _ & [Hi He] & _).
  destruct (Hf c) as (Ha & Hn' & Hi'). unfold wp. rewrite (upd_mycpu_run _ _ _ H Hi).
  by apply (HQ c); [apply view_upd|..].
Qed.

Lemma wp_set_cproc l L w o (Q : unit -> kstate E -> Prop) :
  view m (l :: L) w ->
  (forall m', view m' (l :: L) (mkwho (w_cpu w) (w_on w) o (w_cpus w)) ->
     Q tt (mkk m' pt q np ip tk fi kp e)) ->
  wp (upd_mycpu (fun c => c <| cproc := o |>)) X Q st.
Proof.
  intros Hv HQ. eapply wp_upd_mycpu; [done|done|]. intros c m' Hv' _ _.
  rewrite decide_True in Hv' by done. by apply HQ.
Qed.

(** [sched_exit]: the interrupt flag that [release] will restore. *)
Lemma wp_sched_exit l L w on (Q : unit -> kstate E -> Prop) :
  view m (l :: L) w ->
  (forall m', view m' (l :: L) (mkwho (w_cpu w) on (w_proc w) (w_cpus w)) ->
     Q tt (mkk m' pt q np ip tk fi kp e)) ->
  wp (sched_exit on) X Q st.
Proof.
  intros Hv HQ. eapply wp_upd_mycpu; [done|done|]. intros c m' Hv' Hp He.
  apply HQ. cbn in Hv'. rewrite Hp in Hv'. revert Hv'. case_decide as Hd; [|done].
  by rewrite Hd, He.
Qed.

Lemma wp_switchkvm l L w (Q : unit -> kstate E -> Prop) :
  view m (l :: L) w ->
  (forall m', view m' (l :: L) w -> Q tt (mkk m' pt q np ip tk fi kp e)) ->
  wp switchkvm X Q st.
Proof.
  intros Hv HQ. pose proof Hv as (c & H & Hn & Hp & _ & [Hi He] & _).
  unfold switchkvm. kstep. kstep. apply wp_on_mach.
  unfold wp, bind, get. pose proof H as (Hh & _ & _). rewrite Hh, (cpu_at_run _ _ _ H).
  apply HQ, (view_same _ _ _ c); try done.
  unfold refreshed; cbn. by destruct (Z.eqb_spec (ncli c) 0); [cbn in Hn; lia|].
Qed.
End cpu_rules.

(** Loading the stack and the page table of a process. *)
Lemma wp_switchuvm {E} m pt q np ip tk fi kp (e : E) X L w i p (Q : unit -> kstate E -> Prop) :
  view m L w -> pt !! i = Some p -> kstack p <> 0 -> pgdir p <> 0 ->
  (forall m', view m' L w -> Q tt (mkk m' pt q np ip tk fi kp e)) ->
  wp (switchuvm (Some i)) X Q (mkk m pt q np ip tk fi kp e).
Proof.
  intros Hv Hi Hk Hg HQ. unfold switchuvm. ksteps.
  destruct (Z.eqb_spec (kstack p) 0); [done|]. destruct (Z.eqb_spec (pgdir p) 0); [done|].
  destruct (view_wf _ _ _ Hv) as (c & H & Hwf).
  set (f1 := fun c : cpu => c <| esp0 := u32 (kstack p + KSTACKSIZE) |>).
  set (f2 := fun c : cpu => c <| cr3 := V2P (pgdir p) |>).
  kstep. apply wp_on_mach. unfold wp at 1. rewrite (pushcli_run _ _ _ H).
  set (m1 := setter cpus _ m).
  assert (H1 : on_cpu m1 (w_cpu w) (pushed c)) by by apply (on_cpu_set _ _ c).
  kstep. unfold wp at 1. rewrite (upd_mycpu_run _ _ _ _ _ _ _ _ _ _ _ f1 H1) by done.
  set (m2 := setter cpus _ m1).
  assert (H2 : on_cpu m2 (w_cpu w) (f1 (pushed c))) by by apply (on_cpu_set _ _ (pushed c)).
  kstep. unfold wp at 1. rewrite (upd_mycpu_run _ _ _ _ _ _ _ _ _ _ _ f2 H2) by done.
  set (m3 := setter cpus _ m2).
  assert (H3 : on_cpu m3 (w_cpu w) (f2 (f1 (pushed c)))) by by apply (on_cpu_set _ _ (f1 (pushed c))).
  apply wp_on_mach. unfold wp. rewrite (popcli_run _ _ _ H3); [|done|destruct Hwf; cbn; lia].
  apply HQ. unfold m3, m2, m1. rewrite !set_cpu_twice.
  pose proof (popped_pushed _ Hwf) as Hpp.
  apply (view_same _ _ _ c _ H Hv).
  all: unfold popped, pushed, refreshed, f1, f2 in *; cbn in *; injection Hpp; try done; lia.
Qed.

(** [sched] is entered with [ptable.lock] alone and the state changed. *)
Lemma wp_sched_enter {E} m pt q np ip tk fi kp (e : E) X w i p (Q : bool -> kstate E -> Prop) :
  view m [ptable_lock] w -> w_proc w = Some i -> pt !! i = Some p -> state p <> RUNNING ->
  (forall m', view m' [ptable_lock] w -> Q (w_on w) (mkk m' pt q np ip tk fi kp e)) ->
  wp sched_enter X Q (mkk m pt q np ip tk fi kp e).
Proof.
  intros Hv Hw Hi Hs HQ. unfold sched_enter. kstep. eapply wp_curproc; [done..|]. intros m1 Hv1.
  kstep. apply wp_on_mach. eapply wp_holding; [done|]. intros m2 Hv2.
  rewrite bool_decide_eq_true_2 by set_solver. cbn [negb].
  pose proof Hv2 as (c & H & Hn & Hp & _ & [Hoff He] & _).
  kstep. apply wp_on_mach. unfold wp at 1. rewrite (bind_ok _ _ _ _ _ (mycpu_run _ _ _ H Hoff)).
  rewrite (cpu_at_run _ _ _ H), Hn. change (Z.of_nat (length [ptable_lock]) =? 1) with true.
  cbn [negb]. ksteps. rewrite decide_False by done.
  kstep. apply wp_on_mach. unfold wp at 1. rewrite (readeflags_run _ _ _ H), Hoff.
  kstep. apply wp_on_mach. unfold wp at 1. rewrite (bind_ok _ _ _ _ _ (mycpu_run _ _ _ H Hoff)).
  rewrite (cpu_at_run _ _ _ H). kstep. rewrite He. by apply HQ.
Qed.
