(* ===== verification/SchedInv.v ===== *)
(** * The scheduler's bookkeeping ([proc.c])

    The counters of [mlfqstr] and the stride list as functions of the process
    table, and what each scheduler operation does to both: the invariant
    [sched_inv] and one rule per operation. *)
From stdpp Require Import base list gmap strings.
From Stdlib Require Import ZArith Lia.
From S2P Require Import Prelude Params Mmu Spinlock Proc Sched.
#[local] Open Scope Z_scope.
#[local] Open Scope kernel_scope.

(** ** The invariant *)

(** A process that is runnable or running. *)
Definition active (p : proc) : bool :=
  bool_decide (state p = RUNNABLE) || bool_decide (state p = RUNNING).

(** The members of level [l], and of the MLFQ. *)
Definition at_level (l : Z) (p : proc) : bool := active p && (level p =? l).
Definition mlfq_member (p : proc) : bool := active p && in_mlfq p.

Definition live (p : proc) : bool := bool_decide (state p = SLEEPING) || active p.

(** The members of the stride queue. *)
Definition stride_proc (p : proc) : bool := live p && (level p =? STRIDE).

Definition valid_level (l : Z) : Prop := 0 <= l <= 2 \/ l = STRIDE.

(** [qlevels] and [mlfq_proc_cnt] count the active processes. *)
Record counts_ok (pt : list proc) (q : mlfq) : Prop := {
  co_len : length pt = NPROC;
  co_qlevels : forall l, 0 <= l < 3 ->
    qlevels q !! Z.to_nat l = Some (countb (at_level l) pt);
  co_total : mlfq_proc_cnt q = countb mlfq_member pt;
  co_level : forall i p, pt !! i = Some p -> live p = true -> valid_level (level p)
}.

(** [slist pt h l]: following [s_link] from [h] visits exactly [l]. *)
Fixpoint slist (pt : list proc) (h : option nat) (l : list nat) : Prop :=
  match l with
  | [] => h = None
  | i :: l => h = Some i /\ exists p, pt !! i = Some p /\ slist pt (s_link p) l
  end.

Definition stride_weight (p : proc) : Z := if stride_proc p then share p else 0.

(** The stride list holds each stride process once, and the shares given out
    are within [stride_share], which is at most 80. *)
Record stride_ok (pt : list proc) (q : mlfq) : Prop := {
  so_list : exists l, slist pt (stride_head q) l /\ NoDup l /\
    forall i, i ∈ l <-> exists p, pt !! i = Some p /\ stride_proc p = true;
  so_share : forall i p, pt !! i = Some p -> stride_proc p = true -> 0 < share p;
  so_sum : sumZ stride_weight pt <= stride_share q <= 80
}.

Definition sched_inv (pt : list proc) (q : mlfq) : Prop := counts_ok pt q /\ stride_ok pt q.

(** ** Changing one process *)

(** The counters after one process changed from [p] to [p']. *)
Lemma counts_ok_update pt q q' i p p' :
  counts_ok pt q -> pt !! i = Some p ->
  (live p' = true -> valid_level (level p')) ->
  (forall l n, 0 <= l < 3 -> qlevels q !! Z.to_nat l = Some n -> 0 <= n <= 64 ->
     qlevels q' !! Z.to_nat l = Some (n - bz (at_level l p) + bz (at_level l p'))) ->
  (0 <= mlfq_proc_cnt q <= 64 ->
     mlfq_proc_cnt q' = mlfq_proc_cnt q - bz (mlfq_member p) + bz (mlfq_member p')) ->
  counts_ok (<[i := p']> pt) q'.
Proof.
  intros [Hlen Hq Hc Hl] Hp Hl' Hq' Hc'.
  assert (forall f, 0 <= countb f pt <= 64) as Hr.
  { intros f. pose proof (countb_range f pt). rewrite Hlen in *. unfold NPROC in *. lia. }
  split.
  - by rewrite length_insert.
  - intros l Hl3. rewrite (countb_insert _ _ _ p) by done. apply Hq'; [done|by apply Hq|apply Hr].
  - rewrite (countb_insert _ _ _ p) by done. rewrite <- Hc. apply Hc'. rewrite Hc. apply Hr.
  - intros j pj. destruct (decide (i = j)) as [<-|Hne].
    + rewrite list_lookup_insert_eq by by eapply lookup_lt_Some. by intros [= <-].
    + rewrite list_lookup_insert_ne by done. apply Hl.
Qed.

(** A change that keeps links and shares of the stride processes. *)
Lemma slist_update pt h l i p' :
  slist pt h l -> (forall p, pt !! i = Some p -> s_link p' = s_link p) ->
  slist (<[i := p']> pt) h l.
Proof.
  intros Hs Hp. revert h Hs. induction l as [|j l IH]; intros h; cbn; [done|].
  intros (-> & pj & Hj & Hs). split; [done|]. destruct (decide (i = j)) as [->|Hne].
  - exists p'. rewrite list_lookup_insert_eq by by eapply lookup_lt_Some.
    split; [done|]. apply IH. by rewrite (Hp _ Hj).
  - exists pj. rewrite list_lookup_insert_ne by done. split; [done|]. by apply IH.
Qed.

Lemma stride_ok_update pt q q' i p p' :
  stride_ok pt q -> pt !! i = Some p ->
  stride_head q' = stride_head q -> stride_share q' = stride_share q ->
  s_link p' = s_link p -> share p' = share p -> stride_proc p' = stride_proc p ->
  stride_ok (<[i := p']> pt) q'.
Proof.
  intros [(l & Hs & Hnd & Hin) Hsh Hsum] Hp Hh Hshare Hsl Hsh' Hsp.
  split.
  - exists l. rewrite Hh. split; [|split; [done|]].
    + apply slist_update; [done|]. intros ? ?. congruence.
    + intros j. rewrite Hin. destruct (decide (i = j)) as [<-|Hne].
      * rewrite list_lookup_insert_eq by by eapply lookup_lt_Some. rewrite Hp.
        split; intros (p0 & [= <-] & H0); eexists; split; eauto; congruence.
      * by rewrite list_lookup_insert_ne by done.
  - intros j pj. destruct (decide (i = j)) as [<-|Hne].
    + rewrite list_lookup_insert_eq by by eapply lookup_lt_Some. intros [= <-].
      rewrite Hsp, Hsh'. by apply Hsh with (i := i).
    + rewrite list_lookup_insert_ne by done. apply Hsh.
  - rewrite Hshare. rewrite (sumZ_insert _ _ _ p) by done.
    unfold stride_weight at 2 3. rewrite Hsp, Hsh'. lia.
Qed.

(** ** [mlfqadd] and [mlfqrm] as functions of [mlfqstr] *)

Definition bump (l d : Z) (q : mlfq) : mlfq :=
  q <| qlevels ::= alter (fun n => i32 (n + d)) (Z.to_nat l) |>
    <| mlfq_proc_cnt ::= fun n => i32 (n + d) |>.

(** What the callers do for a process that leaves or joins the runnable ones. *)
Definition requeue (p : proc) (d : Z) (q : mlfq) : mlfq :=
  if in_mlfq p then bump (level p) d q else q.

Lemma requeue_frame p d q :
  stride_head (requeue p d q) = stride_head q /\ stride_share (requeue p d q) = stride_share q /\
  priboosttime (requeue p d q) = priboosttime q /\ next_t (requeue p d q) = next_t q /\
  mlfq_pass (requeue p d q) = mlfq_pass q /\ mlfq_stride (requeue p d q) = mlfq_stride q.
Proof. unfold requeue. by destruct (in_mlfq p). Qed.

Lemma in_mlfq_level p : valid_level (level p) -> in_mlfq p = true -> 0 <= level p <= 2.
Proof. unfold valid_level, in_mlfq. destruct (Z.eqb_spec (level p) STRIDE); intros []; done || lia. Qed.

Lemma active_live p : active p = true -> live p = true.
Proof. unfold live. intros ->. apply orb_true_r. Qed.

(** The three counters exist. *)
Definition has_levels (q : mlfq) : Prop :=
  forall l, 0 <= l < 3 -> is_Some (qlevels q !! Z.to_nat l).

Lemma sched_inv_levels pt q : sched_inv pt q -> has_levels q.
Proof. intros [Hc _] l Hl. rewrite (co_qlevels _ _ Hc) by done. done. Qed.

Lemma sched_inv_len pt q : sched_inv pt q -> length pt = NPROC.
Proof. intros [Hc _]. by apply co_len in Hc. Qed.

Lemma sched_inv_level pt q i p :
  sched_inv pt q -> pt !! i = Some p -> live p = true -> valid_level (level p).
Proof. intros [Hc _]. by eapply co_level. Qed.

Lemma sleeping_live p : state p = SLEEPING -> live p = true.
Proof. unfold live. by intros ->. Qed.

(** A process that starts or stops being active, with its counters. *)
Lemma sched_inv_requeue pt q i p p' :
  sched_inv pt q -> pt !! i = Some p ->
  level p' = level p -> s_link p' = s_link p -> share p' = share p ->
  live p = true -> live p' = true -> active p' = negb (active p) ->
  sched_inv (<[i := p']> pt) (requeue p (bz (active p') - bz (active p)) q).
Proof.
  intros [Hc Hs] Hp Hl Hsl Hsh Hlive Hlive' Hact.
  assert (valid_level (level p)) as Hv by (by eapply co_level).
  destruct (requeue_frame p (bz (active p') - bz (active p)) q) as (Hh & Hss & _).
  split.
  - apply (counts_ok_update _ q _ _ p); [done..|by rewrite Hl| |].
    + intros l n Hl3 Hn Hr. unfold requeue, at_level. rewrite Hl, Hact.
      destruct (in_mlfq p) eqn:Hm.
      * pose proof (in_mlfq_level _ Hv Hm). unfold bump, setter; cbn.
        destruct (Z.eqb_spec (level p) l) as [->|Hne].
        { rewrite list_lookup_alter_eq, Hn. cbn. f_equal.
          destruct (active p); cbn; rewrite i32_small; lia. }
        { rewrite list_lookup_alter_ne by lia. rewrite Hn. f_equal.
          destruct (active p); cbn; lia. }
      * rewrite Hn. f_equal. unfold in_mlfq in Hm.
        replace (level p =? l) with false by (unfold STRIDE in Hm; lia).
        rewrite !andb_false_r. cbn. lia.
    + intros Hr. unfold requeue, mlfq_member.
      replace (in_mlfq p') with (in_mlfq p) by (unfold in_mlfq; by rewrite Hl).
      rewrite Hact. destruct (in_mlfq p); [|by rewrite !andb_false_r, Z.add_0_r, Z.sub_0_r].
      unfold bump, setter; cbn. destruct (active p); cbn; rewrite i32_small; lia.
  - apply (stride_ok_update _ q _ _ p); try done.
    unfold stride_proc. by rewrite Hlive, Hlive', Hl.
Qed.

(** A change of the scheduling-irrelevant fields. *)
Lemma sched_inv_keep pt q q' i p p' :
  sched_inv pt q -> pt !! i = Some p ->
  level p' = level p -> s_link p' = s_link p -> share p' = share p ->
  live p' = live p -> active p' = active p ->
  qlevels q' = qlevels q -> mlfq_proc_cnt q' = mlfq_proc_cnt q ->
  stride_head q' = stride_head q -> stride_share q' = stride_share q ->
  sched_inv (<[i := p']> pt) q'.
Proof.
  intros [Hc Hs] Hp Hl Hsl Hsh Hlive Hact Hq Hcnt Hh Hss.
  split.
  - apply (counts_ok_update _ q _ _ p); [done..| | |].
    + rewrite Hlive, Hl. by eapply co_level.
    + intros l n Hl3 Hn _. rewrite Hq, Hn. unfold at_level. rewrite Hact, Hl. f_equal. lia.
    + intros _. rewrite Hcnt. unfold mlfq_member, in_mlfq. rewrite Hact, Hl. lia.
  - apply (stride_ok_update _ q _ _ p); try done. unfold stride_proc. by rewrite Hlive, Hl.
Qed.

(** Data of [mlfqstr] the invariant does not speak of. *)
Lemma sched_inv_mlfq pt q q' :
  sched_inv pt q ->
  qlevels q' = qlevels q -> mlfq_proc_cnt q' = mlfq_proc_cnt q ->
  stride_head q' = stride_head q -> stride_share q' = stride_share q ->
  sched_inv pt q'.
Proof.
  intros [[] []] Hq Hcnt Hh Hss. split; split; rewrite ?Hq, ?Hcnt, ?Hh, ?Hss; done.
Qed.

(** [same_queue q q']: only the counters differ. *)
Definition same_queue (q q' : mlfq) : Prop :=
  stride_head q' = stride_head q /\ stride_share q' = stride_share q /\
  priboosttime q' = priboosttime q /\ next_t q' = next_t q /\
  mlfq_pass q' = mlfq_pass q /\ mlfq_stride q' = mlfq_stride q.

Lemma same_queue_refl q : same_queue q q.
Proof. done. Qed.

Lemma same_queue_trans q1 q2 q3 : same_queue q1 q2 -> same_queue q2 q3 -> same_queue q1 q3.
Proof. unfold same_queue. intuition congruence. Qed.
#[local] Hint Resolve same_queue_refl same_queue_trans requeue_frame : kernel.

(** Waking the processes that sleep on [c]. *)
Definition wake (c : chan) (p : proc) : proc :=
  if sleeps_on c p then p <| state := RUNNABLE |> else p.

Lemma sleeps_on_state c p : sleeps_on c p = true -> state p = SLEEPING.
Proof. unfold sleeps_on. intros H. by apply andb_prop in H as [H%bool_decide_eq_true_1 _]. Qed.

(** The step of [wakeup1] and [kill] on a sleeping process. *)
Lemma sched_inv_wake pt q i p p' :
  sched_inv pt q -> pt !! i = Some p -> state p = SLEEPING -> state p' = RUNNABLE ->
  level p' = level p -> s_link p' = s_link p -> share p' = share p ->
  sched_inv (<[i := p']> pt) (requeue p' 1 q).
Proof.
  intros Hinv Hp Hs Hs' Hl Hsl Hsh.
  assert (active p = false /\ live p = true /\ active p' = true) as (Ha & Hlv & Ha').
  { unfold active, live, active. by rewrite Hs, Hs'. }
  pose proof (sched_inv_requeue _ _ _ _ p' Hinv Hp Hl Hsl Hsh Hlv (active_live _ Ha')) as H.
  rewrite Ha, Ha' in H. specialize (H eq_refl). cbn in H.
  unfold requeue, in_mlfq in *. by rewrite Hl.
Qed.

Lemma requeue_level p p' d q : level p' = level p -> requeue p' d q = requeue p d q.
Proof. intros Hl. unfold requeue, in_mlfq. by rewrite Hl. Qed.

(** The step of [sleep] on an active process. *)
Lemma sched_inv_sleep pt q i p p' :
  sched_inv pt q -> pt !! i = Some p -> active p = true -> state p' = SLEEPING ->
  level p' = level p -> s_link p' = s_link p -> share p' = share p ->
  sched_inv (<[i := p']> pt) (requeue p' (-1) q).
Proof.
  intros Hinv Hp Ha Hs' Hl Hsl Hsh.
  assert (active p' = false) as Ha' by (unfold active; by rewrite Hs').
  pose proof (sched_inv_requeue _ _ _ _ p' Hinv Hp Hl Hsl Hsh (active_live _ Ha)
    (sleeping_live _ Hs')) as H.
  rewrite Ha, Ha' in H. specialize (H eq_refl). by rewrite (requeue_level p).
Qed.

(** *** Changing level *)

Definition qmove (a b : Z) (q : mlfq) : mlfq :=
  q <| qlevels ::= fun l => alter (fun n => i32 (n + 1)) (Z.to_nat b)
                             (alter (fun n => i32 (n - 1)) (Z.to_nat a) l) |>.

Lemma sched_inv_move pt q i p p' :
  sched_inv pt q -> pt !! i = Some p -> active p = true -> active p' = true ->
  0 <= level p <= 2 -> 0 <= level p' <= 2 -> s_link p' = s_link p -> share p' = share p ->
  sched_inv (<[i := p']> pt) (qmove (level p) (level p') q).
Proof.
  intros [Hc Hs] Hp Ha Ha' Hl Hl' Hsl Hsh. split.
  - apply (counts_ok_update _ q _ _ p); [done..|by left| |].
    + intros l n Hl3 Hn Hr. unfold qmove, at_level, setter; cbn. rewrite Ha, Ha'.
      rewrite !list_lookup_alter, Hn. cbn [andb].
      destruct (Z.eqb_spec (level p) l) as [->|]; destruct (Z.eqb_spec (level p') l) as [->|];
        repeat case_decide; try lia; rewrite ?Hn; cbn; f_equal; rewrite ?i32_small; try lia;
        rewrite ?i32_small; lia.
    + intros _. unfold qmove, setter, mlfq_member, in_mlfq; cbn. rewrite Ha, Ha'.
      replace (level p =? STRIDE) with false by (unfold STRIDE; lia).
      replace (level p' =? STRIDE) with false by (unfold STRIDE; lia). cbn. lia.
  - apply (stride_ok_update _ q _ _ p); try done. unfold stride_proc.
    replace (level p =? STRIDE) with false by (unfold STRIDE; lia).
    replace (level p' =? STRIDE) with false by (unfold STRIDE; lia). by rewrite !andb_false_r.
Qed.

(** The two assignments to [qlevels]. *)
Lemma qmove_eq q a b n n' :
  qlevels q !! Z.to_nat a = Some n ->
  <[Z.to_nat a := i32 (n - 1)]> (qlevels q) !! Z.to_nat b = Some n' ->
  q <| qlevels ::= <[Z.to_nat a := i32 (n - 1)]> |> <| qlevels ::= <[Z.to_nat b := i32 (n' + 1)]> |> =
  qmove a b q.
Proof.
  intros Ha Hb. unfold qmove, setter; cbn. destruct q; cbn in *. f_equal.
  rewrite (alter_insert_some (fun n => i32 (n - 1)) _ _ n) by done.
  by rewrite (alter_insert_some (fun n => i32 (n + 1)) _ _ n').
Qed.

(** The process [lowerlevel] is given. *)
Definition lower_proc (p : proc) : proc :=
  if (level p <? 1) || (2 <? level p) then p
  else
    let l := level p - 1 in
    let p := p <| level := l |> <| tickcount := 0 |> in
    if l =? 1 then p <| timequant := 10 |> <| timeallot := 40 |>
    else if l =? 0 then p <| timequant := 20 |> else p.

(** What [priboost] does to each process. *)
Definition boosts (p : proc) : bool :=
  bool_decide (state p = RUNNABLE) && negb (level p =? STRIDE) && negb (pid p =? -1).
Definition boost (p : proc) : proc :=
  if boosts p then
    p <| level := 2 |> <| timequant := 5 |> <| timeallot := 20 |> <| tickcount := 0 |>
  else p.

(** *** [yield] of a process without threads, as a function of the tables *)

Definition yield_lowers (p : proc) : bool := (0 <? level p) && (timeallot p <=? tickcount p).
Definition yield_self (p : proc) : proc :=
  let p1 := p <| tickcount ::= fun t => u32 (t + 1) |> <| state := RUNNABLE |> in
  if yield_lowers p then lower_proc p1 else p1.
Definition boosting (tk : Z) (q : mlfq) : bool := 200 <=? u32 (tk - priboosttime q).
Definition add_pass (p : proc) : proc := p <| pass := i32 (pass p + stride p) |>.

Definition yield_table (tk : Z) (q : mlfq) (i : nat) (p : proc) (pt : list proc) : list proc :=
  let pt1 := <[i := yield_self p]> pt in
  let pt2 := if boosting tk q then boost <$> pt1 else pt1 in
  match stride_head q with
  | Some _ => if level p =? STRIDE then alter add_pass i pt2 else pt2
  | None => pt2
  end.

Definition yield_queue (tk : Z) (p : proc) (q q' : mlfq) : Prop :=
  stride_head q' = stride_head q /\ stride_share q' = stride_share q /\ next_t q' = next_t q /\
  mlfq_stride q' = mlfq_stride q /\
  priboosttime q' = (if boosting tk q then tk else priboosttime q) /\
  mlfq_pass q' = match stride_head q with
                 | Some _ => if level p =? STRIDE then mlfq_pass q
                             else u32 (mlfq_pass q + mlfq_stride q)
                 | None => mlfq_pass q
                 end.

Definition yield_hand (p p' : proc) : handoff :=
  if yield_lowers p || (Z.rem (tickcount p) (timequant p') =? 0) then ToScheduler else Stay.

(** The record of the yielding process after [yield_table]. *)
Definition yield_proc (tk : Z) (q : mlfq) (p : proc) : proc :=
  let p2 := if boosting tk q then boost (yield_self p) else yield_self p in
  match stride_head q with
  | Some _ => if level p =? STRIDE then add_pass p2 else p2
  | None => p2
  end.

Lemma yield_table_self tk q i p pt :
  pt !! i = Some p -> yield_table tk q i p pt !! i = Some (yield_proc tk q p).
Proof.
  intros Hi. assert (i < length pt)%nat by by eapply lookup_lt_Some.
  unfold yield_table, yield_proc. destruct (stride_head q); [destruct (level p =? STRIDE)|];
    destruct (boosting tk q);
    rewrite ?list_lookup_alter_eq, ?list_lookup_fmap, ?list_lookup_insert_eq by done; done.
Qed.

Lemma lower_proc_active p : active (lower_proc p) = active p.
Proof. unfold lower_proc. by repeat case_match. Qed.

Lemma yield_self_active p : active (yield_self p) = true.
Proof. unfold yield_self. destruct (yield_lowers p); rewrite ?lower_proc_active; done. Qed.

(** ** Rules *)

Section ops.
Context {E : Type} (X : stop -> Prop).
Context (np : Z) (ip : option nat) (tk : Z) (fi : bool) (kp : Z) (e : E).
Abbreviation st m pt q := (mkk m pt q np ip tk fi kp e).
Implicit Types (m : machine) (pt : list proc) (q : mlfq) (w : who) (L : list Z) (p : proc).

Lemma wp_mlfq_bump pt q m i p d (f : Z -> Z) (Q : unit -> kstate E -> Prop) n :
  (forall n, f n = i32 (n + d)) -> pt !! i = Some p -> 0 <= level p <= 2 ->
  qlevels q !! Z.to_nat (level p) = Some n ->
  Q tt (st m pt (bump (level p) d q)) ->
  wp (p <~ proc_at i;
      (if (0 <=? level p) && (level p <=? 2) then
         n <~ qlevel_at (level p); set_qlevel (level p) (f n)
       else ret tt) ;;;
      upd_mlfq (fun q => q <| mlfq_proc_cnt ::= f |>)) X Q (st m pt q).
Proof.
  intros Hf Hp Hl Hn HQ. ksteps. replace ((0 <=? level p) && (level p <=? 2)) with true by lia.
  kstep. eapply wp_qlevel_at; [lia|done|]. apply wp_set_qlevel; [lia|]. kstep.
  replace (setter _ _ _) with (bump (level p) d q); [done|].
  unfold bump, setter; cbn. destruct q; cbn in *. rewrite !Hf. f_equal.
  by apply (alter_insert_some (fun n => i32 (n + d))).
Qed.

(** [mlfqadd] under its lock, as the callers run it. *)
Lemma wp_locked_add pt q m L w i p (Q : unit -> kstate E -> Prop) :
  view m L w -> mlfqstr_lock ∉ L -> pt !! i = Some p -> valid_level (level p) ->
  has_levels q ->
  (forall m', view m' L w -> Q tt (st m' pt (requeue p 1 q))) ->
  wp (locked_add i) X Q (st m pt q).
Proof.
  intros Hv HL Hp Hl Hlen HQ. unfold locked_add, requeue in *. ksteps.
  destruct (in_mlfq p) eqn:Hm; [|by kstep; apply HQ].
  pose proof (in_mlfq_level _ Hl Hm).
  destruct (Hlen (level p)) as [n Hn]; [lia|].
  ksteps. eapply (wp_mlfq_bump _ _ _ _ _ 1); [done|done|lia|done|]. ksteps. by apply HQ.
Qed.

Lemma wp_locked_rm pt q m L w i p (Q : unit -> kstate E -> Prop) :
  view m L w -> mlfqstr_lock ∉ L -> pt !! i = Some p -> valid_level (level p) ->
  has_levels q ->
  (forall m', view m' L w -> Q tt (st m' pt (requeue p (-1) q))) ->
  wp (locked_rm i) X Q (st m pt q).
Proof.
  intros Hv HL Hp Hl Hlen HQ. unfold locked_rm, requeue in *. ksteps.
  destruct (in_mlfq p) eqn:Hm; [|by kstep; apply HQ].
  pose proof (in_mlfq_level _ Hl Hm).
  destruct (Hlen (level p)) as [n Hn]; [lia|].
  ksteps. eapply (wp_mlfq_bump _ _ _ _ _ (-1)); [done|done|lia|done|]. ksteps. by apply HQ.
Qed.
Lemma wp_wakeup1 pt q m L w c (Q : unit -> kstate E -> Prop) :
  view m L w -> mlfqstr_lock ∉ L -> sched_inv pt q ->
  (forall m' q', view m' L w -> sched_inv (wake c <$> pt) q' -> same_queue q q' ->
     Q tt (st m' (wake c <$> pt) q')) ->
  wp (wakeup1 c) X Q (st m pt q).
Proof.
  intros Hv HL Hinv HQ. unfold wakeup1.
  apply wp_for_each with (I := fun r s => exists m' pt' q', s = st m' pt' q' /\ view m' L w /\
    sched_inv pt' q' /\ same_queue q q' /\ partly (wake c) r pt pt').
  - exists m, pt, q. do 4 (split; [done|]). apply partly_start. by eapply sched_inv_len.
  - intros i r ? (m1 & pt1 & q1 & -> & Hv1 & Hinv1 & Hq1 & Hp1).
    destruct (partly_at _ _ _ _ _ Hp1) as (p & Hp & Hi).
    pose proof (partly_step _ _ _ _ _ _ Hp1 Hp) as Hstep.
    pose proof (partly_skip _ _ _ _ _ _ Hp1 Hp) as Hskip.
    unfold wake in Hstep, Hskip. kstep. kstep. destruct (sleeps_on c p) eqn:Hc.
    + pose proof (sched_inv_wake _ _ _ _ (p <| state := RUNNABLE |>) Hinv1 Hi
        (sleeps_on_state _ _ Hc) eq_refl eq_refl eq_refl eq_refl) as Hinv2.
      pose proof (sched_inv_level _ _ _ _ Hinv1 Hi (sleeping_live _ (sleeps_on_state _ _ Hc))).
      ksteps. eapply wp_locked_add with (p := p <| state := RUNNABLE |>); [done|done| |done|..].
      { apply list_lookup_insert_eq. by eapply lookup_lt_Some. }
      { by eapply sched_inv_levels. }
      intros m2 Hv2. eexists m2, _, _. split; [done|]. split; [done|].
      split; [done|]. split; [|done]. eapply same_queue_trans; [done|apply requeue_frame].
    + kstep. exists m1, pt1, q1. auto 10.
  - intros ? (m1 & pt1 & q1 & -> & Hv1 & Hinv1 & Hq1 & ->%partly_end). by apply HQ.
Qed.

Lemma wp_wakeup pt q m L w c (Q : unit -> kstate E -> Prop) :
  view m L w -> ptable_lock ∉ L -> mlfqstr_lock ∉ L -> sched_inv pt q ->
  (forall m' q', view m' L w -> sched_inv (wake c <$> pt) q' -> same_queue q q' ->
     Q tt (st m' (wake c <$> pt) q')) ->
  wp (wakeup c) X Q (st m pt q).
Proof.
  intros Hv HL1 HL2 Hinv HQ. unfold wakeup. ksteps. eapply wp_wakeup1; [done|set_solver|done|].
  intros m1 q1 Hv1 Hinv1 Hq1. ksteps. by apply HQ.
Qed.

(** The process [kill] hits. *)
Definition kill_proc p : proc :=
  p <| killed := 1 |> <| state ::= fun st => if decide (st = SLEEPING) then RUNNABLE else st |>.

Lemma kill_proc_sleeping p :
  state p = SLEEPING -> kill_proc p = p <| killed := 1 |> <| state := RUNNABLE |>.
Proof. intros Hs. unfold kill_proc, setter. cbn. by rewrite decide_True. Qed.

Lemma kill_proc_awake p : state p <> SLEEPING -> kill_proc p = p <| killed := 1 |>.
Proof. intros Hs. unfold kill_proc, setter. cbn. by rewrite decide_False. Qed.

Lemma wp_kill pt q m L w id (Q : Z -> kstate E -> Prop) :
  view m L w -> ptable_lock ∉ L -> mlfqstr_lock ∉ L -> sched_inv pt q ->
  (forall m', view m' L w ->
     match list_find (fun p => (pid p =? id) = true) pt with
     | Some (i, p) => forall q', sched_inv (<[i := kill_proc p]> pt) q' -> same_queue q q' ->
         Q 0 (st m' (<[i := kill_proc p]> pt) q')
     | None => Q (-1) (st m' pt q)
     end) ->
  wp (kill id) X Q (st m pt q).
Proof.
  intros Hv HL1 HL2 Hinv HQ. unfold kill. ksteps.
  apply wp_for_until_find with (f := fun p => pid p =? id) (l := pt);
    [by eapply sched_inv_len|..].
  { intros i p Hi Hf. rewrite (bind_ok _ _ _ _ _ (proc_at_run _ _ _ _ _ _ _ _ _ _ _ Hi)).
    by rewrite Hf. }
  destruct (list_find _ pt) as [[i p]|] eqn:Hfind; [|by ksteps; apply HQ].
  pose proof (proj1 (list_find_Some _ _ _ _) Hfind) as (Hi & Hf & _). assert (i < length pt)%nat by by eapply lookup_lt_Some.
  ksteps. rewrite Hf. ksteps. destruct (decide (state p = SLEEPING)) as [Hs|Hs].
  - pose proof (sched_inv_wake _ _ _ _ (p <| killed := 1 |> <| state := RUNNABLE |>)
      Hinv Hi Hs eq_refl eq_refl eq_refl eq_refl) as Hw.
    pose proof (sched_inv_level _ _ _ _ Hinv Hi (sleeping_live _ Hs)).
    ksteps. eapply wp_upd_proc; [by apply list_lookup_insert_eq|]. rewrite list_insert_insert_eq.
    eapply wp_locked_add with (p := p <| killed := 1 |> <| state := RUNNABLE |>);
      [done|set_solver| |done|by eapply sched_inv_levels|].
    { by apply list_lookup_insert_eq. }
    intros m2 Hv2. ksteps. rewrite <- (kill_proc_sleeping _ Hs) in Hw |- *.
    apply HQ; [done..|apply requeue_frame].
  - ksteps. rewrite <- (kill_proc_awake _ Hs). apply HQ; [done| |done].
    rewrite (kill_proc_awake _ Hs). by apply (sched_inv_keep _ q _ _ p).
Qed.

(** The process record [sleep] leaves behind. *)
Definition asleep (c : chan) p : proc := p <| pchan := c |> <| state := SLEEPING |>.

Lemma wp_sleep_core pt q m L w i p c (Q : unit -> kstate E -> Prop) :
  view m L w -> mlfqstr_lock ∉ L -> sched_inv pt q -> pt !! i = Some p -> active p = true ->
  (forall m' q', view m' L w -> sched_inv (<[i := asleep c p]> pt) q' -> same_queue q q' ->
     Q tt (st m' (<[i := asleep c p]> pt) q')) ->
  wp (upd_proc i (fun p => p <| pchan := c |> <| state := SLEEPING |>) ;;; locked_rm i) X Q
     (st m pt q).
Proof.
  intros Hv HL Hinv Hi Ha HQ. ksteps. fold (asleep c p).
  pose proof (sched_inv_level _ _ _ _ Hinv Hi (active_live _ Ha)).
  eapply wp_locked_rm with (p := asleep c p); [done|done| |done|by eapply sched_inv_levels|].
  { apply list_lookup_insert_eq. by eapply lookup_lt_Some. }
  intros m' Hv'. apply HQ; [done| |apply requeue_frame]. by eapply sched_inv_sleep.
Qed.

(** [sleep(c, lk)] marks the process asleep and only then gives up [lk]:
    from the [acquire] of [ptable.lock] on no waker can run. *)
Lemma wp_sleep_mark pt q m L1 L2 w i p c lk (Q : unit -> kstate E -> Prop) :
  view m (L1 ++ lk :: L2) w -> w_proc w = Some i -> lk <> 0 ->
  lk <> ptable_lock -> ptable_lock ∉ L1 ++ L2 -> mlfqstr_lock ∉ L1 ++ L2 ->
  sched_inv pt q -> pt !! i = Some p -> active p = true ->
  (forall m' q', view m' (ptable_lock :: L1 ++ L2) w ->
     sched_inv (<[i := asleep c p]> pt) q' -> same_queue q q' ->
     Q tt (st m' (<[i := asleep c p]> pt) q')) ->
  wp (sleep_mark c lk) X Q (st m pt q).
Proof.
  intros Hv Hw Hlk0 Hlk HL1 HL2 Hinv Hi Ha HQ. unfold sleep_mark. kstep.
  eapply wp_myproc_k; [done|]. intros m1 Hv1. rewrite Hw.
  destruct (Z.eqb_spec lk 0); [done|]. kstep. destruct (Z.eqb_spec lk ptable_lock); [done|].
  kstep. eapply wp_acquire_k; [done|set_solver|]. intros m2 Hv2.
  eapply wp_release_k with (L1 := ptable_lock :: L1); [done|]. intros m3 Hv3.
  eapply wp_sleep_core; [done| |done..]. set_solver.
Qed.

Lemma wp_sleep_mark_ptable pt q m L w i p c (Q : unit -> kstate E -> Prop) :
  view m L w -> w_proc w = Some i -> mlfqstr_lock ∉ L ->
  sched_inv pt q -> pt !! i = Some p -> active p = true ->
  (forall m' q', view m' L w ->
     sched_inv (<[i := asleep c p]> pt) q' -> same_queue q q' ->
     Q tt (st m' (<[i := asleep c p]> pt) q')) ->
  wp (sleep_mark c ptable_lock) X Q (st m pt q).
Proof.
  intros Hv Hw HL Hinv Hi Ha HQ. unfold sleep_mark. kstep.
  eapply wp_myproc_k; [done|]. intros m1 Hv1. rewrite Hw. cbn. kstep. kstep.
  by eapply wp_sleep_core.
Qed.

Lemma wp_lowerlevel pt q m i p (Q : unit -> kstate E -> Prop) :
  sched_inv pt q -> pt !! i = Some p -> active p = true ->
  (forall q', sched_inv (<[i := lower_proc p]> pt) q' -> same_queue q q' ->
     Q tt (st m (<[i := lower_proc p]> pt) q')) ->
  wp (lowerlevel i) X Q (st m pt q).
Proof.
  intros Hinv Hi Ha HQ. unfold lowerlevel. ksteps. unfold lower_proc in HQ.
  destruct ((level p <? 1) || (2 <? level p)) eqn:Hb.
  { kstep. rewrite list_insert_id in HQ by done. by apply HQ. }
  assert (level p = 1 \/ level p = 2) as Hl by lia.
  destruct (sched_inv_levels _ _ Hinv (level p)) as [n Hn]; [lia|].
  kstep. eapply wp_qlevel_at; [lia|done|]. kstep. apply wp_set_qlevel; [lia|].
  destruct (sched_inv_levels _ _ Hinv (level p - 1)) as [n1 Hn1]; [lia|].
  assert (i < length pt)%nat by by eapply lookup_lt_Some.
  set (l := level p - 1) in *.
  assert (Hn2 : <[Z.to_nat (level p) := i32 (n - 1)]> (qlevels q) !! Z.to_nat l = Some n1).
  { rewrite list_lookup_insert_ne by lia. done. }
  assert (Hfin : forall p', active p' = true -> level p' = l -> s_link p' = s_link p ->
    share p' = share p -> (forall q', sched_inv (<[i := p']> pt) q' -> same_queue q q' ->
      Q tt (st m (<[i := p']> pt) q')) ->
    wp (n <~ qlevel_at l; set_qlevel l (i32 (n + 1))) X Q
      (st m (<[i := p']> pt) (q <| qlevels ::= <[Z.to_nat (level p) := i32 (n - 1)]> |>))).
  { intros p' Ha' Hl' Hsl Hsh HQ'. kstep. eapply wp_qlevel_at; [lia|done|].
    apply wp_set_qlevel; [lia|]. rewrite (qmove_eq _ _ _ _ _ Hn Hn2), <- Hl'.
    apply HQ'; [|done]. apply sched_inv_move; try done; lia. }
  kstep. kstep. destruct (l =? 1) eqn:Hl1; [|destruct (l =? 0) eqn:Hl0; [|lia]];
    kstep; (eapply wp_upd_proc; [by apply list_lookup_insert_eq|]);
    rewrite list_insert_insert_eq; by apply Hfin.
Qed.

Lemma boosts_level pt q i p :
  sched_inv pt q -> pt !! i = Some p -> boosts p = true -> active p = true /\ 0 <= level p <= 2.
Proof.
  intros Hinv Hi Hb. unfold boosts in Hb. apply andb_prop in Hb as [Hb _].
  apply andb_prop in Hb as [Hs Hl]. assert (active p = true) as Ha by (unfold active; by rewrite Hs).
  split; [done|]. apply in_mlfq_level; [|done].
  by eapply sched_inv_level, active_live.
Qed.

Lemma wp_priboost pt q m (Q : unit -> kstate E -> Prop) :
  sched_inv pt q ->
  (forall q', sched_inv (boost <$> pt) q' -> same_queue q q' -> Q tt (st m (boost <$> pt) q')) ->
  wp priboost X Q (st m pt q).
Proof.
  intros Hinv HQ. unfold priboost.
  apply wp_for_each with (I := fun r s => exists pt' q', s = st m pt' q' /\
    sched_inv pt' q' /\ same_queue q q' /\ partly boost r pt pt').
  - exists pt, q. do 3 (split; [done|]). apply partly_start. by eapply sched_inv_len.
  - intros i r ? (pt1 & q1 & -> & Hinv1 & Hq1 & Hp1).
    destruct (partly_at _ _ _ _ _ Hp1) as (p & Hp & Hi).
    pose proof (partly_step _ _ _ _ _ _ Hp1 Hp) as Hstep.
    pose proof (partly_skip _ _ _ _ _ _ Hp1 Hp) as Hskip.
    kstep. kstep. fold (boosts p). destruct (boosts p) eqn:Hb; unfold boost in Hstep, Hskip;
      rewrite Hb in Hstep, Hskip.
    + destruct (boosts_level _ _ _ _ Hinv1 Hi Hb) as [Ha Hl].
      destruct (sched_inv_levels _ _ Hinv1 (level p)) as [n Hn]; [lia|].
      set (q2 := q1 <| qlevels ::= <[Z.to_nat (level p) := i32 (n - 1)]> |>).
      assert (is_Some (qlevels q2 !! Z.to_nat 2)) as [n2 Hn2].
      { destruct (sched_inv_levels _ _ Hinv1 2) as [n2 Hn2]; [lia|]. unfold q2; cbn.
        destruct (decide (Z.to_nat (level p) = 2%nat)) as [->|Hne].
        - rewrite list_lookup_insert_eq; [done|]. by eapply lookup_lt_Some.
        - by rewrite list_lookup_insert_ne. }
      kstep. eapply wp_qlevel_at; [lia|done|]. kstep. apply wp_set_qlevel; [lia|]. fold q2.
      ksteps. eapply wp_qlevel_at; [lia|done|]. apply wp_set_qlevel; [lia|].
      unfold q2. rewrite (qmove_eq _ _ 2 _ _ Hn Hn2). eexists _, _. split; [done|].
      split; [|split; [|done]].
      * set (p' := p <| level := 2 |> <| timequant := 5 |> <| timeallot := 20 |>
          <| tickcount := 0 |>).
        apply (sched_inv_move _ _ _ p p' Hinv1 Hi Ha Ha Hl); [|done..].
        change (0 <= 2 <= 2). lia.
      * by eapply same_queue_trans.
    + kstep. exists pt1, q1. auto 10.
  - intros ? (pt1 & q1 & -> & Hinv1 & Hq1 & ->%partly_end). by apply HQ.
Qed.

(** The part of [yield] that lowers the process. *)
Lemma wp_yield_lower {B} pt q m i p (k : bool -> M (kstate E) B) (Q : B -> kstate E -> Prop) :
  sched_inv pt q -> pt !! i = Some p -> active p = true ->
  (forall q', sched_inv (<[i := yield_self p]> pt) q' -> same_queue q q' ->
     wp (k (yield_lowers p)) X Q (st m (<[i := yield_self p]> pt) q')) ->
  wp (upd_proc i (fun a => a <| tickcount ::= fun t => u32 (t + 1) |>) ;;;
      upd_proc i (fun p => p <| state := RUNNABLE |>) ;;;
      lowered <~ (if (0 <? level p) && (timeallot p <=? tickcount p)
                  then lowerlevel i ;;; ret true else ret false);
      k lowered) X Q (st m pt q).
Proof.
  intros Hinv Hi Ha HQ. assert (i < length pt)%nat by by eapply lookup_lt_Some.
  kstep. kstep. kstep. eapply wp_upd_proc; [by apply list_lookup_insert_eq|].
  rewrite list_insert_insert_eq.
  set (p1 := setter state _ _).
  assert (sched_inv (<[i := p1]> pt) q) as Hinv1.
  { apply (sched_inv_keep _ q _ _ p); try done. by rewrite (active_live _ Ha). }
  fold (yield_lowers p). unfold yield_self in HQ. fold p1 in HQ. destruct (yield_lowers p); kstep.
  - kstep. eapply wp_lowerlevel; [done|by apply list_lookup_insert_eq|done|].
    intros q' Hinv2 Hq. kstep. rewrite list_insert_insert_eq in Hinv2 |- *. by apply HQ.
  - kstep. by apply HQ.
Qed.

(** The part that boosts. *)
Lemma wp_yield_boost pt q m (Q : unit -> kstate E -> Prop) :
  sched_inv pt q ->
  (forall q', let pt' := if boosting tk q then boost <$> pt else pt in
     sched_inv pt' q' ->
     stride_head q' = stride_head q /\ stride_share q' = stride_share q /\
     next_t q' = next_t q /\ mlfq_pass q' = mlfq_pass q /\ mlfq_stride q' = mlfq_stride q /\
     priboosttime q' = (if boosting tk q then tk else priboosttime q) ->
     Q tt (st m pt' q')) ->
  wp (if 200 <=? u32 (tk - priboosttime q) then
        upd_mlfq (fun q => q <| priboosttime := tk |>) ;;; priboost
      else ret tt) X Q (st m pt q).
Proof.
  intros Hinv HQ. fold (boosting tk q). destruct (boosting tk q).
  - ksteps. apply wp_priboost; [by apply (sched_inv_mlfq _ q)|].
    intros q' Hinv' (?&?&?&?&?&?). apply HQ; [done|]. auto 10.
  - kstep. apply HQ; auto 10.
Qed.

Lemma yield_quant q p : 0 < timequant p -> 0 < timequant (yield_proc tk q p).
Proof.
  intros Hq. assert (0 < timequant (yield_self p)) as H1.
  { unfold yield_self, lower_proc. repeat case_match; cbn; try done; lia. }
  assert (0 < timequant (boost (yield_self p))) as H2.
  { unfold boost. case_match; [change (0 < 5); lia|done]. }
  unfold yield_proc. by repeat case_match.
Qed.

Lemma yield_frame tk' q p :
  thread_count (yield_proc tk' q p) = thread_count p.
Proof. unfold yield_proc, add_pass, boost, yield_self, lower_proc. by repeat case_match. Qed.

(** The end of [yield_enter]: whether to switch. *)
Lemma wp_yield_decide pt q0 q m L w i p (Q : handoff -> kstate E -> Prop) :
  view m (mlfqstr_lock :: L) w -> pt !! i = Some (yield_proc tk q0 p) ->
  thread_count p <= 1 -> 0 < timequant p ->
  (forall m', view m' L w -> Q (yield_hand p (yield_proc tk q0 p)) (st m' pt q)) ->
  wp (release_k mlfqstr_lock ;;;
      m <~ proc_at i;
      if 1 <? thread_count m then
        r <~ thread_swtch i;
        match r with
        | inl z => ret (if z =? -1 then ToScheduler else Stay)
        | inr t => ret (ToThread t)
        end
      else if yield_lowers p then ret ToScheduler
      else if timequant m =? 0 then undef "division by zero"
      else ret (if Z.rem (tickcount p) (timequant m) =? 0 then ToScheduler else Stay))
    X Q (st m pt q).
Proof.
  intros Hv Hi Htc Htq HQ. ksteps. rewrite yield_frame. pose proof (yield_quant q0 p Htq).
  destruct (Z.ltb_spec 1 (thread_count p)); [lia|].
  destruct (Z.eqb_spec (timequant (yield_proc tk q0 p)) 0); [lia|].
  unfold yield_hand in HQ. destruct (yield_lowers p); kstep; by apply HQ.
Qed.

(** [yield] of a process without threads, up to the switch. *)
Lemma wp_yield_enter pt q m L w i p (Q : handoff -> kstate E -> Prop) :
  view m L w -> w_proc w = Some i ->
  ptable_lock ∉ L -> tickslock ∉ L -> mlfqstr_lock ∉ L ->
  sched_inv pt q -> pt !! i = Some p -> active p = true ->
  lwpgroup p = Some i -> thread_count p <= 1 -> 0 < timequant p ->
  (forall m' q', view m' (ptable_lock :: L) w ->
     sched_inv (yield_table tk q i p pt) q' -> yield_queue tk p q q' ->
     Q (yield_hand p (yield_proc tk q p)) (st m' (yield_table tk q i p pt) q')) ->
  wp yield_enter X Q (st m pt q).
Proof.
  intros Hv Hw HL1 HL2 HL3 Hinv Hi Ha Hlwp Htc Htq HQ. unfold yield_enter. ksteps.
  eapply wp_curproc; [done..|]. intros m1 Hv1. do 2 kstep. rewrite Hlwp. do 4 kstep.
  eapply wp_yield_lower; [done..|]. intros q1 Hinv1 Hq1.
  do 6 kstep. cbn [ticks mlfqstr]. destruct Hq1 as (Hh1 & Hs1 & Hb1 & Hn1 & Hp1 & Hst1).
  kstep. apply wp_yield_boost; [done|]. replace (boosting tk q1) with (boosting tk q)
    by (unfold boosting; by rewrite Hb1).
  intros q2 pt2 Hinv2 (Hh2 & Hs2 & Hn2 & Hp2 & Hst2 & Hb2).
  rewrite Hb1 in Hb2. do 4 kstep. kstep. 
  pose proof (yield_table_self tk q i p pt Hi) as Hself.
  unfold yield_queue in HQ. unfold yield_table in *. fold pt2 in HQ, Hself.
  rewrite Hh2, Hh1. destruct (stride_head q) eqn:Hh; [destruct (level p =? STRIDE) eqn:Hlev|].
  - assert (pt2 !! i = Some (if boosting tk q then boost (yield_self p) else yield_self p)) as Hi2.
    { unfold pt2. destruct (boosting tk q); rewrite ?list_lookup_fmap, list_lookup_insert_eq; try done;
        by eapply lookup_lt_Some. }
    rewrite (alter_insert_some _ _ _ _ Hi2) in HQ, Hself.
    eapply wp_upd_proc; [done|]. eapply wp_yield_decide; [done..|]. intros m5 Hv5.
    apply HQ; [done| |].
    + by apply (sched_inv_keep _ q2 _ _ _ _ Hinv2 Hi2).
    + repeat split; congruence.
  - kstep. eapply wp_yield_decide; [done..|]. intros m5 Hv5. apply HQ; [done| |].
    + by apply (sched_inv_mlfq _ q2).
    + repeat split; unfold setter; cbn; congruence.
  - kstep. eapply wp_yield_decide; [done..|]. intros m5 Hv5. apply HQ; [done..|].
    repeat split; congruence.
Qed.
End ops.
