(* ===== verification/SchedPick.v ===== *)
(** * What [scheduler] selects ([proc.c])

    The searches of the stride list and of the process table as functions,
    and the choice of [scheduler] for one round. *)
From stdpp Require Import base list gmap strings.
From Stdlib Require Import ZArith Lia.
From S2P Require Import Prelude Params Mmu Spinlock Proc Sched SchedInv.
#[local] Open Scope Z_scope.
#[local] Open Scope kernel_scope.

(** ** The stride list *)

(** The search over the list [l]: the last process met that is runnable and
    whose pass is at most the smallest seen so far. *)
Fixpoint spick (pt : list proc) (l : list nat) (min : Z) (best : option nat) : option nat :=
  match l with
  | [] => best
  | j :: l =>
      match pt !! j with
      | Some p =>
          if (u32 (pass p) <=? min) && bool_decide (state p = RUNNABLE)
          then spick pt l (u32 (pass p)) (Some j) else spick pt l min best
      | None => best
      end
  end.

Definition runnable_at (pt : list proc) (j : nat) : Prop :=
  exists p, pt !! j = Some p /\ state p = RUNNABLE.
Definition pass_at (pt : list proc) (j : nat) : Z :=
  match pt !! j with Some p => u32 (pass p) | None => 0 end.

(** The result has the smallest pass of the runnable processes of the list,
    if that is at most [min]. *)
Lemma spick_spec pt h l min best :
  slist pt h l ->
  match spick pt l min best with
  | Some j =>
      (best = Some j /\ forall k, k ∈ l -> runnable_at pt k -> min < pass_at pt k) \/
      (j ∈ l /\ runnable_at pt j /\ pass_at pt j <= min /\
       forall k, k ∈ l -> runnable_at pt k -> pass_at pt j <= pass_at pt k)
  | None => best = None /\ forall k, k ∈ l -> runnable_at pt k -> min < pass_at pt k
  end.
Proof.
  revert h min best. induction l as [|i l IH]; intros h min best; cbn.
  { intros _. destruct best; [left|]; split; try done; set_solver. }
  intros (-> & p & Hi & Hs). rewrite Hi.
  assert (Hpi : pass_at pt i = u32 (pass p)) by (unfold pass_at; by rewrite Hi).
  destruct ((u32 (pass p) <=? min) && bool_decide (state p = RUNNABLE)) eqn:Hc.
  - apply andb_prop in Hc as [Hle Hr%bool_decide_eq_true_1].
    specialize (IH _ (u32 (pass p)) (Some i) Hs).
    destruct (spick pt l _ _) as [j|]; [|by destruct IH]. right.
    destruct IH as [[[= ->] Hk]|(Hj & Hrj & Hle' & Hk)].
    + split; [set_solver|]. split; [by exists p|]. split; [lia|].
      intros k [->|Hkl]%elem_of_cons Hrk; [lia|]. pose proof (Hk _ Hkl Hrk). lia.
    + split; [set_solver|]. split; [done|]. split; [lia|].
      intros k [->|Hkl]%elem_of_cons Hrk; [lia|]. by apply Hk.
  - specialize (IH _ min best Hs).
    assert (forall k, k ∈ i :: l -> runnable_at pt k ->
      (k = i /\ min < pass_at pt i) \/ k ∈ l) as Hsplit.
    { intros k [->|Hkl]%elem_of_cons (p' & Hp' & Hr); [left|by right]. simplify_eq.
      split; [done|]. rewrite Hpi. rewrite (bool_decide_eq_true_2 _ Hr) in Hc. lia. }
    destruct (spick pt l min best) as [j|].
    + destruct IH as [[-> Hk]|(Hj & Hrj & Hle & Hk)]; [left|right].
      * split; [done|]. intros k Hkl Hrk.
        destruct (Hsplit k Hkl Hrk) as [[-> ?]|?]; [done|by apply Hk].
      * split; [set_solver|]. split; [done|]. split; [done|]. intros k Hkl Hrk.
        destruct (Hsplit k Hkl Hrk) as [[-> ?]|?]; [lia|by apply Hk].
    + destruct IH as [-> Hk]. split; [done|]. intros k Hkl Hrk.
      destruct (Hsplit k Hkl Hrk) as [[-> ?]|?]; [done|by apply Hk].
Qed.

(** A list of distinct slots is no longer than the table. *)
Lemma slist_bound pt h l i : slist pt h l -> i ∈ l -> (i < length pt)%nat.
Proof.
  revert h. induction l as [|j l IH]; intros h; cbn; [set_solver|].
  intros (-> & p & Hj & Hs) [->|Hi]%elem_of_cons; [by eapply lookup_lt_Some|by eapply IH].
Qed.

Lemma slist_length pt h l : slist pt h l -> NoDup l -> (length l <= length pt)%nat.
Proof.
  intros Hs Hnd. rewrite <- (length_seq (length pt) 0).
  apply submseteq_length, NoDup_submseteq; [done|]. intros i Hi.
  apply elem_of_seq. pose proof (slist_bound _ _ _ _ Hs Hi). lia.
Qed.

(** ** The table *)

(** Slot [j] holds a process the search for level [l] takes. *)
Definition ready_at (l : Z) (pt : list proc) (j : nat) : bool :=
  match pt !! j with Some p => mlfq_ready l p | None => false end.

(** The slot visited after [k] steps from [idx]. *)
Definition slot_after (idx k : nat) : nat := ((idx + k) mod NPROC)%nat.

Lemma next_slot_after idx k : next_slot (slot_after idx k) = slot_after idx (S k).
Proof.
  unfold slot_after, next_slot, NPROC.
  pose proof (Nat.mod_upper_bound (idx + k) 64 ltac:(lia)).
  pose proof (Nat.div_mod (idx + k) 64 ltac:(lia)).
  destruct (Nat.ltb_spec ((idx + k) mod 64) (64 - 1)).
  - apply Nat.mod_unique with ((idx + k) / 64)%nat; lia.
  - apply Nat.mod_unique with (S ((idx + k) / 64)); lia.
Qed.

Lemma slot_after_all idx j : (j < NPROC)%nat -> exists k, (k < NPROC)%nat /\ slot_after idx k = j.
Proof.
  unfold slot_after, NPROC. intros Hj.
  pose proof (Nat.mod_upper_bound idx 64 ltac:(lia)). pose proof (Nat.div_mod idx 64 ltac:(lia)).
  destruct (Nat.le_gt_cases (idx mod 64) j).
  - exists (j - idx mod 64)%nat. split; [lia|]. symmetry. apply Nat.mod_unique with (idx / 64)%nat; lia.
  - exists (64 + j - idx mod 64)%nat. split; [lia|]. symmetry.
    apply Nat.mod_unique with (S (idx / 64)); lia.
Qed.

Section picks.
Context {E : Type} (X : stop -> Prop).
Context (np : Z) (ip : option nat) (tk : Z) (fi : bool) (kp : Z) (e : E).
Abbreviation st m pt q := (mkk m pt q np ip tk fi kp e).
Implicit Types (m : machine) (pt : list proc) (q : mlfq) (w : who) (L : list Z) (p : proc).

(** The search takes the first ready slot in cyclic order and goes on from
    the next one; it gives up after a full round, where it started. *)
Lemma wp_mlfq_pick pt q m l idx (Q : option nat * nat -> kstate E -> Prop) :
  length pt = NPROC -> (idx < NPROC)%nat ->
  (forall k, (k < NPROC)%nat -> ready_at l pt (slot_after idx k) = true ->
     (forall k', (k' < k)%nat -> ready_at l pt (slot_after idx k') = false) ->
     Q (Some (slot_after idx k), next_slot (slot_after idx k)) (st m pt q)) ->
  ((forall j, (j < NPROC)%nat -> ready_at l pt j = false) -> Q (None, idx) (st m pt q)) ->
  wp (mlfq_pick l idx) X Q (st m pt q).
Proof.
  intros Hlen Hidx Hsome Hnone. unfold mlfq_pick.
  apply wp_loop with
    (I := fun '(i, c) s => s = st m pt q /\ exists k, c = Z.of_nat k /\ (k < NPROC)%nat /\
       i = slot_after idx k /\ forall k', (k' < k)%nat -> ready_at l pt (slot_after idx k') = false)
    (var := fun '(_, c) _ => (63 - Z.to_nat c)%nat).
  - split; [done|]. exists 0%nat. unfold NPROC in *. split; [done|]. split; [lia|].
    split; [|lia]. unfold slot_after. rewrite Nat.add_0_r. symmetry. by apply Nat.mod_small.
  - unfold NPROC. lia.
  - intros [i c] ? (-> & k & -> & Hk & -> & Hf).
    assert (slot_after idx k < length pt)%nat as Hb.
    { rewrite Hlen. apply Nat.mod_upper_bound. by unfold NPROC. }
    destruct (lookup_lt_is_Some_2 _ _ Hb) as [p Hp].
    assert (ready_at l pt (slot_after idx k) = mlfq_ready l p) as Hr by (unfold ready_at; by rewrite Hp).
    ksteps. destruct (mlfq_ready l p); [by apply Hsome|].
    assert (forall k', (k' < S k)%nat -> ready_at l pt (slot_after idx k') = false) as Hf'.
    { intros k' Hk'. destruct (decide (k' = k)) as [->|]; [done|]. apply Hf. lia. }
    rewrite next_slot_after. unfold NPROC in *. destruct (Z.leb_spec 63 (Z.of_nat k)).
    + replace (slot_after idx (S k)) with idx.
      * apply Hnone. intros j Hj. destruct (slot_after_all idx j Hj) as (k' & Hk' & <-).
        apply Hf'. unfold NPROC in *. lia.
      * unfold slot_after, NPROC. apply Nat.mod_unique with 1%nat; lia.
    + split; [|lia]. split; [done|]. exists (S k). split; [lia|]. split; [lia|]. done.
Qed.

Lemma stride_pick_run pt q m h l min :
  slist pt h l -> NoDup l -> length pt = NPROC ->
  stride_pick h min (st m pt q) = Ok (spick pt l min None, st m pt q).
Proof.
  intros Hs Hnd Hlen. pose proof (slist_length _ _ _ Hs Hnd) as Hl. rewrite Hlen in Hl.
  unfold stride_pick. generalize (None : option nat) as best. clear Hnd Hlen.
  revert h min Hs Hl. generalize NPROC as n.
  induction l as [|j l IH]; intros n h min Hs Hl best.
  { cbn in Hs. subst h. by apply loop_inr. }
  destruct Hs as (-> & p & Hj & Hs). cbn in Hl. destruct n as [|n]; [lia|].
  rewrite (loop_inl _ _ _ (if (u32 (pass p) <=? min) && bool_decide (state p = RUNNABLE)
    then (s_link p, u32 (pass p), Some j) else (s_link p, min, best)) _ (st m pt q)).
  - cbn. rewrite Hj. destruct (_ && _); apply IH; done || lia.
  - by rewrite (bind_ok _ _ _ _ _ (proc_at_run _ _ _ _ _ _ _ _ _ _ _ Hj)).
Qed.

(** ** The choice of one round *)

(** The pass a stride process must not exceed to be chosen. *)
Definition threshold pt q : Z :=
  if 0 <? mlfq_proc_cnt q then mlfq_pass q
  else match stride_head q with Some h => pass_at pt h | None => 0 end.

Definition stride_at pt (j : nat) : Prop := exists p, pt !! j = Some p /\ stride_proc p = true.

(** The level the MLFQ selects from: the highest with an active process. *)
Definition top_level pt (l : Z) : Prop :=
  0 <= l <= 2 /\ (0 < l -> 0 < countb (at_level l) pt) /\
  forall l', l < l' <= 2 -> countb (at_level l') pt = 0.

Inductive choice pt q (idx : nat) : option nat * nat -> Prop :=
| choose_stride j :
    stride_at pt j -> runnable_at pt j -> pass_at pt j <= threshold pt q ->
    (forall k, stride_at pt k -> runnable_at pt k -> pass_at pt j <= pass_at pt k) ->
    choice pt q idx (Some j, idx)
| choose_mlfq l k :
    (forall j, stride_at pt j -> runnable_at pt j -> threshold pt q < pass_at pt j) ->
    top_level pt l -> (k < NPROC)%nat -> ready_at l pt (slot_after idx k) = true ->
    (forall k', (k' < k)%nat -> ready_at l pt (slot_after idx k') = false) ->
    choice pt q idx (Some (slot_after idx k), next_slot (slot_after idx k))
| choose_none l :
    (forall j, stride_at pt j -> runnable_at pt j -> threshold pt q < pass_at pt j) ->
    top_level pt l -> (forall j, (j < NPROC)%nat -> ready_at l pt j = false) ->
    choice pt q idx (None, idx).

Lemma wp_pick_level pt q m (Q : Z -> kstate E -> Prop) :
  sched_inv pt q -> (forall l, top_level pt l -> Q l (st m pt q)) ->
  wp pick_level X Q (st m pt q).
Proof.
  intros Hinv HQ. pose proof (co_qlevels _ _ (proj1 Hinv)) as Hq. unfold pick_level, top_level in *.
  pose proof (countb_range (at_level 2) pt). pose proof (countb_range (at_level 1) pt).
  kstep. eapply wp_qlevel_at; [lia|apply Hq; lia|].
  destruct (Z.ltb_spec 0 (countb (at_level 2) pt)); [kstep; apply HQ; split; [lia|split; [done|lia]]|].
  kstep. eapply wp_qlevel_at; [lia|apply Hq; lia|]. kstep. apply HQ.
  destruct (Z.ltb_spec 0 (countb (at_level 1) pt)); (split; [lia|]; split; [done|]); intros l' Hl'.
  - replace l' with 2 by lia. lia.
  - assert (l' = 1 \/ l' = 2) as [-> | ->] by lia; lia.
Qed.

(** The search of the stride list, by its result. *)
Lemma wp_stride_search pt q m (Q : option nat -> kstate E -> Prop) :
  sched_inv pt q ->
  (forall j, stride_at pt j -> runnable_at pt j -> pass_at pt j <= threshold pt q ->
     (forall k, stride_at pt k -> runnable_at pt k -> pass_at pt j <= pass_at pt k) ->
     Q (Some j) (st m pt q)) ->
  ((forall j, stride_at pt j -> runnable_at pt j -> threshold pt q < pass_at pt j) ->
     Q None (st m pt q)) ->
  wp match stride_head q with
     | Some h =>
         ph <~ proc_at h;
         stride_pick (Some h) (if 0 <? mlfq_proc_cnt q then mlfq_pass q else u32 (pass ph))
     | None => ret None
     end X Q (st m pt q).
Proof.
  intros Hinv Hsome Hnone. pose proof (sched_inv_len _ _ Hinv) as Hlen.
  destruct (so_list _ _ (proj2 Hinv)) as (l & Hl & Hnd & Hin).
  assert (forall k, k ∈ l <-> stride_at pt k) as Hmem by apply Hin. clear Hin.
  destruct (stride_head q) as [h|] eqn:Hh.
  - destruct l as [|h' l']; [done|]. pose proof Hl as ([= <-] & p & Hp & _).
    kstep. kstep. unfold wp. rewrite (stride_pick_run _ _ _ _ _ _ Hl Hnd Hlen).
    assert (threshold pt q = if 0 <? mlfq_proc_cnt q then mlfq_pass q else u32 (pass p)) as <-.
    { unfold threshold, pass_at. by rewrite Hh, Hp. }
    pose proof (spick_spec _ _ _ (threshold pt q) None Hl) as Hs.
    destruct (spick pt _ _ None) as [j|].
    + destruct Hs as [[[=] _]|(Hj & Hr & Hle & Hk)]. apply Hsome; [by apply Hmem|done|done|].
      intros k ?%Hmem. by apply Hk.
    + apply Hnone. intros j ?%Hmem. by apply Hs.
  - kstep. apply Hnone. intros j Hj%Hmem. destruct l as [|k l]; [set_solver|]. by destruct Hl.
Qed.

Lemma wp_scheduler_select pt q m w idx (Q : option nat * nat -> kstate E -> Prop) :
  view m [] w -> sched_inv pt q -> (idx < NPROC)%nat ->
  (forall m' r, choice pt q idx r ->
     view m' [ptable_lock] (mkwho (w_cpu w) true (w_proc w) (w_cpus w)) ->
     Q r (st m' pt q)) ->
  wp (scheduler_select idx) X Q (st m pt q).
Proof.
  intros Hv Hinv Hidx HQ. unfold scheduler_select. kstep. apply wp_on_mach.
  eapply wp_sti; [done|]. intros m1 Hv1. do 6 kstep. kstep. apply wp_stride_search; [done|..].
  - intros j Hs Hr Hle Hk. ksteps. apply HQ; [|done]. by apply choose_stride.
  - intros Hs. kstep. eapply wp_pick_level; [done|]. intros l Hl. kstep. kstep.
    apply wp_mlfq_pick; [by eapply sched_inv_len|done|..].
    + intros k Hk Hr Hf. apply HQ; [|done]. by eapply choose_mlfq.
    + intros Hf. apply HQ; [|done]. by eapply choose_none.
Qed.

(** ** Switching to the process *)

(** A process without threads that can be run. *)
Record solo (i : nat) (p : proc) : Prop := {
  sl_group : lwpgroup p = Some i;
  sl_count : thread_count p = 1;
  sl_quant : 0 < timequant p;
  sl_kstack : kstack p <> 0;
  sl_pgdir : pgdir p <> 0;
  sl_pid : pid p <> -1
}.

Definition all_solo pt : Prop := forall i p, pt !! i = Some p -> live p = true -> solo i p.

Definition running p : proc := p <| state := RUNNING |>.

Lemma runnable_active p : state p = RUNNABLE -> active p = true.
Proof. unfold active. by intros ->. Qed.

Lemma sched_inv_run pt q i p :
  sched_inv pt q -> pt !! i = Some p -> state p = RUNNABLE ->
  sched_inv (<[i := running p]> pt) q.
Proof.
  intros Hinv Hi Hs. pose proof (runnable_active _ Hs) as Ha.
  apply (sched_inv_keep _ q _ _ p); try done. by rewrite (active_live _ Ha).
Qed.

Lemma wp_scheduler_switch pt q m w i p (Q : option nat -> kstate E -> Prop) :
  view m [ptable_lock] w -> pt !! i = Some p -> solo i p ->
  (forall m', view m' [ptable_lock] (mkwho (w_cpu w) (w_on w) (Some i) (w_cpus w)) ->
     Q (Some i) (st m' (<[i := running p]> pt) q)) ->
  wp (scheduler_switch i) X Q (st m pt q).
Proof.
  intros Hv Hi [_ Hc _ Hk Hg _] HQ. unfold scheduler_switch. ksteps.
  rewrite Hc. cbn. kstep. eapply wp_set_cproc; [done|]. intros m1 Hv1.
  kstep. eapply wp_switchuvm; [done..|]. intros m2 Hv2. ksteps. by apply HQ.
Qed.

Lemma wp_scheduler_return pt q m w (Q : unit -> kstate E -> Prop) :
  view m [ptable_lock] w ->
  (forall m', view m' [] (mkwho (w_cpu w) (w_on w) None (w_cpus w)) -> Q tt (st m' pt q)) ->
  wp scheduler_return X Q (st m pt q).
Proof.
  intros Hv HQ. unfold scheduler_return. kstep. eapply wp_switchkvm; [done|]. intros m1 Hv1.
  kstep. eapply wp_set_cproc; [done|]. intros m2 Hv2. kstep. by apply HQ.
Qed.
End picks.
