(* ===== verification/SchedThms.v ===== *)
(** * The scheduler's guarantees

    The theorems on [scheduler], [yield], [sleep] and [wakeup] for processes
    without threads, each with a concrete run. *)
From stdpp Require Import base list gmap strings.
From Stdlib Require Import ZArith Lia.
From S2P Require Import Prelude Params Mmu Spinlock Proc Sched SchedInv SchedPick.
#[local] Open Scope Z_scope.
#[local] Open Scope kernel_scope.

(** ** A machine with one CPU *)

Definition cpu_one (o : option nat) : cpu := mkcpu 7 true 0 false o 0 0.
Definition mach_one (o : option nat) : machine := mkmachine [cpu_one o] 0 7 ∅.
Definition who_one (o : option nat) : who := mkwho 0 true o [cpu_one o].

Lemma view_one o : view (mach_one o) [] (who_one o).
Proof.
  exists (cpu_one o). repeat split; try done; try set_solver. constructor.
Qed.

(** A process at level [l], with the fields the scheduler reads. *)
Definition a_proc (i : nat) (id : Z) (s : procstate) (l : Z) : proc :=
  proc0 <| pid := id |> <| state := s |> <| level := l |> <| lwpgroup := Some i |>
        <| thread_count := 1 |> <| timequant := 5 |> <| timeallot := 20 |>
        <| kstack := 2147487744 |> <| pgdir := 2147491840 |>.

Definition table_of (l : list proc) : list proc := l ++ replicate (NPROC - length l) proc0.

(** A decision procedure for the invariant on a concrete table with an empty
    stride queue. *)
Lemma sched_inv_concrete pt q :
  length pt = NPROC -> stride_head q = None -> stride_share q = 0 ->
  forallb (fun p => negb (level p =? STRIDE)) pt = true ->
  forallb (fun p => negb (live p) || ((0 <=? level p) && (level p <=? 2))) pt = true ->
  qlevels q = [countb (at_level 0) pt; countb (at_level 1) pt; countb (at_level 2) pt] ->
  mlfq_proc_cnt q = countb mlfq_member pt ->
  sched_inv pt q.
Proof.
  intros Hlen Hh Hsh Hns Hlv Hq Hc.
  rewrite forallb_forall in Hns, Hlv.
  assert (forall i p, pt !! i = Some p -> stride_proc p = false) as Hno.
  { intros i p Hp. unfold stride_proc. specialize (Hns p).
    rewrite <- list_elem_of_In in Hns. specialize (Hns (list_elem_of_lookup_2 _ _ _ Hp)).
    destruct (level p =? STRIDE); [done|]. apply andb_false_r. }
  split; split.
  - done.
  - intros l Hl. rewrite Hq. assert (l = 0 \/ l = 1 \/ l = 2) as [->|[->| ->]] by lia; done.
  - done.
  - intros i p Hp Hl. left. specialize (Hlv p).
    rewrite <- list_elem_of_In in Hlv. specialize (Hlv (list_elem_of_lookup_2 _ _ _ Hp)).
    rewrite Hl in Hlv. cbn in Hlv. lia.
  - exists []. rewrite Hh. split; [done|]. split; [constructor|]. intros i. split; [set_solver|].
    intros (p & Hp & Hs). by rewrite (Hno _ _ Hp) in Hs.
  - intros i p Hp Hs. by rewrite (Hno _ _ Hp) in Hs.
  - replace (sumZ stride_weight pt) with 0; [lia|]. clear - Hno. induction pt as [|p pt IH]; [done|].
    cbn. rewrite <- IH; [|intros i; apply (Hno (S i))]. unfold stride_weight.
    by rewrite (Hno 0%nat p).
Qed.

Definition three_procs : list proc :=
  table_of [a_proc 0 1 SLEEPING 2; a_proc 1 2 RUNNABLE 1; a_proc 2 3 RUNNABLE 0].
Definition three_queue : mlfq := mkmlfq 0 0 0 2 0 None [1; 1; 0] (replicate NPROC None).
Definition three (o : option nat) (pt : list proc) (q : mlfq) : kstate unit :=
  mkk (mach_one o) pt q 4 (Some 0%nat) 10 false 2147483648 tt.

Lemma three_inv : sched_inv three_procs three_queue.
Proof. by apply sched_inv_concrete. Qed.

Section thms.
Context {E : Type}.
Implicit Types (s : kstate E) (w : who).

(** C11: One round of [scheduler] always returns, holding [ptable.lock] and
    with the tables as they were.  If a runnable stride process has a pass of
    at most the threshold (the pass of the MLFQ, or of the head of the stride
    list when the MLFQ is empty), it returns one whose pass is least;
    otherwise the first runnable process, in cyclic order from [searchidx],
    of the highest level that has an active process. *)
Theorem scheduler_select_correct s w idx :
  view (mach s) [] w -> sched_inv (ptable s) (mlfqstr s) -> (idx < NPROC)%nat ->
  wp (scheduler_select idx) never
    (fun r s' => choice (ptable s) (mlfqstr s) idx r /\
       ptable s' = ptable s /\ mlfqstr s' = mlfqstr s /\
       view (mach s') [ptable_lock] (mkwho (w_cpu w) true (w_proc w) (w_cpus w))) s.
Proof.
  intros Hv Hinv Hidx. destruct s as [m pt q np ip tk fi kp e]. cbn in *.
  eapply wp_scheduler_select; [done..|]. auto.
Qed.
End thms.

Lemma scheduler_select_correct_witness :
  wp (scheduler_select 5) never
    (fun r s' => choice three_procs three_queue 5 r /\
       ptable s' = three_procs /\ mlfqstr s' = three_queue /\
       view (mach s') [ptable_lock] (who_one None)) (three None three_procs three_queue).
Proof.
  apply (scheduler_select_correct (three None three_procs three_queue) (who_one None) 5).
  - apply view_one.
  - apply three_inv.
  - unfold NPROC. lia.
Defined.
