(* ===== verification/SchedRun.v ===== *)
(** * One CPU running processes

    The routines of [proc.c] are cut at their context switches; this file puts
    the pieces together for one CPU and processes without threads.  A process
    that does not run is suspended in [sched], called from [yield] or from
    [sleep], or at the beginning of [forkret].  The CPU runs a process, which
    makes calls, or the scheduler, which picks the next one; interrupts may
    wake processes at any time. *)
From stdpp Require Import base list gmap strings relations.
From Stdlib Require Import ZArith Lia.
From S2P Require Import Prelude Params Mmu Spinlock Proc Sched SchedInv SchedPick SchedThms.
#[local] Open Scope Z_scope.
#[local] Open Scope kernel_scope.

(** Where a suspended process is. *)
Inductive place := AtForkret | InYield | InSleep (lk : Z).

Inductive sched_op :=
| OpWakeup (c : chan)        (* [wakeup(c)], by a process or an interrupt *)
| OpKill (id : Z)            (* [kill(id)] *)
| OpTick                     (* the clock interrupt counts *)
| OpYield                    (* [yield()], by the process or the clock interrupt *)
| OpSleep (c : chan) (lk : Z) (* [acquire(lk); sleep(c, lk)] *)
| OpPick.                    (* one round of [scheduler] *)

Section run.
Context {E : Type}.
Abbreviation K := (kstate E).

Record run := mkrun { krn : K; cur : option nat; idx : nat; susp : nat -> place }.

(** [sched()] of the process that gives up the CPU, and the scheduler after
    its [swtch]. *)
Definition leave_cpu : M K unit := sched_enter ;;; scheduler_return.

(** The process [j] after [sched]'s [swtch], until it holds no lock. *)
Definition resume (j : nat) (pl : place) : M K unit :=
  match pl with
  | AtForkret => release_k ptable_lock
  | InYield => sched_exit true ;;; yield_exit ;;; ret tt
  | InSleep lk => sched_exit true ;;; sleep_tidy j lk ;;; release_k lk
  end.

Definition set_susp (i : option nat) (pl : place) (f : nat -> place) : nat -> place :=
  fun j => if decide (i = Some j) then pl else f j.

(** What runs, and the process, the index and the suspensions after it. *)
Definition run_op (op : sched_op) (r : run) : M K (option nat * nat * (nat -> place)) :=
  match op with
  | OpWakeup c => wakeup c ;;; ret (cur r, idx r, susp r)
  | OpKill id => kill id ;;; ret (cur r, idx r, susp r)
  | OpTick => modify (fun s => s <| ticks := u32 (ticks s + 1) |>) ;;; ret (cur r, idx r, susp r)
  | OpYield =>
      h <~ yield_enter;
      match h with
      | Stay => yield_exit ;;; ret (cur r, idx r, susp r)
      | _ => leave_cpu ;;; ret (None, idx r, set_susp (cur r) InYield (susp r))
      end
  | OpSleep c lk =>
      acquire_k lk ;;;
      sleep_mark c lk ;;;
      leave_cpu ;;;
      ret (None, idx r, set_susp (cur r) (InSleep lk) (susp r))
  | OpPick =>
      x <~ scheduler_select (idx r);
      match fst x with
      | None => scheduler_idle ;;; ret (None, snd x, susp r)
      | Some j =>
          o <~ scheduler_switch j;
          match o with
          | None => scheduler_return ;;; ret (None, snd x, susp r)
          | Some t => resume t (susp r t) ;;; ret (Some t, snd x, susp r)
          end
      end
  end.

(** A lock of a client of [sleep]. *)
Definition sleep_lock (lk : Z) : Prop := lk <> 0 /\ lk <> ptable_lock /\ lk <> mlfqstr_lock.

Definition enabled (op : sched_op) (r : run) : Prop :=
  match op with
  | OpWakeup _ | OpKill _ | OpTick => True
  | OpYield => cur r <> None
  | OpSleep _ lk => cur r <> None /\ sleep_lock lk
  | OpPick => cur r = None
  end.

Inductive run_step : run -> run -> Prop :=
| run_one op r c i f s' :
    enabled op r -> run_op op r (krn r) = Ok (c, i, f, s') -> run_step r (mkrun s' c i f).

End run.
Arguments run : clear implicits.

(** ** The invariant *)

(** The tables when the CPU runs [o]: the counters are right, the processes
    have no threads, only [o] may be [RUNNING], and [o] is active. *)
Record tables_ok (pt : list proc) (q : mlfq) (o : option nat) : Prop := {
  to_inv : sched_inv pt q;
  to_solo : all_solo pt;
  to_only : forall i p, pt !! i = Some p -> state p = RUNNING -> o = Some i;
  to_cur : forall i, o = Some i -> exists p, pt !! i = Some p /\ active p = true
}.

(** A change of a process that the scheduler's tables survive. *)
Record keeps (i : nat) (p p' : proc) : Prop := {
  kp_live : live p' = true -> live p = true;
  kp_active : active p = true -> active p' = true;
  kp_running : state p' = RUNNING -> state p = RUNNING;
  kp_solo : solo i p -> solo i p'
}.

Definition keeps_all (pt pt' : list proc) : Prop :=
  forall i p', pt' !! i = Some p' -> exists p, pt !! i = Some p /\ keeps i p p'.

Lemma keeps_refl i p : keeps i p p.
Proof. done. Qed.

Lemma keeps_trans i p1 p2 p3 : keeps i p1 p2 -> keeps i p2 p3 -> keeps i p1 p3.
Proof. intros [] []. split; auto. Qed.
#[local] Hint Resolve keeps_refl keeps_trans : kernel.

Lemma keeps_all_trans pt1 pt2 pt3 : keeps_all pt1 pt2 -> keeps_all pt2 pt3 -> keeps_all pt1 pt3.
Proof.
  intros H1 H2 i p3 H3. destruct (H2 _ _ H3) as (p2 & Hp2 & K2).
  destruct (H1 _ _ Hp2) as (p1 & Hp1 & K1). exists p1. eauto with kernel.
Qed.

Lemma keeps_all_insert pt i p p' : pt !! i = Some p -> keeps i p p' -> keeps_all pt (<[i := p']> pt).
Proof.
  intros Hi Hk j pj Hj. apply list_lookup_insert_Some in Hj as [(<- & -> & _)|[_ Hj]]; eauto with kernel.
Qed.

Lemma keeps_all_fmap f pt : (forall i p, keeps i p (f p)) -> keeps_all pt (f <$> pt).
Proof. intros Hf i p' (p & -> & Hp)%list_lookup_fmap_Some. eauto. Qed.

Lemma tables_ok_keeps pt q pt' q' o :
  tables_ok pt q o -> keeps_all pt pt' -> sched_inv pt' q' -> tables_ok pt' q' o.
Proof.
  intros [Hinv Hs Ho Hc] Hk Hinv'. split; [done|..].
  - intros i p' Hi Hl. destruct (Hk _ _ Hi) as (p & Hp & [Hlive _ _ Hsolo]). eauto.
  - intros i p' Hi Hr. destruct (Hk _ _ Hi) as (p & Hp & []). eauto.
  - intros i Hi. destruct (Hc _ Hi) as (p & Hp & Ha).
    assert (is_Some (pt' !! i)) as [p' Hp'].
    { apply lookup_lt_is_Some. rewrite (sched_inv_len _ _ Hinv'), <- (sched_inv_len _ _ Hinv).
      by eapply lookup_lt_Some. }
    exists p'. split; [done|]. destruct (Hk _ _ Hp') as (? & ? & []). simplify_eq. auto.
Qed.

(** The running process leaves the CPU. *)
Lemma tables_ok_leave pt q i p :
  tables_ok pt q (Some i) -> pt !! i = Some p -> state p <> RUNNING -> tables_ok pt q None.
Proof.
  intros [Hinv Hs Ho _] Hi Hr. split; [done..| |done].
  intros j pj Hj Hrj. pose proof (Ho _ _ Hj Hrj). by simplify_eq.
Qed.

Lemma tables_ok_run pt q i p :
  tables_ok pt q None -> pt !! i = Some p -> state p = RUNNABLE ->
  tables_ok (<[i := running p]> pt) q (Some i).
Proof.
  intros [Hinv Hs Ho _] Hi Hr. assert (i < length pt)%nat by by eapply lookup_lt_Some. split.
  - by apply sched_inv_run.
  - intros j pj [(<- & <- & _)|[_ Hj]]%list_lookup_insert_Some Hl; [|by apply Hs].
    destruct (Hs _ _ Hi) as []; [by apply active_live, runnable_active|]. by split.
  - intros j pj [(<- & <- & _)|[_ Hj]]%list_lookup_insert_Some Hrj; [done|].
    by pose proof (Ho _ _ Hj Hrj).
  - intros ? [= <-]. eexists. by rewrite list_lookup_insert_eq.
Qed.

Lemma tables_ok_sleep pt q i p c q' :
  tables_ok pt q (Some i) -> pt !! i = Some p -> sched_inv (<[i := asleep c p]> pt) q' ->
  tables_ok (<[i := asleep c p]> pt) q' None.
Proof.
  intros [Hinv Hs Ho Hc] Hi Hinv'. split; [done|..|done].
  - intros j pj [(<- & <- & _)|[_ Hj]]%list_lookup_insert_Some Hl; [|by apply Hs].
    destruct (Hc _ eq_refl) as (? & ? & Ha). simplify_eq.
    destruct (Hs _ _ Hi (active_live _ Ha)). by split.
  - intros j pj [(<- & <- & _)|[Hne Hj]]%list_lookup_insert_Some Hr; [done|].
    pose proof (Ho _ _ Hj Hr). by simplify_eq.
Qed.

Lemma wake_keeps c i p : keeps i p (wake c p).
Proof.
  unfold wake. destruct (sleeps_on c p) eqn:Hs; [|done]. apply sleeps_on_state in Hs.
  split; [|done..|by intros []; split]. intros _. by apply sleeping_live.
Qed.

Lemma kill_keeps i p : keeps i p (kill_proc p).
Proof.
  destruct (decide (state p = SLEEPING)) as [Hs|Hs];
    rewrite ?(kill_proc_sleeping _ Hs), ?(kill_proc_awake _ Hs);
    [|by split; [done..|by intros []; split]].
  split; [|done..|by intros []; split]. intros _. by apply sleeping_live.
Qed.

Lemma boost_keeps i p : keeps i p (boost p).
Proof. unfold boost. destruct (boosts p); [|done]. split; [done..|]. by intros []; split. Qed.

Lemma yield_self_keeps i p : active p = true -> keeps i p (yield_self p).
Proof.
  intros Ha. assert (state (yield_self p) = RUNNABLE) as Hr.
  { unfold yield_self, lower_proc. by repeat case_match. }
  split.
  - by rewrite (active_live _ Ha).
  - by rewrite yield_self_active.
  - by rewrite Hr.
  - intros []. unfold yield_self, lower_proc. repeat case_match; split; cbn; done || lia.
Qed.

Lemma yield_keeps tk q i p pt :
  pt !! i = Some p -> active p = true -> keeps_all pt (yield_table tk q i p pt).
Proof.
  intros Hi Ha. unfold yield_table.
  eapply keeps_all_trans; [eapply (keeps_all_insert _ _ p _ Hi), (yield_self_keeps _ _ Ha)|].
  set (pt1 := <[i := _]> pt).
  assert (keeps_all pt1 (if boosting tk q then boost <$> pt1 else pt1)) as Hb.
  { destruct (boosting tk q); [|by intros j pj Hj; exists pj].
    apply keeps_all_fmap. intros. apply boost_keeps. }
  destruct (stride_head q); [|done]. destruct (level p =? STRIDE); [|done].
  eapply keeps_all_trans; [done|]. intros j pj Hj.
  rewrite list_lookup_alter in Hj. case_decide as Hd; [subst j|by exists pj].
  apply fmap_Some in Hj as (p0 & Hp0 & ->). exists p0. split; [done|]. split; [done..|].
  by intros []; split.
Qed.

Lemma yield_proc_runnable tk q p : state (yield_proc tk q p) = RUNNABLE.
Proof. unfold yield_proc, add_pass, boost, yield_self, lower_proc. by repeat case_match. Qed.

Record run_ok {E} (r : run E) : Prop := {
  ro_view : exists w, view (mach (krn r)) [] w /\ w_proc w = cur r /\
    (cur r <> None -> w_on w = true);
  ro_tables : tables_ok (ptable (krn r)) (mlfqstr (krn r)) (cur r);
  ro_idx : (idx r < NPROC)%nat;
  ro_susp : forall j lk, susp r j = InSleep lk -> sleep_lock lk
}.

Lemma susp_ok_set o pl f :
  (forall lk, pl = InSleep lk -> sleep_lock lk) ->
  (forall j lk, f j = InSleep lk -> sleep_lock lk) ->
  forall j lk, set_susp o pl f j = InSleep lk -> sleep_lock lk.
Proof. intros Hpl Hf j lk. unfold set_susp. case_decide; eauto. Qed.

Lemma choice_runnable pt q k j i :
  choice pt q k (Some j, i) -> (k < NPROC)%nat -> runnable_at pt j /\ (i < NPROC)%nat.
Proof.
  intros Hc Hk. remember (Some j, i) as r. destruct Hc as [j' _ Hr _ _|l n _ _ _ Hr _|l]; simplify_eq.
  - done.
  - split.
    + unfold ready_at in Hr. destruct (pt !! slot_after k n) as [p|] eqn:Hp; [|done].
      exists p. split; [done|]. unfold mlfq_ready in Hr.
      by apply andb_prop in Hr as [[Hr%bool_decide_eq_true_1 _]%andb_prop _].
    + unfold next_slot, NPROC. destruct (Nat.ltb_spec (slot_after k n) (64 - 1)); lia.
Qed.

Section ops.
Context {E : Type}.
Context (np : Z) (ip : option nat) (tk : Z) (fi : bool) (kp : Z) (e : E).
Abbreviation st m pt q := (mkk m pt q np ip tk fi kp e).
Abbreviation done_ok := (fun (x : option nat * nat * (nat -> place)) s' =>
  run_ok (mkrun s' (fst (fst x)) (snd (fst x)) (snd x))).
Implicit Types (m : machine) (pt : list proc) (q : mlfq) (w : who) (p : proc).

(** The end of a step that leaves the CPU to the scheduler. *)
Lemma wp_leave_cpu pt q m w i p (Q : unit -> kstate E -> Prop) :
  view m [ptable_lock] w -> w_proc w = Some i -> pt !! i = Some p -> state p <> RUNNING ->
  (forall m', view m' [] (mkwho (w_cpu w) (w_on w) None (w_cpus w)) -> Q tt (st m' pt q)) ->
  wp leave_cpu never Q (st m pt q).
Proof.
  intros Hv Hw Hi Hs HQ. unfold leave_cpu. kstep. eapply wp_sched_enter; [done..|].
  intros m1 Hv1. by eapply wp_scheduler_return.
Qed.

(** A process that is switched to holds no lock once it is on its way. *)
Lemma wp_resume pt q m w j p pl (Q : unit -> kstate E -> Prop) :
  view m [ptable_lock] w -> w_on w = true -> pt !! j = Some p ->
  (forall lk, pl = InSleep lk -> sleep_lock lk) ->
  (forall m' pt', view m' [] w -> pt' = pt \/ pt' = <[j := p <| pchan := ChNull |>]> pt ->
     Q tt (st m' pt' q)) ->
  wp (resume j pl) never Q (st m pt q).
Proof.
  intros Hv Hon Hj Hpl HQ. destruct w as [c on o cs]. cbn in Hon. subst on.
  destruct pl as [| |lk]; cbn [resume].
  - kstep. auto.
  - kstep. eapply wp_sched_exit; [done|]. intros m1 Hv1. unfold yield_exit. ksteps. auto.
  - destruct (Hpl lk eq_refl) as (_ & Hlk & _). kstep. eapply wp_sched_exit; [done|]. intros m1 Hv1.
    unfold sleep_tidy. destruct (Z.eqb_spec lk ptable_lock); [done|]. ksteps. auto.
Qed.

Lemma run_yield_ok m pt q o i f :
  run_ok (mkrun (st m pt q) o i f) -> o <> None ->
  wp (run_op OpYield (mkrun (st m pt q) o i f)) never done_ok (st m pt q).
Proof.
  intros [(w & Hv & Hw & Hon) Ht Hidx Hf] Ho. cbn in *.
  destruct o as [j|]; [|done]. destruct (to_cur _ _ _ Ht _ eq_refl) as (p & Hj & Ha).
  destruct (to_solo _ _ _ Ht _ _ Hj (active_live _ Ha)) as [Hg Hc Hq _ _ _].
  kstep. eapply wp_yield_enter with (L := []); [done|done|set_solver|set_solver|set_solver|apply Ht|done|done|done|lia|done|].
  intros m1 q1 Hv1 Hinv1 _.
  pose proof (tables_ok_keeps _ _ _ _ _ Ht (yield_keeps tk q _ _ _ Hj Ha) Hinv1) as Ht1.
  pose proof (yield_table_self tk q _ _ _ Hj) as Hj1.
  pose proof (yield_proc_runnable tk q p) as Hr.
  assert (Hgo : wp (leave_cpu ;;; ret (None, i, set_susp (Some j) InYield f)) never done_ok
    (st m1 (yield_table tk q j p pt) q1)).
  { kstep. eapply wp_leave_cpu; [done..|by rewrite Hr|]. intros m2 Hv2. kstep.
    split; [by eexists| |done|by apply susp_ok_set].
    cbn. eapply tables_ok_leave; [done..|]. by rewrite Hr. }
  destruct (yield_hand _ _); [|done..]. unfold yield_exit. ksteps. split; [by exists w|done..].
Qed.

Lemma run_sleep_ok m pt q o i f c lk :
  run_ok (mkrun (st m pt q) o i f) -> o <> None -> sleep_lock lk ->
  wp (run_op (OpSleep c lk) (mkrun (st m pt q) o i f)) never done_ok (st m pt q).
Proof.
  intros [(w & Hv & Hw & Hon) Ht Hidx Hf] Ho Hlk. pose proof Hlk as (Hlk0 & Hlk1 & Hlk2). cbn in *.
  destruct o as [j|]; [|done]. destruct (to_cur _ _ _ Ht _ eq_refl) as (p & Hj & Ha).
  ksteps. eapply wp_sleep_mark with (L1 := []) (L2 := []); [done|done|done|done|set_solver|set_solver|apply Ht|done|done|].
  cbn [app]. intros m1 q1 Hv1 Hinv1 _. kstep. assert (j < length pt)%nat by by eapply lookup_lt_Some.
  eapply wp_leave_cpu; [done|done|by apply list_lookup_insert_eq|done|]. intros m2 Hv2. kstep.
  split; [by eexists| |done|].
  - by eapply tables_ok_sleep.
  - apply susp_ok_set; [|done]. by intros ? [= <-].
Qed.

(** A round of the scheduler: an idle CPU means that nothing may run. *)
Lemma run_pick_ok m pt q i f :
  run_ok (mkrun (st m pt q) None i f) ->
  wp (run_op OpPick (mkrun (st m pt q) None i f)) never
    (fun x s' => done_ok x s' /\ choice pt q i (fst (fst x), snd (fst x))) (st m pt q).
Proof.
  intros [(w & Hv & Hw & Hon) Ht Hidx Hf]. cbn in *. kstep.
  eapply wp_scheduler_select; [done|apply Ht|done|]. intros m1 [[j|] i1] Hch Hv1; cbn [fst snd].
  - destruct (choice_runnable _ _ _ _ _ Hch Hidx) as [(p & Hj & Hr) Hi1].
    pose proof (active_live _ (runnable_active _ Hr)) as Hl.
    assert (j < length pt)%nat by by eapply lookup_lt_Some.
    kstep. eapply wp_scheduler_switch; [done|done|by eapply to_solo|]. intros m2 Hv2. cbn in Hv2.
    kstep. eapply wp_resume; [done|done|by apply list_lookup_insert_eq|apply Hf|].
    intros m3 pt3 Hv3 Hpt3. kstep. split; [|done].
    pose proof (tables_ok_run _ _ _ _ Ht Hj Hr) as Ht2.
    split; [by eexists| |done|done]. cbn. destruct Hpt3 as [->| ->]; [done|].
    eapply tables_ok_keeps; [done|eapply keeps_all_insert; [by apply list_lookup_insert_eq|]|].
    + split; [done..|]. by intros []; split.
    + eapply sched_inv_keep; [by apply Ht2|by apply list_lookup_insert_eq|done..].
  - unfold scheduler_idle. ksteps. remember (None, i1) as r.
    destruct Hch as [| |l]; simplify_eq. split; [|by eapply choose_none].
    split; [|done..]. cbn. eexists. split; [done|]. by rewrite Hw.
Qed.

Lemma run_op_ok m pt q o i f op :
  run_ok (mkrun (st m pt q) o i f) -> enabled op (mkrun (st m pt q) o i f) ->
  wp (run_op op (mkrun (st m pt q) o i f)) never done_ok (st m pt q).
Proof.
  intros Hok Hen. pose proof Hok as [(w & Hv & Hw & Hon) Ht Hidx Hf]. cbn in Ht, Hv.
  destruct op as [c|id| | |c lk|]; cbn [run_op cur idx susp].
  - kstep. eapply wp_wakeup; [done|set_solver|set_solver|apply Ht|]. intros m1 q1 Hv1 Hinv1 _.
    kstep. split; [by exists w| |done|done]. eapply tables_ok_keeps; [done| |done].
    apply keeps_all_fmap. intros. apply wake_keeps.
  - kstep. eapply wp_kill; [done|set_solver|set_solver|apply Ht|]. intros m1 Hv1.
    destruct (list_find _ pt) as [[j p]|] eqn:Hfind; [|kstep; by split; [exists w|..]].
    apply list_find_Some in Hfind as (Hj & _ & _). intros q1 Hinv1 _. kstep.
    split; [by exists w| |done|done]. eapply tables_ok_keeps; [done| |done].
    eapply keeps_all_insert; [done|]. apply kill_keeps.
  - kstep. apply wp_modify. kstep. by split; [exists w|..].
  - by apply run_yield_ok.
  - by apply run_sleep_ok; [|apply Hen..].
  - cbn in Hen. subst o. eapply wp_mono; [by apply run_pick_ok|]. by intros x s' [? _].
Qed.
End ops.

Section thms.
Context {E : Type}.
Implicit Types (r : run E).

Lemma run_ok_step r r' : run_ok r -> run_step r r' -> run_ok r'.
Proof.
  intros Hok Hstep. revert Hok. destruct Hstep as [op r0 c i f s' Hen Hrun]. intros Hok. destruct r0 as [[m pt q np ip tk fi kp e] o i0 f0].
  pose proof (run_op_ok np ip tk fi kp e m pt q o i0 f0 op Hok Hen) as H.
  unfold wp in H. cbn [krn] in Hrun. by rewrite Hrun in H.
Qed.


(** If the MLFQ has a member, the level that is searched has one. *)
Lemma top_level_member pt l j p :
  top_level pt l -> pt !! j = Some p -> active p = true -> 0 <= level p <= 2 ->
  exists j' p', pt !! j' = Some p' /\ active p' = true /\ level p' = l.
Proof.
  intros (Hl0 & Hex & Hup) Hj Ha Hlev.
  assert (0 < countb (at_level (level p)) pt) as Hpos.
  { apply countb_pos. exists j, p. split; [done|]. unfold at_level. by rewrite Ha, Z.eqb_refl. }
  assert (0 < countb (at_level l) pt) as (j' & p' & Hj' & Ha')%countb_pos.
  { destruct (decide (l = level p)) as [->|Hne]; [done|]. apply Hex.
    destruct (decide (0 < l)); [done|]. rewrite Hup in Hpos; lia. }
  exists j', p'. unfold at_level in Ha'. apply andb_prop in Ha' as [Ha' Hl']. split_and!; [done..|lia].
Qed.

(** Every runnable MLFQ process of a table in which nothing runs is found. *)
Lemma choice_none_idle pt q k i :
  tables_ok pt q None -> choice pt q k (None, i) ->
  forall j p, pt !! j = Some p -> state p = RUNNABLE ->
    stride_proc p = true /\ threshold pt q < pass_at pt j.
Proof.
  intros [Hinv Hs Ho _] Hc j p Hj Hr. remember (None, i) as x.
  destruct Hc as [| |l Hst Hl Hnone]; simplify_eq.
  pose proof (runnable_active _ Hr) as Ha. pose proof (active_live _ Ha) as Hlive.
  assert (stride_proc p = true) as Hsp; [|split; [done|]; apply Hst; by exists p].
  apply not_false_is_true. intros Hsp. unfold stride_proc in Hsp. rewrite Hlive in Hsp. cbn in Hsp.
  destruct (top_level_member _ _ _ _ Hl Hj Ha) as (j' & p' & Hj' & Ha' & Hl').
  { destruct (sched_inv_level _ _ _ _ Hinv Hj Hlive); lia. }
  destruct (Hs _ _ Hj' (active_live _ Ha')) as [_ _ _ _ _ Hpid].
  unfold active in Ha'. apply orb_prop in Ha' as [Ha'|Ha'%bool_decide_eq_true_1];
    [|by pose proof (Ho _ _ Hj' Ha')].
  assert (ready_at l pt j' = false) as Hf.
  { apply Hnone. rewrite <- (sched_inv_len _ _ Hinv). by eapply lookup_lt_Some. }
  unfold ready_at, mlfq_ready in Hf. rewrite Hj', Ha', Hl', Z.eqb_refl in Hf. cbn in Hf. lia.
Qed.

(** *** Rounds of the MLFQ *)

(** How many slots the search visits before [j]. *)
Definition rr_dist (k j : nat) : nat := ((j + NPROC - k) mod NPROC)%nat.

Lemma rr_dist_slot k j : (k < NPROC)%nat -> (j < NPROC)%nat -> slot_after k (rr_dist k j) = j.
Proof.
  unfold slot_after, rr_dist, NPROC. intros Hk Hj. destruct (Nat.le_gt_cases k j).
  - replace (j + 64 - k)%nat with (j - k + 1 * 64)%nat by lia.
    rewrite Nat.Div0.mod_add, (Nat.mod_small (j - k)) by lia.
    rewrite Nat.mod_small; lia.
  - rewrite (Nat.mod_small (j + 64 - k)) by lia.
    replace (k + (j + 64 - k))%nat with (j + 1 * 64)%nat by lia.
    rewrite Nat.Div0.mod_add. by apply Nat.mod_small.
Qed.

(** A search that stops before [j] brings the next one closer to it. *)
Lemma rr_dist_next k j n :
  (k < NPROC)%nat -> (j < NPROC)%nat -> (n < rr_dist k j)%nat ->
  (rr_dist (next_slot (slot_after k n)) j < rr_dist k j)%nat.
Proof.
  intros Hk Hj Hn. pose proof (rr_dist_slot k j Hk Hj) as Hd.
  rewrite next_slot_after. revert Hd. unfold slot_after, rr_dist, NPROC in *.
  pose proof (Nat.mod_upper_bound (j + 64 - k) 64 ltac:(lia)).
  destruct (Nat.le_gt_cases k j).
  - assert ((j + 64 - k) mod 64 = j - k)%nat as Hjk.
    { replace (j + 64 - k)%nat with (j - k + 1 * 64)%nat by lia.
      rewrite Nat.Div0.mod_add. apply Nat.mod_small. lia. }
    rewrite Hjk in *. intros _. rewrite (Nat.mod_small (k + S n)) by lia.
    replace (j + 64 - (k + S n))%nat with (j - (k + S n) + 1 * 64)%nat by lia.
    rewrite Nat.Div0.mod_add, Nat.mod_small; lia.
  - rewrite (Nat.mod_small (j + 64 - k)) in * by lia. intros _.
    destruct (Nat.le_gt_cases 64 (k + S n)).
    + replace ((k + S n) mod 64)%nat with (k + S n - 64)%nat
        by (apply Nat.mod_unique with 1%nat; lia).
      replace (j + 64 - (k + S n - 64))%nat with (j + 64 - (k + S n) + 1 * 64)%nat by lia.
      rewrite Nat.Div0.mod_add, Nat.mod_small; lia.
    + rewrite (Nat.mod_small (k + S n)) by lia. rewrite Nat.mod_small; lia.
Qed.

Lemma top_level_unique pt l l' : top_level pt l -> top_level pt l' -> l = l'.
Proof.
  intros (Hr & Hp & Hu) (Hr' & Hp' & Hu').
  destruct (Z.lt_trichotomy l l') as [Hlt|[->|Hlt]]; [|done|].
  - pose proof (Hu l' ltac:(lia)). pose proof (Hp' ltac:(lia)). lia.
  - pose proof (Hu' l ltac:(lia)). pose proof (Hp ltac:(lia)). lia.
Qed.

(** With an empty stride queue a round takes [j] or comes closer to it. *)
Lemma choice_closer pt q k l j o i :
  sched_inv pt q -> (k < NPROC)%nat -> (j < NPROC)%nat -> stride_head q = None ->
  top_level pt l -> ready_at l pt j = true -> choice pt q k (o, i) ->
  o = Some j \/ (rr_dist i j < rr_dist k j)%nat /\ (i < NPROC)%nat.
Proof.
  intros Hinv Hk Hj Hh Hl Hr Hc. remember (o, i) as x. destruct Hc as [j' Hs _ _ _|l' n _ Hl' Hn Hr' Hf|l' _ Hl' Hf];
    simplify_eq.
  - destruct (so_list _ _ (proj2 Hinv)) as (ls & Hls & _ & Hin). rewrite Hh in Hls.
    apply Hin in Hs. destruct ls; [set_solver|by destruct Hls].
  - rewrite (top_level_unique _ _ _ Hl' Hl) in *. pose proof (rr_dist_slot k j Hk Hj) as Hd.
    destruct (Nat.lt_trichotomy n (rr_dist k j)) as [Hlt|[->|Hlt]].
    + right. split; [by apply rr_dist_next|]. unfold next_slot, NPROC.
      destruct (Nat.ltb_spec (slot_after k n) (64 - 1)); lia.
    + left. by rewrite Hd.
    + specialize (Hf _ Hlt). rewrite Hd in Hf. congruence.
  - rewrite (top_level_unique _ _ _ Hl' Hl) in *. by rewrite Hf in Hr.
Qed.


End thms.

(** ** A concrete CPU *)

Definition run_three : run unit := mkrun (three None three_procs three_queue) None 5 (fun _ => AtForkret).

Lemma three_solo : all_solo three_procs.
Proof.
  intros i p. destruct i as [|[|[|i]]]; cbn -[replicate]; try (intros [= <-] _; by split).
  intros [-> _]%lookup_replicate_1. done.
Qed.

Lemma run_three_ok : run_ok run_three.
Proof.
  split; [exists (who_one None); split; [apply view_one|done]| |unfold NPROC; cbn; lia|done].
  split; [apply three_inv|apply three_solo| |done].
  intros i p. destruct i as [|[|[|i]]]; cbn -[replicate]; try by intros [= <-].
  by intros [-> _]%lookup_replicate_1.
Qed.

(** The process of slot 1 runs, is interrupted by the clock, runs again,
    sleeps and is woken. *)
Lemma three_steps : exists r', rtc run_step run_three r' /\ cur r' = None.
Proof.
  eexists. split; [|shelve].
  eapply rtc_l; [eapply (run_one OpPick); [done|vm_compute; reflexivity]|].
  eapply rtc_l; [eapply (run_one OpTick); [done|vm_compute; reflexivity]|].
  eapply rtc_l; [eapply (run_one OpYield); [done|vm_compute; reflexivity]|].
  eapply rtc_l; [eapply (run_one OpPick); [done|vm_compute; reflexivity]|].
  eapply rtc_l; [eapply (run_one (OpSleep (ChAddr 8) 12)); [by split|vm_compute; reflexivity]|].
  eapply rtc_l; [eapply (run_one (OpWakeup (ChAddr 8))); [done|vm_compute; reflexivity]|].
  apply rtc_refl.
  Unshelve. done.
Qed.



(** What a round started at [i] in the state of [three] selects; the rounds
    start at 5 and then at 2. *)
Definition three_pick (i : nat) : option nat :=
  match scheduler_select i (three None three_procs three_queue) with
  | Ok ((o, _), _) => o
  | _ => None
  end.
Definition three_idx (n : nat) : nat := match n with 0 => 5 | _ => 2 end%nat.

