(* ===== verification/SchedShare.v ===== *)
(** * Shares of the CPU ([proc.c]: [set_cpu_share]) and the stride queue

    A process joins the stride queue, or changes its share; what goes wrong
    when the request is refused; and a CPU that idles although a stride
    process is runnable. *)
From stdpp Require Import base list gmap strings.
From Stdlib Require Import ZArith Lia.
From S2P Require Import Prelude Params Mmu Spinlock Proc Sched SchedInv SchedPick SchedThms.
#[local] Open Scope Z_scope.
#[local] Open Scope kernel_scope.

(** ** The invariant *)

Lemma slist_other pt h l i p' : slist pt h l -> i ∉ l -> slist (<[i := p']> pt) h l.
Proof.
  revert h. induction l as [|j l IH]; intros h; [done|].
  intros (-> & p & Hj & Hs) Hni. apply not_elem_of_cons in Hni as [Hne Hni]. split; [done|].
  exists p. rewrite list_lookup_insert_ne by done. auto.
Qed.

Lemma share_nonneg pt q : sched_inv pt q -> 0 <= stride_share q.
Proof.
  intros [_ [_ Hpos Hsum]]. assert (0 <= sumZ stride_weight pt); [|lia].
  apply sumZ_nonneg. intros i p Hi. unfold stride_weight.
  destruct (stride_proc p) eqn:Hs; [|done]. pose proof (Hpos _ _ Hi Hs). lia.
Qed.

Section join.
Context (pt : list proc) (q q' : mlfq) (i : nat) (p p' : proc) (sh : Z).
Context (Hinv : sched_inv pt q) (Hi : pt !! i = Some p) (Ha : active p = true).
Context (Ha' : active p' = true) (Hl' : level p' = STRIDE) (Hsh : share p' = sh).
Context (Hpos : 0 < sh) (Hcap : stride_share q + sh <= 80).
Context (Hshare : stride_share q' = stride_share q + sh).

Lemma stride_proc_new : stride_proc p' = true.
Proof. unfold stride_proc. by rewrite (active_live _ Ha'), Hl', Z.eqb_refl. Qed.

Lemma sumZ_share : sumZ stride_weight (<[i := p']> pt) <= stride_share q' <= 80.
Proof.
  pose proof (so_sum _ _ (proj2 Hinv)). rewrite (sumZ_insert _ _ _ p) by done.
  unfold stride_weight at 3. rewrite stride_proc_new, Hshare, Hsh.
  assert (0 <= stride_weight p); [|lia]. unfold stride_weight.
  destruct (stride_proc p) eqn:Hsp; [|done]. pose proof (so_share _ _ (proj2 Hinv) _ _ Hi Hsp). lia.
Qed.

Lemma share_positive : forall j pj, <[i := p']> pt !! j = Some pj -> stride_proc pj = true -> 0 < share pj.
Proof.
  intros j pj [(<- & <- & _)|[_ Hj]]%list_lookup_insert_Some Hs; [by rewrite Hsh|].
  by eapply so_share; [apply Hinv|..].
Qed.

(** A process of the MLFQ becomes the head of the stride list. *)
Lemma sched_inv_join :
  in_mlfq p = true -> s_link p' = stride_head q -> stride_head q' = Some i ->
  qlevels q' = qlevels (bump (level p) (-1) q) ->
  mlfq_proc_cnt q' = mlfq_proc_cnt (bump (level p) (-1) q) ->
  sched_inv (<[i := p']> pt) q'.
Proof.
  intros Hm Hlink Hh Hq Hc. pose proof (active_live _ Ha) as Hlive.
  pose proof (in_mlfq_level _ (sched_inv_level _ _ _ _ Hinv Hi Hlive) Hm) as Hl.
  assert (stride_proc p = false) as Hns.
  { unfold stride_proc, in_mlfq in *. destruct (level p =? STRIDE); [done|]. apply andb_false_r. }
  assert (i < length pt)%nat by by eapply lookup_lt_Some.
  split; [|split; [|apply share_positive|apply sumZ_share]].
  - apply (counts_ok_update _ q _ _ p); [by apply Hinv|done|by right|..].
    + intros l n Hl3 Hn Hr. rewrite Hq. unfold bump, setter, at_level; cbn. rewrite Ha, Ha', Hl'.
      replace (STRIDE =? l) with false by (unfold STRIDE; lia).
      destruct (Z.eqb_spec (level p) l) as [->|Hne]; cbn.
      * rewrite list_lookup_alter_eq, Hn. cbn. f_equal. rewrite i32_small; lia.
      * rewrite list_lookup_alter_ne by lia. rewrite Hn. f_equal. lia.
    + intros Hr. rewrite Hc. unfold bump, setter, mlfq_member; cbn [mlfq_proc_cnt].
      rewrite Ha, Ha', Hm. unfold in_mlfq. rewrite Hl'. rewrite Z.eqb_refl. cbn. rewrite i32_small; lia.
  - destruct (so_list _ _ (proj2 Hinv)) as (l & Hs & Hnd & Hin).
    assert (i ∉ l) as Hni. { intros (p0 & Hp0 & Hs0)%Hin. congruence. }
    exists (i :: l). split; [|split; [by constructor|]].
    + split; [done|]. exists p'. rewrite list_lookup_insert_eq by done. split; [done|].
      rewrite Hlink. by apply slist_other.
    + intros j. rewrite elem_of_cons, Hin. destruct (decide (i = j)) as [<-|Hne].
      * rewrite list_lookup_insert_eq by done. split; [|by left]. intros _. exists p'.
        split; [done|apply stride_proc_new].
      * rewrite list_lookup_insert_ne by done. split; [intros [->|?]; done|by right].
Qed.

(** A process of the stride queue changes its share. *)
Lemma sched_inv_reshare :
  level p = STRIDE -> s_link p' = s_link p -> stride_head q' = stride_head q ->
  qlevels q' = qlevels q -> mlfq_proc_cnt q' = mlfq_proc_cnt q ->
  sched_inv (<[i := p']> pt) q'.
Proof.
  intros Hl Hlink Hh Hq Hc. assert (i < length pt)%nat by by eapply lookup_lt_Some.
  split; [|split; [|apply share_positive|apply sumZ_share]].
  - apply (counts_ok_update _ q _ _ p); [by apply Hinv|done|by right|..].
    + intros l n _ Hn _. rewrite Hq, Hn. unfold at_level. rewrite Ha, Ha', Hl, Hl'. f_equal. lia.
    + intros _. rewrite Hc. unfold mlfq_member, in_mlfq. rewrite Ha, Ha', Hl, Hl'. lia.
  - destruct (so_list _ _ (proj2 Hinv)) as (l & Hs & Hnd & Hin). exists l. rewrite Hh.
    split; [apply slist_update; [done|]; intros; congruence|]. split; [done|]. intros j. rewrite Hin.
    destruct (decide (i = j)) as [<-|Hne]; [|by rewrite list_lookup_insert_ne].
    rewrite list_lookup_insert_eq by done. split; intros _.
    + exists p'. split; [done|apply stride_proc_new].
    + exists p. split; [done|]. unfold stride_proc. by rewrite (active_live _ Ha), Hl, Z.eqb_refl.
Qed.
End join.

(** ** [set_cpu_share] *)

Definition with_share (sh : Z) (p : proc) : proc :=
  p <| share := sh |> <| stride := stride_of sh |> <| level := STRIDE |> <| timequant := 5 |>.

(** The process after a successful call: a new member is linked in front. *)
Definition shared (q : mlfq) (sh : Z) (p : proc) : proc :=
  with_share sh (if in_mlfq p then p <| s_link := stride_head q |> else p).

Section ops.
Context {E : Type} (X : stop -> Prop).
Context (np : Z) (ip : option nat) (tk : Z) (fi : bool) (kp : Z) (e : E).
Abbreviation st m pt q := (mkk m pt q np ip tk fi kp e).
Implicit Types (m : machine) (pt : list proc) (q : mlfq) (w : who) (p : proc).

Lemma stride_member_run pt q m h l id :
  slist pt h l -> NoDup l -> length pt = NPROC ->
  exists b, stride_member id h (st m pt q) = Ok (b, st m pt q) /\
    (b = true <-> exists j p, j ∈ l /\ pt !! j = Some p /\ pid p = id).
Proof.
  intros Hs Hnd Hlen. pose proof (slist_length _ _ _ Hs Hnd) as Hl. rewrite Hlen in Hl.
  unfold stride_member. clear Hnd Hlen. revert h Hs Hl. generalize NPROC as n.
  induction l as [|j l IH]; intros n h Hs Hl.
  { cbn in Hs. subst h. exists false. split; [by apply loop_inr|]. split; [done|].
    intros (j & p & Hj & _). set_solver. }
  destruct Hs as (-> & p & Hj & Hs). cbn in Hl. destruct n as [|n]; [lia|].
  destruct (Z.eqb_spec (pid p) id) as [Hid|Hid].
  - exists true. split.
    + apply loop_inr. rewrite (bind_ok _ _ _ _ _ (proc_at_run _ _ _ _ _ _ _ _ _ _ _ Hj)).
      by rewrite (proj2 (Z.eqb_eq _ _) Hid).
    + split; [|done]. intros _. exists j, p. set_solver.
  - destruct (IH n _ Hs ltac:(lia)) as (b & Hb & Hiff). exists b. split.
    + rewrite (loop_inl _ _ _ (s_link p) _ (st m pt q)); [done|].
      rewrite (bind_ok _ _ _ _ _ (proc_at_run _ _ _ _ _ _ _ _ _ _ _ Hj)).
      by rewrite (proj2 (Z.eqb_neq _ _) Hid).
    + rewrite Hiff. split; intros (j' & p' & Hj' & Hp' & Hid'); exists j', p'.
      * set_solver.
      * apply elem_of_cons in Hj' as [->|Hj']; [congruence|done].
Qed.

(** A request that is not positive, or beyond 80 percent, is refused. *)
Definition refused (q : mlfq) (sh : Z) : bool := (sh <=? 0) || (80 <? i32 (stride_share q + sh)).

Lemma wp_set_cpu_share_refused pt q m w sh (Q : Z -> kstate E -> Prop) :
  view m [] w -> refused q sh = true ->
  (forall m', view m' [mlfqstr_lock; ptable_lock] w -> Q (-1) (st m' pt q)) ->
  wp (set_cpu_share sh) X Q (st m pt q).
Proof.
  intros Hv Hr HQ. unfold set_cpu_share, refused in *. do 4 kstep.
  destruct (sh <=? 0); [kstep; by apply HQ|]. cbn in Hr. ksteps. rewrite Hr. kstep. by apply HQ.
Qed.

(** [mlfqstr] once the share is counted. *)
Definition share_queue (sh : Z) (q : mlfq) : mlfq :=
  let q := q <| stride_share ::= fun n => i32 (n + sh) |> in
  q <| mlfq_stride := u32 (stride_of (i32 (100 - stride_share q))) |>.

Lemma wp_share_tail pt q m w i p sh (Q : Z -> kstate E -> Prop) :
  view m [mlfqstr_lock; ptable_lock] w -> pt !! i = Some p -> i32 (stride_share q + sh) <> 100 ->
  (forall m', view m' [] w -> Q 0 (st m' (<[i := with_share sh p]> pt) (share_queue sh q))) ->
  wp (upd_mlfq (fun q => q <| stride_share ::= fun n => i32 (n + sh) |>) ;;;
      upd_proc i (fun p => p <| share := sh |> <| stride := stride_of sh |>
                             <| level := STRIDE |> <| timequant := 5 |>) ;;;
      set_mlfq_stride ;;;
      release_k ptable_lock ;;;
      release_k mlfqstr_lock ;;;
      ret 0) X Q (st m pt q).
Proof.
  intros Hv Hi Hne HQ. do 4 kstep. kstep. unfold set_mlfq_stride. do 2 kstep.
  change (stride_share (setter stride_share _ q)) with (i32 (stride_share q + sh)).
  destruct (Z.eqb_spec (100 - i32 (stride_share q + sh)) 0); [lia|]. ksteps. by apply HQ.
Qed.

(** [mlfqrm] of a member of the MLFQ, under its lock. *)
Lemma wp_mlfqrm pt q m i p (Q : unit -> kstate E -> Prop) :
  sched_inv pt q -> pt !! i = Some p -> active p = true -> in_mlfq p = true ->
  Q tt (st m pt (bump (level p) (-1) q)) -> wp (mlfqrm i) X Q (st m pt q).
Proof.
  intros Hinv Hi Ha Hm HQ.
  pose proof (in_mlfq_level _ (sched_inv_level _ _ _ _ Hinv Hi (active_live _ Ha)) Hm).
  destruct (sched_inv_levels _ _ Hinv (level p)) as [n Hn]; [lia|].
  by eapply (wp_mlfq_bump _ _ _ _ _ _ _ _ _ _ _ _ (-1)).
Qed.

Definition distinct_pid pt (i : nat) p : Prop :=
  forall j pj, pt !! j = Some pj -> live pj = true -> pid pj = pid p -> j = i.

Lemma stride_or_mlfq p : active p = true -> stride_proc p = negb (in_mlfq p).
Proof.
  intros Ha. unfold stride_proc, in_mlfq. rewrite (active_live _ Ha). by destruct (level p =? STRIDE).
Qed.

Lemma with_share_inv pt q q1 i p p1 sh :
  sched_inv pt q -> pt !! i = Some p -> active p = true -> state p1 = state p ->
  0 < sh -> stride_share q + sh <= 80 ->
  stride_share q1 = stride_share q ->
  (if in_mlfq p then
     s_link p1 = stride_head q /\ stride_head q1 = Some i /\
     qlevels q1 = qlevels (bump (level p) (-1) q) /\
     mlfq_proc_cnt q1 = mlfq_proc_cnt (bump (level p) (-1) q)
   else p1 = p /\ q1 = q) ->
  sched_inv (<[i := with_share sh p1]> pt) (share_queue sh q1).
Proof.
  intros Hinv Hi Ha Hst Hsh Hcap Hs Hc. pose proof (share_nonneg _ _ Hinv).
  assert (stride_share (share_queue sh q1) = stride_share q + sh) as Hs'.
  { unfold share_queue, setter; cbn. rewrite Hs. apply i32_small. lia. }
  assert (active (with_share sh p1) = true) as Ha'.
  { unfold active in *. unfold with_share, setter; cbn. by rewrite Hst. }
  destruct (in_mlfq p) eqn:Hm.
  - destruct Hc as (Hlink & Hh & Hq & Hc). by eapply (sched_inv_join _ q _ i p _ sh).
  - destruct Hc as [-> ->]. eapply (sched_inv_reshare _ q _ i p _ sh); try done.
    unfold in_mlfq in Hm. lia.
Qed.

(** The process joins the stride list, unless it is a member. *)
Lemma wp_share_join pt q m i p sh (Q : unit -> kstate E -> Prop) :
  sched_inv pt q -> pt !! i = Some p -> active p = true ->
  distinct_pid pt i p -> (in_mlfq p = true -> s_link p = None) ->
  0 < sh -> stride_share q + sh <= 80 ->
  (forall p1 q1, with_share sh p1 = shared q sh p -> stride_share q1 = stride_share q ->
     sched_inv (<[i := shared q sh p]> pt) (share_queue sh q1) ->
     Q tt (st m (<[i := p1]> pt) q1)) ->
  wp match stride_head q with
     | None => mlfqrm i ;;; upd_mlfq (fun q => q <| stride_head := Some i |>)
     | Some _ =>
         p <~ proc_at i;
         found <~ stride_member (pid p) (stride_head q);
         if found : bool then ret tt else mlfqrm i ;;; strideadd i
     end X Q (st m pt q).
Proof.
  intros Hinv Hi Ha Hpid Hlink Hsh Hcap HQ.
  destruct (so_list _ _ (proj2 Hinv)) as (l & Hl & Hnd & Hin).
  pose proof (stride_or_mlfq p Ha) as Hsm.
  assert (in_mlfq p = true <-> i ∉ l) as Hmem.
  { rewrite Hin. destruct (in_mlfq p); split; try done.
    - intros _ (p' & ? & Hs'). simplify_eq. by rewrite Hsm in Hs'.
    - intros []. exists p. by rewrite Hsm. }
  set (q1 := (bump (level p) (-1) q) <| stride_head := Some i |>).
  set (p1 := p <| s_link := stride_head q |>).
  pose proof (with_share_inv _ _ q1 i p p1 sh Hinv Hi Ha eq_refl Hsh Hcap eq_refl) as Hjoin.
  subst q1 p1.
  unfold shared in HQ. destruct (stride_head q) as [h|] eqn:Hh.
  - destruct (stride_member_run _ q m _ _ (pid p) Hl Hnd (sched_inv_len _ _ Hinv)) as (b & Hb & Hiff).
    do 3 kstep. unfold wp at 1. rewrite Hb. destruct b.
    + destruct Hiff as [(j & pj & Hj & Hpj & Hid) _]; [done|].
      assert (j = i) as ->. { apply Hin in Hj as (p' & ? & [? _]%andb_prop). simplify_eq. by eapply Hpid. }
      destruct (in_mlfq p) eqn:Hm; [by destruct Hmem as [[] _]|]. kstep.
      rewrite <- (list_insert_id pt i p) at 1 by done. apply HQ; [done..|].
      eapply (with_share_inv _ q q _ p); try done. by rewrite Hm.
    + assert (in_mlfq p = true) as Hm. { apply Hmem. intros Hil. destruct Hiff as [_ Hiff].
        discriminate Hiff. by exists i, p. }
      rewrite Hm in HQ, Hjoin. kstep. eapply wp_mlfqrm; [done..|]. unfold strideadd. ksteps.
      change (stride_head (bump (level p) (-1) q)) with (stride_head q). rewrite Hh.
      apply HQ; [done..|]. by apply Hjoin.
  - assert (in_mlfq p = true) as Hm. { apply Hmem. destruct l; [set_solver|by destruct Hl]. }
    rewrite Hm in HQ, Hjoin. kstep. eapply wp_mlfqrm; [done..|]. kstep.
    rewrite <- (list_insert_id pt i p) at 1 by done.
    assert (p <| s_link := None |> = p) as Hp.
    { pose proof (Hlink Hm) as Hnone. clear - Hnone. destruct p; unfold setter; cbn in *. by subst. }
    rewrite Hp in *. apply HQ; [done..|]. apply Hjoin. by split; [apply Hlink|].
Qed.

Lemma wp_set_cpu_share pt q m w i p sh (Q : Z -> kstate E -> Prop) :
  view m [] w -> w_proc w = Some i -> sched_inv pt q -> pt !! i = Some p -> active p = true ->
  distinct_pid pt i p -> (in_mlfq p = true -> s_link p = None) ->
  0 < sh -> stride_share q + sh <= 80 ->
  (forall m' q', view m' [] w -> sched_inv (<[i := shared q sh p]> pt) q' ->
     stride_share q' = stride_share q + sh ->
     mlfq_stride q' = u32 (stride_of (100 - stride_share q')) ->
     Q 0 (st m' (<[i := shared q sh p]> pt) q')) ->
  wp (set_cpu_share sh) X Q (st m pt q).
Proof.
  intros Hv Hw Hinv Hi Ha Hpid Hlink Hsh Hcap HQ. pose proof (share_nonneg _ _ Hinv). unfold set_cpu_share. ksteps.
  destruct (Z.leb_spec sh 0); [lia|]. ksteps.
  assert (Hsum : i32 (stride_share q + sh) = stride_share q + sh) by (apply i32_small; lia).
  rewrite Hsum. destruct (Z.ltb_spec 80 (stride_share q + sh)); [lia|].
  kstep. eapply wp_curproc; [done..|]. intros m3 Hv3.
  kstep. eapply wp_share_join; [done..|]. intros p1 q1 Hp1 Hq1 Hinv1.
  eapply wp_share_tail; [done|by apply list_lookup_insert_eq; eapply lookup_lt_Some|rewrite Hq1; lia|].
  intros m4 Hv4. rewrite list_insert_insert_eq, Hp1. apply HQ; [done|done|..].
  - unfold share_queue, setter; cbn. by rewrite Hq1.
  - unfold share_queue, setter; cbn. rewrite Hq1, Hsum, i32_small by lia. done.
Qed.
End ops.

Section thms.
Context {E : Type}.
Implicit Types (s : kstate E) (w : who) (p : proc).



(** When the MLFQ is empty, the search of the stride list starts from the
    pass of its head, runnable or not: with the head asleep, a round leaves
    the CPU idle although stride processes are runnable, if their passes are
    larger. *)
Theorem stride_head_starves s w idx h ph :
  view (mach s) [] w -> sched_inv (ptable s) (mlfqstr s) -> (idx < NPROC)%nat ->
  mlfq_proc_cnt (mlfqstr s) = 0 -> stride_head (mlfqstr s) = Some h ->
  ptable s !! h = Some ph -> state ph = SLEEPING ->
  (forall j p, ptable s !! j = Some p -> state p = RUNNABLE -> u32 (pass ph) < u32 (pass p)) ->
  wp (scheduler_select idx) never
    (fun r s' => r = (None, idx) /\ ptable s' = ptable s /\ mlfqstr s' = mlfqstr s) s.
Proof.
  intros Hv Hinv Hidx Hcnt Hh Hph Hsl Hpass. destruct s as [m pt q np ip tk fi kp e]. cbn in *.
  eapply wp_scheduler_select; [done..|]. intros m' r Hch _. split; [|done].
  assert (threshold pt q = u32 (pass ph)) as Hth.
  { unfold threshold, pass_at. by rewrite Hcnt, Hh, Hph. }
  destruct Hch as [j _ (p & Hp & Hr) Hle _|l k _ Hl Hk Hready _|]; [| |done].
  - unfold pass_at in Hle. rewrite Hp, Hth in Hle. pose proof (Hpass _ _ Hp Hr). lia.
  - unfold ready_at in Hready. destruct (pt !! slot_after idx k) as [p|] eqn:Hp; [|done].
    unfold mlfq_ready in Hready. apply andb_prop in Hready as [[Hr Hlev]%andb_prop _].
    assert (0 < countb mlfq_member pt) as Hc; [|rewrite <- (co_total _ _ (proj1 Hinv)) in Hc; lia].
    apply countb_pos. exists (slot_after idx k), p. split; [done|].
    unfold mlfq_member, active, in_mlfq. rewrite Hr. destruct Hl as [Hl _]. unfold STRIDE. cbn. lia.
Qed.
End thms.

(** ** Concrete tables *)

Lemma three_distinct : distinct_pid three_procs 1 (a_proc 1 2 RUNNABLE 1).
Proof.
  intros j pj. destruct j as [|[|[|j]]]; cbn -[replicate]; try by intros [= <-].
  by intros [-> _]%lookup_replicate_1.
Qed.



(** Two stride processes: the head sleeps with pass 0, the other is runnable
    with pass 100. *)
Definition s_proc (i : nat) (id : Z) (s : procstate) (ps : Z) (next : option nat) : proc :=
  (a_proc i id s STRIDE) <| share := 10 |> <| stride := stride_of 10 |> <| pass := ps |>
    <| s_link := next |>.
Definition stride_procs : list proc :=
  table_of [s_proc 0 1 SLEEPING 0 (Some 1%nat); s_proc 1 2 RUNNABLE 100 None].
Definition stride_queue : mlfq :=
  mkmlfq 0 0 (stride_of 80) 0 20 (Some 0%nat) [0; 0; 0] (replicate NPROC None).

Lemma stride_cases i p :
  stride_procs !! i = Some p ->
  i = 0%nat /\ p = s_proc 0 1 SLEEPING 0 (Some 1%nat) \/ i = 1%nat /\ p = s_proc 1 2 RUNNABLE 100 None \/
  (2 <= i)%nat /\ p = proc0.
Proof.
  destruct i as [|[|i]]; cbn -[replicate]; [by intros [= <-]; left|by intros [= <-]; right; left|].
  intros [-> _]%lookup_replicate_1. right. right. split; [lia|done].
Qed.

Lemma stride_inv : sched_inv stride_procs stride_queue.
Proof.
  split; split.
  - done.
  - intros l Hl. assert (l = 0 \/ l = 1 \/ l = 2) as [->|[->| ->]] by lia; by vm_compute.
  - by vm_compute.
  - intros i p [[_ ->]|[[_ ->]|[_ ->]]]%stride_cases; [by right..|done].
  - exists [0; 1]%nat. split; [|split].
    + split; [done|]. eexists. split; [done|]. split; [done|]. by eexists.
    + repeat constructor; set_solver.
    + intros i. split.
      * intros [->|[->|[]%not_elem_of_nil]%elem_of_cons]%elem_of_cons; by eexists.
      * intros (p & [[-> _]|[[-> _]|[_ ->]]]%stride_cases & Hs); [set_solver..|done].
  - intros i p [[_ ->]|[[_ ->]|[_ ->]]]%stride_cases; done.
  - by vm_compute.
Qed.

Lemma stride_head_starves_witness :
  runnable_at stride_procs 1 /\
  wp (scheduler_select 0) never
    (fun r s' => r = (None, 0%nat) /\ ptable s' = stride_procs /\ mlfqstr s' = stride_queue)
    (three None stride_procs stride_queue).
Proof.
  split; [by eexists|].
  apply (stride_head_starves (three None stride_procs stride_queue) (who_one None) 0 0
    (s_proc 0 1 SLEEPING 0 (Some 1%nat))).
  - apply view_one.
  - apply stride_inv.
  - by apply Nat.ltb_lt.
  - reflexivity.
  - reflexivity.
  - reflexivity.
  - reflexivity.
  - intros j p [[_ ->]|[[_ ->]|[_ ->]]]%stride_cases Hr; done.
Defined.
