(* ===== verification/Kern.v ===== *)
(** * What the rest of the kernel asks of processes and locks

    The file system, the file table and the pipes use the process code
    through a few calls: [acquire], [release], [wakeup], [sleep],
    [myproc()->pid], [myproc()->cwd] and
    [myproc()->killed].  [KernOps S T] are these calls on a
    kernel state [S] of which [T] is the client's part, [KernLaws] what a
    client may rely on when it runs in a process that nobody interferes with.
    The process model of [Proc] is an instance. *)
From Stdlib Require Import ZArith Lia.
From stdpp Require Import base list gmap strings.
From S2P Require Import Prelude Params Spinlock Proc Sched SchedInv.
#[local] Open Scope Z_scope.
#[local] Open Scope kernel_scope.

Class KernOps (S T : Type) := {
  part : S -> T;
  set_part : T -> S -> S;
  k_initlock : Z -> string -> M S unit;
  k_acquire : Z -> M S unit;
  k_release : Z -> M S unit;
  k_wakeup : chan -> M S unit;
  k_sleep : chan -> Z -> M S unit;
  k_pid : M S Z;
  k_cwd : M S (option nat);
  k_killed : M S bool
}.

Section client.
Context {S T : Type} `{KernOps S T}.

(** Code of the client on its own part. *)
Definition own {A} (c : M T A) : M S A := zoom part set_part c.
Definition k_get : M S T := gets part.
Definition k_mod (f : T -> T) : M S unit := own (modify f).

(** [while(test) sleep(c, lk);].  The bound counts the sleeps. *)
Definition sleep_while (test : M S bool) (c : chan) (lk : Z) : M S unit :=
  loop NPROC (fun _ : unit =>
    b <~ test;
    if b : bool then k_sleep c lk ;;; ret (inl tt) else ret (inr tt)) tt.

Lemma wp_sleep_while test c lk X (Q : unit -> S -> Prop) s :
  wp test X (fun b s' => b = false /\ Q tt s') s -> wp (sleep_while test c lk) X Q s.
Proof.
  intros Ht. unfold sleep_while. replace NPROC with (Datatypes.S (NPROC - 1)) by (unfold NPROC; lia).
  cbn [loop]. apply wp_bind. apply wp_bind. eapply wp_mono; [exact Ht|]. intros b s' [-> HQ].
  by do 2 apply wp_ret.
Qed.
End client.

(** Locks of [proc.c], which [wakeup] takes. *)
Definition no_proc_locks (L : list Z) : Prop := (ptable_lock ∉ L) /\ (mlfqstr_lock ∉ L).

Class KernLaws (S T : Type) `{KernOps S T} := {
  kctx : S -> list Z -> Prop;
  my_pid : Z;
  part_set : forall s t, part (set_part t s) = t;
  kctx_set : forall s L t, kctx s L -> kctx (set_part t s) L;
  wp_k_initlock : forall s lk nm X (Q : unit -> S -> Prop),
    kctx s [] ->
    (forall s', kctx s' [] -> part s' = part s -> Q tt s') -> wp (k_initlock lk nm) X Q s;
  wp_k_acquire : forall s L lk X (Q : unit -> S -> Prop),
    kctx s L -> lk ∉ L ->
    (forall s', kctx s' (lk :: L) -> part s' = part s -> Q tt s') -> wp (k_acquire lk) X Q s;
  wp_k_release : forall s L1 L2 lk X (Q : unit -> S -> Prop),
    kctx s (L1 ++ lk :: L2) ->
    (forall s', kctx s' (L1 ++ L2) -> part s' = part s -> Q tt s') -> wp (k_release lk) X Q s;
  wp_k_wakeup : forall s L c X (Q : unit -> S -> Prop),
    kctx s L -> no_proc_locks L ->
    (forall s', kctx s' L -> part s' = part s -> Q tt s') -> wp (k_wakeup c) X Q s;
  wp_k_pid : forall s L X (Q : Z -> S -> Prop),
    kctx s L -> (forall s', kctx s' L -> part s' = part s -> Q my_pid s') -> wp k_pid X Q s
}.

(** ** The instance: the kernel of [Proc] *)

Section instance.
Context {E : Type}.

#[export] Instance kern_ops : KernOps (kstate E) E := {
  part := env;
  set_part e s := s <| env := e |>;
  k_initlock lk nm := on_mach (initlock lk nm);
  k_acquire := acquire_k;
  k_release := release_k;
  k_wakeup := wakeup;
  k_sleep c lk := sleep_mark c lk ;;; stop_with Asleep;
  k_pid := i <~ curproc; p <~ proc_at i; ret (pid p);
  k_cwd := i <~ curproc; p <~ proc_at i; ret (cwd p);
  k_killed := i <~ curproc; p <~ proc_at i; ret (negb (killed p =? 0))
}.
End instance.

(** The tables after some sleepers were woken. *)
Definition woken (p p' : proc) : Prop :=
  p' = p \/ (state p = SLEEPING /\ p' = p <| state := RUNNABLE |>).

Lemma woken_trans p1 p2 p3 : woken p1 p2 -> woken p2 p3 -> woken p1 p3.
Proof.
  unfold woken. intros [->|[Hs ->]] [->|[Hs' ->]]; auto.
Qed.

Lemma wake_woken c p : woken p (wake c p).
Proof.
  unfold wake. destruct (sleeps_on c p) eqn:Hc; [|by left].
  right. split; [by eapply sleeps_on_state|done].
Qed.

Lemma view_initlock w m lk l : locked l = 0 -> view m [] w -> view (m <| locks ::= <[lk := l]> |>) [] w.
Proof.
  intros Hl (c & H & Hn & Hc & Hnd & Hi' & Hin & Hout & Hcs). exists c.
  split; [by apply on_cpu_locks|]. do 4 (split; [done|]). split; [set_solver|]. split; [|done].
  intros lk' _. rewrite lock_at_set. case_decide; [done|]. apply Hout. set_solver.
Qed.

(** The context of the running process [i], whose record is [p]: the records
    of the others are those of [pt0], some of them woken. *)
Section laws.
Context {E : Type} (w : who) (i : nat) (p : proc) (pt0 : list proc).
Context (np : Z) (ip : option nat) (tk : Z) (fi : bool) (kp : Z).
Context (Hw : w_proc w = Some i) (Hi : pt0 !! i = Some p) (Hp : state p <> SLEEPING).

Definition proc_ctx (s : kstate E) (L : list Z) : Prop :=
  exists m pt q e, s = mkk m pt q np ip tk fi kp e /\ view m L w /\ sched_inv pt q /\
    Forall2 woken pt0 pt.

Lemma proc_ctx_self s L : proc_ctx s L -> ptable s !! i = Some p.
Proof using Hi Hp.
  intros (m & pt & q & e & -> & _ & _ & Hpt). cbn.
  destruct (Forall2_lookup_l _ _ _ _ _ Hpt Hi) as (p' & Hp' & [->|[Hs _]]); done.
Qed.

Lemma Forall2_wake c pt : Forall2 woken pt0 pt -> Forall2 woken pt0 (wake c <$> pt).
Proof.
  intros H. apply Forall2_fmap_r. eapply Forall2_impl; [done|]. cbn. intros p1 p2 H12.
  eapply woken_trans; [done|apply wake_woken].
Qed.

Definition proc_laws : KernLaws (kstate E) E.
Proof using Hi Hp Hw p pt0 np ip tk fi kp.
  refine {| kctx := proc_ctx; my_pid := pid p |}.
  - done.
  - intros s L t (m & pt & q & e & -> & Hv & Hinv & Hpt). by exists m, pt, q, t.
  - intros s lk nm X Q (m & pt & q & e & -> & Hv & Hinv & Hpt) HQ. apply wp_on_mach. cbn.
    apply HQ; [|done]. eexists _, pt, q, e. split; [done|]. split; [by apply view_initlock|done].
  - intros s L lk X Q (m & pt & q & e & -> & Hv & Hinv & Hpt) Hlk HQ.
    eapply wp_acquire_k; [done|done|]. intros m' Hv'. apply HQ; [|done]. by exists m', pt, q, e.
  - intros s L1 L2 lk X Q (m & pt & q & e & -> & Hv & Hinv & Hpt) HQ.
    eapply wp_release_k; [done|]. intros m' Hv'. apply HQ; [|done]. by exists m', pt, q, e.
  - intros s L c X Q (m & pt & q & e & -> & Hv & Hinv & Hpt) [HL1 HL2] HQ.
    eapply wp_wakeup; [done..|]. intros m' q' Hv' Hinv' _. apply HQ; [|done].
    exists m', (wake c <$> pt), q', e. do 3 (split; [done|]). by apply Forall2_wake.
  - intros s L X Q Hc HQ. pose proof (proc_ctx_self _ _ Hc) as Hself.
    destruct Hc as (m & pt & q & e & -> & Hv & Hinv & Hpt). cbn in Hself.
    cbn. kstep. eapply wp_curproc; [done..|]. intros m' Hv'. ksteps. apply HQ; [|done].
    by exists m', pt, q, e.
Defined.
End laws.

(** ** Parts of a client's state

    [Sub E T]: [T] is a part of [E].  The calls on [E] are calls on [T] that
    leave the rest alone. *)
Class Sub (E T : Type) := {
  sub_get : E -> T;
  sub_set : T -> E -> E;
  sub_get_set : forall t e, sub_get (sub_set t e) = t;
  sub_set_get : forall e, sub_set (sub_get e) e = e;
  sub_set_set : forall t t' e, sub_set t (sub_set t' e) = sub_set t e
}.

#[export] Instance sub_ops {S E T} `{Sub E T} `{KernOps S E} : KernOps S T | 10 := {
  part s := sub_get (part s);
  set_part t s := set_part (sub_set t (part s)) s;
  k_initlock := k_initlock (T := E);
  k_acquire := k_acquire (T := E);
  k_release := k_release (T := E);
  k_wakeup := k_wakeup (T := E);
  k_sleep := k_sleep (T := E);
  k_pid := k_pid (T := E);
  k_cwd := k_cwd (T := E);
  k_killed := k_killed (T := E)
}.

(** What [E] guarantees, [T] may rely on; the rest of the state stays what it
    is in [e0]. *)
Section sub_laws.
Context {S E T : Type} `{KernLaws S E} `{Sub E T} (e0 : E).

Definition sub_ctx (s : S) (L : list Z) : Prop :=
  kctx (T := E) s L /\ exists t, part s = sub_set t e0.

Lemma sub_ctx_same s s' L L' : sub_ctx s L -> kctx (T := E) s' L' -> part (T := E) s' = part s -> sub_ctx s' L'.
Proof. intros [_ [t Ht]] Hc Hp. split; [done|]. exists t. by rewrite Hp. Qed.

Definition sub_laws : KernLaws S T.
Proof using Type*.
  refine {| kctx := sub_ctx; my_pid := my_pid (S := S) (T := E) |}.
  - intros s t. cbn. by rewrite (part_set (T := E)), sub_get_set.
  - intros s L t [Hc [t0 Ht]]. split; [by apply (kctx_set (T := E))|]. exists t. cbn.
    by rewrite (part_set (T := E)), Ht, sub_set_set.
  - intros s lk nm X Q Hc HQ. eapply (wp_k_initlock (T := E)); [apply Hc|]. intros s' Hc' Hp.
    apply HQ; [by eapply sub_ctx_same|cbn; by rewrite Hp].
  - intros s L lk X Q Hc Hlk HQ. eapply (wp_k_acquire (T := E)); [apply Hc|done|]. intros s' Hc' Hp.
    apply HQ; [by eapply sub_ctx_same|cbn; by rewrite Hp].
  - intros s L1 L2 lk X Q Hc HQ. eapply (wp_k_release (T := E)); [apply Hc|]. intros s' Hc' Hp.
    apply HQ; [by eapply sub_ctx_same|cbn; by rewrite Hp].
  - intros s L c X Q Hc HL HQ. eapply (wp_k_wakeup (T := E)); [apply Hc|done|]. intros s' Hc' Hp.
    apply HQ; [by eapply sub_ctx_same|cbn; by rewrite Hp].
  - intros s L X Q Hc HQ. eapply (wp_k_pid (T := E)); [apply Hc|]. intros s' Hc' Hp.
    apply HQ; [by eapply sub_ctx_same|cbn; by rewrite Hp].
Defined.
End sub_laws.
