(* ===== verification/Sleeplock.v ===== *)
(** * Sleep locks ([sleeplock.c])

    A sleep lock is a word and the pid of its holder, protected by a spin
    lock at [sl_addr].  It lives inside another object (a buffer, an inode);
    [slref] says where. *)
From Stdlib Require Import ZArith Lia.
From stdpp Require Import base list gmap strings.
From S2P Require Import Prelude Params Spinlock Proc Sched SchedInv Kern.
#[local] Open Scope Z_scope.
#[local] Open Scope kernel_scope.

(** [struct sleeplock] without its spin lock and its name. *)
Record sleeplock := mksl { sl_locked : Z; sl_pid : Z }.
#[export] Instance eta_sleeplock : Eta sleeplock := fun l => mksl (sl_locked l) (sl_pid l).
Definition sl_free : sleeplock := mksl 0 0.

Record slref (T : Type) := mkslref {
  sl_addr : Z;
  sl_get : T -> sleeplock;
  sl_set : sleeplock -> T -> T
}.
Arguments mkslref {T}.
Arguments sl_addr {T}. Arguments sl_get {T}. Arguments sl_set {T}.

Section ops.
Context {S T : Type} `{KernOps S T}.

Definition initsleeplock (r : slref T) : M S unit :=
  k_initlock (sl_addr r) "sleep lock" ;;;
  k_mod (sl_set r sl_free).

Definition acquiresleep (r : slref T) : M S unit :=
  k_acquire (sl_addr r) ;;;
  sleep_while (t <~ k_get; ret (negb (sl_locked (sl_get r t) =? 0)))
    (ChAddr (sl_addr r)) (sl_addr r) ;;;
  id <~ k_pid;
  k_mod (sl_set r (mksl 1 id)) ;;;
  k_release (sl_addr r).

Definition releasesleep (r : slref T) : M S unit :=
  k_acquire (sl_addr r) ;;;
  k_mod (sl_set r (mksl 0 0)) ;;;
  k_wakeup (ChAddr (sl_addr r)) ;;;
  k_release (sl_addr r).

Definition holdingsleep (r : slref T) : M S bool :=
  k_acquire (sl_addr r) ;;;
  t <~ k_get;
  id <~ k_pid;
  let h := negb (sl_locked (sl_get r t) =? 0) && (sl_pid (sl_get r t) =? id) in
  k_release (sl_addr r) ;;;
  ret h.
End ops.

(** [at_ s L t]: a process runs, holds the spin locks [L], and the client's
    part of the state is [t]. *)
Definition at_ {S T} `{KernLaws S T} (s : S) (L : list Z) (t : T) : Prop :=
  kctx s L /\ part s = t.

Section rules.
Context {S T : Type} `{KernLaws S T}.
Implicit Types (s : S) (t : T) (L : list Z) (X : stop -> Prop).

Lemma wp_k_get s L t X (Q : T -> S -> Prop) : at_ s L t -> Q t s -> wp k_get X Q s.
Proof. intros [_ <-]. done. Qed.

Lemma wp_own {A} (c : M T A) s L t X (Q : A -> S -> Prop) :
  at_ s L t -> wp c X (fun a t' => forall s', at_ s' L t' -> Q a s') t -> wp (own c) X Q s.
Proof.
  intros [Hc <-] Hwp. apply wp_zoom. eapply wp_mono; [done|]. cbn. intros a t' HQ.
  apply HQ. split; [by apply kctx_set|apply part_set].
Qed.

Lemma wp_k_mod f s L t X (Q : unit -> S -> Prop) :
  at_ s L t -> (forall s', at_ s' L (f t) -> Q tt s') -> wp (k_mod f) X Q s.
Proof. intros Ha HQ. unfold k_mod. eapply wp_own; [done|]. by apply wp_modify. Qed.

Lemma wp_acq s L t lk X (Q : unit -> S -> Prop) :
  at_ s L t -> lk ∉ L -> (forall s', at_ s' (lk :: L) t -> Q tt s') -> wp (k_acquire lk) X Q s.
Proof. intros [Hc <-] Hlk HQ. eapply wp_k_acquire; [done..|]. intros. by apply HQ. Qed.

Lemma wp_rel s L1 L2 t lk X (Q : unit -> S -> Prop) :
  at_ s (L1 ++ lk :: L2) t -> (forall s', at_ s' (L1 ++ L2) t -> Q tt s') ->
  wp (k_release lk) X Q s.
Proof. intros [Hc <-] HQ. eapply wp_k_release; [done..|]. intros. by apply HQ. Qed.

Lemma wp_wake s L t c X (Q : unit -> S -> Prop) :
  at_ s L t -> no_proc_locks L -> (forall s', at_ s' L t -> Q tt s') -> wp (k_wakeup c) X Q s.
Proof. intros [Hc <-] HL HQ. eapply wp_k_wakeup; [done..|]. intros. by apply HQ. Qed.

Lemma wp_pid s L t X (Q : Z -> S -> Prop) :
  at_ s L t -> (forall s', at_ s' L t -> Q my_pid s') -> wp k_pid X Q s.
Proof. intros [Hc <-] HQ. eapply wp_k_pid; [done..|]. intros. by apply HQ. Qed.

(** A spin lock outside those of the process code. *)
Definition client_lock (lk : Z) (L : list Z) : Prop :=
  (lk ∉ L) /\ lk <> ptable_lock /\ lk <> mlfqstr_lock /\ no_proc_locks L.

Lemma client_lock_wake lk L : client_lock lk L -> no_proc_locks (lk :: L).
Proof. unfold client_lock, no_proc_locks. set_solver. Qed.

Lemma wp_acquiresleep r s L t X (Q : unit -> S -> Prop) :
  at_ s L t -> client_lock (sl_addr r) L -> sl_locked (sl_get r t) = 0 ->
  (forall s', at_ s' L (sl_set r (mksl 1 my_pid) t) -> Q tt s') ->
  wp (acquiresleep r) X Q s.
Proof.
  intros Ha [Hlk _] Hfree HQ. unfold acquiresleep.
  wstep. eapply wp_acq; [done..|]. intros s1 H1. wstep. apply wp_sleep_while.
  wstep. eapply wp_k_get; [done|]. wstep. rewrite Hfree. split; [done|]. wstep. eapply wp_pid; [done|]. intros s2 H2.
  wstep. eapply wp_k_mod; [done|]. intros s3 H3. by eapply (wp_rel _ []).
Qed.

Lemma wp_releasesleep r s L t X (Q : unit -> S -> Prop) :
  at_ s L t -> client_lock (sl_addr r) L ->
  (forall s', at_ s' L (sl_set r sl_free t) -> Q tt s') ->
  wp (releasesleep r) X Q s.
Proof.
  intros Ha Hc HQ. pose proof Hc as [Hlk _]. unfold releasesleep.
  wstep. eapply wp_acq; [done..|]. intros s1 H1. wstep. eapply wp_k_mod; [done|]. intros s2 H2.
  wstep. eapply wp_wake; [done|by apply client_lock_wake|]. intros s3 H3. by eapply (wp_rel _ []).
Qed.

Lemma wp_holdingsleep r s L t X (Q : bool -> S -> Prop) :
  at_ s L t -> client_lock (sl_addr r) L ->
  (forall s', at_ s' L t ->
     Q (negb (sl_locked (sl_get r t) =? 0) && (sl_pid (sl_get r t) =? my_pid)) s') ->
  wp (holdingsleep r) X Q s.
Proof.
  intros Ha [Hlk _] HQ. unfold holdingsleep.
  wstep. eapply wp_acq; [done..|]. intros s1 H1. wstep. eapply wp_k_get; [done|].
  wstep. eapply wp_pid; [done|]. intros s2 H2. wstep. eapply (wp_rel _ []); [done|].
  intros s3 H3. wstep. by apply HQ.
Qed.

Lemma wp_initsleeplock r s t X (Q : unit -> S -> Prop) :
  at_ s [] t -> (forall s', at_ s' [] (sl_set r sl_free t) -> Q tt s') ->
  wp (initsleeplock r) X Q s.
Proof.
  intros [Hc Hp] HQ. unfold initsleeplock. wstep. eapply wp_k_initlock; [done|]. intros s1 H1 Hp1.
  eapply wp_k_mod; [|done]. split; [done|congruence].
Qed.
End rules.

(** One step of client code: [mstep] finds the context among the hypotheses. *)
Ltac mstep :=
  lazymatch goal with
  | |- wp (bind _ _) _ _ _ => apply wp_bind
  | |- wp (ret _) _ _ _ => apply wp_ret
  | |- wp k_get _ _ _ => eapply wp_k_get; [eassumption|]
  | |- wp (k_mod _) _ _ _ => eapply wp_k_mod; [eassumption|]; let s := fresh "s" in let H := fresh "Hat" in
      intros s H
  | |- wp (k_acquire _) _ _ _ => eapply wp_acq; [eassumption|set_solver|];
      let s := fresh "s" in let H := fresh "Hat" in intros s H
  | |- wp (k_release _) _ _ _ => eapply (wp_rel _ []); [eassumption|]; cbn [app];
      let s := fresh "s" in let H := fresh "Hat" in intros s H
  end; cbn beta iota.
Ltac msteps := repeat mstep.
