(* ===== verification/FsData.v ===== *)
(** * Data of the file system ([fs.h], [buf.h], [file.h], [log.c], [bio.c])

    The on-disk formats, the buffer cache, the log and the inode cache as one
    state.  Blocks are lists of [BSIZE] bytes.  [history] is a ghost: the
    writes the disk has made, latest first. *)
From Stdlib Require Import ZArith Lia.
From stdpp Require Import base list gmap strings.
From S2P Require Import Prelude Params Bytes Sleeplock.
#[local] Open Scope Z_scope.
#[local] Open Scope kernel_scope.

(** ** [fs.h] *)

Definition ROOTINO : Z := 1.
Definition BSIZE : Z := 512.
Definition NDIRECT : Z := 10.
Definition NINDIRECT : Z := BSIZE / 4.
Definition NDINDIRECT : Z := (BSIZE / 4) * (BSIZE / 4).
Definition NTINDIRECT : Z := (BSIZE / 4) * (BSIZE / 4) * (BSIZE / 4).
Definition MAXFILE : Z := NDIRECT + NINDIRECT + NDINDIRECT + NTINDIRECT.
Definition DIRSIZ : Z := 14.
Definition DIRENT_SIZE : Z := 16.

Record superblock := mksb {
  sb_size : Z; sb_nblocks : Z; sb_ninodes : Z; sb_nlog : Z;
  sb_logstart : Z; sb_inodestart : Z; sb_bmapstart : Z
}.

(** [struct dinode]: 64 bytes. *)
Definition DINODE_SIZE : Z := 64.
Definition IPB : Z := BSIZE / DINODE_SIZE.
Definition BPB : Z := BSIZE * 8.
Definition IBLOCK (i : Z) (sb : superblock) : Z := i / IPB + sb_inodestart sb.
Definition BBLOCK (b : Z) (sb : superblock) : Z := b / BPB + sb_bmapstart sb.

Abbreviation T_DIR := 1%Z.
Abbreviation T_FILE := 2%Z.
Abbreviation T_DEV := 3%Z.

(** The first 28 bytes of block 1, as [memmove] copies them. *)
Definition sb_decode (d : list Z) : superblock :=
  mksb (get32 d 0) (get32 d 4) (get32 d 8) (get32 d 12) (get32 d 16) (get32 d 20) (get32 d 24).

(** ** [buf.h], [bio.c] *)

Definition B_VALID : Z := 2.
Definition B_DIRTY : Z := 4.

Record buf := mkbuf {
  flags : Z; bdev : Z; blockno : Z; block : sleeplock; refcnt : Z; bdata : list Z
}.
#[export] Instance eta_buf : Eta buf := fun b =>
  mkbuf (flags b) (bdev b) (blockno b) (block b) (refcnt b) (bdata b).
Definition buf0 : buf := mkbuf 0 0 0 sl_free 0 (replicate (Z.to_nat BSIZE) 0).

(** ** [log.c] *)

Record logst := mklog {
  lstart : Z; lsize : Z; outstanding : Z; committing : Z; ldev : Z;
  lh_n : Z; lh_block : list Z
}.
#[export] Instance eta_logst : Eta logst := fun l =>
  mklog (lstart l) (lsize l) (outstanding l) (committing l) (ldev l) (lh_n l) (lh_block l).

(** ** [file.h] *)

Record inode := mkinode {
  idev : Z; inum : Z; iref : Z; ilk : sleeplock; ivalid : Z;
  itype : Z; imajor : Z; iminor : Z; inlink : Z; isize : Z; iaddrs : list Z
}.
#[export] Instance eta_inode : Eta inode := fun i =>
  mkinode (idev i) (inum i) (iref i) (ilk i) (ivalid i) (itype i) (imajor i) (iminor i)
    (inlink i) (isize i) (iaddrs i).
Definition inode0 : inode := mkinode 0 0 0 sl_free 0 0 0 0 0 0 (replicate 13 0).

(** ** The state *)

Record fsstate := mkfs {
  disk : list (list Z); history : list (Z * list Z);
  bufs : list buf; lru : list nat;
  lg : logst; sb : superblock; inodes : list inode
}.
#[export] Instance eta_fsstate : Eta fsstate := fun t =>
  mkfs (disk t) (history t) (bufs t) (lru t) (lg t) (sb t) (inodes t).

(** Addresses of the locks. *)
Definition bcache_lock : Z := 0x80200000.
Definition log_lock : Z := 0x80200010.
Definition icache_lock : Z := 0x80200020.
Definition ftable_lock : Z := 0x80200030.
Definition buf_lk (i : nat) : Z := 0x80300000 + 1024 * Z.of_nat i.
Definition ino_lk (i : nat) : Z := 0x80400000 + 256 * Z.of_nat i.

Definition buf_at (t : fsstate) (i : nat) : buf := default buf0 (bufs t !! i).
Definition inode_at (t : fsstate) (i : nat) : inode := default inode0 (inodes t !! i).

Definition upd_buf (i : nat) (f : buf -> buf) (t : fsstate) : fsstate := t <| bufs ::= alter f i |>.
Definition upd_inode (i : nat) (f : inode -> inode) (t : fsstate) : fsstate :=
  t <| inodes ::= alter f i |>.

(** [&b->lock], [&ip->lock] *)
Definition buf_sl (i : nat) : slref fsstate :=
  mkslref (buf_lk i) (fun t => block (buf_at t i)) (fun l => upd_buf i (fun b => b <| block := l |>)).
Definition ino_sl (i : nat) : slref fsstate :=
  mkslref (ino_lk i) (fun t => ilk (inode_at t i)) (fun l => upd_inode i (fun b => b <| ilk := l |>)).

Definition has_flag (f : Z) (b : buf) : bool := negb (Z.land (flags b) f =? 0).
