(* ===== verification/Bio.v ===== *)
(** * The buffer cache ([bio.c]) over the disk ([memide.c])

    A buffer is named by its index in [bcache.buf]; the doubly linked list is
    the list [lru] of indices, most recently used first.  [iderw] is that of
    [memide.c]; [ide.c] keeps the same contract with the disk's interrupts. *)
From Stdlib Require Import ZArith Lia.
From stdpp Require Import base list gmap strings.
From S2P Require Import Prelude Params Bytes Spinlock Proc Sched SchedInv Kern Sleeplock FsData.
#[local] Open Scope Z_scope.
#[local] Open Scope kernel_scope.

Section ops.
Context {S : Type} `{KernOps S fsstate}.

Definition binit : M S unit :=
  k_initlock bcache_lock "bcache" ;;;
  k_mod (fun t => t <| lru := [] |>) ;;;
  for_each (seq 0 NBUF) (fun i =>
    initsleeplock (buf_sl i) ;;;
    k_mod (fun t => t <| lru ::= cons i |>)).

Definition bget (dev bn : Z) : M S nat :=
  k_acquire bcache_lock ;;;
  t <~ k_get;
  r <~ for_until (lru t) (fun i =>
    t <~ k_get;
    let b := buf_at t i in
    if (bdev b =? dev) && (blockno b =? bn) then
      k_mod (upd_buf i (fun b => b <| refcnt ::= fun n => u32 (n + 1) |>)) ;;;
      k_release bcache_lock ;;;
      acquiresleep (buf_sl i) ;;;
      ret (Some i)
    else ret None);
  match r with
  | Some i => ret i
  | None =>
      r <~ for_until (rev (lru t)) (fun i =>
        t <~ k_get;
        let b := buf_at t i in
        if (refcnt b =? 0) && negb (has_flag B_DIRTY b) then
          k_mod (upd_buf i (fun b => b <| bdev := dev |> <| blockno := bn |> <| flags := 0 |>
                                       <| refcnt := 1 |>)) ;;;
          k_release bcache_lock ;;;
          acquiresleep (buf_sl i) ;;;
          ret (Some i)
        else ret None);
      match r with
      | Some i => ret i
      | None => panic "bget: no buffers"
      end
  end.

(** The flags [iderw] looks at. *)
Definition nothing_to_do (b : buf) : bool :=
  Z.land (flags b) (Z.lor B_VALID B_DIRTY) =? B_VALID.

(** [memide.c] *)
Definition iderw (i : nat) : M S unit :=
  h <~ holdingsleep (buf_sl i);
  if negb h then panic "iderw: buf not locked"
  else
    t <~ k_get;
    let b := buf_at t i in
    if nothing_to_do b then panic "iderw: nothing to do"
    else if negb (bdev b =? 1) then panic "iderw: request not for disk 1"
    else if Z.of_nat (length (disk t)) <=? blockno b then panic "iderw: block out of range"
    else
      (if has_flag B_DIRTY b then
         k_mod (upd_buf i (fun b => b <| flags ::= fun f => Z.land f (Z.lnot B_DIRTY) |>)) ;;;
         k_mod (fun t => t <| disk ::= <[Z.to_nat (blockno b) := bdata b]> |>
                           <| history ::= cons (blockno b, bdata b) |>)
       else
         k_mod (upd_buf i (fun b' => b' <| bdata := nth (Z.to_nat (blockno b)) (disk t) [] |>))) ;;;
      k_mod (upd_buf i (fun b => b <| flags ::= fun f => Z.lor f B_VALID |>)).

Definition bread (dev bn : Z) : M S nat :=
  i <~ bget dev bn;
  t <~ k_get;
  (if has_flag B_VALID (buf_at t i) then ret tt else iderw i) ;;;
  ret i.

Definition bwrite (i : nat) : M S unit :=
  h <~ holdingsleep (buf_sl i);
  if negb h then panic "bwrite"
  else
    k_mod (upd_buf i (fun b => b <| flags ::= fun f => Z.lor f B_DIRTY |>)) ;;;
    iderw i.

Definition brelse (i : nat) : M S unit :=
  h <~ holdingsleep (buf_sl i);
  if negb h then panic "brelse"
  else
    releasesleep (buf_sl i) ;;;
    k_acquire bcache_lock ;;;
    k_mod (upd_buf i (fun b => b <| refcnt ::= fun n => u32 (n - 1) |>)) ;;;
    t <~ k_get;
    (if refcnt (buf_at t i) =? 0 then
       k_mod (fun t => t <| lru := i :: filter (fun j => j <> i) (lru t) |>)
     else ret tt) ;;;
    k_release bcache_lock.

(** [bp->data], and a change of it. *)
Definition buf_data (i : nat) : M S (list Z) := t <~ k_get; ret (bdata (buf_at t i)).
Definition set_data (i : nat) (f : list Z -> list Z) : M S unit :=
  k_mod (upd_buf i (fun b => b <| bdata ::= f |>)).
End ops.

(** ** The invariant *)

(** The contents of block [n]: those of its buffer if it is cached. *)
Definition caches (n : Z) (b : buf) : bool :=
  (bdev b =? 1) && (blockno b =? n) && has_flag B_VALID b.
Definition disk_at (t : fsstate) (n : Z) : list Z := nth (Z.to_nat n) (disk t) [].
Definition content (t : fsstate) (n : Z) : list Z :=
  match list_find (fun b => caches n b = true) (bufs t) with
  | Some (_, b) => bdata b
  | None => disk_at t n
  end.

Definition is_block (d : list Z) : Prop := length d = 512%nat /\ bytes_ok d.

(** The buffer cache with the buffers [H] held by the running process, whose
    pid is [me]. *)
Record bc_ok (me : Z) (H : list nat) (t : fsstate) : Prop := {
  bc_len : length (bufs t) = NBUF;
  bc_lru : lru t ≡ₚ seq 0 NBUF;
  bc_disk : Forall is_block (disk t);
  bc_data : forall i b, bufs t !! i = Some b -> is_block (bdata b);
  bc_uniq : forall i j b b', bufs t !! i = Some b -> bufs t !! j = Some b' ->
    bdev b = 1 -> bdev b' = 1 -> blockno b = blockno b' -> i = j;
  bc_held : forall i, i ∈ H -> exists b, bufs t !! i = Some b /\
    block b = mksl 1 me /\ bdev b = 1 /\ 0 <= blockno b < Z.of_nat (length (disk t)) /\
    has_flag B_VALID b = true /\ refcnt b = 1;
  bc_free : forall i b, bufs t !! i = Some b -> i ∉ H ->
    sl_locked (block b) = 0 /\ refcnt b = 0 /\
    (has_flag B_VALID b = true -> has_flag B_DIRTY b = false -> bdata b = disk_at t (blockno b));
  bc_valid : forall i b, bufs t !! i = Some b -> has_flag B_VALID b = true ->
    bdev b = 1 /\ 0 <= blockno b < Z.of_nat (length (disk t));
  bc_dirty : forall i b, bufs t !! i = Some b -> has_flag B_DIRTY b = true ->
    has_flag B_VALID b = true
}.

(** *** Flags *)

Lemma land_bit x k : 0 <= k -> Z.land x (2 ^ k) = if Z.testbit x k then 2 ^ k else 0.
Proof.
  intros Hk. apply Z.bits_inj'. intros n Hn. rewrite Z.land_spec, Z.pow2_bits_eqb by done.
  destruct (Z.eqb_spec k n) as [->|Hne].
  - rewrite andb_true_r. destruct (Z.testbit x n) eqn:Ht; [|by rewrite Z.bits_0].
    by rewrite Z.pow2_bits_true.
  - rewrite andb_false_r. destruct (Z.testbit x k); [|by rewrite Z.bits_0].
    by rewrite Z.pow2_bits_false by lia.
Qed.

Lemma has_valid b : has_flag B_VALID b = Z.testbit (flags b) 1.
Proof.
  unfold has_flag, B_VALID. change 2 with (2 ^ 1). rewrite land_bit by lia.
  by destruct (Z.testbit _ _).
Qed.

Lemma has_dirty b : has_flag B_DIRTY b = Z.testbit (flags b) 2.
Proof.
  unfold has_flag, B_DIRTY. change 4 with (2 ^ 2). rewrite land_bit by lia.
  by destruct (Z.testbit _ _).
Qed.

Lemma nothing_to_do_flags b : nothing_to_do b = has_flag B_VALID b && negb (has_flag B_DIRTY b).
Proof.
  rewrite has_valid, has_dirty. unfold nothing_to_do, B_VALID, B_DIRTY.
  change (Z.lor 2 4) with (Z.lor (2 ^ 1) (2 ^ 2)).
  rewrite Z.land_lor_distr_r, !land_bit by lia.
  by destruct (Z.testbit (flags b) 1), (Z.testbit (flags b) 2).
Qed.

Lemma flags_set_valid b f :
  flags b = Z.lor f B_VALID -> has_flag B_VALID b = true /\ has_flag B_DIRTY b = Z.testbit f 2.
Proof.
  intros Hf. rewrite has_valid, has_dirty, Hf, !Z.lor_spec.
  split; [apply orb_true_r|apply orb_false_r].
Qed.

Lemma flags_set_dirty b f :
  flags b = Z.lor f B_DIRTY -> has_flag B_DIRTY b = true /\ has_flag B_VALID b = Z.testbit f 1.
Proof.
  intros Hf. rewrite has_valid, has_dirty, Hf, !Z.lor_spec.
  split; [apply orb_true_r|apply orb_false_r].
Qed.

Lemma flags_written b f :
  flags b = Z.lor (Z.land f (Z.lnot B_DIRTY)) B_VALID ->
  has_flag B_VALID b = true /\ has_flag B_DIRTY b = false.
Proof.
  intros Hf. destruct (flags_set_valid _ _ Hf) as [Hv Hd]. split; [done|].
  rewrite Hd, Z.land_spec. apply andb_false_r.
Qed.

(** *** Contents *)

Lemma caches_spec n b :
  caches n b = true <-> bdev b = 1 /\ blockno b = n /\ has_flag B_VALID b = true.
Proof. unfold caches. rewrite !andb_true_iff, !Z.eqb_eq. tauto. Qed.

Lemma content_cached me H t n i b :
  bc_ok me H t -> bufs t !! i = Some b -> caches n b = true -> content t n = bdata b.
Proof.
  intros Hok Hi Hc. unfold content.
  destruct (list_find _ (bufs t)) as [[j b']|] eqn:Hf.
  - apply list_find_Some in Hf as (Hj & Hc' & _). unfold caches in Hc, Hc'.
    assert (i = j) as ->; [|congruence].
    apply (bc_uniq _ _ _ Hok i j b b'); try done; lia.
  - apply list_find_None in Hf. rewrite Forall_lookup in Hf. by destruct (Hf _ _ Hi).
Qed.

Lemma content_uncached t n :
  (forall i b, bufs t !! i = Some b -> caches n b = false) -> content t n = disk_at t n.
Proof.
  intros Hn. unfold content. destruct (list_find _ (bufs t)) as [[j b']|] eqn:Hf; [|done].
  apply list_find_Some in Hf as (Hj & Hc & _). by rewrite (Hn _ _ Hj) in Hc.
Qed.

(** Either a buffer caches the block or none does. *)
Lemma content_cases me H t n :
  bc_ok me H t ->
  (exists i b, bufs t !! i = Some b /\ caches n b = true /\ content t n = bdata b) \/
  ((forall i b, bufs t !! i = Some b -> caches n b = false) /\ content t n = disk_at t n).
Proof.
  intros Hok. destruct (list_find (fun b => caches n b = true) (bufs t)) as [[i b]|] eqn:Hf.
  - left. exists i, b. apply list_find_Some in Hf as (Hi & Hc & _).
    split; [done|]. split; [done|]. by eapply content_cached.
  - right. assert (forall i b, bufs t !! i = Some b -> caches n b = false) as Hn.
    { intros i b Hi. apply list_find_None in Hf. rewrite Forall_lookup in Hf.
      specialize (Hf _ _ Hi). by destruct (caches n b). }
    split; [done|]. by apply content_uncached.
Qed.

(** A clean cached block is as on the disk. *)
Lemma content_clean me H t i b :
  bc_ok me H t -> bufs t !! i = Some b -> i ∉ H -> has_flag B_VALID b = true ->
  has_flag B_DIRTY b = false -> content t (blockno b) = disk_at t (blockno b).
Proof.
  intros Hok Hi HH Hv Hd. destruct (bc_free _ _ _ Hok _ _ Hi HH) as (_ & _ & Hdata).
  rewrite <- (Hdata Hv Hd). eapply content_cached; [done..|]. unfold caches. rewrite Hv.
  destruct (bc_valid _ _ _ Hok _ _ Hi Hv) as [-> _]. by rewrite !Z.eqb_refl.
Qed.

(** Contents after one buffer changed from [b] to [b']. *)
Lemma content_update me H H' t t' i b b' n :
  bc_ok me H t -> bc_ok me H' t' -> disk t' = disk t -> bufs t !! i = Some b ->
  bufs t' = <[i := b']> (bufs t) ->
  content t' n = if caches n b' then bdata b'
                 else if caches n b then disk_at t n else content t n.
Proof.
  intros Hok Hok' Hd Hi Hb.
  assert (bufs t' !! i = Some b') as Hi'.
  { rewrite Hb. apply list_lookup_insert_eq. by eapply lookup_lt_Some. }
  destruct (caches n b') eqn:Hc'; [by eapply content_cached|].
  assert (disk_at t' n = disk_at t n) as Hdn by (unfold disk_at; by rewrite Hd).
  assert (forall j c, j <> i -> bufs t' !! j = Some c -> bufs t !! j = Some c) as Hne.
  { intros j c Hj. by rewrite Hb, list_lookup_insert_ne. }
  destruct (caches n b) eqn:Hc.
  - rewrite <- Hdn. apply content_uncached. intros j c Hj.
    destruct (decide (j = i)) as [->|Hji]; [congruence|]. apply (Hne _ _ Hji) in Hj.
    destruct (caches n c) eqn:Hcc; [|done]. exfalso. apply Hji. unfold caches in *.
    apply (bc_uniq _ _ _ Hok _ _ _ _ Hj Hi); lia.
  - destruct (content_cases me H t n Hok) as [(j & c & Hj & Hcc & ->)|[Hno ->]].
    + destruct (decide (j = i)) as [->|Hji]; [congruence|].
      eapply content_cached; [done| |done]. by rewrite Hb, list_lookup_insert_ne.
    + rewrite <- Hdn. apply content_uncached. intros j c Hj.
      destruct (decide (j = i)) as [->|Hji]; [congruence|]. by eapply Hno, Hne.
Qed.

(** ** Rules *)

(** Replacing a buffer. *)
Definition put_buf (i : nat) (b : buf) (t : fsstate) : fsstate := t <| bufs ::= <[i := b]> |>.

Lemma upd_buf_put t i f b : bufs t !! i = Some b -> upd_buf i f t = put_buf i (f b) t.
Proof.
  intros Hi. unfold upd_buf, put_buf, setter. cbn. f_equal. by apply alter_insert_some.
Qed.

Lemma put_buf_lookup t i b c : bufs t !! i = Some c -> bufs (put_buf i b t) !! i = Some b.
Proof. intros Hi. cbn. apply list_lookup_insert_eq. by eapply lookup_lt_Some. Qed.

Lemma put_buf_put t i b c : put_buf i b (put_buf i c t) = put_buf i b t.
Proof. unfold put_buf, setter. cbn. f_equal. apply list_insert_insert_eq. Qed.

Lemma upd_put_buf t i f b c :
  bufs t !! i = Some c -> upd_buf i f (put_buf i b t) = put_buf i (f b) t.
Proof.
  intros Hi. rewrite (upd_buf_put _ _ _ b); [|by eapply put_buf_lookup]. apply put_buf_put.
Qed.

Lemma buf_at_eq t i b : bufs t !! i = Some b -> buf_at t i = b.
Proof. unfold buf_at. by intros ->. Qed.

Lemma buf_lk_client i : client_lock (buf_lk i) [].
Proof.
  unfold client_lock, no_proc_locks, buf_lk, ptable_lock, mlfqstr_lock.
  split; [set_solver|]. split; [lia|]. split; [lia|]. set_solver.
Qed.

(** Taking a buffer for block [n]. *)
Lemma bc_ok_hold me HH t i b b' n :
  bc_ok me HH t -> bufs t !! i = Some b -> i ∉ HH ->
  (bdev b = 1 /\ blockno b = n \/
   forall j c, bufs t !! j = Some c -> bdev c = 1 -> blockno c <> n) ->
  bdev b' = 1 -> blockno b' = n -> 0 <= n < Z.of_nat (length (disk t)) ->
  block b' = mksl 1 me -> refcnt b' = 1 -> has_flag B_VALID b' = true -> is_block (bdata b') ->
  bc_ok me (i :: HH) (put_buf i b' t).
Proof.
  intros Hok Hi HiH Hn Hd' Hn' Hr Hl Hrc Hv Hb'.
  assert (Hself : bufs (put_buf i b' t) !! i = Some b') by by eapply put_buf_lookup.
  assert (Hcase : forall j c, bufs (put_buf i b' t) !! j = Some c ->
    (j = i /\ c = b') \/ (j <> i /\ bufs t !! j = Some c)).
  { intros j c Hj. destruct (decide (j = i)) as [->|Hne]; [left; split; congruence|].
    right. split; [done|]. cbn in Hj. by rewrite list_lookup_insert_ne in Hj. }
  assert (Hclash : forall j c, bufs t !! j = Some c -> j <> i -> bdev c = 1 -> blockno c <> n).
  { intros j c Hj Hne Hc Hcn. destruct Hn as [[? ?]|Hn]; [|by eapply Hn].
    apply Hne. apply (bc_uniq _ _ _ Hok j i c b); congruence. }
  split.
  - cbn. rewrite length_insert. apply (bc_len _ _ _ Hok).
  - apply (bc_lru _ _ _ Hok).
  - apply (bc_disk _ _ _ Hok).
  - intros j c [[-> ->]|[_ Hj]]%Hcase; [done|]. by eapply bc_data.
  - intros j k c d [[-> ->]|[Hj1 Hj]]%Hcase [[-> ->]|[Hk1 Hk]]%Hcase Hc Hd Heq; [done|..].
    + exfalso. by apply (Hclash k d); [..|congruence].
    + exfalso. by apply (Hclash j c); [..|congruence].
    + by apply (bc_uniq _ _ _ Hok j k c d).
  - intros j [->|Hj]%elem_of_cons.
    + exists b'. cbn [disk]. rewrite Hn'. auto 10.
    + assert (j <> i) as Hne by congruence.
      destruct (bc_held _ _ _ Hok _ Hj) as (c & Hc & Hrest). exists c. split; [|done].
      cbn. by rewrite list_lookup_insert_ne.
  - intros j c [[-> ->]|[Hne Hj]]%Hcase HjH; [set_solver|].
    apply (bc_free _ _ _ Hok _ _ Hj). set_solver.
  - intros j c [[-> ->]|[Hne Hj]]%Hcase Hcv; [rewrite Hn'; done|]. exact (bc_valid _ _ _ Hok _ _ Hj Hcv).
  - intros j c [[-> ->]|[Hne Hj]]%Hcase; [done|]. by eapply bc_dirty.
Qed.

Lemma disk_at_block me HH t n :
  bc_ok me HH t -> 0 <= n < Z.of_nat (length (disk t)) -> is_block (disk_at t n).
Proof.
  intros Hok Hn. unfold disk_at. pose proof (bc_disk _ _ _ Hok) as Hd. rewrite (Forall_nth _ []) in Hd.
  apply Hd. lia.
Qed.

(** Block [n] has a dirty buffer: it is pinned by the log. *)
Definition dirty_in (t : fsstate) (n : Z) : Prop :=
  exists i b, bufs t !! i = Some b /\ blockno b = n /\ has_flag B_DIRTY b = true.

Lemma dirty_in_put t i b b' m :
  bufs t !! i = Some b -> has_flag B_DIRTY b' = has_flag B_DIRTY b ->
  (has_flag B_DIRTY b = true -> blockno b' = blockno b) ->
  dirty_in (put_buf i b' t) m <-> dirty_in t m.
Proof.
  intros Hi Hd Hn. split; intros (j & c & Hj & Hc & Hcd).
  - destruct (decide (j = i)) as [->|Hne].
    + rewrite (put_buf_lookup _ _ _ _ Hi) in Hj. injection Hj as <-.
      exists i, b. rewrite <- Hn by congruence. split; [done|]. split; congruence.
    + exists j, c. cbn in Hj. by rewrite list_lookup_insert_ne in Hj.
  - destruct (decide (j = i)) as [->|Hne].
    + exists i, b'. simplify_eq. rewrite (put_buf_lookup _ _ _ _ Hi), Hn, Hd by done. done.
    + exists j, c. cbn. by rewrite list_lookup_insert_ne.
Qed.

(** What [bread] does to the state. *)
Record bread_post (me : Z) (t : fsstate) (HH : list nat) (n : Z) (i : nat) (t' : fsstate) : Prop := {
  bp_ok : bc_ok me (i :: HH) t';
  bp_new : i ∉ HH;
  bp_buf : exists b, bufs t' !! i = Some b /\ blockno b = n /\ bdata b = content t n /\
    (has_flag B_DIRTY b = true \/ bdata b = disk_at t n);
  bp_content : forall m, content t' m = content t m;
  bp_frame : disk t' = disk t /\ history t' = history t /\ lg t' = lg t /\ sb t' = sb t /\
    inodes t' = inodes t;
  bp_held : forall j, j ∈ HH -> bufs t' !! j = bufs t !! j;
  bp_dirty : forall m, dirty_in t' m <-> dirty_in t m
}.

Lemma bread_post_intro me HH t i b b' n :
  bc_ok me HH t -> bufs t !! i = Some b -> i ∉ HH ->
  (bdev b = 1 /\ blockno b = n \/ has_flag B_DIRTY b = false /\
   forall j c, bufs t !! j = Some c -> bdev c = 1 -> blockno c <> n) ->
  bdev b' = 1 -> blockno b' = n -> 0 <= n < Z.of_nat (length (disk t)) ->
  block b' = mksl 1 me -> refcnt b' = 1 -> has_flag B_VALID b' = true -> is_block (bdata b') ->
  has_flag B_DIRTY b' = has_flag B_DIRTY b -> bdata b' = content t n ->
  (has_flag B_DIRTY b' = true \/ bdata b' = disk_at t n) ->
  bread_post me t HH n i (put_buf i b' t).
Proof.
  intros Hok Hi HiH Hn Hd' Hn' Hr Hl Hrc Hv Hb' Hdirty Hdata Hclean'.
  assert (bc_ok me (i :: HH) (put_buf i b' t)) as Hok'.
  { eapply bc_ok_hold; try done. naive_solver. }
  split; [done|done| | |done| |].
  - exists b'. split; [by eapply put_buf_lookup|done].
  - intros m. rewrite (content_update me HH (i :: HH) t _ i b b' m Hok Hok') by done.
    destruct (caches m b') eqn:Hc'; [|destruct (caches m b) eqn:Hc; [|done]].
    + apply caches_spec in Hc' as (_ & Hbm & _). congruence.
    + apply caches_spec in Hc as (_ & Hbm & Hbv).
      destruct Hn as [[Hb1 Hbn]|[Hclean _]].
      * assert (caches m b' = true) by (apply caches_spec; split; [done|]; split; congruence).
        congruence.
      * rewrite <- Hbm. symmetry. by apply (content_clean me HH t i b).
  - intros j Hj. cbn. rewrite list_lookup_insert_ne; [done|]. intros ->. done.
  - intros m. apply (dirty_in_put _ _ b); [done..|]. intros Hbd.
    destruct Hn as [[_ ->]|[Hclean _]]; [done|congruence].
Qed.

(** Changing a held buffer in place. *)
Lemma bc_ok_modify me HH t i b b' :
  bc_ok me HH t -> i ∈ HH -> bufs t !! i = Some b ->
  bdev b' = bdev b -> blockno b' = blockno b -> block b' = block b -> refcnt b' = refcnt b ->
  has_flag B_VALID b' = true -> is_block (bdata b') ->
  bc_ok me HH (put_buf i b' t).
Proof.
  intros Hok HiH Hi Hd Hn Hl Hr Hv Hb.
  assert (Hself : bufs (put_buf i b' t) !! i = Some b') by by eapply put_buf_lookup.
  assert (Hcase : forall j c, bufs (put_buf i b' t) !! j = Some c ->
    (j = i /\ c = b') \/ (j <> i /\ bufs t !! j = Some c)).
  { intros j c Hj. destruct (decide (j = i)) as [->|Hne]; [left; split; congruence|].
    right. split; [done|]. cbn in Hj. by rewrite list_lookup_insert_ne in Hj. }
  assert (Hold : forall j c, bufs (put_buf i b' t) !! j = Some c ->
    exists c0, bufs t !! j = Some c0 /\ bdev c0 = bdev c /\ blockno c0 = blockno c).
  { intros j c [[-> ->]|[_ Hj]]%Hcase; eauto. }
  destruct (bc_held _ _ _ Hok _ HiH) as (b0 & Hb0 & Hl0 & Hd0 & Hn0 & Hv0 & Hr0). simplify_eq.
  split.
  - cbn. rewrite length_insert. apply (bc_len _ _ _ Hok).
  - apply (bc_lru _ _ _ Hok).
  - apply (bc_disk _ _ _ Hok).
  - intros j c [[-> ->]|[_ Hj]]%Hcase; [done|]. by eapply bc_data.
  - intros j k c d (c0 & Hj & Hc1 & Hc2)%Hold (d0 & Hk & Hd1 & Hd2)%Hold ? ? ?.
    apply (bc_uniq _ _ _ Hok j k c0 d0); congruence.
  - intros j Hj. destruct (decide (j = i)) as [->|Hne].
    + exists b'. cbn [disk]. rewrite Hl, Hd, Hn, Hr. auto 10.
    + destruct (bc_held _ _ _ Hok _ Hj) as (c & Hc & Hrest). exists c. split; [|done].
      cbn. by rewrite list_lookup_insert_ne.
  - intros j c [[-> ->]|[Hne Hj]]%Hcase HjH; [done|]. exact (bc_free _ _ _ Hok _ _ Hj HjH).
  - intros j c [[-> ->]|[Hne Hj]]%Hcase Hcv; [rewrite Hd, Hn; done|].
    exact (bc_valid _ _ _ Hok _ _ Hj Hcv).
  - intros j c [[-> ->]|[Hne Hj]]%Hcase; [done|]. by eapply bc_dirty.
Qed.

(** Contents after a held buffer changed. *)
Lemma content_modify me HH t i b b' m :
  bc_ok me HH t -> i ∈ HH -> bufs t !! i = Some b ->
  bdev b' = bdev b -> blockno b' = blockno b -> block b' = block b -> refcnt b' = refcnt b ->
  has_flag B_VALID b' = true -> is_block (bdata b') ->
  content (put_buf i b' t) m = if m =? blockno b then bdata b' else content t m.
Proof.
  intros Hok HiH Hb Hd Hn Hl Hr Hv Hbl.
  destruct (bc_held _ _ _ Hok _ HiH) as (b0 & Hb0 & _ & Hdev & _ & Hv0 & _). simplify_eq.
  assert (bc_ok me HH (put_buf i b' t)) as Hok' by by eapply bc_ok_modify.
  rewrite (content_update me HH HH t _ i b b' m Hok Hok') by done.
  assert (caches m b' = (m =? blockno b) /\ caches m b = (m =? blockno b)) as [-> ->].
  { unfold caches. rewrite Hd, Hn, Hdev, Hv, Hv0, (Z.eqb_sym (blockno b)), andb_true_r. done. }
  by destruct (m =? blockno b).
Qed.

Lemma content_put_data me HH t i b d m :
  bc_ok me HH t -> i ∈ HH -> bufs t !! i = Some b -> is_block d ->
  content (put_buf i (b <| bdata := d |>) t) m = if m =? blockno b then d else content t m.
Proof.
  intros Hok HiH Hb Hd. destruct (bc_held _ _ _ Hok _ HiH) as (b0 & Hb0 & _ & _ & _ & Hv & _). simplify_eq.
  by eapply (content_modify me HH t i b).
Qed.

(** Writing the data of a held buffer to its place on the disk. *)
Definition written (n : Z) (d : list Z) (t : fsstate) : fsstate :=
  t <| disk ::= <[Z.to_nat n := d]> |> <| history ::= cons (n, d) |>.

Lemma disk_at_written t n d m :
  0 <= n < Z.of_nat (length (disk t)) -> 0 <= m ->
  disk_at (written n d t) m = if m =? n then d else disk_at t m.
Proof.
  intros Hn Hm. unfold disk_at. cbn. destruct (Z.eqb_spec m n) as [->|Hne].
  - apply nth_lookup_Some. apply list_lookup_insert_eq. lia.
  - rewrite !nth_lookup, list_lookup_insert_ne; [done|lia].
Qed.

Lemma bc_ok_written me HH t i b :
  bc_ok me HH t -> i ∈ HH -> bufs t !! i = Some b ->
  bc_ok me HH (written (blockno b) (bdata b) t) /\
  forall m, 0 <= m -> content (written (blockno b) (bdata b) t) m = content t m.
Proof.
  intros Hok HiH Hi. set (t' := written (blockno b) (bdata b) t).
  destruct (bc_held _ _ _ Hok _ HiH) as (b0 & Hb0 & Hl & Hd & Hn & Hv & Hr). simplify_eq.
  assert (length (disk t') = length (disk t)) as Hlen by (cbn; apply length_insert).
  assert (bc_ok me HH t') as Hok'.
  { split; rewrite ?Hlen; [exact (bc_len _ _ _ Hok)|exact (bc_lru _ _ _ Hok)| |
      exact (bc_data _ _ _ Hok)|exact (bc_uniq _ _ _ Hok)|exact (bc_held _ _ _ Hok)| |
      exact (bc_valid _ _ _ Hok)|exact (bc_dirty _ _ _ Hok)].
    - cbn. apply Forall_insert; [apply (bc_disk _ _ _ Hok)|by eapply bc_data].
    - intros j c Hj HjH. destruct (bc_free _ _ _ Hok _ _ Hj HjH) as (H1 & H2 & H3).
      split; [done|]. split; [done|]. intros Hcv Hcd. rewrite (H3 Hcv Hcd).
      destruct (bc_valid _ _ _ Hok _ _ Hj Hcv) as [Hc1 Hc2].
      unfold t'. rewrite disk_at_written by (done || lia).
      destruct (Z.eqb_spec (blockno c) (blockno b)); [|done].
      exfalso. apply HjH. by rewrite (bc_uniq _ _ _ Hok j i c b Hj Hi). }
  split; [done|]. intros m Hm.
  destruct (content_cases me HH t m Hok) as [(j & c & Hj & Hc & ->)|[Hno ->]].
  - by eapply content_cached.
  - rewrite content_uncached by done. unfold t'. rewrite disk_at_written by done.
    destruct (Z.eqb_spec m (blockno b)) as [->|]; [|done].
    assert (caches (blockno b) b = true) as Hc by by apply caches_spec.
    by rewrite (Hno _ _ Hi) in Hc.
Qed.

(** Only the set of held buffers matters. *)
Lemma bc_ok_perm me HH HH' t : bc_ok me HH t -> (forall i, i ∈ HH' <-> i ∈ HH) -> bc_ok me HH' t.
Proof.
  intros Hok Heq. split; try by destruct Hok.
  - intros i Hi%Heq. by apply (bc_held _ _ _ Hok).
  - intros i b Hb Hi. rewrite Heq in Hi. by apply (bc_free _ _ _ Hok i).
Qed.

(** Moving a buffer to the front of the list. *)
Lemma move_front (l : list nat) i : NoDup l -> i ∈ l -> i :: filter (fun j => j <> i) l ≡ₚ l.
Proof.
  intros Hnd Hi. apply NoDup_Permutation; [|done|].
  - apply NoDup_cons. split; [by rewrite list_elem_of_filter; intros [? _]|].
    by apply NoDup_filter.
  - intros j. rewrite elem_of_cons, list_elem_of_filter. destruct (decide (j = i)); naive_solver.
Qed.

Lemma bc_ok_release me HH HH' t i b l :
  bc_ok me HH t -> i ∈ HH -> bufs t !! i = Some b ->
  (has_flag B_DIRTY b = true \/ bdata b = disk_at t (blockno b)) ->
  (forall j, j ∈ HH' <-> j ∈ HH /\ j <> i) -> l ≡ₚ lru t ->
  let t' := put_buf i (b <| block := sl_free |> <| refcnt := 0 |>) t <| lru := l |> in
  bc_ok me HH' t' /\ (forall m, content t' m = content t m) /\
  (forall j, j ∈ HH' -> bufs t' !! j = bufs t !! j) /\
  forall m, dirty_in t' m <-> dirty_in t m.
Proof.
  intros Hok HiH Hi Hdata HH'_spec Hl t'. set (b' := _ <| refcnt := 0 |>) in *.
  destruct (bc_held _ _ _ Hok _ HiH) as (b0 & Hb0 & _ & Hd & Hn & Hv & _). simplify_eq.
  assert (Hself : bufs t' !! i = Some b') by by apply (put_buf_lookup t i b' b).
  assert (Hcase : forall j c, bufs t' !! j = Some c ->
    (j = i /\ c = b') \/ (j <> i /\ bufs t !! j = Some c)).
  { intros j c Hj. destruct (decide (j = i)) as [->|Hne]; [left; split; congruence|].
    right. split; [done|]. cbn in Hj. by rewrite list_lookup_insert_ne in Hj. }
  assert (Hold : forall j c, bufs t' !! j = Some c ->
    exists c0, bufs t !! j = Some c0 /\ bdev c0 = bdev c /\ blockno c0 = blockno c /\
      flags c0 = flags c /\ bdata c0 = bdata c).
  { intros j c [[-> ->]|[_ Hj]]%Hcase; [exists b|exists c]; auto. }
  assert (bc_ok me HH' t') as Hok'.
  { split.
    - cbn. rewrite length_insert. apply (bc_len _ _ _ Hok).
    - cbn. etransitivity; [done|]. apply (bc_lru _ _ _ Hok).
    - apply (bc_disk _ _ _ Hok).
    - intros j c (c0 & Hj & _ & _ & _ & <-)%Hold. by eapply bc_data.
    - intros j k c d (c0 & Hj & Hc1 & Hc2 & _)%Hold (d0 & Hk & Hd1 & Hd2 & _)%Hold ? ? ?.
      apply (bc_uniq _ _ _ Hok j k c0 d0); congruence.
    - intros j [Hj Hne]%HH'_spec. destruct (bc_held _ _ _ Hok _ Hj) as (c & Hc & Hrest).
      exists c. split; [|done]. cbn. by rewrite list_lookup_insert_ne.
    - intros j c [[-> ->]|[Hne Hj]]%Hcase HjH.
      + split; [done|]. split; [done|]. intros _ Hdd. destruct Hdata as [Hdd'|Hdata]; [|done].
        by change (has_flag B_DIRTY b = false) in Hdd; congruence.
      + apply (bc_free _ _ _ Hok _ _ Hj). intros HjH'. apply HjH, HH'_spec. done.
    - intros j c (c0 & Hj & <- & <- & Hf & _)%Hold Hcv. apply (bc_valid _ _ _ Hok _ _ Hj).
      unfold has_flag in *. by rewrite Hf.
    - intros j c (c0 & Hj & _ & _ & Hf & _)%Hold. unfold has_flag. rewrite <- Hf.
      exact (bc_dirty _ _ _ Hok _ _ Hj). }
  split; [done|]. split; [|split].
  - intros m. rewrite (content_update me HH HH' t t' i b b' m Hok Hok') by done.
    destruct (caches m b') eqn:Hc; [|by change (caches m b) with (caches m b'); rewrite Hc].
    symmetry. by apply (content_cached me HH t m i b).
  - intros j [Hj Hne]%HH'_spec. cbn. by rewrite list_lookup_insert_ne.
  - intros m. change (dirty_in (put_buf i b' t) m <-> dirty_in t m). by apply (dirty_in_put _ _ b).
Qed.

(** There is a buffer for block [n]: it is pinned already, or the pinned and
    the held buffers are fewer than [NBUF]. *)
Definition room (t : fsstate) (HH : list nat) (n : Z) : Prop :=
  dirty_in t n \/
  exists dl, (forall m, dirty_in t m -> m ∈ dl) /\ (length dl + length HH < NBUF)%nat.

Lemma NoDup_fmap_on {A B} (f : A -> B) (l : list A) :
  NoDup l -> (forall x y, x ∈ l -> y ∈ l -> f x = f y -> x = y) -> NoDup (f <$> l).
Proof.
  induction 1 as [|x l Hx Hnd IH]; intros Hinj; csimpl; [constructor|].
  apply NoDup_cons. split.
  - intros (y & Heq & Hy)%list_elem_of_fmap. apply Hx.
    rewrite (Hinj x y); [done|set_solver|set_solver|done].
  - apply IH. intros. apply Hinj; set_solver.
Qed.

Lemma subset_length {A} (l l' : list A) :
  NoDup l -> (forall x, x ∈ l -> x ∈ l') -> (length l <= length l')%nat.
Proof. intros Hnd Hsub. by apply submseteq_length, NoDup_submseteq. Qed.

Lemma room_clean me HH t n :
  bc_ok me HH t -> room t HH n ->
  (forall i b, bufs t !! i = Some b -> bdev b = 1 -> blockno b <> n) ->
  exists i b, bufs t !! i = Some b /\ (i ∉ HH) /\ has_flag B_DIRTY b = false.
Proof.
  intros Hok [(i & b & Hb & Hn & Hd)|(dl & Hdl & Hlen)] Hno.
  { exfalso. destruct (bc_valid _ _ _ Hok _ _ Hb (bc_dirty _ _ _ Hok _ _ Hb Hd)) as [Hdev _].
    by apply (Hno _ _ Hb Hdev). }
  destruct (list_find (fun i => (i ∉ HH) /\ has_flag B_DIRTY (buf_at t i) = false) (seq 0 NBUF))
    as [[k i]|] eqn:Hf.
  { apply list_find_Some in Hf as (Hi%list_elem_of_lookup_2%elem_of_seq & [HiH Hd] & _).
    destruct (lookup_lt_is_Some_2 (bufs t) i) as [b Hb]; [rewrite (bc_len _ _ _ Hok); lia|].
    exists i, b. by rewrite (buf_at_eq _ _ _ Hb) in Hd. }
  exfalso. apply list_find_None in Hf as Hnone. rewrite Forall_forall in Hnone.
  set (l := filter (fun i => i ∉ HH) (seq 0 NBUF)).
  assert (forall i, i ∈ l -> exists b, bufs t !! i = Some b /\ has_flag B_DIRTY b = true) as Hdirty.
  { intros i [HiH Hi]%list_elem_of_filter. pose proof Hi as Hi'%elem_of_seq.
    destruct (lookup_lt_is_Some_2 (bufs t) i) as [b Hb]; [rewrite (bc_len _ _ _ Hok); lia|].
    exists b. split; [done|]. specialize (Hnone i Hi). rewrite (buf_at_eq _ _ _ Hb) in Hnone.
    destruct (has_flag B_DIRTY b); naive_solver. }
  assert (length l <= length dl)%nat as Hl.
  { rewrite <- (length_fmap (fun i => blockno (buf_at t i)) l). apply subset_length.
    - apply NoDup_fmap_on; [apply NoDup_filter, NoDup_seq|]. intros i j Hi Hj Heq.
      destruct (Hdirty _ Hi) as (b & Hb & Hbd), (Hdirty _ Hj) as (c & Hc & Hcd).
      rewrite (buf_at_eq _ _ _ Hb), (buf_at_eq _ _ _ Hc) in Heq.
      destruct (bc_valid _ _ _ Hok _ _ Hb (bc_dirty _ _ _ Hok _ _ Hb Hbd)) as [? _].
      destruct (bc_valid _ _ _ Hok _ _ Hc (bc_dirty _ _ _ Hok _ _ Hc Hcd)) as [? _].
      by apply (bc_uniq _ _ _ Hok i j b c).
    - intros m (i & -> & Hi)%list_elem_of_fmap. apply Hdl.
      destruct (Hdirty _ Hi) as (b & Hb & Hbd). exists i, b. by rewrite (buf_at_eq _ _ _ Hb). }
  assert (NBUF <= length HH + length l)%nat; [|lia].
  rewrite <- length_app. rewrite <- (length_seq NBUF 0) at 1. apply subset_length; [apply NoDup_seq|].
  intros i Hi. apply elem_of_app. destruct (decide (i ∈ HH)); [by left|right].
  by apply list_elem_of_filter.
Qed.

(** With no buffer held, a block that is not pinned is as on the disk. *)
Lemma content_disk me t m : bc_ok me [] t -> ~ dirty_in t m -> content t m = disk_at t m.
Proof.
  intros Hok Hd. destruct (content_cases me [] t m Hok) as [(i & b & Hi & Hc & ->)|[_ ->]]; [|done].
  apply caches_spec in Hc as (_ & Hm & Hv).
  destruct (bc_free _ _ _ Hok i b Hi) as (_ & _ & Hdata); [set_solver|]. rewrite <- Hm. apply Hdata; [done|].
  destruct (has_flag B_DIRTY b) eqn:Hbd; [|done]. exfalso. apply Hd. by exists i, b.
Qed.

Section rules.
Context {S : Type} `{KernLaws S fsstate}.
Implicit Types (s : S) (t : fsstate) (HH : list nat) (X : stop -> Prop).
Abbreviation me := (my_pid (S := S) (T := fsstate)).

(** What [bget] returns: the buffer that had the block, or a recycled one. *)
Inductive got t HH (n : Z) (i : nat) : buf -> Prop :=
| got_hit b : bufs t !! i = Some b -> bdev b = 1 -> blockno b = n -> i ∉ HH ->
    got t HH n i (b <| refcnt := 1 |> <| block := mksl 1 me |>)
| got_miss b : bufs t !! i = Some b -> refcnt b = 0 -> has_flag B_DIRTY b = false -> i ∉ HH ->
    (forall j c, bufs t !! j = Some c -> bdev c = 1 -> blockno c <> n) ->
    got t HH n i (mkbuf 0 1 n (mksl 1 me) 1 (bdata b)).

Lemma lru_lookup me' HH t i : bc_ok me' HH t -> i ∈ lru t -> exists b, bufs t !! i = Some b.
Proof.
  intros Hok Hi. rewrite (bc_lru _ _ _ Hok) in Hi. apply elem_of_seq in Hi.
  apply lookup_lt_is_Some. rewrite (bc_len _ _ _ Hok). lia.
Qed.

Lemma lookup_lru me' HH t i b : bc_ok me' HH t -> bufs t !! i = Some b -> i ∈ lru t.
Proof.
  intros Hok Hb. rewrite (bc_lru _ _ _ Hok). apply elem_of_seq. apply lookup_lt_Some in Hb.
  rewrite (bc_len _ _ _ Hok) in Hb. lia.
Qed.

Lemma wp_bget s t HH n X (Q : nat -> S -> Prop) :
  at_ s [] t -> bc_ok me HH t ->
  (forall i b, i ∈ HH -> bufs t !! i = Some b -> blockno b <> n) ->
  (forall s' i b, got t HH n i b -> at_ s' [] (put_buf i b t) -> Q i s') ->
  room t HH n \/ X (Panic "bget: no buffers") ->
  wp (bget 1 n) X Q s.
Proof.
  intros Hat Hok Hn HQ HX. unfold bget. do 4 mstep. mstep.
  eapply (wp_for_until_first (fun i => (bdev (buf_at t i) =? 1) && (blockno (buf_at t i) =? n))).
  - intros i Hi Hf. unfold k_get, bind, gets. destruct Hat0 as [_ ->]. by rewrite Hf.
  - intros i Hi Hf. destruct (lru_lookup _ _ _ _ Hok Hi) as [b Hb]. rewrite (buf_at_eq _ _ _ Hb) in Hf.
    assert (bdev b = 1 /\ blockno b = n) as [Hdev Hbn] by lia.
    assert (i ∉ HH) as HiH by (intros HiH; by apply (Hn i b)).
    destruct (bc_free _ _ _ Hok _ _ Hb HiH) as (Hlk & Href & _).
    do 2 mstep. rewrite (buf_at_eq _ _ _ Hb), Hf. do 4 mstep. mstep.
    rewrite (upd_buf_put _ _ _ _ Hb) in Hat2.
    eapply wp_acquiresleep; [done|apply buf_lk_client| |].
    { cbn [sl_get buf_sl]. by rewrite (buf_at_eq _ _ _ (put_buf_lookup _ _ _ _ Hb)). }
    intros s4 Hat4. cbn [sl_set buf_sl] in Hat4. rewrite (upd_put_buf _ _ _ _ _ Hb) in Hat4.
    msteps. eapply HQ; [|done].
    replace (setter block _ _) with (b <| refcnt := 1 |> <| block := mksl 1 me |>).
    { by apply got_hit. }
    unfold setter; cbn. by rewrite Href.
  - intros Hmiss. mstep.
    eapply (wp_for_until_first (fun i => (refcnt (buf_at t i) =? 0) && negb (has_flag B_DIRTY (buf_at t i)))).
    + intros i Hi Hf. unfold k_get, bind, gets. destruct Hat0 as [_ ->]. by rewrite Hf.
    + intros i Hi Hf. rewrite list_elem_of_In in Hi. apply in_rev in Hi. rewrite <- list_elem_of_In in Hi.
      destruct (lru_lookup _ _ _ _ Hok Hi) as [b Hb]. rewrite (buf_at_eq _ _ _ Hb) in Hf.
      pose proof Hf as [Hr%Z.eqb_eq Hd%negb_true_iff]%andb_prop.
      assert (i ∉ HH) as HiH.
      { intros HiH. destruct (bc_held _ _ _ Hok _ HiH) as (b' & Hb' & _ & _ & _ & _ & ?).
        simplify_eq. lia. }
      destruct (bc_free _ _ _ Hok _ _ Hb HiH) as (Hlk & _ & _).
      do 2 mstep. rewrite (buf_at_eq _ _ _ Hb), Hf. do 4 mstep. mstep.
      rewrite (upd_buf_put _ _ _ _ Hb) in Hat2.
      eapply wp_acquiresleep; [done|apply buf_lk_client| |].
      { cbn [sl_get buf_sl]. by rewrite (buf_at_eq _ _ _ (put_buf_lookup _ _ _ _ Hb)). }
      intros s4 Hat4. cbn [sl_set buf_sl] in Hat4. rewrite (upd_put_buf _ _ _ _ _ Hb) in Hat4.
      msteps. eapply HQ; [|done]. apply (got_miss _ _ _ _ b); [done..|]. intros j c Hj Hc Hcn.
      specialize (Hmiss j). rewrite (buf_at_eq _ _ _ Hj), Hc, Hcn, !Z.eqb_refl in Hmiss.
      by specialize (Hmiss (lookup_lru _ _ _ _ _ Hok Hj)).
    + intros Hall. apply wp_stop. destruct HX as [Hroom|HX]; [exfalso|done].
      destruct (room_clean _ _ _ _ Hok Hroom) as (i & b & Hb & HiH & Hd).
      { intros j c Hj Hc1 Hcn. specialize (Hmiss j).
        rewrite (buf_at_eq _ _ _ Hj), Hc1, Hcn, !Z.eqb_refl in Hmiss.
        by specialize (Hmiss (lookup_lru _ _ _ _ _ Hok Hj)). }
      destruct (bc_free _ _ _ Hok _ _ Hb HiH) as (_ & Hr & _).
      specialize (Hall i). rewrite (buf_at_eq _ _ _ Hb), Hr, Hd in Hall.
      assert (i ∈ rev (lru t)) as Hi.
      { rewrite list_elem_of_In. apply -> in_rev. rewrite <- list_elem_of_In. by eapply lookup_lru. }
      by specialize (Hall Hi).
Qed.

(** The check that the caller holds the buffer. *)
Lemma wp_holding_buf s t i b X (Q : bool -> S -> Prop) :
  at_ s [] t -> bufs t !! i = Some b -> block b = mksl 1 me ->
  (forall s', at_ s' [] t -> Q true s') -> wp (holdingsleep (buf_sl i)) X Q s.
Proof.
  intros Hat Hb Hl HQ. eapply wp_holdingsleep; [done|apply buf_lk_client|]. intros s' Hat'.
  cbn [sl_get buf_sl]. rewrite (buf_at_eq _ _ _ Hb), Hl. cbn. rewrite Z.eqb_refl. by apply HQ.
Qed.

(** Reading a block into a buffer that is neither valid nor dirty. *)
Lemma wp_iderw_read s t i b X (Q : unit -> S -> Prop) :
  at_ s [] t -> bufs t !! i = Some b -> block b = mksl 1 me ->
  has_flag B_VALID b = false -> has_flag B_DIRTY b = false -> bdev b = 1 ->
  0 <= blockno b < Z.of_nat (length (disk t)) ->
  (forall s', at_ s' [] (put_buf i (b <| bdata := disk_at t (blockno b) |>
                                      <| flags := Z.lor (flags b) B_VALID |>) t) -> Q tt s') ->
  wp (iderw i) X Q s.
Proof.
  intros Hat Hb Hl Hv Hd Hdev Hn HQ. unfold iderw. mstep. eapply wp_holding_buf; [done..|].
  intros s1 Hat1. cbn [negb]. mstep. mstep. rewrite (buf_at_eq _ _ _ Hb), nothing_to_do_flags, Hv, Hd, Hdev.
  cbn [andb negb Z.eqb Pos.eqb].
  destruct (Z.leb_spec (Z.of_nat (length (disk t))) (blockno b)); [lia|].
  do 2 mstep. rewrite (upd_buf_put _ _ _ _ Hb) in Hat0. fold (disk_at t (blockno b)) in Hat0.
  mstep. apply HQ. by rewrite (upd_put_buf _ _ _ _ _ Hb) in Hat2.
Qed.

(** Writing a dirty buffer out. *)
Lemma wp_iderw_write s t i b X (Q : unit -> S -> Prop) :
  at_ s [] t -> bufs t !! i = Some b -> block b = mksl 1 me ->
  has_flag B_DIRTY b = true -> bdev b = 1 -> 0 <= blockno b < Z.of_nat (length (disk t)) ->
  (forall s', at_ s' [] (put_buf i (b <| flags := Z.lor (Z.land (flags b) (Z.lnot B_DIRTY)) B_VALID |>)
       (t <| disk ::= <[Z.to_nat (blockno b) := bdata b]> |>
          <| history ::= cons (blockno b, bdata b) |>)) -> Q tt s') ->
  wp (iderw i) X Q s.
Proof.
  intros Hat Hb Hl Hd Hdev Hn HQ. unfold iderw. mstep. eapply wp_holding_buf; [done..|].
  intros s1 Hat1. cbn [negb]. mstep. mstep.
  rewrite (buf_at_eq _ _ _ Hb), nothing_to_do_flags, Hd, Hdev, andb_false_r.
  cbn [andb negb Z.eqb Pos.eqb].
  destruct (Z.leb_spec (Z.of_nat (length (disk t))) (blockno b)); [lia|].
  do 3 mstep. rewrite (upd_buf_put _ _ _ _ Hb) in Hat0. do 2 mstep. apply HQ.
  change (setter history (cons (blockno b, bdata b)) (setter disk (<[Z.to_nat (blockno b):=bdata b]>)
    (put_buf i (setter flags (fun f => Z.land f (Z.lnot B_DIRTY)) b) t)))
    with (put_buf i (setter flags (fun f => Z.land f (Z.lnot B_DIRTY)) b)
      (setter history (cons (blockno b, bdata b)) (setter disk (<[Z.to_nat (blockno b):=bdata b]>) t)))
    in Hat3.
  by rewrite (upd_put_buf _ _ _ _ b) in Hat3.
Qed.

Lemma wp_bread s t HH n X (Q : nat -> S -> Prop) :
  at_ s [] t -> bc_ok me HH t -> 0 <= n < Z.of_nat (length (disk t)) ->
  (forall i b, i ∈ HH -> bufs t !! i = Some b -> blockno b <> n) ->
  room t HH n \/ X (Panic "bget: no buffers") ->
  (forall s' t' i, at_ s' [] t' -> bread_post me t HH n i t' -> Q i s') ->
  wp (bread 1 n) X Q s.
Proof.
  intros Hat Hok Hn Hfree HX HQ. unfold bread. mstep. eapply wp_bget; [done..| |done].
  intros s1 i b Hgot Hat1. do 2 mstep.
  pose proof (disk_at_block _ _ _ _ Hok Hn) as Hblk.
  (* the block is on the disk only: read it *)
  assert (Hread : forall b0, bufs t !! i = Some b0 -> i ∉ HH ->
    (bdev b0 = 1 /\ blockno b0 = n \/ has_flag B_DIRTY b0 = false /\
     forall j c, bufs t !! j = Some c -> bdev c = 1 -> blockno c <> n) ->
    block b = mksl 1 me -> refcnt b = 1 -> bdev b = 1 -> blockno b = n ->
    has_flag B_VALID b = false -> has_flag B_DIRTY b = false -> has_flag B_DIRTY b0 = false ->
    content t n = disk_at t n -> wp (iderw i ;;; ret i) X Q s1).
  { intros b0 Hb0 HiH Hcase Hlk Hrc Hdev Hbn Hv Hd Hd0 Hc.
    pose proof (put_buf_lookup _ _ b _ Hb0) as Hb.
    mstep. eapply wp_iderw_read; [done..|cbn [disk]; by rewrite Hbn|]. intros s2 Hat2.
    rewrite put_buf_put in Hat2. mstep. eapply HQ; [done|].
    change (disk_at (put_buf i b t) (blockno b)) with (disk_at t (blockno b)). rewrite Hbn.
    set (b' := b <| bdata := disk_at t n |> <| flags := Z.lor (flags b) B_VALID |>).
    destruct (flags_set_valid b' (flags b) eq_refl) as [Hv' Hd']. rewrite <- has_dirty, Hd in Hd'.
    eapply bread_post_intro; try done; [congruence|by right]. }
  destruct Hgot as [b0 Hb0 Hdev Hbn HiH|b0 Hb0 Hr Hd HiH Hno];
    rewrite (buf_at_eq _ _ _ (put_buf_lookup _ _ _ _ Hb0)).
  - destruct (has_flag B_VALID b0) eqn:Hv.
    + change (has_flag B_VALID _) with (has_flag B_VALID b0). rewrite Hv. msteps. eapply HQ; [done|].
      assert (content t n = bdata b0) as Hc.
      { eapply content_cached; [done..|]. by apply caches_spec. }
      destruct (bc_free _ _ _ Hok _ _ Hb0 HiH) as (_ & _ & Hcl).
      apply (bread_post_intro _ _ _ _ b0); try done; [by left|exact (bc_data _ _ _ Hok _ _ Hb0)|].
      change (has_flag B_DIRTY b0 = true \/ bdata b0 = disk_at t n). rewrite <- Hbn.
      destruct (has_flag B_DIRTY b0); auto.
    + change (has_flag B_VALID _) with (has_flag B_VALID b0). rewrite Hv.
      assert (has_flag B_DIRTY b0 = false) as Hd.
      { destruct (has_flag B_DIRTY b0) eqn:Hd; [|done].
        by rewrite (bc_dirty _ _ _ Hok _ _ Hb0 Hd) in Hv. }
      apply (Hread b0); try done; [by left|]. apply content_uncached. intros j c Hj.
      destruct (caches n c) eqn:Hc; [|done]. apply caches_spec in Hc as (Hc1 & Hc2 & Hc3).
      assert (j = i) as -> by (apply (bc_uniq _ _ _ Hok j i c b0); congruence). congruence.
  - cbn. apply (Hread b0); try done; [by right|]. apply content_uncached. intros j c Hj.
    destruct (caches n c) eqn:Hc; [|done]. apply caches_spec in Hc as (Hc1 & Hc2 & Hc3).
    by destruct (Hno _ _ Hj Hc1).
Qed.

Lemma wp_buf_data s t i b X (Q : list Z -> S -> Prop) :
  at_ s [] t -> bufs t !! i = Some b -> Q (bdata b) s -> wp (buf_data i) X Q s.
Proof.
  intros Hat Hb HQ. unfold buf_data. do 2 mstep. rewrite (buf_at_eq _ _ _ Hb). by mstep.
Qed.

(** Changing the data of a held buffer changes the contents of its block. *)
Lemma wp_set_data s t HH i b f X (Q : unit -> S -> Prop) :
  at_ s [] t -> bc_ok me HH t -> i ∈ HH -> bufs t !! i = Some b -> is_block (f (bdata b)) ->
  (forall s', let t' := put_buf i (b <| bdata ::= f |>) t in
     at_ s' [] t' -> bc_ok me HH t' ->
     (forall m, content t' m = if m =? blockno b then f (bdata b) else content t m) ->
     (forall m, dirty_in t' m <-> dirty_in t m) ->
     Q tt s') ->
  wp (set_data i f) X Q s.
Proof.
  intros Hat Hok HiH Hb Hf HQ. unfold set_data. mstep. rewrite (upd_buf_put _ _ _ _ Hb) in Hat0.
  destruct (bc_held _ _ _ Hok _ HiH) as (b0 & Hb0 & Hl & Hd & Hn & Hv & Hr). simplify_eq.
  assert (bc_ok me HH (put_buf i (b <| bdata ::= f |>) t)) as Hok'
    by (by eapply bc_ok_modify).
  apply HQ; [done|done| |].
  - intros m. by apply (content_put_data me HH t i b (f (bdata b))).
  - intros m. by apply (dirty_in_put _ _ b).
Qed.

(** Writing a held buffer to the disk. *)
Lemma wp_bwrite s t HH i b X (Q : unit -> S -> Prop) :
  at_ s [] t -> bc_ok me HH t -> i ∈ HH -> bufs t !! i = Some b ->
  (forall s' b',
     let t' := put_buf i b' (written (blockno b) (bdata b) t) in
     at_ s' [] t' -> bc_ok me HH t' -> bdata b' = bdata b -> blockno b' = blockno b ->
     has_flag B_DIRTY b' = false ->
     (forall m, 0 <= m -> content t' m = content t m) ->
     (forall m, dirty_in t' m <-> dirty_in t m /\ m <> blockno b) ->
     Q tt s') ->
  wp (bwrite i) X Q s.
Proof.
  intros Hat Hok HiH Hb HQ.
  destruct (bc_held _ _ _ Hok _ HiH) as (b0 & Hb0 & Hl & Hd & Hn & Hv & Hr). simplify_eq.
  unfold bwrite. mstep. eapply wp_holding_buf; [done..|]. intros s1 Hat1. cbn [negb]. do 2 mstep.
  rewrite (upd_buf_put _ _ _ _ Hb) in Hat0.
  set (b1 := b <| flags ::= fun f => Z.lor f B_DIRTY |>) in *.
  destruct (flags_set_dirty b1 (flags b) eq_refl) as [Hd1 _].
  eapply wp_iderw_write; [done|by eapply put_buf_lookup|done..|]. intros s2 Hat2.
  set (b2 := b1 <| flags := _ |>) in Hat2.
  destruct (flags_written b2 _ eq_refl) as [Hv2 Hd2].
  change (at_ s2 [] (put_buf i b2 (put_buf i b1 (written (blockno b) (bdata b) t)))) in Hat2.
  rewrite put_buf_put in Hat2.
  destruct (bc_ok_written _ _ _ _ _ Hok HiH Hb) as [Hokw Hcw].
  set (tw := written _ _ t) in *.
  assert (bc_ok me HH (put_buf i b2 tw)) as Hok2.
  { eapply (bc_ok_modify _ _ _ _ b); try done. exact (bc_data _ _ _ Hok _ _ Hb). }
  apply (HQ s2 b2); try done.
  - intros m Hm. rewrite (content_update me HH HH tw _ i b b2 m Hokw Hok2) by done.
    rewrite <- Hcw by done. destruct (caches m b2) eqn:Hc2.
    + symmetry. apply (content_cached me HH tw m i b); [done..|].
      apply caches_spec in Hc2 as (? & ? & ?). by apply caches_spec.
    + destruct (caches m b) eqn:Hc; [|done]. apply caches_spec in Hc as (? & ? & ?).
      assert (caches m b2 = true) by by apply caches_spec. congruence.
  - intros m. split.
    + intros (j & c & Hj & Hcn & Hcd). destruct (decide (j = i)) as [->|Hne].
      { rewrite (put_buf_lookup tw i b2 b Hb) in Hj. congruence. }
      cbn in Hj. rewrite list_lookup_insert_ne in Hj by done. split; [by exists j, c|].
      intros Hm. apply Hne. pose proof (bc_dirty _ _ _ Hok _ _ Hj Hcd) as Hcv.
      destruct (bc_valid _ _ _ Hok _ _ Hj Hcv) as [? _].
      apply (bc_uniq _ _ _ Hok j i c b); congruence.
    + intros [(j & c & Hj & Hcn & Hcd) Hm]. exists j, c. split; [|done].
      cbn. rewrite list_lookup_insert_ne; [done|]. congruence.
Qed.

(** Giving a buffer back: its data are on the disk or pinned. *)
Lemma wp_brelse s t HH HH' i b X (Q : unit -> S -> Prop) :
  at_ s [] t -> bc_ok me HH t -> i ∈ HH -> bufs t !! i = Some b ->
  (has_flag B_DIRTY b = true \/ bdata b = disk_at t (blockno b)) ->
  (forall j, j ∈ HH' <-> j ∈ HH /\ j <> i) ->
  (forall s' t', at_ s' [] t' -> bc_ok me HH' t' ->
     (forall m, content t' m = content t m) ->
     (disk t' = disk t /\ history t' = history t /\ lg t' = lg t /\ sb t' = sb t /\
      inodes t' = inodes t) ->
     (forall j, j ∈ HH' -> bufs t' !! j = bufs t !! j) ->
     (forall m, dirty_in t' m <-> dirty_in t m) ->
     Q tt s') ->
  wp (brelse i) X Q s.
Proof.
  intros Hat Hok HiH Hb Hdata HHs HQ.
  destruct (bc_held _ _ _ Hok _ HiH) as (b0 & Hb0 & Hl & Hd & Hn & Hv & Hr). simplify_eq.
  assert (i ∈ lru t /\ NoDup (lru t)) as [Hil Hnd].
  { rewrite (bc_lru _ _ _ Hok). split; [|apply NoDup_seq]. apply elem_of_seq.
    rewrite <- (bc_len _ _ _ Hok). apply lookup_lt_Some in Hb. lia. }
  unfold brelse. mstep. eapply wp_holding_buf; [done..|]. intros s1 Hat1. cbn [negb]. mstep.
  eapply wp_releasesleep; [done|apply buf_lk_client|]. intros s2 Hat2.
  cbn [sl_set buf_sl] in Hat2. rewrite (upd_buf_put _ _ _ _ Hb) in Hat2.
  do 4 mstep. rewrite (upd_put_buf _ _ _ _ _ Hb) in Hat3. mstep. mstep.
  rewrite (buf_at_eq _ _ _ (put_buf_lookup _ _ _ _ Hb)).
  set (b' := b <| block := sl_free |> <| refcnt ::= _ |>) in *.
  assert (b' = b <| block := sl_free |> <| refcnt := 0 |>) as Hb'.
  { unfold b', setter. cbn. by rewrite Hr. }
  rewrite Hb' in *. cbn [refcnt setter Z.eqb]. do 3 mstep.
  destruct (bc_ok_release _ _ _ _ _ _ _ Hok HiH Hb Hdata HHs (move_front _ _ Hnd Hil))
    as (Hok' & Hc & Hh & Hdi).
  by eapply HQ.
Qed.
End rules.
