(* ===== verification/Log.v ===== *)
(** * The log ([log.c])

    The operations of [log.c] over the buffer cache, with the superblock
    reader of [fs.c] that [initlog] calls. *)
From Stdlib Require Import ZArith Lia.
From stdpp Require Import base list gmap strings.
From S2P Require Import Prelude Params Bytes Spinlock Proc Sched SchedInv Kern Sleeplock FsData Bio.
#[local] Open Scope Z_scope.
#[local] Open Scope kernel_scope.

(** [sizeof(struct logheader)] *)
Definition LOGHEADER_SIZE : Z := 4 * (LOGSIZE + 1).

Section ops.
Context {S : Type} `{KernOps S fsstate}.

(** [log] and its fields. *)
Definition get_log : M S logst := t <~ k_get; ret (lg t).
Definition upd_log (f : logst -> logst) : M S unit := k_mod (fun t => t <| lg ::= f |>).

(** [log.lh.block[i]], an array of [LOGSIZE] ints. *)
Definition lh_at (i : Z) : M S Z :=
  l <~ get_log;
  if (0 <=? i) && (i <? LOGSIZE) then of_option (Undef "lh.block") (lh_block l !! Z.to_nat i)
  else undef "lh.block".
Definition set_lh (i v : Z) : M S unit :=
  if (0 <=? i) && (i <? LOGSIZE) then upd_log (fun l => l <| lh_block ::= <[Z.to_nat i := v]> |>)
  else undef "lh.block".

(** [for (tail = 0; tail < log.lh.n; tail++)] *)
Definition for_tail (n : Z) (body : Z -> M S unit) : M S unit :=
  for_each (seq 0 (Z.to_nat n)) (fun k => body (Z.of_nat k)).

(** [readsb] of [fs.c] *)
Definition readsb (dev : Z) : M S superblock :=
  bp <~ bread dev 1;
  d <~ buf_data bp;
  brelse bp ;;;
  ret (sb_decode d).

Definition install_trans : M S unit :=
  l <~ get_log;
  for_tail (lh_n l) (fun tail =>
    l <~ get_log;
    lbuf <~ bread (ldev l) (lstart l + tail + 1);
    dst <~ lh_at tail;
    dbuf <~ bread (ldev l) (u32 dst);
    d <~ buf_data lbuf;
    set_data dbuf (fun _ => d) ;;;
    bwrite dbuf ;;;
    brelse lbuf ;;;
    brelse dbuf).

Definition read_head : M S unit :=
  l <~ get_log;
  bp <~ bread (ldev l) (lstart l);
  lh <~ buf_data bp;
  upd_log (fun l => l <| lh_n := i32 (word_at lh 0) |>) ;;;
  l <~ get_log;
  for_tail (lh_n l) (fun i => set_lh i (i32 (word_at lh (i + 1)))) ;;;
  brelse bp.

Definition write_head : M S unit :=
  l <~ get_log;
  bp <~ bread (ldev l) (lstart l);
  set_data bp (fun hb => set_word hb 0 (lh_n l)) ;;;
  for_tail (lh_n l) (fun i =>
    b <~ lh_at i;
    set_data bp (fun hb => set_word hb (i + 1) b)) ;;;
  bwrite bp ;;;
  brelse bp.

Definition recover_from_log : M S unit :=
  read_head ;;;
  install_trans ;;;
  upd_log (fun l => l <| lh_n := 0 |>) ;;;
  write_head.

Definition initlog (dev : Z) : M S unit :=
  if BSIZE <=? LOGHEADER_SIZE then panic "initlog: too big logheader"
  else
    k_initlock log_lock "log" ;;;
    sb <~ readsb dev;
    upd_log (fun l => l <| lstart := sb_logstart sb |> <| lsize := sb_nlog sb |> <| ldev := dev |>) ;;;
    recover_from_log.

Definition begin_op : M S unit :=
  k_acquire log_lock ;;;
  sleep_while (l <~ get_log;
    ret (negb (committing l =? 0) || (LOGSIZE <? lh_n l + (outstanding l + 1) * MAXOPBLOCKS)))
    (ChAddr log_lock) log_lock ;;;
  upd_log (fun l => l <| outstanding ::= fun n => n + 1 |>) ;;;
  k_release log_lock.

Definition write_log : M S unit :=
  l <~ get_log;
  for_tail (lh_n l) (fun tail =>
    l <~ get_log;
    to <~ bread (ldev l) (lstart l + tail + 1);
    src <~ lh_at tail;
    from <~ bread (ldev l) (u32 src);
    d <~ buf_data from;
    set_data to (fun _ => d) ;;;
    bwrite to ;;;
    brelse from ;;;
    brelse to).

Definition commit : M S unit :=
  l <~ get_log;
  if 0 <? lh_n l then
    write_log ;;;
    write_head ;;;
    install_trans ;;;
    upd_log (fun l => l <| lh_n := 0 |>) ;;;
    write_head
  else ret tt.

Definition end_op : M S unit :=
  k_acquire log_lock ;;;
  upd_log (fun l => l <| outstanding ::= fun n => n - 1 |>) ;;;
  l <~ get_log;
  if negb (committing l =? 0) then panic "log.committing"
  else
    do_commit <~ (if outstanding l =? 0 then
                    upd_log (fun l => l <| committing := 1 |>) ;;; ret true
                  else k_wakeup (ChAddr log_lock) ;;; ret false);
    k_release log_lock ;;;
    if do_commit : bool then
      commit ;;;
      k_acquire log_lock ;;;
      upd_log (fun l => l <| committing := 0 |>) ;;;
      k_wakeup (ChAddr log_lock) ;;;
      k_release log_lock
    else ret tt.

Definition log_write (i : nat) : M S unit :=
  l <~ get_log;
  if (LOGSIZE <=? lh_n l) || (lsize l - 1 <=? lh_n l) then panic "too big a transaction"
  else if outstanding l <? 1 then panic "log_write outside of trans"
  else
    k_acquire log_lock ;;;
    t <~ k_get;
    let bn := blockno (buf_at t i) in
    found <~ for_until (seq 0 (Z.to_nat (lh_n l))) (fun k =>
      b <~ lh_at (Z.of_nat k); ret (if u32 b =? bn then Some (Z.of_nat k) else None));
    let i' := default (lh_n l) found in
    set_lh i' (i32 bn) ;;;
    (if i' =? lh_n l then upd_log (fun l => l <| lh_n ::= fun n => n + 1 |>) else ret tt) ;;;
    k_mod (upd_buf i (fun b => b <| flags ::= fun f => Z.lor f B_DIRTY |>)) ;;;
    k_release log_lock.
End ops.

(** ** What the operations do to the blocks *)

(** [same_blocks t t']: only which blocks are cached differs. *)
Record same_blocks (t t' : fsstate) : Prop := {
  sm_content : forall m, content t' m = content t m;
  sm_frame : disk t' = disk t /\ history t' = history t /\ lg t' = lg t /\ sb t' = sb t /\
    inodes t' = inodes t;
  sm_dirty : forall m, dirty_in t' m <-> dirty_in t m
}.

#[export] Instance same_blocks_preorder : PreOrder same_blocks.
Proof.
  split.
  - intros t. split; done.
  - intros t1 t2 t3 [Hc1 (?&?&?&?&?) Hd1] [Hc2 (?&?&?&?&?) Hd2]. split.
    + intros m. by rewrite Hc2.
    + repeat split; congruence.
    + intros m. by rewrite Hd2.
Qed.

Lemma bread_same me t HH n i t' : bread_post me t HH n i t' -> same_blocks t t'.
Proof. intros [_ _ _ Hc Hf _ Hd]. by split. Qed.

Lemma room_same t t' HH n : same_blocks t t' -> room t HH n -> room t' HH n.
Proof.
  intros [_ _ Hd] [Hn|(dl & Hdl & Hlen)]; [left; by apply Hd|right].
  exists dl. split; [|done]. intros m Hm. by apply Hdl, Hd.
Qed.

(** [stored t n d t']: block [n] was written to the disk with data [d]. *)
Record stored (t : fsstate) (n : Z) (d : list Z) (t' : fsstate) : Prop := {
  st_content : forall m, 0 <= m -> content t' m = if m =? n then d else content t m;
  st_disk : forall m, 0 <= m -> disk_at t' m = if m =? n then d else disk_at t m;
  st_len : length (disk t') = length (disk t);
  st_hist : history t' = (n, d) :: history t;
  st_dirty : forall m, dirty_in t' m <-> dirty_in t m /\ m <> n;
  st_frame : lg t' = lg t /\ sb t' = sb t /\ inodes t' = inodes t
}.

Lemma stored_same t1 t2 t3 t4 n d :
  same_blocks t1 t2 -> stored t2 n d t3 -> same_blocks t3 t4 -> stored t1 n d t4.
Proof.
  intros [Hc1 (Hd1 & Hh1 & ?&?&?) Hdi1] [Hc2 Hd2 Hl2 Hh2 Hdi2 (?&?&?)] [Hc3 (Hd3 & Hh3 & ?&?&?) Hdi3].
  split.
  - intros m Hm. rewrite Hc3, Hc2, Hc1 by done. done.
  - intros m Hm. transitivity (disk_at t3 m); [unfold disk_at; by rewrite Hd3|].
    rewrite Hd2 by done. unfold disk_at. by rewrite Hd1.
  - by rewrite Hd3, Hl2, Hd1.
  - by rewrite Hh3, Hh2, Hh1.
  - intros m. by rewrite Hdi3, Hdi2, Hdi1.
  - repeat split; congruence.
Qed.

Section rules.
Context {S : Type} `{KernLaws S fsstate}.
Implicit Types (s : S) (t : fsstate) (X : stop -> Prop).
Abbreviation me := (my_pid (S := S) (T := fsstate)).

Lemma wp_get_log s L t X (Q : logst -> S -> Prop) : at_ s L t -> Q (lg t) s -> wp get_log X Q s.
Proof. intros Hat HQ. unfold get_log. do 2 mstep. by mstep. Qed.

(** Writing out a held buffer whose data were changed to [d]. *)
Lemma wp_store_from {A} s t HH i b d (k : M S A) X (Q : A -> S -> Prop) :
  at_ s [] (put_buf i (b <| bdata := d |>) t) -> bc_ok me HH t -> i ∈ HH ->
  bufs t !! i = Some b -> is_block d ->
  (forall s' t' b', at_ s' [] t' -> bc_ok me HH t' -> bufs t' !! i = Some b' ->
     blockno b' = blockno b -> bdata b' = disk_at t' (blockno b') ->
     (forall j, j <> i -> bufs t' !! j = bufs t !! j) ->
     stored t (blockno b) d t' -> wp k X Q s') ->
  wp (bwrite i ;;; k) X Q s.
Proof.
  intros Hat Hok HiH Hb Hf HQ. destruct (bc_held _ _ _ Hok _ HiH) as (b0 & Hb0 & _ & Hd & Hn & Hv & _).
  simplify_eq. set (t1 := put_buf i _ t) in *.
  assert (bc_ok me HH t1) as Hok1 by by eapply bc_ok_modify.
  mstep. eapply wp_bwrite; [done|done|done|by eapply put_buf_lookup|].
  intros s2 b2 t2 Hat2 Hok2 Hdata Hbn _ Hc2 Hd2. cbn [blockno bdata setter] in *.
  set (tw := written _ _ t1) in t2.
  assert (bufs t2 !! i = Some b2) as Hi2 by by apply (put_buf_lookup tw _ _ _ (put_buf_lookup _ _ _ _ Hb)).
  assert (forall m, 0 <= m -> disk_at t2 m = if m =? blockno b then d else disk_at t m) as Hdisk.
  { intros m Hm. change (disk_at t2 m) with (disk_at (written (blockno b) d t) m).
    by apply disk_at_written. }
  eapply (HQ s2 t2 b2); try done.
  - rewrite Hdata, Hbn, Hdisk, Z.eqb_refl by lia. done.
  - intros j Hj. cbn. by rewrite !list_lookup_insert_ne.
  - split; try done.
    + intros m Hm. rewrite Hc2 by done. by apply (content_put_data me HH t i b d m).
    + cbn. apply length_insert.
    + intros m. rewrite Hd2. unfold t1. rewrite (dirty_in_put _ _ b) by done. done.
Qed.

(** Changing the data of a held buffer and writing it out. *)
Lemma wp_store {A} s t HH i b f (k : M S A) X (Q : A -> S -> Prop) :
  at_ s [] t -> bc_ok me HH t -> i ∈ HH -> bufs t !! i = Some b -> is_block (f (bdata b)) ->
  (forall s' t' b', at_ s' [] t' -> bc_ok me HH t' -> bufs t' !! i = Some b' ->
     blockno b' = blockno b -> bdata b' = disk_at t' (blockno b') ->
     (forall j, j <> i -> bufs t' !! j = bufs t !! j) ->
     stored t (blockno b) (f (bdata b)) t' -> wp k X Q s') ->
  wp (set_data i f ;;; bwrite i ;;; k) X Q s.
Proof.
  intros Hat Hok HiH Hb Hf HQ. mstep. unfold set_data. mstep.
  rewrite (upd_buf_put _ _ _ _ Hb) in Hat0.
  by apply (wp_store_from _ t HH i b (f (bdata b))).
Qed.

(** Copying block [src] to block [dst] through the cache, and writing it. *)
Lemma wp_copy s t i j bi bj X (Q : unit -> S -> Prop) :
  at_ s [] t -> bc_ok me [i; j] t -> i <> j ->
  bufs t !! i = Some bi -> bufs t !! j = Some bj ->
  (has_flag B_DIRTY bi = true \/ bdata bi = disk_at t (blockno bi)) ->
  (forall s' t', at_ s' [] t' -> bc_ok me [] t' -> stored t (blockno bj) (bdata bi) t' -> Q tt s') ->
  wp (d <~ buf_data i; set_data j (fun _ => d) ;;; bwrite j ;;; brelse i ;;; brelse j) X Q s.
Proof.
  intros Hat Hok Hij Hi Hj Hclean HQ. mstep. eapply wp_buf_data; [done..|].
  assert (blockno bi <> blockno bj) as Hne.
  { intros Heq. apply Hij. destruct (bc_held _ _ _ Hok i) as (b1 & ? & _ & ? & _); [set_solver|].
    destruct (bc_held _ _ _ Hok j) as (b2 & ? & _ & ? & _); [set_solver|]. simplify_eq.
    by apply (bc_uniq _ _ _ Hok i j bi bj). }
  destruct (bc_held _ _ _ Hok i) as (b1 & Hb1 & _ & _ & Hr & _); [set_solver|]. simplify_eq.
  eapply wp_store; [done..|set_solver|done| |].
  { exact (bc_data _ _ _ Hok _ _ Hi). }
  intros s1 t1 bj1 Hat1 Hok1 Hj1 Hbn1 Hcl1 Hoth1 Hst.
  assert (bufs t1 !! i = Some bi) as Hi1 by by rewrite Hoth1.
  mstep. eapply (wp_brelse _ _ [i; j] [j]); [done..|set_solver|done| | |].
  { destruct Hclean as [?|Hcl]; [by left|right]. rewrite (st_disk _ _ _ _ Hst) by lia.
    by destruct (Z.eqb_spec (blockno bi) (blockno bj)). }
  { set_solver. }
  intros s2 t2 Hat2 Hok2 Hc2 (Hd2 & Hf2) Hh2 Hdi2.
  assert (bufs t2 !! j = Some bj1) as Hj2 by (rewrite Hh2; [done|set_solver]).
  eapply (wp_brelse _ _ [j] []); [done..|set_solver|done| |set_solver|].
  { right. rewrite Hcl1. unfold disk_at. by rewrite Hd2. }
  intros s3 t3 Hat3 Hok3 Hc3 Hf3 Hh3 Hdi3. eapply HQ; [done|done|].
  eapply stored_same; [reflexivity|done|]. transitivity t2; by split.
Qed.

Lemma wp_lh_at s L t x v X (Q : Z -> S -> Prop) :
  at_ s L t -> 0 <= x < LOGSIZE -> lh_block (lg t) !! Z.to_nat x = Some v -> Q v s ->
  wp (lh_at x) X Q s.
Proof.
  intros Hat Hx Hv HQ. unfold lh_at. mstep. eapply wp_get_log; [done|].
  replace ((0 <=? x) && (x <? LOGSIZE)) with true by lia. by eapply wp_some.
Qed.

(** Blocks [a] and then [log.lh.block[x]] are read. *)
Lemma wp_bread2 {A} s t a b x (k : nat -> nat -> M S A) X (Q : A -> S -> Prop) :
  at_ s [] t -> bc_ok me [] t -> a <> b ->
  0 <= a < Z.of_nat (length (disk t)) -> 0 <= b < Z.of_nat (length (disk t)) ->
  0 <= x < LOGSIZE -> lh_block (lg t) !! Z.to_nat x = Some b -> b < 2 ^ 32 ->
  room t [] a \/ X (Panic "bget: no buffers") ->
  (forall i, room t [i] b) \/ X (Panic "bget: no buffers") ->
  (forall s' t' i j bi bj, at_ s' [] t' -> bc_ok me [j; i] t' -> same_blocks t t' -> i <> j ->
     bufs t' !! i = Some bi -> bufs t' !! j = Some bj -> blockno bi = a -> blockno bj = b ->
     bdata bi = content t a -> bdata bj = content t b ->
     (has_flag B_DIRTY bi = true \/ bdata bi = disk_at t' a) ->
     (has_flag B_DIRTY bj = true \/ bdata bj = disk_at t' b) ->
     wp (k i j) X Q s') ->
  wp (i <~ bread 1 a; v <~ lh_at x; j <~ bread 1 (u32 v); k i j) X Q s.
Proof.
  intros Hat Hok Hne Ha Hb Hx Hv Hb32 HX1 HX2 HQ. mstep. eapply wp_bread; [done..|set_solver|done|].
  intros s1 t1 i Hat1 Hp1. pose proof (bread_same _ _ _ _ _ _ Hp1) as Hs1.
  destruct Hp1 as [Hok1 _ (bi & Hbi & Hni & Hdi & Hci) Hc1 (Hd1 & _ & Hl1 & _) _ _].
  mstep. eapply wp_lh_at; [done|done|by rewrite Hl1|]. rewrite u32_small by lia.
  mstep. eapply wp_bread; [done|done|by rewrite Hd1| | |].
  2: { destruct HX2 as [HX2|HX2]; [left|by right]. eapply room_same; [done|apply HX2]. }
  { intros j c ->%list_elem_of_singleton Hc. simplify_eq. done. }
  intros s2 t2 j Hat2 Hp2. pose proof (bread_same _ _ _ _ _ _ Hp2) as Hs2.
  destruct Hp2 as [Hok2 Hnew (bj & Hbj & Hnj & Hdj & Hcj) _ (Hd2 & _) Hh2 _].
  assert (disk_at t2 = disk_at t) as Hdd.
  { unfold disk_at. by rewrite Hd2, Hd1. }
  assert (disk_at t1 = disk_at t) as Hdd1 by (unfold disk_at; by rewrite Hd1).
  eapply (HQ s2 t2 i j bi bj); try done.
  - by transitivity t1.
  - intros ->. set_solver.
  - rewrite Hh2; [done|set_solver].
  - by rewrite Hdj, Hc1.
  - by rewrite Hdd.
  - rewrite Hdd, <- Hdd1. done.
Qed.
End rules.
