(* ===== verification/LogRec.v ===== *)
(** * Commit and recovery

    [commit] as a sequence of disk writes, and what [recover_from_log] makes
    of any prefix of them: the updates of a transaction reach the disk all or
    not at all. *)
From Stdlib Require Import ZArith Lia.
From stdpp Require Import base list gmap strings.
From S2P Require Import Prelude Params Bytes Spinlock Proc Sched SchedInv Kern Sleeplock FsData Bio Log.
#[local] Open Scope Z_scope.
#[local] Open Scope kernel_scope.

(** ** Transactions *)

(** The log is at [start], the blocks [bl] are those of the transaction. *)
Record txn (t : fsstate) (start size : Z) (bl : list Z) : Prop := {
  tx_log : lstart (lg t) = start /\ lsize (lg t) = size /\ ldev (lg t) = 1 /\
    lh_n (lg t) = Z.of_nat (length bl);
  tx_head : length (lh_block (lg t)) = Z.to_nat LOGSIZE /\
    forall k b, bl !! k = Some b -> lh_block (lg t) !! k = Some b;
  tx_size : Z.of_nat (length bl) < size /\ Z.of_nat (length bl) <= LOGSIZE;
  tx_area : 1 < start /\ start + size <= Z.of_nat (length (disk t)) < 2 ^ 31;
  tx_nodup : NoDup bl;
  tx_data : forall b, b ∈ bl -> 0 <= b < Z.of_nat (length (disk t)) /\ (b < start \/ start + size <= b)
}.

(** The pinned blocks are among [dl], and there are buffers to spare, or the
    blocks [bl] have theirs. *)
Definition pins (t : fsstate) (bl dl : list Z) : Prop :=
  (forall m, dirty_in t m -> m ∈ dl) /\ (length dl < NBUF)%nat /\
  ((length dl + 1 < NBUF)%nat \/ forall b, b ∈ bl -> dirty_in t b).

(** A sequence of stores. *)
Inductive stores : fsstate -> list (Z * list Z) -> fsstate -> Prop :=
| stores_nil t : stores t [] t
| stores_cons t n d t1 l t2 : stored t n d t1 -> stores t1 l t2 -> stores t ((n, d) :: l) t2.

(** The effect of a list of writes on a disk. *)
Definition awrite (f : Z -> list Z) (w : Z * list Z) : Z -> list Z :=
  fun m => if m =? fst w then snd w else f m.
Definition awrites (f : Z -> list Z) (l : list (Z * list Z)) : Z -> list Z := fold_left awrite l f.

Lemma awrites_app f l1 l2 m : awrites f (l1 ++ l2) m = awrites (awrites f l1) l2 m.
Proof. unfold awrites. by rewrite fold_left_app. Qed.

Lemma awrites_ext f g l m : f m = g m -> awrites f l m = awrites g l m.
Proof.
  unfold awrites. revert f g. induction l as [|w l IH]; intros f g Hfg; cbn; [done|].
  apply IH. unfold awrite. by destruct (m =? fst w).
Qed.

Lemma awrites_other f l m : m ∉ l.*1 -> awrites f l m = f m.
Proof.
  unfold awrites. revert f. induction l as [|w l IH]; intros f Hm; cbn; [done|].
  rewrite IH by set_solver. unfold awrite. destruct (Z.eqb_spec m w.1); [set_solver|done].
Qed.

Lemma awrites_at f l k n d :
  NoDup l.*1 -> l !! k = Some (n, d) -> awrites f l n = d.
Proof.
  unfold awrites. revert f k. induction l as [|w l IH]; intros f k Hnd Hk; [done|].
  cbn in Hnd |- *. apply NoDup_cons in Hnd as [Hw Hnd]. destruct k as [|k]; cbn in Hk.
  - simplify_eq. change (awrites (awrite f (n, d)) l n = d).
    rewrite awrites_other by done. unfold awrite. cbn. by rewrite Z.eqb_refl.
  - by eapply IH.
Qed.

(** What a sequence of stores leaves. *)
Record stores_post (t : fsstate) (l : list (Z * list Z)) (t' : fsstate) : Prop := {
  sp_content : forall m, 0 <= m -> content t' m = awrites (content t) l m;
  sp_disk : forall m, 0 <= m -> disk_at t' m = awrites (disk_at t) l m;
  sp_len : length (disk t') = length (disk t);
  sp_hist : history t' = rev l ++ history t;
  sp_dirty : forall m, dirty_in t' m <-> dirty_in t m /\ m ∉ l.*1;
  sp_frame : lg t' = lg t /\ sb t' = sb t /\ inodes t' = inodes t
}.

Lemma stores_spec t l t' : stores t l t' -> stores_post t l t'.
Proof.
  induction 1 as [t|t n d t1 l t2 [Hc Hd Hl Hh Hdi Hf] _ [Hc' Hd' Hl' Hh' Hdi' Hf']].
  - split; try done. intros m. split; [|by intros [? _]]. intros ?. split; [done|set_solver].
  - split.
    + intros m Hm. rewrite Hc' by done. cbn. apply awrites_ext. by rewrite Hc.
    + intros m Hm. rewrite Hd' by done. cbn. apply awrites_ext. by rewrite Hd.
    + by rewrite Hl'.
    + rewrite Hh', Hh. cbn. by rewrite <- app_assoc.
    + intros m. rewrite Hdi', Hdi. cbn. set_solver.
    + destruct Hf as (?&?&?), Hf' as (?&?&?). repeat split; congruence.
Qed.

Lemma stores_snoc t l t1 n d t2 : stores t l t1 -> stored t1 n d t2 -> stores t (l ++ [(n, d)]) t2.
Proof.
  induction 1; intros Hst; cbn.
  - eapply stores_cons; [done|constructor].
  - eapply stores_cons; eauto.
Qed.

Lemma stores_app t l1 t1 l2 t2 : stores t l1 t1 -> stores t1 l2 t2 -> stores t (l1 ++ l2) t2.
Proof. induction 1; intros Hst; cbn; [done|]. eapply stores_cons; eauto. Qed.

(** The writes of the three phases. *)
Definition log_writes (start : Z) (f : Z -> list Z) (bl : list Z) : list (Z * list Z) :=
  imap (fun k b => (start + Z.of_nat k + 1, f b)) bl.
Definition home_writes (start : Z) (f : Z -> list Z) (bl : list Z) : list (Z * list Z) :=
  imap (fun k b => (b, f (start + Z.of_nat k + 1))) bl.

(** [hd] is a header block for [n] blocks [bl]. *)
Definition is_head (hd : list Z) (bl : list Z) : Prop :=
  is_block hd /\ word_at hd 0 = Z.of_nat (length bl) /\
  forall k b, bl !! k = Some b -> word_at hd (Z.of_nat k + 1) = b.

Lemma imap_take {A B} (f : nat -> A -> B) l k : take k (imap f l) = imap f (take k l).
Proof.
  revert f k. induction l as [|x l IH]; intros f [|k]; csimpl; [done..|]. by rewrite IH.
Qed.

Lemma txn_frame t t' start size bl :
  txn t start size bl -> lg t' = lg t -> length (disk t') = length (disk t) -> txn t' start size bl.
Proof. intros [] Hl Hd. split; rewrite ?Hl, ?Hd; done. Qed.

Lemma log_writes_fst start f bl : (log_writes start f bl).*1 = imap (fun k _ => start + Z.of_nat k + 1) bl.
Proof. unfold log_writes. rewrite fmap_imap. done. Qed.

Lemma log_writes_elem start f bl m :
  m ∈ (log_writes start f bl).*1 -> start < m <= start + Z.of_nat (length bl).
Proof.
  rewrite log_writes_fst, elem_of_lookup_imap. intros (k & b & -> & Hk).
  apply lookup_lt_Some in Hk. lia.
Qed.

Lemma home_writes_fst start f bl : (home_writes start f bl).*1 = bl.
Proof.
  apply list_eq. intros k. unfold home_writes. rewrite list_lookup_fmap, list_lookup_imap.
  by destruct (bl !! k).
Qed.

(** After stores outside [b], there is a buffer for each block. *)
Lemma pins_room t t' l bl dl : pins t bl dl -> stores_post t l t' -> forall n, room t' [] n.
Proof.
  intros (Hdl & Hlen & _) Hp n. right. exists dl. cbn. split; [|lia].
  intros m [Hm _]%(sp_dirty _ _ _ Hp). by apply Hdl.
Qed.

Lemma pins_room1 t t' l bl dl b :
  pins t bl dl -> stores_post t l t' -> b ∈ bl -> b ∉ l.*1 -> forall i, room t' [i] b.
Proof.
  intros (Hdl & _ & [Hlen|Hall]) Hp Hb Hl i; [right|left].
  - exists dl. cbn. split; [|lia]. intros m [Hm _]%(sp_dirty _ _ _ Hp). by apply Hdl.
  - apply (sp_dirty _ _ _ Hp). split; [by apply Hall|done].
Qed.

Lemma take_snoc {A} (l : list A) k x : l !! k = Some x -> take (S k) l = take k l ++ [x].
Proof. intros Hk. by apply take_S_r. Qed.

(** The blocks of the transaction are those pinned in the cache. *)
Definition pinned (t : fsstate) (bl : list Z) : Prop := forall m, dirty_in t m <-> m ∈ bl.

Lemma pinned_pins t bl : pinned t bl -> (length bl < NBUF)%nat -> pins t bl bl.
Proof.
  intros Hp Hlen. split; [by intros m Hm%Hp|]. split; [done|]. right. intros b Hb. by apply Hp.
Qed.

(** The writes of [commit], in order. *)
Definition commit_writes (start : Z) (f : Z -> list Z) (bl : list Z) (hd1 hd0 : list Z) :
    list (Z * list Z) :=
  log_writes start f bl ++ (start, hd1) :: map (fun b => (b, f b)) bl ++ [(start, hd0)].

(** A block that a write of the log holds. *)
Lemma log_writes_at start f g bl k b :
  bl !! k = Some b -> awrites g (log_writes start f bl) (start + Z.of_nat k + 1) = f b.
Proof.
  intros Hk. apply (awrites_at _ _ k).
  - rewrite log_writes_fst. apply NoDup_alt. intros i j x Hi Hj.
    rewrite list_lookup_imap in Hi, Hj. destruct (bl !! i), (bl !! j); cbn in *; simplify_eq. lia.
  - unfold log_writes. by rewrite list_lookup_imap, Hk.
Qed.

Lemma home_writes_eq start f g bl :
  (forall k b, bl !! k = Some b -> g (start + Z.of_nat k + 1) = f b) ->
  home_writes start g bl = map (fun b => (b, f b)) bl.
Proof.
  intros Hg. apply list_eq. intros k. unfold home_writes. rewrite list_lookup_imap.
  change (map (fun b => (b, f b)) bl) with ((fun b => (b, f b)) <$> bl).
  rewrite list_lookup_fmap. destruct (bl !! k) as [b|] eqn:Hb; [|done]. cbn. by rewrite (Hg k b).
Qed.

(** Truncating the in-memory header. *)
Definition clear_head (t : fsstate) : fsstate := t <| lg ::= fun l => l <| lh_n := 0 |> |>.

Lemma bc_ok_log me HH t f : bc_ok me HH t -> bc_ok me HH (t <| lg ::= f |>).
Proof. intros []. by split. Qed.

Lemma txn_clear t start size bl : txn t start size bl -> 0 < size -> txn (clear_head t) start size [].
Proof.
  intros [(?&?&?&?) [? _] _ ? _ _] Hs. split.
  - done.
  - split; [done|]. intros k b Hk. by rewrite lookup_nil in Hk.
  - unfold LOGSIZE, MAXOPBLOCKS. cbn. lia.
  - done.
  - constructor.
  - set_solver.
Qed.

(** Outside the log area. *)
Definition data_block (start size m : Z) : Prop := 0 <= m /\ (m < start \/ start + size <= m).

Lemma map_writes_fst (f : Z -> list Z) bl : (map (fun b => (b, f b)) bl).*1 = bl.
Proof. induction bl as [|b bl IH]; csimpl; [done|]. by rewrite IH. Qed.

Lemma map_writes_at (f g : Z -> list Z) bl m :
  NoDup bl -> awrites g (map (fun b => (b, f b)) bl) m = if decide (m ∈ bl) then f m else g m.
Proof.
  intros Hnd. case_decide as Hm.
  - apply list_elem_of_lookup in Hm as [k Hk]. apply (awrites_at _ _ k).
    + by rewrite map_writes_fst.
    + change (((fun b => (b, f b)) <$> bl) !! k = Some (m, f m)). by rewrite list_lookup_fmap, Hk.
  - apply awrites_other. by rewrite map_writes_fst.
Qed.

(** The disk after the first [j] writes of [commit]. *)
Section crash.
Context (start size : Z) (bl : list Z) (hd1 hd0 : list Z) (old new : Z -> list Z).
Context (Hnd : NoDup bl) (Hlen : Z.of_nat (length bl) < size).
Context (Hdata : forall b, b ∈ bl -> data_block start size b).
Context (Hnew : forall m, m ∉ bl -> new m = old m).
Abbreviation k := (length bl).
Definition crash_disk (j : nat) : Z -> list Z :=
  awrites old (take j (commit_writes start new bl hd1 hd0)).

Lemma length_log_writes f : length (log_writes start f bl) = k.
Proof. unfold log_writes. apply length_imap. Qed.

Lemma log_writes_data f m g : data_block start size m -> awrites g (log_writes start f bl) m = g m.
Proof using Hlen.
  intros [Hm1 Hm2]. apply awrites_other. intros Hin%log_writes_elem. lia.
Qed.

(** Before the header is written: nothing but log blocks changed. *)
Lemma crash_before j : (j <= k)%nat ->
  crash_disk j start = old start /\ forall m, data_block start size m -> crash_disk j m = old m.
Proof using Hlen.
  intros Hj. unfold crash_disk, commit_writes. rewrite take_app_le by by rewrite length_log_writes.
  assert (forall m, m <= start \/ start + size <= m ->
    awrites old (take j (log_writes start new bl)) m = old m) as Hout.
  { intros m Hm. apply awrites_other. unfold log_writes. rewrite imap_take.
    intros Hin%log_writes_elem. rewrite length_take in Hin. lia. }
  split; [apply Hout; lia|]. intros m [Hm1 Hm2]. apply Hout. lia.
Qed.

Lemma start_not_data : 0 < size -> start ∉ bl.
Proof using Hdata. intros Hs Hin. destruct (Hdata _ Hin). lia. Qed.

(** Once it is written: the header names the blocks and the log holds them. *)
Lemma crash_between j : (k < j <= 2 * k + 1)%nat ->
  crash_disk j start = hd1 /\
  (forall i b, bl !! i = Some b -> crash_disk j (start + Z.of_nat i + 1) = new b) /\
  (forall m, data_block start size m -> m ∉ bl -> crash_disk j m = old m).
Proof using Hlen Hdata.
  intros Hj. unfold crash_disk, commit_writes. rewrite take_app_ge by (rewrite length_log_writes; lia).
  rewrite length_log_writes. replace (j - k)%nat with (S (j - k - 1)) by lia. cbn [take].
  rewrite take_app_le by (rewrite length_map; lia). set (p := take _ (map _ bl)).
  assert (forall m, m ∈ p.*1 -> m ∈ bl) as Hp.
  { intros m Hm. unfold p in Hm. rewrite <- (map_writes_fst new bl). rewrite fmap_take in Hm.
    by eapply subseteq_take. }
  assert (0 < size) as Hs by lia.
  split; [|split].
  - rewrite awrites_app. cbn. change (awrites (awrite (awrites old (log_writes start new bl)) (start, hd1)) p start = hd1).
    rewrite awrites_other; [unfold awrite; cbn; by rewrite Z.eqb_refl|].
    intros Hin%Hp. by apply start_not_data.
  - intros i b Hi. rewrite awrites_app. rewrite awrites_other; [by apply log_writes_at|].
    cbn. apply lookup_lt_Some in Hi as Hik. intros [Heq|Hin%Hp]%elem_of_cons; [lia|].
    destruct (Hdata _ Hin). lia.
  - intros m Hm Hmb. rewrite awrites_app. rewrite awrites_other; [by apply log_writes_data|].
    cbn. intros [->|Hin%Hp]%elem_of_cons; [|done]. destruct Hm. lia.
Qed.

(** After the last write. *)
Lemma crash_after j : (2 * k + 1 < j)%nat ->
  crash_disk j start = hd0 /\ forall m, data_block start size m -> crash_disk j m = new m.
Proof using Hlen Hdata Hnd Hnew.
  intros Hj. unfold crash_disk, commit_writes. assert (0 < size) as Hs by lia.
  rewrite take_ge.
  2: { rewrite length_app, length_log_writes. cbn [length]. rewrite length_app, length_map. cbn. lia. }
  split.
  - rewrite awrites_app. cbn. unfold awrites at 1. rewrite fold_left_app. cbn. unfold awrite at 1. cbn.
    by rewrite Z.eqb_refl.
  - intros m Hm.
    change (awrites old (log_writes start new bl ++
      ((start, hd1) :: map (fun b => (b, new b)) bl) ++ [(start, hd0)]) m = new m).
    rewrite app_assoc, awrites_app.
    assert (m <> start) as Hms by (destruct Hm; lia).
    rewrite (awrites_other _ [(start, hd0)]) by (cbn; by intros ?%list_elem_of_singleton).
    rewrite awrites_app. change (awrites (awrite (awrites old (log_writes start new bl)) (start, hd1))
      (map (fun b => (b, new b)) bl) m = new m).
    rewrite map_writes_at by done. case_decide as Hmb; [done|]. unfold awrite. cbn.
    destruct (Z.eqb_spec m start); [done|]. rewrite log_writes_data by done. by rewrite Hnew.
Qed.
End crash.

Section rules.
Context {S : Type} `{KernLaws S fsstate}.
Implicit Types (s : S) (t : fsstate) (X : stop -> Prop).
Abbreviation me := (my_pid (S := S) (T := fsstate)).

Lemma wp_write_log s t start size bl dl X (Q : unit -> S -> Prop) :
  at_ s [] t -> bc_ok me [] t -> txn t start size bl -> pins t bl dl ->
  (forall s' t', at_ s' [] t' -> bc_ok me [] t' ->
     stores t (log_writes start (content t) bl) t' -> Q tt s') ->
  wp write_log X Q s.
Proof.
  intros Hat Hok Htx Hpins HQ. pose proof Htx as [(Hst & Hsz & Hdev & Hn) [Hlh Hblk] [Hs1 Hs2] Harea Hnd Hdata].
  unfold write_log. mstep. eapply wp_get_log; [done|]. unfold for_tail. rewrite Hn, Nat2Z.id.
  apply wp_for_seq with (I := fun k s' => exists t', at_ s' [] t' /\ bc_ok me [] t' /\
    stores t (take k (log_writes start (content t) bl)) t').
  - exists t. split; [done|]. split; [done|constructor].
  - intros k s1 Hk (t1 & Hat1 & Hok1 & Hst1).
    pose proof (stores_spec _ _ _ Hst1) as Hsp. pose proof Hsp as [Hc1 _ Hl1 _ _ (Hlg1 & _)].
    destruct (lookup_lt_is_Some_2 bl k Hk) as [b Hb].
    destruct (Hdata b) as [Hbr Hbl]; [by eapply list_elem_of_lookup_2|].
    mstep. eapply wp_get_log; [done|]. rewrite Hlg1, Hdev, Hst.
    assert (b ∉ (take k (log_writes start (content t) bl)).*1) as Hnin.
    { intros Hin. unfold log_writes in Hin. rewrite imap_take in Hin. apply log_writes_elem in Hin.
      rewrite length_take in Hin. lia. }
    eapply (wp_bread2 _ t1 _ b); [done|done|lia|rewrite Hl1; lia|rewrite Hl1; lia|lia| |lia| | |].
    { rewrite Hlg1, Nat2Z.id. by apply Hblk. }
    { left. by eapply pins_room. }
    { left. eapply pins_room1; [done..| |done]. by eapply list_elem_of_lookup_2. }
    intros s2 t2 i j bi bj Hat2 Hok2 Hsame Hij Hi Hj Hni Hnj Hdi Hdj Hcli Hclj.
    apply (wp_copy _ t2 j i bj bi); [done|done|done|done|done|by rewrite Hnj|].
    intros s3 t3 Hat3 Hok3 Hst3. exists t3. split; [done|]. split; [done|].
    rewrite (take_snoc _ _ (start + Z.of_nat k + 1, content t b)).
    + eapply stores_snoc; [done|]. rewrite Hni, Hdj in Hst3.
      replace (content t b) with (content t1 b); [by eapply stored_same|].
      rewrite Hc1 by lia. by apply awrites_other.
    + unfold log_writes. by rewrite list_lookup_imap, Hb.
  - intros s1 (t1 & Hat1 & Hok1 & Hst1). eapply HQ; [done|done|].
    rewrite take_ge in Hst1; [done|]. unfold log_writes. by rewrite length_imap.
Qed.

Lemma wp_install_trans s t start size bl dl X (Q : unit -> S -> Prop) :
  at_ s [] t -> bc_ok me [] t -> txn t start size bl -> pins t bl dl ->
  (forall s' t', at_ s' [] t' -> bc_ok me [] t' ->
     stores t (home_writes start (content t) bl) t' -> Q tt s') ->
  wp install_trans X Q s.
Proof.
  intros Hat Hok Htx Hpins HQ. pose proof Htx as [(Hst & Hsz & Hdev & Hn) [Hlh Hblk] [Hs1 Hs2] Harea Hnd Hdata].
  unfold install_trans. mstep. eapply wp_get_log; [done|]. unfold for_tail. rewrite Hn, Nat2Z.id.
  apply wp_for_seq with (I := fun k s' => exists t', at_ s' [] t' /\ bc_ok me [] t' /\
    stores t (take k (home_writes start (content t) bl)) t').
  - exists t. split; [done|]. split; [done|constructor].
  - intros k s1 Hk (t1 & Hat1 & Hok1 & Hst1).
    pose proof (stores_spec _ _ _ Hst1) as Hsp. pose proof Hsp as [Hc1 _ Hl1 _ _ (Hlg1 & _)].
    destruct (lookup_lt_is_Some_2 bl k Hk) as [b Hb].
    destruct (Hdata b) as [Hbr Hbl]; [by eapply list_elem_of_lookup_2|].
    mstep. eapply wp_get_log; [done|]. rewrite Hlg1, Hdev, Hst.
    assert (b ∉ (take k (home_writes start (content t) bl)).*1) as Hnin.
    { unfold home_writes. rewrite imap_take. fold (home_writes start (content t) (take k bl)).
      rewrite home_writes_fst. intros (j & Hj)%list_elem_of_lookup.
      apply lookup_take_Some in Hj as [Hj Hjk]. pose proof (NoDup_lookup _ _ _ _ Hnd Hb Hj). lia. }
    eapply (wp_bread2 _ t1 _ b); [done|done|lia|rewrite Hl1; lia|rewrite Hl1; lia|lia| |lia| | |].
    { rewrite Hlg1, Nat2Z.id. by apply Hblk. }
    { left. by eapply pins_room. }
    { left. eapply pins_room1; [done..| |done]. by eapply list_elem_of_lookup_2. }
    intros s2 t2 i j bi bj Hat2 Hok2 Hsame Hij Hi Hj Hni Hnj Hdi Hdj Hcli Hclj.
    apply (wp_copy _ t2 i j bi bj); [done| |done|done|done|by rewrite Hni|].
    { eapply bc_ok_perm; [done|]. set_solver. }
    intros s3 t3 Hat3 Hok3 Hst3. exists t3. split; [done|]. split; [done|].
    rewrite (take_snoc _ _ (b, content t (start + Z.of_nat k + 1))).
    + eapply stores_snoc; [done|]. rewrite Hnj, Hdi in Hst3.
      replace (content t (start + Z.of_nat k + 1)) with (content t1 (start + Z.of_nat k + 1));
        [by eapply stored_same|].
      rewrite Hc1 by lia. apply awrites_other. unfold home_writes. rewrite imap_take.
      fold (home_writes start (content t) (take k bl)). rewrite home_writes_fst.
      intros Hin. destruct (Hdata (start + Z.of_nat k + 1)); [|lia].
      by eapply subseteq_take.
    + unfold home_writes. by rewrite list_lookup_imap, Hb.
  - intros s1 (t1 & Hat1 & Hok1 & Hst1). eapply HQ; [done|done|].
    rewrite take_ge in Hst1; [done|]. unfold home_writes. by rewrite length_imap.
Qed.

Lemma wp_write_head s t start size bl X (Q : unit -> S -> Prop) :
  at_ s [] t -> bc_ok me [] t -> txn t start size bl -> room t [] start ->
  (forall s' t' hd, at_ s' [] t' -> bc_ok me [] t' -> is_head hd bl ->
     stored t start hd t' -> Q tt s') ->
  wp write_head X Q s.
Proof.
  intros Hat Hok Htx Hpins HQ. pose proof Htx as [(Hst & Hsz & Hdev & Hn) [Hlh Hblk] [Hs1 Hs2] Harea Hnd Hdata].
  unfold write_head. mstep. eapply wp_get_log; [done|]. rewrite Hdev, Hst. mstep.
  eapply wp_bread; [done|done|lia|set_solver|by left|]. intros s1 t1 i Hat1 Hp1.
  pose proof (bread_same _ _ _ _ _ _ Hp1) as Hsame.
  destruct Hp1 as [Hok1 _ (b & Hb & Hbn & Hbd & _) _ (Hd1 & _ & Hl1 & _) _ _].
  mstep. unfold set_data at 1. mstep. rewrite (upd_buf_put _ _ _ _ Hb) in Hat0.
  mstep. unfold for_tail. rewrite Hn, Nat2Z.id.
  set (d0 := set_word (bdata b) 0 (Z.of_nat (length bl))).
  apply wp_for_seq with (I := fun k s' =>
    at_ s' [] (put_buf i (b <| bdata := put_words d0 1 (take k bl) |>) t1)).
  - rewrite Hn in Hat0. exact Hat0.
  - intros k s2 Hk Hat2. destruct (lookup_lt_is_Some_2 bl k Hk) as [v Hv].
    mstep. eapply wp_lh_at; [done|lia| |].
    { change (lg (put_buf _ _ t1)) with (lg t1). rewrite Nat2Z.id, Hl1. by apply Hblk. }
    unfold set_data. mstep. rewrite (upd_put_buf _ _ _ _ _ Hb) in Hat3.
    rewrite (take_snoc _ _ v Hv), put_words_snoc, length_take, Nat.min_l by lia.
    rewrite Z.add_comm. exact Hat3.
  - intros s2 Hat2. rewrite take_ge in Hat2 by done.
    set (hd := put_words d0 1 bl) in *.
    assert (is_block (bdata b)) as [Hbl Hby] by (by eapply bc_data).
    assert (is_head hd bl) as Hhead.
    { unfold LOGSIZE, MAXOPBLOCKS in *.
      split; [|split].
      - split; [unfold hd, d0; by rewrite length_put_words, length_set_word|].
        by apply bytes_ok_put_words, bytes_ok_set_word.
      - unfold hd. rewrite word_at_put_words_lt by lia. apply word_at_set_eq; lia.
      - intros k v Hk. rewrite Z.add_comm. apply word_at_put_words; [lia| |done|].
        + unfold d0. rewrite length_set_word, Hbl. lia.
        + destruct (Hdata v); [by eapply list_elem_of_lookup_2|lia]. }
    eapply (wp_store_from _ t1 [i] i b hd); [done|done|set_solver|done|apply Hhead|].
    intros s3 t3 b3 Hat3 Hok3 Hb3 Hbn3 Hcl3 _ Hst3.
    eapply (wp_brelse _ _ [i] []); [done|done|set_solver|done|by right|set_solver|].
    intros s4 t4 Hat4 Hok4 Hc4 Hf4 _ Hdi4. eapply HQ; [done|done|done|].
    rewrite Hbn in Hst3. eapply stored_same; [done|done|by split].
Qed.

(** What [commit] leaves. *)
Record commit_post (t : fsstate) (start : Z) (bl hd1 hd0 : list Z) (t' : fsstate) : Prop := {
  cp_head1 : is_head hd1 bl;
  cp_head0 : is_head hd0 [];
  cp_hist : history t' = rev (commit_writes start (content t) bl hd1 hd0) ++ history t;
  cp_disk : forall m, 0 <= m ->
    disk_at t' m = awrites (disk_at t) (commit_writes start (content t) bl hd1 hd0) m;
  cp_clean : forall m, ~ dirty_in t' m;
  cp_log : lg t' = (lg t) <| lh_n := 0 |>;
  cp_frame : length (disk t') = length (disk t) /\ sb t' = sb t /\ inodes t' = inodes t
}.

(** The first three phases: log, header, home. *)
Lemma wp_commit_phases s t start size bl (k : unit -> M S unit) X (Q : unit -> S -> Prop) :
  at_ s [] t -> bc_ok me [] t -> txn t start size bl -> pinned t bl -> (length bl < NBUF)%nat ->
  (forall s' t' hd1, at_ s' [] t' -> bc_ok me [] t' -> is_head hd1 bl ->
     stores t ((log_writes start (content t) bl ++ [(start, hd1)]) ++ map (fun b => (b, content t b)) bl) t' ->
     wp (k tt) X Q s') ->
  wp (write_log ;;; write_head ;;; u <~ install_trans; k u) X Q s.
Proof.
  intros Hat Hok Htx Hpin Hlen HQ. pose proof (pinned_pins _ _ Hpin Hlen) as Hpins.
  pose proof Htx as [(Hst & Hsz & Hdev & Hn) _ [Hs1 Hs2] Harea Hnd Hdata].
  mstep. eapply wp_write_log; [done..|]. intros s1 t1 Hat1 Hok1 Hst1.
  pose proof (stores_spec _ _ _ Hst1) as Hsp1. pose proof Hsp1 as [_ _ Hl1 _ _ (Hlg1 & _)].
  assert (txn t1 start size bl) as Htx1 by exact (txn_frame _ _ _ _ _ Htx Hlg1 Hl1).
  mstep. eapply wp_write_head; [done..|by eapply pins_room|]. intros s2 t2 hd1 Hat2 Hok2 Hhd1 Hst2.
  pose proof (stores_snoc _ _ _ _ _ _ Hst1 Hst2) as Hst12.
  pose proof (stores_spec _ _ _ Hst12) as [Hc2 _ Hl2 _ Hdi2 (Hlg2 & _)].
  assert (txn t2 start size bl) as Htx2 by exact (txn_frame _ _ _ _ _ Htx Hlg2 Hl2).
  assert (pins t2 bl bl) as Hpins2.
  { split; [|split; [done|right]].
    - intros m [Hm _]%Hdi2. by apply Hpin.
    - intros b Hb. apply Hdi2. split; [by apply Hpin|]. destruct (Hdata _ Hb).
      rewrite fmap_app, elem_of_app. intros [Hin%log_writes_elem|Hin%list_elem_of_singleton]; cbn in *; lia. }
  mstep. eapply wp_install_trans; [done..|]. intros s3 t3 Hat3 Hok3 Hst3.
  apply (HQ s3 t3 hd1); [done..|]. eapply stores_app; [done|].
  rewrite (home_writes_eq start (content t)) in Hst3; [done|].
  intros k' b Hb. apply lookup_lt_Some in Hb as Hk. rewrite Hc2 by lia.
  rewrite awrites_app, awrites_other by (cbn; intros ?%list_elem_of_singleton; lia).
  by apply log_writes_at.
Qed.

(** All blocks are unpinned after the home writes. *)
Lemma stores_unpinned t bl f l t' m :
  pinned t bl -> stores_post t (l ++ map (fun b => (b, f b)) bl) t' -> ~ dirty_in t' m.
Proof.
  intros Hpin Hsp [Hm Hl]%(sp_dirty _ _ _ Hsp). apply Hl.
  rewrite fmap_app, elem_of_app, map_writes_fst. right. by apply Hpin.
Qed.

Lemma wp_commit s t start size bl X (Q : unit -> S -> Prop) :
  at_ s [] t -> bc_ok me [] t -> txn t start size bl -> pinned t bl -> bl <> [] ->
  (length bl < NBUF)%nat ->
  (forall s' t' hd1 hd0, at_ s' [] t' -> bc_ok me [] t' ->
     commit_post t start bl hd1 hd0 t' -> Q tt s') ->
  wp commit X Q s.
Proof.
  intros Hat Hok Htx Hpin Hne Hlen HQ.
  pose proof Htx as [(Hst & Hsz & Hdev & Hn) _ [Hs1 Hs2] Harea Hnd Hdata].
  unfold commit. mstep. eapply wp_get_log; [done|]. rewrite Hn.
  destruct (Z.ltb_spec 0 (Z.of_nat (length bl))) as [_|Hz]; [|destruct bl; [done|cbn in Hz; lia]].
  eapply wp_commit_phases; [done..|]. intros s3 t3 hd1 Hat3 Hok3 Hhd1 Hst3.
  pose proof (stores_spec _ _ _ Hst3) as Hsp3. pose proof Hsp3 as [Hc3 Hd3 Hl3 Hh3 Hdi3 (Hlg3 & Hsb3 & Hin3)].
  assert (txn t3 start size bl) as Htx3 by exact (txn_frame _ _ _ _ _ Htx Hlg3 Hl3).
  mstep. unfold upd_log. mstep. fold (clear_head t3) in Hat0.
  eapply (wp_write_head _ _ start size []); [done|by apply bc_ok_log|apply (txn_clear _ _ _ bl); [done|lia]| |].
  { right. exists []. split; [|by cbn; unfold NBUF; lia]. intros m Hm.
    by destruct (stores_unpinned _ _ _ _ _ m Hpin Hsp3). }
  intros s4 t4 hd0 Hat4 Hok4 Hhd0 Hst4. apply (HQ s4 t4 hd1 hd0 Hat4 Hok4).
  destruct Hst4 as [Hc4 Hd4 Hl4 Hh4 Hdi4 (Hlg4 & Hsb4 & Hin4)].
  assert (commit_writes start (content t) bl hd1 hd0 =
    ((log_writes start (content t) bl ++ [(start, hd1)]) ++ map (fun b => (b, content t b)) bl)
    ++ [(start, hd0)]) as Hw.
  { unfold commit_writes. by rewrite <- !app_assoc. }
  split; [done|done|rewrite Hw|rewrite Hw| | |].
  - rewrite Hh4. change (history (clear_head t3)) with (history t3).
    by rewrite Hh3, (rev_app_distr _ [(start, hd0)]).
  - intros m Hm. rewrite Hd4, awrites_app by done.
    change (disk_at (clear_head t3) m) with (disk_at t3 m). by rewrite Hd3.
  - intros m [Hm _]%Hdi4. by eapply stores_unpinned.
  - rewrite Hlg4. cbn. by rewrite Hlg3.
  - rewrite Hl4, Hsb4, Hin4. change (length (disk (clear_head t3))) with (length (disk t3)).
    rewrite Hl3. done.
Qed.

(** ** Recovery *)

(** The log as [initlog] sets it up, with header blocks [bl] on the disk. *)
Record logged (t : fsstate) (start size : Z) (bl : list Z) : Prop := {
  lo_log : lstart (lg t) = start /\ lsize (lg t) = size /\ ldev (lg t) = 1 /\
    length (lh_block (lg t)) = Z.to_nat LOGSIZE;
  lo_head : is_head (content t start) bl;
  lo_size : Z.of_nat (length bl) < size /\ Z.of_nat (length bl) <= LOGSIZE;
  lo_area : 1 < start /\ start + size <= Z.of_nat (length (disk t)) < 2 ^ 31;
  lo_nodup : NoDup bl;
  lo_data : forall b, b ∈ bl -> 0 <= b < Z.of_nat (length (disk t)) /\ (b < start \/ start + size <= b)
}.

Lemma wp_upd_log s L t f X (Q : unit -> S -> Prop) :
  at_ s L t -> (forall s', at_ s' L (t <| lg ::= f |>) -> Q tt s') -> wp (upd_log f) X Q s.
Proof. intros Hat HQ. unfold upd_log. mstep. by apply HQ. Qed.

Lemma wp_set_lh s L t k v X (Q : unit -> S -> Prop) :
  at_ s L t -> 0 <= k < LOGSIZE ->
  (forall s', at_ s' L (t <| lg ::= fun l => l <| lh_block ::= <[Z.to_nat k := v]> |> |>) -> Q tt s') ->
  wp (set_lh k v) X Q s.
Proof.
  intros Hat Hk HQ. unfold set_lh. replace ((0 <=? k) && (k <? LOGSIZE)) with true by lia.
  by eapply wp_upd_log.
Qed.

(** [same_but_log t t']: only the log's memory and the cached set differ. *)
Definition same_but_log (t t' : fsstate) : Prop := same_blocks t (t' <| lg := lg t |>).

Lemma wp_read_head s t start size bl X (Q : unit -> S -> Prop) :
  at_ s [] t -> bc_ok me [] t -> logged t start size bl -> room t [] start ->
  (forall s' t', at_ s' [] t' -> bc_ok me [] t' -> txn t' start size bl -> same_but_log t t' -> Q tt s') ->
  wp read_head X Q s.
Proof.
  intros Hat Hok [(Hst & Hsz & Hdev & Hlen) (Hblk & Hn & Hw) Hsize Harea Hnd Hdata] Hroom HQ.
  unfold read_head. mstep. eapply wp_get_log; [done|]. rewrite Hdev, Hst. mstep.
  eapply wp_bread; [done|done|lia|set_solver|by left|]. intros s1 t1 i Hat1 Hp1.
  destruct Hp1 as [Hok1 _ (b & Hb & Hbn & Hbd & Hbc) Hc1 (Hd1 & Hh1 & Hl1 & Hsb1 & Hin1) _ Hdi1].
  mstep. eapply wp_buf_data; [done..|]. rewrite Hbd. mstep. eapply wp_upd_log; [done|].
  intros s2 Hat2. mstep. eapply wp_get_log; [done|]. mstep. unfold for_tail. cbn [lg lh_n setter].
  rewrite Hn, i32_small by lia. rewrite Nat2Z.id.
  apply wp_for_seq with (I := fun k s' => exists L, at_ s' [] (t1 <| lg := L |>) /\
    lstart L = start /\ lsize L = size /\ ldev L = 1 /\ lh_n L = Z.of_nat (length bl) /\
    length (lh_block L) = Z.to_nat LOGSIZE /\
    forall j v, (j < k)%nat -> bl !! j = Some v -> lh_block L !! j = Some v).
  - exists ((lg t1) <| lh_n := Z.of_nat (length bl) |>). split.
    { rewrite Hn, i32_small in Hat2 by lia. exact Hat2. }
    rewrite Hl1. cbn. do 5 (split; [done|]). lia.
  - intros k s3 Hk (L & Hat3 & HL1 & HL2 & HL3 & HL4 & HL5 & HL6).
    destruct (lookup_lt_is_Some_2 bl k Hk) as [v Hv].
    destruct (Hdata v) as [Hvr _]; [by eapply list_elem_of_lookup_2|].
    eapply wp_set_lh; [done|lia|]. intros s4 Hat4.
    eexists (L <| lh_block ::= <[k := i32 (word_at (content t start) (Z.of_nat k + 1))]> |>).
    rewrite Nat2Z.id in Hat4. split; [exact Hat4|]. cbn. do 4 (split; [done|]).
    split; [by rewrite length_insert|]. intros j u Hj Hu. destruct (decide (j = k)) as [->|Hne].
    + rewrite list_lookup_insert_eq by lia. assert (u = v) as -> by congruence.
      f_equal. rewrite (Hw k v) by done.
      apply i32_small. lia.
    + rewrite list_lookup_insert_ne by done. apply HL6; [lia|done].
  - intros s3 (L & Hat3 & HL1 & HL2 & HL3 & HL4 & HL5 & HL6).
    eapply (wp_brelse _ _ [i] []); [done|by apply bc_ok_log|set_solver|exact Hb| |set_solver|].
    { rewrite Hbn. change (disk_at (setter lg _ t1) start) with (disk_at t1 start).
      unfold disk_at. by rewrite Hd1. }
    intros s4 t4 Hat4 Hok4 Hc4 (Hd4 & Hh4 & Hl4 & Hsb4 & Hin4) _ Hdi4. cbn in Hd4, Hh4, Hl4, Hsb4, Hin4.
    eapply HQ; [done|done| |].
    + rewrite <- Hd1, <- Hd4 in Harea, Hdata. split; rewrite ?Hl4; try done.
      split; [done|]. intros k v Hk. apply HL6; [by eapply lookup_lt_Some|done].
    + split.
      * intros m. change (content t4 m = content t m). rewrite Hc4. apply Hc1.
      * cbn. rewrite Hd4, Hh4, Hsb4, Hin4. done.
      * intros m. change (dirty_in t4 m <-> dirty_in t m). by rewrite Hdi4, <- Hdi1.
Qed.

Lemma wp_recover s t start size bl X (Q : unit -> S -> Prop) :
  at_ s [] t -> bc_ok me [] t -> logged t start size bl -> (forall m, ~ dirty_in t m) ->
  (forall s' t' hd, at_ s' [] t' -> bc_ok me [] t' -> is_head hd [] -> lh_n (lg t') = 0 ->
     (forall m, ~ dirty_in t' m) ->
     history t' = rev (home_writes start (disk_at t) bl ++ [(start, hd)]) ++ history t ->
     (forall m, 0 <= m ->
        disk_at t' m = awrites (disk_at t) (home_writes start (disk_at t) bl ++ [(start, hd)]) m) ->
     Q tt s') ->
  wp recover_from_log X Q s.
Proof.
  intros Hat Hok Hlo Hclean HQ.
  assert (forall HH n, (length HH < NBUF)%nat -> room t HH n) as Hroom.
  { intros HH n HHl. right. exists []. split; [|done]. intros m Hm. by destruct (Hclean m). }
  unfold recover_from_log. mstep. eapply wp_read_head; [done|done|done|apply Hroom; by unfold NBUF; cbn; lia|].
  intros s1 t1 Hat1 Hok1 Htx1 Hsame. pose proof Hsame as [Hc1 (Hd1 & Hh1 & _) Hdi1]. cbn in Hd1, Hh1.
  assert (forall m, ~ dirty_in t1 m) as Hcl1 by (intros m Hm; by apply (Hclean m), Hdi1).
  assert (disk_at t1 = disk_at t) as Hdd by (unfold disk_at; by rewrite Hd1).
  assert (home_writes start (content t1) bl = home_writes start (disk_at t) bl) as Hhw.
  { apply imap_ext. intros i b _. cbn. f_equal. rewrite <- Hdd. by apply (content_disk me). }
  mstep. eapply (wp_install_trans _ _ start size bl []); [done|done|done| |].
  { split; [by intros m Hm; destruct (Hcl1 m)|]. unfold NBUF. cbn. split; [lia|left; lia]. }
  rewrite Hhw. intros s2 t2 Hat2 Hok2 Hst2.
  pose proof (stores_spec _ _ _ Hst2) as [_ Hd2 Hl2 Hh2 Hdi2 (Hlg2 & _)].
  mstep. eapply wp_upd_log; [done|]. intros s3 Hat3. fold (clear_head t2) in Hat3.
  assert (forall m, ~ dirty_in t2 m) as Hcl2 by (intros m [Hm _]%Hdi2; by apply (Hcl1 m)).
  assert (txn t2 start size bl) as Htx2 by exact (txn_frame _ _ _ _ _ Htx1 Hlg2 Hl2).
  eapply (wp_write_head _ _ start size []); [done|by apply bc_ok_log|eapply txn_clear; [done|]| |].
  { pose proof (tx_size _ _ _ _ Htx2). lia. }
  { right. exists []. split; [|by unfold NBUF; cbn; lia]. intros m Hm. by destruct (Hcl2 m). }
  intros s4 t4 hd Hat4 Hok4 Hhd [_ Hd4 _ Hh4 Hdi4 (Hlg4 & _)]. eapply HQ; [done|done|done|by rewrite Hlg4| | |].
  - intros m [Hm _]%Hdi4. by apply (Hcl2 m).
  - rewrite Hh4. change (history (clear_head t2)) with (history t2).
    by rewrite Hh2, Hh1, (rev_app_distr _ [(start, hd)]).
  - intros m Hm. rewrite Hd4, awrites_app by done. change (disk_at (clear_head t2) m) with (disk_at t2 m).
    cbn. unfold awrite. cbn. destruct (m =? start); [done|]. by rewrite Hd2, Hdd.
Qed.

(** A machine that boots on disk [D]: nothing is pinned and [initlog] has
    set [start] and [size]. *)
Record rebooted (t : fsstate) (start size : Z) (D : Z -> list Z) (len : nat) : Prop := {
  rb_clean : forall m, ~ dirty_in t m;
  rb_disk : forall m, 0 <= m -> disk_at t m = D m;
  rb_len : length (disk t) = len;
  rb_log : lstart (lg t) = start /\ lsize (lg t) = size /\ ldev (lg t) = 1 /\
    length (lh_block (lg t)) = Z.to_nat LOGSIZE
}.

Lemma wp_recover_crash s2 t2 t start size bl hd1 hd0 j X (Q : unit -> S -> Prop) :
  bc_ok me [] t -> txn t start size bl -> pinned t bl -> is_head (disk_at t start) [] ->
  is_head hd1 bl -> is_head hd0 [] ->
  at_ s2 [] t2 -> bc_ok me [] t2 ->
  rebooted t2 start size (crash_disk start bl hd1 hd0 (disk_at t) (content t) j) (length (disk t)) ->
  (forall s' t', at_ s' [] t' -> bc_ok me [] t' -> (forall m, ~ dirty_in t' m) ->
     (forall m, data_block start size m ->
        disk_at t' m = if (j <=? length bl)%nat then disk_at t m else content t m) -> Q tt s') ->
  wp recover_from_log X Q s2.
Proof.
  intros Hok [_ _ Hsize Harea Hnd Hdata] Hpin Hold Hhd1 Hhd0 Hat2 Hok2 [Hcl Hd Hlen Hlg] HQ.
  assert (forall m, content t2 m = disk_at t2 m) as Hcd by (intros m; by apply (content_disk me)).
  assert (forall b, b ∈ bl -> data_block start size b) as Hdb.
  { intros b Hb. destruct (Hdata b Hb). split; [lia|done]. }
  assert (forall m, m ∉ bl -> content t m = disk_at t m) as Hnew.
  { intros m Hm. apply (content_disk me); [done|]. by rewrite (Hpin m). }
  (* recovery with the header that the crash left *)
  assert (Hrec : forall bl', is_head (disk_at t2 start) bl' -> (bl' = bl \/ bl' = []) ->
    (forall m, data_block start size m ->
       awrites (disk_at t2) (home_writes start (disk_at t2) bl') m =
       if (j <=? length bl)%nat then disk_at t m else content t m) ->
    wp recover_from_log X Q s2).
  { intros bl' Hh Hbl' Hres. eapply (wp_recover _ _ start size bl'); [done|done| |done|].
    - destruct Hbl' as [-> | ->]; (split; rewrite ?Hlen, ?Hcd); try done.
      + unfold LOGSIZE, MAXOPBLOCKS. cbn. lia.
      + constructor.
      + set_solver.
    - intros s' t' hd Hat' Hok' _ _ Hcl' _ Hd'. eapply HQ; [done|done|done|]. intros m Hm.
      rewrite Hd', awrites_app, awrites_other by (destruct Hm; try done; cbn; intros ?%list_elem_of_singleton; lia).
      by apply Hres. }
  destruct (Nat.leb_spec j (length bl)) as [Hj|Hj].
  - destruct (crash_before start size bl hd1 hd0 (disk_at t) (content t) ltac:(lia) j Hj) as [H1 H2].
    apply (Hrec []); [rewrite Hd, H1 by lia; done|by right|]. intros m Hm. cbn.
    rewrite Hd by (by destruct Hm). by apply H2.
  - destruct (decide (j <= 2 * length bl + 1)%nat) as [Hj2|Hj2].
    + destruct (crash_between start size bl hd1 hd0 (disk_at t) (content t) ltac:(lia) Hdb j ltac:(lia))
        as (H1 & H2 & H3).
      apply (Hrec bl); [rewrite Hd, H1 by lia; done|by left|]. intros m Hm.
      rewrite (home_writes_eq start (content t)).
      * rewrite map_writes_at by done. case_decide as Hmb; [done|].
        rewrite Hd by (by destruct Hm). rewrite H3 by done. by rewrite Hnew.
      * intros i b Hi. apply lookup_lt_Some in Hi as ?. rewrite Hd by lia. by apply H2.
    + destruct (crash_after start size bl hd1 hd0 (disk_at t) (content t) Hnd ltac:(lia) Hdb Hnew j ltac:(lia))
        as [H1 H2].
      apply (Hrec []); [rewrite Hd, H1 by lia; done|by right|]. intros m Hm. cbn.
      rewrite Hd by (by destruct Hm). by apply H2.
Qed.
End rules.
