(* ===== verification/LogTx.v ===== *)
(** * Transactions as the file system uses them

    [tx] is the state of an operation between [begin_op] and [end_op]: the
    blocks [bl] are in the log's list and pinned in the cache.  The rules say
    what [begin_op], [log_write] and [end_op] do to it, and how the code of
    [fs.c] reads and updates a block. *)
From Stdlib Require Import ZArith Lia.
From stdpp Require Import base list gmap strings.
From S2P Require Import Prelude Params Bytes Spinlock Proc Sched SchedInv Kern Sleeplock FsData Bio Log LogRec.
#[local] Open Scope Z_scope.
#[local] Open Scope kernel_scope.

Record tx (t : fsstate) (start size : Z) (bl : list Z) : Prop := {
  tx_txn : txn t start size bl;
  tx_pinned : pinned t bl;
  tx_open : committing (lg t) = 0 /\ 1 <= outstanding (lg t)
}.

(** The list after [log_write] of block [n]. *)
Definition absorb (bl : list Z) (n : Z) : list Z := if decide (n ∈ bl) then bl else bl ++ [n].

Lemma elem_of_absorb bl n m : m ∈ absorb bl n <-> m ∈ bl \/ m = n.
Proof. unfold absorb. case_decide; set_solver. Qed.

Lemma length_absorb bl n : (length (absorb bl n) <= length bl + 1)%nat.
Proof. unfold absorb. case_decide; rewrite ?length_app; cbn; lia. Qed.

Lemma NoDup_absorb bl n : NoDup bl -> NoDup (absorb bl n).
Proof.
  intros Hnd. unfold absorb. case_decide; [done|]. apply NoDup_app. split; [done|].
  split; [set_solver|apply NoDup_singleton].
Qed.

(** Blocks a transaction may hold: not the log's. *)
Definition home (t : fsstate) (start size n : Z) : Prop :=
  0 <= n < Z.of_nat (length (disk t)) /\ (n < start \/ start + size <= n).

Lemma tx_same t t' start size bl :
  tx t start size bl -> same_blocks t t' -> tx t' start size bl.
Proof.
  intros [Ht Hp Ho] [Hc (Hd & _ & Hl & _) Hdi]. split.
  - eapply txn_frame; [done..|by rewrite Hd].
  - intros m. by rewrite Hdi.
  - by rewrite Hl.
Qed.

(** There is a buffer for block [n] while [h] are held. *)
Definition fits (bl : list Z) (h : nat) : Prop := (length bl + h < NBUF)%nat.

Lemma tx_room t start size bl HH n : tx t start size bl -> fits bl (length HH) -> room t HH n.
Proof. intros [_ Hp _] Hf. right. exists bl. split; [|done]. intros m. apply Hp. Qed.

(** The state after [log_write] puts block [n] at index [k] of the list. *)
Definition logged_block (k : nat) (n : Z) (l : logst) : logst :=
  if (k =? Z.to_nat (lh_n l))%nat then l <| lh_block ::= <[k := n]> |> <| lh_n ::= fun x => x + 1 |>
  else l <| lh_block ::= <[k := n]> |>.
Definition set_dirty (b : buf) : buf := b <| flags ::= fun f => Z.lor f B_DIRTY |>.

Lemma dirty_in_set t i b m :
  bufs t !! i = Some b -> dirty_in (put_buf i (set_dirty b) t) m <-> dirty_in t m \/ m = blockno b.
Proof.
  intros Hb. assert (has_flag B_DIRTY (set_dirty b) = true) as Hd by (by eapply flags_set_dirty).
  unfold dirty_in. cbn. split.
  - intros (j & c & Hj & Hn & Hc). destruct (decide (j = i)) as [->|Hji].
    + rewrite list_lookup_insert_eq in Hj by (by eapply lookup_lt_Some). simplify_eq. by right.
    + rewrite list_lookup_insert_ne in Hj by done. left. by exists j, c.
  - intros [(j & c & Hj & Hn & Hc)| ->].
    + destruct (decide (j = i)) as [->|Hji].
      * exists i, (set_dirty b). rewrite list_lookup_insert_eq by (by eapply lookup_lt_Some). by simplify_eq.
      * exists j, c. by rewrite list_lookup_insert_ne.
    + exists i, (set_dirty b). by rewrite list_lookup_insert_eq by (by eapply lookup_lt_Some).
Qed.

Lemma tx_absorb t i b start size bl k :
  let t' := put_buf i (set_dirty b) (t <| lg ::= logged_block k (blockno b) |>) in
  tx t start size bl -> bufs t !! i = Some b -> home t start size (blockno b) ->
  Z.of_nat (length bl) < LOGSIZE -> Z.of_nat (length bl) < size - 1 ->
  (bl !! k = Some (blockno b) \/ k = length bl /\ blockno b ∉ bl) ->
  tx t' start size (absorb bl (blockno b)).
Proof.
  intros t' [[(Hst & Hsz & Hdev & Hn) [Hlh Hblk] [Hs1 Hs2] Harea Hnd Hdata] Hpin Hopen] Hb Hhome H1 H2 Hk.
  assert (lstart (lg t') = lstart (lg t) /\ lsize (lg t') = lsize (lg t) /\ ldev (lg t') = ldev (lg t) /\
    committing (lg t') = committing (lg t) /\ outstanding (lg t') = outstanding (lg t))
    as (Hf1 & Hf2 & Hf3 & Hf4 & Hf5).
  { unfold t', logged_block. cbn. by destruct (_ =? _)%nat. }
  assert (length (lh_block (lg t')) = length (lh_block (lg t)) /\
    lh_n (lg t') = Z.of_nat (length (absorb bl (blockno b))) /\
    forall j c, absorb bl (blockno b) !! j = Some c -> lh_block (lg t') !! j = Some c) as (Hl1 & Hl2 & Hl3).
  { unfold t', logged_block, absorb. cbn. rewrite Hn, Nat2Z.id. destruct Hk as [Hk|[-> Hnin]].
    - apply lookup_lt_Some in Hk as Hlt. rewrite decide_True by (by eapply list_elem_of_lookup_2).
      destruct (Nat.eqb_spec k (length bl)); [lia|]. cbn. rewrite length_insert. do 2 (split; [done|]).
      intros j c Hj. destruct (decide (j = k)) as [->|Hjk].
      + rewrite list_lookup_insert_eq by (unfold LOGSIZE in *; lia). congruence.
      + rewrite list_lookup_insert_ne by done. by apply Hblk.
    - rewrite Nat.eqb_refl, decide_False by done. cbn. rewrite length_insert, length_app. cbn.
      split; [done|]. split; [lia|]. intros j c Hj. destruct (decide (j = length bl)) as [->|Hjk].
      + rewrite list_lookup_insert_eq by (unfold LOGSIZE in *; lia).
        by rewrite list_lookup_middle in Hj.
      + rewrite list_lookup_insert_ne by done. apply Hblk. by rewrite lookup_app_l in Hj by
          (apply lookup_lt_Some in Hj; rewrite length_app in Hj; cbn in Hj; lia). }
  pose proof (length_absorb bl (blockno b)) as Hla. split; [split|..].
  - by rewrite Hf1, Hf2, Hf3.
  - by rewrite Hl1.
  - lia.
  - done.
  - by apply NoDup_absorb.
  - intros m [Hm| ->]%elem_of_absorb; [by apply Hdata|done].
  - intros m. unfold t'. rewrite dirty_in_set by done. rewrite elem_of_absorb. change (dirty_in _ m) with (dirty_in t m).
    by rewrite (Hpin m).
  - by rewrite Hf4, Hf5.
Qed.

Section rules.
Context {S : Type} `{KernLaws S fsstate}.
Implicit Types (s : S) (t : fsstate) (X : stop -> Prop).
Abbreviation me := (my_pid (S := S) (T := fsstate)).

Lemma wp_lh_find s t bl bn X (Q : option Z -> S -> Prop) :
  at_ s [log_lock] t -> (length bl <= Z.to_nat LOGSIZE)%nat ->
  (forall k b, bl !! k = Some b -> lh_block (lg t) !! k = Some b /\ 0 <= b < 2 ^ 32) ->
  (bn ∉ bl -> Q None s) -> (forall k, bl !! k = Some bn -> Q (Some (Z.of_nat k)) s) ->
  wp (for_until (seq 0 (length bl)) (fun k =>
      b <~ lh_at (Z.of_nat k); ret (if u32 b =? bn then Some (Z.of_nat k) else None))) X Q s.
Proof.
  intros Hat Hlen Hbl HQ1 HQ2.
  apply wp_for_until_seq with (I := fun k s' => s' = s /\ forall j, (j < k)%nat -> bl !! j <> Some bn).
  - split; [done|lia].
  - intros k s' Hk [-> Hlt]. destruct (lookup_lt_is_Some_2 bl k Hk) as [b Hb].
    destruct (Hbl _ _ Hb) as [Hl Hr]. mstep.
    eapply wp_lh_at; [done|unfold LOGSIZE, MAXOPBLOCKS in *; lia|by rewrite Nat2Z.id|]. mstep.
    rewrite u32_small by done. destruct (Z.eqb_spec b bn) as [->|Hne]; [by apply HQ2|].
    split; [done|]. intros j Hj. destruct (decide (j = k)) as [->|]; [congruence|apply Hlt; lia].
  - intros s' [-> Hall]. apply HQ1. intros [k Hk]%list_elem_of_lookup.
    apply (Hall k); [by eapply lookup_lt_Some|done].
Qed.

(** Nothing is written to the disk, and no operation begins or ends. *)
Definition quiet (t t' : fsstate) : Prop := history t' = history t /\ outstanding (lg t') = outstanding (lg t).

(** What [log_write] leaves. *)
Record lw_post (t : fsstate) (HH : list nat) (i : nat) (b : buf) (start size : Z) (bl : list Z)
    (t' : fsstate) (b' : buf) : Prop := {
  lw_ok : bc_ok me HH t';
  lw_tx : tx t' start size (absorb bl (blockno b));
  lw_buf : bufs t' !! i = Some b' /\ blockno b' = blockno b /\ bdata b' = bdata b /\
    has_flag B_DIRTY b' = true;
  lw_others : forall j, j <> i -> bufs t' !! j = bufs t !! j;
  lw_content : forall m, content t' m = content t m;
  lw_frame : disk t' = disk t /\ sb t' = sb t /\ inodes t' = inodes t;
  lw_quiet : quiet t t'
}.

Lemma lw_post_intro t HH i b start size bl k :
  bc_ok me HH t -> i ∈ HH -> bufs t !! i = Some b -> tx t start size bl ->
  home t start size (blockno b) ->
  Z.of_nat (length bl) < LOGSIZE -> Z.of_nat (length bl) < size - 1 ->
  (bl !! k = Some (blockno b) \/ k = length bl /\ blockno b ∉ bl) ->
  lw_post t HH i b start size bl
    (put_buf i (set_dirty b) (t <| lg ::= logged_block k (blockno b) |>)) (set_dirty b).
Proof.
  intros Hok Hi Hb Htx Hhome H1 H2 Hk.
  destruct (bc_held _ _ _ Hok _ Hi) as (b0 & Hb0 & _ & Hdv & _ & Hv0 & _).
  assert (b0 = b) as -> by congruence.
  pose proof (flags_set_dirty (set_dirty b) _ eq_refl) as [Hd Hv]. rewrite <- has_valid, Hv0 in Hv.
  pose proof (bc_data _ _ _ Hok _ _ Hb) as Hbd.
  split; [| | | | |done|split; [done|by unfold logged_block, setter; cbn; destruct (k =? Z.to_nat (lh_n (lg t)))%nat]].
  - eapply (bc_ok_modify me HH _ i b); [by apply bc_ok_log|done..].
  - by apply tx_absorb.
  - split; [by eapply put_buf_lookup|done].
  - intros j Hj. cbn. by rewrite list_lookup_insert_ne.
  - intros m. rewrite (content_modify me HH _ i b) by (done || by apply bc_ok_log).
    change (content (setter lg _ t) m) with (content t m).
    destruct (Z.eqb_spec m (blockno b)) as [->|]; [|done]. symmetry. apply (content_cached me HH t _ i b Hok Hb).
    by apply caches_spec.
Qed.

(** [log_write] of a held buffer: its block joins the transaction. *)
Lemma wp_log_write s t HH i b start size bl X (Q : unit -> S -> Prop) :
  at_ s [] t -> bc_ok me HH t -> i ∈ HH -> bufs t !! i = Some b -> tx t start size bl ->
  home t start size (blockno b) ->
  (Z.of_nat (length bl) < LOGSIZE /\ Z.of_nat (length bl) < size - 1) \/
    X (Panic "too big a transaction") ->
  (forall s' t' b', at_ s' [] t' -> lw_post t HH i b start size bl t' b' -> Q tt s') ->
  wp (log_write i) X Q s.
Proof.
  intros Hat Hok Hi Hb Htx Hhome HX HQ.
  pose proof Htx as [[(Hst & Hsz & Hdev & Hn) [Hlh Hblk] [Hs1 Hs2] Harea Hnd Hdata] Hpin [_ Hopen]].
  unfold log_write. mstep. eapply wp_get_log; [done|]. rewrite Hn, Hsz.
  destruct ((LOGSIZE <=? Z.of_nat (length bl)) || (size - 1 <=? Z.of_nat (length bl))) eqn:Hfull.
  { destruct HX as [HX|HX]; [lia|]. by apply wp_stop. }
  replace (outstanding (lg t) <? 1) with false by lia.
  mstep. mstep. mstep. mstep. rewrite (buf_at_eq _ _ _ Hb), Nat2Z.id. mstep.
  pose proof (proj1 Hhome) as Hbr.
  assert (Htail : forall k, (bl !! k = Some (blockno b) \/ k = length bl /\ blockno b ∉ bl) ->
    wp (set_lh (Z.of_nat k) (i32 (blockno b)) ;;;
      (if Z.of_nat k =? Z.of_nat (length bl) then upd_log (fun l => l <| lh_n ::= fun n => n + 1 |>) else ret tt) ;;;
      k_mod (upd_buf i (fun b => b <| flags ::= fun f => Z.lor f B_DIRTY |>)) ;;;
      k_release log_lock) X Q s0).
  { intros k Hk.
    assert ((k <= length bl)%nat) as Hkl by (destruct Hk as [?%lookup_lt_Some|[-> _]]; lia).
    rewrite i32_small by lia. mstep. eapply wp_set_lh; [done|lia|]. rewrite Nat2Z.id. intros s2 Hat2. mstep.
    assert (Hend : forall s3, at_ s3 [log_lock] (t <| lg ::= logged_block k (blockno b) |>) ->
      wp (k_mod (upd_buf i (fun b => b <| flags ::= fun f => Z.lor f B_DIRTY |>)) ;;; k_release log_lock) X Q s3).
    { intros s3 Hat3. mstep. mstep. mstep. rewrite (upd_buf_put _ _ _ b) in Hat4 by done.
      eapply HQ; [done|]. apply lw_post_intro; try done; lia. }
    assert ((k =? Z.to_nat (lh_n (lg t)))%nat = (Z.of_nat k =? Z.of_nat (length bl))) as Hkn.
    { rewrite Hn, Nat2Z.id. by destruct (Nat.eqb_spec k (length bl)), (Z.eqb_spec (Z.of_nat k) (Z.of_nat (length bl))); try lia. }
    destruct (Z.of_nat k =? Z.of_nat (length bl)).
    - eapply wp_upd_log; [done|]. intros s3 Hat3. apply Hend.
      unfold logged_block, setter. cbn. rewrite Hkn. exact Hat3.
    - mstep. apply Hend. unfold logged_block, setter. cbn. rewrite Hkn. exact Hat2. }
  eapply wp_lh_find; [done|lia| | |].
  - intros k c Hk. split; [by apply Hblk|]. destruct (Hdata c); [by eapply list_elem_of_lookup_2|lia].
  - intros Hnin. cbn [default]. by apply Htail; right.
  - intros k Hk. cbn [default]. by apply Htail; left.
Qed.
(** ** Blocks inside a transaction *)

(** [updated t n d t']: the contents of block [n] became [d]. *)
Definition updated (t : fsstate) (n : Z) (d : list Z) (t' : fsstate) : Prop :=
  (forall m, content t' m = if m =? n then d else content t m) /\
  disk t' = disk t /\ sb t' = sb t /\ inodes t' = inodes t.

(** A buffer obtained by [bread]. *)
Record got_block (t : fsstate) (HH : list nat) (n : Z) (start size : Z) (bl : list Z)
    (t' : fsstate) (i : nat) (b : buf) : Prop := {
  gb_ok : bc_ok me (i :: HH) t';
  gb_same : same_blocks t t';
  gb_tx : tx t' start size bl;
  gb_new : i ∉ HH;
  gb_buf : bufs t' !! i = Some b /\ blockno b = n /\ bdata b = content t n /\
    (has_flag B_DIRTY b = true \/ bdata b = disk_at t' n);
  gb_held : forall j, j ∈ HH -> bufs t' !! j = bufs t !! j
}.

Lemma wp_bread_tx s t HH n start size bl X (Q : nat -> S -> Prop) :
  at_ s [] t -> bc_ok me HH t -> tx t start size bl -> 0 <= n < Z.of_nat (length (disk t)) ->
  (forall i b, i ∈ HH -> bufs t !! i = Some b -> blockno b <> n) ->
  fits bl (length HH) \/ X (Panic "bget: no buffers") ->
  (forall s' t' i b, at_ s' [] t' -> got_block t HH n start size bl t' i b -> Q i s') ->
  wp (bread 1 n) X Q s.
Proof.
  intros Hat Hok Htx Hn Hne HX HQ. eapply wp_bread; [done..| |].
  { destruct HX; [left; by eapply tx_room|by right]. }
  intros s' t' i Hat' Hp. pose proof (bread_same _ _ _ _ _ _ Hp) as Hsame.
  destruct Hp as [Hok' Hnew (b & Hb & Hbn & Hbd & Hcl) _ (Hd & _) Hheld _].
  eapply (HQ s' t' i b); [done|]. split; try done; [by eapply tx_same|].
  unfold disk_at. rewrite Hd. done.
Qed.

(** Writing through a held buffer. *)
Lemma wp_set_log {A} s t HH i b f start size bl (k : M S A) X (Q : A -> S -> Prop) :
  at_ s [] t -> bc_ok me HH t -> i ∈ HH -> bufs t !! i = Some b -> is_block (f (bdata b)) ->
  tx t start size bl -> home t start size (blockno b) ->
  (Z.of_nat (length bl) < LOGSIZE /\ Z.of_nat (length bl) < size - 1) \/
    X (Panic "too big a transaction") ->
  (forall s' t' b', at_ s' [] t' -> bc_ok me HH t' -> tx t' start size (absorb bl (blockno b)) ->
     bufs t' !! i = Some b' -> blockno b' = blockno b -> bdata b' = f (bdata b) ->
     has_flag B_DIRTY b' = true -> (forall j, j <> i -> bufs t' !! j = bufs t !! j) ->
     updated t (blockno b) (f (bdata b)) t' -> quiet t t' -> wp k X Q s') ->
  wp (set_data i f ;;; log_write i ;;; k) X Q s.
Proof.
  intros Hat Hok Hi Hb Hf Htx Hhome HX HQ. mstep. eapply wp_set_data; [done..|].
  intros s1 t1 Hat1 Hok1 Hc1 Hd1. mstep.
  assert (bufs t1 !! i = Some (b <| bdata ::= f |>)) as Hb1 by by eapply put_buf_lookup.
  assert (tx t1 start size bl) as Htx1.
  { destruct Htx as [Ht Hp Ho]. split; [by eapply txn_frame|intros m; by rewrite Hd1|done]. }
  eapply (wp_log_write _ _ HH i _ start size bl); [done..|].
  intros s2 t2 b2 Hat2 [Hok2 Htx2 (Hb2 & Hbn2 & Hbd2 & Hdi2) Ho2 Hc2 Hf2 Hq2].
  eapply (HQ s2 t2 b2); try done.
  - intros j Hj. rewrite Ho2 by done. unfold t1. cbn. by rewrite list_lookup_insert_ne.
  - split; [|done]. intros m. by rewrite Hc2, Hc1.
Qed.

(** Giving a buffer back. *)
Lemma wp_brelse_tx s t HH HH' i b start size bl X (Q : unit -> S -> Prop) :
  at_ s [] t -> bc_ok me HH t -> i ∈ HH -> bufs t !! i = Some b -> tx t start size bl ->
  (has_flag B_DIRTY b = true \/ bdata b = disk_at t (blockno b)) ->
  (forall j, j ∈ HH' <-> j ∈ HH /\ j <> i) ->
  (forall s' t', at_ s' [] t' -> bc_ok me HH' t' -> same_blocks t t' -> tx t' start size bl ->
     (forall j, j ∈ HH' -> bufs t' !! j = bufs t !! j) -> Q tt s') ->
  wp (brelse i) X Q s.
Proof.
  intros Hat Hok Hi Hb Htx Hcl HHs HQ. eapply wp_brelse; [done..|].
  intros s' t' Hat' Hok' Hc Hf Hh Hd. assert (same_blocks t t') as Hsame by by split.
  eapply HQ; try done. by eapply tx_same.
Qed.

(** ** Beginning and ending an operation *)

(** No operation is under way. *)
Record idle (t : fsstate) (start size : Z) : Prop := {
  id_txn : txn t start size [];
  id_clean : forall m, ~ dirty_in t m;
  id_closed : committing (lg t) = 0 /\ outstanding (lg t) = 0
}.

Lemma wp_begin_op s t start size X (Q : unit -> S -> Prop) :
  at_ s [] t -> bc_ok me [] t -> idle t start size ->
  (forall s', let t' := t <| lg ::= fun l => l <| outstanding := 1 |> |> in
     at_ s' [] t' -> bc_ok me [] t' -> tx t' start size [] -> Q tt s') ->
  wp begin_op X Q s.
Proof.
  intros Hat Hok [Htx Hcl [Hc Ho]] HQ. pose proof (tx_log _ _ _ _ Htx) as (_ & _ & _ & Hn).
  unfold begin_op. mstep. mstep. mstep. apply wp_sleep_while. mstep. eapply wp_get_log; [done|]. mstep.
  rewrite Hc, Ho, Hn. split; [done|]. mstep. eapply wp_upd_log; [done|]. intros s1 Hat1. mstep.
  cbn in Hat2. unfold setter in Hat2. cbn in Hat2. rewrite Ho in Hat2.
  eapply HQ; [exact Hat2|by apply (bc_ok_log _ _ _ (fun l => l <| outstanding := 1 |>))|].
  split; [by destruct Htx; split|..|done]. intros m. split; [by intros ?%Hcl|set_solver].
Qed.
(** What [commit] leaves outside the log. *)
Lemma commit_home t start size bl hd1 hd0 t' m :
  bc_ok me [] t -> txn t start size bl -> pinned t bl -> bc_ok me [] t' ->
  commit_post t start bl hd1 hd0 t' -> data_block start size m ->
  disk_at t' m = content t m /\ content t' m = content t m.
Proof.
  intros Hok Htx Hpin Hok' [_ _ _ Hd Hcl _ _] Hm. destruct Htx as [_ _ [Hs _] _ Hnd Hdata].
  assert (disk_at t' m = content t m) as Hdm.
  { rewrite Hd by apply Hm. rewrite <- (take_ge (commit_writes start (content t) bl hd1 hd0) (2 * length bl + 2)).
    2: { unfold commit_writes. rewrite length_app, length_log_writes. cbn [length].
         rewrite length_app, length_map. cbn. lia. }
    apply (crash_after start size bl hd1 hd0 (disk_at t) (content t)); [done|lia| | |lia|done].
    - intros b Hb. destruct (Hdata b Hb). split; [lia|done].
    - intros b Hb. apply (content_disk me); [done|]. by rewrite (Hpin b). }
  split; [done|]. by rewrite <- Hdm, (content_disk me).
Qed.

(** What the last [end_op] leaves. *)
Record end_post (t : fsstate) (start size : Z) (bl : list Z) (t' : fsstate) : Prop := {
  ep_idle : idle t' start size;
  ep_ok : bc_ok me [] t';
  ep_home : forall m, data_block start size m -> disk_at t' m = content t m /\ content t' m = content t m;
  ep_frame : length (disk t') = length (disk t) /\ sb t' = sb t /\ inodes t' = inodes t;
  ep_hist : exists hd1 hd0, is_head hd1 bl /\ is_head hd0 [] /\
    history t' = (if decide (bl = []) then [] else rev (commit_writes start (content t) bl hd1 hd0)) ++ history t
}.

Lemma wp_commit_tx s t start size bl X (Q : unit -> S -> Prop) :
  at_ s [] t -> bc_ok me [] t -> txn t start size bl -> pinned t bl -> (length bl < NBUF)%nat ->
  (forall s' t', at_ s' [] t' -> bc_ok me [] t' -> lg t' = (lg t) <| lh_n := 0 |> ->
     (forall m, ~ dirty_in t' m) ->
     (forall m, data_block start size m -> disk_at t' m = content t m /\ content t' m = content t m) ->
     (length (disk t') = length (disk t) /\ sb t' = sb t /\ inodes t' = inodes t) ->
     (exists hd1 hd0, is_head hd1 bl /\ is_head hd0 [] /\
       history t' = (if decide (bl = []) then [] else rev (commit_writes start (content t) bl hd1 hd0)) ++ history t) ->
     Q tt s') ->
  wp commit X Q s.
Proof.
  intros Hat Hok Htx Hpin Hlen HQ. destruct (decide (bl = [])) as [->|Hne].
  - pose proof (tx_log _ _ _ _ Htx) as (_ & _ & _ & Hn). unfold commit. mstep. eapply wp_get_log; [done|].
    rewrite Hn. change (0 <? Z.of_nat (length (A:=Z) [])) with false. cbn iota. mstep.
    assert (forall m, ~ dirty_in t m) as Hcl by (intros m Hm%Hpin; set_solver).
    eapply HQ; try done.
    + destruct (lg t). cbn in *. by subst.
    + intros m Hm. by rewrite (content_disk me).
    + exists (replicate 512 0), (replicate 512 0). assert (is_head (replicate 512 0) []) as Hh; [|done].
      split; [split; [done|by apply Forall_replicate]|]. split; [done|]. intros k b. by rewrite lookup_nil.
  - eapply wp_commit; [done..|]. intros s' t' hd1 hd0 Hat' Hok' Hp.
    pose proof Hp as [H1 H0' Hh _ Hcl Hlg Hf]. eapply HQ; try done.
    + intros m Hm. by eapply commit_home.
    + by exists hd1, hd0.
Qed.

Lemma wp_end_op s t start size bl X (Q : unit -> S -> Prop) :
  at_ s [] t -> bc_ok me [] t -> tx t start size bl -> outstanding (lg t) = 1 -> (length bl < NBUF)%nat ->
  (forall s' t', at_ s' [] t' -> end_post t start size bl t' -> Q tt s') ->
  wp end_op X Q s.
Proof.
  intros Hat Hok [Htx Hpin [Hc _]] Ho Hlen HQ. unfold end_op. mstep. mstep. mstep.
  eapply wp_upd_log; [done|]. intros s1 Hat1. mstep. eapply wp_get_log; [done|].
  set (t1 := t <| lg ::= _ |>) in *.
  assert (committing (lg t1) = 0 /\ outstanding (lg t1) = 0) as [-> ->] by (cbn; rewrite Hc, Ho; done).
  cbn [Z.eqb negb]. mstep. mstep. eapply wp_upd_log; [done|]. intros s2 Hat2. mstep. mstep. mstep. mstep.
  set (t2 := t1 <| lg ::= _ |>) in *.
  assert (bc_ok me [] t2) as Hok2 by (unfold t2, t1; by do 2 apply bc_ok_log).
  assert (txn t2 start size bl) as Htx2 by by destruct Htx; split.
  eapply (wp_commit_tx _ _ start size bl); [done|done|done|done|done|].
  intros sc t3 Hatc Hok3 Hlg3 Hcl3 Hhome3 Hf3 Hh3. mstep. mstep. mstep.
  eapply wp_upd_log; [done|]. intros sd Hatd. mstep.
  eapply wp_wake; [done|by unfold no_proc_locks; set_solver|]. intros se Hate. mstep.
  pose proof (proj1 Hf3) as Hl3.
  eapply HQ; [done|]. split; [|by apply bc_ok_log|done|done|done].
  split; [|done|].
  - pose proof (txn_clear _ _ _ _ Htx2 ltac:(destruct Htx as [_ _ [? _] _ _ _]; lia)) as [].
    split; cbn; rewrite ?Hlg3, ?Hl3; done.
  - cbn. rewrite Hlg3. cbn. rewrite Ho. done.
Qed.
End rules.
