(* ===== verification/Demo.v ===== *)
(** * A small machine

    One CPU runs one process, over any client state: the instance of
    [KernLaws] in which the theorems about the file system and the other
    clients are run on concrete inputs.  With it, a small disk. *)
From Stdlib Require Import ZArith Lia.
From stdpp Require Import base list gmap strings.
From S2P Require Import Prelude Params Bytes Spinlock Proc Sched SchedInv SchedThms Kern Sleeplock FsData Bio.
#[local] Open Scope Z_scope.
#[local] Open Scope kernel_scope.

Definition init_proc : proc := a_proc 0 1 RUNNING 0.
Definition init_table : list proc := table_of [init_proc].
Definition init_queue : mlfq := mkmlfq 0 0 0 1 0 None [1; 0; 0] (replicate NPROC None).

Lemma init_inv : sched_inv init_table init_queue.
Proof. by apply sched_inv_concrete. Qed.

#[export] Instance small_laws {E} : KernLaws (kstate E) E :=
  proc_laws (who_one (Some 0%nat)) 0 init_proc init_table 2 (Some 0%nat) 10 false 2147483648
    eq_refl eq_refl ltac:(done).

Definition small {E} (e : E) : kstate E :=
  mkk (mach_one (Some 0%nat)) init_table init_queue 2 (Some 0%nat) 10 false 2147483648 e.

Lemma small_at {E} (e : E) : at_ (small e) [] e.
Proof.
  split; [|done]. exists (mach_one (Some 0%nat)), init_table, init_queue, e.
  split; [done|]. split; [apply view_one|]. split; [apply init_inv|].
  apply Forall_Forall2_diag. apply Forall_forall. intros p _. by left.
Qed.

(** ** Deciding [bc_ok] when no buffer is held *)

Definition is_blockb (d : list Z) : bool :=
  (length d =? 512)%nat && forallb (fun x => (0 <=? x) && (x <? 256)) d.

Lemma is_blockb_ok d : is_blockb d = true -> is_block d.
Proof.
  unfold is_blockb, is_block, bytes_ok, is_byte. rewrite andb_true_iff, forallb_forall, Nat.eqb_eq, Forall_forall.
  intros [Hl Hd]. split; [done|]. intros x Hx%list_elem_of_In. specialize (Hd x Hx). lia.
Qed.

Definition buf_idleb (t : fsstate) (b : buf) : bool :=
  is_blockb (bdata b) && (sl_locked (block b) =? 0) && (refcnt b =? 0) &&
  (negb (has_flag B_DIRTY b) || has_flag B_VALID b) &&
  (negb (has_flag B_VALID b) ||
    ((bdev b =? 1) && (0 <=? blockno b) && (blockno b <? Z.of_nat (length (disk t))) &&
     (has_flag B_DIRTY b || bool_decide (bdata b = disk_at t (blockno b))))).

Definition bc_okb (t : fsstate) : bool :=
  (length (bufs t) =? NBUF)%nat && bool_decide (lru t = seq 0 NBUF) && forallb is_blockb (disk t) &&
  forallb (buf_idleb t) (bufs t) &&
  bool_decide (NoDup (blockno <$> filter (fun b => bdev b = 1) (bufs t))).

Lemma uniq_of_NoDup (l : list buf) :
  NoDup (blockno <$> filter (fun b => bdev b = 1) l) ->
  forall i j b b', l !! i = Some b -> l !! j = Some b' -> bdev b = 1 -> bdev b' = 1 ->
    blockno b = blockno b' -> i = j.
Proof.
  induction l as [|a l IH]; intros Hnd i j b b' Hi Hj Hb Hb' Heq; [done|].
  assert (Hout : forall c k, bdev a = 1 -> l !! k = Some c -> bdev c = 1 -> blockno a <> blockno c).
  { intros c k Ha Hk Hc Hac. rewrite filter_cons_True in Hnd by done. csimpl in Hnd.
    apply NoDup_cons in Hnd as [Hnin _]. apply Hnin. rewrite Hac. apply list_elem_of_fmap_2, list_elem_of_filter.
    split; [done|]. by eapply list_elem_of_lookup_2. }
  assert (NoDup (blockno <$> filter (fun b => bdev b = 1) l)) as Hnd'.
  { rewrite filter_cons in Hnd. case_decide; [|done]. csimpl in Hnd. by apply NoDup_cons in Hnd as [_ ?]. }
  destruct i as [|i], j as [|j]; csimpl in Hi; csimpl in Hj; simplify_eq; [done|..].
  - by destruct (Hout b' j).
  - by destruct (Hout b i).
  - f_equal. by eapply IH.
Qed.

Lemma buf_idleb_ok t b : buf_idleb t b = true ->
  is_block (bdata b) /\ sl_locked (block b) = 0 /\ refcnt b = 0 /\
  (has_flag B_DIRTY b = true -> has_flag B_VALID b = true) /\
  (has_flag B_VALID b = true -> bdev b = 1 /\ 0 <= blockno b < Z.of_nat (length (disk t)) /\
    (has_flag B_DIRTY b = false -> bdata b = disk_at t (blockno b))).
Proof.
  unfold buf_idleb. rewrite !andb_true_iff, !Z.eqb_eq. intros ((((Hb%is_blockb_ok & Hl) & Hr) & Hd) & Hv).
  do 3 (split; [done|]). split; [by destruct (has_flag B_DIRTY b)|]. intros Hv'. rewrite Hv' in Hv. cbn in Hv.
  rewrite !andb_true_iff, orb_true_iff, bool_decide_eq_true in Hv. destruct Hv as (((? & ?) & ?) & Hdd).
  do 2 (split; [lia|]). intros Hd'. rewrite Hd' in Hdd. by destruct Hdd.
Qed.

Lemma bc_okb_ok me t : bc_okb t = true -> bc_ok me [] t.
Proof.
  unfold bc_okb. rewrite !andb_true_iff, !bool_decide_eq_true, !forallb_forall, Nat.eqb_eq.
  intros ((((Hl & Hlru) & Hdisk) & Hb) & Hnd).
  assert (forall i b, bufs t !! i = Some b -> buf_idleb t b = true) as Hbuf.
  { intros i b Hi. apply Hb. rewrite <- list_elem_of_In. by eapply list_elem_of_lookup_2. }
  split; [done|by rewrite Hlru|..].
  - apply Forall_forall. intros d Hd%list_elem_of_In. by apply is_blockb_ok, Hdisk.
  - by intros i b (? & _)%Hbuf%buf_idleb_ok.
  - by apply uniq_of_NoDup.
  - set_solver.
  - intros i b (_ & ? & ? & _ & Hv)%Hbuf%buf_idleb_ok _. do 2 (split; [done|]). intros H1 H2. by apply Hv.
  - intros i b (_ & _ & _ & _ & Hv)%Hbuf%buf_idleb_ok H1. by destruct (Hv H1) as (? & ? & _).
  - by intros i b (_ & _ & _ & Hd & _)%Hbuf%buf_idleb_ok.
Qed.

(** ** A small disk: superblock, log of four blocks, inodes, bitmap, data *)

Definition zeros : list Z := replicate 512 0.
Definition small_sb : list Z := put_words zeros 0 [12; 4; 8; 4; 2; 6; 7].
Definition small_disk : list (list Z) := [zeros; small_sb] ++ replicate 10 zeros.

(** Block [n] was changed to [d] by the running operation. *)
Definition dirty_buf (n : Z) (d : list Z) : buf := mkbuf 6 1 n sl_free 0 d.
Definition small_fs (d : list (list Z)) (bs : list buf) (bl : list Z) (out : Z) : fsstate :=
  mkfs d [] (bs ++ replicate (NBUF - length bs) buf0) (seq 0 NBUF)
    (mklog 2 4 out 0 1 (Z.of_nat (length bl)) (bl ++ replicate (30 - length bl) 0))
    (sb_decode small_sb) (replicate NINODE inode0).

(** A cache in which the buffers flagged dirty are those of [bl]. *)
Definition dirty_blocks (t : fsstate) : list Z :=
  blockno <$> filter (fun b => has_flag B_DIRTY b = true) (bufs t).

Lemma dirty_in_blocks t m : dirty_in t m <-> m ∈ dirty_blocks t.
Proof.
  unfold dirty_in, dirty_blocks. rewrite list_elem_of_fmap. split.
  - intros (i & b & Hi & Hn & Hd). exists b. split; [done|]. apply list_elem_of_filter.
    split; [done|]. by eapply list_elem_of_lookup_2.
  - intros (b & -> & [Hd [i Hi]%list_elem_of_lookup]%list_elem_of_filter). by exists i, b.
Qed.
