(* ===== verification/LogThms.v ===== *)
(** * Crash safety of the log

    The disk writes of the last [end_op] of a transaction, cut off anywhere,
    and [initlog] on the next boot: the transaction is on the disk entirely
    or not at all.  A crash during recovery does no harm either. *)
From Stdlib Require Import ZArith Lia.
From stdpp Require Import base list gmap strings.
From S2P Require Import Prelude Params Bytes Spinlock Proc Sched SchedInv SchedThms Kern Sleeplock FsData Bio Demo Log LogRec LogTx.
#[local] Open Scope Z_scope.
#[local] Open Scope kernel_scope.

(** A kernel that boots on a disk with contents [D] of [len] blocks. *)
Record booted (me : Z) (t : fsstate) (D : Z -> list Z) (len : nat) : Prop := {
  bt_ok : bc_ok me [] t;
  bt_clean : forall m, ~ dirty_in t m;
  bt_disk : forall m, 0 <= m -> disk_at t m = D m;
  bt_len : length (disk t) = len;
  bt_log : length (lh_block (lg t)) = Z.to_nat LOGSIZE
}.

(** Every disk can be booted. *)
Definition boot (D : Z -> list Z) (len : nat) : fsstate :=
  mkfs (map (fun k => D (Z.of_nat k)) (seq 0 len)) [] (replicate NBUF buf0) (seq 0 NBUF)
    (mklog 0 0 0 0 0 0 (replicate (Z.to_nat LOGSIZE) 0)) (mksb 0 0 0 0 0 0 0) (replicate NINODE inode0).

Lemma boot_booted me D len :
  (forall m, 0 <= m < Z.of_nat len -> is_block (D m)) -> (forall m, Z.of_nat len <= m -> D m = []) ->
  booted me (boot D len) D len.
Proof.
  intros HD Hout.
  assert (forall i b, bufs (boot D len) !! i = Some b -> b = buf0) as Hbuf.
  { intros i b Hi. by apply lookup_replicate in Hi as [-> _]. }
  split.
  - split; cbn [boot bufs lru disk]; try done.
    + apply Forall_fmap, Forall_forall. intros k Hk%elem_of_seq. cbn. apply HD. lia.
    + intros i b ->%Hbuf. by apply is_blockb_ok.
    + intros i j b b' ->%Hbuf ->%Hbuf. done.
    + set_solver.
    + by intros i b ->%Hbuf.
    + by intros i b ->%Hbuf.
    + by intros i b ->%Hbuf.
  - intros m (i & b & ->%Hbuf & _ & Hd). done.
  - intros m Hm. unfold disk_at. cbn [boot disk]. destruct (decide (m < Z.of_nat len)) as [Hlt|Hge].
    + rewrite (nth_indep _ _ (D (Z.of_nat 0))) by (rewrite length_map, length_seq; lia).
      rewrite (map_nth (fun k => D (Z.of_nat k))), seq_nth by lia. f_equal. lia.
    + rewrite nth_overflow by (rewrite length_map, length_seq; lia). symmetry. apply Hout. lia.
  - cbn. by rewrite length_map, length_seq.
  - done.
Qed.

(** Block 1 says where the log is. *)
Definition sb_log (d : list Z) (start size : Z) : Prop :=
  sb_logstart (sb_decode d) = start /\ sb_nlog (sb_decode d) = size.

(** The blocks that [commit] writes. *)
Lemma commit_writes_elem start f bl hd1 hd0 j m :
  m ∈ (take j (commit_writes start f bl hd1 hd0)).*1 ->
  m ∈ bl \/ start <= m <= start + Z.of_nat (length bl).
Proof.
  rewrite fmap_take. intros Hm%subseteq_take. unfold commit_writes in Hm.
  rewrite fmap_app in Hm. apply elem_of_app in Hm as [Hm%log_writes_elem|Hm]; [right; lia|].
  csimpl in Hm. rewrite fmap_app, map_writes_fst in Hm. csimpl in Hm.
  apply elem_of_cons in Hm as [->|[Hm|Hm%list_elem_of_singleton]%elem_of_app]; [right; lia|by left|right; lia].
Qed.

Section rules.
Context {S : Type} `{KernLaws S fsstate}.
Implicit Types (s : S) (t : fsstate) (X : stop -> Prop).
Abbreviation me := (my_pid (S := S) (T := fsstate)).

Lemma wp_readsb s t X (Q : superblock -> S -> Prop) :
  at_ s [] t -> bc_ok me [] t -> room t [] 1 -> 1 < Z.of_nat (length (disk t)) ->
  (forall s' t', at_ s' [] t' -> bc_ok me [] t' -> same_blocks t t' -> Q (sb_decode (content t 1)) s') ->
  wp (readsb 1) X Q s.
Proof.
  intros Hat Hok Hroom Hlen HQ. unfold readsb. mstep.
  eapply wp_bread; [done|done|lia|set_solver|by left|]. intros s1 t1 i Hat1 Hp1.
  pose proof (bread_same _ _ _ _ _ _ Hp1) as Hsame.
  destruct Hp1 as [Hok1 _ (b & Hb & Hbn & Hbd & Hcl) Hc1 (Hd1 & _) _ _].
  mstep. eapply wp_buf_data; [done..|]. mstep.
  eapply (wp_brelse _ _ [i] []); [done|done|set_solver|done| |set_solver|].
  { rewrite Hbn. unfold disk_at in *. by rewrite Hd1. }
  intros s2 t2 Hat2 Hok2 Hc2 Hf2 _ Hd2. mstep. rewrite Hbd. eapply HQ; [done|done|].
  transitivity t1; [done|by split].
Qed.

(** Up to [recover_from_log]. *)
Lemma wp_initlog s t D len start size X (Q : unit -> S -> Prop) :
  at_ s [] t -> booted me t D len -> sb_log (D 1) start size -> 1 < Z.of_nat len ->
  (forall s' t', at_ s' [] t' -> bc_ok me [] t' -> rebooted t' start size D len ->
     history t' = history t -> wp recover_from_log X Q s') ->
  wp (initlog 1) X Q s.
Proof.
  intros [Hc Hp] [Hok Hcl Hd Hlen Hlh] [Hs1 Hs2] Hl1 HQ. unfold initlog.
  change (BSIZE <=? LOGHEADER_SIZE) with false. cbn iota. mstep.
  eapply wp_k_initlock; [done|]. intros s1 Hc1 Hp1. rewrite Hp in Hp1.
  assert (at_ s1 [] t) as Hat1 by done. mstep. eapply wp_readsb; [done|done| |lia|].
  { right. exists []. split; [|by cbn; unfold NBUF; lia]. intros m Hm. by destruct (Hcl m). }
  rewrite (content_disk me), Hd, Hs1, Hs2 by done.
  intros s2 t2 Hat2 Hok2 [Hc2 (Hd2 & Hh2 & Hl2 & _) Hdi2]. mstep.
  eapply wp_upd_log; [done|]. intros s3 Hat3. eapply HQ; [done|by apply bc_ok_log| |done].
  split.
  - intros m Hm. by apply (Hcl m), Hdi2.
  - intros m Hm. change (disk_at t2 m = D m). unfold disk_at. rewrite Hd2. by apply Hd.
  - cbn. by rewrite Hd2.
  - cbn. by rewrite Hl2.
Qed.
End rules.

(** The disk that recovery makes of [D] when the header names [bl]. *)
Definition logical (start : Z) (bl : list Z) (D : Z -> list Z) (m : Z) : list Z :=
  match list_find (fun b => b = m) bl with
  | Some (k, _) => D (start + Z.of_nat k + 1)
  | None => D m
  end.

Lemma logical_at start bl D k m :
  NoDup bl -> bl !! k = Some m -> logical start bl D m = D (start + Z.of_nat k + 1).
Proof.
  intros Hnd Hk. unfold logical. destruct (list_find _ bl) as [[k' m']|] eqn:Hf.
  - apply list_find_Some in Hf as (Hk' & -> & _). by rewrite (NoDup_lookup _ _ _ _ Hnd Hk Hk').
  - apply list_find_None in Hf. rewrite Forall_forall in Hf. by destruct (Hf m); [eapply list_elem_of_lookup_2|].
Qed.

Lemma logical_other start bl D m : m ∉ bl -> logical start bl D m = D m.
Proof.
  intros Hm. unfold logical. destruct (list_find _ bl) as [[k' m']|] eqn:Hf; [|done].
  apply list_find_Some in Hf as (Hk' & -> & _). by destruct Hm; eapply list_elem_of_lookup_2.
Qed.

(** Copying some blocks home does not change it. *)
Lemma logical_home_writes start size bl D j m :
  NoDup bl -> Z.of_nat (length bl) < size ->
  (forall b, b ∈ bl -> data_block start size b) -> data_block start size m ->
  let D' := awrites D (take j (home_writes start D bl)) in
  logical start bl D' m = logical start bl D m /\ D' start = D start /\
  ((length bl <= j)%nat -> D' m = logical start bl D m).
Proof.
  intros Hnd Hlen Hdata Hm D'.
  assert (forall n, n ∉ take j bl -> D' n = D n) as Hout.
  { intros n Hn. apply awrites_other. rewrite fmap_take, home_writes_fst. done. }
  assert (forall n, (start <= n < start + size) -> D' n = D n) as Hlog.
  { intros n Hn. apply Hout. intros Hin%subseteq_take. destruct (Hdata _ Hin). lia. }
  split; [|split; [apply Hlog; lia|]].
  - destruct (decide (m ∈ bl)) as [[k Hk]%list_elem_of_lookup|Hmb].
    + rewrite !(logical_at _ _ _ k) by done. apply lookup_lt_Some in Hk. apply Hlog. lia.
    + rewrite !logical_other by done. apply Hout. by intros ?%subseteq_take.
  - intros Hj. unfold D'. rewrite take_ge by (unfold home_writes; by rewrite length_imap).
    destruct (decide (m ∈ bl)) as [[k Hk]%list_elem_of_lookup|Hmb].
    + rewrite (logical_at _ _ _ k) by done. apply (awrites_at _ _ k); [by rewrite home_writes_fst|].
      unfold home_writes. by rewrite list_lookup_imap, Hk.
    + rewrite logical_other by done. apply awrites_other. by rewrite home_writes_fst.
Qed.

Section thms.
Context {S : Type} `{KernLaws S fsstate}.
Implicit Types (s : S) (t : fsstate).
Abbreviation me := (my_pid (S := S) (T := fsstate)).

(** The last [end_op], and recovery after a crash during it. *)
Lemma wp_end_op_crash s t start size bl X (Q : unit -> S -> Prop) :
  at_ s [] t -> bc_ok me [] t -> tx t start size bl -> outstanding (lg t) = 1 ->
  (length bl < NBUF)%nat -> is_head (disk_at t start) [] -> 1 ∉ bl -> sb_log (disk_at t 1) start size ->
  (forall s' t' W, at_ s' [] t' -> end_post t start size bl t' -> history t' = rev W ++ history t ->
     (forall j s2 t2 X2 (Q2 : unit -> S -> Prop),
        at_ s2 [] t2 -> booted me t2 (awrites (disk_at t) (take j W)) (length (disk t)) ->
        (forall s3 t3, at_ s3 [] t3 -> bc_ok me [] t3 -> (forall m, ~ dirty_in t3 m) ->
           (forall m, data_block start size m ->
              disk_at t3 m = if (j <=? length bl)%nat then disk_at t m else content t m) -> Q2 tt s3) ->
        wp (initlog 1) X2 Q2 s2) -> Q tt s') ->
  wp end_op X Q s.
Proof.
  intros Hat Hok Htx Ho Hlen Hhead H1 Hsb HQ. pose proof Htx as [Htxn Hpin _].
  pose proof Htxn as [_ _ [Hs _] [Ha1 [Ha2 _]] _ _].
  eapply wp_end_op; [done..|]. intros s' t' Hat' Hp. pose proof Hp as [_ _ Hhome _ (hd1 & hd0 & Hhd1 & Hhd0 & Hh)].
  set (W := if decide (bl = []) then [] else commit_writes start (content t) bl hd1 hd0).
  apply (HQ s' t' W); [done|done|rewrite Hh; unfold W; by case_decide|].
  intros j s2 t2 X2 Q2 Hat2 Hb HQ2. set (D := awrites (disk_at t) (take j W)) in *.
  assert (D 1 = disk_at t 1) as HD1.
  { apply awrites_other. unfold W. case_decide; [rewrite take_nil; set_solver|].
    intros [Hin|Hin]%commit_writes_elem; [done|lia]. }
  eapply wp_initlog; [done|done|by rewrite HD1|lia|]. intros s3 t3 Hat3 Hok3 Hrb _.
  set (j' := if decide (bl = []) then 0%nat else j).
  assert (D = crash_disk start bl hd1 hd0 (disk_at t) (content t) j') as HD.
  { unfold D, W, j', crash_disk. case_decide; [by rewrite take_nil|done]. }
  rewrite HD in Hrb. apply (wp_recover_crash s3 t3 t start size bl hd1 hd0 j'); [done..|].
  intros s4 t4 Hat4 Hok4 Hcl4 Hd4. eapply (HQ2 s4 t4); [done..|].
  intros m Hm. rewrite Hd4 by done. unfold j'. case_decide as Hbl; [|done].
  assert (content t m = disk_at t m) as ->; [|by repeat destruct (_ <=? _)%nat].
  apply (content_disk me); [done|]. rewrite (Hpin m), Hbl. set_solver.
Qed.

(** C2: Transactions are atomic.  Let the blocks [bl] be those that the
    operations since the last commit have changed, and let the log on the disk
    be empty.  The [end_op] of the last of them returns; it makes a sequence
    [W] of disk writes after which every block has its new contents; and if
    the machine stops after any number [j] of these writes, then [initlog] on
    the next boot returns with every block outside the log as it was before
    the operations if [j] is at most the number of changed blocks, and with
    the new contents otherwise. *)
Theorem end_op_crash_atomic s t start size bl :
  at_ s [] t -> bc_ok me [] t -> tx t start size bl -> outstanding (lg t) = 1 ->
  (length bl < NBUF)%nat -> is_head (disk_at t start) [] ->
  1 ∉ bl -> sb_log (disk_at t 1) start size ->
  wp end_op never (fun _ s' => exists t' W, at_ s' [] t' /\ history t' = rev W ++ history t /\
    (forall m, data_block start size m -> disk_at t' m = content t m) /\
    forall j s2 t2, at_ s2 [] t2 -> booted me t2 (awrites (disk_at t) (take j W)) (length (disk t)) ->
      wp (initlog 1) never (fun _ s3 => exists t3, at_ s3 [] t3 /\
        forall m, data_block start size m ->
          disk_at t3 m = if (j <=? length bl)%nat then disk_at t m else content t m) s2) s.
Proof.
  intros Hat Hok Htx Ho Hlen Hhead H1 Hsb. eapply wp_end_op_crash; [done..|].
  intros s' t' W Hat' Hp Hh Hcrash. exists t', W. split; [done|]. split; [done|].
  split; [intros m Hm; by apply (ep_home _ _ _ _ _ Hp)|]. intros j s2 t2 Hat2 Hb.
  eapply Hcrash; [done..|]. intros s3 t3 Hat3 _ _ Hd3. by exists t3.
Qed.

(** C10: Recovery can be interrupted.  On a machine that boots on a disk whose
    log header names the blocks [bl], [recover_from_log] returns with an empty
    log and with each of [bl] replaced by its copy in the log.  If the machine
    stops after any number [j] of the writes it makes, the disk it leaves has
    a valid header again, and recovering from that disk would give the same
    blocks. *)
Theorem recover_restartable s t start size bl :
  at_ s [] t -> bc_ok me [] t -> logged t start size bl -> (forall m, ~ dirty_in t m) ->
  wp recover_from_log never (fun _ s' => exists t' W, at_ s' [] t' /\ history t' = rev W ++ history t /\
    lh_n (lg t') = 0 /\ is_head (disk_at t' start) [] /\
    (forall m, data_block start size m -> disk_at t' m = logical start bl (disk_at t) m) /\
    forall j, let D := awrites (disk_at t) (take j W) in
      exists bl', is_head (D start) bl' /\
        forall m, data_block start size m -> logical start bl' D m = logical start bl (disk_at t) m) s.
Proof.
  intros Hat Hok Hlo Hcl. pose proof Hlo as [_ Hhd [Hs _] [Ha _] Hnd Hdata].
  assert (forall b, b ∈ bl -> data_block start size b) as Hdb.
  { intros b Hb. destruct (Hdata b Hb). split; [lia|done]. }
  rewrite (content_disk me) in Hhd by done.
  eapply wp_recover; [done..|]. intros s' t' hd Hat' _ Hhd0 Hn _ Hh Hd.
  set (hw := home_writes start (disk_at t) bl) in *. exists t', (hw ++ [(start, hd)]).
  assert (length hw = length bl) as Hlh by (unfold hw, home_writes; by rewrite length_imap).
  assert (forall m, data_block start size m -> awrites (disk_at t) (hw ++ [(start, hd)]) m =
    logical start bl (disk_at t) m) as Hfin.
  { intros m Hm. rewrite awrites_app, awrites_other by (destruct Hm; cbn; intros ?%list_elem_of_singleton; lia).
    rewrite <- (take_ge hw (length bl)) by lia. by apply (logical_home_writes start size). }
  assert (awrites (disk_at t) (hw ++ [(start, hd)]) start = hd) as Hst.
  { rewrite awrites_app. cbn. unfold awrite. cbn. by rewrite Z.eqb_refl. }
  do 3 (split; [done|]). split; [by rewrite Hd, Hst by lia|].
  split; [intros m Hm; rewrite Hd by apply Hm; by apply Hfin|]. intros j D.
  destruct (decide (j <= length bl)%nat) as [Hj|Hj]; unfold D.
  - rewrite take_app_le by lia. exists bl. split.
    + assert (data_block start size 0) as H00 by (split; lia).
      destruct (logical_home_writes start size bl (disk_at t) j 0) as (_ & Heq & _); try done.
      fold hw in Heq. by rewrite Heq.
    + intros m Hm. by apply (logical_home_writes start size).
  - rewrite take_ge by (rewrite length_app; cbn; lia). exists []. rewrite Hst. split; [done|]. apply Hfin.
Qed.
End thms.

(** *** A transaction that changed block 9 *)

Definition one_block : fsstate := small_fs small_disk [dirty_buf 9 (replicate 512 1)] [9] 1.

Lemma one_block_tx : tx one_block 2 4 [9].
Proof.
  split; [split|..]; try done.
  - split; [done|]. intros [|k] b; csimpl; [by intros [= <-]|]. by rewrite lookup_nil.
  - by apply NoDup_singleton.
  - intros b ->%list_elem_of_singleton. cbn. lia.
  - intros m. rewrite dirty_in_blocks. by replace (dirty_blocks one_block) with [9] by (by vm_compute).
Qed.

Lemma end_op_crash_atomic_witness :
  wp end_op never (fun _ s' => exists t' W, at_ s' [] t' /\ history t' = rev W ++ history one_block /\
    (forall m, data_block 2 4 m -> disk_at t' m = content one_block m) /\
    forall j s2 t2, at_ s2 [] t2 -> booted (my_pid (S := kstate fsstate) (T := fsstate)) t2 (awrites (disk_at one_block) (take j W)) (length (disk one_block)) ->
      wp (initlog 1) never (fun _ s3 => exists t3, at_ s3 [] t3 /\
        forall m, data_block 2 4 m ->
          disk_at t3 m = if (j <=? length [9])%nat then disk_at one_block m else content one_block m) s2)
    (small one_block).
Proof.
  apply (end_op_crash_atomic (small one_block) one_block 2 4 [9]).
  - apply small_at.
  - apply bc_okb_ok. by vm_compute.
  - apply one_block_tx.
  - done.
  - unfold NBUF. cbn. lia.
  - split; [by apply is_blockb_ok|]. split; [by vm_compute|]. intros k b. by rewrite lookup_nil.
  - set_solver.
  - by vm_compute.
Defined.

(** *** A machine that stopped after the header was written *)

Definition head_9 : list Z := put_words zeros 0 [1; 9].
Definition stopped : fsstate :=
  small_fs (<[3%nat := replicate 512 1]> (<[2%nat := head_9]> small_disk)) [] [] 0.

Lemma recover_restartable_witness :
  wp recover_from_log never (fun _ s' => exists t' W, at_ s' [] t' /\ history t' = rev W ++ history stopped /\
    lh_n (lg t') = 0 /\ is_head (disk_at t' 2) [] /\
    (forall m, data_block 2 4 m -> disk_at t' m = logical 2 [9] (disk_at stopped) m) /\
    forall j, let D := awrites (disk_at stopped) (take j W) in
      exists bl', is_head (D 2) bl' /\
        forall m, data_block 2 4 m -> logical 2 bl' D m = logical 2 [9] (disk_at stopped) m)
    (small stopped).
Proof.
  apply (recover_restartable (small stopped) stopped 2 4 [9]).
  - apply small_at.
  - apply bc_okb_ok. by vm_compute.
  - split; try done.
    + split; [by apply is_blockb_ok; vm_compute|]. split; [by vm_compute|].
      intros [|k] b; csimpl; [intros [= <-]; by vm_compute|]. by rewrite lookup_nil.
    + by apply NoDup_singleton.
    + intros b ->%list_elem_of_singleton. cbn. lia.
  - intros m. rewrite dirty_in_blocks. replace (dirty_blocks stopped) with (@nil Z) by (by vm_compute). set_solver.
Defined.
