(* ===== verification/Semaphore.v ===== *)
(** * Semaphores and read-write locks ([semaphore.c], [rwlock.c])

    The objects lie in user memory, at the addresses the calls are given.
    [xem_wait], [xem_post] and the rwlock routines are first given as kernel
    code; then as processes that interleave at each lock operation, which is
    where [xem_post] differs from the rest of the kernel: it wakes a sleeper
    without holding [ptable.lock]. *)
From Stdlib Require Import ZArith Lia.
From stdpp Require Import base list gmap strings relations.
From S2P Require Import Prelude Params Spinlock Proc Sched SchedInv Kern Sleeplock.
#[local] Open Scope Z_scope.
#[local] Open Scope kernel_scope.

(** [xem_t] without its spin lock, and [readers] of [rwlock_t]. *)
Record xem := mkxem { xvalue : Z; xchan : Z }.
#[export] Instance eta_xem : Eta xem := fun x => mkxem (xvalue x) (xchan x).
Record semst := mksemst { sems : gmap Z xem; readers : gmap Z Z }.
#[export] Instance eta_semst : Eta semst := fun s => mksemst (sems s) (readers s).

(** [&semaphore->chan], [&semaphore->lock]; [&rwlock->lock],
    [&rwlock->writelock], [&rwlock->readers]. *)
Definition xem_chan (a : Z) : chan := ChAddr (a + 4).
Definition xem_lk (a : Z) : Z := a + 8.
Definition rw_lock (a : Z) : Z := a.
Definition rw_writelock (a : Z) : Z := a + 60.

Section ops.
Context {E : Type} `{Sub E semst}.
Abbreviation K := (kstate E).

Definition get_xem (a : Z) : M K xem :=
  s <~ k_get (T := semst); of_option (Undef "semaphore") (sems s !! a).
Definition mod_xem (a : Z) (f : xem -> xem) : M K unit :=
  x <~ get_xem a; k_mod (T := semst) (fun s => s <| sems ::= <[a := f x]> |>).
Definition get_readers (a : Z) : M K Z :=
  s <~ k_get (T := semst); of_option (Undef "rwlock") (readers s !! a).
Definition set_readers (a n : Z) : M K unit :=
  k_mod (T := semst) (fun s => s <| readers ::= <[a := n]> |>).

Definition xem_init (a : Z) : M K Z :=
  k_mod (T := semst) (fun s => s <| sems ::= <[a := mkxem 1 0]> |>) ;;;
  k_initlock (T := semst) (xem_lk a) "semaphore" ;;;
  ret 0.

Definition xem_wait (a : Z) : M K Z :=
  k_acquire (T := semst) (xem_lk a) ;;;
  sleep_while (T := semst) (x <~ get_xem a; ret (xvalue x <=? 0)) (xem_chan a) (xem_lk a) ;;;
  mod_xem a (fun x => x <| xvalue ::= fun v => i32 (v - 1) |>) ;;;
  k_release (T := semst) (xem_lk a) ;;;
  ret 0.

Definition xem_post (a : Z) : M K Z :=
  k_acquire (T := semst) (xem_lk a) ;;;
  mod_xem a (fun x => x <| xvalue ::= fun v => i32 (v + 1) |>) ;;;
  wakeup_one (xem_chan a) ;;;
  k_release (T := semst) (xem_lk a) ;;;
  ret 0.

Definition rwlock_init (a : Z) : M K Z :=
  set_readers a 0 ;;;
  xem_init (rw_lock a) ;;;
  xem_init (rw_writelock a) ;;;
  ret 0.

Definition rwlock_acquire_readlock (a : Z) : M K Z :=
  xem_wait (rw_lock a) ;;;
  n <~ get_readers a;
  set_readers a (i32 (n + 1)) ;;;
  n <~ get_readers a;
  (if n =? 1 then xem_wait (rw_writelock a) ;;; ret tt else ret tt) ;;;
  xem_post (rw_lock a) ;;;
  ret 0.

Definition rwlock_release_readlock (a : Z) : M K Z :=
  xem_wait (rw_lock a) ;;;
  n <~ get_readers a;
  set_readers a (i32 (n - 1)) ;;;
  n <~ get_readers a;
  (if n =? 0 then xem_post (rw_writelock a) ;;; ret tt else ret tt) ;;;
  xem_post (rw_lock a) ;;;
  ret 0.

Definition rwlock_acquire_writelock (a : Z) : M K Z := xem_wait (rw_writelock a) ;;; ret 0.
Definition rwlock_release_writelock (a : Z) : M K Z := xem_post (rw_writelock a) ;;; ret 0.
End ops.

(** ** Interleavings of [xem_wait] and [xem_post] *)

(** Where a process is.  [Test]: it holds [semaphore->lock] and looks at the
    value; [Pt] and [Rel]: in [sleep], before [acquire(&ptable.lock)] and
    before [release(lk)]; [Mark]: it holds [ptable.lock] only and has not yet
    set [p->state]; [Slept]; [Woken]: runnable, about to take the semaphore's
    lock again; [Took]: it has decremented the value and holds the lock; [In]:
    [xem_wait] has returned; then the steps of [xem_post]. *)
Inductive pc := Out | Acq | Test | Pt | Rel | Mark | Slept | Woken | Took | In | PAcq | PAdd | PScan | PRel.
#[export] Instance pc_eq_dec : EqDecision pc.
Proof. solve_decision. Defined.

Record semsys := mksemsys { sval : Z; pcs : list pc }.

Definition holds_sem (c : pc) : bool :=
  match c with Test | Pt | Rel | Took | PAdd | PScan | PRel => true | _ => false end.
Definition holds_pt (c : pc) : bool := match c with Rel | Mark => true | _ => false end.

(** No process but [i] satisfies [f]. *)
Definition none_but (f : pc -> bool) (i : nat) (l : list pc) : Prop :=
  forall j c, j <> i -> l !! j = Some c -> f c = false.

(** [wakeup_one]: the first sleeper, if there is one. *)
Definition wake_first (l : list pc) : list pc :=
  match list_find (fun c => c = Slept) l with
  | Some (j, _) => <[j := Woken]> l
  | None => l
  end.

(** One step of process [i] at [c]: the value, its next place and the list
    of the others after it. *)
Inductive sem_act (i : nat) : semsys -> semsys -> Prop :=
| act_wait s : pcs s !! i = Some Out -> sem_act i s (mksemsys (sval s) (<[i := Acq]> (pcs s)))
| act_acquire s c : pcs s !! i = Some c -> c = Acq \/ c = Woken -> none_but holds_sem i (pcs s) ->
    sem_act i s (mksemsys (sval s) (<[i := Test]> (pcs s)))
| act_take s : pcs s !! i = Some Test -> 0 < sval s ->
    sem_act i s (mksemsys (sval s - 1) (<[i := Took]> (pcs s)))
| act_return s : pcs s !! i = Some Took -> sem_act i s (mksemsys (sval s) (<[i := In]> (pcs s)))
| act_sleep s : pcs s !! i = Some Test -> sval s <= 0 ->
    sem_act i s (mksemsys (sval s) (<[i := Pt]> (pcs s)))
| act_ptable s : pcs s !! i = Some Pt -> none_but holds_pt i (pcs s) ->
    sem_act i s (mksemsys (sval s) (<[i := Rel]> (pcs s)))
| act_release_lk s : pcs s !! i = Some Rel -> sem_act i s (mksemsys (sval s) (<[i := Mark]> (pcs s)))
| act_mark s : pcs s !! i = Some Mark -> sem_act i s (mksemsys (sval s) (<[i := Slept]> (pcs s)))
| act_post s : pcs s !! i = Some In -> sem_act i s (mksemsys (sval s) (<[i := PAcq]> (pcs s)))
| act_post_acquire s : pcs s !! i = Some PAcq -> none_but holds_sem i (pcs s) ->
    sem_act i s (mksemsys (sval s) (<[i := PAdd]> (pcs s)))
| act_add s : pcs s !! i = Some PAdd -> sem_act i s (mksemsys (sval s + 1) (<[i := PScan]> (pcs s)))
| act_scan s : pcs s !! i = Some PScan ->
    sem_act i s (mksemsys (sval s) (<[i := PRel]> (wake_first (pcs s))))
| act_post_return s : pcs s !! i = Some PRel -> sem_act i s (mksemsys (sval s) (<[i := Out]> (pcs s))).

(** On several CPUs any process may take the next step; on one CPU only the
    holder of a spin lock can, since interrupts are off. *)
Definition locks_any (c : pc) : bool := holds_sem c || holds_pt c.
Definition sem_step_smp (s s' : semsys) : Prop := exists i, sem_act i s s'.
Definition sem_step_uni (s s' : semsys) : Prop :=
  exists i, none_but locks_any i (pcs s) /\ sem_act i s s'.

(** [n] processes and a semaphore as [xem_init] leaves it. *)
Definition sem_start (n : nat) : semsys := mksemsys 1 (replicate n Out).

(** ** What holds *)

(** A process that has taken a unit and not given it back. *)
Definition has_unit (c : pc) : bool := match c with Took | In | PAcq | PAdd => true | _ => false end.

Definition unit_inv (s : semsys) : Prop := 0 <= sval s /\ sval s + countb has_unit (pcs s) = 1.

Lemma has_unit_wake l : countb has_unit (wake_first l) = countb has_unit l.
Proof.
  unfold wake_first. destruct (list_find _ l) as [[j c]|] eqn:Hf; [|done].
  apply list_find_Some in Hf as (Hj & -> & _). rewrite (countb_insert _ _ _ _ _ Hj). cbn. lia.
Qed.

Lemma wake_first_self l i c : l !! i = Some c -> c <> Slept -> wake_first l !! i = Some c.
Proof.
  intros Hi Hc. unfold wake_first. destruct (list_find _ l) as [[j d]|] eqn:Hf; [|done].
  apply list_find_Some in Hf as (Hj & -> & _). rewrite list_lookup_insert_ne; [done|]. congruence.
Qed.

Lemma unit_inv_act i s s' : unit_inv s -> sem_act i s s' -> unit_inv s'.
Proof.
  unfold unit_inv. intros [H0 H1] Ha.
  destruct Ha as [s Hi|s c Hi [-> | ->] _|s Hi Hv|s Hi|s Hi Hv|s Hi _|s Hi|s Hi|s Hi|s Hi _|s Hi|s Hi|s Hi]; cbn in *.
  all: try (rewrite (countb_insert _ _ _ _ _ Hi); cbn; lia).
  pose proof (wake_first_self _ _ _ Hi ltac:(done)) as Hi'.
  rewrite (countb_insert _ _ _ _ _ Hi'), has_unit_wake. cbn. lia.
Qed.

Lemma unit_inv_reach n s : rtc sem_step_smp (sem_start n) s -> unit_inv s.
Proof.
  assert (unit_inv (sem_start n)) as H0.
  { split; cbn; [lia|]. rewrite countb_zero; [lia|]. intros c Hc%elem_of_replicate. by destruct Hc as [-> _]. }
  intros Hr. revert H0. induction Hr as [|s1 s2 s3 [i Ha] _ IH]; [done|]. intros H1. by eapply IH, unit_inv_act.
Qed.

(** C27: A semaphore excludes.  From [xem_init] on, with any number of
    processes that call [xem_wait] and then [xem_post] on any number of CPUs,
    at most one process at a time is between the two. *)
Theorem xem_mutual_exclusion n s i j ci cj :
  rtc sem_step_smp (sem_start n) s ->
  pcs s !! i = Some ci -> has_unit ci = true -> pcs s !! j = Some cj -> has_unit cj = true -> i = j.
Proof.
  intros [H0 H1]%unit_inv_reach Hi Hci Hj Hcj. destruct (decide (i = j)) as [|Hne]; [done|exfalso].
  assert (0 < countb has_unit (<[i := Out]> (pcs s))) as Hp.
  { apply countb_pos. exists j, cj. by rewrite list_lookup_insert_ne. }
  rewrite (countb_insert _ _ _ _ _ Hi), Hci in Hp. cbn in Hp. lia.
Qed.

Lemma xem_mutual_exclusion_witness :
  exists s, rtc sem_step_smp (sem_start 2) s /\ pcs s !! 0%nat = Some In /\
    (forall j cj, pcs s !! j = Some cj -> has_unit cj = true -> 0%nat = j).
Proof.
  assert (rtc sem_step_smp (sem_start 2) (mksemsys 0 [In; Acq])) as Hr.
  { eapply rtc_l; [exists 0%nat; by apply act_wait|]. eapply rtc_l; [exists 1%nat; by apply act_wait|].
    eapply rtc_l; [exists 0%nat; eapply act_acquire; [done|by left|]|].
    { intros [|[|j]] c Hj; cbn; [done|by intros [= <-]|done]. }
    eapply rtc_l; [exists 0%nat; by apply act_take|]. eapply rtc_l; [exists 0%nat; by apply act_return|].
    apply rtc_refl. }
  exists (mksemsys 0 [In; Acq]). split; [done|]. split; [done|]. intros j cj Hj Hcj.
  by apply (xem_mutual_exclusion 2 (mksemsys 0 [In; Acq]) 0 j In cj).
Defined.

(** C30: A wakeup can be lost on two CPUs.  [xem_post] may look for sleepers
    after [sleep] has released the semaphore's lock and before it has marked
    the process as sleeping: there is a run at the end of which the semaphore
    is free, no other process is inside a call, and the waiter sleeps; it
    cannot take a step of its own. *)
Theorem xem_post_lost_wakeup :
  exists s, rtc sem_step_smp (sem_start 2) s /\ sval s = 1 /\ pcs s = [Out; Slept] /\
    forall s', ~ sem_act 1 s s'.
Proof.
  exists (mksemsys 1 [Out; Slept]). split; [|split; [done|split; [done|]]].
  - do 2 (eapply rtc_l; [exists 0%nat; first [by apply act_wait | eapply act_acquire; [done|by left|];
      by intros [|[|j]] c Hj; cbn; try done; intros [= <-]]|]).
    do 2 (eapply rtc_l; [exists 0%nat; first [by apply act_take | by apply act_return]|]).
    do 2 (eapply rtc_l; [exists 1%nat; first [by apply act_wait | eapply act_acquire; [done|by left|];
      by intros [|[|j]] c Hj; cbn; try done; intros [= <-]]|]).
    eapply rtc_l; [exists 1%nat; by apply act_sleep|].
    eapply rtc_l; [exists 1%nat; apply act_ptable; [done|]; by intros [|[|j]] c Hj; cbn; try done; intros [= <-]|].
    eapply rtc_l; [exists 1%nat; by apply act_release_lk|].
    eapply rtc_l; [exists 0%nat; by apply act_post|].
    eapply rtc_l; [exists 0%nat; apply act_post_acquire; [done|]; by intros [|[|j]] c Hj; cbn; try done; intros [= <-]|].
    eapply rtc_l; [exists 0%nat; by apply act_add|]. eapply rtc_l; [exists 0%nat; by apply act_scan|].
    eapply rtc_l; [exists 0%nat; by apply act_post_return|]. eapply rtc_l; [exists 1%nat; by apply act_mark|].
    apply rtc_refl.
  - intros s' Ha. inversion Ha; subst; cbn in *; destruct_or?; congruence.
Qed.

(** *** One CPU *)

(** A process that is about to look at the value or to wake a sleeper. *)
Definition alert (c : pc) : bool := match c with Woken | Test | PScan => true | _ => false end.
Definition going_to_sleep (c : pc) : bool := match c with Pt | Rel | Mark => true | _ => false end.

Record uni_inv (s : semsys) : Prop := {
  ui_locks : forall i j c d, pcs s !! i = Some c -> pcs s !! j = Some d ->
    locks_any c = true -> locks_any d = true -> i = j;
  ui_sleep : forall i c, pcs s !! i = Some c -> going_to_sleep c = true -> sval s <= 0;
  ui_alert : 0 < sval s -> (exists i, pcs s !! i = Some Slept) ->
    exists j c, pcs s !! j = Some c /\ alert c = true
}.

Lemma wake_first_lookup l j c :
  wake_first l !! j = Some c -> (l !! j = Some c /\ (c <> Slept \/ wake_first l !! j = l !! j)) \/ (c = Woken /\ l !! j = Some Slept).
Proof.
  unfold wake_first. destruct (list_find _ l) as [[k d]|] eqn:Hf; [|naive_solver].
  apply list_find_Some in Hf as (Hk & -> & _). intros [(-> & <- & _)|[Hne Hj]]%list_lookup_insert_Some; [by right|].
  left. split; [done|]. right. by rewrite list_lookup_insert_ne.
Qed.

Lemma wake_first_woken l : (exists i, l !! i = Some Slept) -> exists j, wake_first l !! j = Some Woken /\ l !! j = Some Slept.
Proof.
  intros [i Hi]. unfold wake_first. destruct (list_find _ l) as [[k d]|] eqn:Hf.
  - apply list_find_Some in Hf as (Hk & -> & _). exists k. split; [|done].
    apply list_lookup_insert_eq. by eapply lookup_lt_Some.
  - apply list_find_None in Hf. rewrite Forall_lookup in Hf. by destruct (Hf _ _ Hi).
Qed.

Lemma uni_inv_set i s c c' v :
  uni_inv s -> none_but locks_any i (pcs s) -> pcs s !! i = Some c ->
  (going_to_sleep c' = true -> v <= 0) ->
  (0 < v -> alert c' = true \/ (c' <> Slept /\ alert c = false /\ 0 < sval s)) ->
  uni_inv (mksemsys v (<[i := c']> (pcs s))).
Proof.
  intros [_ _ Hal] Hnone Hi Hsl Hal'.
  assert (forall j d, <[i := c']> (pcs s) !! j = Some d -> (j = i /\ d = c') \/ (j <> i /\ pcs s !! j = Some d)) as Hcase.
  { intros j d [(-> & <- & _)|[Hne Hj]]%list_lookup_insert_Some; [by left|by right]. }
  assert (<[i := c']> (pcs s) !! i = Some c') as Hself.
  { apply list_lookup_insert_eq. by eapply lookup_lt_Some. }
  split; cbn.
  - intros j k d e [[-> ->]|[Hj Hjd]]%Hcase [[-> ->]|[Hk Hke]]%Hcase Hd He; try done.
    + by rewrite (Hnone _ _ Hk Hke) in He.
    + by rewrite (Hnone _ _ Hj Hjd) in Hd.
    + by rewrite (Hnone _ _ Hj Hjd) in Hd.
  - intros j d [[-> ->]|[Hj Hjd]]%Hcase Hd; [by apply Hsl|]. specialize (Hnone _ _ Hj Hjd). by destruct d.
  - intros Hv [j Hj]. destruct (Hal' Hv) as [Ha|(Hns & Hna & Hv0)]; [by exists i, c'|].
    apply Hcase in Hj as [[-> Heq]|[Hj Hjs]]; [by symmetry in Heq|].
    destruct (Hal Hv0 (ex_intro _ j Hjs)) as (k & d & Hk & Hd). exists k, d. split; [|done].
    rewrite list_lookup_insert_ne; [done|]. intros ->. congruence.
Qed.

Lemma uni_inv_scan i s :
  uni_inv s -> none_but locks_any i (pcs s) -> pcs s !! i = Some PScan ->
  uni_inv (mksemsys (sval s) (<[i := PRel]> (wake_first (pcs s)))).
Proof.
  intros [_ _ Hal] Hnone Hi. pose proof (wake_first_self _ _ _ Hi ltac:(done)) as Hi'.
  assert (forall j d, <[i := PRel]> (wake_first (pcs s)) !! j = Some d ->
    (j = i /\ d = PRel) \/ (j <> i /\ d = Woken) \/ (j <> i /\ pcs s !! j = Some d)) as Hcase.
  { intros j d [(-> & <- & _)|[Hne Hj]]%list_lookup_insert_Some; [by left|].
    apply wake_first_lookup in Hj as [[? _]|[-> _]]; auto. }
  assert (forall j d, <[i := PRel]> (wake_first (pcs s)) !! j = Some d -> locks_any d = true -> j = i) as Hlk.
  { intros j d [[-> _]|[[_ ->]|[Hj Hjd]]]%Hcase Hd; [done..|]. by rewrite (Hnone _ _ Hj Hjd) in Hd. }
  split; cbn.
  - intros j k d e Hj Hk Hd He. by rewrite (Hlk _ _ Hj Hd), (Hlk _ _ Hk He).
  - intros j d [[-> ->]|[[_ ->]|[Hj Hjd]]]%Hcase Hd; [done..|]. specialize (Hnone _ _ Hj Hjd). by destruct d.
  - intros Hv [j [[_ ?]|[[_ ?]|[Hj Hjs]]]%Hcase]; [done..|].
    destruct (wake_first_woken (pcs s) (ex_intro _ j Hjs)) as (k & Hk & Hks). exists k, Woken. split; [|done].
    rewrite list_lookup_insert_ne; [done|]. intros ->. congruence.
Qed.

Lemma uni_inv_act i s s' :
  unit_inv s -> uni_inv s -> none_but locks_any i (pcs s) -> sem_act i s s' -> uni_inv s'.
Proof.
  intros [_ Hu] Hinv Hnone Ha. pose proof Hinv as [_ Hsl _].
  destruct Ha as [s Hi|s c Hi [-> | ->] _|s Hi Hv|s Hi|s Hi Hv|s Hi _|s Hi|s Hi|s Hi|s Hi _|s Hi|s Hi|s Hi]; cbn in *.
  13: by apply uni_inv_scan.
  all: eapply uni_inv_set; [done..| |]; cbn; try done; auto.
  all: try (pose proof (countb_range has_unit (pcs s)); lia).
  all: intros; assert (sval s <= 0) by (by eapply Hsl); first [done | lia].
Qed.

(** C29: On one CPU no wakeup is lost.  Whenever the semaphore is free and a
    process sleeps on it, some process is about to look at the value or to
    wake a sleeper; so when all calls have returned or sleep, nobody sleeps
    on a free semaphore. *)
Theorem xem_uni_no_lost_wakeup n s :
  rtc sem_step_uni (sem_start n) s -> 0 < sval s -> (exists i, pcs s !! i = Some Slept) ->
  exists j c, pcs s !! j = Some c /\ alert c = true.
Proof.
  intros Hr. assert (unit_inv s /\ uni_inv s) as [_ [_ _ Hal]]; [|done].
  assert (unit_inv (sem_start n) /\ uni_inv (sem_start n)) as H0.
  { assert (forall i c, replicate n Out !! i = Some c -> c = Out) as Hout by (by intros i c [-> _]%lookup_replicate).
    split; [by apply (unit_inv_reach n)|]. split; cbn.
    - by intros i j c d ->%Hout _.
    - by intros i c ->%Hout.
    - intros _ [i Hi%Hout]. done. }
  revert H0. induction Hr as [|s1 s2 s3 (i & Hnone & Ha) _ IH]; [done|]. intros [H1 H2]. apply IH.
  split; [by eapply unit_inv_act|by eapply uni_inv_act].
Qed.

Lemma xem_uni_no_lost_wakeup_witness :
  exists s, rtc sem_step_uni (sem_start 2) s /\ sval s = 1 /\
    exists j c, pcs s !! j = Some c /\ alert c = true.
Proof.
  assert (rtc sem_step_uni (sem_start 2) (mksemsys 1 [PScan; Slept])) as Hr.
  { assert (forall i c d v, holds_sem d = false -> locks_any d = false ->
      forall s', sem_act i (mksemsys v (if decide (i = 0%nat) then [c; d] else [d; c])) s' ->
      (i < 2)%nat -> sem_step_uni (mksemsys v (if decide (i = 0%nat) then [c; d] else [d; c])) s') as Hstep.
    { intros i c d v Hd1 Hd2 s' Ha Hi. exists i. split; [|done]. intros j x Hj.
      destruct i as [|[|i]]; [..|lia]; destruct j as [|[|j]]; cbn; try done; by intros [= <-]. }
    assert (forall c d, holds_sem d = false -> none_but holds_sem 0 [c; d] /\ none_but holds_sem 1 [d; c]) as Hn.
    { intros c d Hd. split; intros [|[|j]] x Hj; cbn; try done; by intros [= <-]. }
    assert (forall c d, holds_pt d = false -> none_but holds_pt 1 [d; c]) as Hp.
    { intros c d Hd [|[|j]] x Hj; cbn; try done; by intros [= <-]. }
    eapply rtc_l; [apply (Hstep 0%nat Out Out); [done..|by apply act_wait|lia]|].
    eapply rtc_l; [apply (Hstep 0%nat Acq Out); [done..|eapply act_acquire; [done|by left|by apply Hn]|lia]|].
    eapply rtc_l; [apply (Hstep 0%nat Test Out); [done..|by apply act_take|lia]|].
    eapply rtc_l; [apply (Hstep 0%nat Took Out); [done..|by apply act_return|lia]|].
    eapply rtc_l; [apply (Hstep 1%nat Out In); [done..|by apply act_wait|lia]|].
    eapply rtc_l; [apply (Hstep 1%nat Acq In); [done..|eapply act_acquire; [done|by left|by apply Hn]|lia]|].
    eapply rtc_l; [apply (Hstep 1%nat Test In); [done..|by apply act_sleep|lia]|].
    eapply rtc_l; [apply (Hstep 1%nat Pt In); [done..|apply act_ptable; [done|by apply Hp]|lia]|].
    eapply rtc_l; [apply (Hstep 1%nat Rel In); [done..|by apply act_release_lk|lia]|].
    eapply rtc_l; [apply (Hstep 1%nat Mark In); [done..|by apply act_mark|lia]|].
    eapply rtc_l; [apply (Hstep 0%nat In Slept); [done..|by apply act_post|lia]|].
    eapply rtc_l; [apply (Hstep 0%nat PAcq Slept); [done..|apply act_post_acquire; [done|by apply Hn]|lia]|].
    eapply rtc_l; [apply (Hstep 0%nat PAdd Slept); [done..|by apply act_add|lia]|]. apply rtc_refl. }
  exists (mksemsys 1 [PScan; Slept]). split; [done|]. split; [done|].
  apply (xem_uni_no_lost_wakeup 2); [exact Hr|done|by exists 1%nat].
Defined.
