(* ===== verification/Rwlock.v ===== *)
(** * Exclusion of read-write locks ([rwlock.c])

    Readers and writers on one [rwlock_t], interleaved at each semaphore
    operation.  A [xem_wait] is enabled when the value is positive and takes
    a unit, a [xem_post] gives one back, as [Semaphore] shows of them. *)
From Stdlib Require Import ZArith Lia.
From stdpp Require Import base list gmap strings relations.
From S2P Require Import Prelude.
#[local] Open Scope Z_scope.

(** Where a process is.  [RGot] to [RPost]: in [rwlock_acquire_readlock],
    before [readers++], before [xem_wait(&writelock)] and before
    [xem_post(&lock)]; [QGot] to [QPost]: the same in
    [rwlock_release_readlock]. *)
Inductive rpc := RIdle | RGot | RWait | RPost | Reading | QGot | QRel | QPost | Writing.
#[export] Instance rpc_eq_dec : EqDecision rpc.
Proof. solve_decision. Defined.

Record rwsys := mkrw { rwl : Z; rww : Z; nreaders : Z; rpcs : list rpc }.

Inductive rw_act (i : nat) : rwsys -> rwsys -> Prop :=
| rw_read_wait l w n ps : ps !! i = Some RIdle -> 0 < l ->
    rw_act i (mkrw l w n ps) (mkrw (l - 1) w n (<[i := RGot]> ps))
| rw_read_inc l w n ps : ps !! i = Some RGot ->
    rw_act i (mkrw l w n ps) (mkrw l w (n + 1) (<[i := if n + 1 =? 1 then RWait else RPost]> ps))
| rw_read_first l w n ps : ps !! i = Some RWait -> 0 < w ->
    rw_act i (mkrw l w n ps) (mkrw l (w - 1) n (<[i := RPost]> ps))
| rw_read_post l w n ps : ps !! i = Some RPost ->
    rw_act i (mkrw l w n ps) (mkrw (l + 1) w n (<[i := Reading]> ps))
| rw_end_wait l w n ps : ps !! i = Some Reading -> 0 < l ->
    rw_act i (mkrw l w n ps) (mkrw (l - 1) w n (<[i := QGot]> ps))
| rw_end_dec l w n ps : ps !! i = Some QGot ->
    rw_act i (mkrw l w n ps) (mkrw l w (n - 1) (<[i := if n - 1 =? 0 then QRel else QPost]> ps))
| rw_end_last l w n ps : ps !! i = Some QRel ->
    rw_act i (mkrw l w n ps) (mkrw l (w + 1) n (<[i := QPost]> ps))
| rw_end_post l w n ps : ps !! i = Some QPost ->
    rw_act i (mkrw l w n ps) (mkrw (l + 1) w n (<[i := RIdle]> ps))
| rw_write_wait l w n ps : ps !! i = Some RIdle -> 0 < w ->
    rw_act i (mkrw l w n ps) (mkrw l (w - 1) n (<[i := Writing]> ps))
| rw_write_post l w n ps : ps !! i = Some Writing ->
    rw_act i (mkrw l w n ps) (mkrw l (w + 1) n (<[i := RIdle]> ps)).

Definition rw_step (s s' : rwsys) : Prop := exists i, rw_act i s s'.
(** [rwlock_init] *)
Definition rw_start (n : nat) : rwsys := mkrw 1 1 0 (replicate n RIdle).

(** ** The invariant *)

Definition at_pc (c : rpc) (l : list rpc) : Z := countb (fun d => bool_decide (d = c)) l.

Lemma at_pc_insert l i d c e :
  l !! i = Some d -> at_pc c (<[i := e]> l) = at_pc c l - bz (bool_decide (d = c)) + bz (bool_decide (e = c)).
Proof. apply (countb_insert (fun d => bool_decide (d = c))). Qed.

Lemma at_pc_pos c l : 0 < at_pc c l <-> exists i, l !! i = Some c.
Proof.
  unfold at_pc. rewrite countb_pos. split.
  - intros (i & d & Hi & ->%bool_decide_eq_true). by exists i.
  - intros [i Hi]. exists i, c. split; [done|]. by apply bool_decide_eq_true.
Qed.

(** Who holds [lock], who is counted in [readers], and who stands behind the
    readers' unit of [writelock]. *)
Definition lockers (l : list rpc) : Z :=
  at_pc RGot l + at_pc RWait l + at_pc RPost l + at_pc QGot l + at_pc QRel l + at_pc QPost l.
Definition counted (l : list rpc) : Z := at_pc RWait l + at_pc RPost l + at_pc Reading l + at_pc QGot l.
Definition behind (l : list rpc) : Z := at_pc RPost l + at_pc Reading l + at_pc QGot l + at_pc QRel l.

Record rw_inv (s : rwsys) : Prop := {
  ri_lock : 0 <= rwl s /\ rwl s + lockers (rpcs s) = 1;
  ri_readers : nreaders s = counted (rpcs s);
  ri_write : 0 <= rww s /\ rww s + at_pc Writing (rpcs s) + (if 0 <? behind (rpcs s) then 1 else 0) = 1;
  ri_first : 0 < at_pc RWait (rpcs s) -> nreaders s = 1;
  ri_last : 0 < at_pc QRel (rpcs s) -> nreaders s = 0
}.

Lemma at_pc_range c l : 0 <= at_pc c l.
Proof. apply countb_range. Qed.

(** The effect of moving process [i] to [e] on every counter. *)
Ltac counts ps Hi :=
  rewrite !(at_pc_insert _ _ _ _ _ Hi);
  pose proof (at_pc_range RGot ps); pose proof (at_pc_range RWait ps); pose proof (at_pc_range RPost ps);
  pose proof (at_pc_range Reading ps); pose proof (at_pc_range QGot ps); pose proof (at_pc_range QRel ps);
  pose proof (at_pc_range QPost ps); pose proof (at_pc_range Writing ps);
  match type of Hi with _ = Some ?c => assert (0 < at_pc c ps) by (apply at_pc_pos; eexists; exact Hi) end.

Lemma rw_inv_act i s s' : rw_inv s -> rw_act i s s' -> rw_inv s'.
Proof.
  intros [[Hl0 Hl] Hr [Hw0 Hw] H1 H2] Ha.
  destruct Ha as [l w n ps Hi Hp|l w n ps Hi|l w n ps Hi Hp|l w n ps Hi|l w n ps Hi Hp|l w n ps Hi|l w n ps Hi|l w n ps Hi
    |l w n ps Hi Hp|l w n ps Hi]; cbn [rwl rww nreaders rpcs] in *; unfold lockers, counted, behind in *;
    repeat match goal with |- context [if ?b then _ else _] => destruct b eqn:? end;
    (split; cbn [rwl rww nreaders rpcs]; unfold lockers, counted, behind; counts ps Hi;
     repeat match goal with |- context [bool_decide ?P] =>
       first [rewrite (bool_decide_true P) by done | rewrite (bool_decide_false P) by done] end; cbn [bz]).
  all: repeat match goal with H : context [if 0 <? ?x then _ else _] |- _ => destruct (Z.ltb_spec 0 x)
         | |- context [if 0 <? ?x then _ else _] => destruct (Z.ltb_spec 0 x) end; lia.
Qed.

Lemma rw_inv_reach n s : rtc rw_step (rw_start n) s -> rw_inv s.
Proof.
  assert (rw_inv (rw_start n)) as H0.
  { assert (forall c, c <> RIdle -> at_pc c (replicate n RIdle) = 0) as Hz.
    { intros c Hc. apply countb_zero. intros d [-> _]%elem_of_replicate. by apply bool_decide_eq_false. }
    split; cbn [rw_start rwl rww nreaders rpcs]; unfold lockers, counted, behind; rewrite !Hz by done; done. }
  intros Hr. revert H0. induction Hr as [|s1 s2 s3 [i Ha] _ IH]; [done|]. intros H1. by eapply IH, rw_inv_act.
Qed.

(** C28: A read-write lock excludes.  From [rwlock_init] on, however many
    processes take and release it for reading and for writing, no two
    processes hold it for writing at a time, and none for reading while one
    holds it for writing. *)
Theorem rwlock_exclusion n s i :
  rtc rw_step (rw_start n) s -> rpcs s !! i = Some Writing ->
  forall j c, rpcs s !! j = Some c -> j <> i -> c <> Writing /\ c <> Reading.
Proof.
  intros [_ _ [Hw0 Hw] _ _]%rw_inv_reach Hi j c Hj Hne. split; intros ->.
  - assert (0 < at_pc Writing (<[i := RIdle]> (rpcs s))) as Hp.
    { apply at_pc_pos. exists j. by rewrite list_lookup_insert_ne. }
    rewrite (at_pc_insert _ _ _ _ _ Hi), bool_decide_true, bool_decide_false in Hp by done. cbn [bz] in Hp.
    destruct (0 <? _); lia.
  - assert (0 < at_pc Reading (rpcs s)) by (apply at_pc_pos; by exists j).
    assert (0 < at_pc Writing (rpcs s)) by (apply at_pc_pos; by exists i). unfold behind in Hw.
    pose proof (at_pc_range RPost (rpcs s)). pose proof (at_pc_range QGot (rpcs s)).
    pose proof (at_pc_range QRel (rpcs s)). destruct (Z.ltb_spec 0 (at_pc RPost (rpcs s) + at_pc Reading (rpcs s) + at_pc QGot (rpcs s) + at_pc QRel (rpcs s))); lia.
Qed.

(** Two readers, then a writer while the next reader waits. *)
Lemma rwlock_exclusion_witness :
  exists s, rtc rw_step (rw_start 3) s /\ rpcs s !! 2%nat = Some Writing /\
    forall j c, rpcs s !! j = Some c -> j <> 2%nat -> c <> Writing /\ c <> Reading.
Proof.
  assert (rtc rw_step (rw_start 3) (mkrw 0 0 1 [RIdle; RWait; Writing])) as Hr.
  { eapply rtc_l; [exists 0%nat; by apply rw_read_wait|]. eapply rtc_l; [exists 0%nat; by apply rw_read_inc|].
    eapply rtc_l; [exists 0%nat; by apply rw_read_first|]. eapply rtc_l; [exists 0%nat; by apply rw_read_post|].
    eapply rtc_l; [exists 1%nat; by apply rw_read_wait|]. eapply rtc_l; [exists 1%nat; by apply rw_read_inc|].
    eapply rtc_l; [exists 1%nat; by apply rw_read_post|].
    eapply rtc_l; [exists 0%nat; by apply rw_end_wait|]. eapply rtc_l; [exists 0%nat; by apply rw_end_dec|].
    eapply rtc_l; [exists 0%nat; by apply rw_end_post|].
    eapply rtc_l; [exists 1%nat; by apply rw_end_wait|]. eapply rtc_l; [exists 1%nat; by apply rw_end_dec|].
    eapply rtc_l; [exists 1%nat; by apply rw_end_last|]. eapply rtc_l; [exists 1%nat; by apply rw_end_post|].
    eapply rtc_l; [exists 2%nat; by apply rw_write_wait|].
    eapply rtc_l; [exists 1%nat; by apply rw_read_wait|]. eapply rtc_l; [exists 1%nat; by apply rw_read_inc|].
    apply rtc_refl. }
  exists (mkrw 0 0 1 [RIdle; RWait; Writing]). split; [done|]. split; [done|].
  by apply (rwlock_exclusion 3 _ 2%nat).
Defined.
