(* ===== verification/Kalloc.v ===== *)
(** * The page allocator ([kalloc.c])

    Physical memory is a map from the kernel address of a page to its 4096
    bytes; a free page holds in its first word the address of the next one.
    [Layout] is what the linker script decides: where the kernel's writable
    data start and where its image ends. *)
From Stdlib Require Import ZArith Lia.
From stdpp Require Import base list gmap strings.
From S2P Require Import Prelude Params Mmu Bytes Spinlock Proc Sched SchedInv Kern Sleeplock FsData Demo.
#[local] Open Scope Z_scope.
#[local] Open Scope kernel_scope.

Class Layout := {
  kdata : Z;
  kend : Z;
  kdata_range : KERNLINK < kdata /\ kdata < kend /\ kdata mod PGSIZE = 0;
  kend_range : KERNBASE < kend <= KERNBASE + PHYSTOP
}.

Record kmem := mkkmem { use_lock : Z; freelist : Z; pages : gmap Z (list Z) }.
#[export] Instance eta_kmem : Eta kmem := fun k => mkkmem (use_lock k) (freelist k) (pages k).

Definition kmem_lock : Z := 0x80200040.

Section ops.
Context `{Layout} {S : Type} `{KernOps S kmem}.

(** [if(kmem.use_lock) acquire(&kmem.lock)] *)
Definition kmem_acquire : M S unit :=
  k <~ k_get; if use_lock k =? 0 then ret tt else k_acquire kmem_lock.
Definition kmem_release : M S unit :=
  k <~ k_get; if use_lock k =? 0 then ret tt else k_release kmem_lock.

(** A page that must exist. *)
Definition page_at (a : Z) : M S (list Z) :=
  k <~ k_get; of_option (Undef "page") (pages k !! a).
Definition set_page (a : Z) (d : list Z) : M S unit := k_mod (fun k => k <| pages ::= <[a := d]> |>).

Definition kfree (v : Z) : M S unit :=
  if negb (v mod PGSIZE =? 0) || (v <? kend) || (PHYSTOP <=? V2P v) then panic "kfree"
  else
    set_page v (replicate (Z.to_nat PGSIZE) 1) ;;;
    kmem_acquire ;;;
    k <~ k_get;
    d <~ page_at v;
    set_page v (set_word d 0 (freelist k)) ;;;
    k_mod (fun k => k <| freelist := v |>) ;;;
    kmem_release.

Definition kalloc : M S Z :=
  kmem_acquire ;;;
  k <~ k_get;
  let r := freelist k in
  (if r =? 0 then ret tt
   else d <~ page_at r; k_mod (fun k => k <| freelist := word_at d 0 |>)) ;;;
  kmem_release ;;;
  ret r.

(** [for(; p + PGSIZE <= vend; p += PGSIZE)] *)
Definition freerange (vstart vend : Z) : M S unit :=
  let p := PGROUNDUP vstart in
  for_each (seq 0 (Z.to_nat ((vend - p) / PGSIZE))) (fun k => kfree (p + PGSIZE * Z.of_nat k)).

Definition kinit1 (vstart vend : Z) : M S unit :=
  k_initlock kmem_lock "kmem" ;;;
  k_mod (fun k => k <| use_lock := 0 |>) ;;;
  freerange vstart vend.

Definition kinit2 (vstart vend : Z) : M S unit :=
  freerange vstart vend ;;;
  k_mod (fun k => k <| use_lock := 1 |>).
End ops.

(** ** The free list *)

Section free.
Context `{Layout}.

(** An address [kfree] accepts. *)
Definition page_ok (v : Z) : Prop := v mod PGSIZE = 0 /\ kend <= v < KERNBASE + PHYSTOP.

Fixpoint chain (pgs : gmap Z (list Z)) (h : Z) (l : list Z) : Prop :=
  match l with
  | [] => h = 0
  | a :: l => h = a /\ exists d, pgs !! a = Some d /\ chain pgs (word_at d 0) l
  end.

(** The free pages are [l]. *)
Record free_ok (k : kmem) (l : list Z) : Prop := {
  fo_chain : chain (pages k) (freelist k) l;
  fo_nodup : NoDup l;
  fo_page : forall v, v ∈ l -> page_ok v
}.

Lemma chain_frame pgs pgs' h l :
  (forall a, a ∈ l -> pgs' !! a = pgs !! a) -> chain pgs h l -> chain pgs' h l.
Proof.
  revert h. induction l as [|a l IH]; intros h Heq; cbn; [done|].
  intros (-> & d & Hd & Hc). split; [done|]. exists d. split; [rewrite Heq; [done|set_solver]|].
  apply IH; [|done]. intros b Hb. apply Heq. set_solver.
Qed.

Lemma page_ok_range v : page_ok v -> KERNBASE < v < 2 ^ 32 - PGSIZE.
Proof.
  intros [_ Hv]. pose proof kend_range. unfold KERNBASE, PHYSTOP, PGSIZE in *. lia.
Qed.

Lemma page_ok_check v :
  page_ok v -> negb (v mod PGSIZE =? 0) || (v <? kend) || (PHYSTOP <=? V2P v) = false.
Proof.
  intros [Hm Hv]. pose proof kend_range. rewrite Hm. cbn [Z.eqb negb orb]. unfold V2P.
  rewrite u32_small by (unfold KERNBASE, PHYSTOP in *; lia). unfold KERNBASE, PHYSTOP in *. lia.
Qed.

(** A page taken from the list, and one put on it. *)
Lemma free_ok_pop k a l :
  free_ok k (a :: l) -> exists d, pages k !! a = Some d /\ free_ok (k <| freelist := word_at d 0 |>) l.
Proof.
  intros [(_ & d & Hd & Hc) [Ha Hnd]%NoDup_cons Hp]. exists d. split; [done|]. split; [done|done|].
  intros v Hv. apply Hp. set_solver.
Qed.

Lemma free_ok_push k v l d d' :
  free_ok k l -> page_ok v -> v ∉ l -> length d = Z.to_nat PGSIZE -> d' = set_word d 0 (freelist k) ->
  free_ok (k <| pages ::= <[v := d']> |> <| freelist := v |>) (v :: l).
Proof.
  intros [Hc Hnd Hp] Hv Hn Hd ->. assert (0 <= freelist k < 2 ^ 32) as Hf.
  { destruct l as [|a l]; cbn in Hc; [lia|]. destruct Hc as [-> _].
    destruct (page_ok_range a); [apply Hp; set_solver|unfold PGSIZE, KERNBASE in *; lia]. }
  split.
  - split; [done|]. exists (set_word d 0 (freelist k)). split; [apply lookup_insert_eq|].
    rewrite word_at_set_eq by (rewrite ?Hd; unfold PGSIZE; lia).
    eapply chain_frame; [|done]. intros a Ha. cbn. rewrite lookup_insert_ne; [done|]. set_solver.
  - by constructor.
  - intros a [->|Ha]%elem_of_cons; [done|]. by apply Hp.
Qed.
End free.

Section rules.
Context `{Layout} {S : Type} `{KernLaws S kmem}.
Implicit Types (s : S) (k : kmem) (X : stop -> Prop).

(** The locks held inside. *)
Definition kheld k (L : list Z) : list Z := if use_lock k =? 0 then L else kmem_lock :: L.

Lemma wp_kmem_acquire s L k X (Q : unit -> S -> Prop) :
  at_ s L k -> kmem_lock ∉ L -> (forall s', at_ s' (kheld k L) k -> Q tt s') -> wp kmem_acquire X Q s.
Proof.
  intros Hat HL HQ. unfold kmem_acquire, kheld in *. mstep. mstep. destruct (use_lock k =? 0).
  - mstep. by apply HQ.
  - by eapply wp_acq.
Qed.

Lemma wp_kmem_release s L k X (Q : unit -> S -> Prop) :
  at_ s (kheld k L) k -> (forall s', at_ s' L k -> Q tt s') -> wp kmem_release X Q s.
Proof.
  intros Hat HQ. unfold kmem_release, kheld in *. mstep. eapply wp_k_get; [done|]. destruct (use_lock k =? 0).
  - mstep. by apply HQ.
  - by eapply (wp_rel _ []).
Qed.

Lemma wp_page_at s L k a d X (Q : list Z -> S -> Prop) :
  at_ s L k -> pages k !! a = Some d -> Q d s -> wp (page_at a) X Q s.
Proof. intros Hat Hd HQ. unfold page_at. mstep. mstep. by eapply wp_some. Qed.

(** [kalloc] takes the first free page, or returns 0 when there is none. *)
Lemma wp_kalloc s L k l X (Q : Z -> S -> Prop) :
  at_ s L k -> kmem_lock ∉ L -> free_ok k l ->
  match l with
  | [] => forall s', at_ s' L k -> Q 0 s'
  | a :: l' => forall s' k', at_ s' L k' -> free_ok k' l' -> pages k' = pages k -> use_lock k' = use_lock k -> Q a s'
  end -> wp kalloc X Q s.
Proof.
  intros Hat HL Hf HQ. unfold kalloc. mstep. eapply wp_kmem_acquire; [done..|]. intros s1 Hat1.
  mstep. eapply wp_k_get; [done|]. destruct l as [|a l].
  - pose proof (fo_chain _ _ Hf) as Hfl. cbn in Hfl. rewrite Hfl. cbn [Z.eqb]. mstep. mstep. mstep.
    eapply wp_kmem_release; [done|]. intros s2 Hat2. mstep. by apply HQ.
  - destruct (free_ok_pop _ _ _ Hf) as (d & Hd & Hf').
    pose proof (fo_chain _ _ Hf) as [Hfl _]. rewrite Hfl.
    destruct (page_ok_range a) as [Ha _]; [apply (fo_page _ _ Hf); set_solver|].
    destruct (Z.eqb_spec a 0); [unfold KERNBASE in Ha; lia|]. mstep. mstep.
    eapply wp_page_at; [done..|]. mstep. mstep. eapply (wp_kmem_release _ L (k <| freelist := word_at d 0 |>)); [exact Hat0|].
    intros s3 Hat3. mstep. eapply HQ; done.
Qed.

(** [kfree] puts a page in front; its contents are lost. *)
Lemma wp_kfree s L k l v X (Q : unit -> S -> Prop) :
  at_ s L k -> kmem_lock ∉ L -> free_ok k l -> page_ok v -> v ∉ l ->
  (forall s' k', at_ s' L k' -> free_ok k' (v :: l) -> (forall a, a <> v -> pages k' !! a = pages k !! a) ->
     use_lock k' = use_lock k -> Q tt s') ->
  wp (kfree v) X Q s.
Proof.
  intros Hat HL Hf Hv Hn HQ. unfold kfree. rewrite page_ok_check by done. unfold set_page at 1.
  mstep. mstep. mstep. set (k1 := k <| pages ::= _ |>) in Hat0.
  set (d := replicate (Z.to_nat PGSIZE) 1) in *.
  eapply wp_kmem_acquire; [done..|]. intros s1 Hat1. mstep. eapply wp_k_get; [done|]. mstep.
  eapply wp_page_at; [done|apply lookup_insert_eq|]. unfold set_page. mstep. mstep. mstep. mstep.
  set (d' := set_word d 0 _) in *. set (k2 := setter freelist _ _) in Hat3.
  eapply (wp_kmem_release _ L k2); [exact Hat3|]. intros s4 Hat4.
  assert (k2 = k <| pages ::= <[v := d']> |> <| freelist := v |>) as Hk2.
  { unfold k2, k1, setter. cbn. by rewrite insert_insert_eq. }
  rewrite Hk2 in Hat4. eapply HQ; [exact Hat4| | |done].
  - by apply (free_ok_push k v l d).
  - intros a Ha. cbn. by rewrite lookup_insert_ne.
Qed.
(** The pages of a range, the last one first: the order in which
    [freerange] leaves them on the list. *)
Definition page_range (p : Z) (n : nat) : list Z := rev ((fun j : nat => p + PGSIZE * Z.of_nat j) <$> seq 0 n).

Lemma page_range_S p n : page_range p (Datatypes.S n) = (p + PGSIZE * Z.of_nat n) :: page_range p n.
Proof. unfold page_range. by rewrite seq_S, fmap_app, rev_app_distr. Qed.

Lemma elem_of_page_range v p n : v ∈ page_range p n <-> exists j, (j < n)%nat /\ v = p + PGSIZE * Z.of_nat j.
Proof.
  unfold page_range. rewrite list_elem_of_In, <- in_rev, <- list_elem_of_In, list_elem_of_fmap. split.
  - intros (j & -> & Hj%elem_of_seq). exists j. split; [lia|done].
  - intros (j & Hj & ->). exists j. split; [done|]. apply elem_of_seq. lia.
Qed.

Lemma wp_freerange s L k l vstart vend X (Q : unit -> S -> Prop) :
  let p := PGROUNDUP vstart in let n := Z.to_nat ((vend - p) / PGSIZE) in
  at_ s L k -> kmem_lock ∉ L -> free_ok k l -> (forall v, v ∈ page_range p n -> page_ok v /\ (v ∉ l)) ->
  (forall s' k', at_ s' L k' -> free_ok k' (page_range p n ++ l) -> use_lock k' = use_lock k ->
     (forall a, a ∉ page_range p n -> pages k' !! a = pages k !! a) -> Q tt s') ->
  wp (freerange vstart vend) X Q s.
Proof.
  intros p n Hat HL Hf Hpg HQ. unfold freerange. fold p n.
  apply wp_for_seq with (I := fun j s' => exists k', at_ s' L k' /\ free_ok k' (page_range p j ++ l) /\ use_lock k' = use_lock k /\
    forall a, a ∉ page_range p n -> pages k' !! a = pages k !! a).
  - by exists k.
  - intros j s' Hj (k' & Hat' & Hf' & Hu' & Hp').
    assert (p + PGSIZE * Z.of_nat j ∈ page_range p n) as Hin by (apply elem_of_page_range; eauto).
    eapply wp_kfree; [done..|by apply Hpg| |].
    + rewrite not_elem_of_app. split; [|by apply Hpg]. intros (i & Hi & He)%elem_of_page_range. unfold PGSIZE in He. lia.
    + intros s2 k2 Hat2 Hf2 Hp2 Hu2. exists k2. rewrite page_range_S. split; [done|]. split; [done|]. split; [congruence|].
      intros a Ha. rewrite Hp2; [by apply Hp'|]. by intros ->.
  - intros s' (k' & Hat' & Hf' & Hu' & Hp'). by eapply HQ.
Qed.
End rules.

(** ** Clients of the allocator

    A client takes pages and gives back pages that it owns. *)
Section clients.
Context `{Layout} {S : Type} `{KernLaws S kmem}.
Implicit Types (s : S) (own l : list Z).

Inductive mem_step : S * list Z -> S * list Z -> Prop :=
| step_alloc s own a s' : kalloc s = Ok (a, s') -> a <> 0 -> mem_step (s, own) (s', a :: own)
| step_none s own s' : kalloc s = Ok (0, s') -> mem_step (s, own) (s', own)
| step_free s own1 v own2 s' :
    kfree v s = Ok (tt, s') -> mem_step (s, own1 ++ v :: own2) (s', own1 ++ own2).

(** The pages of [l0] are owned or free, none both or twice. *)
Definition shares (l0 : list Z) (c : S * list Z) : Prop :=
  exists k l, at_ c.1 [] k /\ free_ok k l /\ c.2 ++ l ≡ₚ l0.

Lemma wp_ok_inv {A} (m : M S A) X (Q : A -> S -> Prop) s a s' : wp m X Q s -> m s = Ok (a, s') -> Q a s'.
Proof. unfold wp. intros Hw Heq. by rewrite Heq in Hw. Qed.

Lemma mem_step_shares l0 c c' : NoDup l0 -> (forall v, v ∈ l0 -> page_ok v) -> shares l0 c -> mem_step c c' -> shares l0 c'.
Proof.
  intros Hnd Hpg (k & l & Hat & Hf & Hp) Hstep.
  destruct Hstep as [s own a s' Hk Ha|s own s' Hk|s own1 v own2 s' Hk]; cbn in *.
  - eapply wp_ok_inv with (X := never) (Q := fun a s' => a <> 0 -> shares l0 (s', a :: own)) in Hk; [by apply Hk|].
    eapply wp_kalloc; [done|set_solver|done|]. destruct l as [|b l]; [done|].
    intros s1 k1 Hat1 Hf1 _ _ _. exists k1, l. do 2 (split; [done|]). cbn. rewrite <- Hp. solve_Permutation.
  - eapply wp_ok_inv with (X := never) (Q := fun a s' => a = 0 -> shares l0 (s', own)) in Hk; [by apply Hk|].
    eapply wp_kalloc; [done|set_solver|done|]. destruct l as [|b l].
    + intros s1 Hat1 _. by exists k, [].
    + intros s1 k1 _ _ _ _ ->. exfalso. destruct (page_ok_range 0); [|unfold KERNBASE in *; lia].
      apply (fo_page _ _ Hf). set_solver.
  - eapply wp_ok_inv with (X := never) (Q := fun _ s' => shares l0 (s', own1 ++ own2)) in Hk; [by apply Hk|].
    rewrite <- Hp in Hnd. assert (page_ok v) as Hv by (apply Hpg; rewrite <- Hp; set_solver).
    eapply wp_kfree; [done|set_solver|done|done| |].
    + rewrite <- app_assoc in Hnd. apply NoDup_app in Hnd as (_ & _ & [Hnd _]%NoDup_cons). set_solver.
    + intros s1 k1 Hat1 Hf1 _ _. exists k1, (v :: l). do 2 (split; [done|]). cbn. rewrite <- Hp. solve_Permutation.
Qed.

(** C12: Pages are not shared.  Whatever sequence of [kalloc] and of [kfree]
    of owned pages a client makes, the pages it owns and the pages on the
    free list together are those that were free at the beginning, so no page
    is owned twice or owned and free; the next [kalloc] returns and hands out
    a page that is not owned, or 0 exactly when none is left; and [kfree] of
    an owned page returns. *)
Theorem kalloc_no_sharing s0 k0 l0 s own :
  at_ s0 [] k0 -> free_ok k0 l0 -> rtc mem_step (s0, []) (s, own) ->
  NoDup own /\ exists l, own ++ l ≡ₚ l0 /\
    wp kalloc never (fun a _ => (a = 0 /\ l = []) \/ (a ∈ l /\ a ∉ own)) s /\
    forall v, v ∈ own -> wp (kfree v) never (fun _ _ => True) s.
Proof.
  intros Hat Hf Hr. pose proof (fo_nodup _ _ Hf) as Hnd.
  assert (shares l0 (s, own)) as (k & l & Hat' & Hf' & Hp).
  { assert (shares l0 (s0, [])) as H0' by by exists k0, l0.
    clear Hat. revert H0'. induction Hr as [|c1 c2 c3 Hstep _ IH]; [done|]. intros Hs. apply IH.
    eapply mem_step_shares; [done| |done|done]. apply (fo_page _ _ Hf). }
  cbn in *. rewrite <- Hp in Hnd. apply NoDup_app in Hnd as (Hown & Hdis & Hl).
  split; [done|]. exists l. split; [done|]. split.
  - eapply wp_kalloc; [done|set_solver|done|]. destruct l as [|a l]; [by left|].
    intros s' k' _ _ _ _. right. split; [set_solver|]. intros Ha. apply (Hdis _ Ha). set_solver.
  - intros v Hv. eapply wp_kfree; [done|set_solver|done| |by apply Hdis|done].
    apply (fo_page _ _ Hf). rewrite <- Hp. set_solver.
Qed.
End clients.

(** *** Two free pages, one of them taken *)

#[export] Instance small_layout : Layout.
Proof. by exists 0x80108000 0x80120000. Defined.

Definition page_a : Z := 0x80200000.
Definition page_b : Z := 0x80201000.
Definition two_pages : kmem :=
  mkkmem 1 page_a {[ page_a := put_words [0; 0; 0; 0] 0 [page_b]; page_b := [0; 0; 0; 0] ]}.
Definition one_taken : kstate kmem :=
  match kalloc (small two_pages) with Ok (_, s) => s | Stop _ => small two_pages end.

Lemma kalloc_no_sharing_witness :
  NoDup [page_a] /\ exists l, [page_a] ++ l ≡ₚ [page_a; page_b] /\
    wp kalloc never (fun a _ => (a = 0 /\ l = []) \/ (a ∈ l /\ a ∉ [page_a])) one_taken /\
    forall v, v ∈ [page_a] -> wp (kfree v) never (fun _ _ => True) one_taken.
Proof.
  apply (kalloc_no_sharing (small two_pages) two_pages [page_a; page_b] one_taken [page_a]).
  - apply small_at.
  - split.
    + split; [done|]. eexists. split; [by vm_compute|]. split; [by vm_compute|].
      eexists. split; [by vm_compute|by vm_compute].
    + apply NoDup_cons. split; [|by apply NoDup_singleton]. unfold page_a, page_b. set_solver by lia.
    + intros v [->|[->|[]%not_elem_of_nil]%elem_of_cons]%elem_of_cons; unfold page_ok; by vm_compute.
  - apply rtc_once, (step_alloc (small two_pages) []); [by vm_compute|done].
Defined.
