(* ===== verification/Fs.v ===== *)
(** * The file system ([fs.c])

    Blocks, inodes, directories and path names.  An inode pointer is an index
    of [icache.inode]; [Some] and [None] stand for pointers that the code
    compares with 0.  [readi] yields the bytes that it copies to [dst],
    [writei] takes those it reads from [src]. *)
From Stdlib Require Import ZArith Lia.
From stdpp Require Import base list gmap strings.
From S2P Require Import Prelude Params Bytes Cstring Spinlock Proc Sched SchedInv Kern Sleeplock FsData Bio Log.
#[local] Open Scope Z_scope.
#[local] Open Scope kernel_scope.

(** [devsw] of [file.h]: the entries that are set, by major number. *)
Class DevSw (S : Type) := {
  dev_read : Z -> option (nat -> Z -> M S (Z * list Z));
  dev_write : Z -> option (nat -> list Z -> M S Z)
}.

(** ** Formats *)

(** [dip = (struct dinode* )bp->data + inum%IPB]: its offset in the block. *)
Definition dinode_off (inum : Z) : nat := Z.to_nat (DINODE_SIZE * (inum mod IPB)).

(** [ip->type = dip->type; ...] *)
Definition load_dinode (d : list Z) (o : nat) (ip : inode) : inode :=
  ip <| itype := i16 (get16 d o) |> <| imajor := i16 (get16 d (o + 2)) |>
     <| iminor := i16 (get16 d (o + 4)) |> <| inlink := i16 (get16 d (o + 6)) |>
     <| isize := get32 d (o + 8) |>
     <| iaddrs := map (fun k => get32 d (o + 12 + 4 * k)) (seq 0 13) |>.

(** [memmove(dip->addrs, ip->addrs, sizeof(ip->addrs))] *)
Fixpoint store_addrs (d : list Z) (o : nat) (l : list Z) : list Z :=
  match l with
  | [] => d
  | a :: l => store_addrs (put32 d o a) (o + 4) l
  end.

(** [dip->type = ip->type; ...] *)
Definition store_dinode (d : list Z) (o : nat) (ip : inode) : list Z :=
  store_addrs
    (put32 (put16 (put16 (put16 (put16 d o (itype ip)) (o + 2) (imajor ip)) (o + 4) (iminor ip))
       (o + 6) (inlink ip)) (o + 8) (isize ip))
    (o + 12) (iaddrs ip).

(** [struct dirent]: a 16-bit inode number and a name of [DIRSIZ] bytes. *)
Record dirent := mkdirent { de_inum : Z; de_name : list Z }.
Definition dirent_decode (d : list Z) : dirent := mkdirent (get16 d 0) (slice d 2 (Z.to_nat DIRSIZ)).
Definition dirent_encode (e : dirent) : list Z :=
  [de_inum e mod 256; (de_inum e / 256) mod 256] ++ de_name e.

(** The bit of [BPB] a block has in its bitmap block. *)
Definition bit_mask (bi : Z) : Z := Z.shiftl 1 (bi mod 8).
Definition bit_at (d : list Z) (bi : Z) : bool :=
  negb (Z.land (byte_at d (Z.to_nat (bi / 8))) (bit_mask bi) =? 0).
Definition bit_set (d : list Z) (bi : Z) : list Z :=
  <[Z.to_nat (bi / 8) := Z.lor (byte_at d (Z.to_nat (bi / 8))) (bit_mask bi)]> d.
Definition bit_clear (d : list Z) (bi : Z) : list Z :=
  <[Z.to_nat (bi / 8) := u8 (Z.land (byte_at d (Z.to_nat (bi / 8))) (Z.lnot (bit_mask bi)))]> d.

(** [struct stat] *)
Record stat := mkstat { st_type : Z; st_dev : Z; st_ino : Z; st_nlink : Z; st_size : Z }.

(** ** Path names *)

(** [skipelem]: the element (at most [DIRSIZ] bytes, with the terminating 0
    when it is shorter) and the rest of the path.  The path is a string with
    its terminating 0; the old contents of [name] stay behind a short
    element. *)
Fixpoint skip_slashes (p : list Z) : list Z :=
  match p with
  | c :: p' => if c =? 47 then skip_slashes p' else p
  | [] => []
  end.
Fixpoint take_elem (p : list Z) : list Z * list Z :=
  match p with
  | c :: p' => if (c =? 47) || (c =? 0) then ([], p) else let '(e, r) := take_elem p' in (c :: e, r)
  | [] => ([], [])
  end.
Definition skipelem (path name : list Z) : option (list Z * list Z) :=
  let path := skip_slashes path in
  match path with
  | [] => None
  | c :: _ =>
      if c =? 0 then None
      else
        let '(s, rest) := take_elem path in
        let name' :=
          if (Z.to_nat DIRSIZ <=? length s)%nat then splice name 0 (take (Z.to_nat DIRSIZ) s)
          else splice name 0 (s ++ [0]) in
        Some (skip_slashes rest, name')
  end.

Section ops.
Context {S : Type} `{KernOps S fsstate} `{DevSw S}.

Definition get_sb : M S superblock := t <~ k_get; ret (sb t).
Definition get_inode (i : nat) : M S inode := t <~ k_get; ret (inode_at t i).
Definition mod_inode (i : nat) (f : inode -> inode) : M S unit := k_mod (upd_inode i f).

(** ** Blocks *)

Definition bzero (dev bno : Z) : M S unit :=
  bp <~ bread dev bno;
  set_data bp (fun _ => replicate (Z.to_nat BSIZE) 0) ;;;
  log_write bp ;;;
  brelse bp.

(** The bits of one bitmap block, from block number [b] on. *)
Definition bits_of (b size : Z) : list nat := seq 0 (Z.to_nat (Z.min BPB (size - b))).
(** [for(b = 0; b < sb.size; b += BPB)] *)
Definition bitmap_starts (size : Z) : list nat := seq 0 (Z.to_nat ((size + BPB - 1) / BPB)).

Definition balloc (dev : Z) : M S Z :=
  sb0 <~ get_sb;
  r <~ for_until (bitmap_starts (sb_size sb0)) (fun k =>
    let b := BPB * Z.of_nat k in
    bp <~ bread dev (BBLOCK b sb0);
    r <~ for_until (bits_of b (sb_size sb0)) (fun bi =>
      let bi := Z.of_nat bi in
      d <~ buf_data bp;
      if negb (bit_at d bi) then
        set_data bp (fun d => bit_set d bi) ;;;
        log_write bp ;;;
        brelse bp ;;;
        bzero dev (b + bi) ;;;
        ret (Some (b + bi))
      else ret None);
    match r with
    | Some a => ret (Some a)
    | None => brelse bp ;;; ret None
    end);
  match r with
  | Some a => ret a
  | None => panic "balloc: out of blocks"
  end.

Definition bfree (dev b : Z) : M S unit :=
  sb0 <~ get_sb;
  bp <~ bread dev (BBLOCK b sb0);
  let bi := b mod BPB in
  d <~ buf_data bp;
  if negb (bit_at d bi) then panic "freeing free block"
  else
    set_data bp (fun d => bit_clear d bi) ;;;
    log_write bp ;;;
    brelse bp.

(** ** Inodes *)

Definition iinit (dev : Z) : M S unit :=
  k_initlock icache_lock "icache" ;;;
  for_each (seq 0 NINODE) (fun i => initsleeplock (ino_sl i)) ;;;
  s <~ readsb dev;
  k_mod (fun t => t <| sb := s |>).

Definition iget (dev inum0 : Z) : M S nat :=
  k_acquire icache_lock ;;;
  r <~ for_until (seq 0 NINODE) (fun i =>
    ip <~ get_inode i;
    if (0 <? iref ip) && (idev ip =? dev) && (inum ip =? inum0) then
      mod_inode i (fun ip => ip <| iref ::= fun n => n + 1 |>) ;;;
      k_release icache_lock ;;;
      ret (Some i)
    else ret None);
  match r with
  | Some i => ret i
  | None =>
      t <~ k_get;
      match list_find (fun i => iref (inode_at t i) = 0) (seq 0 NINODE) with
      | None => panic "iget: no inodes"
      | Some (_, i) =>
          mod_inode i (fun ip => ip <| idev := dev |> <| inum := inum0 |> <| iref := 1 |> <| ivalid := 0 |>) ;;;
          k_release icache_lock ;;;
          ret i
      end
  end.

Definition ialloc (dev type : Z) : M S nat :=
  sb0 <~ get_sb;
  r <~ for_until (seq 1 (Z.to_nat (sb_ninodes sb0 - 1))) (fun k =>
    let inum := Z.of_nat k in
    bp <~ bread dev (IBLOCK inum sb0);
    d <~ buf_data bp;
    if get16 d (dinode_off inum) =? 0 then
      set_data bp (fun d =>
        put16 (splice d (dinode_off inum) (replicate (Z.to_nat DINODE_SIZE) 0)) (dinode_off inum) type) ;;;
      log_write bp ;;;
      brelse bp ;;;
      ip <~ iget dev inum;
      ret (Some ip)
    else brelse bp ;;; ret None);
  match r with
  | Some ip => ret ip
  | None => panic "ialloc: no inodes"
  end.

Definition iupdate (ip : nat) : M S unit :=
  sb0 <~ get_sb;
  n <~ get_inode ip;
  bp <~ bread (idev n) (IBLOCK (inum n) sb0);
  n <~ get_inode ip;
  set_data bp (fun d => store_dinode d (dinode_off (inum n)) n) ;;;
  log_write bp ;;;
  brelse bp.

Definition idup (ip : nat) : M S nat :=
  k_acquire icache_lock ;;;
  mod_inode ip (fun n => n <| iref ::= fun r => r + 1 |>) ;;;
  k_release icache_lock ;;;
  ret ip.

Definition ilock (p : option nat) : M S unit :=
  match p with
  | None => panic "ilock"
  | Some ip =>
      n <~ get_inode ip;
      if iref n <? 1 then panic "ilock"
      else
        acquiresleep (ino_sl ip) ;;;
        n <~ get_inode ip;
        if ivalid n =? 0 then
          sb0 <~ get_sb;
          bp <~ bread (idev n) (IBLOCK (inum n) sb0);
          d <~ buf_data bp;
          mod_inode ip (load_dinode d (dinode_off (inum n))) ;;;
          brelse bp ;;;
          mod_inode ip (fun n => n <| ivalid := 1 |>) ;;;
          n <~ get_inode ip;
          if itype n =? 0 then panic "ilock: no type" else ret tt
        else ret tt
  end.

Definition iunlock (p : option nat) : M S unit :=
  match p with
  | None => panic "iunlock"
  | Some ip =>
      h <~ holdingsleep (ino_sl ip);
      n <~ get_inode ip;
      if negb h || (iref n <? 1) then panic "iunlock" else releasesleep (ino_sl ip)
  end.

(** ** Contents of inodes *)

(** [ip->addrs[i]] *)
Definition addr_at (ip : nat) (i : Z) : M S Z :=
  n <~ get_inode ip;
  of_option (Undef "addrs") (iaddrs n !! Z.to_nat i).
Definition set_addr (ip : nat) (i a : Z) : M S unit :=
  mod_inode ip (fun n => n <| iaddrs ::= <[Z.to_nat i := a]> |>).

(** [if((addr = ip->addrs[i]) == 0) ip->addrs[i] = addr = balloc(ip->dev);] *)
Definition load_addr (ip : nat) (i : Z) : M S Z :=
  addr <~ addr_at ip i;
  if addr =? 0 then
    n <~ get_inode ip;
    addr <~ balloc (idev n);
    set_addr ip i addr ;;;
    ret addr
  else ret addr.

(** [bp = bread(ip->dev, addr); a = (uint* )bp->data;
     if((addr = a[i]) == 0){ a[i] = addr = balloc(ip->dev); log_write(bp); }
     brelse(bp);] *)
Definition load_entry (ip : nat) (addr i : Z) : M S Z :=
  n <~ get_inode ip;
  bp <~ bread (idev n) addr;
  d <~ buf_data bp;
  addr <~ (if word_at d i =? 0 then
             addr <~ balloc (idev n);
             set_data bp (fun d => set_word d i addr) ;;;
             log_write bp ;;;
             ret addr
           else ret (word_at d i));
  brelse bp ;;;
  ret addr.

Definition bmap (ip : nat) (bn : Z) : M S Z :=
  if bn <? NDIRECT then load_addr ip bn
  else
    let bn := bn - NDIRECT in
    if bn <? NINDIRECT then
      addr <~ load_addr ip NDIRECT;
      load_entry ip addr bn
    else
      let bn := bn - NINDIRECT in
      if bn <? NDINDIRECT then
        addr <~ load_addr ip (NDIRECT + 1);
        addr <~ load_entry ip addr (bn / 128);
        load_entry ip addr (bn mod 128)
      else
        let bn := bn - NDINDIRECT in
        if bn <? NTINDIRECT then
          addr <~ load_addr ip (NDIRECT + 2);
          addr <~ load_entry ip addr (bn / (128 * 128));
          addr <~ load_entry ip addr ((bn mod (128 * 128)) / 128);
          load_entry ip addr ((bn mod (128 * 128)) mod 128)
        else panic "bmap: out of range".

(** Freeing a block of [depth] levels of indirection and all it leads to:
    the nested loops over [a], [a2] and [a3]. *)
Fixpoint free_tree (depth : nat) (dev addr : Z) : M S unit :=
  match depth with
  | O => bfree dev addr
  | Datatypes.S depth =>
      bp <~ bread dev addr;
      for_each (seq 0 128) (fun j =>
        d <~ buf_data bp;
        let a := word_at d (Z.of_nat j) in
        if a =? 0 then ret tt else free_tree depth dev a) ;;;
      brelse bp ;;;
      bfree dev addr
  end.

(** [if(ip->addrs[i]){ ...; ip->addrs[i] = 0; }] *)
Definition trunc_addr (ip : nat) (depth : nat) (i : Z) : M S unit :=
  n <~ get_inode ip;
  a <~ addr_at ip i;
  if a =? 0 then ret tt
  else free_tree depth (idev n) a ;;; set_addr ip i 0.

Definition itrunc (ip : nat) : M S unit :=
  for_each (seq 0 (Z.to_nat NDIRECT)) (fun i => trunc_addr ip 0 (Z.of_nat i)) ;;;
  trunc_addr ip 1 NDIRECT ;;;
  trunc_addr ip 2 (NDIRECT + 1) ;;;
  trunc_addr ip 3 (NDIRECT + 2) ;;;
  mod_inode ip (fun n => n <| isize := 0 |>) ;;;
  iupdate ip.

Definition iput (ip : nat) : M S unit :=
  acquiresleep (ino_sl ip) ;;;
  n <~ get_inode ip;
  (if negb (ivalid n =? 0) && (inlink n =? 0) then
     k_acquire icache_lock ;;;
     n <~ get_inode ip;
     let r := iref n in
     k_release icache_lock ;;;
     if r =? 1 then
       itrunc ip ;;;
       mod_inode ip (fun n => n <| itype := 0 |>) ;;;
       iupdate ip ;;;
       mod_inode ip (fun n => n <| ivalid := 0 |>)
     else ret tt
   else ret tt) ;;;
  releasesleep (ino_sl ip) ;;;
  k_acquire icache_lock ;;;
  mod_inode ip (fun n => n <| iref ::= fun r => r - 1 |>) ;;;
  k_release icache_lock.

Definition iunlockput (ip : nat) : M S unit := iunlock (Some ip) ;;; iput ip.

Definition stati (ip : nat) : M S stat :=
  n <~ get_inode ip;
  ret (mkstat (itype n) (idev n) (inum n) (inlink n) (isize n)).

(** [for(tot=0; tot<n; tot+=m, off+=m, dst+=m)]: each round but the first
    and the last moves a whole block. *)
Definition io_fuel (n : Z) : nat := Z.to_nat (n / BSIZE) + 3.

Definition readi (ip : nat) (off n : Z) : M S (Z * list Z) :=
  nd <~ get_inode ip;
  if itype nd =? T_DEV then
    if (imajor nd <? 0) || (NDEV <=? imajor nd) then ret (-1, [])
    else match dev_read (imajor nd) with
         | None => ret (-1, [])
         | Some rd => rd ip n
         end
  else if (isize nd <? off) || (u32 (off + n) <? off) then ret (-1, [])
  else
    let n := if isize nd <? u32 (off + n) then isize nd - off else n in
    dst <~ loop (io_fuel n) (fun '(tot, off, dst) =>
      if tot <? n then
        addr <~ bmap ip (off / BSIZE);
        bp <~ bread (idev nd) addr;
        let m := Z.min (n - tot) (BSIZE - off mod BSIZE) in
        d <~ buf_data bp;
        let chunk := slice d (Z.to_nat (off mod BSIZE)) (Z.to_nat m) in
        brelse bp ;;;
        ret (inl (tot + m, off + m, dst ++ chunk))
      else ret (inr dst)) (0, off, []);
    ret (n, dst).

Definition writei (ip : nat) (src : list Z) (off n : Z) : M S Z :=
  nd <~ get_inode ip;
  if itype nd =? T_DEV then
    if (imajor nd <? 0) || (NDEV <=? imajor nd) then ret (-1)
    else match dev_write (imajor nd) with
         | None => ret (-1)
         | Some wr => wr ip (take (Z.to_nat n) src)
         end
  else if (isize nd <? off) || (u32 (off + n) <? off) then ret (-1)
  else if MAXFILE * BSIZE <? u32 (off + n) then ret (-1)
  else
    off <~ loop (io_fuel n) (fun '(tot, off) =>
      if tot <? n then
        addr <~ bmap ip (off / BSIZE);
        bp <~ bread (idev nd) addr;
        let m := Z.min (n - tot) (BSIZE - off mod BSIZE) in
        set_data bp (fun d => splice d (Z.to_nat (off mod BSIZE)) (slice src (Z.to_nat tot) (Z.to_nat m))) ;;;
        log_write bp ;;;
        brelse bp ;;;
        ret (inl (tot + m, off + m))
      else ret (inr off)) (0, off);
    nd <~ get_inode ip;
    (if (0 <? n) && (isize nd <? off) then
       mod_inode ip (fun nd => nd <| isize := off |>) ;;;
       iupdate ip
     else ret tt) ;;;
    ret n.

(** ** Directories *)

Definition namecmp (s t : list Z) : M S Z := of_option (Undef "strncmp") (strncmp s t (Z.to_nat DIRSIZ)).

(** The offsets [0, 16, ...] below the size. *)
Definition dir_offsets (size : Z) : list nat := seq 0 (Z.to_nat ((size + DIRENT_SIZE - 1) / DIRENT_SIZE)).

(** The entry at [off], or [panic] when it cannot be read. *)
Definition read_dirent (dp : nat) (off : Z) (msg : string) : M S dirent :=
  r <~ readi dp off DIRENT_SIZE;
  if negb (fst r =? DIRENT_SIZE) then panic msg else ret (dirent_decode (snd r)).

(** The inode and the offset of the entry. *)
Definition dirlookup (dp : nat) (name : list Z) : M S (option (nat * Z)) :=
  nd <~ get_inode dp;
  if negb (itype nd =? T_DIR) then panic "dirlookup not DIR"
  else
    for_until (dir_offsets (isize nd)) (fun k =>
      let off := DIRENT_SIZE * Z.of_nat k in
      de <~ read_dirent dp off "dirlookup read";
      if de_inum de =? 0 then ret None
      else
        c <~ namecmp name (de_name de);
        if c =? 0 then
          ip <~ iget (idev nd) (de_inum de);
          ret (Some (ip, off))
        else ret None).

Definition dirlink (dp : nat) (name : list Z) (inum0 : Z) : M S Z :=
  r <~ dirlookup dp name;
  match r with
  | Some (ip, _) => iput ip ;;; ret (-1)
  | None =>
      nd <~ get_inode dp;
      r <~ for_until (dir_offsets (isize nd)) (fun k =>
        let off := DIRENT_SIZE * Z.of_nat k in
        de <~ read_dirent dp off "dirlink read";
        ret (if de_inum de =? 0 then Some off else None));
      let off := default (DIRENT_SIZE * Z.of_nat (length (dir_offsets (isize nd)))) r in
      nm <~ of_option (Undef "strncpy") (strncpy (replicate (Z.to_nat DIRSIZ) 0) name (Z.to_nat DIRSIZ));
      w <~ writei dp (dirent_encode (mkdirent (u16 inum0) nm)) off DIRENT_SIZE;
      if negb (w =? DIRENT_SIZE) then panic "dirlink" else ret 0
  end.

(** ** Paths *)

(** The path bounds the number of its elements. *)
Definition namex (path : list Z) (nameiparent : bool) (name : list Z) : M S (option nat * list Z) :=
  ip <~ (if match path with c :: _ => c =? 47 | [] => false end then iget ROOTDEV ROOTINO
         else c <~ k_cwd; c <~ of_option (Undef "cwd") c; idup c);
  r <~ loop (length path + 1) (fun '(path, name, ip) =>
    match skipelem path name with
    | None => ret (inr (inr (ip, name)))
    | Some (path, name) =>
        ilock (Some ip) ;;;
        nd <~ get_inode ip;
        if negb (itype nd =? T_DIR) then iunlockput ip ;;; ret (inr (inl (None, name)))
        else if nameiparent && (match path with c :: _ => c =? 0 | [] => true end) then
          iunlock (Some ip) ;;; ret (inr (inl (Some ip, name)))
        else
          r <~ dirlookup ip name;
          match r with
          | None => iunlockput ip ;;; ret (inr (inl (None, name)))
          | Some (next, _) => iunlockput ip ;;; ret (inl (path, name, next))
          end
    end) (path, name, ip);
  match r with
  | inl r => ret r
  | inr (ip, name) => if nameiparent then iput ip ;;; ret (None, name) else ret (Some ip, name)
  end.

Definition namei (path : list Z) : M S (option nat) :=
  r <~ namex path false (replicate (Z.to_nat DIRSIZ) 0);
  ret (fst r).

(** [nameiparent(path, name)], [name] being an array of [DIRSIZ] bytes. *)
Definition nameiparent (path name : list Z) : M S (option nat * list Z) := namex path true name.
End ops.
