(* ===== verification/FsBlk.v ===== *)
(** * Blocks of the file system ([fs.c]: [bzero], [balloc], [bfree])

    The bitmap as a set of blocks in use, and what allocating and freeing a
    block inside a transaction does to it and to the contents of the blocks. *)
From Stdlib Require Import ZArith Lia.
From stdpp Require Import base list gmap strings.
From S2P Require Import Prelude Params Bytes Cstring Spinlock Proc Sched SchedInv Kern Sleeplock FsData Bio Log LogRec LogTx Fs.
#[local] Open Scope Z_scope.
#[local] Open Scope kernel_scope.

(** ** Bits *)

Lemma bit_mask_testbit bi j : 0 <= j -> Z.testbit (bit_mask bi) j = (j =? bi mod 8).
Proof.
  intros Hj. unfold bit_mask. pose proof (Z.mod_pos_bound bi 8 ltac:(lia)).
  rewrite Z.shiftl_1_l. rewrite Z.pow2_bits_eqb by lia. apply Z.eqb_sym.
Qed.

Lemma land_mask_testbit x bi : negb (Z.land x (bit_mask bi) =? 0) = Z.testbit x (bi mod 8).
Proof.
  pose proof (Z.mod_pos_bound bi 8 ltac:(lia)) as Hb.
  destruct (Z.testbit x (bi mod 8)) eqn:Ht.
  - apply negb_true_iff, Z.eqb_neq. intros H0. apply (f_equal (fun y => Z.testbit y (bi mod 8))) in H0.
    rewrite Z.land_spec, bit_mask_testbit, Ht, Z.eqb_refl, Z.bits_0 in H0 by lia. done.
  - apply negb_false_iff, Z.eqb_eq. apply Z.bits_inj'. intros j Hj.
    rewrite Z.land_spec, bit_mask_testbit, Z.bits_0 by lia.
    destruct (Z.eqb_spec j (bi mod 8)) as [->|]; [by rewrite Ht|apply andb_false_r].
Qed.

(** [bit_at] is the bit [bi mod 8] of byte [bi / 8]. *)
Lemma bit_at_testbit d bi : bit_at d bi = Z.testbit (byte_at d (Z.to_nat (bi / 8))) (bi mod 8).
Proof. apply land_mask_testbit. Qed.

Lemma testbit_byte x j : is_byte x -> 8 <= j -> Z.testbit x j = false.
Proof.
  intros [H0 H1] Hj. destruct (decide (x = 0)) as [->|]; [apply Z.bits_0|].
  apply Z.bits_above_log2; [lia|]. apply Z.log2_lt_pow2; [lia|].
  apply Z.lt_le_trans with (2 ^ 8); [lia|]. by apply Z.pow_le_mono_r.
Qed.

Lemma is_byte_bits x : 0 <= x -> (forall j, 8 <= j -> Z.testbit x j = false) -> is_byte x.
Proof.
  intros H0 Hj. split; [done|]. destruct (decide (x = 0)) as [->|]; [lia|].
  change 256 with (2 ^ 8). apply Z.log2_lt_pow2; [lia|].
  destruct (Z.lt_ge_cases (Z.log2 x) 8) as [|Hge]; [done|].
  specialize (Hj _ Hge). rewrite Z.bit_log2 in Hj by lia. done.
Qed.

(** The index of a bit of a block. *)
Lemma bit_index bi bj : 0 <= bi -> 0 <= bj ->
  Z.to_nat (bi / 8) = Z.to_nat (bj / 8) -> bi mod 8 = bj mod 8 -> bi = bj.
Proof.
  intros Hi Hj Hd Hm. rewrite (Z.div_mod bi 8), (Z.div_mod bj 8) by lia.
  pose proof (Z.div_pos bi 8 Hi ltac:(lia)). pose proof (Z.div_pos bj 8 Hj ltac:(lia)). lia.
Qed.

Section bits.
Context (d : list Z) (Hd : is_block d).

Lemma byte_at_ok k : is_byte (byte_at d k).
Proof using Hd. apply byte_at_range, Hd. Qed.

Lemma bit_byte_lt bi : 0 <= bi < BPB -> (Z.to_nat (bi / 8) < length d)%nat.
Proof using Hd.
  intros Hb. rewrite (proj1 Hd). unfold BPB, BSIZE in Hb.
  assert (bi / 8 < 512) by (apply Z.div_lt_upper_bound; lia).
  pose proof (Z.div_pos bi 8 ltac:(lia) ltac:(lia)). lia.
Qed.

(** Replacing a byte by one that differs in one bit. *)
Lemma bit_write_spec bi x v :
  0 <= bi < BPB -> is_byte x ->
  (forall j, 0 <= j -> Z.testbit x j = if j =? bi mod 8 then v else Z.testbit (byte_at d (Z.to_nat (bi / 8))) j) ->
  let d' := <[Z.to_nat (bi / 8) := x]> d in
  is_block d' /\ forall bj, 0 <= bj < BPB -> bit_at d' bj = if bj =? bi then v else bit_at d bj.
Proof using Hd.
  intros Hb Hx Hbits d'. pose proof (bit_byte_lt bi Hb) as Hlt. split.
  - split; [unfold d'; by rewrite length_insert; apply Hd|]. by apply bytes_ok_insert; [apply Hd|].
  - intros bj Hbj. rewrite !bit_at_testbit. pose proof (Z.mod_pos_bound bj 8 ltac:(lia)).
    destruct (decide (Z.to_nat (bj / 8) = Z.to_nat (bi / 8))) as [He|Hne].
    + unfold d'. rewrite He, byte_at_insert_eq by done. rewrite Hbits by lia.
      destruct (Z.eqb_spec (bj mod 8) (bi mod 8)) as [Hm|], (Z.eqb_spec bj bi) as [|Hn]; subst; try done.
      exfalso. apply Hn, bit_index; done || lia.
    + unfold d'. rewrite byte_at_insert_ne by done. destruct (Z.eqb_spec bj bi); [by subst|done].
Qed.

Lemma bit_set_spec bi : 0 <= bi < BPB ->
  is_block (bit_set d bi) /\
  forall bj, 0 <= bj < BPB -> bit_at (bit_set d bi) bj = if bj =? bi then true else bit_at d bj.
Proof using Hd.
  intros Hb. pose proof (byte_at_ok (Z.to_nat (bi / 8))) as Hx.
  assert (forall j, 0 <= j -> Z.testbit (Z.lor (byte_at d (Z.to_nat (bi / 8))) (bit_mask bi)) j =
    if j =? bi mod 8 then true else Z.testbit (byte_at d (Z.to_nat (bi / 8))) j) as Hbits.
  { intros j Hj. rewrite Z.lor_spec, bit_mask_testbit by done.
    destruct (j =? bi mod 8); [apply orb_true_r|apply orb_false_r]. }
  apply bit_write_spec; [done| |done]. apply is_byte_bits.
  - apply Z.lor_nonneg. split; [apply Hx|]. unfold bit_mask. apply Z.shiftl_nonneg. lia.
  - intros j Hj. rewrite Hbits by lia. pose proof (Z.mod_pos_bound bi 8 ltac:(lia)).
    destruct (Z.eqb_spec j (bi mod 8)); [lia|by apply testbit_byte].
Qed.

Lemma bit_clear_spec bi : 0 <= bi < BPB ->
  is_block (bit_clear d bi) /\
  forall bj, 0 <= bj < BPB -> bit_at (bit_clear d bi) bj = if bj =? bi then false else bit_at d bj.
Proof using Hd.
  intros Hb. pose proof (byte_at_ok (Z.to_nat (bi / 8))) as Hx.
  apply bit_write_spec; [done|apply u8_range|]. intros j Hj.
  unfold u8. change 256 with (2 ^ 8).
  destruct (Z.lt_ge_cases j 8) as [Hlt|Hge].
  - rewrite Z.mod_pow2_bits_low by lia. rewrite Z.land_spec, Z.lnot_spec, bit_mask_testbit by done.
    destruct (j =? bi mod 8); [apply andb_false_r|apply andb_true_r].
  - rewrite Z.mod_pow2_bits_high by lia. pose proof (Z.mod_pos_bound bi 8 ltac:(lia)).
    destruct (Z.eqb_spec j (bi mod 8)); [lia|]. by rewrite testbit_byte.
Qed.
End bits.

(** ** The layout of the disk *)

Definition data_start (s : superblock) : Z := sb_bmapstart s + sb_size s / BPB + 1.
Definition is_data (s : superblock) (n : Z) : Prop := data_start s <= n < sb_size s.

(** Log, inode blocks, bitmap and data follow each other. *)
Record layout (s : superblock) (start size : Z) : Prop := {
  la_log : 1 < start /\ 0 <= size /\ start + size <= sb_inodestart s;
  la_inodes : 0 <= sb_ninodes s /\ sb_inodestart s + sb_ninodes s / IPB + 1 <= sb_bmapstart s;
  la_bitmap : 0 <= sb_size s /\ data_start s <= sb_size s
}.

(** Block [n] is marked in the bitmap. *)
Definition used (t : fsstate) (n : Z) : bool := bit_at (content t (BBLOCK n (sb t))) (n mod BPB).

(** The bitmap marks the blocks that are not data. *)
Definition meta_used (t : fsstate) : Prop := forall n, 0 <= n < data_start (sb t) -> used t n = true.

Lemma bitmap_range s start size n :
  layout s start size -> 0 <= n < sb_size s -> sb_bmapstart s <= BBLOCK n s < data_start s.
Proof.
  intros [_ _ [H0 _]] Hn. unfold BBLOCK, data_start.
  assert (0 <= n / BPB) by (apply Z.div_pos; [lia|unfold BPB, BSIZE; lia]).
  assert (n / BPB <= sb_size s / BPB) by (apply Z.div_le_mono; [unfold BPB, BSIZE; lia|lia]). lia.
Qed.

(** ** Updating blocks inside an operation *)

(** The writes made to the disk before the operation, and the number of
    operations under way: neither changes until [end_op]. *)
Class OpBase := mkbase { base_history : list (Z * list Z); base_out : Z }.

Section blocks.
Context {S : Type} `{KernLaws S fsstate} `{DevSw S}.
Implicit Types (s : S) (t : fsstate) (X : stop -> Prop) (HH : list nat).
Abbreviation me := (my_pid (S := S) (T := fsstate)).
Context `{OpBase} (start size : Z).

(** The state inside an operation: the process holds the buffers [HH], and
    the transaction has at most [n] blocks. *)
Record in_op (s : S) (HH : list nat) (t : fsstate) (n : nat) : Prop := {
  io_at : at_ s [] t;
  io_bc : bc_ok me HH t;
  io_tx : exists bl, tx t start size bl /\ (length bl <= n)%nat;
  io_disk : Z.of_nat (length (disk t)) = sb_size (sb t);
  io_layout : layout (sb t) start size;
  io_quiet : history t = base_history /\ outstanding (lg t) = base_out;
  io_dirty : forall m, dirty_in t m -> sb_inodestart (sb t) <= m
}.

(** The log and the cache have room for [n] blocks and [h] held buffers, or
    running out of them is allowed. *)
Definition enough (n h : nat) X : Prop :=
  ((n + h < NBUF)%nat /\ Z.of_nat n <= size - 1) \/
  (X (Panic "too big a transaction") /\ X (Panic "bget: no buffers")).

Lemma enough_le n h n' h' X : enough n h X -> (n' <= n)%nat -> (n' + h' <= n + h)%nat -> enough n' h' X.
Proof. intros [[Ha Hb]|HX] Hn Hh; [left; lia|by right]. Qed.

Definition keep HH t t' : Prop := forall j, j ∈ HH -> bufs t' !! j = bufs t !! j.

(** No held buffer is of block [n]. *)
Definition free_of HH t (n : Z) : Prop := forall i b, i ∈ HH -> bufs t !! i = Some b -> blockno b <> n.

Lemma free_of_keep HH t t' n : free_of HH t n -> keep HH t t' -> free_of HH t' n.
Proof. intros Hf Hk i b Hi Hb. rewrite (Hk _ Hi) in Hb. by eapply Hf. Qed.

(** A block the transaction may write. *)
Lemma in_op_home s HH t n b : in_op s HH t n -> sb_inodestart (sb t) <= b < sb_size (sb t) -> home t start size b.
Proof. intros [_ _ _ Hd [[? [? ?]] _ _]] Hb. split; [lia|right; lia]. Qed.

(** The buffer [bread] returns. *)
Record reads (s : S) (HH : list nat) (t : fsstate) (n : nat) (b : Z) (i : nat) (t' : fsstate) : Prop := {
  rd_op : in_op s (i :: HH) t' n;
  rd_same : same_blocks t t';
  rd_new : i ∉ HH;
  rd_buf : exists c, bufs t' !! i = Some c /\ blockno c = b /\ bdata c = content t b /\
    (has_flag B_DIRTY c = true \/ bdata c = disk_at t' b);
  rd_keep : keep HH t t'
}.

Lemma wp_read s HH t n b X (Q : nat -> S -> Prop) :
  in_op s HH t n -> 0 <= b < sb_size (sb t) -> free_of HH t b -> enough n (length HH) X ->
  (forall s' t' i, reads s' HH t n b i t' -> Q i s') -> wp (bread 1 b) X Q s.
Proof.
  intros [Hat Hbc (bl & Htx & Hbl) Hd Hla Hq Hdi] Hb Hf He HQ.
  eapply (wp_bread_tx _ _ HH b start size bl); [done|done|done|lia|done| |].
  { destruct He as [[He _]|[_ HX]]; [left; unfold fits; lia|by right]. }
  intros s' t' i c Hat' [Hok Hs Htx' Hnew (Hc & Hbn & Hcd & Hcl) Hheld]. eapply (HQ s' t' i).
  destruct Hs as [Hsc (Hsd & Hsh & Hsl & Hss & Hsi) Hsdi].
  split; [split; [done|done|by exists bl|by rewrite Hsd, Hss|by rewrite Hss|by rewrite Hsh, Hsl|]|by split|done| |done].
  { intros m Hm. rewrite Hss. by apply Hdi, Hsdi. }
  by exists c.
Qed.

(** Giving it back. *)
Lemma wp_give s HH t n i c X (Q : unit -> S -> Prop) :
  in_op s (i :: HH) t n -> i ∉ HH -> bufs t !! i = Some c ->
  (has_flag B_DIRTY c = true \/ bdata c = disk_at t (blockno c)) ->
  (forall s' t', in_op s' HH t' n -> same_blocks t t' -> keep HH t t' -> Q tt s') ->
  wp (brelse i) X Q s.
Proof.
  intros [Hat Hbc (bl & Htx & Hbl) Hd Hla Hq Hdi] Hi Hc Hcl HQ.
  eapply (wp_brelse_tx _ _ (i :: HH) HH i c start size bl); [done|done|set_solver|done|done|done| |].
  { intros j. rewrite elem_of_cons. split; [|by intros [[->|?] ?]]. intros Hj. split; [by right|]. by intros ->. }
  intros s' t' Hat' Hbc' Hs Htx' Hk. apply (HQ s' t'); [|done|done].
  destruct Hs as [_ (Hsd & Hsh & Hsl & Hss & _) Hsdi].
  split; [done|done|by exists bl|by rewrite Hsd, Hss|by rewrite Hss|by rewrite Hsh, Hsl|].
  intros m Hm. rewrite Hss. by apply Hdi, Hsdi.
Qed.

(** Writing through a held buffer. *)
Lemma wp_write {A} s HH t n i c f (k : M S A) X (Q : A -> S -> Prop) :
  in_op s HH t n -> i ∈ HH -> bufs t !! i = Some c -> is_block (f (bdata c)) ->
  sb_inodestart (sb t) <= blockno c < sb_size (sb t) -> enough (Datatypes.S n) 0 X ->
  (forall s' t' c', in_op s' HH t' (Datatypes.S n) -> bufs t' !! i = Some c' ->
     blockno c' = blockno c -> bdata c' = f (bdata c) -> has_flag B_DIRTY c' = true ->
     (forall j, j <> i -> bufs t' !! j = bufs t !! j) ->
     updated t (blockno c) (f (bdata c)) t' -> wp k X Q s') ->
  wp (set_data i f ;;; log_write i ;;; k) X Q s.
Proof.
  intros Hop Hi Hc Hf Hb He HQ. pose proof (in_op_home _ _ _ _ _ Hop Hb) as Hh.
  destruct Hop as [Hat Hbc (bl & Htx & Hbl) Hd Hla Hq Hdi].
  eapply (wp_set_log _ _ HH i c f start size bl); [done|done|done|done|done|done|done| |].
  { destruct He as [[He1 He2]|[HX _]]; [left|by right]. unfold NBUF, LOGSIZE, MAXOPBLOCKS in *. lia. }
  intros s' t' c' Hat' Hbc' Htx' Hc' Hbn Hbd Hdc Ho Hu [Hqh Hqo].
  apply (HQ s' t' c'); try done. destruct Hu as (_ & Hud & Hus & _).
  split; [done|done| |by rewrite Hud, Hus|by rewrite Hus|by rewrite Hqh, Hqo|].
  2: { intros m [Hm| ->]%(tx_pinned _ _ _ _ Htx')%elem_of_absorb; rewrite Hus; [|lia].
       by apply Hdi, (tx_pinned _ _ _ _ Htx). }
  eexists. split; [done|]. pose proof (length_absorb bl (blockno c)). lia.
Qed.

(** Writing through a held buffer and giving it back. *)
Lemma wp_write_give {A} s HH t n i c f (k : M S A) X (Q : A -> S -> Prop) :
  in_op s (i :: HH) t n -> i ∉ HH -> bufs t !! i = Some c -> is_block (f (bdata c)) ->
  sb_inodestart (sb t) <= blockno c < sb_size (sb t) -> enough (Datatypes.S n) 0 X ->
  (forall s' t', in_op s' HH t' (Datatypes.S n) -> updated t (blockno c) (f (bdata c)) t' ->
     keep HH t t' -> wp k X Q s') ->
  wp (set_data i f ;;; log_write i ;;; brelse i ;;; k) X Q s.
Proof.
  intros Hop Hnew Hc Hf Hb He HQ.
  eapply (wp_write _ _ _ _ i c); [done|set_solver|done|done|done|done|].
  intros s2 t2 c2 Hop2 Hc2 Hbn2 Hbd2 Hdi2 Ho2 Hu2. mstep.
  eapply wp_give; [done|done|done|by left|]. intros s3 t3 Hop3 Hsame3 Hk3.
  eapply (HQ s3 t3); [done|..].
  - destruct Hu2 as (Huc & Hud & Hus & Hui). destruct Hsame3 as [Hsc3 (Hsd3 & _ & _ & Hss3 & Hsi3) _].
    split; [|by rewrite Hsd3, Hss3, Hsi3, Hud, Hus, Hui]. intros m. by rewrite Hsc3, Huc.
  - intros j Hj. rewrite Hk3 by done. apply Ho2. by intros ->.
Qed.

(** The same at the end of a routine. *)
Lemma wp_write_end s HH t n i c f X (Q : unit -> S -> Prop) :
  in_op s (i :: HH) t n -> i ∉ HH -> bufs t !! i = Some c -> is_block (f (bdata c)) ->
  sb_inodestart (sb t) <= blockno c < sb_size (sb t) -> enough (Datatypes.S n) 0 X ->
  (forall s' t', in_op s' HH t' (Datatypes.S n) -> updated t (blockno c) (f (bdata c)) t' ->
     keep HH t t' -> Q tt s') ->
  wp (set_data i f ;;; log_write i ;;; brelse i) X Q s.
Proof.
  intros Hop Hnew Hc Hf Hb He HQ.
  assert (wp (set_data i f ;;; log_write i ;;; brelse i ;;; ret tt) X Q s) as Hwp.
  { eapply wp_write_give; [done..|]. intros s' t' H1' H2' H3'. mstep. by eapply HQ. }
  unfold wp, bind in *. destruct (set_data i f s) as [[[] s1]|]; [|done].
  destruct (log_write i s1) as [[[] s2]|]; [|done]. by destruct (brelse i s2) as [[[] s3]|].
Qed.

(** A write after a read: what it did to the state before the read. *)
Lemma updated_same t1 t2 n d t3 : same_blocks t1 t2 -> updated t2 n d t3 -> updated t1 n d t3.
Proof.
  intros [Hc (Hd & _ & _ & Hs & Hi) _] (Huc & Hud & Hus & Hui). split; [|by rewrite Hud, Hus, Hui].
  intros m. by rewrite Huc, Hc.
Qed.

Lemma keep_trans HH t1 t2 t3 : keep HH t1 t2 -> keep HH t2 t3 -> keep HH t1 t3.
Proof. intros Ha Hb j Hj. by rewrite Hb, Ha. Qed.

Lemma zeros_block : is_block (replicate (Z.to_nat BSIZE) 0).
Proof. split; [done|]. by apply Forall_replicate. Qed.

Lemma wp_bzero s HH t n b X (Q : unit -> S -> Prop) :
  in_op s HH t n -> free_of HH t b -> sb_inodestart (sb t) <= b < sb_size (sb t) ->
  enough (Datatypes.S n) (length HH) X ->
  (forall s' t', in_op s' HH t' (Datatypes.S n) -> updated t b (replicate (Z.to_nat BSIZE) 0) t' ->
     keep HH t t' -> Q tt s') ->
  wp (bzero 1 b) X Q s.
Proof.
  intros Hop Hf Hb He HQ. pose proof (io_layout _ _ _ _ Hop) as [[? [? ?]] _ _]. unfold bzero. mstep.
  eapply wp_read; [done|lia|done|by eapply enough_le; [done|lia..]|].
  intros s1 t1 i [Hop1 Hsame1 Hnew (c & Hc & Hbn & Hcd & Hcl) Hk1].
  pose proof (sm_frame _ _ Hsame1) as (_ & _ & _ & Hss & _).
  eapply wp_write_end; [done|done|done|apply zeros_block|by rewrite Hbn, Hss|by eapply enough_le; [done|lia..]|].
  intros s2 t2 Hop2 Hu Hk2. eapply (HQ s2 t2); [done| |by eapply keep_trans].
  rewrite Hbn in Hu. by eapply updated_same.
Qed.
End blocks.

(** ** The bitmap *)

(** Block [a] was taken: marked and zeroed. *)
Definition allocated (t : fsstate) (a : Z) (t' : fsstate) : Prop :=
  (forall m, content t' m =
     if m =? a then replicate (Z.to_nat BSIZE) 0
     else if m =? BBLOCK a (sb t) then bit_set (content t m) (a mod BPB) else content t m) /\
  disk t' = disk t /\ sb t' = sb t /\ inodes t' = inodes t.

(** Block [a] was given back. *)
Definition freed (t : fsstate) (a : Z) (t' : fsstate) : Prop :=
  updated t (BBLOCK a (sb t)) (bit_clear (content t (BBLOCK a (sb t))) (a mod BPB)) t'.

(** Two blocks have the same bit only if they are the same. *)
Lemma same_bit n a s : BBLOCK n s = BBLOCK a s -> n mod BPB = a mod BPB -> n = a.
Proof.
  unfold BBLOCK. intros Hd Hm. rewrite (Z.div_mod n BPB), (Z.div_mod a BPB) by (unfold BPB, BSIZE; lia).
  assert (n / BPB = a / BPB) by lia. congruence.
Qed.

Lemma bpb_mod n : 0 <= n mod BPB < BPB.
Proof. apply Z.mod_pos_bound. unfold BPB, BSIZE. lia. Qed.

Section bitmap.
Context (t t' : fsstate) (a start size : Z).
Context (Hla : layout (sb t) start size) (Ha : is_data (sb t) a).
Context (Hblk : forall m, 0 <= m < sb_size (sb t) -> is_block (content t m)).

Lemma bitmap_block n : 0 <= n < sb_size (sb t) -> is_block (content t (BBLOCK n (sb t))) /\ BBLOCK n (sb t) <> a.
Proof using Hla Ha Hblk.
  intros Hn. pose proof (bitmap_range _ _ _ n Hla Hn) as Hr.
  pose proof Hla as [[? [? ?]] [? ?] [? ?]].
  assert (0 <= sb_ninodes (sb t) / IPB) by (apply Z.div_pos; [lia|done]).
  unfold is_data in Ha. split; [apply Hblk|]; lia.
Qed.

Lemma data_nonneg : 0 <= a < sb_size (sb t).
Proof using Hla Ha.
  pose proof Hla as [[? [? ?]] [? ?] [? ?]].
  assert (0 <= sb_ninodes (sb t) / IPB) by (apply Z.div_pos; [lia|done]).
  assert (0 <= sb_size (sb t) / BPB) by (apply Z.div_pos; [lia|unfold BPB, BSIZE; lia]).
  unfold is_data, data_start in Ha. lia.
Qed.

Lemma used_allocated n :
  allocated t a t' -> 0 <= n < sb_size (sb t) -> used t' n = if n =? a then true else used t n.
Proof using Hla Ha Hblk.
  intros (Hc & _ & Hs & _) Hn. pose proof (bitmap_block n Hn) as [Hd Hne]. unfold used. rewrite Hs, Hc.
  destruct (Z.eqb_spec (BBLOCK n (sb t)) a); [done|].
  destruct (Z.eqb_spec (BBLOCK n (sb t)) (BBLOCK a (sb t))) as [He|Hne2].
  - rewrite He in *. pose proof (proj2 (bit_set_spec _ Hd (a mod BPB) (bpb_mod a)) (n mod BPB) (bpb_mod n)) as ->.
    destruct (Z.eqb_spec (n mod BPB) (a mod BPB)) as [Hm|Hm], (Z.eqb_spec n a) as [->|Hna]; try done.
    by destruct Hna; eapply same_bit.
  - destruct (Z.eqb_spec n a) as [->|]; done.
Qed.

Lemma used_freed n :
  freed t a t' -> 0 <= n < sb_size (sb t) -> used t' n = if n =? a then false else used t n.
Proof using Hla Ha Hblk.
  intros (Hc & _ & Hs & _) Hn. pose proof (bitmap_block n Hn) as [Hd Hne]. unfold used. rewrite Hs, Hc.
  destruct (Z.eqb_spec (BBLOCK n (sb t)) (BBLOCK a (sb t))) as [He|Hne2].
  - rewrite He in *. pose proof (proj2 (bit_clear_spec _ Hd (a mod BPB) (bpb_mod a)) (n mod BPB) (bpb_mod n)) as ->.
    destruct (Z.eqb_spec (n mod BPB) (a mod BPB)) as [Hm|Hm], (Z.eqb_spec n a) as [->|Hna]; try done.
    by destruct Hna; eapply same_bit.
  - destruct (Z.eqb_spec n a) as [->|]; done.
Qed.
End bitmap.

Section alloc.
Context {S : Type} `{KernLaws S fsstate} `{DevSw S}.
Implicit Types (s : S) (t : fsstate) (X : stop -> Prop) (HH : list nat).
Abbreviation me := (my_pid (S := S) (T := fsstate)).
Context `{OpBase} (start size : Z).
Abbreviation in_op := (in_op start size).
Abbreviation enough := (enough size).

Lemma content_block s HH t n m : in_op s HH t n -> 0 <= m < sb_size (sb t) -> is_block (content t m).
Proof.
  intros [_ Hbc _ Hd _] Hm. destruct (content_cases _ _ _ m Hbc) as [(i & b & Hb & _ & ->)|[_ ->]].
  - by eapply bc_data.
  - eapply disk_at_block; [done|lia].
Qed.

(** The held buffers are of data blocks in use. *)
Definition held_used HH t : Prop :=
  forall i b, i ∈ HH -> bufs t !! i = Some b -> is_data (sb t) (blockno b) /\ used t (blockno b) = true.

Lemma used_same t t' n : same_blocks t t' -> used t' n = used t n.
Proof. intros [Hc (_ & _ & _ & Hs & _) _]. unfold used. by rewrite Hs, Hc. Qed.

Lemma held_free_bitmap s HH t n m :
  in_op s HH t n -> held_used HH t -> 0 <= m < sb_size (sb t) -> free_of HH t (BBLOCK m (sb t)).
Proof.
  intros Hop Hh Hm i b Hi Hb Heq. destruct (Hh _ _ Hi Hb) as [Hd _]. unfold is_data in Hd.
  pose proof (bitmap_range _ _ _ m (io_layout _ _ _ _ _ _ Hop) Hm). lia.
Qed.

Lemma BBLOCK_start k b i : 0 <= i < BPB -> BBLOCK (BPB * Z.of_nat k + i) b = BBLOCK (BPB * Z.of_nat k) b /\
  (BPB * Z.of_nat k + i) mod BPB = i.
Proof.
  intros Hi. unfold BBLOCK. replace (BPB * Z.of_nat k + i) with (i + Z.of_nat k * BPB) by lia.
  rewrite Z.div_add, Z.mod_add by done. rewrite (Z.div_small i), (Z.mod_small i) by done.
  rewrite (Z.mul_comm BPB), Z.div_mul by done. lia.
Qed.

(** The buffer holds the bitmap of block [a], which is free: it is taken. *)
Lemma wp_balloc_take s t0 HH t n i c a X (Q : option Z -> S -> Prop) :
  in_op s (i :: HH) t n -> same_blocks t0 t -> keep HH t0 t -> i ∉ HH -> held_used HH t0 ->
  bufs t !! i = Some c -> blockno c = BBLOCK a (sb t0) -> bdata c = content t0 (BBLOCK a (sb t0)) ->
  is_data (sb t0) a -> used t0 a = false -> enough (Datatypes.S (Datatypes.S n)) (length HH) X ->
  (forall s' t', in_op s' HH t' (Datatypes.S (Datatypes.S n)) -> allocated t0 a t' -> keep HH t0 t' ->
     Q (Some a) s') ->
  wp (set_data i (fun d => bit_set d (a mod BPB)) ;;; log_write i ;;; brelse i ;;; bzero 1 a ;;;
      ret (Some a)) X Q s.
Proof.
  intros Hop Hsame Hk Hnew Hh Hc Hbn Hcd Ha Hu He HQ.
  pose proof (sm_frame _ _ Hsame) as (Hsd & _ & _ & Hss & Hsi).
  pose proof (io_layout _ _ _ _ _ _ Hop) as Hla. rewrite Hss in Hla.
  pose proof (data_nonneg _ _ _ _ Hla Ha) as Har.
  pose proof (bitmap_range _ _ _ a Hla Har) as Hr. pose proof Hla as [[? [? ?]] [? ?] [? ?]].
  assert (0 <= sb_ninodes (sb t0) / IPB) by (apply Z.div_pos; [lia|done]).
  unfold is_data in Ha.
  assert (is_block (bdata c)) as Hcb by (eapply bc_data; [by eapply io_bc|done]).
  eapply wp_write_give; [done|done|done|by apply (bit_set_spec _ Hcb), bpb_mod|rewrite Hbn, Hss; lia| |].
  { eapply enough_le; [done|lia..]. }
  intros s1 t1 Hop1 Hu1 Hk1. mstep.
  pose proof Hu1 as (Huc1 & Hud1 & Hus1 & Hui1).
  eapply wp_bzero; [done| |rewrite Hus1, Hss; lia|done|].
  - apply (free_of_keep _ t0); [|by eapply keep_trans]. intros j b Hj Hb Heq.
    destruct (Hh _ _ Hj Hb) as [_ Hub]. congruence.
  - intros s2 t2 Hop2 (Huc2 & Hud2 & Hus2 & Hui2) Hk2. mstep. eapply HQ; [done| |].
    + split; [|by rewrite Hud2, Hus2, Hui2, Hud1, Hus1, Hui1, Hsd, Hss, Hsi]. intros m.
      rewrite Huc2, Huc1, Hbn, (sm_content _ _ Hsame), Hcd.
      destruct (m =? a); [done|]. by destruct (Z.eqb_spec m (BBLOCK a (sb t0))) as [->|].
    + by do 2 (eapply keep_trans; [done|]).
Qed.

(** The search of one bitmap block. *)
Lemma wp_balloc_scan s t0 HH t n i c k X (Q : option Z -> S -> Prop) :
  in_op s (i :: HH) t n -> same_blocks t0 t -> keep HH t0 t -> i ∉ HH -> held_used HH t0 ->
  meta_used t0 -> BPB * Z.of_nat k < sb_size (sb t0) ->
  bufs t !! i = Some c -> blockno c = BBLOCK (BPB * Z.of_nat k) (sb t0) ->
  bdata c = content t0 (BBLOCK (BPB * Z.of_nat k) (sb t0)) ->
  enough (Datatypes.S (Datatypes.S n)) (length HH) X ->
  (forall s' t' a, in_op s' HH t' (Datatypes.S (Datatypes.S n)) -> is_data (sb t0) a -> used t0 a = false ->
     allocated t0 a t' -> keep HH t0 t' -> Q (Some a) s') ->
  ((forall m, BPB * Z.of_nat k <= m < BPB * Z.of_nat (Datatypes.S k) -> m < sb_size (sb t0) -> used t0 m = true) ->
     Q None s) ->
  wp (for_until (bits_of (BPB * Z.of_nat k) (sb_size (sb t0))) (fun bi =>
      d <~ buf_data i;
      if negb (bit_at d (Z.of_nat bi)) then
        set_data i (fun d => bit_set d (Z.of_nat bi)) ;;; log_write i ;;; brelse i ;;;
        bzero 1 (BPB * Z.of_nat k + Z.of_nat bi) ;;; ret (Some (BPB * Z.of_nat k + Z.of_nat bi))
      else ret None)) X Q s.
Proof.
  intros Hop Hsame Hk Hnew Hh Hm Hkb Hc Hbn Hcd He HQ1 HQ2. unfold bits_of.
  set (N := Z.min BPB (sb_size (sb t0) - BPB * Z.of_nat k)).
  assert (Hpos : 0 < BPB) by done.
  apply wp_for_until_seq with (I := fun bi s' => s' = s /\
    forall m, BPB * Z.of_nat k <= m < BPB * Z.of_nat k + Z.of_nat bi -> used t0 m = true).
  - split; [done|lia].
  - intros bi s' Hbi [-> Hlt]. set (a := BPB * Z.of_nat k + Z.of_nat bi).
    destruct (BBLOCK_start k (sb t0) (Z.of_nat bi)) as [Hb Hmod]; [lia|]. fold a in Hb, Hmod.
    mstep. eapply wp_buf_data; [by eapply io_at|done|].
    assert (bit_at (bdata c) (Z.of_nat bi) = used t0 a) as ->.
    { unfold used. by rewrite Hb, Hmod, Hcd. }
    destruct (used t0 a) eqn:Hu; cbn [negb].
    + mstep. split; [done|]. intros m Hmr. destruct (decide (m = a)) as [->|]; [done|apply Hlt; lia].
    + assert (is_data (sb t0) a) as Ha.
      { split; [|lia]. destruct (Z.le_gt_cases (data_start (sb t0)) a) as [|Hlt']; [done|].
        rewrite (Hm a) in Hu; [done|lia]. }
      rewrite <- Hmod. eapply wp_balloc_take; [done|done|done|done|done|done|by rewrite Hb|by rewrite Hb|done|done|done|].
      intros s' t' Hop' Hal Hk'. by eapply HQ1.
  - intros s' [-> Hall]. apply HQ2. intros m Hmr Hms. apply Hall. lia.
Qed.

(** [balloc] returns a data block that was free, marked and zeroed. *)
Lemma wp_balloc s HH t n X (Q : Z -> S -> Prop) :
  in_op s HH t n -> meta_used t -> held_used HH t ->
  enough (Datatypes.S (Datatypes.S n)) (Datatypes.S (length HH)) X ->
  (exists m, is_data (sb t) m /\ used t m = false) \/ X (Panic "balloc: out of blocks") ->
  (forall s' t' a, in_op s' HH t' (Datatypes.S (Datatypes.S n)) -> is_data (sb t) a -> used t a = false ->
     allocated t a t' -> keep HH t t' -> Q a s') ->
  wp (balloc 1) X Q s.
Proof.
  intros Hop Hm Hh He Hfree HQ. unfold balloc, get_sb. mstep. mstep.
  pose proof (io_at _ _ _ _ _ _ Hop) as Hat. mstep. mstep. mstep.
  pose proof (io_layout _ _ _ _ _ _ Hop) as Hla. pose proof (la_bitmap _ _ _ Hla) as [Hsz _].
  assert (Hpos : 0 < BPB) by done.
  apply wp_for_until_seq with (I := fun k s' => exists t', in_op s' HH t' n /\ same_blocks t t' /\
    keep HH t t' /\ forall m, 0 <= m < BPB * Z.of_nat k -> m < sb_size (sb t) -> used t m = true).
  - exists t. split; [done|]. split; [done|]. split; [done|]. lia.
  - intros k s1 Hk (t1 & Hop1 & Hs1 & Hk1 & Hall). cbn zeta beta.
    assert (BPB * Z.of_nat k < sb_size (sb t)) as Hkb.
    { assert (Z.of_nat k < (sb_size (sb t) + BPB - 1) / BPB) as Hlt by lia.
      assert (BPB * (Z.of_nat k + 1) <= BPB * ((sb_size (sb t) + BPB - 1) / BPB)) by (apply Z.mul_le_mono_nonneg_l; lia).
      pose proof (Z.mul_div_le (sb_size (sb t) + BPB - 1) BPB Hpos). lia. }
    pose proof (sm_frame _ _ Hs1) as (_ & _ & _ & Hss & _).
    pose proof (bitmap_range _ _ _ (BPB * Z.of_nat k) Hla ltac:(lia)) as Hr.
    pose proof Hla as [[? [? ?]] [? ?] [? ?]].
    assert (0 <= sb_ninodes (sb t) / IPB) by (apply Z.div_pos; [lia|done]).
    mstep. eapply wp_read; [done|rewrite Hss; lia| |by eapply enough_le; [done|lia..]|].
    { eapply free_of_keep; [|done]. eapply held_free_bitmap; [done|done|lia]. }
    intros s2 t2 i [Hop2 Hs2 Hnew (c & Hc & Hbn & Hcd & Hcl) Hk2].
    assert (same_blocks t t2) as Hs02 by (by etrans). assert (keep HH t t2) as Hk02 by by eapply keep_trans.
    mstep. eapply (wp_balloc_scan _ t HH t2 n i c k);
      [done|done|done|done|done|done|done|done|done| |by eapply enough_le; [done|lia..]|..].
    { by rewrite Hcd, (sm_content _ _ Hs1). }
    + intros s3 t3 a Hop3 Ha Hu Hal Hk3. mstep. mstep. by eapply HQ.
    + intros Hall2. mstep. eapply wp_give; [done|done|done|by rewrite Hbn|]. intros s3 t3 Hop3 Hs3 Hk3. mstep.
      exists t3. split; [done|]. split; [by etrans|]. split; [by eapply keep_trans|].
      intros m Hmr Hms. destruct (Z.lt_ge_cases m (BPB * Z.of_nat k)); [apply Hall; lia|apply Hall2; lia].
  - intros s1 (t1 & _ & _ & _ & Hall). destruct Hfree as [(m & Hdm & Hum)|HX]; [|by apply wp_stop].
    pose proof (data_nonneg _ _ _ _ Hla Hdm). rewrite (Hall m) in Hum; [done| |lia].
    rewrite Z2Nat.id by (apply Z.div_pos; lia).
    pose proof (Z.div_mod (sb_size (sb t) + BPB - 1) BPB ltac:(lia)).
    pose proof (Z.mod_pos_bound (sb_size (sb t) + BPB - 1) BPB Hpos). lia.
Qed.

(** [bfree] clears the mark of a block in use. *)
Lemma wp_bfree s HH t n a X (Q : unit -> S -> Prop) :
  in_op s HH t n -> held_used HH t -> is_data (sb t) a ->
  enough (Datatypes.S n) (Datatypes.S (length HH)) X ->
  used t a = true \/ X (Panic "freeing free block") ->
  (forall s' t', in_op s' HH t' (Datatypes.S n) -> freed t a t' -> keep HH t t' -> Q tt s') ->
  wp (bfree 1 a) X Q s.
Proof.
  intros Hop Hh Ha He Hua HQ. unfold bfree, get_sb. mstep. mstep.
  pose proof (io_at _ _ _ _ _ _ Hop) as Hat. mstep. mstep.
  pose proof (io_layout _ _ _ _ _ _ Hop) as Hla. pose proof (data_nonneg _ _ _ _ Hla Ha) as Har.
  pose proof (bitmap_range _ _ _ a Hla Har) as Hr. pose proof Hla as [[? [? ?]] [? ?] [? ?]].
  assert (0 <= sb_ninodes (sb t) / IPB) by (apply Z.div_pos; [lia|done]). unfold is_data in Ha.
  mstep. eapply wp_read; [done|lia|by eapply held_free_bitmap|by eapply enough_le; [done|lia..]|].
  intros s1 t1 i [Hop1 Hs1 Hnew (c & Hc & Hbn & Hcd & Hcl) Hk1]. cbn zeta. mstep.
  eapply wp_buf_data; [by eapply io_at|done|].
  replace (bit_at (bdata c) (a mod BPB)) with (used t a) by (unfold used; by rewrite Hcd).
  destruct (used t a) eqn:Hu; cbn [negb]; [|destruct Hua; [done|by apply wp_stop]].
  assert (is_block (bdata c)) as Hcb by (eapply bc_data; [by eapply io_bc|done]).
  pose proof (sm_frame _ _ Hs1) as (_ & _ & _ & Hss & _).
  eapply wp_write_end; [done|done|done|by apply (bit_clear_spec _ Hcb), bpb_mod|rewrite Hbn, Hss; lia|by eapply enough_le; [done|lia..]|].
  intros s2 t2 Hop2 Hu2 Hk2. apply (HQ s2 t2); [done| |by eapply keep_trans].
  rewrite Hbn, Hcd in Hu2. by eapply updated_same.
Qed.
End alloc.
