(* ===== verification/FsInode.v ===== *)
(** * Inodes on disk ([fs.c]: [iupdate], and the copy in [ilock])

    The format of [struct dinode], and [iupdate], which makes the inode on
    disk equal to the cached one and leaves the other inodes alone. *)
From Stdlib Require Import ZArith Lia.
From stdpp Require Import base list gmap strings.
From S2P Require Import Prelude Params Bytes Cstring Spinlock Proc Sched SchedInv Kern Sleeplock FsData Bio Log LogRec LogTx Fs FsBlk.
#[local] Open Scope Z_scope.
#[local] Open Scope kernel_scope.

(** ** The format *)

Lemma length_put16 d o v : length (put16 d o v) = length d.
Proof. unfold put16. by rewrite !length_insert. Qed.

Lemma bytes_ok_put16 d o v : bytes_ok d -> bytes_ok (put16 d o v).
Proof. intros Hd. unfold put16. repeat apply bytes_ok_insert; try done; apply is_byte_mod. Qed.

Lemma byte_at_put16 d o v k : (k < o \/ o + 2 <= k)%nat -> byte_at (put16 d o v) k = byte_at d k.
Proof. intros Hk. unfold put16. by rewrite !byte_at_insert_ne by lia. Qed.

Lemma byte_at_put32 d o v k : (k < o \/ o + 4 <= k)%nat -> byte_at (put32 d o v) k = byte_at d k.
Proof. intros Hk. unfold put32. by rewrite !byte_at_insert_ne by lia. Qed.

Lemma length_store_addrs d o l : length (store_addrs d o l) = length d.
Proof. revert d o. induction l as [|a l IH]; intros; cbn; [done|]. by rewrite IH, length_put32. Qed.

Lemma bytes_ok_store_addrs d o l : bytes_ok d -> bytes_ok (store_addrs d o l).
Proof. revert d o. induction l as [|a l IH]; intros d o Hd; cbn; [done|]. by apply IH, bytes_ok_put32. Qed.

Lemma byte_at_store_addrs d o l k :
  (k < o \/ o + 4 * length l <= k)%nat -> byte_at (store_addrs d o l) k = byte_at d k.
Proof.
  revert d o. induction l as [|a l IH]; intros d o Hk; cbn [store_addrs length] in *; [done|].
  rewrite IH by lia. apply byte_at_put32. lia.
Qed.

Lemma get16_same d d' o : (forall k, (o <= k < o + 2)%nat -> byte_at d' k = byte_at d k) -> get16 d' o = get16 d o.
Proof. intros Hk. unfold get16. rewrite !Hk by lia. done. Qed.

Lemma get32_same d d' o : (forall k, (o <= k < o + 4)%nat -> byte_at d' k = byte_at d k) -> get32 d' o = get32 d o.
Proof. intros Hk. unfold get32. rewrite !Hk by lia. done. Qed.

Definition is_short (v : Z) : Prop := - 2 ^ 15 <= v < 2 ^ 15.

Lemma get16_put16 d o v : (o + 2 <= length d)%nat -> is_short v -> i16 (get16 (put16 d o v) o) = v.
Proof.
  intros Ho Hv. unfold get16, put16, is_short, i16 in *.
  repeat first [ rewrite byte_at_insert_eq by (rewrite ?length_insert; lia) | rewrite byte_at_insert_ne by lia ].
  pose proof (Z.div_mod v 256 ltac:(lia)). pose proof (Z.div_mod (v / 256) 256 ltac:(lia)).
  replace (v mod 256 + 256 * ((v / 256) mod 256) + 2 ^ 15) with (v + 2 ^ 15 + (- (v / 256 / 256)) * 2 ^ 16) by lia.
  rewrite Z.mod_add, Z.mod_small; lia.
Qed.

Lemma get32_store_addrs d o l k a :
  (o + 4 * length l <= length d)%nat -> l !! k = Some a -> 0 <= a < 2 ^ 32 -> get32 (store_addrs d o l) (o + 4 * k) = a.
Proof.
  revert d o k. induction l as [|x l IH]; intros d o k Hlen Hk Ha; [done|]. cbn [store_addrs length] in Hlen |- *.
  destruct k as [|k]; cbn in Hk.
  - simplify_eq. rewrite Nat.add_0_r. rewrite (get32_same (put32 d o a)); [apply get32_put32_eq; lia|].
    intros j Hj. apply byte_at_store_addrs. lia.
  - replace (o + 4 * Datatypes.S k)%nat with (o + 4 + 4 * k)%nat by lia. apply IH; [rewrite length_put32; lia|done|done].
Qed.

(** The values [struct dinode] can hold. *)
Record storable (nd : inode) : Prop := {
  so_type : is_short (itype nd); so_major : is_short (imajor nd); so_minor : is_short (iminor nd);
  so_nlink : is_short (inlink nd); so_size : 0 <= isize nd < 2 ^ 32;
  so_addrs : length (iaddrs nd) = 13%nat /\ Forall (fun a => 0 <= a < 2 ^ 32) (iaddrs nd)
}.

Lemma store_dinode_block d o nd : is_block d -> is_block (store_dinode d o nd).
Proof.
  intros [Hl Hb]. unfold store_dinode. split; [by rewrite length_store_addrs, length_put32, !length_put16|].
  by apply bytes_ok_store_addrs, bytes_ok_put32; repeat apply bytes_ok_put16.
Qed.

Lemma store_dinode_else d o nd k :
  length (iaddrs nd) = 13%nat -> (k < o \/ o + 64 <= k)%nat -> byte_at (store_dinode d o nd) k = byte_at d k.
Proof.
  intros Hl Hk. unfold store_dinode. rewrite byte_at_store_addrs, byte_at_put32 by lia.
  by rewrite !byte_at_put16 by lia.
Qed.

Lemma load_addrs d o l :
  length l = 13%nat -> Forall (fun a => 0 <= a < 2 ^ 32) l -> (o + 4 * 13 <= length d)%nat ->
  map (fun k => get32 (store_addrs d o l) (o + 4 * k)) (seq 0 13) = l.
Proof.
  intros Hl Ha Ho. apply list_eq. intros k. rewrite list_lookup_fmap.
  destruct (decide (k < 13)%nat) as [Hk|Hk]; [|by rewrite !lookup_ge_None_2 by (rewrite ?length_seq; lia)].
  rewrite lookup_seq_lt by done. cbn [fmap option_fmap option_map].
  destruct (lookup_lt_is_Some_2 l k) as [a Hka]; [lia|]. rewrite Hka. f_equal.
  apply get32_store_addrs; [lia|done|]. by eapply Forall_lookup in Ha.
Qed.

Lemma load_store d o nd nd0 :
  storable nd -> (o + 64 <= length d)%nat ->
  load_dinode (store_dinode d o nd) o nd0 =
    nd0 <| itype := itype nd |> <| imajor := imajor nd |> <| iminor := iminor nd |> <| inlink := inlink nd |>
        <| isize := isize nd |> <| iaddrs := iaddrs nd |>.
Proof.
  intros [Ht Hma Hmi Hn Hs [Hl Ha]] Ho. unfold load_dinode, store_dinode.
  repeat match goal with |- context [get16 (store_addrs ?d ?o' ?l) ?k] =>
    rewrite (get16_same d (store_addrs d o' l)) by (intros; apply byte_at_store_addrs; lia) end.
  rewrite (get32_same (put32 _ (o + 8) (isize nd))) by (intros; apply byte_at_store_addrs; lia).
  rewrite get32_put32_eq by (rewrite ?length_put16; lia).
  repeat first [ rewrite get16_put16 by (rewrite ?length_put16; done || lia)
    | rewrite (get16_same (put16 _ _ _) (put32 _ _ _)) by (intros; apply byte_at_put32; lia)
    | rewrite (get16_same (put16 _ _ _) (put16 _ _ _)) by (intros; apply byte_at_put16; lia) ].
  by rewrite load_addrs by (rewrite ?length_put32, ?length_put16; done || lia).
Qed.

Lemma load_same d d' o nd : (forall k, (o <= k < o + 64)%nat -> byte_at d' k = byte_at d k) ->
  load_dinode d' o nd = load_dinode d o nd.
Proof.
  intros Hk. unfold load_dinode. rewrite !(get16_same d d') by (intros; apply Hk; lia).
  rewrite (get32_same d d' (o + 8)) by (intros; apply Hk; lia).
  erewrite (map_ext_in (fun k => get32 d' _) (fun k => get32 d (o + 12 + 4 * k))); [done|].
  intros k Hin%in_seq. apply get32_same. intros j Hj. apply Hk. lia.
Qed.

(** ** [iupdate] *)

(** Inode number [i] as it is on disk, or about to be. *)
Definition dinode_at (t : fsstate) (i : Z) : inode := load_dinode (content t (IBLOCK i (sb t))) (dinode_off i) inode0.

Lemma dinode_off_range i : (dinode_off i + 64 <= 512)%nat.
Proof.
  unfold dinode_off. change DINODE_SIZE with 64. change IPB with 8. pose proof (Z.mod_pos_bound i 8 ltac:(lia)). lia.
Qed.

Lemma dinode_off_ne i j :
  0 <= i -> 0 <= j -> i <> j -> i / IPB = j / IPB ->
  (dinode_off i + 64 <= dinode_off j \/ dinode_off j + 64 <= dinode_off i)%nat.
Proof.
  unfold dinode_off. change DINODE_SIZE with 64. change IPB with 8. intros Hi Hj Hne He.
  pose proof (Z.mod_pos_bound i 8 ltac:(lia)). pose proof (Z.mod_pos_bound j 8 ltac:(lia)).
  pose proof (Z.div_mod i 8 ltac:(lia)). pose proof (Z.div_mod j 8 ltac:(lia)). lia.
Qed.

Lemma inode_block s start size i :
  layout s start size -> 0 <= i < sb_ninodes s -> sb_inodestart s <= IBLOCK i s < sb_bmapstart s.
Proof.
  intros [_ [? ?] _] Hi. unfold IBLOCK. assert (0 <= i / IPB) by (apply Z.div_pos; [lia|done]).
  assert (i / IPB <= sb_ninodes s / IPB) by (apply Z.div_le_mono; [done|lia]). lia.
Qed.

Lemma inode_block_disk s start size i :
  layout s start size -> 0 <= i < sb_ninodes s -> 0 <= IBLOCK i s < sb_size s.
Proof.
  intros Hla Hi. pose proof (inode_block _ _ _ _ Hla Hi). pose proof Hla as [? _ [? ?]]. unfold data_start in *.
  assert (0 <= sb_size s / BPB) by (apply Z.div_pos; [lia|done]). lia.
Qed.

(** The inode was stored in its block. *)
Definition dinode_stored (t : fsstate) (nd : inode) (t' : fsstate) : Prop :=
  let b := IBLOCK (inum nd) (sb t) in
  (forall m, content t' m = if m =? b then store_dinode (content t b) (dinode_off (inum nd)) nd else content t m) /\
  disk t' = disk t /\ sb t' = sb t.

Lemma dinode_stored_at t nd t' :
  dinode_stored t nd t' -> storable nd -> length (content t (IBLOCK (inum nd) (sb t))) = 512%nat ->
  dinode_at t' (inum nd) =
    inode0 <| itype := itype nd |> <| imajor := imajor nd |> <| iminor := iminor nd |> <| inlink := inlink nd |>
           <| isize := isize nd |> <| iaddrs := iaddrs nd |>.
Proof.
  intros (Hc & _ & Hs) Hst Hl. unfold dinode_at. rewrite Hs, Hc, Z.eqb_refl. apply load_store; [done|].
  rewrite Hl. apply dinode_off_range.
Qed.

Lemma dinode_stored_others t nd t' j :
  dinode_stored t nd t' -> length (iaddrs nd) = 13%nat -> 0 <= inum nd -> 0 <= j -> j <> inum nd -> dinode_at t' j = dinode_at t j.
Proof.
  intros (Hc & _ & Hs) Hl Hi Hj Hne. unfold dinode_at. rewrite Hs, Hc.
  destruct (Z.eqb_spec (IBLOCK j (sb t)) (IBLOCK (inum nd) (sb t))) as [He|]; [|done]. rewrite He.
  apply load_same. intros k Hk. apply store_dinode_else; [done|].
  pose proof (dinode_off_ne j (inum nd) Hj Hi Hne ltac:(unfold IBLOCK in He; lia)). lia.
Qed.

Lemma inode_at_eq t ip nd : inodes t !! ip = Some nd -> inode_at t ip = nd.
Proof. intros Hi. unfold inode_at. by rewrite Hi. Qed.

Section iupdate.
Context {S : Type} `{KernLaws S fsstate} `{DevSw S}.
Implicit Types (s : S) (t : fsstate) (X : stop -> Prop) (nd : inode).
Lemma wp_get_sb s L t X (Q : superblock -> S -> Prop) : at_ s L t -> Q (sb t) s -> wp get_sb X Q s.
Proof. intros Hat HQ. unfold get_sb. by do 3 mstep. Qed.

Lemma wp_get_inode s L t ip nd X (Q : inode -> S -> Prop) :
  at_ s L t -> inodes t !! ip = Some nd -> Q nd s -> wp (get_inode ip) X Q s.
Proof. intros Hat Hi HQ. unfold get_inode. do 3 mstep. by rewrite (inode_at_eq _ _ _ Hi). Qed.

Context `{OpBase} (start size : Z).
Abbreviation in_op := (in_op start size).
Abbreviation enough := (enough size).

Lemma wp_iupdate s t n ip nd X (Q : unit -> S -> Prop) :
  in_op s [] t n -> inodes t !! ip = Some nd -> idev nd = 1 -> 0 <= inum nd < sb_ninodes (sb t) ->
  enough (Datatypes.S n) 1 X ->
  (forall s' t', in_op s' [] t' (Datatypes.S n) -> dinode_stored t nd t' -> inodes t' = inodes t -> Q tt s') -> wp (iupdate ip) X Q s.
Proof using All.
  intros Hop Hin Hd Hi He HQ. pose proof (io_at _ _ _ _ _ _ Hop) as Hat. pose proof (io_layout _ _ _ _ _ _ Hop) as Hla.
  pose proof (inode_block _ _ _ _ Hla Hi) as Hb. pose proof (inode_block_disk _ _ _ _ Hla Hi) as Hbd.
  unfold iupdate. mstep. eapply wp_get_sb; [done|]. mstep. eapply wp_get_inode; [done..|]. rewrite Hd. mstep.
  eapply wp_read; [done|lia|by intros ? ? ?%not_elem_of_nil|eapply enough_le; [done|cbn; lia..]|].
  intros s1 t1 bp Hr. pose proof (rd_same _ _ _ _ _ _ _ _ _ Hr) as Hs1.
  pose proof (sm_frame _ _ Hs1) as (_ & _ & _ & Hsb1 & Hi1). pose proof (rd_op _ _ _ _ _ _ _ _ _ Hr) as Hop1.
  destruct (rd_buf _ _ _ _ _ _ _ _ _ Hr) as (c & Hc & Hbn & Hcd & _).
  mstep. eapply wp_get_inode; [by eapply io_at|by rewrite Hi1|].
  eapply wp_write_end; [done|by eapply rd_new|done| |rewrite Hbn, Hsb1; lia|eapply enough_le; [done|lia..]|].
  - rewrite Hcd. apply store_dinode_block. eapply content_block; [exact Hop|lia].
  - intros s2 t2 Hop2 Hup _. rewrite Hbn, Hcd in Hup. apply (updated_same t) in Hup as (Huc & Hud & Hus & Hui); [|done].
    by eapply HQ.
Qed.
End iupdate.
