(* ===== verification/FsMap.v ===== *)
(** * Where the bytes of a file are ([fs.c]: [bmap])

    The blocks of a file hang in a tree: thirteen addresses in the inode, the
    last three at the root of trees of blocks of 128 addresses, one, two and
    three levels deep.  A slot names an address in the tree by the index in
    the inode and the indices on the way down. *)
From Stdlib Require Import ZArith Lia.
From stdpp Require Import base list gmap strings.
From S2P Require Import Prelude Params Bytes Cstring Spinlock Proc Sched SchedInv Kern Sleeplock FsData Bio Log LogRec LogTx Fs FsBlk FsInode.
#[local] Open Scope Z_scope.
#[local] Open Scope kernel_scope.

(** ** Slots *)

Definition slot : Type := nat * list Z.

(** The levels of indirect blocks under an address of the inode. *)
Definition depth (i : nat) : nat := (i - 9)%nat.

Definition slot_ok (sl : slot) : Prop :=
  (fst sl < 13)%nat /\ (length (snd sl) <= depth (fst sl))%nat /\ Forall (fun j => 0 <= j < 128) (snd sl).

(** The slots of data blocks are those at full depth. *)
Definition leaf (sl : slot) : Prop := slot_ok sl /\ length (snd sl) = depth (fst sl).

(** The slot of block [bn] of a file. *)
Definition bn_slot (bn : Z) : slot :=
  if bn <? NDIRECT then (Z.to_nat bn, [])
  else
    let bn := bn - NDIRECT in
    if bn <? NINDIRECT then (10%nat, [bn])
    else
      let bn := bn - NINDIRECT in
      if bn <? NDINDIRECT then (11%nat, [bn / 128; bn mod 128])
      else
        let bn := bn - NDINDIRECT in
        (12%nat, [bn / (128 * 128); (bn mod (128 * 128)) / 128; (bn mod (128 * 128)) mod 128]).

Lemma bn_slot_leaf bn : 0 <= bn < MAXFILE -> leaf (bn_slot bn).
Proof.
  change MAXFILE with 2113674. intros Hbn. unfold bn_slot.
  change NDIRECT with 10. change NINDIRECT with 128. change NDINDIRECT with 16384.
  destruct (Z.ltb_spec bn 10).
  { split; [split|]; cbn; unfold depth; [lia|split; [lia|constructor]|lia]. }
  cbn zeta. destruct (Z.ltb_spec (bn - 10) 128).
  { split; [|done]. split; [cbn; lia|]. split; [done|]. repeat constructor; lia. }
  destruct (Z.ltb_spec (bn - 10 - 128) 16384).
  { split; [|done]. split; [cbn; lia|]. split; [done|].
    pose proof (Z.mod_pos_bound (bn - 10 - 128) 128 ltac:(lia)).
    pose proof (Z.div_lt_upper_bound (bn - 10 - 128) 128 128 ltac:(lia) ltac:(lia)).
    pose proof (Z.div_pos (bn - 10 - 128) 128 ltac:(lia) ltac:(lia)). repeat constructor; lia. }
  set (b := bn - 10 - 128 - 16384) in *. split; [|done]. split; [cbn; lia|]. split; [done|].
  pose proof (Z.mod_pos_bound b (128 * 128) ltac:(lia)) as Hm. set (r := b mod (128 * 128)) in *.
  pose proof (Z.mod_pos_bound r 128 ltac:(lia)).
  pose proof (Z.div_lt_upper_bound b (128 * 128) 128 ltac:(lia) ltac:(lia)).
  pose proof (Z.div_pos b (128 * 128) ltac:(lia) ltac:(lia)).
  pose proof (Z.div_lt_upper_bound r 128 128 ltac:(lia) ltac:(lia)).
  pose proof (Z.div_pos r 128 ltac:(lia) ltac:(lia)). repeat constructor; lia.
Qed.

Lemma bn_slot_inj bn bn' : 0 <= bn -> 0 <= bn' -> bn_slot bn = bn_slot bn' -> bn = bn'.
Proof.
  intros H0 H0'. unfold bn_slot.
  change NDIRECT with 10. change NINDIRECT with 128. change NDINDIRECT with 16384. cbn zeta.
  destruct (Z.ltb_spec bn 10), (Z.ltb_spec bn' 10); [intros [= ?]; lia|..].
  1,2: repeat case_match; intros [= ?]; lia.
  destruct (Z.ltb_spec (bn - 10) 128), (Z.ltb_spec (bn' - 10) 128); [intros [= ?]; lia|..].
  1,2: repeat case_match; intros [=].
  destruct (Z.ltb_spec (bn - 10 - 128) 16384), (Z.ltb_spec (bn' - 10 - 128) 16384); [|intros [=]..|].
  - intros [= Hd Hm]. pose proof (Z.div_mod (bn - 10 - 128) 128 ltac:(lia)).
    pose proof (Z.div_mod (bn' - 10 - 128) 128 ltac:(lia)). lia.
  - set (b := bn - 10 - 128 - 16384). set (b' := bn' - 10 - 128 - 16384). intros [= Hx Hy Hz].
    assert (b mod (128 * 128) = b' mod (128 * 128)) as Hm.
    { rewrite (Z.div_mod (b mod (128 * 128)) 128), (Z.div_mod (b' mod (128 * 128)) 128) by lia. congruence. }
    pose proof (Z.div_mod b (128 * 128) ltac:(lia)). pose proof (Z.div_mod b' (128 * 128) ltac:(lia)). lia.
Qed.

(** Following the indices from an address; address 0 leads nowhere. *)
Fixpoint walk (t : fsstate) (a : Z) (l : list Z) : Z :=
  match l with
  | [] => a
  | j :: l => if a =? 0 then 0 else walk t (word_at (content t a) j) l
  end.

Definition slot_addr (t : fsstate) (A : list Z) (sl : slot) : Z :=
  match A !! fst sl with Some a => walk t a (snd sl) | None => 0 end.

Lemma walk_0 t l : walk t 0 l = 0.
Proof. by destruct l. Qed.

Lemma walk_snoc t a l j :
  walk t a (l ++ [j]) = if walk t a l =? 0 then 0 else word_at (content t (walk t a l)) j.
Proof.
  revert a. induction l as [|i l IH]; intros a; cbn; [by destruct (a =? 0)|].
  destruct (a =? 0); [done|apply IH].
Qed.

Lemma slot_snoc t A i l j :
  slot_addr t A (i, l ++ [j]) =
  if slot_addr t A (i, l) =? 0 then 0 else word_at (content t (slot_addr t A (i, l))) j.
Proof. unfold slot_addr; cbn. destruct (A !! i); [apply walk_snoc|done]. Qed.

Lemma slot_ok_snoc i l j : slot_ok (i, l ++ [j]) -> slot_ok (i, l) /\ 0 <= j < 128 /\ (length l < depth i)%nat.
Proof.
  intros (Hi & Hl & Hj). cbn [fst snd] in *. rewrite length_app in Hl. cbn [length] in Hl.
  apply Forall_app in Hj as [Hj1 Hj2]. apply Forall_cons in Hj2 as [Hj2 _].
  split; [split; [done|split; [cbn [fst snd]; lia|done]]|]. split; [done|lia].
Qed.

(** ** The tree of a file *)

(** Every address in the tree is a data block in use, and no two are equal. *)
Record map_ok (t : fsstate) (A : list Z) : Prop := {
  mo_len : length A = 13%nat;
  mo_data : forall sl, slot_ok sl -> slot_addr t A sl <> 0 ->
    is_data (sb t) (slot_addr t A sl) /\ used t (slot_addr t A sl) = true;
  mo_inj : forall sl sl', slot_ok sl -> slot_ok sl' -> slot_addr t A sl <> 0 ->
    slot_addr t A sl = slot_addr t A sl' -> sl = sl'
}.

(** The indirect blocks of the file. *)
Definition index_block (t : fsstate) (A : list Z) (m : Z) : Prop :=
  exists sl, slot_ok sl /\ (length (snd sl) < depth (fst sl))%nat /\ slot_addr t A sl = m /\ m <> 0.

(** Blocks that extending the file does not write: those before the bitmap,
    and the data blocks in use, but for the indirect blocks of the file. *)
Definition untouched (t : fsstate) (A : list Z) (m : Z) : Prop :=
  0 <= m < sb_bmapstart (sb t) \/ is_data (sb t) m /\ used t m = true /\ ~ index_block t A m.

(** [grow t A sl t' A']: the slot [sl] has an address, other slots and the
    contents of other blocks are as before. *)
Record grow (t : fsstate) (A : list Z) (sl : slot) (t' : fsstate) (A' : list Z) : Prop := {
  gr_map : map_ok t' A';
  gr_slot : slot_addr t' A' sl <> 0;
  gr_others : forall sl', slot_ok sl' -> sl' <> sl -> slot_addr t' A' sl' = slot_addr t A sl';
  gr_old : slot_addr t A sl <> 0 -> slot_addr t' A' sl = slot_addr t A sl;
  gr_fresh : slot_addr t A sl = 0 ->
    content t' (slot_addr t' A' sl) = replicate (Z.to_nat BSIZE) 0 /\ used t (slot_addr t' A' sl) = false;
  gr_content : forall m, untouched t A m -> content t' m = content t m;
  gr_used : forall m, 0 <= m < sb_size (sb t) -> used t m = true -> used t' m = true;
  gr_only : forall m, 0 <= m < sb_size (sb t) -> used t' m = true ->
    used t m = true \/ m = slot_addr t' A' sl;
  gr_frame : disk t' = disk t /\ sb t' = sb t
}.

(** Only the contents of the indirect blocks decide the addresses. *)
Lemma slot_addr_same t t' A sl :
  slot_ok sl -> (forall m, index_block t A m -> content t' m = content t m) ->
  slot_addr t' A sl = slot_addr t A sl.
Proof.
  intros Hsl Hc. destruct sl as [i l]. induction l as [|j l IH] using rev_ind; [done|].
  destruct (slot_ok_snoc _ _ _ Hsl) as (Hok & Hj & Hlen). specialize (IH Hok).
  rewrite !slot_snoc, IH. destruct (Z.eqb_spec (slot_addr t A (i, l)) 0) as [|Hne]; [done|].
  rewrite Hc; [done|]. exists (i, l). done.
Qed.

Lemma map_ok_same t t' A : map_ok t A -> same_blocks t t' -> map_ok t' A.
Proof.
  intros [Hl Hd Hi] Hs. pose proof Hs as [Hc (_ & _ & _ & Hsb & _) _].
  assert (forall sl, slot_ok sl -> slot_addr t' A sl = slot_addr t A sl) as Heq.
  { intros sl Hsl. by apply slot_addr_same. }
  split; [done|..].
  - intros sl Hsl. rewrite Heq, Hsb, (used_same t t') by done. by apply Hd.
  - intros sl sl' Hsl Hsl'. rewrite !Heq by done. by apply Hi.
Qed.

Lemma grow_same t A sl t' :
  map_ok t A -> same_blocks t t' -> slot_ok sl -> slot_addr t A sl <> 0 -> grow t A sl t' A.
Proof.
  intros Hm Hs Hsl Hne. pose proof Hs as [Hc (Hd & _ & _ & Hsb & _) _].
  assert (forall sl, slot_ok sl -> slot_addr t' A sl = slot_addr t A sl) as Heq.
  { intros sl' Hsl'. by apply slot_addr_same. }
  split; try done.
  - by eapply map_ok_same.
  - by rewrite Heq.
  - intros sl' Hsl' _. by apply Heq.
  - intros _. by apply Heq.
  - intros m _. by rewrite (used_same t t').
  - intros m _ Hu. left. by rewrite <- (used_same t t').
Qed.

Lemma slot_addr_root u B i : slot_addr u B (i, []) = default 0 (B !! i).
Proof. unfold slot_addr; cbn. by destruct (B !! i). Qed.

Lemma word_at_zeros j : 0 <= j -> word_at (replicate (Z.to_nat BSIZE) 0) j = 0.
Proof.
  intros Hj. unfold word_at, get32, byte_at.
  assert (forall n k, nth k (replicate n 0) 0 = 0) as Hn.
  { intros n. induction n as [|n IH]; intros [|k]; cbn; auto. }
  by rewrite !Hn.
Qed.

(** A block [a] of zeros is put into the empty slot [sl]. *)
Lemma new_slots t t' A A' sl a sl' :
  slot_addr t A sl = 0 -> a <> 0 -> content t' a = replicate (Z.to_nat BSIZE) 0 ->
  (forall i, default 0 (A' !! i) = if decide ((i, []) = sl) then a else default 0 (A !! i)) ->
  (forall i l j, slot_ok (i, l ++ [j]) -> slot_addr t A (i, l) <> 0 ->
    word_at (content t' (slot_addr t A (i, l))) j =
    if decide ((i, l ++ [j]) = sl) then a else word_at (content t (slot_addr t A (i, l))) j) ->
  (forall i l j, (i, l ++ [j]) = sl -> slot_addr t A (i, l) <> 0) ->
  slot_ok sl' -> slot_addr t' A' sl' = if decide (sl' = sl) then a else slot_addr t A sl'.
Proof.
  intros Hempty Ha Hzero Hroot Hword Hparent. destruct sl' as [i l]. induction l as [|j l IH] using rev_ind; intros Hok.
  { by rewrite !slot_addr_root, Hroot. }
  destruct (slot_ok_snoc _ _ _ Hok) as (Hok' & Hj & _). specialize (IH Hok').
  rewrite !slot_snoc, IH. destruct (decide ((i, l) = sl)) as [Heq|Hne].
  - rewrite !(decide_True (P := (i, l) = sl)) by done. destruct (Z.eqb_spec a 0); [lia|]. rewrite Hzero, word_at_zeros by lia.
    rewrite decide_False; [by rewrite Heq, Hempty|]. intros Heq2. rewrite <- Heq in Heq2.
    injection Heq2 as Hl. apply (f_equal length) in Hl. rewrite length_app in Hl. cbn in Hl. lia.
  - rewrite !(decide_False (P := (i, l) = sl)) by done.
    destruct (Z.eqb_spec (slot_addr t A (i, l)) 0) as [H0|H0]; [|by apply Hword].
    rewrite decide_False; [done|]. intros Heq. by apply (Hparent i l j).
Qed.

(** A fresh block [a] is put into the empty slot [sl]. *)
Section fresh.
Context (t t' : fsstate) (A A' : list Z) (sl : slot) (a : Z).
Context (Hmap : map_ok t A) (Hsl : slot_ok sl) (Hempty : slot_addr t A sl = 0).
Context (Ha : is_data (sb t) a) (Hfree : used t a = false) (Hpos : 0 < a < sb_size (sb t)).
Context (Hstart : 0 <= data_start (sb t)).
Context (Hzero : content t' a = replicate (Z.to_nat BSIZE) 0).
Context (Hlen : length A' = 13%nat).
Context (Hroot : forall i, default 0 (A' !! i) = if decide ((i, []) = sl) then a else default 0 (A !! i)).
Context (Hword : forall i l j, slot_ok (i, l ++ [j]) -> slot_addr t A (i, l) <> 0 ->
  word_at (content t' (slot_addr t A (i, l))) j =
  if decide ((i, l ++ [j]) = sl) then a else word_at (content t (slot_addr t A (i, l))) j).
Context (Hparent : forall i l j, (i, l ++ [j]) = sl -> slot_addr t A (i, l) <> 0).
Context (Hcont : forall m, untouched t A m -> content t' m = content t m).
Context (Hused : forall m, 0 <= m < sb_size (sb t) -> used t' m = if m =? a then true else used t m).
Context (Hframe : disk t' = disk t /\ sb t' = sb t).

Lemma fresh_slots sl' : slot_ok sl' -> slot_addr t' A' sl' = if decide (sl' = sl) then a else slot_addr t A sl'.
Proof using All. apply new_slots; [done|lia|done..]. Qed.

Lemma grow_fresh : grow t A sl t' A'.
Proof using All.
  pose proof fresh_slots as Hs. destruct Hframe as [Hd Hsb].
  assert (slot_addr t' A' sl = a) as Hsa by (rewrite Hs by done; by rewrite decide_True).
  assert (Hold : forall sl', slot_ok sl' -> slot_addr t A sl' <> 0 -> slot_addr t A sl' <> a).
  { intros sl' Hok Hne Heq. destruct (mo_data _ _ Hmap _ Hok Hne) as [_ Hu]. congruence. }
  split; [split; [done|..]|..].
  - intros sl' Hok. rewrite Hs, Hsb by done. destruct (decide (sl' = sl)) as [->|Hne]; intros H0.
    + split; [done|]. rewrite Hused by lia. by rewrite Z.eqb_refl.
    + destruct (mo_data _ _ Hmap _ Hok H0) as [Hda Hu]. split; [done|]. rewrite Hused.
      * destruct (_ =? a); [done|by rewrite Hu].
      * unfold is_data in Hda, Ha. lia.
  - intros sl1 sl2 Hok1 Hok2. rewrite !Hs by done.
    destruct (decide (sl1 = sl)) as [->|H1], (decide (sl2 = sl)) as [->|H2]; intros H0 Heq; try done.
    + by destruct (Hold sl2); [|congruence|].
    + by destruct (Hold sl1).
    + by apply (mo_inj _ _ Hmap).
  - rewrite Hsa. lia.
  - intros sl' Hok Hne. rewrite Hs by done. by rewrite decide_False.
  - by intros [].
  - intros _. by rewrite Hsa.
  - done.
  - intros m Hm Hu. rewrite Hused, Hu by done. by destruct (m =? a).
  - intros m Hm. rewrite Hused, Hsa by done. destruct (Z.eqb_spec m a); [by right|by left].
  - done.
Qed.
End fresh.

(** *** Several steps *)

(** [grows P t A t' A']: addresses were put into slots of [P]. *)
Record grows (P : slot -> Prop) (t : fsstate) (A : list Z) (t' : fsstate) (A' : list Z) : Prop := {
  gs_map : map_ok t' A';
  gs_others : forall sl, slot_ok sl -> ~ P sl -> slot_addr t' A' sl = slot_addr t A sl;
  gs_old : forall sl, slot_ok sl -> slot_addr t A sl <> 0 -> slot_addr t' A' sl = slot_addr t A sl;
  gs_fresh : forall sl, slot_ok sl -> slot_addr t A sl = 0 -> slot_addr t' A' sl <> 0 ->
    used t (slot_addr t' A' sl) = false /\
    (leaf sl -> content t' (slot_addr t' A' sl) = replicate (Z.to_nat BSIZE) 0);
  gs_content : forall m, untouched t A m -> content t' m = content t m;
  gs_used : forall m, 0 <= m < sb_size (sb t) -> used t m = true -> used t' m = true;
  gs_only : forall m, 0 <= m < sb_size (sb t) -> used t' m = true ->
    used t m = true \/ exists sl, slot_ok sl /\ P sl /\ slot_addr t' A' sl <> 0 /\ m = slot_addr t' A' sl;
  gs_frame : disk t' = disk t /\ sb t' = sb t
}.

Lemma grow_grows (P : slot -> Prop) t A sl t' A' : grow t A sl t' A' -> slot_ok sl -> P sl -> grows P t A t' A'.
Proof.
  intros [Hm Hs Ho Hold Hf Hc Hu Hon Hfr] Hsl HP.
  assert (forall sl', sl' = sl \/ sl' <> sl) as Hdec by (intros sl'; destruct (decide (sl' = sl)); auto).
  split; try done.
  - intros sl' Hok Hn. apply Ho; [done|]. by intros ->.
  - intros sl' Hok Hne. destruct (Hdec sl') as [->|Hn]; [by apply Hold|by apply Ho].
  - intros sl' Hok H0 H1. destruct (Hdec sl') as [->|Hn]; [|by rewrite Ho in H1].
    destruct (Hf H0). by split.
  - intros m Hm' Hu'. destruct (Hon m Hm' Hu') as [| ->]; [by left|right]. by exists sl.
Qed.

Lemma leaf_untouched t A sl : map_ok t A -> leaf sl -> slot_addr t A sl <> 0 -> untouched t A (slot_addr t A sl).
Proof.
  intros Hm [Hok Hlen] Hne. destruct (mo_data _ _ Hm _ Hok Hne) as [Hd Hu]. right. split; [done|]. split; [done|].
  intros (sl' & Hok' & Hlen' & Heq & _). assert (sl = sl') as -> by (by apply (mo_inj _ _ Hm)). lia.
Qed.

Lemma untouched_grows P t A t' A' m :
  grows P t A t' A' -> (forall m, is_data (sb t) m -> 0 <= m < sb_size (sb t)) ->
  untouched t A m -> untouched t' A' m.
Proof.
  intros Hg Hr [Hm|(Hd & Hu & Hni)]; unfold untouched; pose proof (gs_frame _ _ _ _ _ Hg) as [_ ->].
  - by left.
  - right. split; [done|]. split; [by apply (gs_used _ _ _ _ _ Hg), Hu; apply Hr|].
    intros (sl & Hsl & Hlen & Ha & Hne). destruct (decide (slot_addr t A sl = 0)) as [H0|H0].
    + destruct (gs_fresh _ _ _ _ _ Hg _ Hsl H0) as [Hf _]; [by rewrite Ha|]. rewrite Ha in Hf. congruence.
    + rewrite (gs_old _ _ _ _ _ Hg _ Hsl H0) in Ha. apply Hni. by exists sl.
Qed.

Lemma grows_trans P t A t1 A1 t2 A2 :
  (forall m, is_data (sb t) m -> 0 <= m < sb_size (sb t)) ->
  grows P t A t1 A1 -> grows P t1 A1 t2 A2 -> grows P t A t2 A2.
Proof.
  intros Hr Hg1 Hg2. 
  pose proof (gs_frame _ _ _ _ _ Hg1) as [Hd1 Hs1]. pose proof (gs_frame _ _ _ _ _ Hg2) as [Hd2 Hs2].
  pose proof (gs_map _ _ _ _ _ Hg1) as Hm1. pose proof (gs_map _ _ _ _ _ Hg2) as Hm2.
  split; [done|..].
  - intros sl Hsl Hn. by rewrite (gs_others _ _ _ _ _ Hg2), (gs_others _ _ _ _ _ Hg1).
  - intros sl Hsl Hne. rewrite (gs_old _ _ _ _ _ Hg2); [by apply (gs_old _ _ _ _ _ Hg1)|done|].
    by rewrite (gs_old _ _ _ _ _ Hg1).
  - intros sl Hsl H0 H2. destruct (decide (slot_addr t1 A1 sl = 0)) as [H1|H1].
    + destruct (gs_fresh _ _ _ _ _ Hg2 _ Hsl H1 H2) as [Hf Hz]. split; [|done].
      destruct (mo_data _ _ Hm2 _ Hsl H2) as [Hda _]. rewrite Hs2, Hs1 in Hda.
      apply not_true_is_false. intros Hu. by rewrite (gs_used _ _ _ _ _ Hg1 _ (Hr _ Hda) Hu) in Hf.
    + rewrite (gs_old _ _ _ _ _ Hg2 _ Hsl H1) in *. destruct (gs_fresh _ _ _ _ _ Hg1 _ Hsl H0 H1) as [Hf Hz].
      split; [done|]. intros Hleaf. rewrite <- (Hz Hleaf). apply (gs_content _ _ _ _ _ Hg2). by apply leaf_untouched.
  - intros m Hm. rewrite (gs_content _ _ _ _ _ Hg2); [by apply (gs_content _ _ _ _ _ Hg1)|].
    by eapply untouched_grows.
  - intros m Hm Hu. apply (gs_used _ _ _ _ _ Hg2); [by rewrite Hs1|]. by apply (gs_used _ _ _ _ _ Hg1).
  - intros m Hm Hu. destruct (gs_only _ _ _ _ _ Hg2 m) as [Hu1|]; [by rewrite Hs1|done| |by right].
    destruct (gs_only _ _ _ _ _ Hg1 m Hm Hu1) as [|(sl & Hsl & HP & Hne & ->)]; [by left|right].
    exists sl. by rewrite (gs_old _ _ _ _ _ Hg2).
  - by rewrite Hd2, Hs2.
Qed.

(** ** [bmap] *)

(** [k] data blocks are free, or running out of them is allowed. *)
Definition room_for (t : fsstate) (k : nat) (X : stop -> Prop) : Prop :=
  (exists l, NoDup l /\ (k <= length l)%nat /\ Forall (fun m => is_data (sb t) m /\ used t m = false) l) \/
  X (Panic "balloc: out of blocks").

Lemma room_for_takes t t' (al : list Z) k X :
  sb t' = sb t -> (forall m, is_data (sb t) m -> m ∉ al -> used t m = false -> used t' m = false) ->
  room_for t (length al + k) X -> room_for t' k X.
Proof.
  intros Hsb Hu [(l & Hnd & Hlen & Hl)|HX]; [left|by right].
  exists (filter (fun m => m ∉ al) l). split; [by apply NoDup_filter|]. split.
  - assert (l ⊆+ al ++ filter (fun m => m ∉ al) l) as Hsub%submseteq_length.
    { apply NoDup_submseteq; [done|]. intros x Hx. apply elem_of_app.
      destruct (decide (x ∈ al)); [by left|right]. by apply list_elem_of_filter. }
    rewrite length_app in Hsub. lia.
  - apply Forall_forall. intros m [Hne Hm]%list_elem_of_filter. rewrite Forall_forall in Hl.
    destruct (Hl _ Hm) as [Hd Hf]. rewrite Hsb. split; [done|]. by apply Hu.
Qed.

Lemma room_for_take t t' a k X :
  sb t' = sb t -> (forall m, is_data (sb t) m -> m <> a -> used t m = false -> used t' m = false) ->
  room_for t (S k) X -> room_for t' k X.
Proof.
  intros Hsb Hu. apply (room_for_takes t t' [a]); [done|]. intros m Hd Hne. apply Hu; [done|]. set_solver.
Qed.

Lemma room_free t k X : room_for t (S k) X ->
  (exists m, is_data (sb t) m /\ used t m = false) \/ X (Panic "balloc: out of blocks").
Proof.
  intros [(fl & _ & Hlen & Hfl)|HX]; [left|by right]. destruct fl as [|m fl]; [cbn in Hlen; lia|].
  apply Forall_cons in Hfl as [Hfl _]. by exists m.
Qed.

Section bmap.
Context {S : Type} `{KernLaws S fsstate} `{DevSw S}.
Implicit Types (s : S) (t : fsstate) (X : stop -> Prop) (HH : list nat) (nd : inode).
Context `{OpBase} (start size : Z).
Abbreviation in_op := (in_op start size).
Abbreviation enough := (enough size).

(** The inode [ip] is cached as [nd], with its tree. *)
Record file_at (s : S) (HH : list nat) (t : fsstate) (n : nat) (ip : nat) (nd : inode) : Prop := {
  fa_op : in_op s HH t n;
  fa_inode : inodes t !! ip = Some nd;
  fa_dev : idev nd = 1;
  fa_map : map_ok t (iaddrs nd);
  fa_meta : meta_used t
}.

Lemma in_op_inode s s' HH t n f : in_op s HH t n -> at_ s' [] (t <| inodes ::= f |>) -> in_op s' HH (t <| inodes ::= f |>) n.
Proof.
  intros [_ [] (bl & [[] Hp Ho] & Hbl) Hd Hla Hq Hdi] Hat. split; [done|by split| |done|done|done|done].
  exists bl. by split; [split; [split|..]|].
Qed.

Lemma in_op_more s HH t n n' : in_op s HH t n -> (n <= n')%nat -> in_op s HH t n'.
Proof. intros [Hat Hbc (bl & Htx & Hbl) Hd Hla Hq Hdi] Hn. split; try done. exists bl. split; [done|lia]. Qed.

Lemma data_range s HH t n m : in_op s HH t n -> is_data (sb t) m -> 0 < m < sb_size (sb t).
Proof.
  intros Hop Hm. pose proof (io_layout _ _ _ _ _ _ Hop) as Hla. pose proof Hla as [[? [? ?]] [? ?] [? ?]].
  assert (0 <= sb_ninodes (sb t) / IPB) by (apply Z.div_pos; [lia|done]).
  assert (0 <= sb_size (sb t) / BPB) by (apply Z.div_pos; [lia|done]).
  unfold is_data, data_start in Hm. lia.
Qed.

Lemma data_start_nonneg s HH t n : in_op s HH t n -> 0 <= data_start (sb t).
Proof.
  intros Hop. pose proof (io_layout _ _ _ _ _ _ Hop) as [[? [? ?]] [? ?] [? ?]]. unfold data_start.
  assert (0 <= sb_ninodes (sb t) / IPB) by (apply Z.div_pos; [lia|done]).
  assert (0 <= sb_size (sb t) / BPB) by (apply Z.div_pos; [lia|done]). lia.
Qed.

Lemma data_home s HH t n m : in_op s HH t n -> is_data (sb t) m -> sb_inodestart (sb t) <= m < sb_size (sb t).
Proof.
  intros Hop Hm. pose proof (io_layout _ _ _ _ _ _ Hop) as [[? [? ?]] [? ?] [? ?]]. unfold is_data, data_start in Hm.
  assert (0 <= sb_ninodes (sb t) / IPB) by (apply Z.div_pos; [lia|done]).
  assert (0 <= sb_size (sb t) / BPB) by (apply Z.div_pos; [lia|done]). lia.
Qed.

(** What an allocation does to the rest of the disk. *)
Lemma allocated_frame s HH t n a t' :
  in_op s HH t n -> is_data (sb t) a -> used t a = false -> allocated t a t' ->
  (forall m A, untouched t A m -> content t' m = content t m) /\
  (forall m, is_data (sb t) m -> used t m = true -> content t' m = content t m) /\
  (forall m, 0 <= m < sb_size (sb t) -> used t' m = if m =? a then true else used t m) /\
  disk t' = disk t /\ sb t' = sb t /\ inodes t' = inodes t.
Proof.
  intros Hop Ha Hu Hal. pose proof (io_layout _ _ _ _ _ _ Hop) as Hla.
  assert (forall m, m <> a -> m <> BBLOCK a (sb t) -> content t' m = content t m) as Hc.
  { intros m H1' H2'. destruct Hal as [Hc _]. rewrite Hc.
    destruct (Z.eqb_spec m a); [done|]. by destruct (Z.eqb_spec m (BBLOCK a (sb t))). }
  pose proof (data_range _ _ _ _ _ Hop Ha) as Har.
  pose proof (bitmap_range _ _ _ a Hla ltac:(lia)) as Hb.
  assert (forall m, is_data (sb t) m -> used t m = true -> content t' m = content t m) as Hd.
  { intros m Hm Hum. apply Hc; [congruence|]. unfold is_data in Hm. lia. }
  split; [|split; [done|split; [|apply Hal]]].
  - intros m A [Hm|(Hm & Hum & _)]; [|by apply Hd]. apply Hc; [|lia].
    unfold is_data, data_start in *. intros ->.
    assert (0 <= sb_size (sb t) / BPB) by (apply Z.div_pos; [lia|done]). lia.
  - intros m Hm. eapply (used_allocated _ _ _ _ _ Hla); try done. intros m' Hm'. by eapply content_block.
Qed.

Definition others (ip : nat) t t' : Prop := forall j, j <> ip -> inodes t' !! j = inodes t !! j.

Lemma meta_grow s HH t n A sl t' A' : in_op s HH t n -> meta_used t -> grow t A sl t' A' -> meta_used t'.
Proof.
  intros Hop Hm Hg k Hk. pose proof (gr_frame _ _ _ _ _ Hg) as [_ Hsb]. rewrite Hsb in Hk.
  pose proof (la_bitmap _ _ _ (io_layout _ _ _ _ _ _ Hop)) as [? ?].
  apply (gr_used _ _ _ _ _ Hg); [lia|]. by apply Hm.
Qed.

(** The result of making sure that a slot has an address. *)
Definition ensured s' HH t n ip nd sl t' A' : Prop :=
  file_at s' HH t' n ip (nd <| iaddrs := A' |>) /\ grow t (iaddrs nd) sl t' A' /\ keep HH t t' /\ others ip t t'.

Lemma ensured_old s HH t n n' ip nd sl :
  file_at s HH t n ip nd -> (n <= n')%nat -> slot_ok sl -> slot_addr t (iaddrs nd) sl <> 0 ->
  ensured s HH t n' ip nd sl t (iaddrs nd).
Proof.
  intros [Hop Hi Hd Hm Hme] Hn Hsl Hne.
  assert (nd <| iaddrs := iaddrs nd |> = nd) as Heta by by destruct nd.
  split; [|split; [by apply grow_same|done]]. rewrite Heta. split; try done. by eapply in_op_more.
Qed.

Lemma wp_load_addr s HH t n ip nd i X (Q : Z -> S -> Prop) :
  file_at s HH t n ip nd -> held_used HH t -> 0 <= i < 13 ->
  enough (Datatypes.S (Datatypes.S n)) (Datatypes.S (length HH)) X -> room_for t 1 X ->
  (forall s' t' A', ensured s' HH t (Datatypes.S (Datatypes.S n)) ip nd (Z.to_nat i, []) t' A' ->
     Q (slot_addr t' A' (Z.to_nat i, [])) s') ->
  wp (load_addr ip i) X Q s.
Proof.
  intros Hfa Hh Hi He Hroom HQ. pose proof Hfa as [Hop Hin Hd Hm Hme].
  pose proof (io_at _ _ _ _ _ _ Hop) as Hat. unfold load_addr, addr_at, get_inode. do 4 mstep.
  mstep. rewrite (inode_at_eq _ _ _ Hin).
  assert (Z.to_nat i < length (iaddrs nd))%nat as Hlt by (rewrite (mo_len _ _ Hm); lia).
  destruct (lookup_lt_is_Some_2 _ _ Hlt) as [a Ha]. eapply wp_some; [done|].
  assert (slot_ok (Z.to_nat i, [])) as Hsl by (split; [cbn; lia|split; [cbn; lia|constructor]]).
  assert (slot_addr t (iaddrs nd) (Z.to_nat i, []) = a) as Hsa by (rewrite slot_addr_root, Ha; done).
  destruct (Z.eqb_spec a 0) as [->|Hne].
  2: { mstep. rewrite <- Hsa. apply HQ. eapply ensured_old; [done|lia|done|by rewrite Hsa]. }
  do 4 mstep. rewrite (inode_at_eq _ _ _ Hin), Hd. mstep.
  eapply wp_balloc; [done|done|done|done|by eapply room_free|].
  intros s1 t1 a Hop1 Hda Hua Hal Hk1. pose proof (io_at _ _ _ _ _ _ Hop1) as Hat1.
  destruct (allocated_frame _ _ _ _ _ _ Hop Hda Hua Hal) as (Hc & Hcd & Hus & Hfd & Hfs & Hfi).
  unfold set_addr, mod_inode. do 3 mstep.
  set (A' := <[Z.to_nat i := a]> (iaddrs nd)).
  set (t2 := upd_inode ip _ t1) in *.
  assert (grow t (iaddrs nd) (Z.to_nat i, []) t2 A') as Hg.
  { pose proof (data_range _ _ _ _ _ Hop Hda).
    apply (grow_fresh _ _ _ _ _ a); try done.
    - by eapply data_start_nonneg.
    - destruct Hal as [Hcc _]. change (content t1 a = replicate (Z.to_nat BSIZE) 0). by rewrite Hcc, Z.eqb_refl.
    - unfold A'. by rewrite length_insert, (mo_len _ _ Hm).
    - intros k. unfold A'. destruct (decide (k = Z.to_nat i)) as [->|Hne].
      + rewrite list_lookup_insert_eq by done. by rewrite decide_True.
      + rewrite list_lookup_insert_ne by done. rewrite decide_False; [done|]. congruence.
    - intros k l j Hok Hne. rewrite decide_False; [|intros [= _ Hl]; by destruct l].
      destruct (slot_ok_snoc _ _ _ Hok) as (Hok' & _). destruct (mo_data _ _ Hm _ Hok' Hne) as [Hx Hy].
      f_equal. by apply Hcd.
    - intros k l j [= _ Hl]. by destruct l.
    - intros m. apply Hc. }
  replace a with (slot_addr t2 A' (Z.to_nat i, [])).
  2: { rewrite slot_addr_root. unfold A'. by rewrite list_lookup_insert_eq. }
  apply HQ. split; [|split; [done|split; [done|]]].
  - split.
    + by eapply in_op_inode.
    + cbn. rewrite Hfi. rewrite list_lookup_alter_eq, Hin. reflexivity.
    + done.
    + apply Hg.
    + exact (meta_grow _ _ _ _ _ _ _ _ Hop Hme Hg).
  - intros j Hj. cbn. by rewrite list_lookup_alter_ne, Hfi.
Qed.

Lemma allocated_same t t1 a t2 : same_blocks t t1 -> allocated t1 a t2 -> allocated t a t2.
Proof.
  intros [Hc (Hd & _ & _ & Hs & Hi) _] (Hac & Had & Has & Hai). split; [|by rewrite Had, Has, Hai].
  intros m. by rewrite Hac, Hs, Hc.
Qed.

(** A word of an indirect block is filled in. *)
Section entry.
Context (s : S) (HH : list nat) (t : fsstate) (n : nat) (A : list Z) (i : nat) (l : list Z) (j a : Z).
Context (t2 t' : fsstate).
Context (Hop : in_op s HH t n) (Hm : map_ok t A) (Hsl : slot_ok (i, l ++ [j])).
Context (Hp : slot_addr t A (i, l) <> 0) (Hempty : slot_addr t A (i, l ++ [j]) = 0).
Context (Hda : is_data (sb t) a) (Hua : used t a = false) (Hsz : sb_size (sb t) < 2 ^ 32).
Context (Hal : allocated t a t2).
Context (Hup : updated t2 (slot_addr t A (i, l)) (set_word (content t (slot_addr t A (i, l))) j a) t').

Lemma entry_words k l' j' : slot_ok (k, l' ++ [j']) -> slot_addr t A (k, l') <> 0 ->
  word_at (content t' (slot_addr t A (k, l'))) j' =
  if decide ((k, l' ++ [j']) = (i, l ++ [j])) then a else word_at (content t (slot_addr t A (k, l'))) j'.
Proof using All.
  intros Hok Hne. destruct (slot_ok_snoc _ _ _ Hsl) as (Hok0 & Hj & _).
  destruct (slot_ok_snoc _ _ _ Hok) as (Hok1 & Hj' & _). destruct Hup as (Hc & _).
  destruct (allocated_frame _ _ _ _ _ _ Hop Hda Hua Hal) as (_ & Hcd & _).
  destruct (mo_data _ _ Hm _ Hok0 Hp) as [Hpd Hpu]. destruct (mo_data _ _ Hm _ Hok1 Hne) as [Hx Hy].
  pose proof (data_range _ _ _ _ _ Hop Hda). pose proof (data_range _ _ _ _ _ Hop Hpd).
  rewrite Hc. destruct (Z.eqb_spec (slot_addr t A (k, l')) (slot_addr t A (i, l))) as [Heq|Hn].
  - assert ((k, l') = (i, l)) as [= -> ->] by (by apply (mo_inj _ _ Hm)).
    assert (is_block (content t (slot_addr t A (i, l)))) as Hb by (eapply content_block; [done|lia]).
    destruct (decide (j' = j)) as [->|Hjj].
    + rewrite decide_True by done. apply word_at_set_eq; [lia|rewrite (proj1 Hb); lia|lia].
    + rewrite word_at_set_ne by lia. rewrite decide_False; [done|].
      intros [= He]. apply app_inj_2 in He as [_ [= ?]]; done.
  - rewrite decide_False; [by rewrite Hcd|]. intros [= -> He]. by apply app_inj_2 in He as [-> _].
Qed.

Lemma grow_entry : grow t A (i, l ++ [j]) t' A.
Proof using All.
  destruct (slot_ok_snoc _ _ _ Hsl) as (Hok & Hj & Hlen). pose proof Hup as (Hc & Hfd & Hfs & _).
  destruct (allocated_frame _ _ _ _ _ _ Hop Hda Hua Hal) as (Hunt & Hcd & Hus & Hfd2 & Hfs2 & _).
  destruct (mo_data _ _ Hm _ Hok Hp) as [Hpd Hpu]. pose proof entry_words as Hw.
  set (p := slot_addr t A (i, l)) in *.
  pose proof (data_range _ _ _ _ _ Hop Hda) as Har. pose proof (data_range _ _ _ _ _ Hop Hpd) as Hpr.
  pose proof (io_layout _ _ _ _ _ _ Hop) as Hla.
  apply (grow_fresh _ _ _ _ _ a); try done.
  - by eapply data_start_nonneg.
  - rewrite Hc. destruct (Z.eqb_spec a p); [congruence|]. destruct Hal as [Hac _]. by rewrite Hac, Z.eqb_refl.
  - apply (mo_len _ _ Hm).
  - intros k. rewrite decide_False; [done|]. intros [= _ Hl]. by destruct l.
  - intros k l' j' [= -> He]. by apply app_inj_2 in He as [-> _].
  - intros m Hmu. rewrite Hc. destruct (Z.eqb_spec m p) as [->|]; [|by eapply Hunt].
    destruct Hmu as [Hmu|(_ & _ & Hni)]; [|destruct Hni; by exists (i, l)].
    unfold is_data, data_start in Hpd. assert (0 <= sb_size (sb t) / BPB) by (apply Z.div_pos; [lia|done]). lia.
  - intros m Hmr. rewrite <- Hus by done. unfold used. rewrite Hfs, Hfs2, Hc.
    destruct (Z.eqb_spec (BBLOCK m (sb t)) p) as [Hb|]; [|done].
    pose proof (bitmap_range _ _ _ m Hla Hmr). unfold is_data in Hpd. lia.
  - by rewrite Hfd, Hfs.
Qed.

Lemma entry_addr : slot_addr t' A (i, l ++ [j]) = a.
Proof using All.
  pose proof grow_entry as Hg. rewrite slot_snoc. destruct (slot_ok_snoc _ _ _ Hsl) as (Hok & _ & _).
  rewrite (gr_others _ _ _ _ _ Hg _ Hok).
  - destruct (Z.eqb_spec (slot_addr t A (i, l)) 0); [done|]. rewrite entry_words by done. by rewrite decide_True.
  - intros [= He]. apply (f_equal length) in He. rewrite length_app in He. cbn in He. lia.
Qed.
End entry.

Lemma meta_same t t' : same_blocks t t' -> meta_used t -> meta_used t'.
Proof.
  intros Hs Hme m Hm. pose proof (sm_frame _ _ Hs) as (_ & _ & _ & Hsb & _). rewrite Hsb in Hm.
  rewrite (used_same t t') by done. by apply Hme.
Qed.

Lemma ensured_same s s' t t' n n' ip nd sl :
  file_at s [] t n ip nd -> in_op s' [] t' n' -> same_blocks t t' -> slot_ok sl ->
  slot_addr t (iaddrs nd) sl <> 0 ->
  ensured s' [] t n' ip nd sl t' (iaddrs nd) /\ slot_addr t' (iaddrs nd) sl = slot_addr t (iaddrs nd) sl.
Proof.
  intros [_ Hin Hd Hm Hme] Hop Hs Hsl Hne. pose proof (sm_frame _ _ Hs) as (_ & _ & _ & Hsb & Hsino).
  assert (nd <| iaddrs := iaddrs nd |> = nd) as Heta by by destruct nd. split.
  - split; [|split; [by apply grow_same|split; [by intros ? ?%not_elem_of_nil|by intros k _; rewrite Hsino]]].
    rewrite Heta. split; [done|by rewrite Hsino|done|by eapply map_ok_same|by eapply meta_same].
  - apply slot_addr_same; [done|]. intros m _. apply (sm_content _ _ Hs).
Qed.

(** The entry of the indirect block in buffer [bp] is empty: a block is
    allocated for it. *)
Lemma wp_entry_new s1 s t n ip nd i l j t1 bp c X (Q : Z -> S -> Prop) :
  let p := slot_addr t (iaddrs nd) (i, l) in
  file_at s [] t n ip nd -> slot_ok (i, l ++ [j]) -> p <> 0 -> slot_addr t (iaddrs nd) (i, l ++ [j]) = 0 ->
  enough (n + 3) 2 X -> room_for t 1 X ->
  in_op s1 [bp] t1 n -> same_blocks t t1 -> bufs t1 !! bp = Some c -> blockno c = p -> bdata c = content t p ->
  (forall s' t' A', ensured s' [] t (n + 3) ip nd (i, l ++ [j]) t' A' -> Q (slot_addr t' A' (i, l ++ [j])) s') ->
  wp (addr <~ (addr <~ balloc 1; set_data bp (fun d => set_word d j addr) ;;; log_write bp ;;; ret addr);
      brelse bp ;;; ret addr) X Q s1.
Proof.
  intros p Hfa Hsl Hp Hempty He Hroom Hop1 Hs1 Hc Hbn Hcd HQ. pose proof Hfa as [Hop Hin Hd Hm Hme].
  destruct (slot_ok_snoc _ _ _ Hsl) as (Hok & Hj & Hlen). destruct (mo_data _ _ Hm _ Hok Hp) as [Hpd Hpu]. fold p in Hpd, Hpu.
  pose proof (data_range _ _ _ _ _ Hop Hpd) as Hpr. pose proof (sm_frame _ _ Hs1) as (Hsd & _ & _ & Hss & Hsi).
  mstep. mstep. eapply wp_balloc; [done|by eapply meta_same| |by eapply enough_le; [done|cbn; lia..]| |].
  { intros ? b ->%list_elem_of_singleton Hb. simplify_eq. rewrite Hss, (used_same t t1) by done. by rewrite Hbn. }
  { destruct (room_free _ _ _ Hroom) as [(m & Hx & Hy)|]; [left|by right]. exists m. by rewrite Hss, (used_same t t1). }
  intros s2 t2 a Hop2 Hda Hua Hal Hk2. rewrite Hss in Hda. rewrite (used_same t t1) in Hua by done.
  assert (bufs t2 !! bp = Some c) as Hc2 by (rewrite Hk2; [done|set_solver]).
  apply (allocated_same _ _ _ _ Hs1) in Hal. pose proof Hal as (_ & Hfd2 & Hfs2 & Hfi2).
  pose proof (bc_data _ _ _ (io_bc _ _ _ _ _ _ Hop2) _ _ Hc2) as Hcb.
  eapply wp_write; [done|set_solver|done| |rewrite Hbn, Hfs2; by eapply data_home|by eapply enough_le; [done|cbn; lia..]|].
  { split; [rewrite length_set_word; apply Hcb|apply bytes_ok_set_word, Hcb]. }
  intros s3 t3 c3 Hop3 Hc3 Hbn3 Hbd3 Hdi3 _ Hup3. mstep. mstep.
  eapply wp_give; [done|set_solver|done|by left|]. intros s4 t4 Hop4 Hs4 _. mstep.
  rewrite Hbn, Hcd in Hup3. assert (updated t2 p (set_word (content t p) j a) t4) as Hup.
  { destruct Hup3 as (Hcc & Hcd' & Hcs & Hci). destruct Hs4 as [Hsc4 (Hsd4 & _ & _ & Hss4 & Hsi4) _].
    split; [|by rewrite Hsd4, Hss4, Hsi4]. intros m. by rewrite Hsc4, Hcc. }
  assert (sb_size (sb t) < 2 ^ 32) as Hsz.
  { destruct Hop as [_ _ (bl & Htx & _) Hdl _]. destruct Htx as [[_ _ _ Har _ _] _ _]. lia. }
  pose proof (grow_entry _ _ _ _ _ _ _ _ _ _ _ Hop Hm Hsl Hp Hempty Hda Hua Hsz Hal Hup) as Hg.
  rewrite <- (entry_addr _ _ _ _ _ _ _ _ _ _ _ Hop Hm Hsl Hp Hempty Hda Hua Hsz Hal Hup). apply HQ.
  destruct Hup as (_ & _ & _ & Hfi).
  assert (nd <| iaddrs := iaddrs nd |> = nd) as Heta by by destruct nd.
  split; [|split; [done|split; [by intros ? ?%not_elem_of_nil|by intros k _; rewrite Hfi, Hfi2]]].
  rewrite Heta. split; [eapply in_op_more; [done|lia]|by rewrite Hfi, Hfi2|done|apply Hg|].
  exact (meta_grow _ _ _ _ _ _ _ _ Hop Hme Hg).
Qed.

Lemma wp_load_entry s t n ip nd i l j X (Q : Z -> S -> Prop) :
  file_at s [] t n ip nd -> slot_ok (i, l ++ [j]) -> slot_addr t (iaddrs nd) (i, l) <> 0 ->
  enough (n + 3) 2 X -> room_for t 1 X ->
  (forall s' t' A', ensured s' [] t (n + 3) ip nd (i, l ++ [j]) t' A' -> Q (slot_addr t' A' (i, l ++ [j])) s') ->
  wp (load_entry ip (slot_addr t (iaddrs nd) (i, l)) j) X Q s.
Proof.
  intros Hfa Hsl Hp He Hroom HQ. pose proof Hfa as [Hop Hin Hd Hm Hme].
  destruct (slot_ok_snoc _ _ _ Hsl) as (Hok & _ & _). destruct (mo_data _ _ Hm _ Hok Hp) as [Hpd _].
  pose proof (data_range _ _ _ _ _ Hop Hpd) as Hpr. pose proof (io_at _ _ _ _ _ _ Hop) as Hat.
  pose proof (slot_snoc t (iaddrs nd) i l j) as Hsn. set (p := slot_addr t (iaddrs nd) (i, l)) in *.
  destruct (Z.eqb_spec p 0); [done|].
  unfold load_entry, get_inode. do 4 mstep. rewrite (inode_at_eq _ _ _ Hin), Hd. mstep.
  eapply wp_read; [done|lia|by intros ? ? ?%not_elem_of_nil|by eapply enough_le; [done|cbn; lia..]|].
  intros s1 t1 bp [Hop1 Hs1 _ (c & Hc & Hbn & Hcd & Hcl) _]. mstep.
  eapply wp_buf_data; [by eapply io_at|done|]. rewrite Hcd.
  destruct (Z.eqb_spec (word_at (content t p) j) 0) as [Hz|Hnz].
  - rewrite Hz in Hsn. by eapply wp_entry_new.
  - mstep. mstep. mstep. eapply wp_give; [done|set_solver|done|by rewrite Hbn|]. intros s2 t2 Hop2 Hs2 _. mstep.
    destruct (ensured_same s s2 t t2 n (n + 3) ip nd (i, l ++ [j])) as [Hen Heq]; try done.
    + eapply in_op_more; [done|lia].
    + by etrans.
    + by rewrite Hsn.
    + rewrite <- Hsn, <- Heq. by apply HQ.
Qed.

(** Addresses were put into slots of [P] since state [t]. *)
Definition mapped s' t n ip nd P t' A' : Prop :=
  file_at s' [] t' n ip (nd <| iaddrs := A' |>) /\ grows P t (iaddrs nd) t' A' /\ others ip t t'.

Lemma grows_refl P s HH t n ip nd : file_at s HH t n ip nd -> grows P t (iaddrs nd) t (iaddrs nd).
Proof. intros [_ _ _ Hm _]. split; try done. intros m Hm0 Hu. by left. Qed.

Lemma ensured_room s t n ip nd sl t' A' k X :
  ensured s [] t n ip nd sl t' A' -> room_for t (Datatypes.S k) X -> room_for t' k X.
Proof.
  intros ([Hop _ _ _ _] & Hg & _). pose proof (gr_frame _ _ _ _ _ Hg) as [_ Hsb].
  apply (room_for_take _ _ (slot_addr t' A' sl)); [done|]. intros m Hd Hne Hu.
  apply not_true_is_false. intros Hu'. pose proof Hd as Hd'. rewrite <- Hsb in Hd'.
  pose proof (data_range _ _ _ _ _ Hop Hd') as Hr. rewrite Hsb in Hr.
  destruct (gr_only _ _ _ _ _ Hg m ltac:(lia) Hu'); congruence.
Qed.

Lemma mapped_step s1 t n1 ip nd (P : slot -> Prop) t1 A1 s2 n2 sl t2 A2 :
  mapped s1 t n1 ip nd P t1 A1 -> slot_ok sl -> P sl ->
  ensured s2 [] t1 n2 ip (nd <| iaddrs := A1 |>) sl t2 A2 -> mapped s2 t n2 ip nd P t2 A2.
Proof.
  intros (Hf1 & Hg1 & Ho1) Hsl HP (Hf2 & Hg2 & _ & Ho2). split; [done|]. split.
  - eapply grows_trans; [|done|by eapply grow_grows].
    intros m Hm. pose proof (gs_frame _ _ _ _ _ Hg1) as [_ Hsb]. rewrite <- Hsb in Hm |- *.
    pose proof (data_range _ _ _ _ _ (fa_op _ _ _ _ _ _ Hf1) Hm). lia.
  - intros j Hj. by rewrite Ho2, Ho1.
Qed.

Lemma wp_next s t0 n ip nd (P : slot -> Prop) t A i l j r X (Q : Z -> S -> Prop) :
  mapped s t0 n ip nd P t A -> slot_ok (i, l ++ [j]) -> P (i, l ++ [j]) -> slot_addr t A (i, l) <> 0 ->
  enough (n + 3) 2 X -> room_for t (Datatypes.S r) X ->
  (forall s' t' A', mapped s' t0 (n + 3) ip nd P t' A' -> slot_addr t' A' (i, l ++ [j]) <> 0 ->
     room_for t' r X -> Q (slot_addr t' A' (i, l ++ [j])) s') ->
  wp (load_entry ip (slot_addr t A (i, l)) j) X Q s.
Proof.
  intros Hmp Hsl HP Hne He Hroom HQ. pose proof Hmp as (Hfa & _).
  change A with (iaddrs (nd <| iaddrs := A |>)).
  eapply wp_load_entry; [done|done|done|done| |].
  { destruct Hroom as [(fl & ? & ? & ?)|]; [left|by right]. exists fl. split; [done|]. split; [lia|done]. }
  intros s' t' A' Hen. apply HQ; [by eapply mapped_step| |by eapply ensured_room].
  destruct Hen as (_ & Hg & _). apply (gr_slot _ _ _ _ _ Hg).
Qed.

Lemma wp_first s n ip nd (P : slot -> Prop) t i r X (Q : Z -> S -> Prop) :
  file_at s [] t n ip nd -> 0 <= i < 13 -> P (Z.to_nat i, []) -> enough (n + 2) 1 X ->
  room_for t (Datatypes.S r) X ->
  (forall s' t' A', mapped s' t (n + 2) ip nd P t' A' -> slot_addr t' A' (Z.to_nat i, []) <> 0 ->
     room_for t' r X -> Q (slot_addr t' A' (Z.to_nat i, [])) s') ->
  wp (load_addr ip i) X Q s.
Proof.
  intros Hfa Hi HP He Hroom HQ.
  eapply wp_load_addr; [done|by intros ? ? ?%not_elem_of_nil|done|by eapply enough_le; [done|cbn; lia..]| |].
  { destruct Hroom as [(fl & ? & ? & ?)|]; [left|by right]. exists fl. split; [done|]. split; [lia|done]. }
  assert (slot_ok (Z.to_nat i, [])) as Hsl by (split; [cbn; lia|split; [cbn; lia|constructor]]).
  intros s' t' A' Hen. apply HQ; [|apply Hen|by eapply ensured_room]. destruct Hen as (Hf & Hg & _ & Ho).
  split; [|split; [by eapply grow_grows|done]]. destruct Hf as [Hop ? ? ? ?]. split; try done.
  eapply in_op_more; [done|lia].
Qed.

(** The slots on the way to [sl]. *)
Definition on_path (sl sl' : slot) : Prop := fst sl' = fst sl /\ exists k, snd sl = snd sl' ++ k.

Lemma on_path_leaf sl sl' : leaf sl -> leaf sl' -> on_path sl sl' -> sl' = sl.
Proof.
  intros [_ Hl] [_ Hl'] [Hf [k Hk]]. destruct sl as [i l], sl' as [i' l']. cbn in *. subst i'.
  subst l. rewrite length_app in Hl. destruct k; [by rewrite app_nil_r|cbn in Hl; lia].
Qed.

Lemma mapped_more s t n n' ip nd P t' A' : mapped s t n ip nd P t' A' -> (n <= n')%nat -> mapped s t n' ip nd P t' A'.
Proof. intros ([Hop ? ? ? ?] & Hg & Ho) Hn. split; [split; try done; by eapply in_op_more|done]. Qed.

(** [bmap] returns the block of slot [bn_slot bn], which it adds to the file
    if there is none, with the indirect blocks on the way. *)
Lemma wp_bmap s t n ip nd bn X (Q : Z -> S -> Prop) :
  file_at s [] t n ip nd -> 0 <= bn < MAXFILE -> enough (n + 11) 2 X -> room_for t 4 X ->
  (forall s' t' A', mapped s' t (n + 11) ip nd (on_path (bn_slot bn)) t' A' ->
     slot_addr t' A' (bn_slot bn) <> 0 -> Q (slot_addr t' A' (bn_slot bn)) s') ->
  wp (bmap ip bn) X Q s.
Proof.
  intros Hfa Hbn He Hroom HQ. pose proof (bn_slot_leaf bn Hbn) as [Hok _].
  unfold bmap. change MAXFILE with 2113674 in Hbn. unfold bn_slot in *.
  change NDIRECT with 10 in *. change NINDIRECT with 128 in *. change NDINDIRECT with 16384 in *.
  change NTINDIRECT with 2097152 in *.
  destruct (Z.ltb_spec bn 10).
  { eapply (wp_first _ n ip nd (on_path (Z.to_nat bn, [])) t bn 3); [done|lia|by split; [|exists []]|by eapply enough_le; [done|lia..]|done|].
    intros s1 t1 A1 Hm1 Hn1 _. apply HQ; [by eapply mapped_more; [done|lia]|done]. }
  cbn zeta in *. destruct (Z.ltb_spec (bn - 10) 128).
  { mstep. eapply (wp_first _ n ip nd (on_path (10%nat, [bn - 10])) t 10 3); [done|lia|by split; [|eexists]|by eapply enough_le; [done|lia..]|done|].
    intros s1 t1 A1 Hm1 Hn1 Hr1.
    eapply (wp_next _ t _ ip nd (on_path (10%nat, [bn - 10])) t1 A1 10 [] _ 2); [done|done|by split; [|exists []]|done|by eapply enough_le; [done|lia..]|done|].
    intros s2 t2 A2 Hm2 Hn2 _. apply HQ; [by eapply mapped_more; [done|lia]|done]. }
  destruct (Z.ltb_spec (bn - 10 - 128) 16384).
  { set (b := bn - 10 - 128) in *. mstep.
    eapply (wp_first _ n ip nd (on_path (11%nat, [b / 128; b mod 128])) t 11 3); [done|lia|by split; [|eexists]|by eapply enough_le; [done|lia..]|done|].
    intros s1 t1 A1 Hm1 Hn1 Hr1. mstep. apply (slot_ok_snoc 11 [b / 128] (b mod 128)) in Hok as Hok1.
    eapply (wp_next _ t _ ip nd (on_path (11%nat, [b / 128; b mod 128])) t1 A1 11 [] _ 2); [done|apply Hok1|by split; [|exists [b mod 128]]|done|by eapply enough_le; [done|lia..]|done|].
    intros s2 t2 A2 Hm2 Hn2 Hr2.
    eapply (wp_next _ t _ ip nd (on_path (11%nat, [b / 128; b mod 128])) t2 A2 11 [b / 128] _ 1); [done|done|by split; [|exists []]|done|by eapply enough_le; [done|lia..]|done|].
    intros s3 t3 A3 Hm3 Hn3 _. apply HQ; [by eapply mapped_more; [done|lia]|done]. }
  set (b := bn - 10 - 128 - 16384) in *. destruct (Z.ltb_spec b 2097152); [|lia]. mstep.
  set (j1 := b / (128 * 128)) in *. set (j2 := b mod (128 * 128) / 128) in *. set (j3 := (b mod (128 * 128)) mod 128) in *.
  eapply (wp_first _ n ip nd (on_path (12%nat, [j1; j2; j3])) t 12 3); [done|lia|by split; [|eexists]|by eapply enough_le; [done|lia..]|done|].
  intros s1 t1 A1 Hm1 Hn1 Hr1. mstep. pose proof (slot_ok_snoc 12 [j1; j2] j3 Hok) as [Hok2 _].
  pose proof (slot_ok_snoc 12 [j1] j2 Hok2) as [Hok1 _].
  eapply (wp_next _ t _ ip nd (on_path (12%nat, [j1; j2; j3])) t1 A1 12 [] _ 2); [done|apply Hok1|by split; [|exists [j2; j3]]|done|by eapply enough_le; [done|lia..]|done|].
  intros s2 t2 A2 Hm2 Hn2 Hr2. mstep.
  eapply (wp_next _ t _ ip nd (on_path (12%nat, [j1; j2; j3])) t2 A2 12 [j1] _ 1); [done|done|by split; [|exists [j3]]|done|by eapply enough_le; [done|lia..]|done|].
  intros s3 t3 A3 Hm3 Hn3 Hr3.
  eapply (wp_next _ t _ ip nd (on_path (12%nat, [j1; j2; j3])) t3 A3 12 [j1; j2] _ 0); [done|done|by split; [|exists []]|done|by eapply enough_le; [done|lia..]|done|].
  intros s4 t4 A4 Hm4 Hn4 _. apply HQ; [by eapply mapped_more; [done|lia]|done].
Qed.
End bmap.
