(* ===== verification/FsFile.v ===== *)
(** * The contents of a file ([fs.c]: [readi], [writei])

    A file is a function from offsets to bytes.  [readi] returns its values,
    and [writei] changes them in the range that is written and nowhere
    else. *)
From Stdlib Require Import ZArith Lia.
From stdpp Require Import base list gmap strings.
From S2P Require Import Prelude Params Bytes Cstring Spinlock Proc Sched SchedInv Kern Sleeplock FsData Bio Log LogRec LogTx Fs FsBlk FsInode FsMap.
#[local] Open Scope Z_scope.
#[local] Open Scope kernel_scope.

(** The byte at offset [k]; where no block is mapped there are zeros. *)
Definition file_byte (t : fsstate) (A : list Z) (k : Z) : Z :=
  let a := slot_addr t A (bn_slot (k / BSIZE)) in
  if a =? 0 then 0 else byte_at (content t a) (Z.to_nat (k mod BSIZE)).

Definition file_bytes (t : fsstate) (A : list Z) (off : Z) (n : nat) : list Z :=
  map (fun k => file_byte t A (off + Z.of_nat k)) (seq 0 n).

Lemma length_file_bytes t A off n : length (file_bytes t A off n) = n.
Proof. unfold file_bytes. by rewrite length_map, length_seq. Qed.

Lemma file_bytes_lookup t A off n i :
  file_bytes t A off n !! i = if decide (i < n)%nat then Some (file_byte t A (off + Z.of_nat i)) else None.
Proof.
  unfold file_bytes. rewrite list_lookup_fmap. case_decide.
  - by rewrite lookup_seq_lt.
  - by rewrite lookup_seq_ge by lia.
Qed.

Lemma file_bytes_app t A off n m :
  file_bytes t A off (n + m) = file_bytes t A off n ++ file_bytes t A (off + Z.of_nat n) m.
Proof.
  unfold file_bytes. rewrite seq_app, map_app. f_equal.
  replace (0 + n)%nat with (n + 0)%nat by lia. rewrite <- fmap_add_seq. etrans; [apply map_map|].
  apply map_ext. intros k. f_equal. lia.
Qed.

(** The part of a round of the copy loops: [m] bytes at offset [o] of one
    block. *)
Lemma block_part off m k :
  0 <= off -> 0 <= k < m -> m <= BSIZE - off mod BSIZE ->
  (off + k) / BSIZE = off / BSIZE /\ (off + k) mod BSIZE = off mod BSIZE + k.
Proof.
  unfold BSIZE. intros Ho Hk Hm. pose proof (Z.mod_pos_bound off 512 ltac:(lia)).
  pose proof (Z.div_mod off 512 ltac:(lia)).
  assert (off + k = (off mod 512 + k) + (off / 512) * 512) as -> by lia.
  rewrite Z.div_add, Z.mod_add by lia. rewrite (Z.div_small (off mod 512 + k)), (Z.mod_small (off mod 512 + k)) by lia. lia.
Qed.

Lemma file_bytes_block t A off m :
  0 <= off -> 0 <= m <= BSIZE - off mod BSIZE ->
  let a := slot_addr t A (bn_slot (off / BSIZE)) in
  a <> 0 -> length (content t a) = 512%nat ->
  slice (content t a) (Z.to_nat (off mod BSIZE)) (Z.to_nat m) = file_bytes t A off (Z.to_nat m).
Proof.
  intros Ho Hm a Ha Hlen. pose proof (Z.mod_pos_bound off BSIZE ltac:(done)).
  apply list_eq. intros i. rewrite lookup_slice, file_bytes_lookup. case_decide as Hi; [|done].
  destruct (block_part off m (Z.of_nat i)) as [Hd Hmod]; [done|lia|lia|].
  unfold file_byte. rewrite Hd, Hmod. fold a. destruct (Z.eqb_spec a 0); [done|].
  replace (Z.to_nat (off mod BSIZE + Z.of_nat i)) with (Z.to_nat (off mod BSIZE) + i)%nat by lia.
  assert (Z.to_nat (off mod BSIZE) + i < length (content t a))%nat as Hlt.
  { rewrite Hlen. unfold BSIZE in *. lia. }
  destruct (lookup_lt_is_Some_2 _ _ Hlt) as [x Hx]. rewrite Hx. symmetry. f_equal. by apply byte_at_lookup.
Qed.

(** The number of blocks a copy of [n - tot] bytes still touches. *)
Definition rounds (n : Z) (tot off : Z) : nat :=
  if tot <? n then Z.to_nat ((off + (n - tot) - 1) / BSIZE - off / BSIZE + 1) else 0.

Lemma rounds_start n off : 0 <= n -> 0 <= off -> (rounds n 0 off < io_fuel n)%nat.
Proof.
  intros Hn Ho. unfold rounds, io_fuel. rewrite Z.sub_0_r. destruct (Z.ltb_spec 0 n); [|lia].
  pose proof (Z.div_mod off 512 ltac:(lia)). pose proof (Z.mod_pos_bound off 512 ltac:(lia)).
  pose proof (Z.div_mod n 512 ltac:(lia)). pose proof (Z.mod_pos_bound n 512 ltac:(lia)).
  unfold BSIZE. assert ((off + n - 1) / 512 < off / 512 + n / 512 + 2) by (apply Z.div_lt_upper_bound; lia).
  assert (0 <= n / 512) by (apply Z.div_pos; lia). lia.
Qed.

Lemma rounds_next n tot off :
  0 <= off -> tot < n ->
  let m := Z.min (n - tot) (BSIZE - off mod BSIZE) in
  0 < m /\ (rounds n (tot + m) (off + m) < rounds n tot off)%nat.
Proof.
  intros Ho Hlt m. unfold BSIZE in m. pose proof (Z.mod_pos_bound off 512 ltac:(lia)).
  assert (0 < m) as Hm by lia. split; [done|]. unfold rounds, BSIZE. destruct (Z.ltb_spec tot n); [|lia].
  assert (off / 512 <= (off + (n - tot) - 1) / 512) by (apply Z.div_le_mono; lia).
  destruct (Z.ltb_spec (tot + m) n); [|lia].
  assert (m = 512 - off mod 512) as Hmm by lia.
  assert ((off + m) / 512 = off / 512 + 1) as ->.
  { pose proof (Z.div_mod off 512 ltac:(lia)). symmetry. apply Z.div_unique with 0; lia. }
  replace (off + m + (n - (tot + m)) - 1) with (off + (n - tot) - 1) by lia.
  assert (off / 512 + 1 <= (off + (n - tot) - 1) / 512); [|lia].
  apply Z.div_le_lower_bound; [lia|]. pose proof (Z.div_mod off 512 ltac:(lia)). lia.
Qed.

(** ** Reading *)

Section read.
Context {S : Type} `{KernLaws S fsstate} `{DevSw S}.
Implicit Types (s : S) (t : fsstate) (X : stop -> Prop) (nd : inode).
Abbreviation me := (my_pid (S := S) (T := fsstate)).

(** A state in which the file of the cached inode [ip] can be read: inside or
    outside an operation. *)
Record readable (s : S) (t : fsstate) (ip : nat) (nd : inode) (X : stop -> Prop) : Prop := {
  rb_at : at_ s [] t;
  rb_bc : bc_ok me [] t;
  rb_spare : (exists dl, (forall m, dirty_in t m -> m ∈ dl) /\ (length dl < NBUF)%nat) \/
    X (Panic "bget: no buffers");
  rb_inode : inodes t !! ip = Some nd;
  rb_dev : idev nd = 1;
  rb_map : map_ok t (iaddrs nd);
  rb_data : forall m, is_data (sb t) m -> 0 < m < Z.of_nat (length (disk t))
}.

Lemma readable_same s s' t t' ip nd X :
  readable s t ip nd X -> at_ s' [] t' -> bc_ok me [] t' -> same_blocks t t' -> readable s' t' ip nd X.
Proof.
  intros [_ _ Hsp Hin Hd Hm Hda] Hat Hbc Hs. pose proof (sm_frame _ _ Hs) as (Hsd & _ & _ & Hss & Hsi).
  split; [done|done| |by rewrite Hsi|done|by eapply map_ok_same|by rewrite Hss, Hsd].
  destruct Hsp as [(dl & Hdl & Hl)|]; [left|by right]. exists dl. split; [|done].
  intros m Hm'. by apply Hdl, (sm_dirty _ _ Hs).
Qed.

(** A block in a buffer. *)
Record in_buf (s : S) (t : fsstate) (a : Z) (bp : nat) (t' : fsstate) (c : buf) : Prop := {
  ib_at : at_ s [] t';
  ib_bc : bc_ok me [bp] t';
  ib_same : same_blocks t t';
  ib_buf : bufs t' !! bp = Some c;
  ib_data : blockno c = a /\ bdata c = content t a /\ (has_flag B_DIRTY c = true \/ bdata c = disk_at t' a)
}.

Lemma wp_get_block s t ip nd a X (Q : nat -> S -> Prop) :
  readable s t ip nd X -> 0 <= a < Z.of_nat (length (disk t)) ->
  (forall s' t' bp c, in_buf s' t a bp t' c -> Q bp s') -> wp (bread 1 a) X Q s.
Proof.
  intros [Hat Hbc Hsp _ _ _ _] Ha HQ.
  eapply wp_bread; [done|done|done|by intros ? ? ?%not_elem_of_nil| |].
  { destruct Hsp as [(dl & Hdl & Hl)|HX]; [left|by right]. right. exists dl. split; [done|cbn; lia]. }
  intros s' t' bp Hat' Hp. pose proof (bread_same _ _ _ _ _ _ Hp) as Hs.
  destruct Hp as [Hok _ (c & Hc & Hbn & Hcd & Hcl) _ (Hd & _) _ _].
  eapply (HQ s' t' bp c). split; try done. split; [done|]. split; [done|]. unfold disk_at. by rewrite Hd.
Qed.

Lemma wp_put_block s s0 t ip nd a bp t' c X Y (Q : unit -> S -> Prop) :
  readable s0 t ip nd X -> in_buf s t a bp t' c ->
  (forall s' t2, readable s' t2 ip nd X -> same_blocks t t2 -> Q tt s') -> wp (brelse bp) Y Q s.
Proof.
  intros Hrd [Hat Hbc Hs Hc (Hbn & Hcd & Hcl)] HQ.
  eapply (wp_brelse _ _ [bp] []); [done|done|set_solver|done|by rewrite Hbn| |].
  { intros j. split; [by intros ?%not_elem_of_nil|]. by intros [->%list_elem_of_singleton ?]. }
  intros s' t2 Hat2 Hbc2 Hcc Hf _ Hdd. assert (same_blocks t t2) as Hs2 by (etrans; [done|by split]).
  eapply (HQ s' t2); [by eapply readable_same|done].
Qed.

Lemma wp_addr_rd s t ip nd i X (Q : Z -> S -> Prop) :
  readable s t ip nd X -> 0 <= i < 13 -> slot_addr t (iaddrs nd) (Z.to_nat i, []) <> 0 ->
  Q (slot_addr t (iaddrs nd) (Z.to_nat i, [])) s -> wp (load_addr ip i) X Q s.
Proof.
  intros [Hat _ _ Hin _ Hm _] Hi Hne HQ. unfold load_addr, addr_at, get_inode. do 5 mstep.
  rewrite (inode_at_eq _ _ _ Hin). rewrite slot_addr_root in *.
  destruct (iaddrs nd !! Z.to_nat i) as [a|] eqn:Ha; [|done]. cbn in *. eapply wp_some; [done|].
  destruct (Z.eqb_spec a 0); [done|]. by mstep.
Qed.

Lemma wp_entry_rd s t ip nd i l j X (Q : Z -> S -> Prop) :
  readable s t ip nd X -> slot_ok (i, l ++ [j]) -> slot_addr t (iaddrs nd) (i, l ++ [j]) <> 0 ->
  (forall s' t', readable s' t' ip nd X -> same_blocks t t' -> Q (slot_addr t (iaddrs nd) (i, l ++ [j])) s') ->
  wp (load_entry ip (slot_addr t (iaddrs nd) (i, l)) j) X Q s.
Proof.
  intros Hrd Hsl Hne HQ. pose proof Hrd as [Hat _ _ Hin Hd Hm Hda].
  destruct (slot_ok_snoc _ _ _ Hsl) as (Hok & _ & _). rewrite slot_snoc in *.
  destruct (Z.eqb_spec (slot_addr t (iaddrs nd) (i, l)) 0) as [|Hp]; [done|].
  destruct (mo_data _ _ Hm _ Hok Hp) as [Hpd _]. pose proof (Hda _ Hpd).
  unfold load_entry, get_inode. do 4 mstep. rewrite (inode_at_eq _ _ _ Hin), Hd. mstep.
  eapply wp_get_block; [done|lia|]. intros s1 t1 bp c Hib. mstep.
  eapply wp_buf_data; [by eapply ib_at|by eapply ib_buf|].
  destruct (ib_data _ _ _ _ _ _ Hib) as (_ & -> & _). mstep.
  destruct (Z.eqb_spec (word_at (content t (slot_addr t (iaddrs nd) (i, l))) j) 0); [done|].
  do 2 mstep. eapply wp_put_block; [done|done|]. intros s2 t2 Hrd2 Hs2. mstep. by eapply HQ.
Qed.

Lemma slot_same t0 t A sl : same_blocks t0 t -> slot_ok sl -> slot_addr t A sl = slot_addr t0 A sl.
Proof. intros Hs Hsl. apply slot_addr_same; [done|]. intros m _. apply (sm_content _ _ Hs). Qed.

(** The same, with the addresses as they were in an earlier state. *)
Lemma wp_entry_rd' s t0 t ip nd i l j X (Q : Z -> S -> Prop) :
  readable s t ip nd X -> same_blocks t0 t -> slot_ok (i, l ++ [j]) ->
  slot_addr t0 (iaddrs nd) (i, l ++ [j]) <> 0 ->
  (forall s' t', readable s' t' ip nd X -> same_blocks t0 t' -> Q (slot_addr t0 (iaddrs nd) (i, l ++ [j])) s') ->
  wp (load_entry ip (slot_addr t0 (iaddrs nd) (i, l)) j) X Q s.
Proof.
  intros Hrd Hs Hsl Hne HQ. destruct (slot_ok_snoc _ _ _ Hsl) as (Hok & _ & _).
  rewrite <- (slot_same t0 t) by done. rewrite <- (slot_same t0 t) in Hne by done.
  eapply wp_entry_rd; [done..|]. intros s' t' Hrd' Hs'. rewrite (slot_same t0 t) by done.
  eapply HQ; [done|by etrans].
Qed.

(** An address on the way to a mapped block is not 0. *)
Lemma slot_prefix t A i l j : slot_addr t A (i, l ++ [j]) <> 0 -> slot_addr t A (i, l) <> 0.
Proof. rewrite slot_snoc. by destruct (Z.eqb_spec (slot_addr t A (i, l)) 0). Qed.

Lemma wp_bmap_rd s t ip nd bn X (Q : Z -> S -> Prop) :
  readable s t ip nd X -> 0 <= bn < MAXFILE -> slot_addr t (iaddrs nd) (bn_slot bn) <> 0 ->
  (forall s' t', readable s' t' ip nd X -> same_blocks t t' -> Q (slot_addr t (iaddrs nd) (bn_slot bn)) s') ->
  wp (bmap ip bn) X Q s.
Proof.
  intros Hrd Hbn Hne HQ. pose proof (bn_slot_leaf bn Hbn) as [Hok _].
  unfold bmap. change MAXFILE with 2113674 in Hbn. unfold bn_slot in *.
  change NDIRECT with 10 in *. change NINDIRECT with 128 in *. change NDINDIRECT with 16384 in *.
  change NTINDIRECT with 2097152 in *.
  destruct (Z.ltb_spec bn 10); [eapply wp_addr_rd; [done|lia|done|by eapply HQ]|].
  cbn zeta in *. destruct (Z.ltb_spec (bn - 10) 128).
  { pose proof (slot_prefix _ _ 10 [] _ Hne). mstep. eapply wp_addr_rd; [done|lia|done|].
    by eapply (wp_entry_rd' _ t t ip nd 10 []). }
  destruct (Z.ltb_spec (bn - 10 - 128) 16384).
  { set (b := bn - 10 - 128) in *. pose proof (slot_prefix _ _ 11 [b / 128] _ Hne) as Hp2.
    pose proof (slot_prefix _ _ 11 [] _ Hp2) as Hp1. pose proof (slot_ok_snoc 11 [b / 128] _ Hok) as [Hok2 _].
    mstep. eapply wp_addr_rd; [done|lia|done|]. mstep.
    eapply (wp_entry_rd' _ t t ip nd 11 []); [done|done|done|done|]. intros s1 t1 Hrd1 Hs1.
    by eapply (wp_entry_rd' _ t t1 ip nd 11 [b / 128]). }
  set (b := bn - 10 - 128 - 16384) in *. destruct (Z.ltb_spec b 2097152); [|lia].
  set (j1 := b / (128 * 128)) in *. set (j2 := b mod (128 * 128) / 128) in *. set (j3 := (b mod (128 * 128)) mod 128) in *.
  pose proof (slot_prefix _ _ 12 [j1; j2] _ Hne) as Hp3. pose proof (slot_prefix _ _ 12 [j1] _ Hp3) as Hp2.
  pose proof (slot_prefix _ _ 12 [] _ Hp2) as Hp1. pose proof (slot_ok_snoc 12 [j1; j2] _ Hok) as [Hok2 _].
  pose proof (slot_ok_snoc 12 [j1] _ Hok2) as [Hok1 _].
  mstep. eapply wp_addr_rd; [done|lia|done|]. mstep.
  eapply (wp_entry_rd' _ t t ip nd 12 []); [done|done|done|done|]. intros s1 t1 Hrd1 Hs1. mstep.
  eapply (wp_entry_rd' _ t t1 ip nd 12 [j1]); [done|done|done|done|]. intros s2 t2 Hrd2 Hs2.
  by eapply (wp_entry_rd' _ t t2 ip nd 12 [j1; j2]).
Qed.

Lemma file_bytes_same t t' A off n :
  same_blocks t t' -> 0 <= off -> off + Z.of_nat n <= MAXFILE * BSIZE -> file_bytes t' A off n = file_bytes t A off n.
Proof.
  intros Hs Ho Hn. apply list_eq. intros i. rewrite !file_bytes_lookup. case_decide; [|done].
  f_equal. unfold file_byte. rewrite (slot_same t t'), (sm_content _ _ Hs); [done|done|].
  apply bn_slot_leaf. split; [apply Z.div_pos; [lia|done]|]. apply Z.div_lt_upper_bound; [done|]. lia.
Qed.

(** Every block below the size is mapped. *)
Definition no_holes t nd : Prop :=
  forall k, 0 <= k < isize nd -> slot_addr t (iaddrs nd) (bn_slot (k / BSIZE)) <> 0.

Lemma content_block_rd s t ip nd X a : readable s t ip nd X -> is_data (sb t) a -> length (content t a) = 512%nat.
Proof.
  intros [_ Hbc _ _ _ _ Hda] Ha. pose proof (Hda _ Ha).
  destruct (content_cases _ _ _ a Hbc) as [(i & b & Hb & _ & ->)|[_ ->]].
  - by apply (bc_data _ _ _ Hbc _ _ Hb).
  - apply (disk_at_block _ _ _ _ Hbc). lia.
Qed.

Lemma wp_readi s t ip nd off n X (Q : Z * list Z -> S -> Prop) :
  readable s t ip nd X -> itype nd <> T_DEV -> no_holes t nd -> 0 <= isize nd <= MAXFILE * BSIZE ->
  0 <= off <= isize nd -> 0 <= n -> off + n < 2 ^ 32 ->
  (forall s' t', let m := Z.min n (isize nd - off) in
     readable s' t' ip nd X -> same_blocks t t' -> Q (m, file_bytes t (iaddrs nd) off (Z.to_nat m)) s') ->
  wp (readi ip off n) X Q s.
Proof.
  intros Hrd Hty Hnh Hsz Ho Hn Hmax HQ. pose proof Hrd as [Hat _ _ Hin Hd _ _].
  unfold readi, get_inode. do 4 mstep. rewrite (inode_at_eq _ _ _ Hin).
  destruct (Z.eqb_spec (itype nd) T_DEV); [done|]. rewrite u32_small by lia.
  destruct (Z.ltb_spec (isize nd) off); [lia|]. destruct (Z.ltb_spec (off + n) off); [lia|]. cbn [orb].
  set (n' := if isize nd <? off + n then isize nd - off else n).
  assert (n' = Z.min n (isize nd - off)) as Hn'.
  { unfold n'. destruct (Z.ltb_spec (isize nd) (off + n)); lia. }
  clearbody n'. subst n'. set (m := Z.min n (isize nd - off)) in *. cbn zeta. mstep.
  apply wp_loop with
    (I := fun '(tot, o, dst) s' => exists t', readable s' t' ip nd X /\ same_blocks t t' /\ 0 <= tot <= m /\
       o = off + tot /\ dst = file_bytes t (iaddrs nd) off (Z.to_nat tot))
    (var := fun '(tot, o, _) _ => rounds m tot o).
  - exists t. split; [done|]. split; [done|]. split; [lia|]. split; [lia|done].
  - apply rounds_start; lia.
  - intros [[tot o] dst] s1 (t1 & Hrd1 & Hs1 & Ht & -> & ->).
    destruct (Z.ltb_spec tot m) as [Hlt|Hge].
    2: { mstep. mstep. replace tot with m by lia. by eapply HQ. }
    destruct (rounds_next m tot (off + tot) ltac:(lia) Hlt) as [Hpos Hvar].
    set (k := Z.min (m - tot) (BSIZE - (off + tot) mod BSIZE)) in *.
    pose proof (Hnh (off + tot) ltac:(lia)) as Hne.
    assert (0 <= (off + tot) / BSIZE < MAXFILE) as Hbn.
    { split; [apply Z.div_pos; [lia|done]|]. apply Z.div_lt_upper_bound; [done|]. lia. }
    pose proof (bn_slot_leaf _ Hbn) as [Hok _].
    mstep. eapply (wp_bmap_rd _ t1); [done|done|by rewrite (slot_same t t1)|].
    intros s2 t2 Hrd2 Hs2. rewrite (slot_same t t1) by done. set (a := slot_addr t (iaddrs nd) _) in *.
    assert (is_data (sb t) a) as Hda by (by eapply mo_data; [by eapply rb_map|..]).
    pose proof (rb_data _ _ _ _ _ Hrd _ Hda) as Har.
    assert (same_blocks t t2) as Hs02 by by etrans.
    pose proof (sm_frame _ _ Hs02) as (Hd2 & _).
    mstep. rewrite Hd. eapply wp_get_block; [done|rewrite Hd2; lia|]. intros s3 t3 bp c Hib. mstep.
    eapply wp_buf_data; [by eapply ib_at|by eapply ib_buf|].
    destruct (ib_data _ _ _ _ _ _ Hib) as (_ & Hcd & _). rewrite Hcd, (sm_content _ _ Hs02).
    cbn zeta. mstep. eapply wp_put_block; [done|done|]. intros s4 t4 Hrd4 Hs4. mstep.
    split; [|done]. exists t4. split; [done|]. split; [by etrans|]. split; [lia|]. split; [lia|].
    rewrite (Z2Nat.inj_add tot k), file_bytes_app, Z2Nat.id by lia. f_equal.
    apply file_bytes_block; [lia|lia|done|]. by eapply content_block_rd.
Qed.
End read.

(** ** Writing *)

(** Blocks that belong to no slot of the file. *)
Definition foreign (t : fsstate) (A : list Z) (m : Z) : Prop :=
  0 <= m < sb_bmapstart (sb t) \/
  is_data (sb t) m /\ used t m = true /\ forall sl, slot_ok sl -> slot_addr t A sl <> m.

(** [wrote P t A g t' A']: the bytes of [g] were written to the file, which
    may have got blocks in the slots [P]; nothing else changed. *)
Record wrote (P : slot -> Prop) (t : fsstate) (A : list Z) (g : Z -> option Z) (t' : fsstate) (A' : list Z) : Prop := {
  wr_map : map_ok t' A';
  wr_bytes : forall k, 0 <= k < MAXFILE * BSIZE -> file_byte t' A' k = default (file_byte t A k) (g k);
  wr_mapped : forall k, 0 <= k < MAXFILE * BSIZE -> is_Some (g k) -> slot_addr t' A' (bn_slot (k / BSIZE)) <> 0;
  wr_only : forall sl, slot_ok sl -> ~ P sl -> slot_addr t' A' sl = slot_addr t A sl;
  wr_old : forall sl, slot_ok sl -> slot_addr t A sl <> 0 -> slot_addr t' A' sl = slot_addr t A sl;
  wr_fresh : forall sl, slot_ok sl -> slot_addr t A sl = 0 -> slot_addr t' A' sl <> 0 ->
    used t (slot_addr t' A' sl) = false;
  wr_foreign : forall m, foreign t A m -> content t' m = content t m;
  wr_used : forall m, 0 <= m < sb_size (sb t) -> used t m = true -> used t' m = true;
  wr_frame : disk t' = disk t /\ sb t' = sb t
}.

Definition data_pos (t : fsstate) : Prop := forall m, is_data (sb t) m -> 0 < m < sb_size (sb t).

Lemma block_of_offset k : 0 <= k < MAXFILE * BSIZE -> leaf (bn_slot (k / BSIZE)).
Proof.
  intros Hk. apply bn_slot_leaf. split; [apply Z.div_pos; [lia|done]|]. apply Z.div_lt_upper_bound; [done|]. lia.
Qed.

Lemma foreign_wrote P t A g t' A' m : data_pos t -> wrote P t A g t' A' -> foreign t A m -> foreign t' A' m.
Proof.
  intros Hp Hw [Hm|(Hd & Hu & Hn)]; unfold foreign; pose proof (wr_frame _ _ _ _ _ _ Hw) as [_ ->]; [by left|right].
  split; [done|]. pose proof (Hp _ Hd). split; [apply (wr_used _ _ _ _ _ _ Hw); [lia|done]|].
  intros sl Hsl Heq. destruct (decide (slot_addr t A sl = 0)) as [H0|H0].
  - pose proof (wr_fresh _ _ _ _ _ _ Hw _ Hsl H0) as Hf. rewrite Heq in Hf. rewrite Hf in Hu; [done|lia].
  - rewrite (wr_old _ _ _ _ _ _ Hw _ Hsl H0) in Heq. by apply (Hn sl).
Qed.

Lemma wrote_trans P t A g t1 A1 g' t2 A2 :
  data_pos t -> wrote P t A g t1 A1 -> wrote P t1 A1 g' t2 A2 ->
  wrote P t A (fun k => match g' k with Some b => Some b | None => g k end) t2 A2.
Proof.
  intros Hp Hw1 Hw2. pose proof (wr_frame _ _ _ _ _ _ Hw1) as [Hd1 Hs1]. pose proof (wr_frame _ _ _ _ _ _ Hw2) as [Hd2 Hs2].
  split.
  - by apply (wr_map _ _ _ _ _ _ Hw2).
  - intros k Hk. rewrite (wr_bytes _ _ _ _ _ _ Hw2), (wr_bytes _ _ _ _ _ _ Hw1) by done. by destruct (g' k).
  - intros k Hk Hg. destruct (g' k) eqn:Hg'; [apply (wr_mapped _ _ _ _ _ _ Hw2); [done|by rewrite Hg']|].
    pose proof (wr_mapped _ _ _ _ _ _ Hw1 _ Hk Hg). rewrite (wr_old _ _ _ _ _ _ Hw2); [done|by apply block_of_offset|done].
  - intros sl Hsl Hn. rewrite (wr_only _ _ _ _ _ _ Hw2) by done. by apply (wr_only _ _ _ _ _ _ Hw1).
  - intros sl Hsl Hne. rewrite (wr_old _ _ _ _ _ _ Hw2); [by apply (wr_old _ _ _ _ _ _ Hw1)|done|].
    by rewrite (wr_old _ _ _ _ _ _ Hw1).
  - intros sl Hsl H0 H2. destruct (decide (slot_addr t1 A1 sl = 0)) as [H1|H1].
    + pose proof (wr_fresh _ _ _ _ _ _ Hw2 _ Hsl H1 H2) as Hf. apply not_true_is_false. intros Hu.
      destruct (mo_data _ _ (wr_map _ _ _ _ _ _ Hw2) _ Hsl H2) as [Hda _]. rewrite Hs2, Hs1 in Hda.
      pose proof (Hp _ Hda). rewrite (wr_used _ _ _ _ _ _ Hw1) in Hf; [done|lia|done].
    + rewrite (wr_old _ _ _ _ _ _ Hw2 _ Hsl H1) in *. by apply (wr_fresh _ _ _ _ _ _ Hw1).
  - intros m Hm. rewrite (wr_foreign _ _ _ _ _ _ Hw2); [by apply (wr_foreign _ _ _ _ _ _ Hw1)|].
    by eapply foreign_wrote.
  - intros m Hm Hu. apply (wr_used _ _ _ _ _ _ Hw2); [by rewrite Hs1|]. by apply (wr_used _ _ _ _ _ _ Hw1).
  - by rewrite Hd2, Hs2.
Qed.

(** Growing the file does not change what it contains. *)
Lemma grows_wrote P t A t' A' : map_ok t A -> grows P t A t' A' -> wrote P t A (fun _ => None) t' A'.
Proof.
  intros Hmt [Hm Ho Hold Hf Hc Hu Hon Hfr]. split; try done.
  - intros k Hk. pose proof (block_of_offset k Hk) as Hleaf. pose proof Hleaf as [Hok _]. unfold file_byte. cbn.
    set (sl := bn_slot (k / BSIZE)) in *. destruct (Z.eqb_spec (slot_addr t A sl) 0) as [H0|H0].
    + destruct (Z.eqb_spec (slot_addr t' A' sl) 0) as [|H1]; [done|].
      destruct (Hf _ Hok H0 H1) as [_ Hz]. rewrite Hz by done. unfold byte_at.
      assert (forall n i, nth i (replicate n 0) 0 = 0) as Hn; [|by rewrite Hn].
      intros n. induction n as [|n IH]; intros [|i]; cbn; auto.
    + rewrite (Hold _ Hok H0). destruct (Z.eqb_spec (slot_addr t A sl) 0); [done|].
      rewrite Hc; [done|]. by apply leaf_untouched.
  - intros sl Hok H0 H1. by destruct (Hf _ Hok H0 H1).
  - intros m [Hm'|(Hd & Hu' & Hn)]; apply Hc; [by left|right]. split; [done|]. split; [done|].
    intros (sl & Hok & _ & Heq & _). by apply (Hn sl).
Qed.

(** ** One block *)

Lemma wrote_sub (P P' : slot -> Prop) t A g g' t' A' :
  (forall sl, P sl -> P' sl) ->
  (forall k, 0 <= k < MAXFILE * BSIZE -> default (file_byte t A k) (g k) = default (file_byte t A k) (g' k)) ->
  (forall k, is_Some (g' k) -> is_Some (g k)) -> wrote P t A g t' A' -> wrote P' t A g' t' A'.
Proof.
  intros HP Hg Hgg [Hm Hb Hmp Ho ? ? ? ? ?]. split; try done.
  - intros k Hk. by rewrite <- Hg, Hb.
  - intros k Hk Hk'. apply Hmp; [done|by apply Hgg].
  - intros sl Hsl Hn. apply Ho; [done|]. intros ?. by apply Hn, HP.
Qed.

Section leaf.
Context (t t' : fsstate) (A : list Z) (bn start size : Z) (d : list Z).
Context (Hla : layout (sb t) start size) (Hm : map_ok t A) (Hbn : 0 <= bn < MAXFILE).
Let a := slot_addr t A (bn_slot bn).
Context (Ha : a <> 0) (Hup : updated t a d t').

Lemma leaf_data : is_data (sb t) a /\ used t a = true.
Proof using Hm Hbn Ha. apply (mo_data _ _ Hm); [|done]. by apply bn_slot_leaf. Qed.

Lemma leaf_slot sl : slot_ok sl -> slot_addr t' A sl = slot_addr t A sl.
Proof using Hm Hbn Ha Hup.
  intros Hsl. apply slot_addr_same; [done|]. intros m (sl' & Hok & Hlen & Heq & Hne). rewrite (proj1 Hup).
  destruct (Z.eqb_spec m a) as [->|]; [|done]. pose proof (bn_slot_leaf bn Hbn) as [Hok' Hlen'].
  assert (bn_slot bn = sl') as <- by (by apply (mo_inj _ _ Hm)). lia.
Qed.

Lemma leaf_used m : 0 <= m < sb_size (sb t) -> used t' m = used t m.
Proof using Hla Hm Hbn Ha Hup.
  intros Hr. destruct Hup as (Hc & _ & Hs & _). unfold used. rewrite Hs, Hc.
  pose proof (bitmap_range _ _ _ m Hla Hr). destruct leaf_data as [Hda _]. unfold is_data in Hda.
  by destruct (Z.eqb_spec (BBLOCK m (sb t)) a); [lia|].
Qed.

Lemma leaf_map : map_ok t' A.
Proof using Hla Hm Hbn Ha Hup.
  pose proof Hup as (_ & _ & Hs & _). split; [by apply (mo_len _ _ Hm)|..].
  - intros sl Hsl. rewrite leaf_slot, Hs by done. intros Hne. destruct (mo_data _ _ Hm _ Hsl Hne) as [Hd Hu].
    split; [done|]. rewrite leaf_used; [done|]. by apply (data_nonneg _ _ start size).
  - intros sl sl' Hsl Hsl'. rewrite !leaf_slot by done. by apply (mo_inj _ _ Hm).
Qed.

Lemma leaf_wrote P :
  wrote P t A (fun k => if k / BSIZE =? bn then Some (byte_at d (Z.to_nat (k mod BSIZE))) else None) t' A.
Proof using Hla Hm Hbn Ha Hup.
  pose proof Hup as (Hc & Hd & Hs & _). split; [by apply leaf_map|..].
  - intros k Hk. pose proof (block_of_offset k Hk) as [Hok _]. unfold file_byte. rewrite leaf_slot, Hc by done.
    destruct (Z.eqb_spec (k / BSIZE) bn) as [->|Hne]; fold a.
    + destruct (Z.eqb_spec a 0); [done|]. by rewrite Z.eqb_refl.
    + cbn. destruct (Z.eqb_spec (slot_addr t A (bn_slot (k / BSIZE))) 0) as [|H0]; [done|].
      destruct (Z.eqb_spec (slot_addr t A (bn_slot (k / BSIZE))) a) as [Heq|]; [|done]. destruct Hne.
      apply bn_slot_inj; [apply Z.div_pos; [lia|done]|lia|].
      apply (mo_inj _ _ Hm); [done|by apply bn_slot_leaf|done|done].
  - intros k Hk. destruct (Z.eqb_spec (k / BSIZE) bn) as [->|]; [|by intros [? ?]]. intros _.
    rewrite leaf_slot; [done|by apply bn_slot_leaf].
  - intros sl Hsl _. by apply leaf_slot.
  - intros sl Hsl _. by apply leaf_slot.
  - intros sl Hsl H0. by rewrite leaf_slot.
  - intros m Hf. rewrite Hc. destruct (Z.eqb_spec m a) as [->|]; [|done].
    destruct leaf_data as [Hda _]. destruct Hf as [Hf|(_ & _ & Hn)].
    + unfold is_data, data_start in Hda. pose proof Hla as [_ _ [? _]].
      assert (0 <= sb_size (sb t) / BPB) by (apply Z.div_pos; [lia|done]). lia.
    + destruct (Hn (bn_slot bn)); [by apply bn_slot_leaf|done].
  - intros m Hr. by rewrite leaf_used.
  - done.
Qed.
End leaf.

(** The bytes [src] at offset [off]. *)
Definition at_off (off : Z) (src : list Z) (k : Z) : option Z :=
  if off <=? k then src !! Z.to_nat (k - off) else None.

(** Part of one block. *)
Lemma splice_wrote P t t' A start size off src :
  layout (sb t) start size -> map_ok t A ->
  0 <= off -> 0 < Z.of_nat (length src) <= BSIZE - off mod BSIZE -> off / BSIZE < MAXFILE ->
  let a := slot_addr t A (bn_slot (off / BSIZE)) in
  a <> 0 -> length (content t a) = 512%nat ->
  updated t a (splice (content t a) (Z.to_nat (off mod BSIZE)) src) t' ->
  wrote P t A (at_off off src) t' A.
Proof.
  intros Hla Hm Ho Hl Hb a Ha Hlen Hup. pose proof (Z.div_pos off BSIZE Ho ltac:(done)) as Hb0.
  eapply wrote_sub; [by intros sl Hsl| | |by eapply (leaf_wrote t t' A (off / BSIZE))]; cbn beta.
  2: { intros k Hk. unfold at_off in Hk. destruct (Z.leb_spec off k); [|by destruct Hk].
    apply lookup_lt_is_Some in Hk. pose proof (block_part off (Z.of_nat (length src)) (k - off)) as [Hq _]; [lia..|].
    replace (off + (k - off)) with k in Hq by lia. by rewrite Hq, Z.eqb_refl. }
  intros k Hk.
  pose proof (Z.mod_pos_bound off BSIZE ltac:(done)) as Hom. pose proof (Z.mod_pos_bound k BSIZE ltac:(done)) as Hkm.
  pose proof (Z.div_mod off BSIZE ltac:(done)) as Hod. pose proof (Z.div_mod k BSIZE ltac:(done)) as Hkd.
  change BSIZE with 512 in *. unfold at_off. destruct (Z.eqb_spec (k / 512) (off / 512)) as [He|Hne].
  - assert (file_byte t A k = default 0 (content t a !! Z.to_nat (k mod 512))) as Hold.
    { unfold file_byte. change BSIZE with 512. rewrite He. fold a. destruct (Z.eqb_spec a 0); [done|].
      apply nth_lookup. }
    unfold byte_at. rewrite nth_lookup, lookup_splice by lia. cbn. destruct (Z.leb_spec off k) as [Hle|Hlt].
    + case_decide as Hd; [|by rewrite (lookup_ge_None_2 src) by lia].
      replace (Z.to_nat (k - off)) with (Z.to_nat (k mod 512) - Z.to_nat (off mod 512))%nat by lia.
      by destruct (lookup_lt_is_Some_2 src (Z.to_nat (k mod 512) - Z.to_nat (off mod 512))) as [x ->]; [lia|].
    + by rewrite decide_False by lia.
  - destruct (Z.leb_spec off k) as [Hle|Hlt]; [|done]. rewrite lookup_ge_None_2; [done|].
    assert (off / 512 <= k / 512) by (apply Z.div_le_mono; lia). lia.
Qed.

(** The slots on the way to a block. *)
Definition path_of (sl : slot) : list slot := map (fun j => (fst sl, take j (snd sl))) (seq 0 (S (length (snd sl)))).

Lemma elem_path_of sl sl' : on_path sl sl' -> sl' ∈ path_of sl.
Proof.
  intros [Hf [k Hk]]. destruct sl as [i l], sl' as [i' l']. cbn [fst snd] in *. subst i' l.
  unfold path_of. apply list_elem_of_In, in_map_iff. exists (length l'). cbn [fst snd]. rewrite take_app_length.
  split; [done|]. apply in_seq. rewrite length_app. lia.
Qed.

Lemma length_path_of sl : leaf sl -> (length (path_of sl) <= 4)%nat.
Proof.
  intros [(Hi & _ & _) Hl]. unfold path_of. rewrite length_map, length_seq, Hl. unfold depth. lia.
Qed.

Lemma room_le t k k' X : room_for t k X -> (k' <= k)%nat -> room_for t k' X.
Proof. intros [(l & ? & ? & ?)|]; [left|by right]. exists l. split; [done|split; [lia|done]]. Qed.

(** [bmap] takes at most four blocks. *)
Lemma grows_room t A t' A' bn k X :
  data_pos t -> 0 <= bn < MAXFILE -> grows (on_path (bn_slot bn)) t A t' A' ->
  room_for t (4 + k) X -> room_for t' k X.
Proof.
  intros Hp Hbn Hg Hr. pose proof (length_path_of _ (bn_slot_leaf bn Hbn)) as Hl.
  apply (room_for_takes t t' (map (slot_addr t' A') (path_of (bn_slot bn)))).
  - apply (gs_frame _ _ _ _ _ Hg).
  - intros m Hd Hn Hu. apply not_true_is_false. intros Hu'. pose proof (Hp _ Hd).
    destruct (gs_only _ _ _ _ _ Hg m ltac:(lia) Hu') as [|(sl & _ & Hsl & _ & ->)]; [congruence|].
    apply Hn. apply list_elem_of_fmap. exists sl. split; [done|by apply elem_path_of].
  - rewrite length_map. eapply room_le; [done|lia].
Qed.

Section write.
Context {S : Type} `{KernLaws S fsstate} `{DevSw S}.
Implicit Types (s : S) (t : fsstate) (X : stop -> Prop) (nd : inode).
Context `{OpBase} (start size : Z).
Abbreviation in_op := (in_op start size).
Abbreviation enough := (enough size).
Abbreviation file_at := (file_at start size).

Definition written P s' t n ip nd g t' A' : Prop :=
  file_at s' [] t' n ip (nd <| iaddrs := A' |>) /\ wrote P t (iaddrs nd) g t' A' /\ others ip t t'.

Lemma file_data_pos s HH t n ip nd : file_at s HH t n ip nd -> data_pos t.
Proof using All. intros Hfa m. eapply data_range. by eapply fa_op. Qed.

Lemma file_meta P s' t n ip nd A g t' : in_op s' [] t' n -> inodes t' !! ip = Some nd -> idev nd = 1 ->
  layout (sb t) start size -> meta_used t -> wrote P t A g t' (iaddrs nd) -> file_at s' [] t' n ip nd.
Proof.
  intros Hop Hi Hd Hla Hme Hw. split; try done; [by eapply wr_map|]. intros m Hm.
  pose proof (wr_frame _ _ _ _ _ _ Hw) as [_ Hs]. rewrite Hs in Hm. pose proof Hla as [_ _ [? ?]].
  apply (wr_used _ _ _ _ _ _ Hw); [lia|]. by apply Hme.
Qed.

(** A block of the file, mapped by [bmap], after part of it is written. *)
Lemma part_written s s1 s3 t t1 t3 n n1 n3 ip nd A1 off (src : list Z) :
  file_at s [] t n ip nd -> mapped start size s1 t n1 ip nd (on_path (bn_slot (off / BSIZE))) t1 A1 ->
  0 <= off -> 0 < Z.of_nat (length src) <= BSIZE - off mod BSIZE -> off / BSIZE < MAXFILE ->
  let a := slot_addr t1 A1 (bn_slot (off / BSIZE)) in
  a <> 0 -> length (content t1 a) = 512%nat -> in_op s3 [] t3 n3 ->
  updated t1 a (splice (content t1 a) (Z.to_nat (off mod BSIZE)) src) t3 ->
  written (on_path (bn_slot (off / BSIZE))) s3 t n3 ip nd (at_off off src) t3 A1 /\ forall k X, room_for t (4 + k) X -> room_for t3 k X.
Proof using All.
  intros Hfa (Hfa1 & Hg1 & Ho1) Ho Hl Hb a Ha Hlen Hop3 Hup.
  pose proof Hfa as [Hop Hin Hd Hm Hme]. pose proof (file_data_pos _ _ _ _ _ _ Hfa) as Hp.
  pose proof Hfa1 as [Hop1 Hin1 _ Hm1 Hme1]. change (map_ok t1 A1) in Hm1.
  pose proof (io_layout _ _ _ _ _ _ Hop1) as Hla1. pose proof Hup as (_ & _ & Hsb3 & Hi3).
  pose proof (splice_wrote (on_path (bn_slot (off / BSIZE))) _ _ _ _ _ _ _ Hla1 Hm1 Ho Hl Hb Ha Hlen Hup) as Hw.
  pose proof (wrote_trans _ _ _ _ _ _ _ _ _ Hp (grows_wrote _ _ _ _ _ Hm Hg1) Hw) as Hw3.
  assert (wrote (on_path (bn_slot (off / BSIZE))) t (iaddrs nd) (at_off off src) t3 A1) as Hw'.
  { eapply wrote_sub; [by intros sl Hsl|..|exact Hw3]; cbn beta; intros j; by destruct (at_off off src j). }
  pose proof (Z.div_pos off BSIZE Ho ltac:(done)) as Hb0. split; [split; [|split; [done|]]|].
  - eapply (file_meta _ _ t); [done|by rewrite Hi3|done|by eapply io_layout|done|exact Hw'].
  - intros j Hj. rewrite Hi3. by apply Ho1.
  - intros k X Hr. eapply (room_for_takes t1 t3 []); [done| |by eapply (grows_room t); [..|exact Hg1|exact Hr]].
    intros m Hdm _ Hum. rewrite (leaf_used t1 t3 A1 (off / BSIZE) start size _ Hla1 Hm1 ltac:(lia) Ha Hup); [done|].
    pose proof (data_range _ _ _ _ _ _ _ Hop1 Hdm). lia.
Qed.

(** One round of the loop. *)
Lemma wp_write_round {B} s t n ip nd off (src : list Z) k (x : B) X (Q : B -> S -> Prop) :
  file_at s [] t n ip nd -> 0 <= off -> 0 < Z.of_nat (length src) <= BSIZE - off mod BSIZE ->
  off / BSIZE < MAXFILE -> bytes_ok src -> enough (n + 12) 2 X -> room_for t (4 + k) X ->
  (forall s' t' A', written (on_path (bn_slot (off / BSIZE))) s' t (n + 12) ip nd (at_off off src) t' A' -> room_for t' k X -> Q x s') ->
  wp (addr <~ bmap ip (off / BSIZE);
      bp <~ bread (idev nd) addr;
      set_data bp (fun d => splice d (Z.to_nat (off mod BSIZE)) src) ;;; log_write bp ;;; brelse bp ;;; ret x) X Q s.
Proof using All.
  intros Hfa Ho Hl Hb Hok He Hroom HQ. pose proof (Z.div_pos off BSIZE Ho ltac:(done)).
  pose proof (Z.mod_pos_bound off BSIZE ltac:(done)).
  mstep. eapply wp_bmap; [done|lia|eapply enough_le; [done|lia..]|eapply room_le; [done|lia]|].
  intros s1 t1 A1 Hmp Hne. pose proof Hmp as (Hfa1 & _). pose proof Hfa1 as [Hop1 _ _ Hm1 _]. change (map_ok t1 A1) in Hm1.
  set (a := slot_addr t1 A1 (bn_slot (off / BSIZE))) in *.
  pose proof (mo_data _ _ Hm1 _ (proj1 (bn_slot_leaf (off / BSIZE) ltac:(lia))) Hne) as [Hda _]. fold a in Hda.
  pose proof (data_home _ _ _ _ _ _ _ Hop1 Hda) as Hhome. pose proof (data_range _ _ _ _ _ _ _ Hop1 Hda) as Har.
  assert (is_block (content t1 a)) as Hblk by (eapply content_block; [exact Hop1|lia]).
  mstep. rewrite (fa_dev _ _ _ _ _ _ _ _ Hfa).
  eapply wp_read; [done|lia|by intros ? ? ?%not_elem_of_nil|eapply enough_le; [done|cbn; lia..]|].
  intros s2 t2 bp Hr. pose proof (rd_same _ _ _ _ _ _ _ _ _ Hr) as Hs2.
  pose proof (sm_frame _ _ Hs2) as (_ & _ & _ & Hsb2 & _).
  destruct (rd_buf _ _ _ _ _ _ _ _ _ Hr) as (c & Hc & Hbn & Hcd & _).
  eapply wp_write_give; [by eapply rd_op|by eapply rd_new|done| |rewrite Hbn, Hsb2; lia|eapply enough_le; [done|lia..]|].
  { rewrite Hcd. destruct Hblk as [Hlen Hby]. split; [|by apply bytes_ok_splice].
    rewrite length_splice; [done|]. unfold BSIZE in *. lia. }
  intros s3 t3 Hop3 Hup _. mstep. rewrite Hbn, Hcd in Hup. apply (updated_same t1) in Hup; [|done].
  replace (Datatypes.S (n + 11)) with (n + 12)%nat in Hop3 by lia.
  edestruct (part_written s s1 s3 t t1 t3 n (n + 11) (n + 12) ip nd A1 off src) as [Hwr Hrm]; [done|done|lia|lia|lia|done|apply Hblk|done|done|].
  by eapply HQ; [|apply Hrm].
Qed.
Lemma written_trans (P P' : slot -> Prop) s1 s2 t t1 t2 n0 n1 n2 s ip nd A1 A2 g g' g'' :
  file_at s [] t n0 ip nd -> written P s1 t n1 ip nd g t1 A1 ->
  written P' s2 t1 n2 ip (nd <| iaddrs := A1 |>) g' t2 A2 -> (forall sl, P' sl -> P sl) ->
  (forall k, match g' k with Some b => Some b | None => g k end = g'' k) -> written P s2 t n2 ip nd g'' t2 A2.
Proof using All.
  intros Hfa (_ & Hw1 & Ho1) (Hf2 & Hw2 & Ho2) HP Hg. split; [done|]. split.
  - eapply (wrote_sub P); [done| | |eapply (wrote_trans P); [by eapply file_data_pos|exact Hw1|]].
    + intros k _. cbn beta. by rewrite Hg.
    + intros k. cbn beta. by rewrite Hg.
    + by eapply (wrote_sub P').
  - intros j Hj. rewrite Ho2 by done. by apply Ho1.
Qed.

Lemma at_off_app off (src : list Z) tot m k :
  0 <= tot -> 0 <= m -> tot + m <= Z.of_nat (length src) ->
  match at_off (off + tot) (slice src (Z.to_nat tot) (Z.to_nat m)) k with
  | Some b => Some b | None => at_off off (take (Z.to_nat tot) src) k end =
  at_off off (take (Z.to_nat (tot + m)) src) k.
Proof.
  intros Ht Hm Hl. unfold at_off. destruct (Z.leb_spec off k) as [Hk|Hk].
  2: { by destruct (Z.leb_spec (off + tot) k); [lia|]. }
  destruct (Z.leb_spec (off + tot) k) as [Hk2|Hk2].
  - rewrite lookup_slice. case_decide as Hd.
    + replace (Z.to_nat tot + Z.to_nat (k - (off + tot)))%nat with (Z.to_nat (k - off)) by lia.
      rewrite (lookup_take_lt src (Z.to_nat (tot + m))) by lia.
      by destruct (lookup_lt_is_Some_2 src (Z.to_nat (k - off))) as [x ->]; [lia|].
    + by rewrite !lookup_take_ge by lia.
  - by rewrite !lookup_take_lt by lia.
Qed.

(** The slots in which writing [n] bytes at [off] may put a block. *)
Definition touched (off n : Z) (sl : slot) : Prop :=
  exists k, off <= k < off + n /\ on_path (bn_slot (k / BSIZE)) sl.

Lemma wp_write_loop s t n0 ip nd off (src : list Z) X (Q : Z -> S -> Prop) :
  let n := Z.of_nat (length src) in let R := rounds n 0 off in
  file_at s [] t n0 ip nd -> 0 <= off -> off + n <= MAXFILE * BSIZE -> bytes_ok src ->
  enough (n0 + 12 * R) 2 X -> room_for t (4 * R) X ->
  (forall s' t' A', written (touched off n) s' t (n0 + 12 * R) ip nd (at_off off src) t' A' -> Q (off + n) s') ->
  wp (loop (io_fuel n) (fun '(tot, off) =>
      if tot <? n then
        addr <~ bmap ip (off / BSIZE);
        bp <~ bread (idev nd) addr;
        let m := Z.min (n - tot) (BSIZE - off mod BSIZE) in
        set_data bp (fun d => splice d (Z.to_nat (off mod BSIZE)) (slice src (Z.to_nat tot) (Z.to_nat m))) ;;;
        log_write bp ;;;
        brelse bp ;;;
        ret (inl (tot + m, off + m))
      else ret (inr off)) (0, off)) X Q s.
Proof using All.
  intros n R Hfa Ho Hmax Hok He Hroom HQ.
  apply wp_loop with
    (I := fun '(tot, o) s' => exists t' A' q, (q + rounds n tot o <= R)%nat /\ 0 <= tot <= n /\ o = off + tot /\
       room_for t' (4 * rounds n tot o) X /\
       written (touched off n) s' t (n0 + 12 * q) ip nd (at_off off (take (Z.to_nat tot) src)) t' A')
    (var := fun '(tot, o) _ => rounds n tot o).
  - exists t, (iaddrs nd), 0%nat. split; [done|]. split; [lia|]. split; [lia|]. split; [done|].
    assert (nd <| iaddrs := iaddrs nd |> = nd) as Heta by by destruct nd.
    rewrite Nat.mul_0_r, Nat.add_0_r, take_0. split; [by rewrite Heta|]. split; [|done].
    eapply wrote_sub; [..|eapply (grows_wrote (touched off n)); [by eapply fa_map|by eapply grows_refl]]; [done|..];
      intros k; unfold at_off; by destruct (off <=? k).
  - apply rounds_start; lia.
  - intros [tot o] s1 (t1 & A1 & q & Hq & Ht & -> & Hrm & Hwr).
    destruct (Z.ltb_spec tot n) as [Hlt|Hge].
    + destruct (rounds_next n tot (off + tot) ltac:(lia) Hlt) as [Hpos Hvar].
      set (k := Z.min (n - tot) (BSIZE - (off + tot) mod BSIZE)) in *.
      assert (Z.of_nat (length (slice src (Z.to_nat tot) (Z.to_nat k))) = k) as Hlk.
      { rewrite length_slice; lia. }
      cbn zeta. set (nd1 := nd <| iaddrs := A1 |>). change (idev nd) with (idev nd1).
      eapply (wp_write_round s1 t1 (n0 + 12 * q) ip nd1 (off + tot) (slice src (Z.to_nat tot) (Z.to_nat k))
        (4 * rounds n (tot + k) (off + tot + k)));
        [apply Hwr|lia|lia| |by apply bytes_ok_slice|eapply enough_le; [done|lia..]|eapply room_le; [done|lia]|].
      { apply Z.div_lt_upper_bound; [done|]. lia. }
      intros s2 t2 A2 Hw2 Hrm2. split; [|done]. exists t2, A2, (Datatypes.S q). split; [lia|]. split; [lia|].
      split; [lia|]. split; [done|]. replace (n0 + 12 * Datatypes.S q)%nat with (n0 + 12 * q + 12)%nat by lia.
      eapply written_trans; [done|done|done| |by intros j; apply at_off_app; lia].
      intros sl Hsl. exists (off + tot). split; [lia|done].
    + mstep. replace tot with n in * by lia. rewrite take_ge in Hwr by lia.
      eapply HQ. destruct Hwr as ([Hop ? ? ? ?] & Hw & Hoth). split; [|done]. split; try done.
      eapply in_op_more; [done|lia].
Qed.
End write.

(** ** Whole files *)

(** The inode on disk holds the values of the cached one. *)
Definition synced (t : fsstate) (nd : inode) : Prop :=
  dinode_at t (inum nd) =
    inode0 <| itype := itype nd |> <| imajor := imajor nd |> <| iminor := iminor nd |> <| inlink := inlink nd |>
           <| isize := isize nd |> <| iaddrs := iaddrs nd |>.

(** A file or directory as [writei] finds and leaves it. *)
Record good_file (t : fsstate) (nd : inode) : Prop := {
  gf_num : 0 <= inum nd < sb_ninodes (sb t);
  gf_type : itype nd <> T_DEV;
  gf_short : is_short (itype nd) /\ is_short (imajor nd) /\ is_short (iminor nd) /\ is_short (inlink nd);
  gf_size : 0 <= isize nd <= MAXFILE * BSIZE;
  gf_blocks : sb_size (sb t) < 2 ^ 32;
  gf_holes : no_holes t nd;
  gf_synced : synced t nd
}.

Lemma map_storable t nd :
  is_short (itype nd) /\ is_short (imajor nd) /\ is_short (iminor nd) /\ is_short (inlink nd) ->
  0 <= isize nd <= MAXFILE * BSIZE -> sb_size (sb t) < 2 ^ 32 -> map_ok t (iaddrs nd) -> data_pos t -> storable nd.
Proof.
  intros (Ht & Hma & Hmi & Hn) Hs Hb Hm Hp. change (MAXFILE * BSIZE) with 1082201088 in Hs.
  split; try done; [lia|]. split; [by apply (mo_len _ _ Hm)|]. apply Forall_lookup. intros i a Hi.
  assert (slot_addr t (iaddrs nd) (i, []) = a) as Ha by (rewrite slot_addr_root, Hi; done).
  destruct (decide (a = 0)) as [->|Hne]; [lia|]. pose proof (lookup_lt_Some _ _ _ Hi) as Hlt. rewrite (mo_len _ _ Hm) in Hlt.
  destruct (mo_data _ _ Hm (i, [])) as [Hd _]; [|by rewrite Ha|].
  { split; [done|]. split; [cbn; lia|constructor]. }
  rewrite Ha in Hd. pose proof (Hp _ Hd). lia.
Qed.

(** Storing an inode does not touch the bitmap or the data. *)
Lemma dinode_stored_data t nd t' start size :
  layout (sb t) start size -> 0 <= inum nd < sb_ninodes (sb t) -> dinode_stored t nd t' ->
  (forall A, map_ok t A -> forall sl, slot_ok sl -> slot_addr t' A sl = slot_addr t A sl) /\
  (forall m, 0 <= m < sb_size (sb t) -> used t' m = used t m) /\
  (forall m, is_data (sb t) m -> content t' m = content t m).
Proof.
  intros Hla Hi (Hc & _ & Hs). pose proof (inode_block _ _ _ _ Hla Hi) as Hb.
  assert (sb_bmapstart (sb t) <= data_start (sb t)) as Hds.
  { unfold data_start. pose proof Hla as [_ _ [? _]]. assert (0 <= sb_size (sb t) / BPB) by (apply Z.div_pos; [lia|done]). lia. }
  assert (forall m, is_data (sb t) m -> content t' m = content t m) as Hd.
  { intros m Hm. rewrite Hc. unfold is_data in Hm. by destruct (Z.eqb_spec m (IBLOCK (inum nd) (sb t))); [lia|]. }
  split; [|split; [|done]].
  - intros A Hm sl Hsl. apply slot_addr_same; [done|]. intros m (sl' & Hok & _ & <- & Hne). by apply Hd, (mo_data _ _ Hm).
  - intros m Hm. unfold used. rewrite Hs, Hc. pose proof (bitmap_range _ _ _ m Hla Hm).
    by destruct (Z.eqb_spec (BBLOCK m (sb t)) (IBLOCK (inum nd) (sb t))); [lia|].
Qed.

Lemma dinode_stored_map t nd t' start size A :
  layout (sb t) start size -> 0 <= inum nd < sb_ninodes (sb t) -> dinode_stored t nd t' -> map_ok t A -> map_ok t' A.
Proof.
  intros Hla Hi Hst Hm. destruct (dinode_stored_data _ _ _ _ _ Hla Hi Hst) as (Hsl & Hus & _). specialize (Hsl A Hm).
  destruct Hst as (_ & _ & Hs). split; [by apply (mo_len _ _ Hm)|..].
  - intros sl Hok. rewrite Hsl, Hs by done. intros Hne. destruct (mo_data _ _ Hm _ Hok Hne) as [Hd Hu].
    split; [done|]. rewrite Hus; [done|]. by eapply data_nonneg.
  - intros sl sl' Hok Hok'. rewrite !Hsl by done. by apply (mo_inj _ _ Hm).
Qed.

Section writei.
Context {S : Type} `{KernLaws S fsstate} `{DevSw S}.
Implicit Types (s : S) (t : fsstate) (X : stop -> Prop) (nd : inode).
Context `{OpBase} (start size : Z).
Abbreviation in_op := (in_op start size).
Abbreviation enough := (enough size).
Abbreviation file_at := (file_at start size).
Abbreviation written := (written start size).

(** The file after [src] is written at [off]. *)
Record file_written (s : S) (t : fsstate) (n ip : nat) (nd : inode) (off : Z) (src : list Z) (t' : fsstate) (nd' : inode) : Prop := {
  fw_file : file_at s [] t' n ip nd';
  fw_good : good_file t' nd';
  fw_inode : nd' = nd <| iaddrs := iaddrs nd' |> <| isize := Z.max (isize nd) (off + Z.of_nat (length src)) |>;
  fw_bytes : forall k, 0 <= k < MAXFILE * BSIZE ->
    file_byte t' (iaddrs nd') k = default (file_byte t (iaddrs nd) k) (at_off off src k);
  fw_foreign : forall m, foreign t (iaddrs nd) m -> m <> IBLOCK (inum nd) (sb t) -> content t' m = content t m;
  fw_inodes : forall j, 0 <= j < sb_ninodes (sb t) -> j <> inum nd -> dinode_at t' j = dinode_at t j;
  fw_others : others ip t t';
  fw_frame : disk t' = disk t /\ sb t' = sb t
}.

(** The inodes on disk are not touched by the loop. *)
Lemma wrote_inodes P t A g t' A' j :
  layout (sb t) start size -> wrote P t A g t' A' -> 0 <= j < sb_ninodes (sb t) -> dinode_at t' j = dinode_at t j.
Proof using All.
  intros Hla Hw Hj. pose proof (wr_frame _ _ _ _ _ _ Hw) as [_ Hs]. unfold dinode_at. rewrite Hs.
  rewrite (wr_foreign _ _ _ _ _ _ Hw); [done|left]. pose proof (inode_block _ _ _ _ Hla Hj). pose proof Hla as [? _ _]. lia.
Qed.

Lemma wrote_no_holes t nd t' A' off src :
  no_holes t nd -> 0 <= isize nd -> isize nd <= MAXFILE * BSIZE -> 0 <= off <= isize nd ->
  off + Z.of_nat (length src) <= MAXFILE * BSIZE ->
  wrote (touched off (Z.of_nat (length src))) t (iaddrs nd) (at_off off src) t' A' ->
  forall k, 0 <= k < Z.max (isize nd) (off + Z.of_nat (length src)) -> slot_addr t' A' (bn_slot (k / BSIZE)) <> 0.
Proof using All.
  intros Hnh H0' Hsz Ho Hmax Hw k Hk. destruct (decide (k < isize nd)) as [Hlt|Hge].
  - pose proof (Hnh k ltac:(lia)). rewrite (wr_old _ _ _ _ _ _ Hw); [done| |done]. apply block_of_offset. lia.
  - apply (wr_mapped _ _ _ _ _ _ Hw); [lia|]. unfold at_off. destruct (Z.leb_spec off k); [|lia].
    apply lookup_lt_is_Some_2. lia.
Qed.

(** Writing below the size gets no new blocks. *)
Lemma wrote_same_addrs t nd t' A' off src :
  map_ok t (iaddrs nd) -> no_holes t nd -> 0 <= off -> off + Z.of_nat (length src) <= isize nd ->
  wrote (touched off (Z.of_nat (length src))) t (iaddrs nd) (at_off off src) t' A' -> A' = iaddrs nd.
Proof using All.
  intros Hm Hnh Ho Hmax Hw. pose proof (mo_len _ _ Hm) as Hl. pose proof (mo_len _ _ (wr_map _ _ _ _ _ _ Hw)) as Hl'.
  apply list_eq. intros i. destruct (decide (i < 13)%nat) as [Hi|Hi]; [|by rewrite !lookup_ge_None_2 by lia].
  assert (slot_ok (i, [])) as Hsl by (split; [done|split; [cbn; lia|constructor]]).
  assert (slot_addr t' A' (i, []) = slot_addr t (iaddrs nd) (i, [])) as Heq.
  { destruct (decide (slot_addr t (iaddrs nd) (i, []) = 0)) as [H0'|H0']; [|by apply (wr_old _ _ _ _ _ _ Hw)].
    apply (wr_only _ _ _ _ _ _ Hw); [done|]. intros (k & Hk & Hf & l & Hl2). cbn in Hf, Hl2.
    apply (Hnh k); [lia|]. destruct (bn_slot (k / BSIZE)) as [i' l'] eqn:Hb. cbn in Hf, Hl2. subst i' l'.
    clear Hb. induction l as [|j l IH] using rev_ind; [done|]. rewrite slot_snoc, IH. done. }
  rewrite !slot_addr_root in Heq.
  destruct (lookup_lt_is_Some_2 A' i) as [x Hx]; [lia|]. destruct (lookup_lt_is_Some_2 (iaddrs nd) i) as [y Hy]; [lia|].
  rewrite Hx, Hy in *. cbn in Heq. by rewrite Heq.
Qed.

Lemma written_below s s1 t t1 n0 n1 ip nd A1 off src :
  file_at s [] t n0 ip nd -> good_file t nd -> 0 <= off -> off + Z.of_nat (length src) <= isize nd ->
  written (touched off (Z.of_nat (length src))) s1 t n1 ip nd (at_off off src) t1 A1 ->
  file_written s1 t n1 ip nd off src t1 nd.
Proof using All.
  intros Hfa [Hnum Hty Hsh Hsz Hbl Hnh Hsy] Ho Hmax (Hfa1 & Hw & Hoth). pose proof Hfa as [Hop _ _ Hm _].
  pose proof (io_layout _ _ _ _ _ _ Hop) as Hla. pose proof (wr_frame _ _ _ _ _ _ Hw) as [_ Hs].
  pose proof (wrote_same_addrs _ _ _ _ _ _ Hm Hnh Ho Hmax Hw) as ->.
  assert (nd <| iaddrs := iaddrs nd |> = nd) as Heta by by destruct nd. rewrite Heta in Hfa1.
  split; [done| | |by apply (wr_bytes _ _ _ _ _ _ Hw)| | |done|by eapply wr_frame].
  - split; try done; [by rewrite Hs|by rewrite Hs| |].
    + intros k Hk. eapply wrote_no_holes; [..|exact Hw|]; [done|lia..].
    + unfold synced. by rewrite (wrote_inodes _ _ _ _ _ _ _ Hla Hw).
  - rewrite Heta. rewrite Z.max_l by lia. by destruct nd.
  - intros m Hf _. by apply (wr_foreign _ _ _ _ _ _ Hw).
  - intros j Hj _. by apply (wrote_inodes _ _ _ _ _ _ _ Hla Hw).
Qed.
Lemma written_above s s1 s2 t t1 t2 n0 n1 n2 ip nd A1 off src :
  let nd' := nd <| iaddrs := A1 |> <| isize := off + Z.of_nat (length src) |> in
  file_at s [] t n0 ip nd -> good_file t nd -> 0 <= off <= isize nd ->
  isize nd < off + Z.of_nat (length src) <= MAXFILE * BSIZE ->
  written (touched off (Z.of_nat (length src))) s1 t n1 ip nd (at_off off src) t1 A1 ->
  in_op s2 [] t2 n2 -> dinode_stored t1 nd' t2 -> inodes t2 !! ip = Some nd' -> others ip t1 t2 ->
  file_written s2 t n2 ip nd off src t2 nd'.
Proof using All.
  intros nd' Hfa [Hnum Hty Hsh Hsz Hbl Hnh Hsy] Ho Hmax (Hfa1 & Hw & Hoth) Hop2 Hst Hin2 Hoth2.
  pose proof Hfa as [Hop _ Hdev _ Hme]. pose proof (io_layout _ _ _ _ _ _ Hop) as Hla. pose proof (wr_frame _ _ _ _ _ _ Hw) as [Hd Hs].
  pose proof Hfa1 as [Hop1 _ _ Hm1 Hme1]. change (map_ok t1 A1) in Hm1. pose proof (file_data_pos _ _ _ _ _ _ _ _ Hfa) as Hp.
  assert (layout (sb t1) start size) as Hla1 by by rewrite Hs. assert (0 <= inum nd' < sb_ninodes (sb t1)) as Hnum1 by by rewrite Hs.
  destruct (dinode_stored_data t1 nd' t2 start size Hla1 Hnum1 Hst) as (Hsl & Hus & Hda).
  pose proof (dinode_stored_map t1 nd' t2 start size A1 Hla1 Hnum1 Hst Hm1) as Hm2.
  pose proof Hst as (Hc2 & Hd2 & Hs2). specialize (Hsl A1 Hm1). rewrite Hs in Hs2, Hus, Hda.
  assert (storable nd') as Hsto.
  { apply (map_storable t1); [done|cbn; lia|by rewrite Hs|done|]. unfold data_pos. by rewrite Hs. }
  split; [| | | | | | |by rewrite Hd2, Hs2].
  - split; [done|done|done|done|]. intros m Hm. rewrite Hs2 in Hm. pose proof Hla as [_ _ [? ?]].
    rewrite Hus by lia. apply Hme1. by rewrite Hs.
  - split; try done; [by rewrite Hs2|cbn; lia|by rewrite Hs2| |].
    + intros k Hk. change (0 <= k < off + Z.of_nat (length src)) in Hk. change (slot_addr t2 A1 (bn_slot (k / BSIZE)) <> 0).
      rewrite Hsl by (apply block_of_offset; lia). eapply wrote_no_holes; [..|exact Hw|]; [done|lia..].
    + apply (dinode_stored_at t1); [done|done|]. eapply content_block; [exact Hop1|]. by eapply inode_block_disk.
  - unfold nd'. rewrite Z.max_r by lia. by destruct nd.
  - intros k Hk. change (iaddrs nd') with A1. rewrite <- (wr_bytes _ _ _ _ _ _ Hw) by done.
    pose proof (block_of_offset k Hk) as [Hok _]. unfold file_byte. rewrite Hsl by done.
    destruct (Z.eqb_spec (slot_addr t1 A1 (bn_slot (k / BSIZE))) 0) as [|Hne]; [done|]. f_equal.
    apply Hda. rewrite <- Hs. by apply (mo_data _ _ Hm1).
  - intros m Hf Hne. rewrite Hc2, Hs. destruct (Z.eqb_spec m (IBLOCK (inum nd') (sb t))); [done|].
    by apply (wr_foreign _ _ _ _ _ _ Hw).
  - intros j Hj Hne. rewrite (dinode_stored_others t1 nd' t2); [|done|by apply (mo_len _ _ Hm1)|cbn; lia|lia|done].
    by apply (wrote_inodes _ _ _ _ _ _ _ Hla Hw).
  - intros j Hj. rewrite Hoth2 by done. by apply Hoth.
Qed.
Lemma file_written_more s t n n' ip nd off src t' nd' :
  file_written s t n ip nd off src t' nd' -> (n <= n')%nat -> file_written s t n' ip nd off src t' nd'.
Proof using All.
  intros [[Hop ? ? ? ?] ? ? ? ? ? ? ?] Hn. split; try done. split; try done. by eapply in_op_more.
Qed.

Lemma wp_writei s t n0 ip nd off src X (Q : Z -> S -> Prop) :
  let n := Z.of_nat (length src) in let R := rounds n 0 off in
  file_at s [] t n0 ip nd -> good_file t nd -> 0 <= off <= isize nd -> off + n <= MAXFILE * BSIZE -> bytes_ok src ->
  enough (n0 + 12 * R + 1) 2 X -> room_for t (4 * R) X ->
  (forall s' t' nd', file_written s' t (n0 + 12 * R + 1) ip nd off src t' nd' -> Q n s') ->
  wp (writei ip src off n) X Q s.
Proof using All.
  intros n R Hfa Hgf Ho Hmax Hok He Hroom HQ. pose proof Hgf as [Hnum Hty _ Hsz _ _ _].
  pose proof Hfa as [Hop Hin Hdev _ _]. pose proof (io_at _ _ _ _ _ _ Hop) as Hat.
  pose proof (eq_refl : MAXFILE * BSIZE = 1082201088) as Hmx.
  unfold writei. mstep. eapply wp_get_inode; [done..|]. destruct (Z.eqb_spec (itype nd) T_DEV); [done|].
  rewrite u32_small by lia. destruct (Z.ltb_spec (isize nd) off); [lia|]. destruct (Z.ltb_spec (off + n) off); [lia|]. cbn [orb].
  destruct (Z.ltb_spec (MAXFILE * BSIZE) (off + n)); [lia|]. mstep.
  eapply wp_write_loop; [done|lia|done|done|fold n R; eapply enough_le; [done|lia..]|done|].
  fold n R. intros s1 t1 A1 Hwr. pose proof Hwr as (Hfa1 & Hw & _). pose proof Hfa1 as [Hop1 Hin1 _ _ _].
  pose proof (io_at _ _ _ _ _ _ Hop1) as Hat1.
  mstep. eapply wp_get_inode; [done..|]. change (isize (nd <| iaddrs := A1 |>)) with (isize nd).
  destruct (Z.ltb_spec 0 n) as [Hpos|Hz], (Z.ltb_spec (isize nd) (off + n)) as [Hgr|Hle]; cbn [andb]; try lia.
  2,3: mstep; mstep; mstep; eapply HQ; eapply file_written_more; [eapply written_below; [done|done|lia|fold n; lia|done]|lia].
  mstep. mstep. unfold mod_inode. mstep.
  set (f := fun nd0 : inode => nd0 <| isize := off + n |>). set (nd' := nd <| iaddrs := A1 |> <| isize := off + n |>).
  assert (inodes (upd_inode ip f t1) !! ip = Some nd') as Hin1'.
  { change (alter f ip (inodes t1) !! ip = Some nd'). by rewrite list_lookup_alter_eq, Hin1. }
  eapply (wp_iupdate start size _ (upd_inode ip f t1) (n0 + 12 * R)); [|done|done| |fold n R; eapply enough_le; [done|lia..]|].
  - by eapply in_op_inode.
  - change (0 <= inum nd < sb_ninodes (sb t1)). by rewrite (proj2 (wr_frame _ _ _ _ _ _ Hw)).
  - intros s2 t2 Hop2 Hst Hi2. mstep. eapply HQ. rewrite Nat.add_1_r.
    eapply (written_above s s1 s2 t t1); [done|done|lia|fold n; lia|done|done|exact Hst|by rewrite Hi2|].
    intros j Hj. rewrite Hi2. change (alter f ip (inodes t1) !! j = inodes t1 !! j). by apply list_lookup_alter_ne.
Qed.
End writei.
