(* ===== verification/FsThms.v ===== *)
(** * Files ([fs.c]): what [readi], [writei], [bmap], [balloc] and [iupdate] promise

    A file is a list of bytes: [readi] takes a slice of it, [writei] splices
    bytes into it, and with the log around it a write happens entirely or not
    at all. *)
From Stdlib Require Import ZArith Lia.
From stdpp Require Import base list gmap strings.
From S2P Require Import Prelude Params Bytes Cstring Spinlock Proc Sched SchedInv SchedThms Kern Sleeplock FsData Bio Log LogRec LogTx Demo LogThms Fs FsBlk FsInode FsMap FsFile.
#[local] Open Scope Z_scope.
#[local] Open Scope kernel_scope.

(** ** Files as lists of bytes *)

(** The bytes of file [i], by its inode on disk. *)
Definition file_data (t : fsstate) (i : Z) : list Z :=
  let nd := dinode_at t i in file_bytes t (iaddrs nd) 0 (Z.to_nat (isize nd)).

Lemma file_data_synced t nd : synced t nd -> file_data t (inum nd) = file_bytes t (iaddrs nd) 0 (Z.to_nat (isize nd)).
Proof. intros Hs. unfold file_data. by rewrite Hs. Qed.

Lemma slice_file_bytes t A n o m :
  0 <= o -> 0 <= m -> (Z.to_nat o + Z.to_nat m <= n)%nat ->
  slice (file_bytes t A 0 n) (Z.to_nat o) (Z.to_nat m) = file_bytes t A o (Z.to_nat m).
Proof.
  intros Ho Hm Hn. apply list_eq. intros i. rewrite lookup_slice, !file_bytes_lookup. case_decide; [|done].
  rewrite decide_True by lia. do 2 f_equal. lia.
Qed.

(** Two states with the same inodes, bitmap and data on their disks. *)
Definition agree (t t' : fsstate) : Prop :=
  sb t' = sb t /\ forall m, sb_inodestart (sb t) <= m -> content t' m = content t m.

Section agree.
Context (t t' : fsstate) (start size : Z) (Hla : layout (sb t) start size) (Hag : agree t t').

Lemma data_after_inodes m : is_data (sb t) m \/ sb_bmapstart (sb t) <= m -> sb_inodestart (sb t) <= m.
Proof using Hla.
  pose proof Hla as [_ [? ?] [? ?]]. unfold is_data, data_start. intros Hm.
  assert (0 <= sb_ninodes (sb t) / IPB) by (apply Z.div_pos; [lia|done]).
  assert (0 <= sb_size (sb t) / BPB) by (apply Z.div_pos; [lia|done]). lia.
Qed.

Lemma agree_slot A sl : map_ok t A -> slot_ok sl -> slot_addr t' A sl = slot_addr t A sl.
Proof using Hla Hag.
  intros Hm Hsl. apply slot_addr_same; [done|]. intros m (sl' & Hok & _ & <- & Hne). apply Hag, data_after_inodes.
  left. by apply (mo_data _ _ Hm).
Qed.

Lemma agree_used m : 0 <= m < sb_size (sb t) -> used t' m = used t m.
Proof using Hla Hag.
  intros Hm. unfold used. rewrite (proj1 Hag), (proj2 Hag); [done|]. apply data_after_inodes. right.
  by apply (bitmap_range _ _ _ m Hla).
Qed.

Lemma agree_map A : map_ok t A -> map_ok t' A.
Proof using Hla Hag.
  intros Hm. split; [by apply (mo_len _ _ Hm)|..].
  - intros sl Hok. rewrite (agree_slot A), (proj1 Hag) by done. intros Hne. destruct (mo_data _ _ Hm _ Hok Hne) as [Hd Hu].
    split; [done|]. rewrite agree_used; [done|]. by eapply data_nonneg.
  - intros sl sl' Hok Hok'. rewrite !(agree_slot A) by done. by apply (mo_inj _ _ Hm).
Qed.

Lemma agree_bytes A off n : map_ok t A -> 0 <= off -> off + Z.of_nat n <= MAXFILE * BSIZE ->
  file_bytes t' A off n = file_bytes t A off n.
Proof using Hla Hag.
  intros Hm Ho Hn. apply list_eq. intros i. rewrite !file_bytes_lookup. case_decide; [|done]. f_equal.
  pose proof (block_of_offset (off + Z.of_nat i) ltac:(lia)) as [Hok _]. unfold file_byte. rewrite (agree_slot A) by done.
  destruct (Z.eqb_spec (slot_addr t A (bn_slot ((off + Z.of_nat i) / BSIZE))) 0) as [|Hne]; [done|].
  rewrite (proj2 Hag); [done|]. apply data_after_inodes. left. by apply (mo_data _ _ Hm).
Qed.

Lemma agree_inode i : 0 <= i < sb_ninodes (sb t) -> dinode_at t' i = dinode_at t i.
Proof using Hla Hag.
  intros Hi. unfold dinode_at. rewrite (proj1 Hag), (proj2 Hag); [done|]. by apply (inode_block _ _ _ _ Hla).
Qed.

Lemma agree_meta : meta_used t -> meta_used t'.
Proof using Hla Hag.
  intros Hm k Hk. rewrite (proj1 Hag) in Hk. pose proof Hla as [_ _ [? ?]]. rewrite agree_used by lia. by apply Hm.
Qed.

Lemma agree_good nd : map_ok t (iaddrs nd) -> good_file t nd -> good_file t' nd.
Proof using Hla Hag.
  intros Hm [Hn Ht Hsh Hs Hb Hh Hsy]. pose proof (proj1 Hag) as Hsb.
  split; try done; [by rewrite Hsb|by rewrite Hsb| |unfold synced; by rewrite agree_inode].
  intros k Hk. rewrite agree_slot; [by apply Hh|done|]. apply block_of_offset. lia.
Qed.

Lemma agree_data i : 0 <= i < sb_ninodes (sb t) -> map_ok t (iaddrs (dinode_at t i)) ->
  0 <= isize (dinode_at t i) <= MAXFILE * BSIZE -> file_data t' i = file_data t i.
Proof using Hla Hag. intros Hi Hm Hs. unfold file_data. rewrite agree_inode by done. apply agree_bytes; [done|lia..]. Qed.
End agree.

(** ** The contract *)

Section thms.
Context {S : Type} `{KernLaws S fsstate} `{DevSw S}.
Implicit Types (s : S) (t : fsstate) (X : stop -> Prop) (nd : inode).
Abbreviation me := (my_pid (S := S) (T := fsstate)).

Lemma written_data `{OpBase} start size s t n ip nd off src t' nd' :
  good_file t nd -> 0 <= off <= isize nd -> off + Z.of_nat (length src) <= MAXFILE * BSIZE ->
  file_written start size s t n ip nd off src t' nd' ->
  inum nd' = inum nd /\ file_data t' (inum nd) = splice (file_data t (inum nd)) (Z.to_nat off) src.
Proof using All.
  intros Hgf Ho Hmax [_ Hgf' Hnd' Hb _ _ _ _]. pose proof (gf_size _ _ Hgf) as Hsz.
  assert (inum nd' = inum nd) as Hi by (by rewrite Hnd').
  assert (isize nd' = Z.max (isize nd) (off + Z.of_nat (length src))) as Hs by (by rewrite Hnd').
  split; [done|]. rewrite <- Hi at 1. rewrite !file_data_synced by apply Hgf || apply Hgf'.
  apply list_eq. intros k. rewrite lookup_splice by (rewrite length_file_bytes; lia).
  rewrite !file_bytes_lookup, Hs. repeat case_decide; try lia.
  - rewrite Hb by lia. unfold at_off. destruct (Z.leb_spec off (0 + Z.of_nat k)); [|lia].
    replace (Z.to_nat (0 + Z.of_nat k - off)) with (k - Z.to_nat off)%nat by lia.
    by destruct (lookup_lt_is_Some_2 src (k - Z.to_nat off)) as [x ->]; [lia|].
  - rewrite Hb by lia. unfold at_off. destruct (Z.leb_spec off (0 + Z.of_nat k)); [|done].
    by rewrite lookup_ge_None_2 by lia.
  - done.
Qed.

(** C4: Writing to a file.  Inside an operation, for a file in good order and
    an offset inside it, [writei] returns the number of bytes; the file is then
    its old bytes with those of [src] spliced in at [off], longer when they
    reach past the end; its inode on disk agrees with the one in memory, every
    block below its size is mapped and no block serves two purposes; all other
    inodes, and all blocks in use that are not of this file, are as they were.
    It can only panic for want of log space, buffers or free blocks, and only
    when it may need more than there are. *)
Theorem writei_refines `{OpBase} s t start size n0 ip nd off src X :
  let n := Z.of_nat (length src) in let R := rounds n 0 off in
  file_at start size s [] t n0 ip nd -> good_file t nd -> 0 <= off <= isize nd -> off + n <= MAXFILE * BSIZE ->
  bytes_ok src -> enough size (n0 + 12 * R + 1) 2 X -> room_for t (4 * R) X ->
  wp (writei ip src off n) X (fun r s' => exists t' nd', r = n /\
    file_at start size s' [] t' (n0 + 12 * R + 1) ip nd' /\ good_file t' nd' /\ inum nd' = inum nd /\
    file_data t' (inum nd) = splice (file_data t (inum nd)) (Z.to_nat off) src /\
    (forall j, 0 <= j < sb_ninodes (sb t) -> j <> inum nd -> dinode_at t' j = dinode_at t j) /\
    (forall m, foreign t (iaddrs nd) m -> m <> IBLOCK (inum nd) (sb t) -> content t' m = content t m)) s.
Proof using All.
  intros n R Hfa Hgf Ho Hmax Hok He Hr. eapply wp_writei; [done..|]. intros s' t' nd' Hfw.
  destruct (written_data _ _ _ _ _ _ _ _ _ _ _ Hgf Ho Hmax Hfw) as [Hi Hd].
  destruct Hfw as [Hfa' Hgf' _ _ Hf Hin _ _]. by exists t', nd'.
Qed.

(** C5: Reading a file.  [readi] at an offset inside the file returns the
    number of bytes up to the end that were asked for, with these bytes, and
    changes no block; it can only panic when no buffer can be evicted. *)
Theorem readi_refines s t ip nd off n X :
  readable s t ip nd X -> good_file t nd -> 0 <= off <= isize nd -> 0 <= n -> off + n < 2 ^ 32 ->
  wp (readi ip off n) X (fun r s' => exists t', readable s' t' ip nd X /\ same_blocks t t' /\
    let m := Z.min n (isize nd - off) in
    r = (m, slice (file_data t (inum nd)) (Z.to_nat off) (Z.to_nat m))) s.
Proof using All.
  intros Hrd [_ Hty _ Hsz _ Hnh Hsy] Ho Hn Hmax. eapply wp_readi; [done..|].
  intros s' t' m Hrd' Hs'. exists t'. split; [done|]. split; [done|]. cbn zeta. fold m. f_equal.
  rewrite file_data_synced by done. rewrite slice_file_bytes; [done|lia..].
Qed.
(** C9: Offsets that are refused.  On an inode that is not a device, [readi]
    and [writei] return -1 and change nothing when the offset lies past the
    end of the file or offset plus length overflows 32 bits; [writei] also
    when the file would become larger than the largest file. *)
Theorem io_refused s t ip nd off n src X :
  at_ s [] t -> inodes t !! ip = Some nd -> itype nd <> T_DEV ->
  (isize nd < off \/ u32 (off + n) < off ->
    wp (readi ip off n) X (fun r s' => r = (-1, []) /\ s' = s) s) /\
  (isize nd < off \/ u32 (off + n) < off \/ MAXFILE * BSIZE < u32 (off + n) ->
    wp (writei ip src off n) X (fun r s' => r = -1 /\ s' = s) s).
Proof using All.
  intros Hat Hin Hty.
  assert (forall a b, (isize nd < a \/ u32 (a + b) < a) -> (isize nd <? a) || (u32 (a + b) <? a) = true) as Hc by lia.
  split; intros Hoff; [unfold readi|unfold writei]; mstep; (eapply wp_get_inode; [done..|]);
    (destruct (Z.eqb_spec (itype nd) T_DEV); [done|]).
  - rewrite Hc by done. by mstep.
  - destruct ((isize nd <? off) || (u32 (off + n) <? off)) eqn:Hb; [by mstep|].
    destruct (Z.ltb_spec (MAXFILE * BSIZE) (u32 (off + n))); [by mstep|lia].
Qed.

(** No operation is under way; the log on disk is empty. *)
Record fs_idle s t (start size : Z) : Prop := {
  fi_at : at_ s [] t;
  fi_bc : bc_ok me [] t;
  fi_idle : idle t start size;
  fi_disk : Z.of_nat (length (disk t)) = sb_size (sb t);
  fi_layout : layout (sb t) start size;
  fi_meta : meta_used t;
  fi_head : is_head (disk_at t start) [];
  fi_sb : sb_log (disk_at t 1) start size
}.

(** [begin_op] *)
Lemma begin_file s t start size ip nd s1 :
  fs_idle s t start size -> inodes t !! ip = Some nd -> idev nd = 1 -> map_ok t (iaddrs nd) ->
  let t1 := t <| lg ::= fun l => l <| outstanding := 1 |> |> in
  at_ s1 [] t1 -> bc_ok me [] t1 -> tx t1 start size [] ->
  file_at (H2 := mkbase (history t) 1) start size s1 [] t1 0 ip nd /\ agree t t1.
Proof using All.
  intros [_ _ _ Hd Hla Hme _ _] Hin Hdev Hm t1 Hat1 Hbc1 Htx1. assert (agree t t1) as Hag by done. split; [|done].
  split; [|done|done|by eapply agree_map|by eapply agree_meta].
  split; [done|done|by exists []|done|done|done|]. intros m Hdm%(tx_pinned _ _ _ _ Htx1). set_solver.
Qed.
(** What the file system has after a write of [src] to the file of [nd], or
    does not have yet. *)
Definition old_or_new t nd off (src : list Z) t4 : Prop :=
  (file_data t4 (inum nd) = file_data t (inum nd) \/
   file_data t4 (inum nd) = splice (file_data t (inum nd)) (Z.to_nat off) src) /\
  (forall j, 0 <= j < sb_ninodes (sb t) -> j <> inum nd -> dinode_at t4 j = dinode_at t j) /\
  (forall m, foreign t (iaddrs nd) m -> m <> IBLOCK (inum nd) (sb t) -> sb_inodestart (sb t) <= m ->
     content t4 m = content t m).

Lemma good_data start size t nd t' :
  layout (sb t) start size -> map_ok t (iaddrs nd) -> good_file t nd -> agree t t' ->
  file_data t' (inum nd) = file_data t (inum nd).
Proof using All.
  intros Hla Hm [Hnum _ _ Hsz _ _ Hsy] Hag. eapply agree_data; [done|done|done|..]; by rewrite Hsy.
Qed.

Lemma still_old start size t nd off src t4 :
  layout (sb t) start size -> map_ok t (iaddrs nd) -> good_file t nd -> agree t t4 -> old_or_new t nd off src t4.
Proof using All.
  intros Hla Hm Hgf Hag. split; [left; by eapply good_data|]. split.
  - intros j Hj _. by eapply agree_inode.
  - intros m _ _ Hm'. by apply Hag.
Qed.

Lemma old_or_new_agree start size t t1 nd off src t4 :
  layout (sb t) start size -> map_ok t (iaddrs nd) -> good_file t nd -> agree t t1 ->
  old_or_new t1 nd off src t4 -> old_or_new t nd off src t4.
Proof using All.
  intros Hla Hm Hgf Hag (Hd & Hi & Hf). pose proof (proj1 Hag) as Hs. rewrite Hs in Hi, Hf.
  rewrite (good_data _ _ _ _ _ Hla Hm Hgf Hag) in Hd. split; [done|]. split.
  - intros j Hj Hne. rewrite Hi by done. by eapply agree_inode.
  - intros m Hfo Hne Hm'. rewrite Hf; [by apply Hag| |done|done]. unfold foreign. rewrite Hs.
    destruct Hfo as [|(Hda & Hu & Hsl)]; [by left|right]. split; [done|].
    split; [by rewrite (agree_used t t1 start size) by (done || by eapply data_nonneg)|].
    intros sl Hok. rewrite (agree_slot t t1 start size) by done. by apply Hsl.
Qed.

Lemma already_new `{OpBase} start size s t n ip nd off src t2 nd2 t4 :
  good_file t nd -> 0 <= off <= isize nd -> off + Z.of_nat (length src) <= MAXFILE * BSIZE ->
  file_written start size s t n ip nd off src t2 nd2 -> agree t2 t4 -> old_or_new t nd off src t4.
Proof using All.
  intros Hgf Ho Hmax Hfw Hag. destruct (written_data _ _ _ _ _ _ _ _ _ _ _ Hgf Ho Hmax Hfw) as [Hi Hd].
  destruct Hfw as [[Hop _ _ Hm _] Hgf' _ _ Hf Hin _ [_ Hs]]. pose proof (io_layout _ _ _ _ _ _ Hop) as Hla.
  split; [right; rewrite <- Hd, <- Hi; by eapply good_data|]. split.
  - intros j Hj Hne. rewrite (agree_inode t2 t4 start size) by (done || by rewrite Hs). by apply Hin.
  - intros m Hfm Hne Hm'. rewrite (proj2 Hag) by (by rewrite Hs). by apply Hf.
Qed.

(** C3: A write is all or nothing.  Between operations, [begin_op], [writei]
    of [src] at [off] and [end_op] leave the file with [src] spliced in.  If
    the machine stops after any number [j] of the disk writes [W] that these
    calls make, then [initlog] on the next boot returns, and the file system
    on the disk (with its superblock read again) has the file either as it was
    or with all of [src], the other inodes as they were, and every block that
    was in use for anything else as it was. *)
Theorem write_crash_atomic s t start size ip nd off src X :
  let n := Z.of_nat (length src) in let R := rounds n 0 off in
  fs_idle s t start size -> size <= LOGSIZE -> inodes t !! ip = Some nd -> idev nd = 1 -> map_ok t (iaddrs nd) ->
  good_file t nd -> 0 <= off <= isize nd -> off + n <= MAXFILE * BSIZE -> bytes_ok src ->
  enough size (12 * R + 1) 2 X -> room_for t (4 * R) X ->
  wp (begin_op ;;; r <~ writei ip src off n; end_op ;;; ret r) X (fun r s' => exists t' W, r = n /\
    at_ s' [] t' /\ history t' = rev W ++ history t /\
    file_data t' (inum nd) = splice (file_data t (inum nd)) (Z.to_nat off) src /\
    forall j s2 t2, at_ s2 [] t2 -> booted me t2 (awrites (disk_at t) (take j W)) (length (disk t)) ->
      wp (initlog 1) never (fun _ s3 => exists t3, at_ s3 [] t3 /\ old_or_new t nd off src (t3 <| sb := sb t |>)) s2) s.
Proof using All.
  intros n R Hfi Hlog Hin Hdev Hm Hgf Ho Hmax Hok He Hr. pose proof Hfi as [Hat Hbc Hid Hd Hla Hme Hhd Hsb].
  mstep. eapply wp_begin_op; [done..|]. intros s1 t1 Hat1 Hbc1 Htx1.
  destruct (begin_file _ _ _ _ _ _ _ Hfi Hin Hdev Hm Hat1 Hbc1 Htx1) as [Hfa1 Hag1]. fold t1 in Hfa1, Hag1.
  assert (good_file t1 nd) as Hgf1 by by eapply agree_good.
  mstep. eapply (wp_writei (H2 := mkbase (history t) 1)); [done|done|done|done|done|done|done|].
  intros s2 t2 nd2 Hfw. fold n R in Hfw. destruct (written_data _ _ _ _ _ _ _ _ _ _ _ Hgf1 Ho Hmax Hfw) as [Hi2 Hd2].
  pose proof Hfw as [[Hop2 _ _ Hm2 _] Hgf2 _ _ _ _ _ [Hdk2 Hs2]]. pose proof Hop2 as [Hat2 Hbc2 (bl & Htx2 & _) _ Hla2 [Hh2 Ho2] Hdi2].
  assert (disk_at t2 = disk_at t) as Hda by (unfold disk_at; by rewrite Hdk2).
  assert (forall m, sb_inodestart (sb t) <= m -> data_block start size m) as Hdb.
  { pose proof Hla as [? _ _]. intros m ?. split; lia. }
  mstep. eapply wp_end_op_crash; [done|done|done|done| |by rewrite Hda| |by rewrite Hda|].
  { pose proof (tx_size _ _ _ _ (tx_txn _ _ _ _ Htx2)). unfold LOGSIZE, MAXOPBLOCKS, NBUF in *. lia. }
  { intros H1b%(tx_pinned _ _ _ _ Htx2)%Hdi2. rewrite Hs2 in H1b. pose proof Hla as [? _ _]. cbn in H1b. lia. }
  intros s3 t3 W Hat3 Hep Hh3 Hcrash. mstep. exists t3, W. split; [done|]. split; [done|].
  split; [by rewrite Hh3, Hh2|]. split.
  { assert (agree t2 t3) as Hag3.
    { split; [apply Hep|]. intros m Hm'. rewrite Hs2 in Hm'. by apply (ep_home _ _ _ _ _ Hep), Hdb. }
    rewrite <- Hi2, (good_data _ _ _ _ _ Hla2 Hm2 Hgf2 Hag3), Hi2, Hd2. by rewrite (good_data _ _ _ _ _ Hla Hm Hgf Hag1). }
  intros j s4 t4 Hat4 Hb4. eapply Hcrash; [done|by rewrite Hda, Hdk2|].
  intros s5 t5 Hat5 Hbc5 Hcl5 Hd5. exists t5. split; [done|]. set (t6 := t5 <| sb := sb t |>).
  assert (forall m, content t6 m = disk_at t5 m) as Hc6 by (intros m; change (content t5 m = disk_at t5 m); by apply (content_disk me)).
  destruct (j <=? length bl)%nat.
  - eapply still_old; [done..|]. split; [done|]. intros m Hm'. rewrite Hc6, Hd5, Hda by (by apply Hdb). symmetry.
    apply (content_disk me); [done|]. by apply (id_clean _ _ _ Hid).
  - eapply (old_or_new_agree _ _ t t1); [done..|].
    eapply (already_new (H2 := mkbase (history t) 1)); [done|done|done|done|].
    split; [done|]. intros m Hm'. rewrite Hs2 in Hm'. by rewrite Hc6, Hd5 by (by apply Hdb).
Qed.
(** C7: Allocating a block.  Inside an operation, with a free block on the
    disk, [balloc] returns a data block that the bitmap showed free, now marked
    and full of zeros; the marks of all other blocks, and the contents of all
    blocks but this one and those of the bitmap, are as they were.  It panics
    only when no block is free. *)
Theorem balloc_correct `{OpBase} s t start size n X :
  in_op start size s [] t n -> meta_used t -> enough size (n + 2) 1 X ->
  (exists m, is_data (sb t) m /\ used t m = false) \/ X (Panic "balloc: out of blocks") ->
  wp (balloc 1) X (fun a s' => exists t', in_op start size s' [] t' (n + 2) /\
    is_data (sb t) a /\ used t a = false /\ content t' a = replicate (Z.to_nat BSIZE) 0 /\
    (forall m, 0 <= m < sb_size (sb t) -> used t' m = (m =? a) || used t m) /\
    (forall m, m <> a -> m < sb_bmapstart (sb t) \/ data_start (sb t) <= m -> content t' m = content t m)) s.
Proof using All.
  intros Hop Hme He Hfree. replace (n + 2)%nat with (Datatypes.S (Datatypes.S n)) in * by lia.
  eapply wp_balloc; [done|done|by intros ? ? ?%not_elem_of_nil|done|done|].
  intros s' t' a Hop' Hd Hu Hal _. exists t'. split; [done|]. split; [done|]. split; [done|].
  pose proof (io_layout _ _ _ _ _ _ Hop) as Hla. pose proof (data_nonneg _ _ _ _ Hla Hd) as Har.
  pose proof (proj1 Hal) as Hc. split; [by rewrite Hc, Z.eqb_refl|]. split.
  - intros m Hm. rewrite (used_allocated t t' a start size) by (done || (intros; by eapply content_block)).
    by destruct (m =? a).
  - intros m Hne Hm. rewrite Hc. destruct (Z.eqb_spec m a); [done|].
    pose proof (bitmap_range _ _ _ a Hla Har). by destruct (Z.eqb_spec m (BBLOCK a (sb t))); [lia|].
Qed.

(** C6: The block map of a file.  Inside an operation, for a block number
    within the largest file, [bmap] returns the address of a data block in use
    that belongs to this block number and to no other; blocks the file had
    keep their addresses, its bytes do not change, and neither does any block
    in use that is not of this file. *)
Theorem bmap_correct `{OpBase} s t start size n ip nd bn X :
  file_at start size s [] t n ip nd -> 0 <= bn < MAXFILE -> enough size (n + 11) 2 X -> room_for t 4 X ->
  wp (bmap ip bn) X (fun a s' => exists t' A', file_at start size s' [] t' (n + 11) ip (nd <| iaddrs := A' |>) /\
    a = slot_addr t' A' (bn_slot bn) /\ is_data (sb t) a /\ used t' a = true /\
    (forall bn', 0 <= bn' < MAXFILE -> bn' <> bn -> slot_addr t' A' (bn_slot bn') <> a) /\
    (forall sl, slot_ok sl -> slot_addr t (iaddrs nd) sl <> 0 -> slot_addr t' A' sl = slot_addr t (iaddrs nd) sl) /\
    (forall k, 0 <= k < MAXFILE * BSIZE -> file_byte t' A' k = file_byte t (iaddrs nd) k) /\
    (forall m, foreign t (iaddrs nd) m -> content t' m = content t m)) s.
Proof using All.
  intros Hfa Hbn He Hr. eapply wp_bmap; [done..|]. intros s' t' A' (Hfa' & Hg & _) Hne.
  pose proof (grows_wrote _ _ _ _ _ (fa_map _ _ _ _ _ _ _ _ Hfa) Hg) as Hw. pose proof (wr_map _ _ _ _ _ _ Hw) as Hm.
  destruct (bn_slot_leaf _ Hbn) as [Hok _]. destruct (mo_data _ _ Hm _ Hok Hne) as [Hd Hu].
  rewrite (proj2 (wr_frame _ _ _ _ _ _ Hw)) in Hd.
  exists t', A'. split; [done|]. split; [done|]. split; [done|]. split; [done|]. split; [|split; [|split]].
  - intros bn' Hbn' Hd' Heq. apply Hd'. apply bn_slot_inj; [lia..|]. symmetry.
    apply (mo_inj _ _ Hm); [done| |done|done]. by apply bn_slot_leaf.
  - by apply (wr_old _ _ _ _ _ _ Hw).
  - intros k Hk. by rewrite (wr_bytes _ _ _ _ _ _ Hw).
  - by apply (wr_foreign _ _ _ _ _ _ Hw).
Qed.

(** C8: Inodes survive the trip to the disk.  Inside an operation, [iupdate]
    of an inode whose values fit [struct dinode] makes what [ilock] would load
    from the disk equal to the inode in memory, and leaves the inodes that
    share its block, and all other blocks, as they were. *)
Theorem iupdate_roundtrip `{OpBase} s t start size n ip nd X :
  in_op start size s [] t n -> inodes t !! ip = Some nd -> idev nd = 1 -> 0 <= inum nd < sb_ninodes (sb t) ->
  storable nd -> enough size (n + 1) 1 X ->
  wp (iupdate ip) X (fun _ s' => exists t', in_op start size s' [] t' (n + 1) /\
    load_dinode (content t' (IBLOCK (inum nd) (sb t))) (dinode_off (inum nd)) nd = nd /\
    (forall j, 0 <= j -> j <> inum nd -> dinode_at t' j = dinode_at t j) /\
    (forall m, m <> IBLOCK (inum nd) (sb t) -> content t' m = content t m)) s.
Proof using All.
  intros Hop Hin Hdev Hi Hst He. rewrite Nat.add_1_r in *. eapply wp_iupdate; [done..|].
  intros s' t' Hop' Hsd _. exists t'. split; [done|]. pose proof Hsd as (Hc & _ & _). split; [|split].
  - rewrite Hc, Z.eqb_refl, load_store; [by destruct nd|done|].
    assert (is_block (content t (IBLOCK (inum nd) (sb t)))) as [Hl _].
    { eapply content_block; [exact Hop|]. eapply inode_block_disk; [by eapply io_layout|done]. }
    rewrite Hl. apply dinode_off_range.
  - intros j Hj Hne. eapply dinode_stored_others; [done|apply Hst|lia|done|done].
  - intros m Hne. rewrite Hc. by destruct (Z.eqb_spec m (IBLOCK (inum nd) (sb t))).
Qed.
End thms.

(** ** A disk with one file *)

(** Files with direct blocks only. *)
Lemma map_ok_direct t A :
  length A = 13%nat -> Forall (eq 0) (drop 10 A) ->
  NoDup (filter (fun a => a <> 0) A) ->
  Forall (fun a => a = 0 \/ is_data (sb t) a /\ used t a = true) A -> map_ok t A.
Proof.
  intros Hl Hz Hnd Hd.
  assert (forall sl, slot_ok sl -> slot_addr t A sl <> 0 -> snd sl = [] /\ A !! fst sl = Some (slot_addr t A sl)) as Hsl.
  { intros [i l] (Hi & Hlen & _) Hne. cbn [fst snd] in *. destruct (lookup_lt_is_Some_2 A i) as [a Ha]; [lia|].
    assert (l = []) as ->; [|by rewrite slot_addr_root, Ha in *].
    destruct (decide (i < 10)%nat) as [Hi10|Hi10].
    { destruct l; [done|]. unfold depth in Hlen. cbn in Hlen. lia. }
    assert (slot_addr t A (i, []) = 0) as H0.
    { rewrite slot_addr_root, Ha. cbn. symmetry. eapply (Forall_lookup_1 (eq 0) (drop 10 A) (i - 10)); [done|].
      rewrite lookup_drop. by replace (10 + (i - 10))%nat with i by lia. }
    clear -Hne H0. exfalso. apply Hne. clear Hne. induction l as [|j l IH] using rev_ind; [done|]. by rewrite slot_snoc, IH. }
  split; [done|..].
  - intros sl Hok Hne. destruct (Hsl _ Hok Hne) as [_ Ha]. rewrite Forall_lookup in Hd. by destruct (Hd _ _ Ha).
  - intros [i l] [i' l'] Hok Hok' Hne Heq. destruct (Hsl _ Hok Hne) as [Hl1 Ha]. rewrite Heq in Hne.
    destruct (Hsl _ Hok' Hne) as [Hl2 Ha']. rewrite Heq in Ha. cbn [fst snd] in *. subst l l'. f_equal.
    clear -Hnd Ha Ha' Hne. set (a := slot_addr t A (i', [])) in *. clearbody a. revert i i' Ha Ha'.
    induction A as [|x A IH]; intros i i' Ha Ha'; [done|].
    assert (forall k, A !! k = Some a -> x = a -> False) as Hout.
    { intros k Hk ->. rewrite filter_cons_True in Hnd by done. apply NoDup_cons in Hnd as [Hni _]. apply Hni.
      apply list_elem_of_filter. split; [done|]. by eapply list_elem_of_lookup_2. }
    destruct i as [|i], i' as [|i']; csimpl in Ha; csimpl in Ha'; [done|by destruct (Hout i'); congruence|by destruct (Hout i); congruence|].
    f_equal. apply IH; [|done|done]. rewrite filter_cons in Hnd. case_decide; [by apply NoDup_cons in Hnd as [_ ?]|done].
Qed.

(** 32 blocks: a log of 14, 8 inodes, the bitmap in block 18, data from 19.
    Inode 1 is a file of 100 bytes in block 19, all of value 7. *)
Definition demo_sb : list Z := put_words zeros 0 [32; 13; 8; 14; 2; 16; 18].
Definition demo_inode : inode := mkinode 1 1 1 sl_free 1 T_FILE 0 0 1 100 (19 :: replicate 12 0).
Definition demo_disk : list (list Z) :=
  <[1%nat := demo_sb]> (<[16%nat := store_dinode zeros 64 demo_inode]>
    (<[18%nat := splice zeros 0 [255; 255; 15]]> (<[19%nat := splice zeros 0 (replicate 100 7)]> (replicate 32 zeros)))).
Definition demo_fs (out : Z) : fsstate :=
  mkfs demo_disk [] (replicate NBUF buf0) (seq 0 NBUF) (mklog 2 14 out 0 1 0 (replicate 30 0))
    (sb_decode demo_sb) (demo_inode :: replicate 49 inode0).

Lemma demo_layout out : layout (sb (demo_fs out)) 2 14.
Proof. by split; vm_compute. Qed.

Lemma demo_bc me out : bc_ok me [] (demo_fs out).
Proof. apply bc_okb_ok. by vm_compute. Qed.

Lemma demo_clean out m : ~ dirty_in (demo_fs out) m.
Proof. rewrite dirty_in_blocks. replace (dirty_blocks (demo_fs out)) with (@nil Z) by (by vm_compute). set_solver. Qed.

Lemma demo_meta out : meta_used (demo_fs out).
Proof.
  intros m Hm. assert (forallb (used (demo_fs out)) (map Z.of_nat (seq 0 19)) = true) as Hf by (by vm_compute).
  rewrite forallb_forall in Hf. apply Hf, in_map_iff. exists (Z.to_nat m). change (data_start (sb (demo_fs out))) with 19 in Hm.
  split; [lia|]. apply in_seq. lia.
Qed.

Lemma demo_map out : map_ok (demo_fs out) (iaddrs demo_inode).
Proof.
  apply map_ok_direct; [done|by repeat constructor| |].
  - change (filter _ _) with [19]. apply NoDup_singleton.
  - apply Forall_cons. split; [right; by split; [|vm_compute]|]. apply Forall_replicate. by left.
Qed.

Lemma demo_good out : good_file (demo_fs out) demo_inode.
Proof.
  split; [done|done|done|done|done| |].
  - intros k Hk. change (0 <= k < 100) in Hk. rewrite Z.div_small by (unfold BSIZE; lia). by vm_compute.
  - by vm_compute.
Qed.

Lemma demo_tx : tx (demo_fs 1) 2 14 [].
Proof.
  split; [split|..]; try done.
  - constructor.
  - intros b ?%not_elem_of_nil. done.
  - intros m. split; [by intros ?%demo_clean|by intros ?%not_elem_of_nil].
Qed.

Lemma demo_file : file_at (H2 := mkbase [] 1) 2 14 (small (demo_fs 1)) [] (demo_fs 1) 0 0 demo_inode.
Proof.
  split; [|done|done|apply demo_map|apply demo_meta].
  split; [apply small_at|apply demo_bc| |done|apply demo_layout|done|by intros m ?%demo_clean].
  exists []. split; [apply demo_tx|done].
Qed.

Lemma demo_room out X : room_for (demo_fs out) 8 X.
Proof.
  left. exists (map Z.of_nat (seq 20 8)). split; [apply NoDup_ListNoDup; vm_compute; repeat constructor; cbn; lia|].
  split; [done|]. repeat (apply Forall_cons; split; [by split; [|vm_compute]|]). by apply Forall_nil.
Qed.

Lemma demo_idle : fs_idle (small (demo_fs 0)) (demo_fs 0) 2 14.
Proof.
  split; [apply small_at|apply demo_bc| |done|apply demo_layout|apply demo_meta| |by vm_compute].
  - split; [split; try done|apply demo_clean|done].
    + constructor.
    + by intros b ?%not_elem_of_nil.
  - split; [by apply is_blockb_ok|]. split; [by vm_compute|]. intros k b. by rewrite lookup_nil.
Qed.

#[local] Instance demo_dev : DevSw (kstate fsstate) := {| dev_read _ := None; dev_write _ := None |}.
#[local] Instance demo_base : OpBase := mkbase [] 1.

(** Three bytes at the end of the file. *)
Lemma writei_refines_witness :
  wp (writei 0 [1; 2; 3] 99 3) never (fun r s' => exists t' nd', r = 3 /\
    file_at 2 14 s' [] t' 13 0 nd' /\ good_file t' nd' /\ inum nd' = inum demo_inode /\
    file_data t' (inum demo_inode) = splice (file_data (demo_fs 1) (inum demo_inode)) (Z.to_nat 99) [1; 2; 3] /\
    (forall j, 0 <= j < sb_ninodes (sb (demo_fs 1)) -> j <> inum demo_inode -> dinode_at t' j = dinode_at (demo_fs 1) j) /\
    (forall m, foreign (demo_fs 1) (iaddrs demo_inode) m -> m <> IBLOCK (inum demo_inode) (sb (demo_fs 1)) ->
       content t' m = content (demo_fs 1) m)) (small (demo_fs 1)).
Proof.
  apply (writei_refines (small (demo_fs 1)) (demo_fs 1) 2 14 0 0 demo_inode 99 [1; 2; 3] never).
  - apply demo_file.
  - apply demo_good.
  - done.
  - done.
  - by repeat constructor.
  - left. split; [vm_compute; lia|by vm_compute].
  - eapply room_le; [apply demo_room|]. vm_compute. lia.
Defined.

(** The bytes 90 to 109, of which 10 exist. *)
Lemma readi_refines_witness :
  wp (readi 0 90 20) never (fun r s' => exists t', readable s' t' 0 demo_inode never /\ same_blocks (demo_fs 0) t' /\
    let m := Z.min 20 (isize demo_inode - 90) in
    r = (m, slice (file_data (demo_fs 0) (inum demo_inode)) (Z.to_nat 90) (Z.to_nat m))) (small (demo_fs 0)).
Proof.
  apply (readi_refines (small (demo_fs 0)) (demo_fs 0) 0 demo_inode 90 20 never).
  - split; [apply small_at|apply demo_bc| |done|done|apply demo_map|].
    + left. exists []. split; [by intros m ?%demo_clean|unfold NBUF; cbn; lia].
    + intros m [Hm1 Hm2]. change (19 <= m) in Hm1. change (m < 32) in Hm2. cbn. lia.
  - apply demo_good.
  - done.
  - done.
  - done.
Defined.

Lemma io_refused_witness :
  wp (writei 0 [1; 2; 3] 101 3) never (fun r s' => r = -1 /\ s' = small (demo_fs 1)) (small (demo_fs 1)).
Proof.
  apply (io_refused (small (demo_fs 1)) (demo_fs 1) 0 demo_inode 101 3 [1; 2; 3] never); [apply small_at|done|done|].
  by left.
Defined.

Lemma write_crash_atomic_witness :
  wp (begin_op ;;; r <~ writei 0 [1; 2; 3] 99 3; end_op ;;; ret r) never (fun r s' => exists t' W, r = 3 /\
    at_ s' [] t' /\ history t' = rev W ++ history (demo_fs 0) /\
    file_data t' (inum demo_inode) = splice (file_data (demo_fs 0) (inum demo_inode)) (Z.to_nat 99) [1; 2; 3] /\
    forall j s2 t2, at_ s2 [] t2 ->
      booted (my_pid (S := kstate fsstate) (T := fsstate)) t2 (awrites (disk_at (demo_fs 0)) (take j W)) (length (disk (demo_fs 0))) ->
      wp (initlog 1) never (fun _ s3 => exists t3, at_ s3 [] t3 /\
        old_or_new (demo_fs 0) demo_inode 99 [1; 2; 3] (t3 <| sb := sb (demo_fs 0) |>)) s2) (small (demo_fs 0)).
Proof.
  apply (write_crash_atomic (small (demo_fs 0)) (demo_fs 0) 2 14 0 demo_inode 99 [1; 2; 3] never).
  - apply demo_idle.
  - done.
  - done.
  - done.
  - apply demo_map.
  - apply demo_good.
  - done.
  - done.
  - by repeat constructor.
  - left. split; [vm_compute; lia|by vm_compute].
  - eapply room_le; [apply demo_room|]. vm_compute. lia.
Defined.

Lemma balloc_correct_witness :
  wp (balloc 1) never (fun a s' => exists t', in_op 2 14 s' [] t' 2 /\
    is_data (sb (demo_fs 1)) a /\ used (demo_fs 1) a = false /\ content t' a = replicate (Z.to_nat BSIZE) 0 /\
    (forall m, 0 <= m < sb_size (sb (demo_fs 1)) -> used t' m = (m =? a) || used (demo_fs 1) m) /\
    (forall m, m <> a -> m < sb_bmapstart (sb (demo_fs 1)) \/ data_start (sb (demo_fs 1)) <= m ->
       content t' m = content (demo_fs 1) m)) (small (demo_fs 1)).
Proof.
  apply (balloc_correct (small (demo_fs 1)) (demo_fs 1) 2 14 0 never).
  - apply demo_file.
  - apply demo_meta.
  - left. split; [vm_compute; lia|by vm_compute].
  - left. exists 20. by split; [|vm_compute].
Defined.

(** The first block of the doubly-indirect part. *)
Lemma bmap_correct_witness :
  wp (bmap 0 138) never (fun a s' => exists t' A', file_at 2 14 s' [] t' 11 0 (demo_inode <| iaddrs := A' |>) /\
    a = slot_addr t' A' (bn_slot 138) /\ is_data (sb (demo_fs 1)) a /\ used t' a = true /\
    (forall bn', 0 <= bn' < MAXFILE -> bn' <> 138 -> slot_addr t' A' (bn_slot bn') <> a) /\
    (forall sl, slot_ok sl -> slot_addr (demo_fs 1) (iaddrs demo_inode) sl <> 0 ->
       slot_addr t' A' sl = slot_addr (demo_fs 1) (iaddrs demo_inode) sl) /\
    (forall k, 0 <= k < MAXFILE * BSIZE -> file_byte t' A' k = file_byte (demo_fs 1) (iaddrs demo_inode) k) /\
    (forall m, foreign (demo_fs 1) (iaddrs demo_inode) m -> content t' m = content (demo_fs 1) m)) (small (demo_fs 1)).
Proof.
  apply (bmap_correct (small (demo_fs 1)) (demo_fs 1) 2 14 0 0 demo_inode 138 never).
  - apply demo_file.
  - done.
  - left. split; [vm_compute; lia|by vm_compute].
  - eapply room_le; [apply demo_room|]. lia.
Defined.

Lemma iupdate_roundtrip_witness :
  wp (iupdate 0) never (fun _ s' => exists t', in_op 2 14 s' [] t' 1 /\
    load_dinode (content t' (IBLOCK (inum demo_inode) (sb (demo_fs 1)))) (dinode_off (inum demo_inode)) demo_inode = demo_inode /\
    (forall j, 0 <= j -> j <> inum demo_inode -> dinode_at t' j = dinode_at (demo_fs 1) j) /\
    (forall m, m <> IBLOCK (inum demo_inode) (sb (demo_fs 1)) -> content t' m = content (demo_fs 1) m)) (small (demo_fs 1)).
Proof.
  apply (iupdate_roundtrip (small (demo_fs 1)) (demo_fs 1) 2 14 0 0 demo_inode never).
  - apply demo_file.
  - done.
  - done.
  - done.
  - split; try done. split; [done|]. apply Forall_cons. split; [done|]. by apply Forall_replicate.
  - left. split; [vm_compute; lia|by vm_compute].
Defined.
