(* ===== verification/Pipe.v ===== *)
(** * Pipes ([pipe.c])

    [nread] and [nwrite] are 32-bit counters that wrap around.  The code that
    runs with [p->lock] held is given by what it does next ([write_next],
    [read_next]); [pipewrite] and [piperead] of [File] run it in the kernel,
    and the step relation at the end of this file runs any number of readers
    and writers that sleep and wake each other. *)
From Stdlib Require Import ZArith Lia.
From stdpp Require Import base list gmap strings relations.
From S2P Require Import Prelude Params Bytes Ring.
#[local] Open Scope Z_scope.
#[local] Open Scope kernel_scope.

Definition PIPESIZE : Z := 512.

Record pipe := mkpipe {
  pdata : list Z; nread : Z; nwrite : Z; readopen : Z; writeopen : Z
}.
#[export] Instance eta_pipe : Eta pipe := fun p =>
  mkpipe (pdata p) (nread p) (nwrite p) (readopen p) (writeopen p).

(** What [pipealloc] puts into the page. *)
Definition pipe_init (d : list Z) : pipe := mkpipe d 0 0 1 1.

(** [p->nwrite == p->nread + PIPESIZE], [p->nread == p->nwrite] *)
Definition pipe_full (p : pipe) : bool := nwrite p =? u32 (nread p + PIPESIZE).
Definition pipe_empty (p : pipe) : bool := nread p =? nwrite p.

(** [p->data[p->nwrite++ % PIPESIZE] = c] *)
Definition pipe_put (c : Z) (p : pipe) : pipe :=
  p <| pdata ::= <[Z.to_nat (nwrite p mod PIPESIZE) := c]> |> <| nwrite := u32 (nwrite p + 1) |>.
(** [p->data[p->nread++ % PIPESIZE]] *)
Definition pipe_head (p : pipe) : Z := byte_at (pdata p) (Z.to_nat (nread p mod PIPESIZE)).
Definition pipe_drop (p : pipe) : pipe := p <| nread := u32 (nread p + 1) |>.

(** The next thing [pipewrite] does, [i] bytes of [n] being written: put a
    byte, wake the readers and sleep, fail, or wake the readers and return. *)
Inductive wact := WPut | WSleep | WFail | WDone.
Definition write_next (p : pipe) (killed : bool) (i n : Z) : wact :=
  if i <? n then
    if pipe_full p then if (readopen p =? 0) || killed then WFail else WSleep
    else WPut
  else WDone.

(** The beginning of [piperead]: sleep, fail, or go on to the copy. *)
Inductive ract := RSleep | RFail | RCopy.
Definition read_next (p : pipe) (killed : bool) : ract :=
  if pipe_empty p && negb (writeopen p =? 0) then if killed then RFail else RSleep else RCopy.

(** The copy: at most [n] bytes. *)
Fixpoint read_copy (n : nat) (p : pipe) : list Z * pipe :=
  match n with
  | O => ([], p)
  | S n =>
      if pipe_empty p then ([], p)
      else let '(l, p') := read_copy n (pipe_drop p) in (pipe_head p :: l, p')
  end.

(** [pipeclose]: the pipe, and whether it is freed. *)
Definition close_end (writable : bool) (p : pipe) : pipe * bool :=
  let p := if writable then p <| writeopen := 0 |> else p <| readopen := 0 |> in
  (p, (readopen p =? 0) && (writeopen p =? 0)).

(** ** The bytes in a pipe *)

Definition count (p : pipe) : Z := u32 (nwrite p - nread p).
Definition queue (p : pipe) : list Z :=
  ring PIPESIZE (pdata p) (nread p) (Z.to_nat (count p)).

Record pipe_ok (p : pipe) : Prop := {
  po_len : length (pdata p) = Z.to_nat PIPESIZE;
  po_range : 0 <= nread p < 2 ^ 32 /\ 0 <= nwrite p < 2 ^ 32;
  po_count : count p <= PIPESIZE
}.

Lemma length_queue p : Z.of_nat (length (queue p)) = count p.
Proof. unfold queue. rewrite length_ring. pose proof (u32_range (nwrite p - nread p)). unfold count. lia. Qed.

Lemma pipe_full_spec p : pipe_ok p -> pipe_full p = true <-> count p = PIPESIZE.
Proof.
  intros [_ [Hr Hw] _]. unfold pipe_full, count, PIPESIZE, u32. rewrite Z.eqb_eq. split; intros Heq.
  - rewrite Heq, Zminus_mod_idemp_l. by replace (nread p + 512 - nread p) with 512 by lia.
  - pose proof (Z.div_mod (nwrite p - nread p) (2 ^ 32)).
    apply (Z.mod_unique_pos _ _ (- ((nwrite p - nread p) / 2 ^ 32))); lia.
Qed.

Lemma pipe_empty_spec p : pipe_ok p -> pipe_empty p = true <-> queue p = [].
Proof.
  intros [_ [Hr Hw] _]. unfold pipe_empty. rewrite Z.eqb_eq. rewrite <- length_zero_iff_nil.
  pose proof (length_queue p) as Hl. unfold count, u32 in Hl. split; intros Heq.
  - rewrite <- Heq, Z.sub_diag, Zmod_0_l in Hl. lia.
  - rewrite Heq in Hl. change (Z.of_nat 0) with 0 in Hl. symmetry in Hl. apply Z.mod_divide in Hl as [k Hk]; [|lia]. nia.
Qed.

Lemma count_put p c : pipe_ok p -> pipe_full p = false -> count (pipe_put c p) = count p + 1.
Proof.
  intros Hok Hf. assert (count p < PIPESIZE) as Hlt.
  { pose proof (po_count _ Hok). assert (count p <> PIPESIZE); [|lia]. intros Heq.
    apply pipe_full_spec in Heq; [congruence|done]. }
  unfold count, pipe_put, PIPESIZE in *. cbn. rewrite u32_sub_l.
  replace (nwrite p + 1 - nread p) with (nwrite p - nread p + 1) by lia.
  rewrite <- u32_add_l. apply u32_small. pose proof (u32_range (nwrite p - nread p)). lia.
Qed.

Lemma pipe_ok_put p c : pipe_ok p -> pipe_full p = false -> pipe_ok (pipe_put c p).
Proof.
  intros Hok Hf. pose proof (count_put p c Hok Hf) as Hc. destruct Hok as [Hl [Hr Hw] Hcnt]. split.
  - cbn. by rewrite length_insert.
  - cbn. pose proof (u32_range (nwrite p + 1)). done.
  - rewrite Hc. assert (count p <> PIPESIZE); [|lia]. intros Heq.
    apply pipe_full_spec in Heq; [congruence|by split].
Qed.

(** Writing appends, reading removes the first byte. *)
Lemma queue_put p c : pipe_ok p -> pipe_full p = false -> queue (pipe_put c p) = queue p ++ [c].
Proof.
  intros Hok Hf. pose proof (count_put p c Hok Hf) as Hc.
  assert (0 <= count p < PIPESIZE) as Hlt.
  { split; [apply u32_range|]. pose proof (po_count _ Hok). assert (count p <> PIPESIZE); [|lia]. intros Heq.
    apply pipe_full_spec in Heq; [congruence|done]. }
  unfold queue. rewrite Hc, Z2Nat.inj_add, Nat.add_1_r by lia. unfold pipe_put, setter. cbn.
  fold (cell PIPESIZE (nwrite p)). rewrite <- ring_snoc; [|done|by apply (po_len _ Hok)|lia].
  replace (cell PIPESIZE (nwrite p)) with (cell PIPESIZE (nread p + Z.of_nat (Z.to_nat (count p)))); [done|].
  rewrite Z2Nat.id by lia.
  rewrite <- (cell_u32 PIPESIZE eq_refl eq_refl (nread p + _)), <- (cell_u32 PIPESIZE eq_refl eq_refl (nwrite p)).
  unfold count. rewrite u32_add_r. do 2 f_equal. lia.
Qed.

Lemma count_drop p : pipe_ok p -> pipe_empty p = false -> count (pipe_drop p) = count p - 1 /\ 0 < count p.
Proof.
  intros Hok He. assert (count p <> 0) as Hne.
  { intros Hc. assert (queue p = []) as Hq; [|by apply pipe_empty_spec in Hq; [congruence|]].
    apply length_zero_iff_nil. pose proof (length_queue p). lia. }
  pose proof (u32_range (nwrite p - nread p)) as Hr. fold (count p) in Hr. split; [|lia].
  unfold count, pipe_drop in *. cbn. rewrite u32_sub_r.
  replace (nwrite p - (nread p + 1)) with (nwrite p - nread p - 1) by lia. rewrite <- u32_sub_l.
  apply u32_small. lia.
Qed.

Lemma pipe_ok_drop p : pipe_ok p -> pipe_empty p = false -> pipe_ok (pipe_drop p).
Proof.
  intros Hok He. destruct (count_drop p Hok He) as [Hc Hp]. destruct Hok as [Hl [Hr Hw] Hcnt]. split; [done|..].
  - cbn. pose proof (u32_range (nread p + 1)). done.
  - lia.
Qed.

Lemma queue_drop p : pipe_ok p -> pipe_empty p = false -> queue p = pipe_head p :: queue (pipe_drop p).
Proof.
  intros Hok He. destruct (count_drop p Hok He) as [Hc Hp]. unfold queue. rewrite Hc.
  replace (Z.to_nat (count p)) with (S (Z.to_nat (count p - 1))) by lia. cbn [ring]. f_equal.
  symmetry. by apply ring_u32.
Qed.

(** The copy takes the first [n] bytes. *)
Lemma read_copy_spec n p :
  pipe_ok p ->
  let '(l, p') := read_copy n p in
  l = take n (queue p) /\ queue p' = drop n (queue p) /\ pipe_ok p' /\
  readopen p' = readopen p /\ writeopen p' = writeopen p.
Proof.
  revert p. induction n as [|n IH]; intros p Hok; cbn [read_copy]; [done|].
  destruct (pipe_empty p) eqn:He.
  - apply pipe_empty_spec in He as ->; [|done]. done.
  - rewrite (queue_drop p) by done. specialize (IH (pipe_drop p) (pipe_ok_drop _ Hok He)).
    destruct (read_copy n (pipe_drop p)) as [l p']. destruct IH as (-> & ? & ? & ? & ?). done.
Qed.

(** ** Readers and writers

    [Ready] tasks are about to take [p->lock]; [OnRead] and [OnWrite] tasks
    sleep on [&p->nread] and [&p->nwrite]; the others have returned.  [sent]
    and [recv] are ghosts: the bytes put into the pipe and taken out of it, in
    order.  [lost] records a [pipewrite] that failed after it had put bytes,
    which returns without waking the readers. *)
Inductive tstate := Ready | OnRead | OnWrite | Returned (r : Z).
#[export] Instance tstate_eq_dec : EqDecision tstate.
Proof. solve_decision. Defined.

(** [ioreq]: a call of [pipewrite] with the bytes and the number written, or
    of [piperead] with the number wanted. *)
Inductive ioreq := Write (buf : list Z) (i : nat) | Read (n : nat).

Record task := mktask { req : ioreq; tst : tstate; tkilled : bool }.
#[export] Instance eta_task : Eta task := fun t => mktask (req t) (tst t) (tkilled t).

Record system := mksys {
  the_pipe : pipe; tasks : list task; sent : list Z; recv : list Z; lost : bool
}.
#[export] Instance eta_system : Eta system := fun s =>
  mksys (the_pipe s) (tasks s) (sent s) (recv s) (lost s).

(** [wakeup(&p->nread)], [wakeup(&p->nwrite)] *)
Definition wake_all (c : tstate) (l : list task) : list task :=
  (fun t => if decide (tst t = c) then t <| tst := Ready |> else t) <$> l.

(** [pipewrite] from [i] until it sleeps or returns. *)
Fixpoint write_run (fuel : nat) (killed : bool) (buf : list Z) (p : pipe) (i : nat) : pipe * nat * wact :=
  match write_next p killed (Z.of_nat i) (Z.of_nat (length buf)), fuel with
  | WPut, S fuel => write_run fuel killed buf (pipe_put (byte_at buf i) p) (S i)
  | a, _ => (p, i, a)
  end.

Inductive pipe_step : system -> system -> Prop :=
| step_call s t : tst t = Ready -> (forall b i, req t = Write b i -> i = 0%nat) ->
    pipe_step s (s <| tasks ::= fun l => l ++ [t] |>)
| step_write s k buf i kl p' i' a :
    tasks s !! k = Some (mktask (Write buf i) Ready kl) ->
    write_run (length buf) kl buf (the_pipe s) i = (p', i', a) ->
    pipe_step s (mksys p'
      (match a with
       | WSleep => <[k := mktask (Write buf i') OnWrite kl]> (wake_all OnRead (tasks s))
       | WFail => <[k := mktask (Write buf i') (Returned (-1)) kl]> (tasks s)
       | _ => <[k := mktask (Write buf i') (Returned (Z.of_nat (length buf))) kl]> (wake_all OnRead (tasks s))
       end)
      (sent s ++ take (i' - i) (drop i buf)) (recv s)
      (lost s || (match a with WFail => true | _ => false end && (i <? i')%nat)))
| step_read s k n kl :
    tasks s !! k = Some (mktask (Read n) Ready kl) ->
    pipe_step s
      match read_next (the_pipe s) kl with
      | RSleep => s <| tasks ::= <[k := mktask (Read n) OnRead kl]> |>
      | RFail => s <| tasks ::= <[k := mktask (Read n) (Returned (-1)) kl]> |>
      | RCopy =>
          let '(l, p') := read_copy n (the_pipe s) in
          mksys p' (<[k := mktask (Read n) (Returned (Z.of_nat (length l))) kl]> (wake_all OnWrite (tasks s)))
            (sent s) (recv s ++ l) (lost s)
      end
| step_close s (w : bool) :
    pipe_step s (s <| the_pipe := (close_end w (the_pipe s)).1 |>
                   <| tasks ::= wake_all (if w then OnRead else OnWrite) |>)
| step_kill s k t :
    tasks s !! k = Some t ->
    pipe_step s (s <| tasks ::= <[k := (if decide (tst t = OnRead \/ tst t = OnWrite) then t <| tst := Ready |> else t)
                                        <| tkilled := true |>]> |>).

(** The bytes put are those from [i] to [i'], and the run stops only when
    it has a reason to. *)
Lemma write_run_spec fuel kl buf p i p' i' a :
  pipe_ok p -> (i <= length buf)%nat -> (length buf <= i + fuel)%nat ->
  write_run fuel kl buf p i = (p', i', a) ->
  pipe_ok p' /\ (i <= i' <= length buf)%nat /\ queue p' = queue p ++ take (i' - i) (drop i buf) /\
  readopen p' = readopen p /\ writeopen p' = writeopen p /\
  a = write_next p' kl (Z.of_nat i') (Z.of_nat (length buf)) /\ a <> WPut /\ (i' = i -> p' = p).
Proof.
  revert p i. induction fuel as [|fuel IH]; intros p i Hok Hi Hf Hrun; cbn [write_run] in Hrun.
  - assert (i = length buf) as -> by lia. unfold write_next in *.
    rewrite Z.ltb_irrefl in Hrun. simplify_eq.
    rewrite Nat.sub_diag, app_nil_r. unfold write_next. rewrite Z.ltb_irrefl. done.
  - destruct (write_next p kl (Z.of_nat i) (Z.of_nat (length buf))) eqn:Ha; simplify_eq.
    2-4: rewrite Nat.sub_diag, app_nil_r; done.
    assert (i < length buf)%nat as Hlt.
    { unfold write_next in Ha. destruct (Z.ltb_spec (Z.of_nat i) (Z.of_nat (length buf))); [lia|done]. }
    assert (pipe_full p = false) as Hnf.
    { unfold write_next in Ha. rewrite (proj2 (Z.ltb_lt _ _)) in Ha by lia.
      destruct (pipe_full p); [|done]. by destruct (_ || _). }
    destruct (IH (pipe_put (byte_at buf i) p) (S i) (pipe_ok_put _ _ Hok Hnf) ltac:(lia) ltac:(lia) Hrun)
      as (Hok' & Hi' & Hq & Hr & Hw & Ha' & Hne & _).
    split; [done|]. split; [lia|]. split.
    + rewrite Hq, queue_put by done. rewrite <- app_assoc. f_equal.
      replace (i' - i)%nat with (S (i' - S i)) by lia.
      destruct (lookup_lt_is_Some_2 buf i Hlt) as [c Hc].
      rewrite (drop_S _ c i Hc). cbn. by rewrite (byte_at_lookup _ _ _ Hc).
    + do 4 (split; [done|]). lia.
Qed.

(** *** The invariant *)

Record sys_ok (s : system) : Prop := {
  so_pipe : pipe_ok (the_pipe s);
  so_fifo : sent s = recv s ++ queue (the_pipe s);
  so_req : forall k t b i, tasks s !! k = Some t -> req t = Write b i -> (i <= length b)%nat;
  so_writers : forall k t, tasks s !! k = Some t -> tst t = OnWrite ->
    pipe_full (the_pipe s) = true /\ readopen (the_pipe s) <> 0;
  so_readers : forall k t, tasks s !! k = Some t -> tst t = OnRead ->
    lost s = false -> queue (the_pipe s) = [] /\ writeopen (the_pipe s) <> 0
}.

Lemma wake_all_lookup c l k t :
  wake_all c l !! k = Some t -> exists t0, l !! k = Some t0 /\ req t = req t0 /\
    (tst t = tst t0 \/ tst t = Ready) /\ (c <> Ready -> tst t <> c).
Proof.
  unfold wake_all. rewrite list_lookup_fmap. destruct (l !! k) as [t0|]; [|done]. cbn.
  intros [= <-]. exists t0. split; [done|]. case_decide; cbn; auto 10.
Qed.

(** A task that ran: the others are as they were or awake. *)
Lemma sys_ok_wake c l k x :
  forall j t, <[k := x]> (wake_all c l) !! j = Some t ->
  t = x \/ exists t0, l !! j = Some t0 /\ req t = req t0 /\ (tst t = tst t0 \/ tst t = Ready) /\ (c <> Ready -> tst t <> c).
Proof.
  intros j t [(<- & <- & _)|[_ Hj]]%list_lookup_insert_Some; [by left|]. right. by apply wake_all_lookup.
Qed.

Lemma sys_ok_step_write s k buf i kl p' i' a :
  sys_ok s -> tasks s !! k = Some (mktask (Write buf i) Ready kl) ->
  write_run (length buf) kl buf (the_pipe s) i = (p', i', a) ->
  sys_ok (mksys p'
      (match a with
       | WSleep => <[k := mktask (Write buf i') OnWrite kl]> (wake_all OnRead (tasks s))
       | WFail => <[k := mktask (Write buf i') (Returned (-1)) kl]> (tasks s)
       | _ => <[k := mktask (Write buf i') (Returned (Z.of_nat (length buf))) kl]> (wake_all OnRead (tasks s))
       end)
      (sent s ++ take (i' - i) (drop i buf)) (recv s)
      (lost s || (match a with WFail => true | _ => false end && (i <? i')%nat))).
Proof.
  intros [Hp Hf Hreq Hw Hr] Hk Hrun. pose proof (Hreq k _ buf i Hk eq_refl) as Hi. cbn in Hi.
  destruct (write_run_spec (length buf) kl buf _ i _ _ _ Hp Hi ltac:(lia) Hrun) as (Hp' & Hi' & Hq & Hro & Hwo & Ha & Hne & Hsame).
  assert (Hfull : forall j t, tasks s !! j = Some t -> tst t = OnWrite -> pipe_full p' = true /\ readopen p' <> 0).
  { intros j t Hj Ht. destruct (Hw j t Hj Ht) as [Hfu Hop]. split; [|congruence].
    apply pipe_full_spec; [done|]. apply pipe_full_spec in Hfu; [|done].
    pose proof (length_queue p') as Hl'. pose proof (length_queue (the_pipe s)) as Hl. rewrite Hq, length_app in Hl'.
    pose proof (po_count _ Hp'). lia. }
  assert (Hsl : a = WSleep -> pipe_full p' = true /\ readopen p' <> 0).
  { intros ->. unfold write_next in Ha. destruct (_ <? _); [|done]. destruct (pipe_full p'); [|done].
    destruct (Z.eqb_spec (readopen p') 0); [done|]. done. }
  split; cbn; [done|by rewrite Hf, Hq, app_assoc|..].
  - intros j t b i0 Hj Hb. destruct a; try done;
      try (apply sys_ok_wake in Hj as [->|(t0 & Hj & Hrq & _)]; [by simplify_eq/=; lia|apply (Hreq j t0); congruence]).
    apply list_lookup_insert_Some in Hj as [(<- & <- & _)|[_ Hj]]; [by simplify_eq/=; lia|by apply (Hreq j t)].
  - intros j t Hj Ht. destruct a; try done.
    + apply sys_ok_wake in Hj as [->|(t0 & Hj & _ & [Heq|Heq] & _)]; [by apply Hsl|apply (Hfull j t0); congruence|congruence].
    + apply list_lookup_insert_Some in Hj as [(<- & <- & _)|[_ Hj]]; [done|by apply (Hfull j t)].
    + apply sys_ok_wake in Hj as [->|(t0 & Hj & _ & [Heq|Heq] & _)]; [done|apply (Hfull j t0); congruence|congruence].
  - intros j t Hj Ht Hlost. destruct a; try done;
      try (apply sys_ok_wake in Hj as [->|(t0 & _ & _ & _ & Hn)]; [done|by destruct Hn]).
    apply orb_false_iff in Hlost as [Hl Hii]. cbn in Hii. assert (i' = i) as -> by (apply Nat.ltb_ge in Hii; lia).
    rewrite Hsame by done.
    apply list_lookup_insert_Some in Hj as [(<- & <- & _)|[_ Hj]]; [done|by apply (Hr j t)].
Qed.

Lemma sys_ok_set s k x :
  sys_ok s -> (forall b i, req x = Write b i -> (i <= length b)%nat) ->
  (tst x = OnWrite -> pipe_full (the_pipe s) = true /\ readopen (the_pipe s) <> 0) ->
  (tst x = OnRead -> lost s = false -> queue (the_pipe s) = [] /\ writeopen (the_pipe s) <> 0) ->
  sys_ok (s <| tasks ::= <[k := x]> |>).
Proof.
  intros [Hp Hf Hreq Hw Hr] H1 H2 H3. split; cbn; [done|done|..]; intros j t.
  - intros b i [(<- & <- & _)|[_ Hj]]%list_lookup_insert_Some; [by apply H1|by apply (Hreq j)].
  - intros [(<- & <- & _)|[_ Hj]]%list_lookup_insert_Some; [by apply H2|by apply (Hw j)].
  - intros [(<- & <- & _)|[_ Hj]]%list_lookup_insert_Some; [by apply H3|by apply (Hr j)].
Qed.

Lemma sys_ok_copy s k n kl p' :
  let l := take n (queue (the_pipe s)) in
  sys_ok s -> pipe_ok p' -> queue p' = drop n (queue (the_pipe s)) ->
  readopen p' = readopen (the_pipe s) -> writeopen p' = writeopen (the_pipe s) ->
  sys_ok (mksys p' (<[k := mktask (Read n) (Returned (Z.of_nat (length l))) kl]> (wake_all OnWrite (tasks s)))
            (sent s) (recv s ++ l) (lost s)).
Proof.
  intros l [Hp Hf Hreq Hw Hr] Hp' Hq Hro Hwo. split; cbn; [done|unfold l; by rewrite Hf, Hq, <- app_assoc, take_drop|..]; intros j t.
  - intros b i0 Hj Hb. apply sys_ok_wake in Hj as [->|(t0 & Hj & Hrq & _)]; [done|]. apply (Hreq j t0); congruence.
  - intros Hj Ht. apply sys_ok_wake in Hj as [->|(t0 & _ & _ & _ & Hn)]; [done|by destruct Hn].
  - intros Hj Ht Hl. apply sys_ok_wake in Hj as [->|(t0 & Hj & _ & [Heq|Heq] & _)]; [done| |congruence].
    destruct (Hr j t0 Hj ltac:(congruence) Hl) as [Hq0 Hw0]. rewrite Hq, Hq0, Hwo. by rewrite drop_nil.
Qed.

Lemma sys_ok_step s s' : sys_ok s -> pipe_step s s' -> sys_ok s'.
Proof.
  intros Hok Hstep. destruct Hstep as [s t Ht Hi|s k buf i kl p' i' a Hk Hrun|s k n kl Hk|s w|s k t Hk].
  - destruct Hok as [Hp Hf Hreq Hw Hr]. split; cbn; try done; intros j x.
    + intros b i [Hj|[_ Hj]]%lookup_app_Some Hb; [by apply (Hreq j x)|].
      apply list_lookup_singleton_Some in Hj as [_ <-]. rewrite (Hi _ _ Hb). lia.
    + intros [Hj|[_ Hj]]%lookup_app_Some Hb; [by apply (Hw j x)|].
      apply list_lookup_singleton_Some in Hj as [_ <-]. congruence.
    + intros [Hj|[_ Hj]]%lookup_app_Some Hb; [by apply (Hr j x)|].
      apply list_lookup_singleton_Some in Hj as [_ <-]. congruence.
  - by eapply sys_ok_step_write.
  - pose proof (so_pipe _ Hok) as Hp. unfold read_next.
    assert (Hcopy : sys_ok (let '(l, p') := read_copy n (the_pipe s) in
      mksys p' (<[k := mktask (Read n) (Returned (Z.of_nat (length l))) kl]> (wake_all OnWrite (tasks s)))
            (sent s) (recv s ++ l) (lost s))).
    { pose proof (read_copy_spec n _ Hp) as Hc. destruct (read_copy n (the_pipe s)) as [l p'].
      destruct Hc as (-> & Hq & Hp' & Hro & Hwo). by apply sys_ok_copy. }
    destruct (pipe_empty (the_pipe s)) eqn:He; [|done].
    destruct (Z.eqb_spec (writeopen (the_pipe s)) 0) as [Hwo|Hwo]; [done|]. cbn [andb negb].
    destruct kl; apply sys_ok_set; try done. intros _ _. split; [by apply pipe_empty_spec|done].
  - destruct Hok as [Hp Hf Hreq Hw Hr].
    assert (pipe_ok (close_end w (the_pipe s)).1) as Hp' by (destruct Hp, w; by split).
    split; cbn; [done|by destruct w|..]; intros j x.
    + intros b i (t0 & Hj & Hrq & _)%wake_all_lookup Hb. apply (Hreq j t0); congruence.
    + intros (t0 & Hj & _ & [Heq|Heq] & Hn)%wake_all_lookup Ht; [|congruence].
      destruct w; [apply (Hw j t0 Hj); congruence|by destruct Hn].
    + intros (t0 & Hj & _ & [Heq|Heq] & Hn)%wake_all_lookup Ht; [|congruence].
      destruct w; [by destruct Hn|]. apply (Hr j t0 Hj); congruence.
  - pose proof Hok as [_ _ Hreq Hw Hr]. apply sys_ok_set; [done|..].
    + intros b i. case_decide; cbn; by apply (Hreq k t).
    + case_decide as Hd; cbn; [done|]. intros Ht. by destruct Hd; right.
    + case_decide as Hd; cbn; [done|]. intros Ht. by destruct Hd; left.
Qed.

(** C17: A pipe is a queue.  However many readers and writers call [piperead]
    and [pipewrite], sleep, are woken, are killed or close their ends, the
    bytes read so far followed by those in the buffer are the bytes written
    so far, in order, also when the 32-bit counters wrap around; there are
    never more than [PIPESIZE] of them in the buffer; a writer sleeps only
    while the buffer is full and the read end open; and unless a writer was
    killed in the middle of its call, a reader sleeps only while the buffer is
    empty and the write end open, so no wakeup is lost. *)
Theorem pipe_fifo d s :
  length d = Z.to_nat PIPESIZE -> rtc pipe_step (mksys (pipe_init d) [] [] [] false) s ->
  sent s = recv s ++ queue (the_pipe s) /\
  Z.of_nat (length (queue (the_pipe s))) <= PIPESIZE /\
  forall k t, tasks s !! k = Some t ->
    (tst t = OnWrite -> pipe_full (the_pipe s) = true /\ readopen (the_pipe s) <> 0) /\
    (tst t = OnRead -> lost s = false -> queue (the_pipe s) = [] /\ writeopen (the_pipe s) <> 0).
Proof.
  intros Hd Hr. assert (sys_ok s) as [Hp Hf _ Hw Hrd].
  { assert (sys_ok (mksys (pipe_init d) [] [] [] false)) as H0.
    { split; cbn; [by split|done|..]; intros k; by rewrite lookup_nil. }
    revert H0. induction Hr as [|s1 s2 s3 Hstep _ IH]; [done|]. intros Hs. by apply IH; eapply sys_ok_step. }
  split; [done|]. split; [rewrite length_queue; apply Hp|]. intros k t Hk. split; [by apply (Hw k)|by apply (Hrd k)].
Qed.

(** *** A writer that fills the pipe and a reader that empties it *)

Definition run_full : system :=
  mksys (mkpipe (<[0%nat := 9]> (replicate 512 7)) 512 513 1 1)
    [mktask (Write (replicate 512 7 ++ [9]) 513) (Returned 513) false;
     mktask (Read 600) (Returned 512) false]
    (replicate 512 7 ++ [9]) (replicate 512 7) false.

Lemma pipe_fifo_witness :
  rtc pipe_step (mksys (pipe_init (replicate 512 0)) [] [] [] false) run_full /\
  sent run_full = recv run_full ++ queue (the_pipe run_full).
Proof.
  assert (rtc pipe_step (mksys (pipe_init (replicate 512 0)) [] [] [] false) run_full) as Hr.
  { eapply rtc_l; [apply (step_call _ (mktask (Write (replicate 512 7 ++ [9]) 0) Ready false)); naive_solver|].
    eapply rtc_l; [apply (step_call _ (mktask (Read 600) Ready false)); naive_solver|].
    eapply rtc_l; [eapply (step_write _ 0 _ 0 false _ 512 WSleep); [done|by vm_compute]|].
    eapply rtc_l; [apply (step_read _ 1 600 false); done|].
    eapply rtc_l; [eapply (step_write _ 0 _ 512 false _ 513 WDone); [by vm_compute|by vm_compute]|].
    vm_compute. apply rtc_refl. }
  split; [done|]. apply (pipe_fifo (replicate 512 0) run_full); [by vm_compute|exact Hr].
Defined.
