(* ===== verification/Vm.v ===== *)
(** * Page tables ([vm.c])

    A page directory is the kernel address of a page; an entry of it or of a
    page table is a word of that page.  A pointer to an entry is the address
    of its page and its index. *)
From Stdlib Require Import ZArith Lia.
From stdpp Require Import base list gmap strings.
From S2P Require Import Prelude Params Mmu Bytes Spinlock Proc Sched SchedInv Kern Sleeplock FsData Demo Kalloc.
#[local] Open Scope Z_scope.
#[local] Open Scope kernel_scope.

Definition pteref : Type := Z * Z.

(** [struct kmap] *)
Record kmap_entry := mkkmap { virt : Z; phys_start : Z; phys_end : Z; perm : Z }.

Definition kmap `{Layout} : list kmap_entry := [
  mkkmap KERNBASE 0 EXTMEM PTE_W;
  mkkmap KERNLINK (V2P KERNLINK) (V2P kdata) 0;
  mkkmap kdata (V2P kdata) PHYSTOP PTE_W;
  mkkmap DEVSPACE DEVSPACE 0 PTE_W].

Section ops.
Context `{Layout} {S : Type} `{KernOps S kmem}.

(** [*pte] *)
Definition load_pte (r : pteref) : M S Z := d <~ page_at (fst r); ret (word_at d (snd r)).
Definition store_pte (r : pteref) (v : Z) : M S unit :=
  d <~ page_at (fst r); set_page (fst r) (set_word d (snd r) v).

(** [memset(v, 0, PGSIZE)] *)
Definition zero_page (v : Z) : M S unit := set_page v (replicate (Z.to_nat PGSIZE) 0).

Definition is_present (e : Z) : bool := negb (Z.land e PTE_P =? 0).

Definition walkpgdir (pgdir va : Z) (alloc : bool) : M S (option pteref) :=
  let pde := (pgdir, PDX va) in
  e <~ load_pte pde;
  if is_present e then ret (Some (P2V (PTE_ADDR e), PTX va))
  else if negb alloc then ret None
  else
    pgtab <~ kalloc;
    if pgtab =? 0 then ret None
    else
      zero_page pgtab ;;;
      store_pte pde (Z.lor (Z.lor (Z.lor (V2P pgtab) PTE_P) PTE_W) PTE_U) ;;;
      ret (Some (pgtab, PTX va)).

(** The loop makes as many rounds as there are pages from [a] to [last]. *)
Definition mappages (pgdir va size pa perm : Z) : M S Z :=
  let a := PGROUNDDOWN va in
  let last := PGROUNDDOWN (u32 (va + size - 1)) in
  loop (Z.to_nat (u32 (last - a) / PGSIZE) + 1) (fun '(a, pa) =>
    r <~ walkpgdir pgdir a true;
    match r with
    | None => ret (inr (-1))
    | Some pte =>
        e <~ load_pte pte;
        if is_present e then panic "remap"
        else
          store_pte pte (Z.lor (Z.lor pa perm) PTE_P) ;;;
          ret (if a =? last then inr 0 else inl (u32 (a + PGSIZE), u32 (pa + PGSIZE)))
    end) (a, pa).

(** Rounds of the loop of [deallocuvm]: those without skipping. *)
Definition dealloc_fuel (a oldsz : Z) : nat := Z.to_nat ((oldsz - a) / PGSIZE) + 2.

Definition deallocuvm (pgdir oldsz newsz : Z) : M S Z :=
  if oldsz <=? newsz then ret oldsz
  else
    let a := PGROUNDUP newsz in
    loop (dealloc_fuel a oldsz) (fun a =>
      if a <? oldsz then
        r <~ walkpgdir pgdir a false;
        match r with
        | None => ret (inl (u32 (u32 (PGADDR (PDX a + 1) 0 0 - PGSIZE) + PGSIZE)))
        | Some pte =>
            e <~ load_pte pte;
            (if is_present e then
               let pa := PTE_ADDR e in
               if pa =? 0 then panic "kfree"
               else kfree (P2V pa) ;;; store_pte pte 0
             else ret tt) ;;;
            ret (inl (u32 (a + PGSIZE)))
        end
      else ret (inr tt)) a ;;;
    ret newsz.

Definition freevm (pgdir : Z) : M S unit :=
  if pgdir =? 0 then panic "freevm: no pgdir"
  else
    deallocuvm pgdir KERNBASE 0 ;;;
    for_each (seq 0 (Z.to_nat NPDENTRIES)) (fun i =>
      e <~ load_pte (pgdir, Z.of_nat i);
      if is_present e then kfree (P2V (PTE_ADDR e)) else ret tt) ;;;
    kfree pgdir.

Definition setupkvm : M S Z :=
  pgdir <~ kalloc;
  if pgdir =? 0 then ret 0
  else
    zero_page pgdir ;;;
    if DEVSPACE <? P2V PHYSTOP then panic "PHYSTOP too high"
    else
      r <~ for_until kmap (fun k =>
        r <~ mappages pgdir (virt k) (u32 (phys_end k - phys_start k)) (phys_start k) (perm k);
        if r <? 0 then freevm pgdir ;;; ret (Some 0) else ret None);
      ret (default pgdir r).

Definition inituvm (pgdir : Z) (init : list Z) (sz : Z) : M S unit :=
  if PGSIZE <=? sz then panic "inituvm: more than a page"
  else
    mem <~ kalloc;
    zero_page mem ;;;
    mappages pgdir 0 PGSIZE (V2P mem) (Z.lor PTE_W PTE_U) ;;;
    d <~ page_at mem;
    set_page mem (splice d 0 (take (Z.to_nat sz) init)).

(** The pages from [a] up to [sz]. *)
Definition page_count (a sz : Z) : nat := Z.to_nat ((sz - a + PGSIZE - 1) / PGSIZE).

(** [allocuvm] without its messages. *)
Definition allocuvm (pgdir oldsz newsz : Z) : M S Z :=
  if KERNBASE <=? newsz then ret 0
  else if newsz <? oldsz then ret oldsz
  else
    let a0 := PGROUNDUP oldsz in
    r <~ for_until (seq 0 (page_count a0 newsz)) (fun k =>
      let a := a0 + PGSIZE * Z.of_nat k in
      mem <~ kalloc;
      if mem =? 0 then deallocuvm pgdir newsz oldsz ;;; ret (Some 0)
      else
        zero_page mem ;;;
        r <~ mappages pgdir a PGSIZE (V2P mem) (Z.lor PTE_W PTE_U);
        if r <? 0 then deallocuvm pgdir newsz oldsz ;;; kfree mem ;;; ret (Some 0)
        else ret None);
    ret (default newsz r).

Definition clearpteu (pgdir uva : Z) : M S unit :=
  r <~ walkpgdir pgdir uva false;
  match r with
  | None => panic "clearpteu"
  | Some pte => e <~ load_pte pte; store_pte pte (Z.land e (u32 (Z.lnot PTE_U)))
  end.

Definition copyuvm (pgdir sz : Z) : M S Z :=
  d <~ setupkvm;
  if d =? 0 then ret 0
  else
    r <~ for_until (seq 0 (page_count 0 sz)) (fun k =>
      let i := PGSIZE * Z.of_nat k in
      r <~ walkpgdir pgdir i false;
      match r with
      | None => panic "copyuvm: pte should exist"
      | Some pte =>
          e <~ load_pte pte;
          if negb (is_present e) then panic "copyuvm: page not present"
          else
            let pa := PTE_ADDR e in
            let flags := PTE_FLAGS e in
            mem <~ kalloc;
            if mem =? 0 then freevm d ;;; ret (Some 0)
            else
              data <~ page_at (P2V pa);
              set_page mem data ;;;
              r <~ mappages d i PGSIZE (V2P mem) flags;
              if r <? 0 then kfree mem ;;; freevm d ;;; ret (Some 0) else ret None
      end);
    ret (default d r).

(** [*pte] is read without a test of [pte]. *)
Definition uva2ka (pgdir uva : Z) : M S Z :=
  r <~ walkpgdir pgdir uva false;
  match r with
  | None => undef "uva2ka: null pte"
  | Some pte =>
      e <~ load_pte pte;
      ret (if negb (is_present e) then 0
           else if Z.land e PTE_U =? 0 then 0
           else P2V (PTE_ADDR e))
  end.

Definition copyout (pgdir va : Z) (p : list Z) (len : Z) : M S Z :=
  loop (Z.to_nat (len / PGSIZE) + 3) (fun '(va, p, len) =>
    if 0 <? len then
      let va0 := PGROUNDDOWN va in
      pa0 <~ uva2ka pgdir va0;
      if pa0 =? 0 then ret (inr (-1))
      else
        let n := Z.min (PGSIZE - (va - va0)) len in
        d <~ page_at pa0;
        set_page pa0 (splice d (Z.to_nat (va - va0)) (take (Z.to_nat n) p)) ;;;
        ret (inl (u32 (va0 + PGSIZE), drop (Z.to_nat n) p, len - n))
    else ret (inr 0)) (va, p, len).

(** ** Loads and stores of kernel code at user addresses

    The processor translates them with the page table that is loaded; an
    address without a present entry faults.  The kernel runs at level 0, so
    [PTE_U] and [PTE_W] are not looked at. *)
Definition user_page (pgdir va : Z) : M S Z :=
  r <~ walkpgdir pgdir va false;
  match r with
  | None => undef "page fault"
  | Some pte =>
      e <~ load_pte pte;
      if is_present e then ret (P2V (PTE_ADDR e)) else undef "page fault"
  end.

Definition user_byte (pgdir va : Z) : M S Z :=
  a <~ user_page pgdir va;
  d <~ page_at a;
  ret (byte_at d (Z.to_nat (va mod PGSIZE))).

Fixpoint user_load (pgdir va : Z) (n : nat) : M S (list Z) :=
  match n with
  | O => ret []
  | Datatypes.S n =>
      b <~ user_byte pgdir va;
      l <~ user_load pgdir (u32 (va + 1)) n;
      ret (b :: l)
  end.

Fixpoint user_write (pgdir va : Z) (l : list Z) : M S unit :=
  match l with
  | [] => ret tt
  | b :: l =>
      a <~ user_page pgdir va;
      d <~ page_at a;
      set_page a (<[Z.to_nat (va mod PGSIZE) := b]> d) ;;;
      user_write pgdir (u32 (va + 1)) l
  end.
End ops.
