(* ===== verification/VmMap.v ===== *)
(** * Page tables as maps ([vm.c]: [walkpgdir], [mappages])

    An address space is the map from page numbers to the entries of its page
    tables.  [walkpgdir] adds empty tables, [mappages] sets the entries of a
    range; the pages of other address spaces are not touched. *)
From Stdlib Require Import ZArith Lia.
From stdpp Require Import base list gmap strings.
From S2P Require Import Prelude Params Mmu Bytes Spinlock Proc Sched SchedInv Kern Sleeplock FsData Demo Kalloc Vm.
#[local] Open Scope Z_scope.
#[local] Open Scope kernel_scope.

(** ** Entries *)

Definition is_page (d : list Z) : Prop := length d = Z.to_nat PGSIZE /\ bytes_ok d.

(** The entry [walkpgdir] puts in the directory. *)
Definition PDE (tab : Z) : Z := Z.lor (Z.lor (Z.lor (V2P tab) PTE_P) PTE_W) PTE_U.
(** The entry [mappages] puts in a table. *)
Definition PTE (pa perm : Z) : Z := Z.lor (Z.lor pa perm) PTE_P.

(** Flags in the low 12 bits of an aligned address. *)
Lemma lor_low a f : 0 <= a -> a mod 4096 = 0 -> 0 <= f < 4096 -> Z.lor a f = a + f.
Proof.
  intros Ha Hm Hf. rewrite <- Z.add_lor_land. assert (Z.land a f = 0) as ->; [|by rewrite Z.add_0_r].
  apply Z.bits_inj'. intros n Hn. rewrite Z.land_spec, Z.bits_0. destruct (Z.lt_ge_cases n 12) as [Hlt|Hge].
  - assert (Z.testbit a n = false) as ->; [|done]. change 4096 with (2 ^ 12) in Hm. rewrite <- Z.land_ones in Hm by lia.
    apply (f_equal (fun x => Z.testbit x n)) in Hm. rewrite Z.land_spec, Z.bits_0, Z.ones_spec_low in Hm by lia.
    by rewrite andb_true_r in Hm.
  - destruct (decide (f = 0)) as [->|]; [by rewrite Z.bits_0, andb_false_r|].
    rewrite (Z.bits_above_log2 f); [apply andb_false_r|lia|].
    apply Z.log2_lt_pow2; [lia|]. apply Z.lt_le_trans with (2 ^ 12); [lia|]. apply Z.pow_le_mono_r; lia.
Qed.

Lemma low_range x y : 0 <= x < 4096 -> 0 <= y < 4096 -> 0 <= Z.lor x y < 4096.
Proof.
  intros Hx Hy. assert (0 <= Z.lor x y) by (apply Z.lor_nonneg; lia). split; [done|].
  destruct (decide (Z.lor x y = 0)) as [->|]; [lia|].
  change 4096 with (2 ^ 12). apply Z.log2_lt_pow2; [lia|]. rewrite Z.log2_lor by lia.
  assert (forall z, 0 <= z < 4096 -> Z.log2 z < 12) as Hl; [|by apply Z.max_lub_lt; apply Hl].
  intros z Hz. destruct (decide (z = 0)) as [->|]; [done|]. apply Z.log2_lt_pow2; lia.
Qed.

Lemma PTE_spec pa perm :
  0 <= pa < 2 ^ 32 -> pa mod 4096 = 0 -> 0 <= perm < 4096 ->
  PTE_ADDR (PTE pa perm) = pa /\ PTE_FLAGS (PTE pa perm) = Z.lor perm PTE_P /\ is_present (PTE pa perm) = true /\
  0 <= PTE pa perm < 2 ^ 32.
Proof.
  intros Hp Hm Hf. unfold PTE. rewrite <- Z.lor_assoc.
  pose proof (low_range perm PTE_P Hf ltac:(done)) as Hr. rewrite lor_low by lia.
  assert (pa + Z.lor perm PTE_P < 2 ^ 32) as Hlt.
  { pose proof (Z.div_mod pa 4096 ltac:(lia)). change (2 ^ 32) with (1048576 * 4096) in *. nia. }
  rewrite PTE_ADDR_div, PTE_FLAGS_mod by lia. rewrite <- Zplus_mod_idemp_l, Hm, (Z.mod_small _ 4096) by lia.
  assert ((pa + Z.lor perm PTE_P) / 4096 * 4096 = pa) as ->.
  { assert (pa = pa / 4096 * 4096) as Hq by (pose proof (Z.div_mod pa 4096 ltac:(lia)); lia).
    set (q := pa / 4096) in *. rewrite Hq, Z.div_add_l, (Z.div_small _ 4096) by lia. lia. }
  split; [done|]. split; [done|]. split; [|lia]. unfold is_present. rewrite <- lor_low by lia.
  rewrite Z.land_lor_distr_l, Z.land_lor_distr_l. unfold PTE_P. rewrite (Z.land_diag 1).
  apply negb_true_iff, Z.eqb_neq. intros H0. apply Z.lor_eq_0_iff in H0 as [_ H0]. apply Z.lor_eq_0_iff in H0 as [_ H0]. done.
Qed.

Section maps.
Context `{Layout}.
Implicit Types (pgs : gmap Z (list Z)) (T : gmap Z Z).

Lemma page_ok_phys a : page_ok a -> 0 <= V2P a < 2 ^ 32 /\ V2P a mod 4096 = 0 /\ P2V (V2P a) = a /\ 0 < V2P a.
Proof.
  intros Ha. pose proof (page_ok_range a Ha) as Hr. destruct Ha as [Hm _]. unfold PGSIZE, KERNBASE in *.
  assert (V2P a = a - 0x80000000) as Hv by (unfold V2P, KERNBASE; rewrite u32_small; lia).
  rewrite P2V_V2P by lia. rewrite Hv. split; [lia|]. split; [|split; [done|lia]].
  rewrite Zminus_mod, Hm. done.
Qed.

Lemma PDE_spec tab : page_ok tab ->
  is_present (PDE tab) = true /\ P2V (PTE_ADDR (PDE tab)) = tab /\ 0 <= PDE tab < 2 ^ 32.
Proof.
  intros Ht. destruct (page_ok_phys tab Ht) as (Hr & Hm & Hp & _).
  assert (PDE tab = PTE (V2P tab) (Z.lor PTE_W PTE_U)) as ->.
  { unfold PDE, PTE. rewrite <- !Z.lor_assoc. f_equal. }
  destruct (PTE_spec (V2P tab) (Z.lor PTE_W PTE_U)) as (-> & _ & ? & ?); [done|done|done|]. by rewrite Hp.
Qed.

(** The directory [pd] has the tables [T], by index. *)
Record dir_ok pgs (pd : Z) T : Prop := {
  do_dir : exists d, pgs !! pd = Some d /\ is_page d /\ forall i, 0 <= i < 1024 ->
    match T !! i with Some tab => word_at d i = PDE tab | None => is_present (word_at d i) = false end;
  do_tab : forall i tab, T !! i = Some tab ->
    0 <= i < 1024 /\ page_ok tab /\ tab <> pd /\ exists e, pgs !! tab = Some e /\ is_page e;
  do_inj : forall i j tab, T !! i = Some tab -> T !! j = Some tab -> i = j
}.

(** The entry for page number [v]. *)
Definition ent pgs T (v : Z) : Z :=
  match T !! (v / 1024) with
  | Some tab => word_at (default [] (pgs !! tab)) (v mod 1024)
  | None => 0
  end.

(** The pages of the tables. *)
Definition tabs T : list Z := (map_to_list T).*2.

Lemma elem_of_tabs T tab : tab ∈ tabs T <-> exists i, T !! i = Some tab.
Proof.
  unfold tabs. rewrite list_elem_of_fmap. split.
  - intros ([i t] & -> & Hi%elem_of_map_to_list). by exists i.
  - intros [i Hi]. exists (i, tab). split; [done|]. by apply elem_of_map_to_list.
Qed.

Lemma tabs_insert T i tab : T !! i = None -> tabs (<[i := tab]> T) ≡ₚ tab :: tabs T.
Proof. intros Hi. unfold tabs. by rewrite map_to_list_insert. Qed.

Lemma page_split_v va v : 0 <= va < 2 ^ 32 -> v = va / 4096 -> v / 1024 = PDX va /\ v mod 1024 = PTX va.
Proof.
  intros Hva ->. destruct (page_split va Hva) as (Hs & Hd & Ht). rewrite Hs.
  rewrite Z.div_add_l, (Z.div_small (PTX va)) by lia. rewrite (Z.add_comm (PDX va * 1024)), Z.mod_add, Z.mod_small by lia. lia.
Qed.

(** Writes to other pages. *)
Lemma dir_ok_frame pgs pgs' pd T :
  dir_ok pgs pd T -> (forall p, p = pd \/ p ∈ tabs T -> pgs' !! p = pgs !! p) -> dir_ok pgs' pd T.
Proof.
  intros [(d & Hd & Hpg & Hw) Ht Hi] Hf. split; [|..|done].
  - exists d. split; [rewrite Hf by (by left); done|done].
  - intros i tab Hit. destruct (Ht _ _ Hit) as (? & ? & ? & e & He & ?). split; [done|]. split; [done|]. split; [done|].
    exists e. split; [rewrite Hf; [done|right; apply elem_of_tabs; by exists i]|done].
Qed.

Lemma ent_frame pgs pgs' T v : (forall p, p ∈ tabs T -> pgs' !! p = pgs !! p) -> ent pgs' T v = ent pgs T v.
Proof.
  intros Hf. unfold ent. destruct (T !! (v / 1024)) as [tab|] eqn:Ht; [|done].
  rewrite Hf; [done|]. apply elem_of_tabs. by exists (v / 1024).
Qed.

Lemma zero_page_ok : is_page (replicate (Z.to_nat PGSIZE) 0).
Proof. split; [by rewrite length_replicate|]. by apply Forall_replicate. Qed.

Lemma set_word_page d k v : is_page d -> is_page (set_word d k v).
Proof. intros [Hl Hb]. split; [by rewrite length_set_word|by apply bytes_ok_set_word]. Qed.

Lemma word_at_zero_page k : word_at (replicate (Z.to_nat PGSIZE) 0) k = 0.
Proof.
  assert (forall n i, byte_at (replicate n 0) i = 0) as Hb.
  { intros n. unfold byte_at. induction n as [|n IH]; intros [|i]; cbn; auto. }
  unfold word_at, get32. by rewrite !Hb.
Qed.
Lemma free_ok_pages k l p d : free_ok k l -> p ∉ l -> free_ok (k <| pages ::= <[p := d]> |>) l.
Proof.
  intros [Hc Hn Hp] Hl. split; [|done|done]. eapply chain_frame; [|done]. intros a Ha. cbn.
  rewrite lookup_insert_ne; [done|]. by intros ->.
Qed.

End maps.

(** ** Rules *)

Section rules.
Context `{Layout} {S : Type} `{KernLaws S kmem} (L : list Z) (HL : kmem_lock ∉ L).
Implicit Types (s : S) (k : kmem) (l : list Z) (X : stop -> Prop) (T : gmap Z Z).

(** The directory [pd] with tables [T], while the pages [l] are free. *)
Record space s k l (pd : Z) T : Prop := {
  sp_at : at_ s L k;
  sp_free : free_ok k l;
  sp_dir : dir_ok (pages k) pd T;
  sp_pd : page_ok pd /\ pd ∉ l;
  sp_tab : forall tab, tab ∈ tabs T -> tab ∉ l
}.

(** Tables were added, with pages from the front of the free list; no page but
    those of the directory changed. *)
Record extends (pd : Z) k l T k' l' T' : Prop := {
  ex_taken : exists tk, l = tk ++ l' /\ tabs T' ≡ₚ tk ++ tabs T;
  ex_sub : T ⊆ T';
  ex_frame : forall p, p <> pd -> p ∉ tabs T' -> pages k' !! p = pages k !! p;
  ex_lock : use_lock k' = use_lock k
}.

(** The new tables are for the directory entries from [lo] to [hi]. *)
Definition adds_keys T T' (lo hi : Z) : Prop := forall i, is_Some (T' !! i) -> is_Some (T !! i) \/ lo <= i <= hi.

Lemma extends_refl pd k l T : extends pd k l T k l T.
Proof. split; try done. by exists []. Qed.

Lemma extends_trans pd k l T k1 l1 T1 k2 l2 T2 :
  extends pd k l T k1 l1 T1 -> extends pd k1 l1 T1 k2 l2 T2 -> extends pd k l T k2 l2 T2.
Proof.
  intros [(tk1 & -> & Ht1) Hs1 Hf1 Hu1] [(tk2 & -> & Ht2) Hs2 Hf2 Hu2]. split.
  - exists (tk1 ++ tk2). split; [by rewrite app_assoc|]. rewrite Ht2, Ht1. solve_Permutation.
  - by etrans.
  - intros p Hp Hn. rewrite Hf2 by done. apply Hf1; [done|]. rewrite Ht2 in Hn. intros Hin. apply Hn, elem_of_app. by right.
  - congruence.
Qed.

Lemma wp_load_pte s k a d j X (Q : Z -> S -> Prop) :
  at_ s L k -> pages k !! a = Some d -> Q (word_at d j) s -> wp (load_pte (a, j)) X Q s.
Proof. intros Hat Hd HQ. unfold load_pte. mstep. eapply wp_page_at; [done..|]. by mstep. Qed.

Lemma wp_store_pte s k a d j v X (Q : unit -> S -> Prop) :
  at_ s L k -> pages k !! a = Some d ->
  (forall s', at_ s' L (k <| pages ::= <[a := set_word d j v]> |>) -> Q tt s') -> wp (store_pte (a, j) v) X Q s.
Proof.
  intros Hat Hd HQ. unfold store_pte. mstep. eapply wp_page_at; [done..|]. unfold set_page. mstep. by apply HQ.
Qed.

Lemma wp_walk_some s k l pd T va tab alloc X (Q : option pteref -> S -> Prop) :
  space s k l pd T -> 0 <= va < 2 ^ 32 -> T !! PDX va = Some tab -> Q (Some (tab, PTX va)) s ->
  wp (walkpgdir pd va alloc) X Q s.
Proof.
  intros [Hat _ Hd _ _] Hva HT HQ. destruct (page_split va Hva) as (_ & Hi & _).
  destruct (do_dir _ _ _ Hd) as (d & Hpd & _ & Hw). specialize (Hw _ Hi). rewrite HT in Hw.
  destruct (do_tab _ _ _ Hd _ _ HT) as (_ & Ht & _). destruct (PDE_spec tab Ht) as (Hpr & Had & _).
  unfold walkpgdir. mstep. eapply wp_load_pte; [done..|]. rewrite Hw, Hpr, Had. by mstep.
Qed.

Lemma wp_walk_none s k l pd T va X (Q : option pteref -> S -> Prop) :
  space s k l pd T -> 0 <= va < 2 ^ 32 -> T !! PDX va = None -> Q None s -> wp (walkpgdir pd va false) X Q s.
Proof.
  intros [Hat _ Hd _ _] Hva HT HQ. destruct (page_split va Hva) as (_ & Hi & _).
  destruct (do_dir _ _ _ Hd) as (d & Hpd & _ & Hw). specialize (Hw _ Hi). rewrite HT in Hw.
  unfold walkpgdir. mstep. eapply wp_load_pte; [done..|]. rewrite Hw. cbn [negb]. by mstep.
Qed.

(** A new, empty table. *)
Section new_table.
Context (s s' : S) (k k' : kmem) (l : list Z) (pd : Z) (T : gmap Z Z) (i a : Z) (d zp : list Z).
Context (Hsp : space s k (a :: l) pd T) (Hi : 0 <= i < 1024) (HT : T !! i = None) (Hd : pages k !! pd = Some d).
Context (Hk' : pages k' = <[pd := set_word d i (PDE a)]> (<[a := zp]> (pages k))).
Context (Hzp : is_page zp) (Hz : forall j, word_at zp j = 0).

Lemma new_page : page_ok a /\ a <> pd /\ (a ∉ l) /\ (pd ∉ l) /\ (forall tab, tab ∈ tabs T -> tab <> a /\ (tab ∉ l)).
Proof using All.
  destruct Hsp as [_ Hf _ [_ Hpdl] Htl]. pose proof (fo_nodup _ _ Hf) as [Hal _]%NoDup_cons.
  split; [apply (fo_page _ _ Hf); set_solver|]. split; [set_solver|]. split; [done|]. split; [set_solver|].
  intros tab Htab. apply Htl in Htab. set_solver.
Qed.

Lemma new_frame p : p <> pd -> p <> a -> pages k' !! p = pages k !! p.
Proof using All. intros H1' H2'. by rewrite Hk', !lookup_insert_ne. Qed.

Lemma new_dir_ok : dir_ok (pages k') pd (<[i := a]> T).
Proof using All.
  destruct new_page as (Ha & Hapd & _ & _ & Htl). pose proof (sp_dir _ _ _ _ _ Hsp) as [(d0 & Hd0 & Hpg & Hw) Ht Hinj].
  assert (d0 = d) as -> by congruence. destruct (PDE_spec a Ha) as (_ & _ & HPr). split.
  - exists (set_word d i (PDE a)). split; [rewrite Hk'; apply lookup_insert_eq|]. split; [by apply set_word_page|]. intros j Hj.
    destruct (decide (j = i)) as [->|Hne].
    + rewrite lookup_insert_eq, word_at_set_eq; [done|lia| |done]. rewrite (proj1 Hpg). unfold PGSIZE. lia.
    + rewrite lookup_insert_ne by done. rewrite word_at_set_ne by lia. by apply Hw.
  - intros j tab [[Hij Hta]|[Hne Hj]]%lookup_insert_Some.
    { rewrite <- Hij, <- Hta. split; [done|]. split; [done|]. split; [done|]. exists zp. split; [|done].
      rewrite Hk', lookup_insert_ne by done. apply lookup_insert_eq. }
    destruct (Ht _ _ Hj) as (? & ? & Hp & e & He & ?). split; [done|]. split; [done|]. split; [done|].
    exists e. split; [rewrite new_frame; [done|done|]|done]. apply Htl. apply elem_of_tabs. by exists j.
  - intros j1 j2 tab [[Hi1 Ha1]|[Hn1 H1']]%lookup_insert_Some [[Hi2 Ha2]|[Hn2 H2']]%lookup_insert_Some.
    + congruence.
    + destruct (Htl tab) as [? _]; [apply elem_of_tabs; by exists j2|done].
    + destruct (Htl tab) as [? _]; [apply elem_of_tabs; by exists j1|done].
    + by eapply Hinj.
Qed.

Lemma new_ent v : ent (pages k') (<[i := a]> T) v = ent (pages k) T v.
Proof using All.
  destruct new_page as (Ha & Hapd & _ & _ & Htl). unfold ent. destruct (decide (v / 1024 = i)) as [Hv|Hv].
  - rewrite Hv, lookup_insert_eq, HT, Hk', lookup_insert_ne, lookup_insert_eq by done. apply Hz.
  - rewrite lookup_insert_ne by done. destruct (T !! (v / 1024)) as [tab|] eqn:HTv; [|done].
    destruct (do_tab _ _ _ (sp_dir _ _ _ _ _ Hsp) _ _ HTv) as (_ & _ & Hp & _).
    rewrite new_frame; [done|done|]. apply Htl. apply elem_of_tabs. by exists (v / 1024).
Qed.

Lemma new_table : at_ s' L k' -> free_ok k' l -> use_lock k' = use_lock k ->
  space s' k' l pd (<[i := a]> T) /\ extends pd k (a :: l) T k' l (<[i := a]> T).
Proof using All.
  intros Hat' Hf' Hu'. destruct new_page as (Ha & Hapd & Hal & Hpdl & Htl). split; split; try done.
  - apply new_dir_ok.
  - split; [by apply (sp_pd _ _ _ _ _ Hsp)|done].
  - intros tab Htab. rewrite tabs_insert in Htab by done. apply elem_of_cons in Htab as [->|Htab]; [done|]. by apply Htl.
  - exists [a]. split; [done|]. by rewrite tabs_insert.
  - by apply insert_subseteq.
  - intros p Hp Hn. rewrite tabs_insert in Hn by done. apply new_frame; [done|]. set_solver.
Qed.
End new_table.
Lemma wp_walk_alloc s k l pd T va X (Q : option pteref -> S -> Prop) :
  space s k l pd T -> 0 <= va < 2 ^ 32 ->
  (l = [] -> T !! PDX va = None -> forall s', space s' k [] pd T -> Q None s') ->
  (forall s' k' l' T' tab, space s' k' l' pd T' -> extends pd k l T k' l' T' -> T' !! PDX va = Some tab ->
     (forall v, ent (pages k') T' v = ent (pages k) T v) -> adds_keys T T' (PDX va) (PDX va) -> Q (Some (tab, PTX va)) s') ->
  wp (walkpgdir pd va true) X Q s.
Proof using All.
  intros Hsp Hva Hnone Hsome. destruct (T !! PDX va) as [tab|] eqn:HT.
  { eapply wp_walk_some; [done..|]. eapply Hsome; [done|apply extends_refl|done|done|by left]. }
  destruct (page_split va Hva) as (_ & Hi & _). pose proof Hsp as [Hat Hf Hd Hpd Htl].
  destruct (do_dir _ _ _ Hd) as (d & Hpg & Hdp & Hw). specialize (Hw _ Hi). rewrite HT in Hw.
  unfold walkpgdir. mstep. eapply wp_load_pte; [done..|]. rewrite Hw. cbn [negb]. mstep.
  eapply wp_kalloc; [done|done|done|]. destruct l as [|a l].
  { intros s1 Hat1. cbn [Z.eqb]. mstep. by eapply Hnone. }
  intros s1 k1 Hat1 Hf1 Hp1 Hu1. assert (page_ok a) as Hapg by (apply (fo_page _ _ Hf), elem_of_cons; by left). pose proof (page_ok_range a Hapg) as Ha.
  destruct (Z.eqb_spec a 0); [unfold KERNBASE in Ha; lia|]. unfold zero_page, set_page.
  pose proof zero_page_ok as Hzp. pose proof word_at_zero_page as Hz. generalize dependent (replicate (Z.to_nat PGSIZE) 0).
  intros zp Hzp Hz. mstep. mstep. mstep. set (k2 := k1 <| pages ::= _ |>) in *. pose proof (fo_nodup _ _ Hf) as [Hal _]%NoDup_cons.
  assert (a <> pd) as Hapd by (intros ->; apply (proj2 Hpd), elem_of_cons; by left).
  eapply (wp_store_pte _ k2 pd d); [done| |].
  { change (<[a := zp]> (pages k1) !! pd = Some d). by rewrite lookup_insert_ne, Hp1. }
  intros s3 Hat3. mstep. set (k3 := k2 <| pages ::= _ |>) in *.
  assert (pages k3 = <[pd := set_word d (PDX va) (PDE a)]> (<[a := zp]> (pages k))) as Hk3.
  { rewrite <- Hp1. reflexivity. }
  edestruct (new_table s s3 k k3 l pd T (PDX va) a d zp Hsp Hi HT Hpg Hk3 Hzp Hz Hat3) as [Hsp3 Hex3]; [|done|].
  { apply free_ok_pages; [by apply free_ok_pages|]. intros Hin. apply (proj2 Hpd), elem_of_cons. by right. }
  eapply Hsome; [done|done|apply lookup_insert_eq|intros v; by eapply new_ent|].
  intros i [? [[<- _]|[_ Hi']]%lookup_insert_Some]; [right; lia|left; by eexists].
Qed.

(** The page of a table. *)
Lemma space_table s k l pd T i tab : space s k l pd T -> T !! i = Some tab ->
  exists e, pages k !! tab = Some e /\ is_page e.
Proof. intros [_ _ Hd _ _] Hi. by destruct (do_tab _ _ _ Hd _ _ Hi) as (_ & _ & _ & ?). Qed.

(** Setting an entry. *)
Lemma set_entry s s' k l pd T v tab e w :
  space s k l pd T -> 0 <= v -> T !! (v / 1024) = Some tab -> pages k !! tab = Some e -> 0 <= w < 2 ^ 32 ->
  let k' := k <| pages ::= <[tab := set_word e (v mod 1024) w]> |> in
  at_ s' L k' ->
  space s' k' l pd T /\ extends pd k l T k' l T /\
  forall v', 0 <= v' -> ent (pages k') T v' = if v' =? v then w else ent (pages k) T v'.
Proof using All.
  intros Hsp Hv HT He Hw k' Hat'. pose proof Hsp as [Hat Hf Hd [Hpd Hpdl] Htl]. pose proof Hd as [(d & Hpg & Hdp & Hwd) Ht Hinj].
  destruct (Ht _ _ HT) as (Hir & Htp & Htpd & e0 & He0 & Hep). assert (e0 = e) as -> by congruence.
  assert (tab ∈ tabs T) as Htt by (apply elem_of_tabs; by exists (v / 1024)).
  assert (forall p, p <> tab -> pages k' !! p = pages k !! p) as Hfr by (intros p Hp; by apply lookup_insert_ne).
  pose proof (Z.mod_pos_bound v 1024 ltac:(lia)) as Hm.
  assert (pages k' !! tab = Some (set_word e (v mod 1024) w)) as Htab' by apply lookup_insert_eq.
  split; [split|split]; try done.
  - apply free_ok_pages; [done|]. by apply Htl.
  - split; [|..|done].
    + exists d. split; [by rewrite Hfr|done].
    + intros i t Hit. destruct (Ht _ _ Hit) as (? & ? & ? & et & Het & ?). do 3 (split; [done|]).
      destruct (decide (t = tab)) as [->|Hne]; [|exists et; split; [by rewrite Hfr|done]].
      exists (set_word e (v mod 1024) w). split; [done|by apply set_word_page].
  - split; try done; [by exists []|]. intros p _ Hn. apply Hfr. set_solver.
  - intros v' Hv'. unfold ent. destruct (T !! (v' / 1024)) as [t'|] eqn:HT'.
    2: { by destruct (Z.eqb_spec v' v) as [->|]; [congruence|]. }
    destruct (decide (t' = tab)) as [->|Hne].
    + assert (v' / 1024 = v / 1024) as Hdv by (by eapply Hinj). rewrite Htab', He. cbn [default id].
      pose proof (Z.mod_pos_bound v' 1024 ltac:(lia)). pose proof (Z.div_mod v 1024 ltac:(lia)). pose proof (Z.div_mod v' 1024 ltac:(lia)).
      destruct (Z.eqb_spec v' v) as [->|Hvv].
      * rewrite word_at_set_eq; [done|lia| |done]. rewrite (proj1 Hep). unfold PGSIZE. lia.
      * apply word_at_set_ne; lia.
    + rewrite Hfr by done. by destruct (Z.eqb_spec v' v) as [->|]; [congruence|].
Qed.
(** The entries with those of [j] pages from page number [v0] set. *)
Definition mapping (v0 j pa perm : Z) (f : Z -> Z) (v : Z) : Z :=
  if (v0 <=? v) && (v <? v0 + j) then PTE (pa + (v - v0) * 4096) perm else f v.

Lemma mapping_0 v0 pa perm f v : mapping v0 0 pa perm f v = f v.
Proof. unfold mapping. by destruct (Z.leb_spec v0 v), (Z.ltb_spec v (v0 + 0)); [lia|..]. Qed.

Lemma mapping_snoc v0 j pa perm f v : 0 <= j ->
  mapping (v0 + j) 1 (pa + j * 4096) perm (mapping v0 j pa perm f) v = mapping v0 (j + 1) pa perm f v.
Proof.
  intros Hj. unfold mapping.
  destruct (Z.leb_spec (v0 + j) v), (Z.ltb_spec v (v0 + j + 1)), (Z.leb_spec v0 v), (Z.ltb_spec v (v0 + j)),
    (Z.ltb_spec v (v0 + (j + 1))); cbn [andb]; try lia; try done.
  f_equal. lia.
Qed.

Lemma mapping_ext v0 j pa perm f g v : f v = g v -> mapping v0 j pa perm f v = mapping v0 j pa perm g v.
Proof. intros Hf. unfold mapping. by rewrite Hf. Qed.

(** One round of [mappages]. *)
Lemma wp_map_page {B} s k l pd T v pa perm (x : B + Z) X (Q : B + Z -> S -> Prop) :
  space s k l pd T -> 0 <= v < 2 ^ 20 -> 0 <= pa < 2 ^ 32 -> pa mod 4096 = 0 -> 0 <= perm < 4096 ->
  is_present (ent (pages k) T v) = false ->
  (l = [] -> forall s', space s' k [] pd T -> Q (inr (-1)) s') ->
  (forall s' k' l' T', space s' k' l' pd T' -> extends pd k l T k' l' T' ->
     (forall v', 0 <= v' -> ent (pages k') T' v' = mapping v 1 pa perm (ent (pages k) T) v') ->
     adds_keys T T' (v / 1024) (v / 1024) -> Q x s') ->
  wp (r <~ walkpgdir pd (v * 4096) true;
      match r with
      | None => ret (inr (-1))
      | Some pte =>
          e <~ load_pte pte;
          if is_present e then panic "remap" else store_pte pte (Z.lor (Z.lor pa perm) PTE_P) ;;; ret x
      end) X Q s.
Proof using All.
  intros Hsp Hv Hpa Hpm Hperm Habs Hnone HQ.
  destruct (page_split_v (v * 4096) v) as [Hd Ht]; [lia|by rewrite Z.div_mul|].
  mstep. eapply wp_walk_alloc; [done|lia| |].
  { intros -> _ s1 Hsp1. mstep. by apply Hnone. }
  intros s1 k1 l1 T1 tab Hsp1 Hex1 HT1 Hent1 Hks. rewrite <- Hd in HT1, Hks. rewrite <- Ht.
  destruct (space_table _ _ _ _ _ _ _ Hsp1 HT1) as (e & He & _).
  mstep. eapply wp_load_pte; [by eapply sp_at|done|].
  assert (word_at e (v mod 1024) = ent (pages k) T v) as ->.
  { rewrite <- Hent1. unfold ent. by rewrite HT1, He. }
  rewrite Habs. destruct (PTE_spec pa perm Hpa Hpm Hperm) as (_ & _ & _ & Hw).
  mstep. eapply wp_store_pte; [by eapply sp_at|done|]. intros s2 Hat2. mstep.
  destruct (set_entry s1 s2 k1 l1 pd T1 v tab e (PTE pa perm)) as (Hsp2 & Hex2 & Hent2); [done|lia|done|done|done|exact Hat2|].
  eapply HQ; [done|by eapply extends_trans| |done]. intros v' Hv'. rewrite Hent2, Hent1 by done. unfold mapping.
  destruct (Z.eqb_spec v' v) as [->|Hne].
  - rewrite Z.leb_refl, (proj2 (Z.ltb_lt v (v + 1))) by lia. by rewrite Z.sub_diag, Z.add_0_r.
  - destruct (Z.leb_spec v v'), (Z.ltb_spec v' (v + 1)); cbn [andb]; [lia|done|done|done].
Qed.
(** Mapping [n] pages: all of them, or some when memory runs out. *)
Lemma wp_mappages s k l pd T v0 n pa perm X (Q : Z -> S -> Prop) :
  space s k l pd T -> 0 <= v0 -> 1 <= n -> v0 + n <= 2 ^ 20 -> 0 <= pa -> pa mod 4096 = 0 ->
  pa + n * 4096 <= 2 ^ 32 -> 0 <= perm < 4096 ->
  (forall v, v0 <= v < v0 + n -> is_present (ent (pages k) T v) = false) ->
  (forall s' k' T' j, space s' k' [] pd T' -> extends pd k l T k' [] T' -> 0 <= j < n ->
     (forall v, 0 <= v -> ent (pages k') T' v = mapping v0 j pa perm (ent (pages k) T) v) ->
     adds_keys T T' (v0 / 1024) ((v0 + n - 1) / 1024) -> Q (-1) s') ->
  (forall s' k' l' T', space s' k' l' pd T' -> extends pd k l T k' l' T' ->
     (forall v, 0 <= v -> ent (pages k') T' v = mapping v0 n pa perm (ent (pages k) T) v) ->
     adds_keys T T' (v0 / 1024) ((v0 + n - 1) / 1024) -> Q 0 s') ->
  wp (mappages pd (v0 * 4096) (n * 4096) pa perm) X Q s.
Proof using All.
  intros Hsp Hv0 Hn Hv Hpa Hpm Hmax Hperm Habs Hfail HQ. unfold mappages.
  assert (PGROUNDDOWN (v0 * 4096) = v0 * 4096) as -> by (rewrite PGROUNDDOWN_div, Z.div_mul; lia).
  assert (PGROUNDDOWN (u32 (v0 * 4096 + n * 4096 - 1)) = (v0 + n - 1) * 4096) as ->.
  { rewrite u32_small by lia. rewrite PGROUNDDOWN_div by lia. f_equal. symmetry. apply Z.div_unique with 4095; lia. }
  cbn zeta. rewrite u32_small by lia. replace ((v0 + n - 1) * 4096 - v0 * 4096) with ((n - 1) * PGSIZE) by (unfold PGSIZE; lia).
  rewrite Z.div_mul by done.
  apply wp_loop with
    (I := fun '(a, p) s' => exists j k' l' T', a = (v0 + j) * 4096 /\ p = pa + j * 4096 /\ 0 <= j < n /\
       space s' k' l' pd T' /\ extends pd k l T k' l' T' /\ adds_keys T T' (v0 / 1024) ((v0 + n - 1) / 1024) /\
       forall v, 0 <= v -> ent (pages k') T' v = mapping v0 j pa perm (ent (pages k) T) v)
    (var := fun '(a, _) _ => Z.to_nat (v0 + n - 1 - a / 4096)).
  - exists 0, k, l, T. split; [lia|]. split; [lia|]. split; [lia|]. split; [done|]. split; [apply extends_refl|].
    split; [by left|]. intros v Hv'. by rewrite mapping_0.
  - rewrite Z.div_mul by lia. lia.
  - intros [a p] s1 (j & k1 & l1 & T1 & -> & -> & Hj & Hsp1 & Hex1 & Hks1 & Hent1).
    eapply wp_map_page; [done|lia|lia| |done| | |].
    + by rewrite Z.mod_add.
    + rewrite Hent1 by lia. unfold mapping. destruct (Z.leb_spec v0 (v0 + j)), (Z.ltb_spec (v0 + j) (v0 + j)); [lia|..]; apply Habs; lia.
    + intros -> s2 Hsp2. eapply Hfail; [done|done|done|done|done].
    + intros s2 k2 l2 T2 Hsp2 Hex2 Hent2 Hks2. pose proof (extends_trans _ _ _ _ _ _ _ _ _ _ Hex1 Hex2) as Hex.
      assert (adds_keys T T2 (v0 / 1024) ((v0 + n - 1) / 1024)) as Hks.
      { intros i [[?|?]%Hks1|Hi]%Hks2; [by left|by right|right].
        assert (v0 / 1024 <= (v0 + j) / 1024) by (apply Z.div_le_mono; lia). assert ((v0 + j) / 1024 <= (v0 + n - 1) / 1024) by (apply Z.div_le_mono; lia). lia. }
      assert (forall v, 0 <= v -> ent (pages k2) T2 v = mapping v0 (j + 1) pa perm (ent (pages k) T) v) as Hent.
      { intros v Hv'. rewrite Hent2 by done. rewrite <- mapping_snoc by lia. by apply mapping_ext, Hent1. }
      destruct (Z.eqb_spec ((v0 + j) * 4096) ((v0 + n - 1) * 4096)) as [He|Hne].
      * replace (j + 1) with n in Hent by lia. by eapply HQ.
      * split.
        -- exists (j + 1), k2, l2, T2. rewrite !u32_small by (unfold PGSIZE; lia). unfold PGSIZE.
           split; [lia|]. split; [lia|]. split; [lia|]. done.
        -- rewrite u32_small by (unfold PGSIZE; lia). replace ((v0 + j) * 4096 + PGSIZE) with ((v0 + j + 1) * 4096) by (unfold PGSIZE; lia).
           rewrite !Z.div_mul by lia. lia.
Qed.
End rules.
