(* ===== verification/VmSpace.v ===== *)
(** * Address spaces ([vm.c]: [deallocuvm], [freevm], [setupkvm], [allocuvm], [copyuvm])

    An address space owns its directory, its tables and the pages of its user
    part.  Building and tearing down address spaces moves pages between the
    free list and their owners; none is lost and none has two owners. *)
From Stdlib Require Import ZArith Lia.
From stdpp Require Import base list gmap strings.
From S2P Require Import Prelude Params Mmu Bytes Spinlock Proc Sched SchedInv Kern Sleeplock FsData Demo Kalloc Vm VmMap.
#[local] Open Scope Z_scope.
#[local] Open Scope kernel_scope.

(** The number of user pages. *)
Definition UPAGES : Z := 2 ^ 19.

(** Everything an address space owns: [U] gives the page of each user page
    number. *)
Definition own (pd : Z) (T U : gmap Z Z) : list Z := pd :: tabs T ++ tabs U.

Lemma own_nodup pd T U l : NoDup (own pd T U ++ l) ->
  (pd ∉ tabs T) /\ (pd ∉ tabs U) /\ (forall p, p ∈ tabs T -> p ∉ tabs U) /\ (forall p, p ∈ own pd T U -> p ∉ l).
Proof.
  unfold own. intros (Hnd & Hl & _)%NoDup_app. apply NoDup_cons in Hnd as [Hpd Hnd].
  apply NoDup_app in Hnd as (_ & Hd & _). rewrite not_elem_of_app in Hpd. destruct Hpd. done.
Qed.

Section space.
Context `{Layout} {S : Type} `{KernLaws S kmem} (L : list Z) (HL : kmem_lock ∉ L).
Implicit Types (s : S) (k : kmem) (l : list Z) (X : stop -> Prop) (T U : gmap Z Z).
Abbreviation space := (space L).

(** An entry of the user part. *)
Definition maps_to (e : Z) (o : option Z) : Prop :=
  match o with
  | Some a => is_present e = true /\ PTE_ADDR e = V2P a
  | None => is_present e = false
  end.

Record aspace s k l (pd : Z) T U : Prop := {
  as_space : space s k l pd T;
  as_ent : forall v, 0 <= v < UPAGES -> maps_to (ent (pages k) T v) (U !! v);
  as_page : forall v a, U !! v = Some a ->
    0 <= v < UPAGES /\ page_ok a /\ exists d, pages k !! a = Some d /\ is_page d;
  as_inj : forall v v' a, U !! v = Some a -> U !! v' = Some a -> v = v';
  as_nodup : NoDup (own pd T U ++ l)
}.

(** Changes elsewhere. *)
Lemma aspace_frame s s' k k' l l' pd T U :
  aspace s k l pd T U -> at_ s' L k' -> free_ok k' l' -> (forall p, p ∈ own pd T U -> pages k' !! p = pages k !! p) ->
  (forall p, p ∈ own pd T U -> p ∉ l') -> aspace s' k' l' pd T U.
Proof.
  intros [[Hat Hf Hd [Hpd Hpl] Htl] He Hp Hi Hnd] Hat' Hf' Hfr Hnl.
  assert (forall p, p ∈ tabs T -> pages k' !! p = pages k !! p) as HfT.
  { intros p Hp'. apply Hfr. unfold own. set_solver. }
  split; [split; [done|done| | |]| | |done|].
  - eapply dir_ok_frame; [done|]. intros p [->|Hp']; [|by apply HfT]. apply Hfr. unfold own. set_solver.
  - split; [done|]. apply Hnl. unfold own. set_solver.
  - intros tab Htab. apply Hnl. unfold own. set_solver.
  - intros v Hv. rewrite (ent_frame (pages k)) by done. by apply He.
  - intros v a Hv. destruct (Hp _ _ Hv) as (? & ? & d & Hd' & ?). split; [done|]. split; [done|]. exists d.
    split; [|done]. rewrite Hfr; [done|]. unfold own. assert (a ∈ tabs U) by (apply elem_of_tabs; by exists v). set_solver.
  - apply NoDup_app in Hnd as (Hnd & _ & _). apply NoDup_app. split; [done|]. split; [done|]. by apply (fo_nodup _ _ Hf').
Qed.

(** Taking a page out of the user part. *)
Lemma own_delete pd T U v a : U !! v = Some a -> own pd T U ≡ₚ a :: own pd T (delete v U).
Proof.
  intros Hv. unfold own. rewrite <- (insert_delete_id _ _ _ Hv) at 1.
  rewrite tabs_insert by apply lookup_delete_eq. solve_Permutation.
Qed.

Lemma own_insert pd T U v a : U !! v = None -> own pd T (<[v := a]> U) ≡ₚ a :: own pd T U.
Proof. intros Hv. unfold own. rewrite tabs_insert by done. solve_Permutation. Qed.
(** The user pages from [lo] to [hi] went to the free list. *)
Record released pd T k U l k' U' l' (lo hi : Z) : Prop := {
  re_user : forall u, U' !! u = if decide (lo <= u < hi) then None else U !! u;
  re_perm : own pd T U ++ l ≡ₚ own pd T U' ++ l';
  re_frame : forall p, p ∉ tabs T -> p ∉ l' -> pages k' !! p = pages k !! p;
  re_ent : forall v, 0 <= v -> ~ lo <= v < hi -> ent (pages k') T v = ent (pages k) T v;
  re_more : forall p, p ∈ l -> p ∈ l';
  re_lock : use_lock k' = use_lock k
}.

Lemma released_trans pd T k U l k1 U1 l1 k2 U2 l2 lo mid hi :
  lo <= mid <= hi -> 0 <= lo -> released pd T k U l k1 U1 l1 lo mid -> released pd T k1 U1 l1 k2 U2 l2 mid hi ->
  released pd T k U l k2 U2 l2 lo hi.
Proof.
  intros Hm H0' [Hu1 Hp1 Hf1 He1 Hl1 Hk1] [Hu2 Hp2 Hf2 He2 Hl2 Hk2]. split.
  - intros u. rewrite Hu2, Hu1. repeat case_decide; try done; lia.
  - by rewrite Hp1.
  - intros p Ht Hl. rewrite Hf2 by done. apply Hf1; [done|]. intros ?%Hl2. done.
  - intros v Hv Hn. rewrite He2, He1 by lia. done.
  - auto.
  - congruence.
Qed.

(** Nothing was mapped there. *)
Lemma released_none pd T k U l lo hi :
  (forall u, lo <= u < hi -> U !! u = None) -> released pd T k U l k U l lo hi.
Proof. intros Hn. split; try done. intros u. case_decide; [by apply Hn|done]. Qed.

Lemma is_present_0 : is_present 0 = false.
Proof. done. Qed.

(** One page. *)
Lemma aspace_release s s1 s2 k k1 l pd T U v tab e a :
  aspace s k l pd T U -> U !! v = Some a -> T !! (v / 1024) = Some tab -> pages k !! tab = Some e ->
  at_ s1 L k1 -> free_ok k1 (a :: l) -> (forall p, p <> a -> pages k1 !! p = pages k !! p) -> use_lock k1 = use_lock k ->
  let k2 := k1 <| pages ::= <[tab := set_word e (v mod 1024) 0]> |> in
  at_ s2 L k2 ->
  aspace s2 k2 (a :: l) pd T (delete v U) /\ released pd T k U l k2 (delete v U) (a :: l) v (v + 1).
Proof using All.
  intros Has HU HT Het Hat1 Hf1 Hp1 Hu1 k2 Hat2. pose proof Has as [Hsp He Hp Hinj Hnd]. destruct (Hp _ _ HU) as (Hv & Ha & _).
  pose proof (own_delete pd T U v a HU) as Hown.
  assert (NoDup (a :: own pd T (delete v U) ++ l)) as Hnd1 by by rewrite app_comm_cons, <- Hown.
  pose proof Hnd1 as [Hna Hnd']%NoDup_cons.
  assert (forall p, p ∈ own pd T (delete v U) -> p <> a) as Hoa by (intros p Hpp ->; set_solver).
  assert (forall p, p = pd \/ p ∈ tabs T -> p <> a) as Hta by (intros p Hpp; apply Hoa; unfold own; set_solver).
  assert (tab ∈ tabs T) as Htab by (apply elem_of_tabs; by exists (v / 1024)).
  assert (space s1 k1 (a :: l) pd T) as Hsp1.
  { destruct Hsp as [_ _ Hdir [Hpd Hpl] Htl]. split; [done|done| | |].
    - eapply dir_ok_frame; [done|]. intros p Hpp. by apply Hp1, Hta.
    - split; [done|]. intros [->|?]%elem_of_cons; [by apply (Hta a); [left|]|done].
    - intros t Ht [->|?]%elem_of_cons; [by apply (Hta a); [right|]|by apply (Htl t)]. }
  destruct (set_entry L HL s1 s2 k1 (a :: l) pd T v tab e 0) as (Hsp2 & _ & Hent2);
    [done|lia|done|rewrite Hp1; [done|by apply Hta; right]|lia|exact Hat2|]. fold k2 in Hsp2, Hent2.
  assert (forall p, p ∉ tabs T -> p <> a -> pages k2 !! p = pages k !! p) as Hfr.
  { intros p Hpt Hpa. rewrite <- Hp1 by done. apply lookup_insert_ne. by intros ->. }
  assert (forall v', 0 <= v' -> v' <> v -> ent (pages k2) T v' = ent (pages k) T v') as Hent.
  { intros v' Hv' Hne. rewrite Hent2 by done. destruct (Z.eqb_spec v' v); [done|]. apply ent_frame.
    intros p Hpp. apply Hp1, Hta. by right. }
  split; split; try done.
  - intros u Hu. destruct (decide (u = v)) as [->|Hne].
    + rewrite lookup_delete_eq, Hent2, Z.eqb_refl by lia. done.
    + rewrite lookup_delete_ne by done. rewrite Hent by lia. by apply He.
  - intros u b [Hne Hb]%lookup_delete_Some. destruct (Hp _ _ Hb) as (? & ? & d & Hd & ?). split; [done|]. split; [done|].
    exists d. split; [|done]. rewrite Hfr; [done| |].
    + intros Hbt. apply own_nodup in Hnd as (_ & _ & Hnd & _). apply (Hnd b Hbt). apply elem_of_tabs. by exists u.
    + intros ->. apply Hne. by eapply Hinj.
  - intros u u' b [_ Hb]%lookup_delete_Some [_ Hb']%lookup_delete_Some. by eapply Hinj.
  - rewrite <- Permutation_middle. by rewrite app_comm_cons.
  - intros u. case_decide as Hd; [by replace u with v by lia; apply lookup_delete_eq|]. apply lookup_delete_ne. lia.
  - rewrite Hown. by rewrite <- Permutation_middle.
  - intros p Hpt Hpl. apply Hfr; [done|]. set_solver.
  - intros v' Hv' Hne. apply Hent; [done|]. lia.
  - intros p Hpl. by apply elem_of_cons; right.
Qed.

Lemma wp_release_page {B} s k l pd T U v tab (m : M S B) X (Q : B -> S -> Prop) :
  aspace s k l pd T U -> 0 <= v < UPAGES -> T !! (v / 1024) = Some tab ->
  (forall s' k' l' U', aspace s' k' l' pd T U' -> released pd T k U l k' U' l' v (v + 1) -> wp m X Q s') ->
  wp (e <~ load_pte (tab, v mod 1024);
      (if is_present e then
         let pa := PTE_ADDR e in
         if pa =? 0 then panic "kfree" else kfree (P2V pa) ;;; store_pte (tab, v mod 1024) 0
       else ret tt) ;;; m) X Q s.
Proof using All.
  intros Has Hv HT HQ. pose proof Has as [Hsp He Hp Hinj Hnd]. destruct (space_table _ _ _ _ _ _ _ _ Hsp HT) as (e & Het & _).
  mstep. eapply wp_load_pte; [by eapply sp_at|done|].
  assert (word_at e (v mod 1024) = ent (pages k) T v) as -> by (unfold ent; by rewrite HT, Het).
  specialize (He v Hv). destruct (U !! v) as [a|] eqn:HU; cbn in He.
  2: { rewrite He. mstep. mstep. eapply HQ; [done|]. apply released_none. intros u Hu. by replace u with v by lia. }
  destruct He as [-> ->]. destruct (Hp _ _ HU) as (_ & Ha & d & Hd & Hdp). destruct (page_ok_phys a Ha) as (_ & _ & HPV & Hpos).
  cbn zeta. destruct (Z.eqb_spec (V2P a) 0); [lia|]. rewrite HPV. mstep.
  assert (a ∈ tabs U) as Hau by (apply elem_of_tabs; by exists v).
  destruct (own_nodup _ _ _ _ Hnd) as (_ & _ & HTU & Hol).
  assert (a ∉ l) as Hal by (apply Hol; unfold own; set_solver).
  assert (tab <> a) as Hta by (intros <-; apply (HTU tab); [apply elem_of_tabs; by exists (v / 1024)|done]).
  mstep. eapply wp_kfree; [by eapply sp_at|done|by eapply sp_free|done|done|]. intros s1 k1 Hat1 Hf1 Hp1 Hu1.
  eapply wp_store_pte; [done|by rewrite Hp1|]. intros s2 Hat2.
  destruct (aspace_release s s1 s2 k k1 l pd T U v tab e a) as [Has2 Hre2]; [done..|]. by eapply HQ.
Qed.
(** The start of the next page table. *)
Lemma next_table v : 0 <= v < UPAGES ->
  u32 (u32 (PGADDR (PDX (v * 4096) + 1) 0 0 - PGSIZE) + PGSIZE) = (v / 1024 + 1) * 1024 * 4096.
Proof.
  unfold UPAGES. intros Hv. destruct (page_split_v (v * 4096) v) as [<- _]; [lia|by rewrite Z.div_mul|].
  rewrite u32_add_l. replace (PGADDR (v / 1024 + 1) 0 0 - PGSIZE + PGSIZE) with (PGADDR (v / 1024 + 1) 0 0) by lia.
  unfold PGADDR. change (Z.shiftl 0 PTXSHIFT) with 0. rewrite !Z.lor_0_r, u32_idemp. unfold PDXSHIFT.
  rewrite Z.shiftl_mul_pow2 by lia. assert (0 <= v / 1024 < 512) by (split; [apply Z.div_pos; lia|apply Z.div_lt_upper_bound; lia]).
  rewrite u32_small; lia.
Qed.

Lemma wp_deallocuvm s k l pd T U oldsz newsz X (Q : Z -> S -> Prop) :
  let lo := (newsz + 4095) / 4096 in let hi := (oldsz + 4095) / 4096 in
  aspace s k l pd T U -> 0 <= newsz < oldsz -> oldsz <= KERNBASE ->
  (forall s' k' l' U', aspace s' k' l' pd T U' -> released pd T k U l k' U' l' lo hi -> Q newsz s') ->
  wp (deallocuvm pd oldsz newsz) X Q s.
Proof using All.
  intros lo hi Has Hn Ho HQ. unfold deallocuvm, KERNBASE in *. destruct (Z.leb_spec oldsz newsz); [lia|].
  rewrite PGROUNDUP_div by lia. fold lo. cbn zeta. mstep.
  pose proof (Z.div_mod (newsz + 4095) 4096 ltac:(lia)) as Hlo. pose proof (Z.mod_pos_bound (newsz + 4095) 4096 ltac:(lia)).
  pose proof (Z.div_mod (oldsz + 4095) 4096 ltac:(lia)) as Hhi. pose proof (Z.mod_pos_bound (oldsz + 4095) 4096 ltac:(lia)).
  fold lo in Hlo. fold hi in Hhi. assert (lo <= hi) as Hlh by (apply Z.div_le_mono; lia).
  assert (0 <= lo) as Hlo0 by (apply Z.div_pos; lia).
  apply wp_loop with
    (I := fun a s' => exists v k' l' U', a = v * 4096 /\ lo <= v /\ aspace s' k' l' pd T U' /\
       released pd T k U l k' U' l' lo (Z.min v hi))
    (var := fun a _ => Z.to_nat (hi - a / 4096)).
  - exists lo, k, l, U. split; [done|]. split; [lia|]. split; [done|]. apply released_none. lia.
  - unfold dealloc_fuel. rewrite Z.div_mul by lia. assert (hi - lo <= (oldsz - lo * 4096) / PGSIZE + 1); [|lia].
    unfold PGSIZE. pose proof (Z.div_mod (oldsz - lo * 4096) 4096 ltac:(lia)). pose proof (Z.mod_pos_bound (oldsz - lo * 4096) 4096 ltac:(lia)). lia.
  - intros a s1 (v & k1 & l1 & U1 & -> & Hv & Has1 & Hre1). destruct (Z.ltb_spec (v * 4096) oldsz) as [Hlt|Hge].
    2: { mstep. mstep. rewrite Z.min_r in Hre1 by lia. by eapply HQ. }
    rewrite Z.min_l in Hre1 by lia. assert (0 <= v < UPAGES) as Hvr by (unfold UPAGES; lia).
    destruct (page_split_v (v * 4096) v) as [Hd Ht]; [lia|by rewrite Z.div_mul|].
    mstep. destruct (T !! (v / 1024)) as [tab|] eqn:HT.
    + eapply wp_walk_some; [by eapply as_space|lia|by rewrite <- Hd|]. rewrite <- Ht.
      eapply wp_release_page; [done..|]. intros s2 k2 l2 U2 Has2 Hre2. mstep. split.
      * exists (v + 1), k2, l2, U2. rewrite u32_small by (unfold PGSIZE; lia). unfold PGSIZE.
        split; [lia|]. split; [lia|]. split; [done|]. rewrite Z.min_l by lia.
        eapply released_trans; [|done|exact Hre1|exact Hre2]. lia.
      * rewrite u32_small by (unfold PGSIZE; lia). replace (v * 4096 + PGSIZE) with ((v + 1) * 4096) by (unfold PGSIZE; lia).
        rewrite !Z.div_mul by lia. lia.
    + eapply wp_walk_none; [by eapply as_space|lia|by rewrite <- Hd|]. mstep. rewrite next_table by done.
      pose proof (Z.div_mod v 1024 ltac:(lia)). pose proof (Z.mod_pos_bound v 1024 ltac:(lia)). split.
      * exists ((v / 1024 + 1) * 1024), k1, l1, U1. split; [done|]. split; [lia|]. split; [done|].
        eapply released_trans; [|done|exact Hre1|apply released_none]; [lia|]. intros u Hu.
        pose proof (as_ent _ _ _ _ _ _ Has1 u ltac:(unfold UPAGES; lia)) as He. unfold ent in He.
        assert (u / 1024 = v / 1024) as Hud by (symmetry; apply Z.div_unique with (u - v / 1024 * 1024); lia).
        rewrite Hud, HT in He. by destruct (U1 !! u) as [b|]; [destruct He|].
      * rewrite !Z.div_mul by lia. lia.
Qed.
(** The tables with index below [j]. *)
Definition tables_to T (j : nat) : list Z := omap (fun i => T !! Z.of_nat i) (seq 0 j).

Lemma tables_to_snoc T j :
  tables_to T (Datatypes.S j) = tables_to T j ++ match T !! Z.of_nat j with Some tab => [tab] | None => [] end.
Proof. unfold tables_to. rewrite seq_S, omap_app. cbn. by destruct (T !! Z.of_nat j). Qed.

Lemma elem_of_tables_to T j tab : tab ∈ tables_to T j <-> exists i, (i < j)%nat /\ T !! Z.of_nat i = Some tab.
Proof.
  unfold tables_to. rewrite list_elem_of_omap. split.
  - intros (i & Hi%elem_of_seq & HT). exists i. split; [lia|done].
  - intros (i & Hi & HT). exists i. split; [apply elem_of_seq; lia|done].
Qed.

Lemma tables_all T : (forall i tab, T !! i = Some tab -> 0 <= i < 1024) -> NoDup (tabs T) -> NoDup (tables_to T 1024) ->
  tables_to T 1024 ≡ₚ tabs T.
Proof.
  intros Hr Hn1 Hn2. apply NoDup_Permutation; [done..|]. intros tab. rewrite elem_of_tables_to, elem_of_tabs. split.
  - intros (i & _ & Hi). by exists (Z.of_nat i).
  - intros [i Hi]. exists (Z.to_nat i). destruct (Hr _ _ Hi). split; [lia|]. by rewrite Z2Nat.id by lia.
Qed.

(** Giving back the tables. *)
Lemma wp_free_tables s k l pd T X (Q : unit -> S -> Prop) :
  space s k l pd T -> NoDup (pd :: tabs T ++ l) ->
  (forall s' k' l', at_ s' L k' -> free_ok k' l' -> l' ≡ₚ tabs T ++ l ->
     (forall p, p ∉ tabs T -> pages k' !! p = pages k !! p) -> use_lock k' = use_lock k -> Q tt s') ->
  wp (for_each (seq 0 (Z.to_nat NPDENTRIES)) (fun i =>
      e <~ load_pte (pd, Z.of_nat i);
      if is_present e then kfree (P2V (PTE_ADDR e)) else ret tt)) X Q s.
Proof using All.
  intros [Hat Hf Hd [Hpd Hpl] Htl] Hnd HQ. apply NoDup_cons in Hnd as [Hpdn Hnd]. apply NoDup_app in Hnd as (HnT & Hdis & _).
  pose proof (do_dir _ _ _ Hd) as (d & Hpg & Hdp & Hw). change (Z.to_nat NPDENTRIES) with 1024%nat.
  apply wp_for_seq with (I := fun j s' => exists k' l', at_ s' L k' /\ free_ok k' l' /\ l' ≡ₚ tables_to T j ++ l /\
    (forall p, p ∉ tabs T -> pages k' !! p = pages k !! p) /\ use_lock k' = use_lock k).
  - by exists k, l.
  - intros j s1 Hj (k1 & l1 & Hat1 & Hf1 & Hl1 & Hp1 & Hu1). specialize (Hw (Z.of_nat j) ltac:(lia)).
    mstep. eapply wp_load_pte; [done|rewrite Hp1; [done|set_solver]|].
    destruct (T !! Z.of_nat j) as [tab|] eqn:HT.
    2: { rewrite Hw. mstep. exists k1, l1. rewrite tables_to_snoc, HT, app_nil_r. done. }
    destruct (do_tab _ _ _ Hd _ _ HT) as (_ & Htp & _). destruct (PDE_spec tab Htp) as (Hpr & Had & _). rewrite Hw, Hpr, Had.
    assert (tab ∈ tabs T) as Htab by (apply elem_of_tabs; by exists (Z.of_nat j)).
    eapply wp_kfree; [done|done|done|done| |].
    + rewrite Hl1. rewrite not_elem_of_app. split; [|by apply Hdis]. rewrite elem_of_tables_to. intros (i & Hi & HTi).
      pose proof (do_inj _ _ _ Hd _ _ _ HT HTi). lia.
    + intros s2 k2 Hat2 Hf2 Hp2 Hu2. exists k2, (tab :: l1). split; [done|]. split; [done|]. rewrite tables_to_snoc, HT.
      split; [rewrite Hl1; solve_Permutation|]. split; [|congruence]. intros p Hp. rewrite Hp2 by set_solver. by apply Hp1.
  - intros s1 (k1 & l1 & Hat1 & Hf1 & Hl1 & Hp1 & Hu1). eapply HQ; [done|done| |done|done].
    rewrite Hl1. f_equiv. apply tables_all; [|done|].
    + intros i tab Hi. by destruct (do_tab _ _ _ Hd _ _ Hi).
    + pose proof (fo_nodup _ _ Hf1) as Hn. rewrite Hl1 in Hn. by apply NoDup_app in Hn as (? & _ & _).
Qed.

(** Tearing down an address space gives all its pages back. *)
Lemma wp_freevm s k l pd T U X (Q : unit -> S -> Prop) :
  aspace s k l pd T U ->
  (forall s' k' l', at_ s' L k' -> free_ok k' l' -> l' ≡ₚ own pd T U ++ l ->
     (forall p, p ∉ own pd T U ++ l -> pages k' !! p = pages k !! p) -> use_lock k' = use_lock k -> Q tt s') ->
  wp (freevm pd) X Q s.
Proof using All.
  intros Has HQ. pose proof (sp_pd _ _ _ _ _ _ (as_space _ _ _ _ _ _ Has)) as [Hpd _]. pose proof (page_ok_range pd Hpd).
  unfold freevm. destruct (Z.eqb_spec pd 0); [unfold KERNBASE in *; lia|]. mstep.
  eapply wp_deallocuvm; [done|done|done|]. intros s1 k1 l1 U1 Has1 Hre1.
  assert (U1 = ∅) as ->.
  { apply map_eq. intros u. rewrite lookup_empty, (re_user _ _ _ _ _ _ _ _ _ _ Hre1). case_decide as Hd; [done|].
    destruct (U !! u) as [b|] eqn:Hu; [|done]. destruct (as_page _ _ _ _ _ _ Has _ _ Hu) as (Hr & _).
    destruct Hd. change (0 <= u < 2 ^ 19) in Hr. change ((0 + 4095) / 4096) with 0. change ((KERNBASE + 4095) / 4096) with (2 ^ 19). lia. }
  pose proof (re_perm _ _ _ _ _ _ _ _ _ _ Hre1) as Hperm. unfold own in Hperm at 2. change (tabs ∅) with (@nil Z) in Hperm.
  rewrite app_nil_r in Hperm. pose proof (as_nodup _ _ _ _ _ _ Has) as Hnd. rewrite Hperm in Hnd. cbn in Hnd, Hperm.
  mstep. eapply wp_free_tables; [by eapply as_space|done|]. intros s2 k2 l2 Hat2 Hf2 Hl2 Hp2 Hu2.
  eapply wp_kfree; [done|done|done|done|by rewrite Hl2; apply NoDup_cons in Hnd as [? _]|].
  intros s3 k3 Hat3 Hf3 Hp3 Hu3. eapply HQ; [done|done| | |].
  - rewrite Hl2. by rewrite Hperm.
  - intros p Hp. rewrite Hperm in Hp. rewrite Hp3, Hp2 by set_solver. apply (re_frame _ _ _ _ _ _ _ _ _ _ Hre1); set_solver.
  - rewrite Hu3, Hu2. apply (re_lock _ _ _ _ _ _ _ _ _ _ Hre1).
Qed.
(** ** The kernel part *)

(** The entries that a list of ranges makes of [f]. *)
Definition kmap_ents (ks : list kmap_entry) (f : Z -> Z) : Z -> Z :=
  foldl (fun f e => mapping (virt e / 4096) (u32 (phys_end e - phys_start e) / 4096) (phys_start e) (perm e) f) f ks.
Definition kern_ent : Z -> Z := kmap_ents kmap (fun _ => 0).

(** The directory entries of the kernel part. *)
Definition kern_keys : list Z := (Z.of_nat <$> seq 512 56) ++ (Z.of_nat <$> seq 1016 8).

Lemma elem_of_kern_keys i : i ∈ kern_keys <-> 512 <= i < 568 \/ 1016 <= i < 1024.
Proof.
  unfold kern_keys. rewrite elem_of_app, !list_elem_of_fmap. split.
  - intros [(x & -> & Hx%elem_of_seq)|(x & -> & Hx%elem_of_seq)]; lia.
  - intros [Hi|Hi]; [left|right]; exists (Z.to_nat i); rewrite elem_of_seq; lia.
Qed.

(** A range fits its place and does not meet the earlier ones. *)
Record kmap_fits (done : list kmap_entry) (e : kmap_entry) (v0 n : Z) : Prop := {
  kf_virt : virt e = v0 * 4096;
  kf_size : u32 (phys_end e - phys_start e) = n * 4096;
  kf_range : UPAGES <= v0 /\ 1 <= n /\ v0 + n <= 2 ^ 20;
  kf_phys : 0 <= phys_start e /\ phys_start e mod 4096 = 0 /\ phys_start e + n * 4096 <= 2 ^ 32;
  kf_perm : 0 <= perm e < 4096;
  kf_absent : forall v, v0 <= v < v0 + n -> kmap_ents done (fun _ => 0) v = 0;
  kf_keys : v0 + n <= 568 * 1024 \/ 1016 * 1024 <= v0
}.

Lemma mapping_out v0 j pa pm f v : ~ v0 <= v < v0 + j -> mapping v0 j pa pm f v = f v.
Proof. intros Hv. unfold mapping. by destruct (Z.leb_spec v0 v), (Z.ltb_spec v (v0 + j)); [lia|..]. Qed.

Lemma kmap_step done e r : kmap = done ++ e :: r -> exists v0 n, kmap_fits done e v0 n.
Proof.
  intros Hk. pose proof kdata_range as (Hk1 & Hk2 & Hk3). pose proof kend_range as [_ Hk4].
  set (q := kdata / 4096). assert (kdata = q * 4096) as Hq.
  { unfold q. pose proof (Z.div_mod kdata 4096 ltac:(lia)). unfold PGSIZE in Hk3. lia. }
  assert (V2P kdata = (q - 524288) * 4096) as Hv.
  { unfold V2P. rewrite u32_small; unfold KERNLINK, EXTMEM, KERNBASE, PHYSTOP in *; lia. }
  unfold KERNLINK, EXTMEM, KERNBASE, PHYSTOP in Hk1, Hk2, Hk4.
  unfold kmap in Hk. rewrite Hv in Hk. change (V2P KERNLINK) with (256 * 4096) in Hk.
  destruct done as [|e1 done]; [injection Hk as <- _; exists 524288, 256|].
  { split; [done..|]. left. lia. }
  injection Hk as <- Hk. destruct done as [|e2 done]; [injection Hk as <- _; exists 524544, (q - 524544)|].
  { split; cbn [virt phys_start phys_end perm]; [done| |split; [done|lia]|split; [lia|split; [by rewrite Z.mod_mul|lia]]|done| |left; lia].
    - rewrite u32_small; lia.
    - intros v Hv'. cbn. rewrite mapping_out; [done|]. change (KERNBASE / 4096) with 524288. change (u32 (EXTMEM - 0) / 4096) with 256. lia. }
  injection Hk as <- Hk.
  assert (u32 ((q - 524288) * 4096 - 256 * 4096) / 4096 = q - 524544) as H2.
  { rewrite u32_small by lia. replace ((q - 524288) * 4096 - 256 * 4096) with ((q - 524544) * 4096) by lia. by rewrite Z.div_mul. }
  destruct done as [|e3 done]; [injection Hk as <- _; exists q, (581632 - q)|].
  { split; cbn [virt phys_start phys_end perm]; [done| |split; [unfold UPAGES; lia|lia]|split; [lia|split; [by rewrite Z.mod_mul|lia]]|done| |left; lia].
    - unfold PHYSTOP. rewrite u32_small; lia.
    - intros v Hv'. cbn [kmap_ents foldl virt phys_start phys_end perm]. rewrite H2.
      change (KERNBASE / 4096) with 524288. change (u32 (EXTMEM - 0) / 4096) with 256. change (KERNLINK / 4096) with 524544.
      rewrite !mapping_out by lia. done. }
  injection Hk as <- Hk.
  destruct done as [|e4 done]; [injection Hk as <- _; exists 1040384, 8192|].
  2: { injection Hk as _ Hk. by destruct done. }
  split; [done|done|done|done|done| |right; lia]. intros v Hv'. cbn [kmap_ents foldl virt phys_start phys_end perm]. rewrite H2.
  assert (u32 (PHYSTOP - (q - 524288) * 4096) / 4096 = 581632 - q) as H3.
  { unfold PHYSTOP. rewrite u32_small by lia. replace (0xE000000 - (q - 524288) * 4096) with ((581632 - q) * 4096) by lia. by rewrite Z.div_mul. }
  rewrite H3. change (KERNBASE / 4096) with 524288. change (u32 (EXTMEM - 0) / 4096) with 256. change (KERNLINK / 4096) with 524544.
  fold q. rewrite !mapping_out by lia. done.
Qed.
Lemma aspace_empty s k l pd T :
  space s k l pd T -> (forall v, 0 <= v < UPAGES -> is_present (ent (pages k) T v) = false) ->
  NoDup (pd :: tabs T ++ l) -> aspace s k l pd T ∅.
Proof.
  intros Hsp He Hnd. split; [done| | | |].
  - intros v Hv. rewrite lookup_empty. by apply He.
  - intros v a. by rewrite lookup_empty.
  - intros v v' a. by rewrite lookup_empty.
  - unfold own. change (tabs ∅) with (@nil Z). by rewrite app_nil_r.
Qed.

(** A directory of zeros. *)
Lemma wp_new_dir s k a l X (Q : unit -> S -> Prop) :
  at_ s L k -> free_ok k l -> page_ok a -> a ∉ l ->
  (forall s' k', space s' k' l a ∅ -> (forall p, p <> a -> pages k' !! p = pages k !! p) ->
     use_lock k' = use_lock k -> Q tt s') -> wp (zero_page a) X Q s.
Proof.
  intros Hat Hf Ha Hal HQ. pose proof zero_page_ok as Hzp. pose proof word_at_zero_page as Hz. unfold zero_page, set_page.
  generalize dependent (replicate (Z.to_nat PGSIZE) 0). intros zp Hzp Hz. mstep.
  eapply (HQ _ (k <| pages ::= <[a := zp]> |>)); [|intros p Hp; by apply lookup_insert_ne|done].
  split; [done|by apply free_ok_pages| |done|by intros tab ?%not_elem_of_nil].
  split; [|by intros i tab; rewrite lookup_empty|by intros i j tab; rewrite lookup_empty].
  exists zp. split; [apply lookup_insert_eq|]. split; [done|]. intros i Hi. by rewrite lookup_empty, Hz.
Qed.

(** The directory under construction. *)
Record building s k l pd k1 l1 T1 (done : list kmap_entry) : Prop := {
  bu_space : space s k1 l1 pd T1;
  bu_ext : extends pd k l ∅ k1 l1 T1;
  bu_ent : forall v, 0 <= v -> ent (pages k1) T1 v = kmap_ents done (fun _ => 0) v;
  bu_keys : forall i, is_Some (T1 !! i) -> i ∈ kern_keys
}.

Lemma kmap_user done r v : kmap = done ++ r -> v < UPAGES -> kmap_ents done (fun _ => 0) v = 0.
Proof.
  revert r. induction done as [|e done IH] using rev_ind; intros r Hk Hv; [done|].
  rewrite <- app_assoc in Hk. destruct (kmap_step _ _ _ Hk) as (v0 & n & [Hvi Hsz Hr _ _ _ _]).
  unfold kmap_ents. rewrite foldl_snoc. fold (kmap_ents done (fun _ => 0)).
  rewrite Hvi, Hsz, !Z.div_mul by lia. rewrite mapping_out by lia. by eapply IH.
Qed.

Lemma building_own s k l pd k1 l1 T1 done r :
  building s k l pd k1 l1 T1 done -> kmap = done ++ r -> NoDup (pd :: l) ->
  aspace s k1 l1 pd T1 ∅ /\ own pd T1 ∅ ++ l1 ≡ₚ pd :: l.
Proof.
  intros [Hsp [(tk & Hl & Ht) _ _ _] He _] Hk Hnd. change (tabs ∅) with (@nil Z) in Ht. rewrite app_nil_r in Ht.
  assert (pd :: tabs T1 ++ l1 ≡ₚ pd :: l) as Hp by by rewrite Hl, Ht. split.
  - apply aspace_empty; [done| |by rewrite Hp]. intros v Hv. rewrite He by lia. erewrite kmap_user; [done|done|lia].
  - unfold own. change (tabs ∅) with (@nil Z). by rewrite app_nil_r.
Qed.
Lemma kmap_ents_snoc done e f v :
  kmap_ents (done ++ [e]) f v =
  mapping (virt e / 4096) (u32 (phys_end e - phys_start e) / 4096) (phys_start e) (perm e) (kmap_ents done f) v.
Proof. unfold kmap_ents. by rewrite foldl_snoc. Qed.

Lemma tabs_kern T : (forall i, is_Some (T !! i) -> i ∈ kern_keys) -> (length (tabs T) <= 64)%nat.
Proof.
  intros HT. unfold tabs. rewrite length_fmap, length_map_to_list.
  rewrite <- (size_dom (D := gset Z)). transitivity (size (list_to_set kern_keys : gset Z)).
  - apply subseteq_size. intros i [a Ha]%elem_of_dom. apply elem_of_list_to_set, HT. by exists a.
  - by vm_compute.
Qed.

(** One range of [kmap]. *)
Lemma wp_map_range s k l pd k1 l1 T1 done e r X (Q : Z -> S -> Prop) :
  building s k l pd k1 l1 T1 done -> kmap = done ++ e :: r -> NoDup (pd :: l) ->
  (forall s' k' T', aspace s' k' [] pd T' ∅ -> extends pd k l ∅ k' [] T' -> own pd T' ∅ ≡ₚ pd :: l ->
     (length l <= 64)%nat -> Q (-1) s') ->
  (forall s' k' l' T', building s' k l pd k' l' T' (done ++ [e]) -> Q 0 s') ->
  wp (mappages pd (virt e) (u32 (phys_end e - phys_start e)) (phys_start e) (perm e)) X Q s.
Proof using All.
  intros [Hsp Hex He Hks] Hk Hnd Hfail HQ. destruct (kmap_step _ _ _ Hk) as (v0 & n & [Hvi Hsz Hr Hph Hpm Habs Hkn]).
  rewrite Hvi, Hsz. assert (0 <= v0) as Hv0 by (unfold UPAGES in Hr; lia).
  assert (forall T', adds_keys T1 T' (v0 / 1024) ((v0 + n - 1) / 1024) -> forall i, is_Some (T' !! i) -> i ∈ kern_keys) as Hkeys.
  { intros T' Ha i [?|Hi]%Ha; [by apply Hks|]. apply elem_of_kern_keys. unfold UPAGES in Hr.
    assert (512 <= v0 / 1024) by (apply Z.div_le_lower_bound; lia).
    destruct Hkn; [left; assert ((v0 + n - 1) / 1024 < 568) by (apply Z.div_lt_upper_bound; lia)|
                   right; assert (1016 <= v0 / 1024) by (apply Z.div_le_lower_bound; lia);
                          assert ((v0 + n - 1) / 1024 < 1024) by (apply Z.div_lt_upper_bound; lia)]; lia. }
  eapply wp_mappages; [done|done|done|lia|lia|lia|lia|lia|done| | |].
  - intros v Hv. rewrite He by lia. by rewrite Habs.
  - intros s2 k2 T2 j Hsp2 Hex2 Hj He2 Ha2. pose proof (extends_trans _ _ _ _ _ _ _ _ _ _ Hex Hex2) as Hex'.
    pose proof (ex_taken _ _ _ _ _ _ _ Hex') as (tk & Hl & Ht). change (tabs ∅) with (@nil Z) in Ht.
    rewrite app_nil_r in Hl, Ht. subst tk.
    assert (own pd T2 ∅ ≡ₚ pd :: l) as Hown by (unfold own; change (tabs ∅) with (@nil Z); by rewrite app_nil_r, Ht).
    eapply Hfail; [|done|done|by rewrite <- Ht; apply tabs_kern, Hkeys]. apply aspace_empty; [done| |].
    + intros v Hv. rewrite He2, mapping_out, He by lia. by erewrite kmap_user; [|done|lia].
    + rewrite app_nil_r, Ht. done.
  - intros s2 k2 l2 T2 Hsp2 Hex2 He2 Ha2. eapply HQ. split; [done|by eapply extends_trans| |by apply Hkeys].
    intros v Hv. rewrite He2, kmap_ents_snoc, Hvi, Hsz, !Z.div_mul by lia. by apply mapping_ext, He.
Qed.

(** A new address space: the kernel's mappings and nothing else, or 0 and no
    page lost. *)
Lemma wp_setupkvm s k l X (Q : Z -> S -> Prop) :
  at_ s L k -> free_ok k l ->
  (forall s' k' l', at_ s' L k' -> free_ok k' l' -> l' ≡ₚ l -> (forall p, p ∉ l -> pages k' !! p = pages k !! p) ->
     use_lock k' = use_lock k -> (length l <= 65)%nat -> Q 0 s') ->
  (forall s' k' l' pd T, aspace s' k' l' pd T ∅ -> own pd T ∅ ++ l' ≡ₚ l ->
     (forall v, UPAGES <= v -> ent (pages k') T v = kern_ent v) ->
     (forall p, p ∉ l -> pages k' !! p = pages k !! p) -> use_lock k' = use_lock k -> (length (tabs T) <= 64)%nat -> Q pd s') ->
  wp setupkvm X Q s.
Proof using All.
  intros Hat Hf Hfail HQ. unfold setupkvm. mstep. eapply wp_kalloc; [done|done|done|]. destruct l as [|pd l].
  { intros s1 Hat1. cbn [Z.eqb]. mstep. eapply Hfail; try done. cbn. lia. }
  intros s1 k1 Hat1 Hf1 Hp1 Hu1. pose proof (fo_nodup _ _ Hf) as Hnd. pose proof Hnd as [Hpl _]%NoDup_cons.
  assert (page_ok pd) as Hpd by (apply (fo_page _ _ Hf), elem_of_cons; by left). pose proof (page_ok_range pd Hpd) as Hr.
  destruct (Z.eqb_spec pd 0); [unfold KERNBASE in Hr; lia|].
  mstep. eapply wp_new_dir; [done..|]. intros s2 k2 Hsp2 Hp2 Hu2. change (DEVSPACE <? P2V PHYSTOP) with false. cbn iota.
  assert (forall p, p ∉ pd :: l -> pages k2 !! p = pages k !! p) as Hfr2.
  { intros p Hp. rewrite Hp2 by set_solver. by rewrite Hp1. }
  mstep. eapply wp_for_until with (I := fun r s' => exists done k' l' T', kmap = done ++ r /\ building s' k2 l pd k' l' T' done).
  - exists [], k2, l, ∅. split; [done|]. split; [done|apply extends_refl| |].
    + intros v _. unfold ent. by rewrite lookup_empty.
    + intros i [a Ha]. by rewrite lookup_empty in Ha.
  - intros e r s3 (done & k3 & l3 & T3 & Hk & Hb3). mstep. eapply wp_map_range; [done|done|done| |].
    + intros s4 k4 T4 Has4 Hex4 Hown4 Hl4. cbn [Z.ltb Z.compare]. mstep. eapply wp_freevm; [done|].
      intros s5 k5 l5 Hat5 Hf5 Hl5 Hp5 Hu5. mstep. mstep. rewrite app_nil_r, Hown4 in Hl5. eapply Hfail; [done|done|done| | |cbn; lia].
      * intros p Hp. rewrite Hp5 by (by rewrite app_nil_r, Hown4). rewrite <- Hfr2 by done. apply (ex_frame _ _ _ _ _ _ _ Hex4); [set_solver|].
        rewrite <- Hown4 in Hp. unfold own in Hp. set_solver.
      * rewrite Hu5, (ex_lock _ _ _ _ _ _ _ Hex4). congruence.
    + intros s4 k4 l4 T4 Hb4. cbn [Z.ltb Z.compare]. mstep. exists (done ++ [e]), k4, l4, T4. split; [by rewrite <- app_assoc|done].
  - intros s3 (done & k3 & l3 & T3 & Hk & Hb3). mstep. rewrite app_nil_r in Hk. subst done.
    destruct (building_own _ _ _ _ _ _ _ _ [] Hb3) as [Has3 Hown3]; [by rewrite app_nil_r|done|].
    destruct Hb3 as [_ Hex3 He3 Hks3]. eapply HQ; [done|done| | | |by apply tabs_kern].
    + intros v Hv. apply He3. unfold UPAGES in Hv. lia.
    + intros p Hp. rewrite <- Hfr2 by done. rewrite <- Hown3 in Hp. unfold own in Hp. apply (ex_frame _ _ _ _ _ _ _ Hex3); set_solver.
    + rewrite (ex_lock _ _ _ _ _ _ _ Hex3). congruence.
Qed.
(** ** Adding pages *)

Lemma own_extends pd T U k l k' l' T' : extends pd k l T k' l' T' -> own pd T' U ++ l' ≡ₚ own pd T U ++ l.
Proof. intros [(tk & -> & Ht) _ _ _]. unfold own. rewrite Ht. solve_Permutation. Qed.

(** More tables, the same user pages. *)
Lemma aspace_extends s s' k k' l l' pd T T' U :
  aspace s k l pd T U -> space s' k' l' pd T' -> extends pd k l T k' l' T' ->
  (forall v, 0 <= v -> ent (pages k') T' v = ent (pages k) T v) -> aspace s' k' l' pd T' U.
Proof.
  intros [Hsp He Hp Hi Hnd] Hsp' Hex Hent. pose proof (own_extends pd T U _ _ _ _ _ Hex) as Hown.
  rewrite <- Hown in Hnd. split; [done| | |done|done].
  - intros v Hv. rewrite Hent by lia. by apply He.
  - intros v a Hv. destruct (Hp _ _ Hv) as (? & ? & d & Hd & ?). split; [done|]. split; [done|]. exists d. split; [|done].
    destruct (own_nodup _ _ _ _ Hnd) as (_ & HpU & HTU & _). assert (a ∈ tabs U) as Ha by (apply elem_of_tabs; by exists v).
    rewrite (ex_frame _ _ _ _ _ _ _ Hex); [done| |].
    + by intros ->.
    + intros ?. by apply (HTU a).
Qed.

(** Page [b] at page number [u]. *)
Lemma aspace_map s s' k k' l l' pd T T' U u b d :
  aspace s k l pd T U -> 0 <= u < UPAGES -> U !! u = None -> page_ok b -> (b ∉ own pd T U ++ l) ->
  space s' k' l' pd T' -> extends pd k l T k' l' T' -> pages k !! b = Some d -> is_page d ->
  maps_to (ent (pages k') T' u) (Some b) ->
  (forall v, 0 <= v -> v <> u -> ent (pages k') T' v = ent (pages k) T v) ->
  aspace s' k' l' pd T' (<[u := b]> U).
Proof.
  intros [Hsp He Hp Hi Hnd] Hu HU Hb Hbn Hsp' Hex Hd Hdp Hm Hent. pose proof (own_extends pd T U _ _ _ _ _ Hex) as Hown.
  rewrite <- Hown in Hnd, Hbn. destruct (own_nodup _ _ _ _ Hnd) as (_ & HpU & HTU & _).
  assert (forall p, p <> pd -> p ∉ tabs T' -> pages k' !! p = pages k !! p) as Hfr by apply (ex_frame _ _ _ _ _ _ _ Hex).
  assert (b <> pd /\ (b ∉ tabs T') /\ (b ∉ tabs U)) as (Hbp & HbT & HbU).
  { unfold own in Hbn. cbn in Hbn. apply not_elem_of_cons in Hbn as [? Hbn]. rewrite !not_elem_of_app in Hbn. tauto. }
  split; [done| | | |].
  - intros v Hv. destruct (decide (v = u)) as [->|Hne]; [by rewrite lookup_insert_eq|].
    rewrite lookup_insert_ne by done. rewrite Hent by lia. by apply He.
  - intros v a [[<- <-]|[Hne Hv]]%lookup_insert_Some.
    + split; [done|]. split; [done|]. exists d. split; [by rewrite Hfr|done].
    + destruct (Hp _ _ Hv) as (? & ? & da & Hda & ?). split; [done|]. split; [done|]. exists da. split; [|done].
      assert (a ∈ tabs U) as Ha by (apply elem_of_tabs; by exists v). rewrite Hfr; [done|by intros ->|].
      intros ?. by apply (HTU a).
  - intros v v' a [[<- <-]|[Hn1 Hv]]%lookup_insert_Some [[<- Ha]|[Hn2 Hv']]%lookup_insert_Some; [done|..].
    + destruct HbU. apply elem_of_tabs. by exists v'.
    + subst a. destruct HbU. apply elem_of_tabs. by exists v.
    + by eapply Hi.
  - rewrite own_insert by done. cbn. by apply NoDup_cons.
Qed.

(** A page taken from the free list and filled. *)
Lemma aspace_taken s s' k k' l pd T U b :
  aspace s k (b :: l) pd T U -> at_ s' L k' -> free_ok k' l ->
  (forall p, p <> b -> pages k' !! p = pages k !! p) -> aspace s' k' l pd T U /\ (b ∉ own pd T U ++ l).
Proof.
  intros Has Hat' Hf' Hfr. pose proof (as_nodup _ _ _ _ _ _ Has) as Hnd. destruct (own_nodup _ _ _ _ Hnd) as (_ & _ & _ & Hol).
  assert (forall p, p ∈ own pd T U -> p <> b /\ (p ∉ l)) as Hob.
  { intros p Hp. apply Hol in Hp. by apply not_elem_of_cons in Hp. }
  split.
  - eapply aspace_frame; [done|done|done| |].
    + intros p Hp. by apply Hfr, Hob.
    + intros p Hp. by apply Hob.
  - rewrite not_elem_of_app. split; [intros Hb; by destruct (Hob b Hb)|].
    pose proof (fo_nodup _ _ (sp_free _ _ _ _ _ _ (as_space _ _ _ _ _ _ Has))) as [? _]%NoDup_cons. done.
Qed.
Lemma tabs_one T T' i tk : adds_keys T T' i i -> tabs T' ≡ₚ tk ++ tabs T -> (length tk <= 1)%nat.
Proof.
  intros Ha Ht. apply Permutation_length in Ht. rewrite length_app in Ht. unfold tabs in Ht.
  rewrite !length_fmap, !length_map_to_list, <- !(size_dom (D := gset Z)) in Ht.
  assert (size (dom T' : gset Z) <= size ({[i]} ∪ dom T : gset Z))%nat as Hs.
  { apply subseteq_size. intros j Hj%elem_of_dom. apply Ha in Hj as [Hj|Hj]; [apply elem_of_dom in Hj; set_solver|].
    replace j with i by lia. set_solver. }
  pose proof (size_union_alt {[i]} (dom T : gset Z)) as Hu. pose proof (subseteq_size (dom T ∖ {[i]}) (dom T : gset Z) ltac:(set_solver)).
  rewrite size_singleton in Hu. lia.
Qed.

(** Mapping a filled page. *)
Lemma wp_map_fresh s k l pd T U u b d flags X (Q : Z -> S -> Prop) :
  aspace s k l pd T U -> 0 <= u < UPAGES -> U !! u = None -> page_ok b -> (b ∉ own pd T U ++ l) ->
  pages k !! b = Some d -> is_page d -> 0 <= flags < 4096 ->
  (forall s' k' T', aspace s' k' [] pd T' U -> extends pd k l T k' [] T' ->
     (forall v, 0 <= v -> ent (pages k') T' v = ent (pages k) T v) -> (length l <= 1)%nat -> Q (-1) s') ->
  (forall s' k' l' T', aspace s' k' l' pd T' (<[u := b]> U) -> extends pd k l T k' l' T' ->
     ent (pages k') T' u = PTE (V2P b) flags ->
     (forall v, 0 <= v -> v <> u -> ent (pages k') T' v = ent (pages k) T v) -> Q 0 s') ->
  wp (mappages pd (u * 4096) PGSIZE (V2P b) flags) X Q s.
Proof using All.
  intros Has Hu HU Hb Hbn Hd Hdp Hfl Hfail HQ. destruct (page_ok_phys b Hb) as (Hr & Hm & Hpv & _).
  pose proof (page_ok_range b Hb) as Hbr. unfold KERNBASE, PGSIZE in Hbr.
  assert (V2P b + 1 * 4096 <= 2 ^ 32) as Hmax.
  { unfold V2P, KERNBASE. rewrite u32_small; lia. }
  change PGSIZE with (1 * 4096). change UPAGES with 524288 in *.
  eapply wp_mappages; [done|by eapply as_space|lia|lia|lia|lia|done|lia|done| | |].
  - intros v Hv. replace v with u by lia. pose proof (as_ent _ _ _ _ _ _ Has u Hu) as He. by rewrite HU in He.
  - intros s1 k1 T1 j Hsp1 Hex1 Hj He1 Ha1. replace j with 0 in He1 by lia.
    assert (forall v, 0 <= v -> ent (pages k1) T1 v = ent (pages k) T v) as Hev by (intros v Hv; by rewrite He1, mapping_0).
    eapply Hfail; [|done|done|]; [by eapply aspace_extends|]. destruct (ex_taken _ _ _ _ _ _ _ Hex1) as (tk & -> & Ht).
    rewrite app_nil_r. replace (u + 1 - 1) with u in Ha1 by lia. eapply tabs_one; [exact Ha1|done].
  - intros s1 k1 l1 T1 Hsp1 Hex1 He1 _.
    assert (ent (pages k1) T1 u = PTE (V2P b) flags) as Heu.
    { rewrite He1 by lia. unfold mapping. rewrite Z.leb_refl, (proj2 (Z.ltb_lt u (u + 1))) by lia. cbn [andb]. f_equal. lia. }
    assert (forall v, 0 <= v -> v <> u -> ent (pages k1) T1 v = ent (pages k) T v) as Hev.
    { intros v Hv Hne. rewrite He1, mapping_out by lia. done. }
    eapply HQ; [|done|done|done]. eapply aspace_map; [done..| |done]. rewrite Heu.
    destruct (PTE_spec (V2P b) flags) as (? & _ & ? & _); done.
Qed.

(** ** Copying *)

(** The pages up to [j] of the address space [pd] are copied to [d]. *)
Record copying s k0 l0 pd T U d T' U' k' l' (j : Z) : Prop := {
  cp_src : aspace s k' l' pd T U;
  cp_dst : aspace s k' l' d T' U';
  cp_perm : own d T' U' ++ l' ≡ₚ l0;
  cp_frame : forall p, p ∉ l0 -> pages k' !! p = pages k0 !! p;
  cp_copied : forall u, 0 <= u < j -> exists a b, U !! u = Some a /\ U' !! u = Some b /\
    pages k' !! b = pages k0 !! a /\ PTE_FLAGS (ent (pages k') T' u) = PTE_FLAGS (ent (pages k0) T u);
  cp_rest : forall u, j <= u -> U' !! u = None;
  cp_kern : forall v, UPAGES <= v -> ent (pages k') T' v = kern_ent v;
  cp_lock : use_lock k' = use_lock k0
}.

(** The source does not change when pages of the destination do. *)
Lemma src_frame s s' k0 k' l0 l' pd T U :
  aspace s k0 l0 pd T U -> at_ s' L k' -> free_ok k' l' -> (forall p, p ∉ l0 -> pages k' !! p = pages k0 !! p) ->
  (forall p, p ∈ l' -> p ∈ l0) -> aspace s' k' l' pd T U.
Proof.
  intros Has Hat Hf Hfr Hl. destruct (own_nodup _ _ _ _ (as_nodup _ _ _ _ _ _ Has)) as (_ & _ & _ & Hol).
  eapply aspace_frame; [done|done|done|by intros p ?%Hol; apply Hfr|]. intros p Hp Hpl. by apply (Hol p Hp), Hl.
Qed.
(** The pages that were free are free again. *)
Definition undone s' k0 l0 : Prop :=
  exists k' l', at_ s' L k' /\ free_ok k' l' /\ l' ≡ₚ l0 /\ (forall p, p ∉ l0 -> pages k' !! p = pages k0 !! p) /\
    use_lock k' = use_lock k0.

(** Giving up: the page in hand and the destination go back. *)
Lemma wp_copy_undo {B} s k0 l0 k d T' U' b (x : B) X (Q : B -> S -> Prop) :
  aspace s k [] d T' U' -> page_ok b -> (b ∉ own d T' U') -> b :: own d T' U' ≡ₚ l0 ->
  (forall p, p ∉ l0 -> pages k !! p = pages k0 !! p) -> use_lock k = use_lock k0 ->
  (forall s', undone s' k0 l0 -> Q x s') -> wp (kfree b ;;; freevm d ;;; ret x) X Q s.
Proof using All.
  intros Has Hb Hbn Hperm Hfr Hu HQ. mstep.
  eapply wp_kfree; [by eapply sp_at, as_space|done|by eapply sp_free, as_space|done|by intros ?%not_elem_of_nil|].
  intros s1 k1 Hat1 Hf1 Hp1 Hu1.
  assert (aspace s1 k1 [b] d T' U') as Has1.
  { eapply aspace_frame; [done|done|done| |].
    - intros p Hp. apply Hp1. by intros ->.
    - intros p Hp ->%list_elem_of_singleton. done. }
  mstep. eapply wp_freevm; [done|]. intros s2 k2 l2 Hat2 Hf2 Hl2 Hp2 Hu2. mstep. eapply HQ.
  exists k2, l2. split; [done|]. split; [done|]. split; [rewrite Hl2, <- Hperm; solve_Permutation|]. split; [|congruence].
  intros p Hp. rewrite <- Hperm in Hp. apply not_elem_of_cons in Hp as [Hpb Hpo]. rewrite Hp2, Hp1, Hfr; [done| |done|].
  - rewrite <- Hperm. by apply not_elem_of_cons.
  - rewrite not_elem_of_app. split; [done|]. by intros ->%list_elem_of_singleton.
Qed.

Lemma flags_present e : is_present e = true -> Z.lor (PTE_FLAGS e) PTE_P = PTE_FLAGS e.
Proof.
  intros Hp. unfold PTE_FLAGS, is_present, PTE_P in *. apply Z.bits_inj'. intros n Hn. rewrite Z.lor_spec.
  destruct (decide (n = 0)) as [->|Hne].
  - rewrite orb_true_r. symmetry. rewrite Z.land_spec. apply andb_true_intro. split; [|done].
    rewrite Z.bit0_odd. change 1 with (Z.ones 1) in Hp. rewrite Z.land_ones in Hp by lia. change (2 ^ 1) with 2 in Hp.
    rewrite Zmod_odd in Hp. by destruct (Z.odd e).
  - replace (Z.testbit 1 n) with false; [by rewrite orb_false_r|]. symmetry. apply Z.bits_above_log2; [lia|]. cbn. lia.
Qed.

(** The page numbers below [u] stay copied when [u] is added. *)
Lemma copying_next s s' k0 l0 pd T U d T' U' k l u a b k2 k3 l3 T3 da :
  aspace s k0 l0 pd T U -> copying s' k0 l0 pd T U d T' U' k (b :: l) u -> 0 <= u < UPAGES -> U !! u = Some a ->
  pages k !! a = Some da -> pages k2 = <[b := da]> (pages k) -> use_lock k2 = use_lock k -> (b ∉ own d T' U' ++ l) ->
  forall s3, aspace s3 k3 l3 d T3 (<[u := b]> U') -> extends d k2 l T' k3 l3 T3 ->
  ent (pages k3) T3 u = PTE (V2P b) (PTE_FLAGS (ent (pages k) T u)) ->
  (forall v, 0 <= v -> v <> u -> ent (pages k3) T3 v = ent (pages k2) T' v) ->
  copying s3 k0 l0 pd T U d T3 (<[u := b]> U') k3 l3 (u + 1).
Proof using All.
  intros Has0 [Hsrc Hdst Hperm Hfr Hcp Hrest Hkern Hlk] Hu HU Hda Hk2 Hul2 Hbn s3 Has3 Hex3 Heu Hev.
  assert (own d T3 (<[u := b]> U') ++ l3 ≡ₚ l0) as Hperm3.
  { rewrite own_insert by (by apply Hrest). cbn. rewrite (own_extends d T' U' _ _ _ _ _ Hex3), <- Hperm. solve_Permutation. }
  assert (forall p, p ∉ l0 -> pages k3 !! p = pages k0 !! p) as Hfr3.
  { intros p Hp. rewrite <- Hfr by done. rewrite <- Hperm3 in Hp. apply not_elem_of_app in Hp as [Hp _].
    rewrite own_insert in Hp by (by apply Hrest). unfold own in Hp. apply not_elem_of_cons in Hp as [Hpb Hp].
    apply not_elem_of_cons in Hp as [Hpd Hp]. apply not_elem_of_app in Hp as [HpT _].
    rewrite (ex_frame _ _ _ _ _ _ _ Hex3) by done. rewrite Hk2. by apply lookup_insert_ne. }
  destruct (own_nodup _ _ _ _ (as_nodup _ _ _ _ _ _ Has3)) as (_ & HdU & HTU & _).
  destruct (own_nodup _ _ _ _ (as_nodup _ _ _ _ _ _ Has0)) as (_ & _ & _ & Hol).
  assert (forall v c, <[u := b]> U' !! v = Some c -> pages k3 !! c = pages k2 !! c) as Hpg.
  { intros v c Hv. assert (c ∈ tabs (<[u := b]> U')) as Hc by (apply elem_of_tabs; by exists v).
    apply (ex_frame _ _ _ _ _ _ _ Hex3); [by intros ->|]. intros ?. by apply (HTU c). }
  assert (forall v, ent (pages k2) T' v = ent (pages k) T' v) as He2.
  { intros v. apply ent_frame. intros p Hp. rewrite Hk2. apply lookup_insert_ne. intros <-. apply Hbn, elem_of_app. left.
    unfold own. apply elem_of_cons. right. apply elem_of_app. by left. }
  assert (forall p, p ∈ own pd T U -> pages k !! p = pages k0 !! p) as Hsrcp by (intros p ?%Hol; by apply Hfr).
  split; try done.
  - eapply src_frame; [exact Has0|by eapply sp_at, as_space|by eapply sp_free, as_space|done|].
    intros p Hp. rewrite <- Hperm3. apply elem_of_app. by right.
  - intros v Hv. destruct (decide (v = u)) as [->|Hne].
    + exists a, b. split; [done|]. split; [apply lookup_insert_eq|]. split.
      * rewrite (Hpg u) by apply lookup_insert_eq. rewrite Hk2, lookup_insert_eq, <- Hda. apply Hsrcp.
        unfold own. apply elem_of_cons. right. apply elem_of_app. right. apply elem_of_tabs. by exists u.
      * pose proof (as_ent _ _ _ _ _ _ Hsrc u Hu) as He. rewrite HU in He. destruct He as [Hpr _]. rewrite Heu.
        destruct (as_page _ _ _ _ _ _ Has3 u b (lookup_insert_eq _ _ _)) as (_ & Hb & _).
        destruct (page_ok_phys b Hb) as (Hr & Hm & _). pose proof (PTE_FLAGS_mod (ent (pages k) T u)) as Hfm.
        destruct (PTE_spec (V2P b) (PTE_FLAGS (ent (pages k) T u))) as (_ & -> & _); [done|done|rewrite Hfm; apply Z.mod_pos_bound; lia|].
        rewrite flags_present by done. f_equal. apply ent_frame. intros p Hp. apply Hsrcp. unfold own. apply elem_of_cons.
        right. apply elem_of_app. by left.
    + destruct (Hcp v ltac:(lia)) as (a' & b' & Ha' & Hb' & Hpp & Hff). exists a', b'. split; [done|].
      assert (<[u := b]> U' !! v = Some b') as Hv' by (by rewrite lookup_insert_ne). split; [done|]. split.
      * rewrite (Hpg _ _ Hv'), Hk2, <- Hpp. apply lookup_insert_ne. intros <-. apply Hbn, elem_of_app. left.
        unfold own. apply elem_of_cons. right. apply elem_of_app. right. apply elem_of_tabs. by exists v.
      * rewrite Hev, He2 by lia. done.
  - intros v Hv. rewrite lookup_insert_ne by lia. apply Hrest. lia.
  - intros v Hv. rewrite Hev, He2 by lia. by apply Hkern.
  - rewrite (ex_lock _ _ _ _ _ _ _ Hex3). congruence.
Qed.

Lemma wp_copy_page s s0 k0 l0 pd T U d T' U' k l u a X (Q : option Z -> S -> Prop) :
  aspace s0 k0 l0 pd T U -> copying s k0 l0 pd T U d T' U' k l u -> 0 <= u < UPAGES -> U !! u = Some a ->
  (forall s', undone s' k0 l0 -> Q (Some 0) s') ->
  (forall s' T2 U2 k' l', copying s' k0 l0 pd T U d T2 U2 k' l' (u + 1) -> Q None s') ->
  wp (r <~ walkpgdir pd (u * 4096) false;
      match r with
      | None => panic "copyuvm: pte should exist"
      | Some pte =>
          e <~ load_pte pte;
          if negb (is_present e) then panic "copyuvm: page not present"
          else
            let pa := PTE_ADDR e in
            let flags := PTE_FLAGS e in
            mem <~ kalloc;
            if mem =? 0 then freevm d ;;; ret (Some 0)
            else
              data <~ page_at (P2V pa);
              set_page mem data ;;;
              r <~ mappages d (u * 4096) PGSIZE (V2P mem) flags;
              if r <? 0 then kfree mem ;;; freevm d ;;; ret (Some 0) else ret None
      end) X Q s.
Proof using All.
  intros Has0 [Hsrc Hdst Hperm Hfr Hcp Hrest Hkern Hlk] Hu HU Hfail HQ.
  destruct (page_split_v (u * 4096) u) as [Hdx Htx]; [unfold UPAGES in Hu; lia|by rewrite Z.div_mul|].
  destruct (as_page _ _ _ _ _ _ Hsrc _ _ HU) as (_ & Ha & da & Hda & Hdap). destruct (page_ok_phys a Ha) as (_ & _ & HPV & _).
  pose proof (as_ent _ _ _ _ _ _ Hsrc u Hu) as He. rewrite HU in He. destruct He as [Hpr Had].
  assert (exists tab, T !! (u / 1024) = Some tab) as [tab HT].
  { unfold ent in Hpr. destruct (T !! (u / 1024)) as [tab|]; [by exists tab|done]. }
  destruct (space_table _ _ _ _ _ _ _ _ (as_space _ _ _ _ _ _ Hsrc) HT) as (e & Het & _).
  mstep. eapply wp_walk_some; [by eapply as_space|unfold UPAGES in Hu; lia|by rewrite <- Hdx|]. rewrite <- Htx.
  mstep. eapply wp_load_pte; [by eapply sp_at, as_space|done|].
  assert (word_at e (u mod 1024) = ent (pages k) T u) as -> by (unfold ent; by rewrite HT, Het).
  rewrite Hpr, Had. cbn [negb]. cbn zeta.
  mstep. eapply wp_kalloc; [by eapply sp_at, as_space|done|by eapply sp_free, as_space|]. destruct l as [|b l].
  { intros s1 Hat1. cbn [Z.eqb]. mstep. eapply wp_freevm; [eapply aspace_frame; [exact Hdst|done|by eapply sp_free, as_space|done|by intros p _ ?%not_elem_of_nil]|].
    intros s2 k2 l2 Hat2 Hf2 Hl2 Hp2 Hu2. mstep. eapply Hfail. exists k2, l2. split; [done|]. split; [done|].
    split; [by rewrite Hl2|]. split; [|congruence]. intros p Hp. rewrite Hp2, Hfr; [done|done|by rewrite Hperm]. }
  intros s1 k1 Hat1 Hf1 Hp1 Hu1.
  assert (page_ok b) as Hb by (eapply (fo_page _ (b :: l)); [by eapply sp_free, as_space|apply elem_of_cons; by left]).
  pose proof (page_ok_range b Hb) as Hbr. destruct (Z.eqb_spec b 0); [unfold KERNBASE in Hbr; lia|]. rewrite HPV.
  mstep. eapply wp_page_at; [done|by rewrite Hp1|]. unfold set_page. mstep. mstep. mstep.
  set (k2 := k1 <| pages ::= _ |>) in *. match goal with Hx : at_ _ L k2 |- _ => rename Hx into Hat2 end.
  assert (pages k2 = <[b := da]> (pages k)) as Hk2 by (rewrite <- Hp1; done).
  pose proof (fo_nodup _ _ (sp_free _ _ _ _ _ _ (as_space _ _ _ _ _ _ Hdst))) as [Hbl _]%NoDup_cons.
  destruct (aspace_taken s _ k k2 l d T' U' b Hdst Hat2) as [Has2 Hbn]; [by apply free_ok_pages|by intros p Hp; rewrite Hk2; apply lookup_insert_ne|].
  assert (0 <= PTE_FLAGS (ent (pages k) T u) < 4096) as Hfl by (rewrite PTE_FLAGS_mod; apply Z.mod_pos_bound; lia).
  eapply (wp_map_fresh _ k2 l d T' U' u b da); [done|done|by apply Hrest; lia|done|done|rewrite Hk2; apply lookup_insert_eq|done|done| |].
  - intros s3 k3 T3 Has3 Hex3 _ _. cbn [Z.ltb Z.compare].
    assert (own d T3 U' ≡ₚ own d T' U' ++ l) as Hown3 by (rewrite <- (own_extends d T' U' _ _ _ _ _ Hex3), app_nil_r; done).
    eapply (wp_copy_undo s3 k0 l0 k3); [done|done|by rewrite Hown3|rewrite Hown3, <- Hperm; solve_Permutation| | |done].
    + intros p Hp. rewrite <- Hfr by done. rewrite <- Hperm in Hp. apply not_elem_of_app in Hp as [Hpo Hpl].
      apply not_elem_of_cons in Hpl as [Hpb Hpl]. assert (p ∉ own d T3 U') as Hp3 by (rewrite Hown3; by apply not_elem_of_app).
      unfold own in Hp3. apply not_elem_of_cons in Hp3 as [? Hp3]. apply not_elem_of_app in Hp3 as [? _].
      rewrite (ex_frame _ _ _ _ _ _ _ Hex3) by done. rewrite Hk2. by apply lookup_insert_ne.
    + rewrite (ex_lock _ _ _ _ _ _ _ Hex3). change (use_lock k1 = use_lock k0). congruence.
  - intros s3 k3 l3 T3 Has3 Hex3 Heu Hev. cbn [Z.ltb Z.compare]. mstep. eapply HQ.
    eapply (copying_next s0 s k0 l0 pd T U d T' U' k l u a b k2); [done| |done|done|done|done|done|done|done|done|done|done].
    by split.
Qed.
Lemma wp_copyuvm s k l pd T U sz X (Q : Z -> S -> Prop) :
  let n := (sz + 4095) / 4096 in
  aspace s k l pd T U -> 0 <= sz <= KERNBASE -> (forall u, 0 <= u < n -> is_Some (U !! u)) ->
  (forall s', undone s' k l -> Q 0 s') ->
  (forall s' d T' U' k' l', copying s' k l pd T U d T' U' k' l' n -> Q d s') ->
  wp (copyuvm pd sz) X Q s.
Proof using All.
  intros n Has Hsz Hall Hfail HQ. unfold copyuvm. assert (0 <= n <= UPAGES) as Hn.
  { unfold n, UPAGES, KERNBASE in *. split; [apply Z.div_pos; lia|]. apply Z.lt_succ_r, Z.div_lt_upper_bound; lia. }
  mstep. eapply wp_setupkvm; [by eapply sp_at, as_space|by eapply sp_free, as_space| |].
  { intros s1 k1 l1 Hat1 Hf1 Hl1 Hp1 Hu1 _. cbn [Z.eqb]. mstep. eapply Hfail. by exists k1, l1. }
  intros s1 k1 l1 d T1 Hdst Hperm Hkern Hfr Hu1 _.
  assert (copying s1 k l pd T U d T1 ∅ k1 l1 0) as Hcp.
  { split; try done; [|intros; lia]. eapply src_frame; [exact Has|by eapply sp_at, as_space|by eapply sp_free, as_space|done|].
    intros p Hp. rewrite <- Hperm. apply elem_of_app. by right. }
  pose proof (page_ok_range d (proj1 (sp_pd _ _ _ _ _ _ (as_space _ _ _ _ _ _ Hdst)))) as Hd.
  destruct (Z.eqb_spec d 0); [unfold KERNBASE in Hd; lia|]. mstep.
  assert (page_count 0 sz = Z.to_nat n) as ->.
  { unfold page_count, n. f_equal. unfold PGSIZE. f_equal. lia. }
  eapply wp_for_until_seq with (I := fun j s' => exists T' U' k' l', copying s' k l pd T U d T' U' k' l' (Z.of_nat j)).
  - by exists T1, ∅, k1, l1.
  - intros j s2 Hj (T2 & U2 & k2 & l2 & Hcp2). destruct (Hall (Z.of_nat j) ltac:(lia)) as [a Ha].
    replace (PGSIZE * Z.of_nat j) with (Z.of_nat j * 4096) by (unfold PGSIZE; lia).
    eapply wp_copy_page; [exact Has|done|lia|done| |].
    + intros s3 Hun. mstep. by apply Hfail.
    + intros s3 T3 U3 k3 l3 Hcp3. exists T3, U3, k3, l3. by replace (Z.of_nat (Datatypes.S j)) with (Z.of_nat j + 1) by lia.
  - intros s2 (T2 & U2 & k2 & l2 & Hcp2). mstep. eapply HQ. by rewrite Z2Nat.id in Hcp2 by lia.
Qed.
(** ** Growing *)

Definition zero_data : list Z := replicate (Z.to_nat PGSIZE) 0.

(** [j] pages of zeros were added at page number [lo]. *)
Record grown pd k l T U k' l' T' U' (lo j : Z) : Prop := {
  gw_old : forall u, ~ lo <= u < lo + j -> U' !! u = U !! u;
  gw_new : forall u, lo <= u < lo + j -> exists b, U' !! u = Some b /\ pages k' !! b = Some zero_data /\
    ent (pages k') T' u = PTE (V2P b) (Z.lor PTE_W PTE_U);
  gw_perm : own pd T' U' ++ l' ≡ₚ own pd T U ++ l;
  gw_ent : forall v, 0 <= v -> is_Some (U !! v) \/ UPAGES <= v -> ent (pages k') T' v = ent (pages k) T v;
  gw_data : forall v a, U !! v = Some a -> pages k' !! a = pages k !! a;
  gw_frame : forall p, p ∉ own pd T U ++ l -> pages k' !! p = pages k !! p;
  gw_lock : use_lock k' = use_lock k
}.

(** Page [b] is taken and filled, and tables are added. *)
Lemma grown_held s1 pd k l T U k1 l1 T1 U1 lo j b d k2 k3 l3 T3 :
  0 <= j -> (forall u, lo <= u < lo + j + 1 -> U !! u = None) -> lo + j < UPAGES ->
  aspace s1 k1 (b :: l1) pd T1 U1 -> grown pd k l T U k1 (b :: l1) T1 U1 lo j ->
  pages k2 = <[b := d]> (pages k1) -> use_lock k2 = use_lock k1 -> extends pd k2 l1 T1 k3 l3 T3 -> 0 <= lo ->
  (forall v, 0 <= v -> v <> lo + j -> ent (pages k3) T3 v = ent (pages k2) T1 v) ->
  grown pd k l T U k3 (b :: l3) T3 U1 lo j /\ pages k3 !! b = Some d /\ NoDup (own pd T3 U1 ++ b :: l3).
Proof using All.
  intros Hj Habs Hmax Has1 [Ho Hn Hp He Hd Hfr Hlk] Hk2 Hu2 Hex Hlo Hev.
  assert (own pd T3 U1 ++ b :: l3 ≡ₚ own pd T1 U1 ++ b :: l1) as Hp3.
  { rewrite <- !Permutation_middle. by rewrite (own_extends pd T1 U1 _ _ _ _ _ Hex). }
  pose proof (as_nodup _ _ _ _ _ _ Has1) as Hnd. destruct (own_nodup _ _ _ _ Hnd) as (_ & _ & _ & Hol1).
  rewrite <- Hp3 in Hnd. destruct (own_nodup _ _ _ _ Hnd) as (_ & HdU & HTU & Hol3).
  assert (forall p, p ∈ own pd T3 U1 -> p <> b) as Hnb by (intros p Hpo ->; apply (Hol3 b Hpo), elem_of_cons; by left).
  assert (forall p, p ∈ own pd T1 U1 -> p <> b) as Hnb1 by (intros p Hpo ->; apply (Hol1 b Hpo), elem_of_cons; by left).
  assert (forall p, p <> pd -> p ∉ tabs T3 -> pages k3 !! p = pages k2 !! p) as Hf3 by apply (ex_frame _ _ _ _ _ _ _ Hex).
  assert (forall v, 0 <= v -> v <> lo + j -> ent (pages k3) T3 v = ent (pages k1) T1 v) as He3.
  { intros v Hv Hne. rewrite Hev by done. apply ent_frame. intros p Hpt. rewrite Hk2. apply lookup_insert_ne, not_eq_sym, Hnb1. unfold own.
    apply elem_of_cons. right. apply elem_of_app. by left. }
  assert (forall v c, U1 !! v = Some c -> pages k3 !! c = pages k1 !! c) as Hpg.
  { intros v c Hv. assert (c ∈ tabs U1) as Hc by (apply elem_of_tabs; by exists v).
    rewrite Hf3; [|by intros ->|by intros ?; apply (HTU c)]. rewrite Hk2. apply lookup_insert_ne, not_eq_sym, Hnb. unfold own.
    apply elem_of_cons. right. apply elem_of_app. by right. }
  split; [|split; [|done]].
  - split.
    + done.
    + intros u Hu. destruct (Hn u Hu) as (c & Hc & Hcp & Hce). exists c. split; [done|]. by rewrite (Hpg u), He3 by (done || lia).
    + by rewrite Hp3.
    + intros v Hv Hm. rewrite He3; [by apply He|done|]. intros ->. rewrite Habs in Hm by lia. destruct Hm as [[? [=]]|]; lia.
    + intros v a Ha. rewrite <- (Hd v a Ha). apply (Hpg v). rewrite Ho; [done|]. intros Hv.
      rewrite Habs in Ha by lia. done.
    + intros p Hpn. rewrite <- Hfr by done. rewrite <- Hp, <- Hp3 in Hpn. apply not_elem_of_app in Hpn as [Hpn Hpb].
      apply not_elem_of_cons in Hpb as [Hpb _]. unfold own in Hpn. apply not_elem_of_cons in Hpn as [Hpd Hpn].
      apply not_elem_of_app in Hpn as [HpT _]. rewrite Hf3 by done. rewrite Hk2. by apply lookup_insert_ne.
    + rewrite (ex_lock _ _ _ _ _ _ _ Hex). congruence.
  - rewrite Hf3, Hk2; [apply lookup_insert_eq| |].
    + intros ->. apply (Hnb pd); [|done]. unfold own. apply elem_of_cons. by left.
    + intros HbT. apply (Hnb b); [|done]. unfold own. apply elem_of_cons. right. apply elem_of_app. by left.
Qed.

(** Page [b] becomes the next page. *)
Lemma grown_add pd k l T U k3 l3 T3 U1 lo j b : 0 <= j ->
  (forall u, lo <= u < lo + j + 1 -> U !! u = None) -> grown pd k l T U k3 (b :: l3) T3 U1 lo j ->
  pages k3 !! b = Some zero_data -> ent (pages k3) T3 (lo + j) = PTE (V2P b) (Z.lor PTE_W PTE_U) ->
  grown pd k l T U k3 l3 T3 (<[lo + j := b]> U1) lo (j + 1).
Proof using All.
  intros Hj Habs [Ho Hn Hp He Hd Hfr Hlk] Hb Heu. assert (U1 !! (lo + j) = None) as HU1 by (rewrite Ho by lia; apply Habs; lia).
  split; try done.
  - intros u Hu. rewrite lookup_insert_ne by lia. apply Ho. lia.
  - intros u Hu. destruct (decide (u = lo + j)) as [->|Hne]; [exists b; split; [apply lookup_insert_eq|done]|].
    rewrite lookup_insert_ne by done. apply Hn. lia.
  - rewrite own_insert, <- Hp by done. cbn. solve_Permutation.
Qed.

(** The pages mapped so far go back; [h] are the pages in hand. *)
Lemma wp_alloc_undo {B} s1 s pd k l T U k1 l1 T1 U1 h oldsz newsz j (m : M S B) X (Q : B -> S -> Prop) :
  let lo := (oldsz + 4095) / 4096 in let hi := (newsz + 4095) / 4096 in
  aspace s k l pd T U -> (forall u, lo <= u < hi -> U !! u = None) -> 0 <= oldsz < newsz -> newsz <= KERNBASE ->
  lo + j <= hi -> aspace s1 k1 l1 pd T1 U1 -> grown pd k l T U k1 (h ++ l1) T1 U1 lo j -> NoDup (own pd T1 U1 ++ h ++ l1) ->
  (forall s2 k2 l2, aspace s2 k2 l2 pd T1 U -> grown pd k l T U k2 (h ++ l2) T1 U lo 0 ->
     NoDup (own pd T1 U ++ h ++ l2) -> wp m X Q s2) ->
  wp (deallocuvm pd newsz oldsz ;;; m) X Q s1.
Proof using All.
  intros lo hi Has Habs Hs Hmax Hj Has1 [Ho Hn Hp He Hd Hfr Hlk] Hnd HQ. mstep. eapply wp_deallocuvm; [done|lia|done|].
  fold lo hi. intros s2 k2 l2 U2 Has2 [Hu Hp2 Hf2 He2 Hm2 Hlk2]. assert (0 <= lo) as Hlo by (apply Z.div_pos; lia).
  assert (hi <= UPAGES) as Hhi.
  { unfold hi, UPAGES, KERNBASE in *. apply Z.lt_succ_r, Z.div_lt_upper_bound; lia. }
  assert (U2 = U) as ->.
  { apply map_eq. intros u. rewrite Hu. destruct (decide _); [by rewrite Habs|]. apply Ho. lia. }
  assert (own pd T1 U ++ h ++ l2 ≡ₚ own pd T1 U1 ++ h ++ l1) as Hperm.
  { rewrite (Permutation_app_swap_app (own pd T1 U)), <- Hp2. solve_Permutation. }
  destruct (own_nodup _ _ _ _ (as_nodup _ _ _ _ _ _ Has2)) as (_ & _ & HTU & Hol).
  eapply (HQ s2 k2 l2); [done| |by rewrite Hperm]. split.
  - done.
  - lia.
  - by rewrite Hperm.
  - intros v Hv Hm. rewrite He2; [by apply He|done|]. intros Hr. rewrite Habs in Hm by lia. destruct Hm as [[? [=]]|]; lia.
  - intros v a Ha. assert (a ∈ tabs U) as HaU by (apply elem_of_tabs; by exists v). rewrite Hf2; [by apply (Hd v)| |].
    + intros HaT. by apply (HTU a).
    + apply Hol. unfold own. apply elem_of_cons. right. apply elem_of_app. by right.
  - intros p Hpn. rewrite <- Hfr by done. rewrite <- Hp, <- Hperm in Hpn. apply not_elem_of_app in Hpn as [Hpo Hpl].
    unfold own in Hpo. apply not_elem_of_cons in Hpo as [_ Hpo]. apply not_elem_of_app in Hpo as [HpT _].
    apply not_elem_of_app in Hpl as [_ Hpl]. by apply Hf2.
  - congruence.
Qed.

(** The page in hand is freed. *)
Lemma grown_freed pd k l T U k1 l1 T1 lo b k2 :
  grown pd k l T U k1 (b :: l1) T1 U lo 0 -> (forall p, p ∈ own pd T1 U -> p <> b) ->
  (forall p, p <> b -> pages k2 !! p = pages k1 !! p) -> use_lock k2 = use_lock k1 ->
  grown pd k l T U k2 (b :: l1) T1 U lo 0.
Proof using All.
  intros [Ho Hn Hp He Hd Hfr Hlk] Hnb Hp2 Hu2. split; [done|lia|done| | | |congruence].
  - intros v Hv Hm. rewrite <- He by done. apply ent_frame. intros p Hpt. apply Hp2, Hnb. unfold own.
    apply elem_of_cons. right. apply elem_of_app. by left.
  - intros v a Ha. rewrite Hp2; [by apply (Hd v)|]. apply Hnb. unfold own. apply elem_of_cons. right.
    apply elem_of_app. right. apply elem_of_tabs. by exists v.
  - intros p Hpn. rewrite Hp2; [by apply Hfr|]. rewrite <- Hp in Hpn. apply not_elem_of_app in Hpn as [_ Hpn].
    by apply not_elem_of_cons in Hpn as [? _].
Qed.

Lemma wp_alloc_page s s1 pd k l T U k1 l1 T1 U1 oldsz newsz j X (Q : option Z -> S -> Prop) :
  let lo := (oldsz + 4095) / 4096 in let hi := (newsz + 4095) / 4096 in
  aspace s k l pd T U -> (forall u, lo <= u < hi -> U !! u = None) -> 0 <= oldsz < newsz -> newsz <= KERNBASE ->
  0 <= j -> lo + j < hi -> aspace s1 k1 l1 pd T1 U1 -> grown pd k l T U k1 l1 T1 U1 lo j ->
  (forall s2 k2 l2 T2, aspace s2 k2 l2 pd T2 U -> grown pd k l T U k2 l2 T2 U lo 0 -> Q (Some 0) s2) ->
  (forall s2 k2 l2 T2 U2, aspace s2 k2 l2 pd T2 U2 -> grown pd k l T U k2 l2 T2 U2 lo (j + 1) -> Q None s2) ->
  wp (mem <~ kalloc;
      if mem =? 0 then deallocuvm pd newsz oldsz ;;; ret (Some 0)
      else
        zero_page mem ;;;
        r <~ mappages pd ((lo + j) * 4096) PGSIZE (V2P mem) (Z.lor PTE_W PTE_U);
        if r <? 0 then deallocuvm pd newsz oldsz ;;; kfree mem ;;; ret (Some 0)
        else ret None) X Q s1.
Proof using All.
  intros lo hi Has Habs Hs Hmax Hj Hjh Has1 Hg Hfail HQ.
  assert (0 <= lo) as Hlo by (apply Z.div_pos; lia).
  assert (hi <= UPAGES) as Hhi.
  { unfold hi, UPAGES, KERNBASE in *. apply Z.lt_succ_r, Z.div_lt_upper_bound; lia. }
  mstep. eapply wp_kalloc; [by eapply sp_at, as_space|done|by eapply sp_free, as_space|]. destruct l1 as [|b l1].
  { intros s2 Hat2. cbn [Z.eqb].
    assert (aspace s2 k1 [] pd T1 U1) as Has2.
    { eapply aspace_frame; [exact Has1|done|by eapply sp_free, as_space|done|by intros p _ ?%not_elem_of_nil]. }
    eapply (wp_alloc_undo s2 s pd k l T U k1 [] T1 U1 [] oldsz newsz j); try done; [lia|by eapply as_nodup|].
    intros s3 k3 l3 Has3 Hg3 _. mstep. by eapply Hfail. }
  intros s2 k2 Hat2 Hf2 Hp2 Hu2.
  assert (page_ok b) as Hb by (eapply (fo_page _ (b :: l1)); [by eapply sp_free, as_space|apply elem_of_cons; by left]).
  pose proof (page_ok_range b Hb) as Hbr. destruct (Z.eqb_spec b 0); [unfold KERNBASE in Hbr; lia|].
  unfold zero_page, set_page. fold zero_data. mstep. mstep. mstep. pose proof zero_page_ok as Hzp. fold zero_data in Hzp.
  set (k3 := k2 <| pages ::= _ |>) in *. match goal with Hx : at_ _ L k3 |- _ => rename Hx into Hat3 end.
  assert (pages k3 = <[b := zero_data]> (pages k1)) as Hk3 by (rewrite <- Hp2; done).
  pose proof (fo_nodup _ _ (sp_free _ _ _ _ _ _ (as_space _ _ _ _ _ _ Has1))) as [Hbl _]%NoDup_cons.
  destruct (aspace_taken s1 _ k1 k3 l1 pd T1 U1 b Has1 Hat3) as [Has3 Hbn]; [by apply free_ok_pages|by intros p Hp; rewrite Hk3; apply lookup_insert_ne|].
  assert (U1 !! (lo + j) = None) as HU1 by (rewrite (gw_old _ _ _ _ _ _ _ _ _ _ _ Hg) by lia; apply Habs; lia).
  assert (forall u, lo <= u < lo + j + 1 -> U !! u = None) as Habs' by (intros; apply Habs; lia).
  eapply (wp_map_fresh _ k3 l1 pd T1 U1 (lo + j) b zero_data); [done|lia|done|done|done|rewrite Hk3; apply lookup_insert_eq|done|done| |].
  - intros s4 k4 T4 Has4 Hex4 Hev4 _. cbn [Z.ltb Z.compare].
    destruct (grown_held s1 pd k l T U k1 l1 T1 U1 lo j b zero_data k3 k4 [] T4) as (Hg4 & _ & Hnd4); try done; [lia|by intros; apply Hev4|].
    eapply (wp_alloc_undo s4 s pd k l T U k4 [] T4 U1 [b] oldsz newsz j); try done; [lia|].
    intros s5 k5 l5 Has5 Hg5 Hnd5. mstep. apply NoDup_app in Hnd5 as (_ & Hob & Hbl5). cbn [app] in *. apply NoDup_cons in Hbl5 as [Hbl5 _].
    eapply wp_kfree; [by eapply sp_at, as_space|done|by eapply sp_free, as_space|done|done|]. intros s6 k6 Hat6 Hf6 Hp6 Hu6.
    assert (forall p, p ∈ own pd T4 U -> p <> b) as Hnb by (intros p Hp ->; apply (Hob b Hp), elem_of_cons; by left).
    mstep. eapply (Hfail _ k6 (b :: l5) T4); [|by eapply grown_freed].
    eapply aspace_frame; [done|done|done|by intros p ?%Hnb; apply Hp6|by intros p ?%Hob].
  - intros s4 k4 l4 T4 Has4 Hex4 Heu Hev4. cbn [Z.ltb Z.compare]. mstep. eapply HQ; [exact Has4|].
    destruct (grown_held s1 pd k l T U k1 l1 T1 U1 lo j b zero_data k3 k4 l4 T4) as (Hg4 & Hb4 & _); try done; [lia|].
    by apply grown_add.
Qed.

Lemma wp_allocuvm s k l pd T U oldsz newsz X (Q : Z -> S -> Prop) :
  let lo := (oldsz + 4095) / 4096 in let hi := (newsz + 4095) / 4096 in
  aspace s k l pd T U -> (forall u, lo <= u < hi -> U !! u = None) -> 0 <= oldsz <= newsz -> newsz < KERNBASE ->
  (forall s' k' l' T', aspace s' k' l' pd T' U -> grown pd k l T U k' l' T' U lo 0 -> Q 0 s') ->
  (forall s' k' l' T' U', aspace s' k' l' pd T' U' -> grown pd k l T U k' l' T' U' lo (hi - lo) -> Q newsz s') ->
  wp (allocuvm pd oldsz newsz) X Q s.
Proof using All.
  intros lo hi Has Habs Hs Hmax Hfail HQ. unfold allocuvm. destruct (Z.leb_spec KERNBASE newsz); [lia|].
  destruct (Z.ltb_spec newsz oldsz); [lia|]. cbn zeta. unfold KERNBASE in Hmax. rewrite PGROUNDUP_div by lia. fold lo.
  assert (lo <= hi) as Hlh by (apply Z.div_le_mono; lia).
  assert (page_count (lo * 4096) newsz = Z.to_nat (hi - lo)) as ->.
  { unfold page_count, hi, PGSIZE. f_equal. replace (newsz - lo * 4096 + 4096 - 1) with (newsz + 4095 + - lo * 4096) by lia.
    rewrite Z.div_add by lia. lia. }
  mstep. eapply wp_for_until_seq with (I := fun j s' => exists k' l' T' U', aspace s' k' l' pd T' U' /\
    grown pd k l T U k' l' T' U' lo (Z.of_nat j)).
  - exists k, l, T, U. split; [done|]. split; try done. intros; lia.
  - intros j s2 Hj (k2 & l2 & T2 & U2 & Has2 & Hg2). cbn zeta.
    replace (lo * 4096 + PGSIZE * Z.of_nat j) with ((lo + Z.of_nat j) * 4096) by (unfold PGSIZE; lia).
    assert (oldsz <> newsz) by (intros ->; unfold lo, hi in *; lia).
    eapply (wp_alloc_page s s2 pd k l T U); [exact Has|done|lia|unfold KERNBASE; lia|lia|fold lo hi; lia|exact Has2|done| |].
    + intros s3 k3 l3 T3 Has3 Hg3. mstep. by eapply Hfail.
    + intros s3 k3 l3 T3 U3 Has3 Hg3. exists k3, l3, T3, U3. split; [done|]. by replace (Z.of_nat (Datatypes.S j)) with (Z.of_nat j + 1) by lia.
  - intros s2 (k2 & l2 & T2 & U2 & Has2 & Hg2). mstep. eapply HQ; [done|]. by rewrite Z2Nat.id in Hg2 by lia.
Qed.
End space.
