(* ===== verification/VmThms.v ===== *)
(** * User memory as the hardware sees it ([vm.c])

    [user_byte] is a load through a page directory: the two levels of the
    walk, then the byte of the page.  Growing an address space and copying it
    for [fork] are stated by the bytes that a process reads. *)
From Stdlib Require Import ZArith Lia.
From stdpp Require Import base list gmap strings.
From S2P Require Import Prelude Params Mmu Bytes Spinlock Proc Sched SchedInv Kern Sleeplock FsData Demo Kalloc Vm VmMap VmSpace.
#[local] Open Scope Z_scope.
#[local] Open Scope kernel_scope.

(** The page-table entry that translates [va]. *)
Definition mmu_pte (pgs : gmap Z (list Z)) (pd va : Z) : Z :=
  let pde := word_at (default [] (pgs !! pd)) (PDX va) in
  if is_present pde then word_at (default [] (pgs !! P2V (PTE_ADDR pde))) (PTX va) else 0.

Definition user_byte (pgs : gmap Z (list Z)) (pd va : Z) : option Z :=
  let pte := mmu_pte pgs pd va in
  if is_present pte then d ← pgs !! P2V (PTE_ADDR pte); d !! Z.to_nat (va mod PGSIZE) else None.

Lemma mmu_pte_dir `{Layout} pgs pd T va : dir_ok pgs pd T -> 0 <= va < 2 ^ 32 -> mmu_pte pgs pd va = ent pgs T (va / 4096).
Proof.
  intros Hdir Hva. destruct (page_split va Hva) as (_ & Hi & _). destruct (page_split_v va (va / 4096) Hva eq_refl) as [Hd Ht].
  unfold mmu_pte, ent. rewrite Hd, Ht. destruct (do_dir _ _ _ Hdir) as (d & Hpd & _ & Hw).
  rewrite Hpd. cbn [default id]. cbn zeta. specialize (Hw _ Hi). destruct (T !! PDX va) as [tab|] eqn:HT.
  - destruct (do_tab _ _ _ Hdir _ _ HT) as (_ & Htp & _). destruct (PDE_spec tab Htp) as (Hp & Ha & _).
    by rewrite Hw, Hp, Ha.
  - by rewrite Hw.
Qed.

Section views.
Context `{Layout} {S : Type} `{KernLaws S kmem} (L : list Z).
Implicit Types (s : S) (k : kmem) (l : list Z) (T U : gmap Z Z).

Lemma mmu_pte_ent s k l pd T va : space L s k l pd T -> 0 <= va < 2 ^ 32 -> mmu_pte (pages k) pd va = ent (pages k) T (va / 4096).
Proof. intros Hsp. apply mmu_pte_dir, (sp_dir _ _ _ _ _ _ Hsp). Qed.

Lemma user_byte_page s k l pd T U va : aspace L s k l pd T U -> 0 <= va < KERNBASE ->
  user_byte (pages k) pd va = a ← U !! (va / 4096); d ← pages k !! a; d !! Z.to_nat (va mod PGSIZE).
Proof.
  intros Has Hva. unfold KERNBASE in Hva. unfold user_byte. rewrite (mmu_pte_ent s k l pd T) by (by eapply as_space || lia). cbn zeta.
  assert (0 <= va / 4096 < UPAGES) as Hv.
  { unfold UPAGES. split; [apply Z.div_pos; lia|apply Z.div_lt_upper_bound; lia]. }
  pose proof (as_ent _ _ _ _ _ _ _ Has _ Hv) as He. destruct (U !! (va / 4096)) as [a|] eqn:HU; cbn.
  - destruct He as [-> ->]. destruct (as_page _ _ _ _ _ _ _ Has _ _ HU) as (_ & Ha & _).
    destruct (page_ok_phys a Ha) as (_ & _ & -> & _). done.
  - by rewrite He.
Qed.
End views.

Section thms.
Context `{Layout} {S : Type} `{KernLaws S kmem} (L : list Z).
Implicit Types (s : S) (k : kmem) (l : list Z) (T U : gmap Z Z).

Lemma page_of_byte va sz : 0 <= va < sz -> 0 <= va / 4096 < (sz + 4095) / 4096.
Proof.
  intros Hva. split; [apply Z.div_pos; lia|]. apply Z.div_lt_upper_bound; [lia|].
  pose proof (Z.div_mod (sz + 4095) 4096 ltac:(lia)). pose proof (Z.mod_pos_bound (sz + 4095) 4096 ltac:(lia)). lia.
Qed.

(** What [fork] gets: [d] is an address space of its own with the bytes and
    the permissions of [pd] below [sz] and the kernel's mappings above. *)
Definition copied s' k l pd T U (sz d : Z) : Prop :=
  exists k' l' T' U', aspace L s' k' l' pd T U /\ aspace L s' k' l' d T' U' /\ own d T' U' ++ l' ≡ₚ l /\
    (forall va, 0 <= va < KERNBASE -> user_byte (pages k') pd va = user_byte (pages k) pd va) /\
    (forall va, 0 <= va < sz -> user_byte (pages k') d va = user_byte (pages k) pd va /\ is_Some (user_byte (pages k') d va) /\
       PTE_FLAGS (mmu_pte (pages k') d va) = PTE_FLAGS (mmu_pte (pages k) pd va)) /\
    (forall va, PGROUNDUP sz <= va < KERNBASE -> user_byte (pages k') d va = None) /\
    (forall va, KERNBASE <= va < 2 ^ 32 -> mmu_pte (pages k') d va = kern_ent (va / 4096)).

Lemma copying_copied s s' k l pd T U sz d T' U' k' l' :
  aspace L s k l pd T U -> 0 <= sz <= KERNBASE ->
  copying L s' k l pd T U d T' U' k' l' ((sz + 4095) / 4096) -> copied s' k l pd T U sz d.
Proof.
  intros Has Hsz [Hsrc Hdst Hperm Hfr Hcp Hrest Hkern _]. unfold copied, KERNBASE in *. exists k', l', T', U'.
  split; [done|]. split; [done|]. split; [done|].
  destruct (own_nodup _ _ _ _ (as_nodup _ _ _ _ _ _ _ Has)) as (_ & _ & _ & Hol).
  assert (forall v a, U !! v = Some a -> pages k' !! a = pages k !! a) as HfU.
  { intros v a Ha. apply Hfr, Hol. unfold own. apply elem_of_cons. right. apply elem_of_app. right. apply elem_of_tabs. by exists v. }
  split; [|split; [|split]].
  - intros va Hva. rewrite (user_byte_page L s' k' l' pd T U), (user_byte_page L s k l pd T U) by done.
    destruct (U !! (va / 4096)) as [a|] eqn:HU; [cbn|done]. by rewrite (HfU _ _ HU).
  - intros va Hva. pose proof (page_of_byte va sz Hva) as Hv. destruct (Hcp _ Hv) as (a & b & Ha & Hb & Hab & Hfl).
    rewrite (user_byte_page L s' k' l' d T' U'), (user_byte_page L s k l pd T U), Ha, Hb by (done || unfold KERNBASE; lia). cbn.
    rewrite Hab. split; [done|]. split.
    + destruct (as_page _ _ _ _ _ _ _ Has _ _ Ha) as (_ & _ & da & -> & [Hlen _]). cbn. apply lookup_lt_is_Some.
      unfold PGSIZE in *. pose proof (Z.mod_pos_bound va 4096 ltac:(lia)). lia.
    + rewrite (mmu_pte_ent L s' k' l' d T'), (mmu_pte_ent L s k l pd T) by (by eapply as_space || lia). done.
  - intros va Hva. rewrite PGROUNDUP_div in Hva by lia. assert (0 <= (sz + 4095) / 4096) by (apply Z.div_pos; lia).
    rewrite (user_byte_page L s' k' l' d T' U') by (done || unfold KERNBASE; lia). rewrite Hrest; [done|].
    apply Z.div_le_lower_bound; lia.
  - intros va Hva. rewrite (mmu_pte_ent L s' k' l' d T') by (by eapply as_space || lia). apply Hkern.
    unfold UPAGES. apply Z.div_le_lower_bound; lia.
Qed.

(** C14: Copying an address space.  If every page of [pd] below [sz] is
    present, [copyuvm(pd, sz)] returns without a panic.  Either it returns 0
    and the pages that were free are free again; or it returns a directory
    [d] that owns, together with the free list, exactly the pages that were
    free, through which every address below [sz] reads the byte that [pd]
    has there, with the same permission bits, nothing is mapped from the end
    of [sz] up to the kernel, and the kernel's part is that of [kmap]; the
    memory of [pd] is as before. *)
Theorem copyuvm_correct s k l pd T U sz :
  kmem_lock ∉ L -> aspace L s k l pd T U -> 0 <= sz <= KERNBASE ->
  (forall u, 0 <= u < (sz + 4095) / 4096 -> is_Some (U !! u)) ->
  wp (copyuvm pd sz) never (fun d s' => if d =? 0 then undone L s' k l else copied s' k l pd T U sz d) s.
Proof.
  intros HL Has Hsz Hall. eapply wp_copyuvm; [done|done|done|done|done|]. intros s' d T' U' k' l' Hcp.
  pose proof (page_ok_range d (proj1 (sp_pd _ _ _ _ _ _ (as_space _ _ _ _ _ _ _ (cp_dst _ _ _ _ _ _ _ _ _ _ _ _ _ Hcp))))) as Hd.
  destruct (Z.eqb_spec d 0); [unfold KERNBASE in Hd; lia|]. by eapply copying_copied.
Qed.

(** What [growproc] and [exec] get: with [hi] the new end, the addresses from
    [lo] read zero and are writable, and all the others read as before. *)
Definition regrown s' k l pd T U (lo hi : Z) : Prop :=
  exists k' l' T' U', aspace L s' k' l' pd T' U' /\ own pd T' U' ++ l' ≡ₚ own pd T U ++ l /\
    (forall va, 0 <= va < KERNBASE -> user_byte (pages k') pd va =
       if decide (lo <= va < hi) then Some 0 else user_byte (pages k) pd va) /\
    (forall va, lo <= va < hi -> PTE_FLAGS (mmu_pte (pages k') pd va) = Z.lor PTE_P (Z.lor PTE_W PTE_U)) /\
    (forall va, KERNBASE <= va < 2 ^ 32 -> mmu_pte (pages k') pd va = mmu_pte (pages k) pd va).

Lemma grown_regrown s s' k l pd T U k' l' T' U' lo j :
  aspace L s k l pd T U -> aspace L s' k' l' pd T' U' -> grown pd k l T U k' l' T' U' lo j -> 0 <= lo -> 0 <= j -> lo + j <= UPAGES ->
  regrown s' k l pd T U (lo * 4096) ((lo + j) * 4096).
Proof.
  intros Has Has' [Ho Hn Hp He Hd _ _] Hlo Hj Hmax. unfold UPAGES in *. exists k', l', T', U'. split; [done|]. split; [done|].
  assert (forall va, lo * 4096 <= va < (lo + j) * 4096 -> lo <= va / 4096 < lo + j) as Hin.
  { intros va Hva. split; [apply Z.div_le_lower_bound; lia|apply Z.div_lt_upper_bound; lia]. }
  split; [|split].
  - intros va Hva. rewrite (user_byte_page L s' k' l' pd T' U') by done. destruct (decide _) as [Hr|Hr].
    + destruct (Hn _ (Hin _ Hr)) as (b & -> & Hb & _). cbn. rewrite Hb. cbn. unfold zero_data, PGSIZE. rewrite lookup_replicate.
      pose proof (Z.mod_pos_bound va 4096 ltac:(lia)). split; [done|lia].
    + rewrite (user_byte_page L s k l pd T U) by done. rewrite Ho.
      * destruct (U !! (va / 4096)) as [a|] eqn:HU; [cbn|done]. by rewrite (Hd _ _ HU).
      * pose proof (Z.div_mod va 4096 ltac:(lia)). pose proof (Z.mod_pos_bound va 4096 ltac:(lia)). lia.
  - intros va Hr. rewrite (mmu_pte_ent L s' k' l' pd T') by (by eapply as_space || lia).
    destruct (Hn _ (Hin _ Hr)) as (b & Hb & _ & ->). destruct (as_page _ _ _ _ _ _ _ Has' _ _ Hb) as (_ & Hbp & _).
    destruct (page_ok_phys b Hbp) as (Hbr & Hbm & _). by destruct (PTE_spec (V2P b) (Z.lor PTE_W PTE_U)) as (_ & -> & _).
  - intros va Hva. unfold KERNBASE in Hva. rewrite (mmu_pte_ent L s' k' l' pd T'), (mmu_pte_ent L s k l pd T) by (by eapply as_space || lia).
    apply He; [apply Z.div_pos; lia|]. right. apply Z.div_le_lower_bound; lia.
Qed.

(** C15: Growing an address space.  [allocuvm(pd, oldsz, newsz)] refuses a
    [newsz] in the kernel's part with 0, and returns [oldsz] when there is
    nothing to grow.  Otherwise, if nothing is mapped above [oldsz], it
    returns without a panic: either [newsz], and then the pages from [oldsz]
    to [newsz] read zero and are present, writable and open to the user; or
    0, and then none of them is.  In both cases every other address reads as
    before, and the pages of the address space together with the free ones
    are those of before. *)
Theorem allocuvm_correct s k l pd T U oldsz newsz :
  kmem_lock ∉ L -> aspace L s k l pd T U -> 0 <= oldsz -> (forall u, (oldsz + 4095) / 4096 <= u -> U !! u = None) ->
  wp (allocuvm pd oldsz newsz) never (fun r s' =>
    if KERNBASE <=? newsz then r = 0 /\ s' = s
    else if newsz <? oldsz then r = oldsz /\ s' = s
    else (r = newsz /\ regrown s' k l pd T U (PGROUNDUP oldsz) (PGROUNDUP newsz)) \/
         (r = 0 /\ regrown s' k l pd T U (PGROUNDUP oldsz) (PGROUNDUP oldsz))) s.
Proof.
  intros HL Has Hold Habs. destruct (Z.leb_spec KERNBASE newsz) as [Hk|Hk].
  { unfold allocuvm. rewrite (proj2 (Z.leb_le _ _) Hk). by mstep. }
  destruct (Z.ltb_spec newsz oldsz) as [Hn|Hn].
  { unfold allocuvm. rewrite (proj2 (Z.leb_gt _ _) Hk), (proj2 (Z.ltb_lt _ _) Hn). by mstep. }
  assert (0 <= (oldsz + 4095) / 4096) by (apply Z.div_pos; lia).
  assert ((oldsz + 4095) / 4096 <= (newsz + 4095) / 4096) by (apply Z.div_le_mono; lia).
  assert ((newsz + 4095) / 4096 <= UPAGES).
  { unfold UPAGES, KERNBASE in *. apply Z.lt_succ_r, Z.div_lt_upper_bound; lia. }
  unfold KERNBASE in Hk. rewrite !PGROUNDUP_div by lia.
  eapply wp_allocuvm; [done|done|intros u [Hu _]; by apply Habs|lia|unfold KERNBASE; lia| |].
  - intros s' k' l' T' Has' Hg. right. split; [done|]. eapply grown_regrown in Hg; try done; [|lia].
    by rewrite Z.add_0_r in Hg.
  - intros s' k' l' T' U' Has' Hg. left. split; [done|]. eapply grown_regrown in Hg; try done; [|lia|lia].
    replace ((oldsz + 4095) / 4096 + ((newsz + 4095) / 4096 - (oldsz + 4095) / 4096)) with ((newsz + 4095) / 4096) in Hg by lia. done.
Qed.
End thms.

(** *** An address space of one page, and one free page *)
Module Tiny.
Definition dir : Z := 0x80200000.
Definition tab : Z := 0x80201000.
Definition page : Z := 0x80202000.
Definition free : Z := 0x80203000.
Definition tables : gmap Z Z := {[ 0 := tab ]}.
Definition users : gmap Z Z := {[ 0 := page ]}.
Definition mem : kmem := mkkmem 1 free
  (<[dir := set_word zero_data 0 (PDE tab)]> (<[tab := set_word zero_data 0 (PTE (V2P page) (Z.lor PTE_W PTE_U))]>
    (<[page := zero_data]> (<[free := zero_data]> ∅)))).

Lemma tiny_own : own dir tables users = [dir; tab; page].
Proof. unfold own, tabs, tables, users. by rewrite !map_to_list_singleton. Qed.

Lemma tiny_page a : a = dir \/ a = tab \/ a = page \/ a = free -> page_ok a.
Proof. intros [->|[->|[->| ->]]]; by vm_compute. Qed.

Lemma tiny_data : is_page zero_data /\ (forall k, word_at zero_data k = 0) /\ length zero_data = 4096%nat.
Proof. split; [apply zero_page_ok|]. split; [apply word_at_zero_page|]. by vm_compute. Qed.

Lemma tiny_word k v : 0 <= k < 1024 -> 0 <= v < 2 ^ 32 -> word_at (set_word zero_data 0 v) k = if k =? 0 then v else 0.
Proof.
  intros Hk Hv. destruct tiny_data as (_ & Hz & Hlen). destruct (Z.eqb_spec k 0) as [->|Hne].
  - apply word_at_set_eq; [done|lia|done].
  - rewrite word_at_set_ne by lia. apply Hz.
Qed.

Lemma tables_inv i a : tables !! i = Some a -> i = 0 /\ a = tab.
Proof. unfold tables. intros [<- <-]%lookup_singleton_Some. done. Qed.
Lemma users_inv v a : users !! v = Some a -> v = 0 /\ a = page.
Proof. unfold users. intros [<- <-]%lookup_singleton_Some. done. Qed.

Lemma tiny_space : space [] (small mem) mem [free] dir tables.
Proof.
  destruct tiny_data as (Hzp & Hz & _). destruct (PDE_spec tab) as (_ & _ & Hr); [apply tiny_page; tauto|].
  split.
  - apply small_at.
  - split.
    + split; [done|]. exists zero_data. split; [by unfold mem; simplify_map_eq|]. apply Hz.
    + apply NoDup_singleton.
    + intros v ->%list_elem_of_singleton. apply tiny_page. tauto.
  - split.
    + exists (set_word zero_data 0 (PDE tab)). split; [done|]. split; [by apply set_word_page|]. intros i Hi.
      rewrite tiny_word by done. unfold tables. destruct (Z.eqb_spec i 0) as [->|Hne]; [by rewrite lookup_singleton_eq|].
      by rewrite lookup_singleton_ne.
    + intros i a [-> ->]%tables_inv. split; [done|]. split; [apply tiny_page; tauto|]. split; [done|].
      eexists. split; [done|]. by apply set_word_page.
    + intros i j a [-> _]%tables_inv [-> _]%tables_inv. done.
  - split; [apply tiny_page; tauto|]. by intros ?%list_elem_of_singleton.
  - intros a (i & [-> ->]%tables_inv)%elem_of_tabs. by intros ?%list_elem_of_singleton.
Qed.

Lemma tiny_aspace : aspace [] (small mem) mem [free] dir tables users.
Proof.
  destruct tiny_data as (Hzp & Hz & _). split.
  - apply tiny_space.
  - intros v Hv. unfold UPAGES in Hv. unfold ent, tables, users. destruct (decide (v / 1024 = 0)) as [Hd|Hd].
    + rewrite Hd, lookup_singleton_eq.
      assert (pages mem !! tab = Some (set_word zero_data 0 (PTE (V2P page) (Z.lor PTE_W PTE_U)))) as -> by done.
      pose proof (Z.div_mod v 1024 ltac:(lia)) as Hdm. pose proof (Z.mod_pos_bound v 1024 ltac:(lia)).
      cbn [default id]. rewrite tiny_word; [|done|by vm_compute]. destruct (Z.eqb_spec (v mod 1024) 0) as [Hm|Hm].
      * replace v with 0 by lia. rewrite lookup_singleton_eq. by vm_compute.
      * rewrite lookup_singleton_ne by (intros <-; done). done.
    + rewrite !lookup_singleton_ne; [done|by intros <-; apply Hd|by apply not_eq_sym].
  - intros v a [-> ->]%users_inv. split; [done|]. split; [apply tiny_page; tauto|].
    exists zero_data. by split.
  - intros v v' a [-> _]%users_inv [-> _]%users_inv. done.
  - rewrite tiny_own. apply (bool_decide_unpack _). by vm_compute.
Qed.

Lemma tiny_none u : 1 <= u -> users !! u = None.
Proof. intros Hu. unfold users. apply lookup_singleton_ne. lia. Qed.

Lemma copyuvm_correct_witness :
  wp (copyuvm dir 4096) never (fun d s' =>
    if d =? 0 then undone [] s' mem [free] else copied [] s' mem [free] dir tables users 4096 d) (small mem).
Proof.
  apply (copyuvm_correct [] (small mem) mem [free] dir tables users 4096).
  - apply not_elem_of_nil.
  - apply tiny_aspace.
  - done.
  - intros u Hu. assert (u = 0) as -> by (change ((4096 + 4095) / 4096) with 1 in Hu; lia). by exists page.
Defined.

Lemma allocuvm_correct_witness :
  wp (allocuvm dir 4096 8192) never (fun r s' =>
    if KERNBASE <=? 8192 then r = 0 /\ s' = small mem
    else if 8192 <? 4096 then r = 4096 /\ s' = small mem
    else (r = 8192 /\ regrown [] s' mem [free] dir tables users (PGROUNDUP 4096) (PGROUNDUP 8192)) \/
         (r = 0 /\ regrown [] s' mem [free] dir tables users (PGROUNDUP 4096) (PGROUNDUP 4096))) (small mem).
Proof.
  apply (allocuvm_correct [] (small mem) mem [free] dir tables users 4096 8192).
  - apply not_elem_of_nil.
  - apply tiny_aspace.
  - done.
  - apply tiny_none.
Defined.
End Tiny.
