(* ===== verification/VmInit.v ===== *)
(** * The memory of the first process ([inituvm] of [vm.c])

    One page at address 0 that starts with the bytes of [initcode]. *)
From Stdlib Require Import ZArith Lia.
From stdpp Require Import base list gmap strings.
From S2P Require Import Prelude Params Mmu Bytes Spinlock Proc Sched SchedInv Kern Sleeplock FsData Demo Kalloc Vm VmMap VmSpace VmThms.
#[local] Open Scope Z_scope.
#[local] Open Scope kernel_scope.

(** The page tables do not depend on how the state is viewed. *)
Lemma aspace_laws `{Layout} {S S'} {o : KernOps S kmem} {o' : KernOps S' kmem} (lw : KernLaws S kmem) (lw' : KernLaws S' kmem) L L' s s' k l pd T U :
  aspace (H1 := lw) L s k l pd T U -> at_ (H0 := lw') s' L' k -> aspace (H1 := lw') L' s' k l pd T U.
Proof. intros [[_ ? ? ? ?] ? ? ? ?] Hat. by split. Qed.

Section init.
Context `{Layout} {S : Type} `{KernLaws S kmem} (L : list Z) (HL : kmem_lock ∉ L).
Implicit Types (s : S) (k : kmem) (l : list Z) (X : stop -> Prop) (T U : gmap Z Z).

(** A user page gets other contents. *)
Lemma aspace_write s s' k l pd T U u b d :
  aspace L s k l pd T U -> U !! u = Some b -> is_page d -> at_ s' L (k <| pages ::= <[b := d]> |>) ->
  aspace L s' (k <| pages ::= <[b := d]> |>) l pd T U.
Proof.
  intros Has Hu Hd Hat. pose proof (own_nodup _ _ _ _ (as_nodup _ _ _ _ _ _ _ Has)) as (_ & HpU & HTU & Hol).
  assert (b ∈ tabs U) as Hb by (apply elem_of_tabs; by exists u).
  assert (forall p, p <> b -> <[b := d]> (pages k) !! p = pages k !! p) as Hfr by (intros p Hp; by apply lookup_insert_ne).
  destruct Has as [[_ Hf Hdir [Hpd Hpl] Htl] He Hp Hi Hnd]. split; [split; [done| | |done|done]| | |done|done].
  - apply free_ok_pages; [done|]. apply Hol. unfold own. set_solver.
  - eapply dir_ok_frame; [done|]. intros p [->|Hp']; apply Hfr; [by intros ->|]. intros ->. by apply (HTU b).
  - intros v Hv. rewrite (ent_frame (pages k)); [by apply He|]. intros p Hp'. apply Hfr. intros ->. by apply (HTU b).
  - intros v a Hv. destruct (Hp _ _ Hv) as (? & ? & da & Hda & ?). split; [done|]. split; [done|]. cbn.
    destruct (decide (a = b)) as [->|Hne]; [exists d; by rewrite lookup_insert_eq|exists da; by rewrite Hfr].
Qed.

Definition init_page (code : list Z) : list Z := splice zero_data 0 code.

Lemma init_page_ok code : bytes_ok code -> (length code < Z.to_nat PGSIZE)%nat -> is_page (init_page code).
Proof.
  intros Hb Hl. destruct zero_page_ok as [Hz Hzb]. unfold init_page, zero_data. split.
  - rewrite length_splice; [done|]. rewrite Hz. lia.
  - by apply bytes_ok_splice.
Qed.

Lemma wp_inituvm s k l pd T code X (Q : unit -> S -> Prop) :
  aspace L s k l pd T ∅ -> (3 <= length l)%nat -> bytes_ok code -> (length code < Z.to_nat PGSIZE)%nat ->
  (forall s' k' l' T' b, aspace L s' k' l' pd T' {[0 := b]} -> own pd T' {[0 := b]} ++ l' ≡ₚ own pd T ∅ ++ l ->
     pages k' !! b = Some (init_page code) -> ent (pages k') T' 0 = PTE (V2P b) (Z.lor PTE_W PTE_U) ->
     (forall v, 0 <= v -> v <> 0 -> ent (pages k') T' v = ent (pages k) T v) ->
     (forall p, p ∉ own pd T ∅ ++ l -> pages k' !! p = pages k !! p) -> use_lock k' = use_lock k -> Q tt s') ->
  wp (inituvm pd code (Z.of_nat (length code))) X Q s.
Proof using All.
  intros Has Hlen Hcode Hcl HQ. unfold inituvm. destruct (Z.leb_spec PGSIZE (Z.of_nat (length code))); [lia|].
  destruct l as [|b l]; [cbn in Hlen; lia|]. mstep. eapply wp_kalloc; [by eapply sp_at, as_space|done|by eapply sp_free, as_space|].
  intros s2 k2 Hat2 Hf2 Hp2 Hu2.
  assert (page_ok b) as Hb by (eapply (fo_page _ (b :: l)); [by eapply sp_free, as_space|apply elem_of_cons; by left]).
  unfold zero_page, set_page. fold zero_data. mstep. mstep. mstep. pose proof zero_page_ok as Hzp. fold zero_data in Hzp.
  set (k3 := k2 <| pages ::= _ |>) in *. match goal with Hx : at_ _ L k3 |- _ => rename Hx into Hat3 end.
  assert (pages k3 = <[b := zero_data]> (pages k)) as Hk3 by (rewrite <- Hp2; done).
  pose proof (fo_nodup _ _ (sp_free _ _ _ _ _ _ (as_space _ _ _ _ _ _ _ Has))) as [Hbl _]%NoDup_cons.
  destruct (aspace_taken L HL s _ k k3 l pd T ∅ b Has Hat3) as [Has3 Hbn]; [by apply free_ok_pages|by intros p Hp; rewrite Hk3; apply lookup_insert_ne|].
  change 0 with (0 * 4096) at 1.
  eapply (wp_map_fresh L HL _ k3 l pd T ∅ 0 b zero_data); [done|by vm_compute|done|done|done|rewrite Hk3; apply lookup_insert_eq|done|by vm_compute| |].
  { intros s4 k4 T4 _ _ _ Hl. cbn in Hlen. lia. }
  intros s4 k4 l4 T4 Has4 Hex4 Heu Hev4. mstep.
  assert (b ∉ tabs T4) as HbT.
  { destruct (own_nodup _ _ _ _ (as_nodup _ _ _ _ _ _ _ Has4)) as (_ & _ & HTU & _). intros Hin. apply (HTU b Hin), elem_of_tabs.
    exists 0. apply lookup_insert_eq. }
  assert (forall p, p ∉ own pd T ∅ ++ b :: l -> p <> b /\ p <> pd /\ (p ∉ tabs T4)) as Hout.
  { intros p Hp. pose proof (own_extends pd T ∅ _ _ _ _ _ Hex4) as Ho. rewrite <- Permutation_middle, <- Ho in Hp. unfold own in Hp. set_solver. }
  assert (pages k4 !! b = Some zero_data) as Hb4.
  { rewrite (ex_frame _ _ _ _ _ _ _ Hex4); [rewrite Hk3; apply lookup_insert_eq| |done].
    unfold own in Hbn. set_solver. }
  pose proof (sp_at _ _ _ _ _ _ (as_space _ _ _ _ _ _ _ Has4)) as Hat4.
  eapply wp_page_at; [done|done|]. unfold set_page. mstep.
  rewrite Nat2Z.id, firstn_all in *. fold (init_page code) in *.
  match goal with Hx : at_ _ L (k4 <| pages ::= _ |>) |- _ => rename Hx into Hat5 end.
  eapply (HQ _ (k4 <| pages ::= <[b := init_page code]> |>) l4 T4 b).
  - eapply aspace_write; [exact Has4|apply lookup_insert_eq|by apply init_page_ok|done].
  - change {[0 := b]} with (<[0 := b]> (∅ : gmap Z Z)). rewrite own_insert by done. cbn [app].
    rewrite (own_extends pd T ∅ _ _ _ _ _ Hex4). by rewrite Permutation_middle.
  - apply lookup_insert_eq.
  - rewrite (ent_frame (pages k4)); [done|]. intros p Hp. apply lookup_insert_ne. by intros ->.
  - intros v Hv Hv0. rewrite (ent_frame (pages k4)); [|intros p Hp; apply lookup_insert_ne; by intros ->].
    rewrite Hev4, Hk3 by done. apply ent_frame. intros p Hp. apply lookup_insert_ne. intros ->. apply Hbn. unfold own. set_solver.
  - intros p Hp. destruct (Hout p Hp) as (Hpb & Hpp & HpT). cbn. rewrite lookup_insert_ne by done.
    rewrite (ex_frame _ _ _ _ _ _ _ Hex4), Hk3 by done. by apply lookup_insert_ne.
  - cbn. rewrite (ex_lock _ _ _ _ _ _ _ Hex4). cbn. congruence.
Qed.
End init.
