(* ===== verification/BootMem.v ===== *)
(** * Memory before the locks work ([kalloc.c], [vm.c])

    [kinit1] and [kvmalloc] run before [mpinit], when [acquire] would panic:
    there is no CPU that mycpu() could find.  They get by because [use_lock]
    is 0.  [unlocked] are the calls of the kernel with locks that do nothing;
    [agree] says that code does the same with two sets of calls.  So the rules
    about page tables, which assume that locks work, hold for the code that
    runs this early. *)
From Stdlib Require Import ZArith Lia.
From stdpp Require Import base list gmap strings.
From S2P Require Import Prelude Params Mmu Bytes Spinlock Proc Sched SchedInv Kern Sleeplock FsData Demo Kalloc Vm VmMap VmSpace.
#[local] Open Scope Z_scope.
#[local] Open Scope kernel_scope.

(** ** Code that does the same with two sets of calls *)

Section agree.
Context {S : Type} (P : S -> Prop).

(** In states with [P], which stays, both do the same. *)
Definition agree {A} (m m' : M S A) : Prop :=
  forall s, P s -> m s = m' s /\ forall a s', m s = Ok (a, s') -> P s'.

Lemma lf_ret {A} (a : A) : agree (ret a) (ret a).
Proof. intros s Hs. split; [done|]. by intros a' s' [= _ <-]. Qed.
Lemma lf_stop {A} e : agree (A := A) (stop_with e) (stop_with e).
Proof. intros s Hs. by split. Qed.
Lemma lf_bind {A B} (m m' : M S A) (k k' : A -> M S B) :
  agree m m' -> (forall a, agree (k a) (k' a)) -> agree (bind m k) (bind m' k').
Proof.
  intros Hm Hk s Hs. unfold bind. destruct (Hm s Hs) as [<- Hl]. destruct (m s) as [[a s']|e]; [|done].
  by apply Hk, (Hl a).
Qed.
Lemma lf_if {A} (b : bool) (m1 m1' m2 m2' : M S A) :
  agree m1 m1' -> agree m2 m2' -> agree (if b then m1 else m2) (if b then m1' else m2').
Proof. by destruct b. Qed.
Lemma lf_option {A B} (x : option A) (f f' : A -> M S B) n n' :
  (forall a, agree (f a) (f' a)) -> agree n n' -> agree (match x with Some a => f a | None => n end) (match x with Some a => f' a | None => n' end).
Proof. destruct x; auto. Qed.
Lemma lf_for_each {X} (l : list X) (f f' : X -> M S unit) :
  (forall x, agree (f x) (f' x)) -> agree (for_each l f) (for_each l f').
Proof. intros Hf. induction l; [apply lf_ret|]. by apply lf_bind. Qed.
Lemma lf_for_until {X B} (l : list X) (f f' : X -> M S (option B)) :
  (forall x, agree (f x) (f' x)) -> agree (for_until l f) (for_until l f').
Proof. intros Hf. induction l; [apply lf_ret|]. apply lf_bind; [done|]. intros []; [apply lf_ret|done]. Qed.
Lemma lf_loop {X B} n (f f' : X -> M S (X + B)) x : (forall x, agree (f x) (f' x)) -> agree (loop n f x) (loop n f' x).
Proof. intros Hf. revert x. induction n; intros x; [apply lf_stop|]. apply lf_bind; [done|]. intros []; [done|apply lf_ret]. Qed.

Lemma lf_of_option {A} e (x : option A) : agree (of_option e x) (of_option e x).
Proof. destruct x; [apply lf_ret|apply lf_stop]. Qed.

(** The routines of [kalloc.c] and [vm.c], one after another. *)
Context `{Layout} (o o' : KernOps S kmem).
Context (Hg : agree (@k_get _ _ o) (@k_get _ _ o')).
Context (Hm : forall f, (forall k, use_lock (f k) = use_lock k) -> agree (@k_mod _ _ o f) (@k_mod _ _ o' f)).
Context (Ha : agree (@kmem_acquire _ o) (@kmem_acquire _ o')) (Hr : agree (@kmem_release _ o) (@kmem_release _ o')).

Ltac lf :=
  repeat (lazymatch goal with
    | |- agree (bind _ _) _ => apply lf_bind; [|intros ?]
    | |- agree (ret _) _ => apply lf_ret
    | |- agree (panic _) _ => apply lf_stop
    | |- agree k_get _ => exact Hg
    | |- agree (k_mod _) _ => apply Hm; intros ?; done
    | |- agree (of_option _ _) _ => apply lf_of_option
    | |- agree (for_each _ _) _ => apply lf_for_each; intros ?
    | |- agree (for_until _ _) _ => apply lf_for_until; intros ?
    | |- agree (loop _ _ _) _ => apply lf_loop; intros ?
    | |- agree (let '(_, _) := ?x in _) _ => destruct x
    | |- agree (if _ then _ else _) _ => apply lf_if
    | |- agree (match _ with Some _ => _ | None => _ end) _ => apply lf_option; [intros ?|]
    | |- agree _ _ => solve [eauto with agree]
    end; cbn beta zeta).

Create HintDb agree.
#[local] Hint Resolve Ha Hr : agree.

Lemma lf_page_at a : agree (@page_at _ o a) (@page_at _ o' a).
Proof using Hg Hm Ha Hr. unfold page_at. lf. Qed.
Lemma lf_set_page a d : agree (@set_page _ o a d) (@set_page _ o' a d).
Proof using Hg Hm Ha Hr. unfold set_page. lf. Qed.
#[local] Hint Resolve lf_page_at lf_set_page : agree.
Lemma lf_kfree v : agree (@kfree _ _ o v) (@kfree _ _ o' v).
Proof using Hg Hm Ha Hr. unfold kfree. lf. Qed.
Lemma lf_kalloc : agree (@kalloc _ o) (@kalloc _ o').
Proof using Hg Hm Ha Hr. unfold kalloc. lf. Qed.
#[local] Hint Resolve lf_kfree lf_kalloc : agree.
Lemma lf_freerange a b : agree (@freerange _ _ o a b) (@freerange _ _ o' a b).
Proof using Hg Hm Ha Hr. unfold freerange. lf. Qed.
Lemma lf_load_pte r : agree (@load_pte _ o r) (@load_pte _ o' r).
Proof using Hg Hm Ha Hr. unfold load_pte. lf. Qed.
Lemma lf_store_pte r v : agree (@store_pte _ o r v) (@store_pte _ o' r v).
Proof using Hg Hm Ha Hr. unfold store_pte. lf. Qed.
Lemma lf_zero_page v : agree (@zero_page _ o v) (@zero_page _ o' v).
Proof using Hg Hm Ha Hr. unfold zero_page. lf. Qed.
#[local] Hint Resolve lf_load_pte lf_store_pte lf_zero_page : agree.
Lemma lf_walkpgdir pd va al : agree (@walkpgdir _ o pd va al) (@walkpgdir _ o' pd va al).
Proof using Hg Hm Ha Hr. unfold walkpgdir. lf. Qed.
#[local] Hint Resolve lf_walkpgdir : agree.
Lemma lf_mappages pd va n pa pm : agree (@mappages _ o pd va n pa pm) (@mappages _ o' pd va n pa pm).
Proof using Hg Hm Ha Hr. unfold mappages. lf. Qed.
Lemma lf_deallocuvm pd a b : agree (@deallocuvm _ _ o pd a b) (@deallocuvm _ _ o' pd a b).
Proof using Hg Hm Ha Hr. unfold deallocuvm. lf. Qed.
#[local] Hint Resolve lf_mappages lf_deallocuvm : agree.
Lemma lf_freevm pd : agree (@freevm _ _ o pd) (@freevm _ _ o' pd).
Proof using Hg Hm Ha Hr. unfold freevm. lf. Qed.
#[local] Hint Resolve lf_freevm : agree.
Lemma lf_setupkvm : agree (@setupkvm _ _ o) (@setupkvm _ _ o').
Proof using Hg Hm Ha Hr. unfold setupkvm. lf. Qed.
Lemma lf_inituvm pd code n : agree (@inituvm _ o pd code n) (@inituvm _ o' pd code n).
Proof using Hg Hm Ha Hr. unfold inituvm. lf. Qed.
End agree.

Lemma agree_wp {S A} (P : S -> Prop) (m m' : M S A) X (Q : A -> S -> Prop) s :
  agree P m m' -> P s -> wp m' X (fun a s' => P s' -> Q a s') s -> wp m X Q s.
Proof. intros Hm Hs. destruct (Hm s Hs) as [He Hp]. unfold wp. rewrite <- He. destruct (m s) as [[a s']|e]; [|done]. intros HQ. by apply HQ, (Hp a). Qed.

(** ** Without locks *)

Section unlocked.
Context {S : Type} (o : KernOps S kmem).

Definition unlocked : KernOps S kmem := {|
  part := @part _ _ o; set_part := @set_part _ _ o;
  k_initlock _ _ := ret tt; k_acquire _ := ret tt; k_release _ := ret tt; k_wakeup _ := ret tt; k_sleep _ _ := ret tt;
  k_pid := ret 0; k_cwd := ret None; k_killed := ret false
|}.

Context (Hps : forall s t, @part _ _ o (@set_part _ _ o t s) = t).
Context (Hss : forall s t t', @set_part _ _ o t (@set_part _ _ o t' s) = @set_part _ _ o t s).

(** Nothing but the memory changes. *)
Definition unlocked_laws (s0 : S) : @KernLaws S kmem unlocked.
Proof using Hps Hss.
  refine (@Build_KernLaws _ _ unlocked (fun s _ => exists t, s = @set_part _ _ o t s0) 0 Hps _ _ _ _ _ _).
  - intros s L t [t' ->]. exists t. apply Hss.
  - intros s lk nm X Q Hc HQ. by apply HQ.
  - intros s L lk X Q Hc _ HQ. by apply HQ.
  - intros s L1 L2 lk X Q Hc HQ. by apply HQ.
  - intros s L c X Q Hc _ HQ. by apply HQ.
  - intros s L X Q Hc HQ. by apply HQ.
Defined.

Abbreviation lock_off := (fun s => use_lock (@part _ _ o s) = 0).

Lemma off_get : agree lock_off (@k_get _ _ o) (@k_get _ _ unlocked).
Proof. intros s Hs. split; [done|]. by intros a s' [= _ <-]. Qed.
Lemma off_mod f : (forall k, use_lock (f k) = use_lock k) -> agree lock_off (@k_mod _ _ o f) (@k_mod _ _ unlocked f).
Proof using Hps. intros Hf s Hs. split; [done|]. intros a s' [= _ <-]. by rewrite Hps, Hf. Qed.
Lemma off_acquire : agree lock_off (@kmem_acquire _ o) (@kmem_acquire _ unlocked).
Proof. intros s Hs. unfold kmem_acquire, bind, k_get, gets. cbn. rewrite Hs. cbn. split; [done|]. by intros a s' [= _ <-]. Qed.
Lemma off_release : agree lock_off (@kmem_release _ o) (@kmem_release _ unlocked).
Proof. intros s Hs. unfold kmem_release, bind, k_get, gets. cbn. rewrite Hs. cbn. split; [done|]. by intros a s' [= _ <-]. Qed.
End unlocked.
