(* ===== verification/File.v ===== *)
(** * Open files ([file.c]) and the pipe code in the kernel ([pipe.c])

    A file is an index of [ftable.file], a pipe the address of its page.
    Each operation names the parts of the kernel's state that it uses: the
    file system, the page allocator, and [filest] with the table and the
    pipes. *)
From Stdlib Require Import ZArith Lia.
From stdpp Require Import base list gmap strings.
From S2P Require Import Prelude Params Bytes Spinlock Proc Sched SchedInv Kern Sleeplock FsData Bio Log Fs Pipe Demo Kalloc.
#[local] Open Scope Z_scope.
#[local] Open Scope kernel_scope.

Inductive ftype := FD_NONE | FD_PIPE | FD_INODE.
#[export] Instance ftype_eq_dec : EqDecision ftype.
Proof. solve_decision. Defined.

(** [struct file] *)
Record file := mkfile {
  fkind : ftype; fref : Z; readable : Z; writable : Z; fpipe : Z; fip : option nat; foff : Z
}.
#[export] Instance eta_file : Eta file := fun f =>
  mkfile (fkind f) (fref f) (readable f) (writable f) (fpipe f) (fip f) (foff f).
Definition file0 : file := mkfile FD_NONE 0 0 0 0 None 0.

Record filest := mkfilest { ftable : list file; pipes : gmap Z pipe }.
#[export] Instance eta_filest : Eta filest := fun s => mkfilest (ftable s) (pipes s).

Definition file_at (s : filest) (f : nat) : file := default file0 (ftable s !! f).
Definition upd_file (f : nat) (g : file -> file) (s : filest) : filest := s <| ftable ::= alter g f |>.

(** Addresses in the page of pipe [p]: its lock, [&p->nread], [&p->nwrite]. *)
Definition pipe_lk (p : Z) : Z := p.
Definition chan_read (p : Z) : chan := ChAddr (p + 564).
Definition chan_write (p : Z) : chan := ChAddr (p + 568).

(** ** The table *)

Section table.
Context {S : Type} `{KernOps S filest}.

Definition get_file (f : nat) : M S file := s <~ k_get; ret (file_at s f).
Definition mod_file (f : nat) (g : file -> file) : M S unit := k_mod (upd_file f g).

Definition fileinit : M S unit := k_initlock ftable_lock "ftable".

Definition filealloc : M S (option nat) :=
  k_acquire ftable_lock ;;;
  r <~ for_until (seq 0 NFILE) (fun f =>
    x <~ get_file f;
    if fref x =? 0 then
      mod_file f (fun x => x <| fref := 1 |>) ;;;
      k_release ftable_lock ;;;
      ret (Some f)
    else ret None);
  match r with
  | Some f => ret (Some f)
  | None => k_release ftable_lock ;;; ret None
  end.

Definition filedup (f : nat) : M S nat :=
  k_acquire ftable_lock ;;;
  x <~ get_file f;
  if fref x <? 1 then panic "filedup"
  else
    mod_file f (fun x => x <| fref ::= fun r => r + 1 |>) ;;;
    k_release ftable_lock ;;;
    ret f.

(** [fileclose] up to the second [release]: the copy [ff] of the file when
    this was its last reference. *)
Definition fileclose_ref (f : nat) : M S (option file) :=
  k_acquire ftable_lock ;;;
  x <~ get_file f;
  if fref x <? 1 then panic "fileclose"
  else
    mod_file f (fun x => x <| fref ::= fun r => r - 1 |>) ;;;
    x <~ get_file f;
    if 0 <? fref x then k_release ftable_lock ;;; ret None
    else
      mod_file f (fun x => x <| fref := 0 |> <| fkind := FD_NONE |>) ;;;
      k_release ftable_lock ;;;
      ret (Some x).

(** ** Pipes *)

Definition get_pipe (p : Z) : M S pipe :=
  s <~ k_get; of_option (Undef "pipe") (pipes s !! p).
Definition set_pipe (p : Z) (x : pipe) : M S unit := k_mod (fun s => s <| pipes ::= <[p := x]> |>).

Definition pipewrite (p : Z) (addr : list Z) (n : Z) : M S Z :=
  k_acquire (pipe_lk p) ;;;
  loop (Z.to_nat n + NPROC) (fun i =>
    x <~ get_pipe p;
    k <~ k_killed;
    match write_next x k i n with
    | WPut => set_pipe p (pipe_put (byte_at addr (Z.to_nat i)) x) ;;; ret (inl (i + 1))
    | WSleep => k_wakeup (chan_read p) ;;; k_sleep (chan_write p) (pipe_lk p) ;;; ret (inl i)
    | WFail => k_release (pipe_lk p) ;;; ret (inr (-1))
    | WDone => k_wakeup (chan_read p) ;;; k_release (pipe_lk p) ;;; ret (inr n)
    end) 0.

(** The count and the bytes. *)
Definition piperead (p : Z) (n : Z) : M S (Z * list Z) :=
  k_acquire (pipe_lk p) ;;;
  loop NPROC (fun _ : unit =>
    x <~ get_pipe p;
    k <~ k_killed;
    match read_next x k with
    | RSleep => k_sleep (chan_read p) (pipe_lk p) ;;; ret (inl tt)
    | RFail => k_release (pipe_lk p) ;;; ret (inr (-1, []))
    | RCopy =>
        let '(l, x') := read_copy (Z.to_nat n) x in
        set_pipe p x' ;;;
        k_wakeup (chan_write p) ;;;
        k_release (pipe_lk p) ;;;
        ret (inr (Z.of_nat (length l), l))
    end) tt.
End table.

(** ** Files *)

Section files.
Context `{Layout} {S E : Type} `{KernOps S E} `{Sub E fsstate} `{Sub E kmem} `{Sub E filest} `{DevSw S}.

Definition pipeclose (p : Z) (writable : bool) : M S unit :=
  k_acquire (T := filest) (pipe_lk p) ;;;
  x <~ get_pipe p;
  let '(x', last) := close_end writable x in
  set_pipe p x' ;;;
  k_wakeup (T := filest) (if writable then chan_read p else chan_write p) ;;;
  k_release (T := filest) (pipe_lk p) ;;;
  if last then
    k_mod (T := filest) (fun s => s <| pipes ::= delete p |>) ;;;
    kfree p
  else ret tt.

Definition fileclose (f : nat) : M S unit :=
  r <~ fileclose_ref f;
  match r with
  | None => ret tt
  | Some ff =>
      match fkind ff with
      | FD_PIPE => pipeclose (fpipe ff) (negb (writable ff =? 0))
      | FD_INODE =>
          begin_op ;;;
          ip <~ of_option (Undef "fileclose") (fip ff);
          iput ip ;;;
          end_op
      | FD_NONE => ret tt
      end
  end.

(** [pipealloc]: the two files. *)
Definition pipealloc : M S (option (nat * nat)) :=
  f0 <~ filealloc;
  match f0 with
  | None => ret None
  | Some f0 =>
      f1 <~ filealloc;
      match f1 with
      | None => fileclose f0 ;;; ret None
      | Some f1 =>
          p <~ kalloc;
          if p =? 0 then fileclose f0 ;;; fileclose f1 ;;; ret None
          else
            d <~ page_at p;
            set_pipe p (pipe_init (take (Z.to_nat PIPESIZE) d)) ;;;
            k_initlock (T := filest) (pipe_lk p) "pipe" ;;;
            mod_file f0 (fun f => f <| fkind := FD_PIPE |> <| readable := 1 |> <| writable := 0 |> <| fpipe := p |>) ;;;
            mod_file f1 (fun f => f <| fkind := FD_PIPE |> <| readable := 0 |> <| writable := 1 |> <| fpipe := p |>) ;;;
            ret (Some (f0, f1))
      end
  end.

Definition filestat (f : nat) : M S (option stat) :=
  x <~ get_file f;
  match fkind x with
  | FD_INODE =>
      ilock (fip x) ;;;
      ip <~ of_option (Undef "filestat") (fip x);
      st <~ stati ip;
      iunlock (fip x) ;;;
      ret (Some st)
  | _ => ret None
  end.

Definition fileread (f : nat) (n : Z) : M S (Z * list Z) :=
  x <~ get_file f;
  if readable x =? 0 then ret (-1, [])
  else
    match fkind x with
    | FD_PIPE => piperead (fpipe x) n
    | FD_INODE =>
        ilock (fip x) ;;;
        ip <~ of_option (Undef "fileread") (fip x);
        r <~ readi ip (foff x) (u32 n);
        (if 0 <? i32 (fst r) then mod_file f (fun x => x <| foff := u32 (foff x + fst r) |>) else ret tt) ;;;
        iunlock (fip x) ;;;
        ret (i32 (fst r), snd r)
    | FD_NONE => panic "fileread"
    end.

(** [int max = ((MAXOPBLOCKS-1-1-2) / 2) * 512] *)
Definition max_chunk : Z := ((MAXOPBLOCKS - 1 - 1 - 2) / 2) * 512.

(** The loop of [filewrite] and [pos_write]: [wr i n1] writes the chunk of
    [n1] bytes at [i]. *)
Definition write_chunks (n : Z) (msg : string) (wr : Z -> Z -> M S Z) : M S Z :=
  i <~ loop (Z.to_nat (n / max_chunk) + 2) (fun i =>
    if i <? n then
      let n1 := Z.min (n - i) max_chunk in
      r <~ wr i n1;
      if r <? 0 then ret (inr i)
      else if negb (r =? n1) then panic msg
      else ret (inl (i + r))
    else ret (inr i)) 0;
  ret (if i =? n then n else -1).

Definition filewrite (f : nat) (addr : list Z) (n : Z) : M S Z :=
  x <~ get_file f;
  if writable x =? 0 then ret (-1)
  else
    match fkind x with
    | FD_PIPE => pipewrite (fpipe x) addr n
    | FD_INODE =>
        write_chunks n "short filewrite" (fun i n1 =>
          begin_op ;;;
          ilock (fip x) ;;;
          ip <~ of_option (Undef "filewrite") (fip x);
          x' <~ get_file f;
          r <~ writei ip (slice addr (Z.to_nat i) (Z.to_nat n1)) (foff x') n1;
          (if 0 <? r then mod_file f (fun x => x <| foff := u32 (foff x + r) |>) else ret tt) ;;;
          iunlock (fip x) ;;;
          end_op ;;;
          ret r)
    | FD_NONE => panic "filewrite"
    end.

Definition pos_write (f : nat) (addr : list Z) (n off : Z) : M S Z :=
  x <~ get_file f;
  if writable x =? 0 then ret (-1)
  else
    match fkind x with
    | FD_PIPE => ret (-1)
    | FD_INODE =>
        write_chunks n "short pos write" (fun i n1 =>
          begin_op ;;;
          ilock (fip x) ;;;
          ip <~ of_option (Undef "pos_write") (fip x);
          r <~ writei ip (slice addr (Z.to_nat i) (Z.to_nat n1)) (u32 (off + i)) n1;
          iunlock (fip x) ;;;
          end_op ;;;
          ret r)
    | FD_NONE => panic "pos_write"
    end.

Definition pos_read (f : nat) (n off : Z) : M S (Z * list Z) :=
  x <~ get_file f;
  if readable x =? 0 then ret (-1, [])
  else
    match fkind x with
    | FD_PIPE => ret (-1, [])
    | FD_INODE =>
        ilock (fip x) ;;;
        ip <~ of_option (Undef "pos_read") (fip x);
        r <~ readi ip (u32 off) (u32 n);
        iunlock (fip x) ;;;
        ret (i32 (fst r), snd r)
    | FD_NONE => panic "pos_read"
    end.
End files.
