(* ===== verification/Life.v ===== *)
(** * Creating and ending processes ([proc.c])

    [allocproc], [userinit], [growproc], [fork], [exit], [wait] and [forkret]
    over the process table, the page tables, the open files and the file
    system.  Where the code calls [sched] or [sleep], the operation is cut
    there: [exit_enter] and [wait_scan] end before the switch. *)
From Stdlib Require Import ZArith Lia.
From stdpp Require Import base list gmap strings.
From S2P Require Import Prelude Params Mmu Bytes Cstring Spinlock Proc Sched SchedInv Kern Sleeplock FsData Bio Log Fs Pipe Demo Kalloc Vm File.
#[local] Open Scope Z_scope.
#[local] Open Scope kernel_scope.

(** The slot [allocproc] found, as it fills it in under [ptable.lock]. *)
Definition embryo (i : nat) (id : Z) (p : proc) : proc :=
  p <| state := EMBRYO |> <| pid := id |>
    <| level := 2 |> <| timequant := 5 |> <| timeallot := 20 |> <| tickcount := 0 |>
    <| s_link := None |> <| share := 0 |> <| stride := -1 |> <| pass := 0 |>
    <| thread_count := 1 |> <| thread_id := 0 |> <| next_tid := 1 |> <| lwpgroup := Some i |>
    <| waiting_tid := -1 |>.

(** The frame at the top of a new kernel stack: a trap frame with the old
    contents of the page, [trapret], and a context that starts at [forkret]. *)
Definition new_stack (p : proc) : proc :=
  p <| kret := KTrapret |> <| ctx := mkctx 0 0 0 0 KForkret |>.

Section ops.
Context `{Layout} {E : Type} `{Sub E fsstate} `{Sub E kmem} `{Sub E filest} `{DevSw (kstate E)}.
Abbreviation K := (kstate E).

Definition allocproc : M K (option nat) :=
  acquire_k ptable_lock ;;;
  r <~ for_until slots (fun i =>
    p <~ proc_at i; ret (if decide (state p = UNUSED) then Some i else None));
  match r with
  | None => release_k ptable_lock ;;; ret None
  | Some i =>
      s <~ get;
      upd_proc i (embryo i (nextpid s)) ;;;
      modify (fun s => s <| nextpid := i32 (nextpid s + 1) |>) ;;;
      release_k ptable_lock ;;;
      k <~ kalloc;
      upd_proc i (fun p => p <| kstack := k |>) ;;;
      if k =? 0 then upd_proc i (fun p => p <| state := UNUSED |>) ;;; ret None
      else upd_proc i new_stack ;;; ret (Some i)
  end.

(** The user registers of the first process. *)
Definition init_tf : trapframe :=
  tf_zero <| cs := Z.lor (Z.shiftl SEG_UCODE 3) DPL_USER |>
          <| ds := Z.lor (Z.shiftl SEG_UDATA 3) DPL_USER |>
          <| es := Z.lor (Z.shiftl SEG_UDATA 3) DPL_USER |>
          <| ss := Z.lor (Z.shiftl SEG_UDATA 3) DPL_USER |>
          <| eflags := FL_IF |> <| esp := PGSIZE |> <| eip := 0 |>.

(** [safestrcpy(p->name, s, sizeof(p->name))] *)
Definition copy_name (i : nat) (s : list Z) : M K unit :=
  p <~ proc_at i;
  n <~ of_option (Undef "safestrcpy") (safestrcpy (name p) s 16);
  set_proc i (p <| name := n |>).

(** [initcode] is the assembled [initcode.S]. *)
Definition userinit (initcode : list Z) : M K unit :=
  o <~ allocproc;
  modify (fun s => s <| initproc := o |>) ;;;
  i <~ deref o;
  pd <~ setupkvm;
  upd_proc i (fun p => p <| pgdir := pd |>) ;;;
  if pd =? 0 then panic "userinit: out of memory?"
  else
    inituvm pd initcode (Z.of_nat (length initcode)) ;;;
    upd_proc i (fun p => p <| sz := PGSIZE |> <| tf := init_tf |>) ;;;
    copy_name i (chars "initcode") ;;;
    d <~ namei (chars "/");
    upd_proc i (fun p => p <| cwd := d |>) ;;;
    acquire_k ptable_lock ;;;
    upd_proc i (fun p => p <| state := RUNNABLE |>) ;;;
    release_k ptable_lock ;;;
    acquire_k mlfqstr_lock ;;;
    mlfqadd i ;;;
    release_k mlfqstr_lock.

Definition growproc (n : Z) : M K Z :=
  i <~ curproc;
  p <~ proc_at i;
  r <~ (if 0 <? n then
          s <~ allocuvm (pgdir p) (sz p) (u32 (sz p + n)); ret (if s =? 0 then None else Some s)
        else if n <? 0 then
          s <~ deallocuvm (pgdir p) (sz p) (u32 (sz p + n)); ret (if s =? 0 then None else Some s)
        else ret (Some (sz p)));
  match r with
  | None => ret (-1)
  | Some s =>
      upd_proc i (fun p => p <| sz := s |>) ;;;
      switchuvm (Some i) ;;;
      ret 0
  end.

(** [for(i = 0; i < NOFILE; i++) if(curproc->ofile[i])
       np->ofile[i] = filedup(curproc->ofile[i]);] *)
Definition dup_files (cur np : nat) : M K unit :=
  for_each (seq 0 NOFILE) (fun fd =>
    p <~ proc_at cur;
    match ofile p !! fd with
    | Some (Some f) =>
        f' <~ filedup f;
        upd_proc np (fun q => q <| ofile ::= <[fd := Some f']> |>)
    | _ => ret tt
    end).

Definition fork : M K Z :=
  cur <~ curproc;
  o <~ allocproc;
  match o with
  | None => ret (-1)
  | Some np =>
      p <~ proc_at cur;
      pd <~ copyuvm (pgdir p) (sz p);
      upd_proc np (fun q => q <| pgdir := pd |>) ;;;
      if pd =? 0 then
        q <~ proc_at np;
        kfree (kstack q) ;;;
        upd_proc np (fun q => q <| kstack := 0 |> <| state := UNUSED |>) ;;;
        ret (-1)
      else
        p <~ proc_at cur;
        upd_proc np (fun q => q <| sz := sz p |> <| ustack := sz p |> <| parent := Some cur |>
                                <| tf := (tf p) <| eax := 0 |> |>) ;;;
        dup_files cur np ;;;
        p <~ proc_at cur;
        c <~ of_option (Undef "cwd") (cwd p);
        c <~ idup c;
        upd_proc np (fun q => q <| cwd := Some c |>) ;;;
        copy_name np (name p) ;;;
        q <~ proc_at np;
        acquire_k ptable_lock ;;;
        upd_proc np (fun q => q <| state := RUNNABLE |>) ;;;
        locked_add np ;;;
        release_k ptable_lock ;;;
        ret (pid q)
  end.

(** [wakeup1(q)] for a process pointer. *)
Definition chan_of (o : option nat) : chan := match o with Some i => ChProc i | None => ChNull end.

(** [exit] up to [sched]. *)
Definition exit_enter : M K unit :=
  cur <~ curproc;
  s <~ get;
  if decide (initproc s = Some cur) then panic "init exiting"
  else
    for_each (seq 0 NOFILE) (fun fd =>
      p <~ proc_at cur;
      match ofile p !! fd with
      | Some (Some f) =>
          fileclose f ;;;
          upd_proc cur (fun p => p <| ofile ::= <[fd := None]> |>)
      | _ => ret tt
      end) ;;;
    begin_op ;;;
    p <~ proc_at cur;
    c <~ of_option (Undef "cwd") (cwd p);
    iput c ;;;
    end_op ;;;
    upd_proc cur (fun p => p <| cwd := None |>) ;;;
    acquire_k ptable_lock ;;;
    p <~ proc_at cur;
    wakeup1 (chan_of (parent p)) ;;;
    for_each slots (fun i =>
      q <~ proc_at i;
      if decide (parent q = Some cur) then
        s <~ get;
        upd_proc i (fun q => q <| parent := initproc s |>) ;;;
        if decide (state q = ZOMBIE) then wakeup1 (chan_of (initproc s)) else ret tt
      else ret tt) ;;;
    upd_proc cur (fun p => p <| state := ZOMBIE |>) ;;;
    p <~ proc_at cur;
    acquire_k mlfqstr_lock ;;;
    (if in_mlfq p then mlfqrm cur else striderm cur) ;;;
    release_k mlfqstr_lock.

(** One pass of [wait] over the table, [ptable.lock] being held: the pid of a
    child that has exited, [-1], or [None] when it goes on to [sleep]. *)
Definition wait_scan (cur : nat) : M K (option Z) :=
  r <~ for_until slots (fun i =>
    q <~ proc_at i;
    if decide (parent q = Some cur /\ state q = ZOMBIE) then
      kfree (kstack q) ;;;
      upd_proc i (fun q => q <| kstack := 0 |>) ;;;
      freevm (pgdir q) ;;;
      upd_proc i (fun q => q <| pid := 0 |> <| parent := None |> <| name ::= <[0%nat := 0]> |>
                             <| killed := 0 |> <| state := UNUSED |>) ;;;
      release_k ptable_lock ;;;
      ret (Some (pid q))
    else ret None);
  match r with
  | Some id => ret (Some id)
  | None =>
      s <~ get;
      p <~ proc_at cur;
      if negb (existsb (fun q => bool_decide (parent q = Some cur)) (ptable s)) || negb (killed p =? 0) then
        release_k ptable_lock ;;; ret (Some (-1))
      else ret None
  end.

(** [wait]; [None] when it sleeps, to scan again when it is woken. *)
Definition wait_enter : M K (option Z) :=
  cur <~ curproc;
  acquire_k ptable_lock ;;;
  r <~ wait_scan cur;
  match r with
  | Some id => ret (Some id)
  | None => sleep_mark (ChProc cur) ptable_lock ;;; ret None
  end.
Definition wait_resume (cur : nat) : M K (option Z) :=
  sleep_tidy cur ptable_lock ;;;
  r <~ wait_scan cur;
  match r with
  | Some id => ret (Some id)
  | None => sleep_mark (ChProc cur) ptable_lock ;;; ret None
  end.

Definition forkret : M K unit :=
  release_k ptable_lock ;;;
  s <~ get;
  if first s then
    modify (fun s => s <| first := false |>) ;;;
    iinit ROOTDEV ;;;
    initlog ROOTDEV
  else ret tt.

(** [kvmalloc] of [vm.c] *)
Definition kvmalloc : M K unit :=
  pd <~ setupkvm;
  modify (fun s => s <| kpgdir := pd |>) ;;;
  switchkvm.
End ops.
