(* ===== verification/Console.v ===== *)
(** * The console ([console.c], [uart.c], [kbd.c])

    [screen] is the CGA memory, [cursor] the position in the cursor registers,
    [serial] the bytes sent to the serial port when there is one, [kshift] the
    variable [shift] of [kbdgetc].  [input] is
    the ring of typed characters: those between [ir] and [iw] can be read,
    those between [iw] and [ie] are the line that is being edited. *)
From Stdlib Require Import ZArith Lia.
From stdpp Require Import base list gmap strings.
From S2P Require Import Prelude Params Bytes Ring Spinlock Proc Sched SchedInv Kern Sleeplock FsData Bio Log Fs.
#[local] Open Scope Z_scope.
#[local] Open Scope kernel_scope.

Definition INPUT_BUF : Z := 128.
Definition BACKSPACE : Z := 0x100.
(** [C(x)], and the characters the code compares with. *)
Definition ctl (x : Z) : Z := x - 64.
Definition NL : Z := 10.
Definition CR : Z := 13.
Definition DEL : Z := 127.

Record input := mkinput { ibuf : list Z; ir : Z; iw : Z; ie : Z }.
#[export] Instance eta_input : Eta input := fun i => mkinput (ibuf i) (ir i) (iw i) (ie i).

Record console := mkcons {
  locking : Z; panicked : Z; uart : bool; serial : list Z;
  screen : list Z; cursor : Z; inp : input; kshift : Z
}.
#[export] Instance eta_console : Eta console := fun c =>
  mkcons (locking c) (panicked c) (uart c) (serial c) (screen c) (cursor c) (inp c) (kshift c).

Definition cons_lock : Z := 0x80200050.
Definition chan_input : chan := ChAddr 0x80200080.

(** ** Output *)

(** The wait for the transmitter, which is bounded, is not modelled. *)
Definition uartputc (c : Z) : M console unit :=
  s <~ get;
  if uart s then put (s <| serial ::= fun l => l ++ [u8 c] |>) else ret tt.

Definition crt_put (pos v : Z) (l : list Z) : list Z := <[Z.to_nat pos := v]> l.

(** Where the character goes: the new position and the screen. *)
Definition cga_write (c pos : Z) (l : list Z) : Z * list Z :=
  if c =? NL then (pos + (80 - pos mod 80), l)
  else if c =? BACKSPACE then (if 0 <? pos then pos - 1 else pos, l)
  else (pos + 1, crt_put pos (Z.lor (Z.land c 0xff) 0x0700) l).

(** [memmove(crt, crt+80, sizeof(crt[0])*23*80)] and the [memset] after it *)
Definition cga_scroll (pos : Z) (l : list Z) : Z * list Z :=
  if 24 <=? pos / 80 then
    let l := splice l 0 (slice l 80 (23 * 80)) in
    let pos := pos - 80 in
    (pos, splice l (Z.to_nat pos) (replicate (Z.to_nat (24 * 80 - pos)) 0))
  else (pos, l).

Definition cgaputc (c : Z) : M console unit :=
  s <~ get;
  let '(pos, l) := cga_write c (cursor s) (screen s) in
  if (pos <? 0) || (25 * 80 <? pos) then panic "pos under/overflow"
  else
    let '(pos, l) := cga_scroll pos l in
    put (s <| cursor := pos |> <| screen := crt_put pos (Z.lor 32 0x0700) l |>).

(** After a panic the CPU stays in a loop with interrupts off. *)
Definition frozen : stop := Spin 0.

Definition consputc (c : Z) : M console unit :=
  s <~ get;
  if negb (panicked s =? 0) then stop_with frozen
  else
    (if c =? BACKSPACE then uartputc 8 ;;; uartputc 32 ;;; uartputc 8 else uartputc c) ;;;
    cgaputc c.

Definition cputs (l : list Z) : M console unit := for_each l consputc.

(** [digits[x]]; the digits of the kernel above 9 begin with ['a'] (97), those
    of the user's [printf] with ['A']. *)
Definition digit (alpha x : Z) : Z := if x <? 10 then 48 + x else alpha + (x - 10).

(** The do-while loop of [printint]: the digits from the last one on.
    [buf] has 16 places. *)
Fixpoint digits_loop (alpha : Z) (fuel : nat) (base x : Z) : option (list Z) :=
  match fuel with
  | O => None
  | S fuel =>
      let d := digit alpha (x mod base) in
      if x / base =? 0 then Some [d] else (cons d) <$> digits_loop alpha fuel base (x / base)
  end.

(** The characters [printint] writes. *)
Definition int_chars (alpha xx base : Z) (sign : bool) : option (list Z) :=
  let neg := sign && (xx <? 0) in
  (fun l => rev (l ++ if neg then [45] else [])) <$> digits_loop alpha 16 base (u32 (if neg then - xx else xx)).

Definition printint (xx base : Z) (sign : bool) : M console unit :=
  l <~ of_option (Undef "printint: buf") (int_chars 97 xx base sign);
  cputs l.

(** An argument of [cprintf]: a word, or a pointer to a string without its
    terminating 0 or a null pointer. *)
Inductive parg := AInt (v : Z) | AStr (s : option (list Z)).

Definition null_str : list Z := [40; 110; 117; 108; 108; 41].

(** The conversion [c]: the arguments that are left. *)
Definition convert (c : Z) (args : list parg) : M console (list parg) :=
  if c =? 100 then
    match args with
    | AInt v :: args => printint (i32 v) 10 true ;;; ret args
    | _ => undef "cprintf: argument"
    end
  else if (c =? 120) || (c =? 112) then
    match args with
    | AInt v :: args => printint (i32 v) 16 false ;;; ret args
    | _ => undef "cprintf: argument"
    end
  else if c =? 115 then
    match args with
    | AStr s :: args => cputs (default null_str s) ;;; ret args
    | _ => undef "cprintf: argument"
    end
  else if c =? 37 then consputc 37 ;;; ret args
  else consputc 37 ;;; consputc c ;;; ret args.

(** The loop of [cprintf] over a format without its terminating 0. *)
Fixpoint format (fmt : list Z) (args : list parg) : M console unit :=
  match fmt with
  | [] => ret tt
  | c :: fmt =>
      if c =? 37 then
        match fmt with
        | [] => ret tt
        | c :: fmt => args <~ convert c args; format fmt args
        end
      else consputc c ;;; format fmt args
  end.

(** ** Input *)

(** [input.buf[(input.e-1) % INPUT_BUF]] *)
Definition last_typed (i : input) : Z := byte_at (ibuf i) (cell INPUT_BUF (u32 (ie i - 1))).
Definition erase (i : input) : input := i <| ie := u32 (ie i - 1) |>.
(** [input.buf[input.e++ % INPUT_BUF] = c] *)
Definition type_char (c : Z) (i : input) : input :=
  i <| ibuf ::= <[cell INPUT_BUF (ie i) := u8 c]> |> <| ie := u32 (ie i + 1) |>.

Definition mod_input (f : input -> input) : M console unit := modify (fun s => s <| inp ::= f |>).

Definition kill_line : M console unit :=
  s <~ get;
  loop (Z.to_nat (u32 (ie (inp s) - iw (inp s))) + 1) (fun _ : unit =>
    s <~ get;
    if negb (ie (inp s) =? iw (inp s)) && negb (last_typed (inp s) =? NL) then
      mod_input erase ;;; consputc BACKSPACE ;;; ret (inl tt)
    else ret (inr tt)) tt.

Definition backspace : M console unit :=
  s <~ get;
  if negb (ie (inp s) =? iw (inp s)) then mod_input erase ;;; consputc BACKSPACE else ret tt.

(** An ordinary character: whether the line is complete. *)
Definition type_key (c : Z) : M console bool :=
  s <~ get;
  if negb (c =? 0) && (u32 (ie (inp s) - ir (inp s)) <? INPUT_BUF) then
    let c := if c =? CR then NL else c in
    mod_input (type_char c) ;;;
    consputc c ;;;
    s <~ get;
    if (c =? NL) || (c =? ctl 68) || (ie (inp s) =? u32 (ir (inp s) + INPUT_BUF)) then
      mod_input (fun i => i <| iw := ie i |>) ;;; ret true
    else ret false
  else ret false.

(** What one character does: whether it wakes the readers and whether it asks
    for the process listing. *)
Inductive keyact := Quiet | Wake | Dump.
Definition key (c : Z) : M console keyact :=
  if c =? ctl 80 then ret Dump
  else if c =? ctl 85 then kill_line ;;; ret Quiet
  else if (c =? ctl 72) || (c =? DEL) then backspace ;;; ret Quiet
  else w <~ type_key c; ret (if w : bool then Wake else Quiet).

Section ops.
Context {S E : Type} `{KernOps S E} `{Sub E console} `{Sub E fsstate}.

Definition on_cons {A} (m : M console A) : M S A := own (T := console) m.

(** [cprintf]; the process listing and the panics use it. *)
Definition cprintf (fmt : list Z) (args : list parg) : M S unit :=
  c <~ k_get (T := console);
  let lk := negb (locking c =? 0) in
  (if lk then k_acquire (T := console) cons_lock else ret tt) ;;;
  on_cons (format fmt args) ;;;
  if lk then k_release (T := console) cons_lock else ret tt.

(** [consoleintr]: [typed] are the characters [getc] returns before it
    returns a negative number.  The result says whether it goes on to
    [procdump]. *)
Definition consoleintr (typed : list Z) : M S bool :=
  k_acquire (T := console) cons_lock ;;;
  r <~ loop (length typed + 1) (fun '(l, d) =>
    match l with
    | [] => ret (inr d)
    | c :: l =>
        a <~ on_cons (key c);
        (match a with Wake => k_wakeup (T := console) chan_input | _ => ret tt end) ;;;
        ret (inl (l, match a with Dump => true | _ => d end))
    end) (typed, false);
  k_release (T := console) cons_lock ;;;
  ret r.

(** [input.r++] *)
Definition next_char : M S unit := on_cons (mod_input (fun i => i <| ir := u32 (ir i + 1) |>)).

(** The loop of [consoleread]: whether it was left without being killed, and
    the bytes. *)
Definition cons_copy (n : Z) : M S (bool * list Z) :=
  loop (Z.to_nat n + 1) (fun '(n, dst) =>
    if 0 <? n then
      c <~ k_get (T := console);
      if ir (inp c) =? iw (inp c) then
        k <~ k_killed (T := console);
        if k : bool then ret (inr (false, dst))
        else k_sleep (T := console) chan_input cons_lock ;;; ret (inl (n, dst))
      else
        let ch := byte_at (ibuf (inp c)) (cell INPUT_BUF (ir (inp c))) in
        if ch =? ctl 68 then
          match dst with [] => next_char | _ => ret tt end ;;;
          ret (inr (true, dst))
        else
          next_char ;;;
          ret (if ch =? NL then inr (true, dst ++ [ch]) else inl (n - 1, dst ++ [ch]))
    else ret (inr (true, dst))) (n, []).

(** [consoleread]: the count and the bytes. *)
Definition consoleread (ip : nat) (n : Z) : M S (Z * list Z) :=
  iunlock (Some ip) ;;;
  k_acquire (T := console) cons_lock ;;;
  r <~ cons_copy (i32 n);
  k_release (T := console) cons_lock ;;;
  ilock (Some ip) ;;;
  ret (if fst r : bool then Z.of_nat (length (snd r)) else -1, snd r).

Definition consolewrite (ip : nat) (buf : list Z) : M S Z :=
  iunlock (Some ip) ;;;
  k_acquire (T := console) cons_lock ;;;
  on_cons (cputs (map u8 buf)) ;;;
  k_release (T := console) cons_lock ;;;
  ilock (Some ip) ;;;
  ret (Z.of_nat (length buf)).

Abbreviation CONSOLE := 1%Z.

(** [devsw] after [consoleinit]. *)
#[export] Instance console_dev : DevSw S := {
  dev_read m := if m =? CONSOLE then Some consoleread else None;
  dev_write m := if m =? CONSOLE then Some consolewrite else None
}.

Definition consoleinit : M S unit :=
  k_initlock (T := console) cons_lock "console" ;;;
  k_mod (T := console) (fun c => c <| locking := 1 |>).
End ops.
