(* ===== verification/Env.v ===== *)
(** * The parts of the kernel put together

    [kenv] is everything outside the process table: the file system, the page
    allocator, the open files and pipes, the semaphores and the console.  Each
    component's theorems are about its own part; [sub_at] takes a state of the
    whole kernel to a state of one part. *)
From Stdlib Require Import ZArith Lia.
From stdpp Require Import base list gmap strings.
From S2P Require Import Prelude Params Bytes Spinlock Proc Sched SchedInv Kern Sleeplock FsData Bio Log Demo Semaphore Kalloc Fs Pipe File Console.
#[local] Open Scope Z_scope.
#[local] Open Scope kernel_scope.

Record kenv := mkenv { e_fs : fsstate; e_mem : kmem; e_file : filest; e_sem : semst; e_con : console }.
#[export] Instance eta_kenv : Eta kenv := fun e => mkenv (e_fs e) (e_mem e) (e_file e) (e_sem e) (e_con e).

#[export] Instance sub_fs : Sub kenv fsstate.
Proof. refine {| sub_get := e_fs; sub_set t e := e <| e_fs := t |> |}; [done|by intros []|done]. Defined.
#[export] Instance sub_mem : Sub kenv kmem.
Proof. refine {| sub_get := e_mem; sub_set t e := e <| e_mem := t |> |}; [done|by intros []|done]. Defined.
#[export] Instance sub_file : Sub kenv filest.
Proof. refine {| sub_get := e_file; sub_set t e := e <| e_file := t |> |}; [done|by intros []|done]. Defined.
#[export] Instance sub_sem : Sub kenv semst.
Proof. refine {| sub_get := e_sem; sub_set t e := e <| e_sem := t |> |}; [done|by intros []|done]. Defined.
#[export] Instance sub_con : Sub kenv console.
Proof. refine {| sub_get := e_con; sub_set t e := e <| e_con := t |> |}; [done|by intros []|done]. Defined.

Lemma sub_at {S E T} `{KernLaws S E} `{Sub E T} (s : S) L (e : E) :
  at_ (T := E) s L e -> at_ (H0 := sub_laws e) s L (sub_get e).
Proof.
  intros [Hc Hp]. split; [split; [done|]|].
  - exists (sub_get e). by rewrite Hp, sub_set_get.
  - cbn. by rewrite Hp.
Qed.

(** ** A small kernel *)

Definition small_con : console :=
  mkcons 1 0 true [] (replicate 2000 0) 0 (mkinput (replicate 128 0) 0 0 0) 0.
Definition small_env : kenv :=
  mkenv (small_fs small_disk [] [] 0) (mkkmem 1 0 ∅) (mkfilest (replicate NFILE file0) ∅) (mksemst ∅ ∅) small_con.
