(* ===== verification/UserInit.v ===== *)
(** * The first process ([userinit] of [proc.c])

    [userinit] runs on the boot CPU, where no process is: [noproc_laws] are
    the promises about locks that its calls rely on there.  Then what it
    leaves: a runnable process with the bytes of [initcode] in its memory. *)
From Stdlib Require Import ZArith Lia.
From stdpp Require Import base list gmap strings.
From S2P Require Import Prelude Params Mmu Bytes Cstring Spinlock Proc Sched SchedInv SchedThms Kern Sleeplock FsData Bio Log Fs Pipe Demo Semaphore Kalloc Vm VmMap VmSpace VmThms VmInit BootMem File Console Life Env.
#[local] Open Scope Z_scope.
#[local] Open Scope kernel_scope.

(** ** Locks on a CPU without a process *)

Section noproc.
Context {E : Type} (w : who) (pt : list proc) (q : mlfq) (np : Z) (ip : option nat) (tk : Z) (fi : bool) (kp : Z).

Definition noproc_ops : KernOps (kstate E) E := {|
  part := env;
  set_part e s := s <| env := e |>;
  k_initlock lk nm := on_mach (initlock lk nm);
  k_acquire := acquire_k;
  k_release := release_k;
  k_wakeup _ := ret tt; k_sleep _ _ := ret tt; k_pid := ret 0; k_cwd := ret None; k_killed := ret false
|}.

Definition noproc_ctx (s : kstate E) (L : list Z) : Prop :=
  exists m e, s = mkk m pt q np ip tk fi kp e /\ view m L w.

Definition noproc_laws : @KernLaws _ _ noproc_ops.
Proof using w pt q np ip tk fi kp.
  refine (@Build_KernLaws _ _ noproc_ops noproc_ctx 0 _ _ _ _ _ _ _).
  - done.
  - intros s L t (m & e & -> & Hv). by exists m, t.
  - intros s lk nm X Q (m & e & -> & Hv) HQ. apply wp_on_mach. cbn.
    apply HQ; [|done]. eexists _, e. split; [done|]. by apply view_initlock.
  - intros s L lk X Q (m & e & -> & Hv) Hlk HQ.
    eapply wp_acquire_k; [done|done|]. intros m' Hv'. apply HQ; [|done]. by exists m', e.
  - intros s L1 L2 lk X Q (m & e & -> & Hv) HQ.
    eapply wp_release_k; [done|]. intros m' Hv'. apply HQ; [|done]. by exists m', e.
  - intros s L c X Q Hc _ HQ. by apply HQ.
  - intros s L X Q Hc HQ. by apply HQ.
Defined.
End noproc.

Section calls.
Context `{Layout} (w : who) (pt : list proc) (q : mlfq) (np : Z) (ip : option nat) (tk : Z) (fi : bool) (kp : Z) (e : kenv).
Abbreviation st m e := (mkk m pt q np ip tk fi kp e).
Abbreviation laws T := (@sub_laws _ kenv T noproc_ops (noproc_laws w pt q np ip tk fi kp) _ e).
Implicit Types (m : machine) (L : list Z) (X : stop -> Prop).

Lemma np_at {T} `{Sub kenv T} m L : view m L w -> at_ (H0 := laws T) (st m e) L (sub_get e).
Proof. intros Hv. split; [|done]. split; [by exists m, e|]. exists (sub_get e). symmetry. apply sub_set_get. Qed.

Lemma np_inv {T} `{Sub kenv T} s L (t : T) : at_ (H0 := laws T) s L t -> exists m, view m L w /\ s = st m (sub_set t e).
Proof.
  intros [[(m & e' & -> & Hv) [t' Ht]] Hp]. exists m. split; [done|]. cbn in *. subst e'. by rewrite <- Hp, sub_get_set.
Qed.

(** The page tables of [pd], whoever runs. *)
Definition pspace (k : kmem) (l : list Z) (pd : Z) (T U : gmap Z Z) : Prop :=
  forall (w : who) pt q np ip tk fi kp e m L, view m L w -> e_mem e = k ->
    aspace (H1 := @sub_laws _ kenv kmem noproc_ops (noproc_laws w pt q np ip tk fi kp) _ e) L (mkk m pt q np ip tk fi kp e) k l pd T U.

Lemma pspace_intro {S} {o : KernOps S kmem} (lw : KernLaws S kmem) L (s : S) k l pd T U :
  aspace (H1 := lw) L s k l pd T U -> pspace k l pd T U.
Proof.
  intros Has w' pt' q' np' ip' tk' fi' kp' e' m' L' Hv <-. refine (aspace_laws _ _ _ _ _ _ _ _ _ _ _ Has _).
  split; [|done]. split; [by exists m', e'|]. exists (e_mem e'). by destruct e'.
Qed.

(** The calls on memory use nothing of the process. *)
Abbreviation real := (@sub_ops _ kenv kmem _ kern_ops).
Abbreviation np_ops := (@sub_ops _ kenv kmem _ noproc_ops).
Lemma np_agree {A} (f f' : M (kstate kenv) A) X (Q : A -> kstate kenv -> Prop) s :
  agree (fun _ => True) f f' -> wp f' X Q s -> wp f X Q s.
Proof. intros Ha Hf. eapply agree_wp; [exact Ha|done|]. eapply wp_mono; [exact Hf|done]. Qed.

Lemma np_get : agree (fun _ => True) (@k_get _ _ real) (@k_get _ _ np_ops).
Proof. by split. Qed.
Lemma np_mod f : agree (fun _ => True) (@k_mod _ _ real f) (@k_mod _ _ np_ops f).
Proof. by split. Qed.
Lemma np_acquire : agree (fun _ => True) (@kmem_acquire _ real) (@kmem_acquire _ np_ops).
Proof. by split. Qed.
Lemma np_release : agree (fun _ => True) (@kmem_release _ real) (@kmem_release _ np_ops).
Proof. by split. Qed.

Lemma wp_kalloc_np m L a l X (Q : Z -> kstate kenv -> Prop) :
  view m L w -> kmem_lock ∉ L -> free_ok (e_mem e) (a :: l) ->
  (forall m' k', view m' L w -> free_ok k' l -> pages k' = pages (e_mem e) -> use_lock k' = use_lock (e_mem e) ->
     Q a (st m' (e <| e_mem := k' |>))) ->
  wp kalloc X Q (st m e).
Proof.
  intros Hv HL Hf HQ. eapply np_agree; [exact (lf_kalloc _ real np_ops np_get (fun f _ => np_mod f) np_acquire np_release)|].
  eapply (wp_kalloc (H1 := laws kmem)); [by apply (np_at (T := kmem))|done|exact Hf|].
  intros s' k' (m' & Hv' & ->)%(np_inv (T := kmem)) Hf' Hp Hu. by apply HQ.
Qed.

(** A directory with the kernel's mappings, when enough pages are free. *)
Lemma wp_setupkvm_np m L l X (Q : Z -> kstate kenv -> Prop) :
  view m L w -> kmem_lock ∉ L -> free_ok (e_mem e) l -> (65 < length l)%nat ->
  (forall m' k' l' pd T, view m' L w -> pspace k' l' pd T ∅ -> own pd T ∅ ++ l' ≡ₚ l ->
     (forall v, UPAGES <= v -> ent (pages k') T v = kern_ent v) ->
     (forall p, p ∉ l -> pages k' !! p = pages (e_mem e) !! p) -> use_lock k' = use_lock (e_mem e) -> (length (tabs T) <= 64)%nat ->
     Q pd (st m' (e <| e_mem := k' |>))) ->
  wp setupkvm X Q (st m e).
Proof.
  intros Hv HL Hf Hlen HQ. eapply np_agree; [exact (lf_setupkvm _ real np_ops np_get (fun f _ => np_mod f) np_acquire np_release)|].
  eapply (wp_setupkvm (H1 := laws kmem)); [exact HL|by apply (np_at (T := kmem))|exact Hf| |].
  - intros. lia.
  - intros s' k' l' pd T Has Ho Hk Hfr Hu Ht. pose proof Has as [[Hat _ _ _ _] _ _ _ _].
    apply (np_inv (T := kmem)) in Hat as (m' & Hv' & ->). apply (HQ m' k' l' pd T); try done. exact (pspace_intro _ _ _ _ _ _ _ _ Has).
Qed.

Lemma wp_inituvm_np m L l pd T code X (Q : unit -> kstate kenv -> Prop) :
  view m L w -> kmem_lock ∉ L -> pspace (e_mem e) l pd T ∅ ->
  (3 <= length l)%nat -> bytes_ok code -> (length code < Z.to_nat PGSIZE)%nat ->
  (forall m' k' l' T' b, view m' L w -> pspace k' l' pd T' {[0 := b]} ->
     own pd T' {[0 := b]} ++ l' ≡ₚ own pd T ∅ ++ l ->
     pages k' !! b = Some (init_page code) -> ent (pages k') T' 0 = PTE (V2P b) (Z.lor PTE_W PTE_U) ->
     (forall v, 0 <= v -> v <> 0 -> ent (pages k') T' v = ent (pages (e_mem e)) T v) ->
     (forall p, p ∉ own pd T ∅ ++ l -> pages k' !! p = pages (e_mem e) !! p) -> use_lock k' = use_lock (e_mem e) ->
     Q tt (st m' (e <| e_mem := k' |>))) ->
  wp (inituvm pd code (Z.of_nat (length code))) X Q (st m e).
Proof.
  intros Hv HL Has Hlen Hb Hc HQ. eapply np_agree; [exact (lf_inituvm _ real np_ops np_get (fun f _ => np_mod f) np_acquire np_release _ _ _)|].
  eapply (wp_inituvm (H1 := laws kmem)); [exact HL|by apply Has|done|done|done|].
  intros s' k' l' T' b Has' Ho Hp He Hev Hfr Hu. pose proof Has' as [[Hat _ _ _ _] _ _ _ _].
  apply (np_inv (T := kmem)) in Hat as (m' & Hv' & ->). apply (HQ m' k' l' T' b); try done. exact (pspace_intro _ _ _ _ _ _ _ _ Has').
Qed.

(** The table of inodes with a reference to the root directory. *)
Definition root_inode (t : fsstate) : fsstate :=
  upd_inode 0 (fun ip => ip <| idev := ROOTDEV |> <| inum := ROOTINO |> <| iref := 1 |> <| ivalid := 0 |>) t.
End calls.

Lemma wp_iget_first {S} `{KernLaws S fsstate} s L t dev i X (Q : nat -> S -> Prop) :
  at_ s L t -> icache_lock ∉ L -> (forall j, iref (inode_at t j) = 0) ->
  (forall s', at_ s' L (upd_inode 0 (fun ip => ip <| idev := dev |> <| inum := i |> <| iref := 1 |> <| ivalid := 0 |>) t) -> Q 0%nat s') ->
  wp (iget dev i) X Q s.
Proof.
  intros Hat HL Hz HQ. unfold iget. mstep. mstep. mstep.
  apply wp_for_until with (I := fun _ s' => at_ s' (icache_lock :: L) t).
  - done.
  - intros j r s' Hat'. unfold get_inode. mstep. mstep. mstep. mstep. rewrite Hz. cbn [Z.ltb Z.compare andb]. by mstep.
  - intros s' Hat'. mstep. mstep. change (seq 0 NINODE) with (0%nat :: seq 1 (NINODE - 1)). cbn [list_find].
    rewrite decide_True by apply Hz. unfold mod_inode. mstep. mstep. mstep. mstep. mstep. by apply HQ.
Qed.

Section first.
Context `{Layout} (w : who).
Implicit Types (m : machine) (X : stop -> Prop).

Lemma wp_iget_np m L pt q np ip tk fi kp e dev i X (Q : nat -> kstate kenv -> Prop) :
  view m L w -> icache_lock ∉ L -> (forall j, iref (inode_at (e_fs e) j) = 0) ->
  (forall m', view m' L w -> Q 0%nat (mkk m' pt q np ip tk fi kp
     (e <| e_fs ::= upd_inode 0 (fun ip => ip <| idev := dev |> <| inum := i |> <| iref := 1 |> <| ivalid := 0 |>) |>))) ->
  wp (iget dev i) X Q (mkk m pt q np ip tk fi kp e).
Proof.
  intros Hv HL Hz HQ. change (wp (@iget _ (@sub_ops _ kenv fsstate _ noproc_ops) dev i) X Q (mkk m pt q np ip tk fi kp e)).
  eapply (wp_iget_first (H0 := @sub_laws _ kenv fsstate noproc_ops (noproc_laws w pt q np ip tk fi kp) _ e)).
  - by apply np_at.
  - done.
  - done.
  - intros s' (m' & Hv' & ->)%(np_inv w pt q np ip tk fi kp e). by apply HQ.
Qed.

Lemma wp_namei_root m L pt q np ip tk fi kp e X (Q : option nat -> kstate kenv -> Prop) :
  view m L w -> icache_lock ∉ L -> (forall j, iref (inode_at (e_fs e) j) = 0) ->
  (forall m', view m' L w -> Q (Some 0%nat) (mkk m' pt q np ip tk fi kp (e <| e_fs ::= root_inode |>))) ->
  wp (namei (chars "/")) X Q (mkk m pt q np ip tk fi kp e).
Proof.
  intros Hv HL Hz HQ. unfold namei, namex. apply wp_bind, wp_bind. cbn [chars].
  change (Z.of_nat (Ascii.nat_of_ascii (Ascii.Ascii true true true true false true false false))) with 47. cbn [Z.eqb Pos.eqb].
  eapply wp_iget_np; [done|done|done|]. intros m' Hv'. apply wp_bind. cbn [length Nat.add loop]. apply wp_bind.
  replace (skipelem [47; 0] _) with (@None (list Z * list Z)) by done. do 4 (apply wp_ret). by apply HQ.
Qed.

(** The process [userinit] makes: its kernel stack is [ks], its directory
    [pd]. *)
Definition first_proc (id ks pd : Z) : proc :=
  (new_stack ((embryo 0 id proc0) <| kstack := ks |>)) <| pgdir := pd |> <| sz := PGSIZE |> <| tf := init_tf |>
    <| name := chars "initcode" ++ replicate 7 0 |> <| cwd := Some 0%nat |> <| state := RUNNABLE |>.

Definition boot_queue (nt : list (option nat)) : mlfq := mkmlfq 0 0 0 0 0 None [0; 0; 0] nt.
Definition boot_table : list proc := replicate NPROC proc0.

Lemma boot_inv nt : sched_inv boot_table (boot_queue nt).
Proof. by apply sched_inv_concrete. Qed.

Lemma first_inv nt id ks pd : sched_inv (<[0%nat := first_proc id ks pd]> boot_table) (bump 2 1 (boot_queue nt)).
Proof. by apply sched_inv_concrete. Qed.

(** The memory of [pd] is that of a process which runs [code]. *)
Definition runs_code (k : kmem) (pd : Z) (code : list Z) : Prop :=
  (forall va, 0 <= va < KERNBASE -> user_byte (pages k) pd va =
     if va <? PGSIZE then Some (nth (Z.to_nat va) code 0) else None) /\
  (forall va, 0 <= va < PGSIZE -> PTE_FLAGS (mmu_pte (pages k) pd va) = Z.lor PTE_P (Z.lor PTE_W PTE_U)) /\
  (forall va, KERNBASE <= va < 2 ^ 32 -> mmu_pte (pages k) pd va = kern_ent (va / 4096)).

Lemma init_page_nth code i : (length code < Z.to_nat PGSIZE)%nat -> (i < Z.to_nat PGSIZE)%nat ->
  init_page code !! i = Some (nth i code 0).
Proof.
  intros Hc Hi. unfold init_page, zero_data. rewrite lookup_splice by lia. rewrite Nat.sub_0_r, Nat.add_0_l. case_decide as Hd.
  - destruct (lookup_lt_is_Some_2 code i) as [x Hx]; [lia|]. rewrite Hx. f_equal. symmetry. by apply nth_lookup_Some.
  - rewrite nth_overflow by lia. rewrite lookup_replicate. split; [done|lia].
Qed.

Lemma aspace_runs {S} {o : KernOps S kmem} (lw : KernLaws S kmem) L (s : S) k l pd T b code :
  aspace L s k l pd T {[0 := b]} -> pages k !! b = Some (init_page code) -> ent (pages k) T 0 = PTE (V2P b) (Z.lor PTE_W PTE_U) ->
  (forall v, UPAGES <= v -> ent (pages k) T v = kern_ent v) -> (length code < Z.to_nat PGSIZE)%nat -> runs_code k pd code.
Proof.
  intros Has Hb He Hk Hc. split; [|split].
  - intros va Hva. rewrite (user_byte_page L s k l pd T {[0 := b]}) by done. destruct (Z.ltb_spec va PGSIZE) as [Hlt|Hge]; unfold PGSIZE in *.
    + rewrite (Z.div_small va), lookup_singleton_eq by lia. cbn. rewrite Hb. cbn. rewrite Z.mod_small by lia.
      apply init_page_nth; [done|]. unfold PGSIZE. lia.
    + rewrite lookup_singleton_ne; [done|]. assert (1 <= va / 4096) by (apply Z.div_le_lower_bound; lia). lia.
  - intros va Hva. unfold PGSIZE in Hva. rewrite (mmu_pte_ent L s k l pd T) by (by eapply as_space || lia). rewrite Z.div_small, He by lia.
    destruct (as_page _ _ _ _ _ _ _ Has 0 b) as (_ & Hbp & _); [apply lookup_singleton_eq|].
    destruct (page_ok_phys b Hbp) as (Hbr & Hbm & _). by destruct (PTE_spec (V2P b) (Z.lor PTE_W PTE_U)) as (_ & -> & _).
  - intros va Hva. unfold KERNBASE in Hva. rewrite (mmu_pte_ent L s k l pd T) by (by eapply as_space || lia). apply Hk. unfold UPAGES. apply Z.div_le_lower_bound; lia.
Qed.

Lemma boot_slot p : <[0%nat := p]> boot_table !! 0%nat = Some p.
Proof. done. Qed.

Lemma wp_upd_first m p f q np ip tk fi kp e X (Q : unit -> kstate kenv -> Prop) :
  Q tt (mkk m (<[0%nat := f p]> boot_table) q np ip tk fi kp e) ->
  wp (upd_proc 0 f) X Q (mkk m (<[0%nat := p]> boot_table) q np ip tk fi kp e).
Proof. intros HQ. eapply wp_upd_proc; [apply boot_slot|]. by rewrite list_insert_insert_eq. Qed.

Lemma wp_set_initproc m pt q np ip tk fi kp e o X (Q : unit -> kstate kenv -> Prop) :
  Q tt (mkk m pt q np o tk fi kp e) -> wp (modify (fun s => s <| initproc := o |>)) X Q (mkk m pt q np ip tk fi kp e).
Proof. done. Qed.

Lemma wp_allocproc_first m q np ip tk fi kp e ks l X (Q : option nat -> kstate kenv -> Prop) :
  view m [] w -> free_ok (e_mem e) (ks :: l) ->
  (forall m' k', view m' [] w -> free_ok k' l -> pages k' = pages (e_mem e) -> use_lock k' = use_lock (e_mem e) ->
     Q (Some 0%nat) (mkk m' (<[0%nat := new_stack ((embryo 0 np proc0) <| kstack := ks |>)]> boot_table) q (i32 (np + 1)) ip tk fi kp (e <| e_mem := k' |>))) ->
  wp allocproc X Q (mkk m boot_table q np ip tk fi kp e).
Proof.
  intros Hv Hf HQ. unfold allocproc. kstep. kstep. kstep.
  change slots with (0%nat :: seq 1 (NPROC - 1)). cbn [for_until]. kstep. kstep. eapply (wp_proc_at _ _ _ _ _ _ _ _ _ _ 0 proc0); [done|].
  kstep. rewrite decide_True by done. kstep. kstep. kstep. kstep.
  eapply (wp_upd_proc _ _ _ _ _ _ _ _ _ _ 0 proc0); [done|]. cbn [nextpid]. kstep. apply wp_modify. kstep. kstep. kstep.
  eapply wp_kalloc_np; [done|set_solver|done|]. intros m2 k2 Hv2 Hf2 Hp2 Hu2. kstep. apply wp_upd_first.
  assert (page_ok ks) as Hks by (apply (fo_page _ _ Hf), elem_of_cons; by left). pose proof (page_ok_range ks Hks) as Hr.
  destruct (Z.eqb_spec ks 0); [unfold KERNBASE in Hr; lia|]. kstep. apply wp_upd_first. kstep. by apply HQ.
Qed.

(** The state after [userinit]. *)
Definition initialised s' (m : machine) (nt : list (option nat)) np tk fi kp e (l code : list Z) : Prop :=
  exists m' k' l' ks pd T b,
    s' = mkk m' (<[0%nat := first_proc np ks pd]> boot_table) (bump 2 1 (boot_queue nt)) (i32 (np + 1)) (Some 0%nat) tk fi kp
           (e <| e_mem := k' |> <| e_fs ::= root_inode |>) /\
    view m' [] w /\ free_ok k' l' /\ ks :: own pd T {[0 := b]} ++ l' ≡ₚ l /\ runs_code k' pd code /\
    use_lock k' = use_lock (e_mem e) /\ forall p, p ∉ l -> pages k' !! p = pages (e_mem e) !! p.

Lemma wp_userinit m nt np ip tk fi kp e l code X :
  view m [] w -> free_ok (e_mem e) l -> (70 <= length l)%nat -> (forall j, iref (inode_at (e_fs e) j) = 0) ->
  bytes_ok code -> (length code < Z.to_nat PGSIZE)%nat ->
  wp (userinit code) X (fun _ s' => initialised s' m nt np tk fi kp e l code) (mkk m boot_table (boot_queue nt) np ip tk fi kp e).
Proof.
  intros Hv Hf Hlen Hz Hb Hc. destruct l as [|ks l]; [cbn in Hlen; lia|]. pose proof (fo_nodup _ _ Hf) as [Hksl _]%NoDup_cons.
  unfold userinit. kstep. eapply wp_allocproc_first; [done..|]. intros m1 k1 Hv1 Hf1 Hp1 Hu1. kstep. apply wp_set_initproc. kstep. kstep. kstep.
  cbn in Hlen. eapply wp_setupkvm_np; [done|set_solver|exact Hf1|lia|]. intros m2 k2 l2 pd T Hv2 Has2 Ho2 Hk2 Hfr2 Hu2 Htb.
  kstep. apply wp_upd_first.
  pose proof (Has2 w boot_table (boot_queue nt) np ip tk fi kp (e <| e_mem := k2 |>) _ _ Hv2 eq_refl) as Has2'.
  pose proof (sp_pd _ _ _ _ _ _ (as_space _ _ _ _ _ _ _ Has2')) as [Hpd _]. pose proof (page_ok_range pd Hpd) as Hr.
  destruct (Z.eqb_spec pd 0); [unfold KERNBASE in Hr; lia|]. kstep.
  assert (length l = length (own pd T ∅ ++ l2)) as Hl2 by by rewrite Ho2.
  unfold own in Hl2. change (tabs ∅) with (@nil Z) in Hl2. rewrite app_nil_r, length_app in Hl2. cbn in Hl2.
  eapply wp_inituvm_np; [done|set_solver|done|lia|done|done|].
  intros m3 k3 l3 T3 b Hv3 Has3 Ho3 Hb3 He3 Hev3 Hfr3 Hu3. kstep. apply wp_upd_first. kstep. unfold copy_name. kstep.
  eapply wp_proc_at; [apply boot_slot|]. kstep. eapply wp_some; [done|]. apply wp_set_proc. rewrite list_insert_insert_eq. kstep.
  eapply wp_namei_root; [done|set_solver|done|]. intros m4 Hv4. kstep. apply wp_upd_first. kstep. kstep. kstep. apply wp_upd_first.
  kstep. kstep. kstep. kstep. kstep. eapply wp_mlfq_bump with (d := 1); [done|apply boot_slot|done|done|].
  kstep. unfold initialised.
  assert (forall p, p ∉ l -> p <> ks -> pages k3 !! p = pages (e_mem e) !! p) as Hfr.
  { intros p Hp _. rewrite Hfr3 by by rewrite Ho2. rewrite Hfr2 by done. cbn. by rewrite Hp1. }
  eexists _, k3, l3, ks, pd, T3, b. split; [reflexivity|]. split; [done|].
  pose proof (Has3 w boot_table (boot_queue nt) np ip tk fi kp (e <| e_mem := k3 |>) _ _ Hv3 eq_refl) as Has3'.
  split; [exact (sp_free _ _ _ _ _ _ (as_space _ _ _ _ _ _ _ Has3'))|]. split; [by rewrite Ho3, Ho2|]. split; [|split].
  - refine (aspace_runs _ _ _ _ _ _ _ _ _ Has3' Hb3 He3 _ Hc). intros v Hv'. rewrite Hev3; [by apply Hk2|unfold UPAGES in Hv'; lia..].
  - rewrite Hu3. cbn. rewrite Hu2. done.
  - intros p Hp. apply Hfr; set_solver.
Qed.
End first.
