(* ===== verification/ConsoleThms.v ===== *)
(** * What the console guarantees

    Output stays on the screen, numbers are written so that [atoi] reads them
    back, and the ring of typed characters is a line editor. *)
From Stdlib Require Import ZArith Lia.
From stdpp Require Import base list gmap strings.
From S2P Require Import Prelude Params Bytes Cstring Ring Spinlock Proc Sched SchedInv Kern Sleeplock FsData Bio Log Fs Demo Console Env.
#[local] Open Scope Z_scope.
#[local] Open Scope kernel_scope.

(** ** The screen *)

Definition SCREEN : nat := 2000.
Record screen_ok (s : console) : Prop := {
  sc_len : length (screen s) = SCREEN;
  sc_cursor : 0 <= cursor s <= 24 * 80;
  sc_alive : panicked s = 0;
  sc_shift : 0 <= kshift s < 128
}.

Lemma length_crt_put pos v l : length (crt_put pos v l) = length l.
Proof. apply length_insert. Qed.

Lemma cga_write_ok c pos l :
  0 <= pos <= 24 * 80 -> length l = SCREEN ->
  0 <= fst (cga_write c pos l) <= 25 * 80 /\ length (snd (cga_write c pos l)) = SCREEN.
Proof.
  intros Hp Hl. pose proof (Z.mod_pos_bound pos 80 ltac:(lia)). pose proof (Z.div_mod pos 80 ltac:(lia)).
  unfold cga_write. destruct (c =? NL); [cbn; lia|]. destruct (c =? BACKSPACE).
  - destruct (Z.ltb_spec 0 pos); cbn; lia.
  - cbn [fst snd]. rewrite length_crt_put. lia.
Qed.

Lemma cga_scroll_ok pos l :
  0 <= pos <= 25 * 80 -> length l = SCREEN ->
  0 <= fst (cga_scroll pos l) <= 24 * 80 /\ length (snd (cga_scroll pos l)) = SCREEN.
Proof.
  intros Hp Hl. pose proof (Z.div_mod pos 80 ltac:(lia)). pose proof (Z.mod_pos_bound pos 80 ltac:(lia)).
  unfold cga_scroll. destruct (Z.leb_spec 24 (pos / 80)); cbn [fst snd]; [|lia]. split; [lia|].
  assert (length (splice l 0 (slice l 80 (23 * 80))) = SCREEN) as Hs.
  { rewrite length_splice; [done|]. rewrite length_slice; unfold SCREEN in *; lia. }
  rewrite length_splice; [done|]. rewrite length_replicate, Hs. unfold SCREEN. lia.
Qed.

Lemma wp_uartputc c X (Q : unit -> console -> Prop) s :
  screen_ok s -> (forall s', screen_ok s' -> inp s' = inp s -> Q tt s') -> wp (uartputc c) X Q s.
Proof.
  intros [H1 H2 H3 H4] HQ. unfold uartputc. wsteps. destruct (uart s); wsteps; by apply HQ.
Qed.

(** [cgaputc] changes the cursor and the screen only. *)
Lemma wp_cgaputc_at c X (Q : unit -> console -> Prop) s :
  screen_ok s -> (forall pos l, screen_ok (s <| cursor := pos |> <| screen := l |>) -> Q tt (s <| cursor := pos |> <| screen := l |>)) ->
  wp (cgaputc c) X Q s.
Proof.
  intros [H1 H2 H3 H4] HQ. unfold cgaputc. wsteps.
  pose proof (cga_write_ok c (cursor s) (screen s) H2 H1) as Hw.
  destruct (cga_write c (cursor s) (screen s)) as [pos l]. cbn [fst snd] in Hw. destruct Hw as [Hp Hl].
  destruct (Z.ltb_spec pos 0), (Z.ltb_spec (25 * 80) pos); cbn [orb]; try lia.
  pose proof (cga_scroll_ok pos l Hp Hl) as Hs. destruct (cga_scroll pos l) as [pos' l'].
  cbn [fst snd] in Hs. destruct Hs as [Hp' Hl']. wsteps. apply HQ.
  split; [cbn; by rewrite length_crt_put|done..].
Qed.

Lemma wp_cgaputc c X (Q : unit -> console -> Prop) s :
  screen_ok s -> (forall s', screen_ok s' -> inp s' = inp s -> Q tt s') -> wp (cgaputc c) X Q s.
Proof. intros Hs HQ. apply wp_cgaputc_at; [done|]. intros pos l Hs'. by apply HQ. Qed.

Lemma wp_consputc c X (Q : unit -> console -> Prop) s :
  screen_ok s -> (forall s', screen_ok s' -> inp s' = inp s -> Q tt s') -> wp (consputc c) X Q s.
Proof.
  intros Hok HQ. unfold consputc. wsteps. rewrite (sc_alive _ Hok). cbn [Z.eqb negb]. wstep.
  assert (forall s', screen_ok s' -> inp s' = inp s -> wp (cgaputc c) X Q s') as Hk.
  { intros s' Hs' Hi. apply wp_cgaputc; [done|]. intros s2 H2 Hi2. apply HQ; [done|congruence]. }
  destruct (c =? BACKSPACE); [|by apply wp_uartputc].
  wstep. apply wp_uartputc; [done|]. intros s1 H1 Hi1. wstep. apply wp_uartputc; [done|]. intros s2 H2 Hi2.
  apply wp_uartputc; [done|]. intros s3 H3 Hi3. apply Hk; [done|congruence].
Qed.

Lemma wp_cputs l X (Q : unit -> console -> Prop) s :
  screen_ok s -> (forall s', screen_ok s' -> inp s' = inp s -> Q tt s') -> wp (cputs l) X Q s.
Proof.
  intros Hok HQ. apply (wp_for_each (fun _ s' => screen_ok s' /\ inp s' = inp s)).
  - done.
  - intros c r s1 [H1 Hi1]. apply wp_consputc; [done|]. intros s2 H2 Hi2. split; [done|congruence].
  - intros s1 [H1 Hi1]. by apply HQ.
Qed.

(** ** Numbers *)

(** The value of decimal digits, the last one first. *)
Definition decimal (l : list Z) : Z := foldr (fun d n => (d - 48) + 10 * n) 0 l.
Definition is_digit (c : Z) : Prop := 48 <= c <= 57.

Lemma digits_loop_spec alpha fuel x :
  (0 < fuel)%nat -> 0 <= x < 10 ^ Z.of_nat fuel ->
  exists l, digits_loop alpha fuel 10 x = Some l /\ decimal l = x /\ Forall is_digit l /\ l <> [].
Proof.
  revert x. induction fuel as [|fuel IH]; intros x Hf Hx; [lia|]. cbn [digits_loop].
  pose proof (Z.mod_pos_bound x 10 ltac:(lia)) as Hm. pose proof (Z.div_mod x 10 ltac:(lia)) as Hd.
  assert (digit alpha (x mod 10) = 48 + x mod 10) as -> by (unfold digit; destruct (Z.ltb_spec (x mod 10) 10); lia).
  assert (is_digit (48 + x mod 10)) by (unfold is_digit; lia).
  destruct (Z.eqb_spec (x / 10) 0) as [H0|H0].
  - eexists. split; [done|]. split; [cbn; lia|]. split; [by constructor|done].
  - rewrite Nat2Z.inj_succ, Z.pow_succ_r in Hx by lia.
    assert (0 < x / 10 < 10 ^ Z.of_nat fuel) as Hq.
    { split; [pose proof (Z.div_pos x 10); lia|apply Z.div_lt_upper_bound; lia]. }
    destruct fuel as [|fuel]; [cbn in Hq; lia|].
    destruct (IH (x / 10) ltac:(lia) ltac:(lia)) as (l & -> & Hv & Hl & _). cbn [fmap option_fmap option_map].
    eexists. split; [done|]. cbn [decimal foldr]. fold (decimal l). rewrite Hv. split; [lia|].
    split; [by constructor|done].
Qed.

Lemma i32_idem_step n c : i32 (i32 n * 10 + c - 48) = i32 (n * 10 + c - 48).
Proof.
  unfold i32. f_equal. pose proof (Z.div_mod (n + 2 ^ 31) (2 ^ 32) ltac:(lia)) as Hd.
  set (q := (n + 2 ^ 31) / 2 ^ 32) in *. set (r := (n + 2 ^ 31) mod 2 ^ 32) in *.
  replace ((r - 2 ^ 31) * 10 + c - 48 + 2 ^ 31) with (n * 10 + c - 48 + 2 ^ 31 + (- q * 10) * 2 ^ 32) by lia.
  by rewrite Z.mod_add by lia.
Qed.

(** [atoi] over a run of digits. *)
Lemma atoi_digits l s n :
  Forall is_digit l ->
  atoi_loop (rev l ++ s) (i32 n) = atoi_loop s (i32 (n * 10 ^ Z.of_nat (length l) + decimal l)).
Proof.
  revert s n. induction l as [|d l IH]; intros s n Hl; cbn [rev app length].
  - cbn [decimal foldr]. by rewrite Z.mul_1_r, Z.add_0_r.
  - apply Forall_cons in Hl as [Hd Hl]. rewrite <- app_assoc, IH by done. cbn [app atoi_loop].
    unfold is_digit in Hd. destruct (Z.leb_spec 48 d), (Z.leb_spec d 57); cbn [andb]; try lia.
    rewrite i32_idem_step, Nat2Z.inj_succ, Z.pow_succ_r by lia. cbn [decimal foldr]. fold (decimal l).
    do 2 f_equal. lia.
Qed.

(** Numbers are written so that [atoi] of the user library reads them
    back.  [printint] in base 10 writes, for every [int], a minus sign if it
    is negative, and then digits from which [atoi] computes its absolute
    value (as an [int], so that the smallest one is its own absolute
    value); the 16 bytes of its buffer are enough. *)
Theorem printint_atoi alpha xx :
  - 2 ^ 31 <= xx < 2 ^ 31 ->
  exists l, int_chars alpha xx 10 true = Some ((if xx <? 0 then [45] else []) ++ l) /\
    atoi (l ++ [0]) = Some (i32 (Z.abs xx)) /\ Forall is_digit l /\ (0 < length l)%nat.
Proof.
  intros Hx. unfold int_chars. cbn [andb].
  assert (u32 (if xx <? 0 then - xx else xx) = Z.abs xx) as ->.
  { destruct (Z.ltb_spec xx 0); rewrite u32_small; lia. }
  destruct (digits_loop_spec alpha 16 (Z.abs xx) ltac:(lia) ltac:(cbn; lia)) as (l & -> & Hv & Hl & Hne).
  exists (rev l). cbn [fmap option_fmap option_map]. split; [|split; [|split]].
  - rewrite rev_app_distr. by destruct (xx <? 0).
  - unfold atoi. change 0 with (i32 0) at 2. rewrite atoi_digits by done. cbn [atoi_loop]. rewrite Hv. done.
  - by apply Forall_rev.
  - rewrite length_rev. destruct l; [done|cbn; lia].
Qed.

Lemma printint_atoi_witness :
  exists l, int_chars 97 (-307) 10 true = Some ([45] ++ l) /\ atoi (l ++ [0]) = Some (i32 (Z.abs (-307))) /\
    Forall is_digit l /\ (0 < length l)%nat.
Proof. apply (printint_atoi 97 (-307)). lia. Defined.

(** ** The line editor *)

(** The characters that can be read, and the line that is being edited. *)
Definition pending (i : input) : Z := u32 (iw i - ir i).
Definition editing (i : input) : Z := u32 (ie i - iw i).
Definition ready (i : input) : list Z := ring INPUT_BUF (ibuf i) (ir i) (Z.to_nat (pending i)).
Definition line (i : input) : list Z := ring INPUT_BUF (ibuf i) (iw i) (Z.to_nat (editing i)).

Record input_ok (i : input) : Prop := {
  io_len : length (ibuf i) = Z.to_nat INPUT_BUF;
  io_range : is_uint (ir i) /\ is_uint (iw i) /\ is_uint (ie i);
  io_count : pending i + editing i <= INPUT_BUF;
  io_line : Forall (fun c => c <> NL) (line i)
}.

(** What a character does to the two. *)
Definition key_spec (c : Z) (st : list Z * list Z) : list Z * list Z :=
  let '(d, l) := st in
  if c =? ctl 80 then (d, l)
  else if c =? ctl 85 then (d, [])
  else if (c =? ctl 72) || (c =? DEL) then (d, take (length l - 1) l)
  else if negb (c =? 0) && (Z.of_nat (length d + length l) <? INPUT_BUF) then
    let c := if c =? CR then NL else c in
    if (c =? NL) || (c =? ctl 68) || (Z.of_nat (length d + length l) + 1 =? INPUT_BUF) then (d ++ l ++ [c], [])
    else (d, l ++ [c])
  else (d, l).

Lemma length_ready i : Z.of_nat (length (ready i)) = pending i.
Proof. unfold ready. rewrite length_ring. pose proof (u32_range (iw i - ir i)). unfold pending. lia. Qed.
Lemma length_line i : Z.of_nat (length (line i)) = editing i.
Proof. unfold line. rewrite length_ring. pose proof (u32_range (ie i - iw i)). unfold editing. lia. Qed.

Lemma pending_editing i : input_ok i -> u32 (ie i - ir i) = pending i + editing i.
Proof.
  intros Hok. pose proof (io_count _ Hok) as Hc. unfold pending, editing, INPUT_BUF in *.
  pose proof (u32_range (iw i - ir i)). pose proof (u32_range (ie i - iw i)).
  rewrite <- (u32_small (u32 (iw i - ir i) + u32 (ie i - iw i))) by lia.
  rewrite u32_add_l, u32_add_r. f_equal. lia.
Qed.

Lemma u32_sub_0 a b : is_uint a -> is_uint b -> u32 (a - b) = 0 <-> a = b.
Proof.
  unfold is_uint, u32. intros Ha Hb. split; [|intros ->; by rewrite Z.sub_diag].
  intros H%Z.mod_divide; [|lia]. destruct H as [k Hk]. nia.
Qed.

Lemma editing_zero i : input_ok i -> ie i = iw i <-> line i = [].
Proof.
  intros Hok. destruct (io_range _ Hok) as (_ & Hw & He). rewrite <- (u32_sub_0 _ _ He Hw).
  change (u32 (ie i - iw i)) with (editing i). rewrite <- length_zero_iff_nil. pose proof (length_line i). lia.
Qed.

Lemma cell_input a b : u32 a = u32 b -> cell INPUT_BUF a = cell INPUT_BUF b.
Proof.
  intros H. rewrite <- (cell_u32 INPUT_BUF eq_refl eq_refl a), <- (cell_u32 INPUT_BUF eq_refl eq_refl b). by rewrite H.
Qed.

Lemma editing_erase i : input_ok i -> ie i <> iw i -> editing (erase i) = editing i - 1 /\ 0 < editing i.
Proof.
  intros Hok Hne. destruct (io_range _ Hok) as (_ & Hw & He). pose proof (u32_range (ie i - iw i)) as Hr.
  assert (editing i <> 0) as H0 by (unfold editing; by rewrite u32_sub_0). unfold editing in *.
  split; [|lia]. unfold erase. cbn. rewrite u32_sub_l.
  replace (ie i - 1 - iw i) with (ie i - iw i - 1) by lia. rewrite <- u32_sub_l. apply u32_small. lia.
Qed.

Lemma line_erase i :
  input_ok i -> ie i <> iw i ->
  line (erase i) = take (length (line i) - 1) (line i) /\ line i = line (erase i) ++ [last_typed i].
Proof.
  intros Hok Hne. destruct (editing_erase i Hok Hne) as [He Hp]. pose proof (length_line i) as Hl.
  assert (line (erase i) = take (length (line i) - 1) (line i)) as Ht.
  { unfold line at 1 3. cbn [ibuf iw erase setter]. rewrite ring_take by lia. f_equal. lia. }
  split; [done|]. rewrite Ht. unfold line at 1 3.
  replace (Z.to_nat (editing i)) with (Z.to_nat (editing i) - 1 + 1)%nat at 1 by lia.
  rewrite ring_app, ring_take by lia. f_equal; [f_equal; lia|]. cbn [ring]. f_equal.
  unfold last_typed. f_equal. apply cell_input. rewrite u32_idemp.
  replace (iw i + Z.of_nat (Z.to_nat (editing i) - 1)) with (iw i + editing i - 1) by lia.
  rewrite <- u32_sub_l. unfold editing. rewrite u32_add_r, u32_sub_l. f_equal. lia.
Qed.

Lemma input_ok_erase i : input_ok i -> ie i <> iw i -> input_ok (erase i).
Proof.
  intros Hok Hne. destruct (editing_erase i Hok Hne) as [He _]. destruct (line_erase i Hok Hne) as [Hl _].
  destruct Hok as [H1 (Hr & Hw & Hi) H3 H4]. split; [done|..].
  - split; [done|]. split; [done|apply u32_range].
  - change (pending (erase i)) with (pending i). lia.
  - rewrite Hl. by apply Forall_take.
Qed.

Lemma type_char_spec c i :
  input_ok i -> u32 (ie i - ir i) < INPUT_BUF -> 0 <= c < 256 ->
  ready (type_char c i) = ready i /\ line (type_char c i) = line i ++ [c] /\
  editing (type_char c i) = editing i + 1.
Proof.
  intros Hok Hlt Hc. rewrite (pending_editing i Hok) in Hlt.
  pose proof (length_ready i) as Hlr. pose proof (length_line i) as Hll.
  pose proof (u32_range (iw i - ir i)) as Hp. pose proof (u32_range (ie i - iw i)) as He.
  fold (pending i) in Hp. fold (editing i) in He. unfold INPUT_BUF in Hlt.
  assert (u8 c = c) as Hu by (unfold u8; apply Z.mod_small; lia).
  assert (editing (type_char c i) = editing i + 1) as Hed.
  { unfold editing at 1, type_char. cbn. rewrite u32_sub_l.
    replace (ie i + 1 - iw i) with (ie i - iw i + 1) by lia. rewrite <- u32_add_l. apply u32_small.
    fold (editing i). lia. }
  assert (cell INPUT_BUF (ie i) = cell INPUT_BUF (iw i + Z.of_nat (Z.to_nat (editing i)))) as Hce.
  { apply cell_input. rewrite Z2Nat.id by lia. unfold editing. rewrite u32_add_r. f_equal. lia. }
  split; [|split; [|done]].
  - unfold ready, type_char, setter. cbn. apply ring_insert. intros k Hk.
    rewrite (cell_input (ie i) (ir i + (pending i + editing i))); [apply cell_ne; unfold INPUT_BUF; lia|].
    rewrite <- (pending_editing i Hok), u32_add_r. f_equal. lia.
  - unfold line. rewrite Hed. replace (Z.to_nat (editing i + 1)) with (S (Z.to_nat (editing i))) by lia.
    unfold type_char, setter. cbn [ibuf iw]. rewrite Hce, Hu. apply ring_snoc; [done|apply (io_len _ Hok)|].
    unfold INPUT_BUF. lia.
Qed.

Lemma input_ok_type c i :
  input_ok i -> u32 (ie i - ir i) < INPUT_BUF -> 0 <= c < 256 -> c <> NL -> input_ok (type_char c i).
Proof.
  intros Hok Hlt Hc Hne. destruct (type_char_spec c i Hok Hlt Hc) as (_ & Hl & He).
  rewrite (pending_editing i Hok) in Hlt. destruct Hok as [H1 (Hr & Hw & Hi) H3 H4]. split.
  - unfold type_char, setter. cbn. by rewrite length_insert.
  - split; [done|]. split; [done|apply u32_range].
  - change (pending (type_char c i)) with (pending i). lia.
  - rewrite Hl. apply Forall_app. split; [done|]. by repeat constructor.
Qed.

(** [input.w = input.e] *)
Definition commit_line (i : input) : input := i <| iw := ie i |>.

Lemma commit_line_spec c i :
  input_ok i -> u32 (ie i - ir i) < INPUT_BUF -> 0 <= c < 256 ->
  let i' := commit_line (type_char c i) in
  input_ok i' /\ ready i' = ready i ++ line i ++ [c] /\ line i' = [].
Proof.
  intros Hok Hlt Hc i'. destruct (type_char_spec c i Hok Hlt Hc) as (Hr & Hl & He).
  rewrite (pending_editing i Hok) in Hlt.
  pose proof (u32_range (iw i - ir i)) as Hp. pose proof (u32_range (ie i - iw i)) as He0.
  fold (pending i) in Hp. fold (editing i) in He0. unfold INPUT_BUF in Hlt.
  assert (editing i' = 0) as He'. { unfold editing, i', commit_line, setter. cbn. by rewrite Z.sub_diag. }
  assert (pending i' = pending i + editing i + 1) as Hp'.
  { unfold pending at 1, i', commit_line, type_char, setter. cbn. rewrite u32_sub_l.
    replace (ie i + 1 - ir i) with (ie i - ir i + 1) by lia.
    rewrite <- u32_add_l, (pending_editing i Hok). apply u32_small. lia. }
  assert (line i' = []) as Hli by (unfold line; by rewrite He').
  split; [|split; [|done]].
  - destruct Hok as [H1 (Hr1 & Hw & Hi) H3 H4]. split.
    + unfold i', commit_line, type_char, setter. cbn. by rewrite length_insert.
    + split; [done|]. split; apply u32_range.
    + rewrite Hp', He'. unfold INPUT_BUF. lia.
    + by rewrite Hli.
  - rewrite <- Hl, <- Hr. unfold ready at 1. rewrite Hp'.
    replace (Z.to_nat (pending i + editing i + 1)) with (Z.to_nat (pending i) + Z.to_nat (editing i + 1))%nat by lia.
    rewrite ring_app. f_equal. unfold line. rewrite He. unfold i', commit_line, type_char, setter. cbn [ibuf ir iw].
    apply ring_cell. intros k Hk. apply cell_input. rewrite Z2Nat.id by lia.
    rewrite <- Z.add_assoc, (Z.add_comm (pending i)), Z.add_assoc. unfold pending. rewrite u32_add_r. f_equal. lia.
Qed.

Definition cons_ok (s : console) : Prop := screen_ok s /\ input_ok (inp s).
Definition chars_of (s : console) : list Z * list Z := (ready (inp s), line (inp s)).

Lemma cons_ok_input f s : screen_ok s -> input_ok (f (inp s)) -> cons_ok (s <| inp ::= f |>).
Proof. intros [H1 H2 H3 H4] Hi. split; [by split|done]. Qed.

Lemma wp_kill_line X (Q : unit -> console -> Prop) s :
  cons_ok s -> (forall s', cons_ok s' -> chars_of s' = (ready (inp s), []) -> Q tt s') ->
  wp kill_line X Q s.
Proof.
  intros [Hs Hi] HQ. unfold kill_line. wsteps.
  apply (wp_loop (fun _ s' => cons_ok s' /\ ready (inp s') = ready (inp s))
                 (fun _ s' => Z.to_nat (editing (inp s')))); [done|unfold editing; lia|].
  intros _ s1 [[Hs1 Hi1] Hr1]. wsteps. destruct (Z.eqb_spec (ie (inp s1)) (iw (inp s1))) as [Heq|Hne]; cbn [negb andb].
  - wsteps. apply HQ; [done|]. unfold chars_of. rewrite Hr1. f_equal. by apply editing_zero.
  - destruct (line_erase _ Hi1 Hne) as [_ Hl]. destruct (Z.eqb_spec (last_typed (inp s1)) NL) as [Hnl|Hnl]; cbn [negb].
    + exfalso. pose proof (io_line _ Hi1) as Hf. rewrite Hl, Forall_app in Hf. destruct Hf as [_ Hf].
      by apply Forall_cons in Hf as [Hf _].
    + unfold mod_input. wsteps. apply wp_consputc; [by destruct Hs1|]. intros s2 Hs2 Hi2. wsteps.
      cbn in Hi2. rewrite Hi2. destruct (editing_erase _ Hi1 Hne). split; [split|lia].
      * split; [done|]. rewrite Hi2. by apply input_ok_erase.
      * exact Hr1.
Qed.

Lemma wp_backspace X (Q : unit -> console -> Prop) s :
  cons_ok s ->
  (forall s', cons_ok s' -> chars_of s' = (ready (inp s), take (length (line (inp s)) - 1) (line (inp s))) -> Q tt s') ->
  wp backspace X Q s.
Proof.
  intros [Hs Hi] HQ. unfold backspace. wsteps.
  destruct (Z.eqb_spec (ie (inp s)) (iw (inp s))) as [Heq|Hne]; cbn [negb].
  - wsteps. apply HQ; [done|]. unfold chars_of. apply editing_zero in Heq as ->; done.
  - unfold mod_input. wsteps. apply wp_consputc; [by destruct Hs|]. cbn. intros s2 Hs2 Hi2.
    destruct (line_erase _ Hi Hne) as [Hl _]. apply HQ.
    + split; [done|]. rewrite Hi2. by apply input_ok_erase.
    + unfold chars_of. rewrite Hi2, Hl. done.
Qed.

(** The test for a full buffer after a character was added. *)
Lemma full_after c i :
  input_ok i -> u32 (ie i - ir i) < INPUT_BUF -> 0 <= c < 256 ->
  (ie (type_char c i) =? u32 (ir (type_char c i) + INPUT_BUF)) =
  (Z.of_nat (length (ready i) + length (line i)) + 1 =? INPUT_BUF).
Proof.
  intros Hok Hlt Hc. rewrite Nat2Z.inj_add, length_ready, length_line. rewrite <- (pending_editing i Hok).
  destruct (io_range _ Hok) as (Hr & _ & He). pose proof (u32_range (ie i - ir i)) as Hd.
  unfold type_char, setter. cbn.
  assert (u32 (ie i + 1) = u32 (ir i + INPUT_BUF) <-> u32 (ie i - ir i) + 1 = INPUT_BUF) as Hiff.
  { unfold INPUT_BUF in *. split; intros Heq.
    - assert (u32 (u32 (ie i + 1) - (ir i + 1)) = u32 (u32 (ir i + 128) - (ir i + 1))) as H by by rewrite Heq.
      rewrite !u32_sub_l in H. replace (ie i + 1 - (ir i + 1)) with (ie i - ir i) in H by lia.
      replace (ir i + 128 - (ir i + 1)) with 127 in H by lia. rewrite H. reflexivity.
    - replace (ie i + 1) with (ir i + (ie i - ir i + 1)) by lia. rewrite <- u32_add_r. f_equal. f_equal.
      rewrite <- u32_add_l, Heq. reflexivity. }
  destruct (Z.eqb_spec (u32 (ie i + 1)) (u32 (ir i + INPUT_BUF))), (Z.eqb_spec (u32 (ie i - ir i) + 1) INPUT_BUF); tauto.
Qed.

Lemma wp_type_key c X (Q : bool -> console -> Prop) s :
  cons_ok s -> 0 <= c < 256 -> c <> ctl 80 -> c <> ctl 85 -> c <> ctl 72 -> c <> DEL ->
  (forall w s', cons_ok s' -> chars_of s' = key_spec c (chars_of s) ->
     (w = false -> ready (inp s') = ready (inp s)) -> Q w s') ->
  wp (type_key c) X Q s.
Proof.
  intros [Hs Hi] Hc H1 H2 H3 H4 HQ. unfold type_key. wsteps.
  pose proof (pending_editing _ Hi) as Hpe. pose proof (length_ready (inp s)). pose proof (length_line (inp s)).
  assert (Hks : key_spec c (chars_of s) = if negb (c =? 0) && (u32 (ie (inp s) - ir (inp s)) <? INPUT_BUF) then
    let c := if c =? CR then NL else c in
    if (c =? NL) || (c =? ctl 68) || (Z.of_nat (length (ready (inp s)) + length (line (inp s))) + 1 =? INPUT_BUF)
    then (ready (inp s) ++ line (inp s) ++ [c], []) else (ready (inp s), line (inp s) ++ [c])
    else chars_of s).
  { unfold key_spec, chars_of. rewrite !(proj2 (Z.eqb_neq _ _)) by done. cbn [orb].
    replace (Z.of_nat (length (ready (inp s)) + length (line (inp s)))) with (u32 (ie (inp s) - ir (inp s))) by lia. done. }
  destruct (negb (c =? 0) && _) eqn:Hb; [|wsteps; apply HQ; by rewrite ?Hks].
  apply andb_prop in Hb as [_ Hlt%Z.ltb_lt]. cbv zeta in Hks |- *. set (c' := if c =? CR then NL else c) in *.
  assert (0 <= c' < 256) as Hc' by (unfold c', NL; destruct (c =? CR); lia).
  destruct (type_char_spec c' _ Hi Hlt Hc') as (Hr & Hl & _). pose proof (full_after c' _ Hi Hlt Hc') as Hfull.
  unfold mod_input. wsteps. apply wp_consputc; [by destruct Hs|]. cbn. intros s2 Hs2 Hi2. wsteps. rewrite Hi2, Hfull.
  destruct ((c' =? NL) || (c' =? ctl 68) || _) eqn:Hd; wsteps; apply HQ; try done.
  - apply cons_ok_input; [done|]. rewrite Hi2. by apply commit_line_spec.
  - rewrite Hks. unfold chars_of. cbn. rewrite Hi2.
    destruct (commit_line_spec c' _ Hi Hlt Hc') as (_ & Hr' & Hl'). unfold commit_line in *. by rewrite Hr', Hl'.
  - split; [done|]. rewrite Hi2. apply input_ok_type; try done. intros ->. done.
  - rewrite Hks. unfold chars_of. by rewrite Hi2, Hr, Hl.
  - intros _. by rewrite Hi2.
Qed.

Lemma wp_key c X (Q : keyact -> console -> Prop) s :
  cons_ok s -> 0 <= c < 256 ->
  (forall a s', cons_ok s' -> chars_of s' = key_spec c (chars_of s) ->
     (a <> Wake -> ready (inp s') = ready (inp s)) -> Q a s') ->
  wp (key c) X Q s.
Proof.
  intros Hok Hc HQ. unfold key.
  destruct (Z.eqb_spec c (ctl 80)) as [H1|H1].
  { wsteps. apply HQ; [done| |done]. unfold key_spec. destruct (chars_of s). by rewrite (proj2 (Z.eqb_eq _ _) H1). }
  destruct (Z.eqb_spec c (ctl 85)) as [H2|H2].
  { wsteps. apply wp_kill_line; [done|]. intros s1 H3 H4. wsteps. apply HQ; [done| |by injection H4].
    rewrite H4, H2. done. }
  destruct ((c =? ctl 72) || (c =? DEL)) eqn:Hb.
  { wsteps. apply wp_backspace; [done|]. intros s1 H3 H4. wsteps. apply HQ; [done| |by injection H4].
    rewrite H4. unfold key_spec, chars_of. rewrite Hb, !(proj2 (Z.eqb_neq _ _)) by done. done. }
  apply orb_false_elim in Hb as [H3%Z.eqb_neq H4%Z.eqb_neq]. wsteps.
  apply wp_type_key; try done. intros w s' Hs' Hk Hw. wsteps. apply HQ; [done..|]. destruct w; [done|]. auto.
Qed.

(** [input.r++] *)
Definition advance (i : input) : input := i <| ir := u32 (ir i + 1) |>.

Lemma advance_spec i :
  input_ok i -> ir i <> iw i ->
  input_ok (advance i) /\ line (advance i) = line i /\
  ready i = byte_at (ibuf i) (cell INPUT_BUF (ir i)) :: ready (advance i).
Proof.
  intros Hok Hne. destruct Hok as [H1 (Hr & Hw & He) H3 H4].
  assert (pending i <> 0) as H0 by (unfold pending; rewrite u32_sub_0 by done; congruence).
  pose proof (u32_range (iw i - ir i)) as Hp. fold (pending i) in Hp.
  assert (pending (advance i) = pending i - 1) as Hpa.
  { unfold pending, advance, setter in *. cbn. rewrite u32_sub_r.
    replace (iw i - (ir i + 1)) with (iw i - ir i - 1) by lia. rewrite <- u32_sub_l. apply u32_small. lia. }
  split; [|split; [done|]].
  - split; [done|..|done].
    + split; [apply u32_range|done].
    + change (editing (advance i)) with (editing i). lia.
  - unfold ready. rewrite Hpa. replace (Z.to_nat (pending i)) with (S (Z.to_nat (pending i - 1))) by lia.
    cbn [ring]. f_equal. unfold advance, setter. cbn. symmetry. by apply ring_u32.
Qed.

Lemma ready_nil i : input_ok i -> ir i = iw i <-> ready i = [].
Proof.
  intros Hok. destruct (io_range _ Hok) as (Hr & Hw & _). rewrite <- length_zero_iff_nil.
  pose proof (length_ready i) as Hl. unfold pending in Hl. pose proof (u32_sub_0 _ _ Hw Hr). split; intros Heq.
  - assert (u32 (iw i - ir i) = 0) by (by apply u32_sub_0). lia.
  - symmetry. apply u32_sub_0; [done..|]. lia.
Qed.

(** ** The interrupt and [consoleread] *)

(** What [consoleread] returns without sleeping, and what it leaves. *)
Fixpoint read_line (n : nat) (first : bool) (d : list Z) : option (list Z * list Z) :=
  match n, d with
  | O, _ => Some ([], d)
  | S _, [] => None
  | S n, c :: d =>
      if c =? ctl 68 then Some ([], if first then d else c :: d)
      else if c =? NL then Some ([c], d)
      else prod_map (cons c) id <$> read_line n false d
  end.

Section kernel.
Context {S E : Type} `{KernOps S E} `{Sub E console} `{!KernLaws S console}.

Lemma wp_consoleintr typed s t X (Q : bool -> S -> Prop) :
  at_ s [] t -> cons_ok t -> Forall is_byte typed ->
  (forall r s' t', at_ s' [] t' -> cons_ok t' -> chars_of t' = foldl (fun st c => key_spec c st) (chars_of t) typed ->
     Q r s') ->
  wp (consoleintr typed) X Q s.
Proof.
  intros Hat Hok Hty HQ. unfold consoleintr. mstep. mstep. mstep.
  apply (wp_loop (fun '(l, _) s1 => exists t1, at_ s1 [cons_lock] t1 /\ cons_ok t1 /\ Forall is_byte l /\
      foldl (fun st c => key_spec c st) (chars_of t1) l = foldl (fun st c => key_spec c st) (chars_of t) typed)
    (fun '(l, _) _ => length l)); [by exists t|lia|].
  intros [l d] s1 (t1 & Hat1 & Hok1 & Hl & Hf). destruct l as [|c l].
  - mstep. mstep. mstep. mstep. apply (HQ _ _ t1); [done..|]. exact Hf.
  - apply Forall_cons in Hl as [Hc Hl]. mstep. eapply wp_own; [done|]. apply wp_key; [done|done|].
    intros a t2 Hok2 Hk _ s2 Hat2. mstep.
    assert (forall s3, at_ s3 [cons_lock] t2 -> wp (ret (inl (l, match a with Dump => true | _ => d end))) X
      (fun r s' => match r with
                   | inl x' => let '(l0, _) := x' in (exists t1, at_ s' [cons_lock] t1 /\ cons_ok t1 /\ Forall is_byte l0 /\
                       foldl (fun st c => key_spec c st) (chars_of t1) l0 = foldl (fun st c => key_spec c st) (chars_of t) typed)
                       /\ (length l0 < length (c :: l))%nat
                   | inr b => wp (k_release cons_lock ;;; ret b) X Q s'
                   end) s3) as Hk'.
    { intros s3 Hat3. mstep. split; [|cbn; lia]. exists t2. do 3 (split; [done|]). by rewrite Hk. }
    destruct a; [by mstep; apply Hk'| |by mstep; apply Hk'].
    eapply wp_wake; [done| |done]. unfold no_proc_locks. split; set_solver.
Qed.

Lemma wp_cons_copy n s L t l d X (Q : bool * list Z -> S -> Prop) :
  at_ s L t -> cons_ok t -> read_line (Z.to_nat n) true (ready (inp t)) = Some (l, d) ->
  (forall s' t', at_ s' L t' -> cons_ok t' -> chars_of t' = (d, line (inp t)) -> Q (true, l) s') ->
  wp (cons_copy n) X Q s.
Proof.
  intros Hat Hok Hrd HQ. unfold cons_copy.
  apply (wp_loop (fun '(n, dst) s1 => exists t1 l1, at_ s1 L t1 /\ cons_ok t1 /\ line (inp t1) = line (inp t) /\
      read_line (Z.to_nat n) (bool_decide (dst = [])) (ready (inp t1)) = Some (l1, d) /\ l = dst ++ l1)
    (fun '(n, _) _ => Z.to_nat n)); [by exists t, l|lia|].
  intros [n1 dst] s1 (t1 & l1 & Hat1 & Hok1 & Hl1 & Hr1 & Hd1).
  destruct (Z.ltb_spec 0 n1).
  2:{ mstep. replace (Z.to_nat n1) with 0%nat in Hr1 by lia. cbn in Hr1. simplify_eq. rewrite app_nil_r in HQ.
      apply (HQ _ t1); [done..|]. unfold chars_of. by rewrite Hl1. }
  replace (Z.to_nat n1) with (Datatypes.S (Z.to_nat (n1 - 1))) in * by lia. mstep. mstep.
  destruct Hok1 as [Hs1 Hi1]. pose proof (ready_nil _ Hi1) as Hnil.
  destruct (Z.eqb_spec (ir (inp t1)) (iw (inp t1))) as [Heq|Hne].
  { apply Hnil in Heq. by rewrite Heq in Hr1. }
  destruct (advance_spec _ Hi1 Hne) as (Hia & Hla & Hra). cbv zeta. rewrite Hra in Hr1. cbn [read_line] in Hr1.
  assert (cons_ok (t1 <| inp ::= advance |>)) as Hoka by by apply cons_ok_input.
  destruct (_ =? ctl 68).
  - simplify_eq. rewrite app_nil_r in HQ. mstep. destruct dst as [|c dst]; cbn.
    + eapply wp_own; [done|]. unfold mod_input. wsteps. intros s2 Hat2. mstep.
      apply (HQ _ (t1 <| inp ::= advance |>)); [done|done|]. unfold chars_of. cbn. by rewrite Hla, Hl1.
    + mstep. mstep. apply (HQ _ t1); [done|by split|]. unfold chars_of. rewrite Hl1, Hra. done.
  - mstep. eapply wp_own; [done|]. unfold mod_input. wsteps. intros s2 Hat2. mstep.
    set (ch := byte_at (ibuf (inp t1)) (cell INPUT_BUF (ir (inp t1)))) in *. destruct (ch =? NL).
    + simplify_eq. apply (HQ _ (t1 <| inp ::= advance |>)); [done|done|]. unfold chars_of. cbn. by rewrite Hla, Hl1.
    + destruct (read_line _ false _) as [[l2 d2]|] eqn:Hr2; [|done]. cbn in Hr1. simplify_eq. split; [|lia].
      exists (t1 <| inp ::= advance |>), l2. split; [done|]. split; [done|].
      split; [cbn; by rewrite Hla|]. split; [|by rewrite <- app_assoc]. rewrite bool_decide_false; [done|].
      by intros [_ Hd]%app_eq_nil.
Qed.

(** C38: The ring of typed characters is a line editor.  [consoleintr] returns
    for every sequence of bytes, and on the characters that can be read and
    the line that is being edited it does what [key_spec] says of each byte:
    control-U drops the line, backspace its last character, a newline,
    control-D or a full buffer releases it to the readers; nothing else
    changes what can be read, also when the counters wrap around; and the
    echo never runs off the screen. *)
Theorem console_line_editor s t typed :
  at_ s [] t -> cons_ok t -> Forall is_byte typed ->
  wp (consoleintr typed) never (fun _ s' => exists t', at_ s' [] t' /\ cons_ok t' /\
    chars_of t' = foldl (fun st c => key_spec c st) (chars_of t) typed) s.
Proof using Type*. intros Hat Hok Hty. eapply wp_consoleintr; [done..|]. intros r s' t' H1 H2 H3. by exists t'. Qed.

End kernel.

(** Console output stays on the screen.  Whatever bytes are written, from
    a cursor in the first 24 rows [consputc] does not panic, keeps the cursor
    there and never leaves the 25 rows of the screen memory. *)
Theorem console_output_safe l s :
  screen_ok s -> wp (cputs l) never (fun _ s' => screen_ok s' /\ inp s' = inp s) s.
Proof. intros Hs. by apply wp_cputs. Qed.

Lemma small_con_ok : cons_ok small_con.
Proof.
  split; [by split|]. split; [done| |done|done]. cbn. unfold is_uint. lia.
Qed.

Lemma console_output_safe_witness :
  wp (cputs (replicate 100 65)) never (fun _ s' => screen_ok s' /\ inp s' = inp small_con) small_con.
Proof. apply (console_output_safe (replicate 100 65) small_con). apply small_con_ok. Defined.

(** The characters of "a", control-H and "b", and a newline. *)
Definition typed_line : list Z := [97; 8; 98; 10].

Lemma console_line_editor_witness :
  wp (consoleintr typed_line) never (fun _ s' => exists t', at_ (H0 := sub_laws small_env) s' [] t' /\ cons_ok t' /\
    chars_of t' = foldl (fun st c => key_spec c st) (chars_of small_con) typed_line) (small small_env).
Proof.
  apply (console_line_editor (KernLaws0 := sub_laws small_env) (small small_env) small_con typed_line).
  - exact (sub_at (T := console) (small small_env) [] small_env (small_at _)).
  - apply small_con_ok.
  - unfold typed_line, is_byte. repeat constructor; lia.
Defined.

Definition one_line : console := small_con <| inp := mkinput ([98; 10] ++ replicate 126 0) 0 2 2 |>.

