(* ===== verification/Dump.v ===== *)
(** * What the kernel prints about itself ([panic] of [console.c],
    [getcallerpcs] of [spinlock.c], [procdump] of [proc.c])

    [rendered] is the text of a format with its arguments; [cprintf] sends
    exactly that text.  With it: the message of a panic, after which the
    console is dead on every CPU, and the list of processes. *)
From Stdlib Require Import ZArith Lia.
From stdpp Require Import base list gmap strings.
From S2P Require Import Prelude Params Mmu Bytes Cstring Ring Spinlock Proc Sched SchedInv Kern Sleeplock FsData Bio Log Fs Demo Console Env ConsoleThms.
#[local] Open Scope Z_scope.
#[local] Open Scope kernel_scope.

(** ** The code *)

(** The loop over the frames: the words at [ebp] are the caller's [ebp] and
    the return address. *)
Fixpoint frames (word : Z -> Z) (n : nat) (ebp : Z) : list Z :=
  match n with
  | O => []
  | S n =>
      if (ebp =? 0) || (ebp <? KERNBASE) || (ebp =? 0xffffffff) then []
      else word (u32 (ebp + 4)) :: frames word n (word ebp)
  end.

(** The ten words of [pcs]; [v] is the address of the first argument. *)
Definition getcallerpcs (word : Z -> Z) (v : Z) : list Z :=
  let l := frames word 10 (u32 (v - 8)) in
  l ++ replicate (10 - length l) 0.

Section dump.
Context {E : Type} `{Sub E console} (word : Z -> Z).
Abbreviation K := (kstate E).

(** [panic] up to its endless loop; [v] is where its argument lies. *)
Definition panic_code (s : list Z) (v : Z) : M K unit :=
  on_mach cli ;;;
  on_cons (modify (fun c => c <| locking := 0 |>)) ;;;
  id <~ gets (fun k => lapicid (mach k));
  cprintf (text "lapicid %d: panic: ") [AInt id] ;;;
  cprintf s [] ;;;
  cprintf [NL] [] ;;;
  for_each (getcallerpcs word v) (fun pc => cprintf (text " %p") [AInt pc]) ;;;
  on_cons (modify (fun c => c <| panicked := 1 |>)).

(** [states[p->state]] *)
Definition state_name (s : procstate) : list Z :=
  match s with
  | UNUSED => text "unused" | EMBRYO => text "embryo" | SLEEPING => text "sleep "
  | RUNNABLE => text "runble" | RUNNING => text "run   " | ZOMBIE => text "zombie"
  end.

Definition procdump : M K unit :=
  for_each slots (fun i =>
    p <~ proc_at i;
    if decide (state p = UNUSED) then ret tt
    else
      n <~ of_option (Undef "name") (str_of (name p));
      cprintf (text "%d %s %s level%d") [AInt (pid p); AStr (Some (state_name (state p))); AStr (Some n); AInt (level p)] ;;;
      (if decide (state p = SLEEPING) then
         for_until (getcallerpcs word (u32 (c_ebp (ctx p) + 8))) (fun pc =>
           if pc =? 0 then ret (Some tt) else cprintf (text " %p") [AInt pc] ;;; ret None) ;;;
         ret tt
       else ret tt) ;;;
      cprintf [NL] []).
End dump.

(** ** The text of a format *)

Definition conversion (c : Z) (args : list parg) : option (list Z * list parg) :=
  if c =? 100 then
    match args with AInt v :: args => (fun l => (l, args)) <$> int_chars 97 (i32 v) 10 true | _ => None end
  else if (c =? 120) || (c =? 112) then
    match args with AInt v :: args => (fun l => (l, args)) <$> int_chars 97 (i32 v) 16 false | _ => None end
  else if c =? 115 then
    match args with AStr s :: args => Some (default null_str s, args) | _ => None end
  else if c =? 37 then Some ([37], args)
  else Some ([37; c], args).

Fixpoint rendered (fmt : list Z) (args : list parg) : option (list Z) :=
  match fmt with
  | [] => Some []
  | c :: fmt =>
      if c =? 37 then
        match fmt with
        | [] => Some []
        | c :: fmt => x ← conversion c args; app x.1 <$> rendered fmt x.2
        end
      else cons c <$> rendered fmt args
  end.

(** [l] went to the serial port, if there is one. *)
Record printed (l : list Z) (s s' : console) : Prop := {
  pr_screen : screen_ok s';
  pr_same : inp s' = inp s /\ uart s' = uart s /\ locking s' = locking s;
  pr_serial : serial s' = serial s ++ if uart s then map u8 l else []
}.

Implicit Types (X : stop -> Prop) (s : console).

Lemma printed_nil s : screen_ok s -> printed [] s s.
Proof. intros Hs. split; [done|done|]. destruct (uart s); by rewrite app_nil_r. Qed.

Lemma printed_app l1 l2 s s1 s2 : printed l1 s s1 -> printed l2 s1 s2 -> printed (l1 ++ l2) s s2.
Proof.
  intros [_ (Hi & Hu & Hl) Hs] [Ho' (Hi' & Hu' & Hl') Hs']. split; [done|intuition congruence|].
  rewrite Hs', Hs, Hu. destruct (uart s); [by rewrite map_app, app_assoc|by rewrite !app_nil_r].
Qed.

(** No character of a text is the code for erasing one. *)
#[local] Abbreviation plain l := (Forall (fun c => c <> BACKSPACE) l).

Lemma pr_consputc c X (Q : unit -> console -> Prop) s :
  screen_ok s -> c <> BACKSPACE -> (forall s', printed [c] s s' -> Q tt s') -> wp (consputc c) X Q s.
Proof.
  intros Hs Hc HQ. unfold consputc. wsteps. rewrite (sc_alive _ Hs). cbn [Z.eqb negb]. destruct (Z.eqb_spec c BACKSPACE); [done|].
  wsteps. unfold uartputc. wsteps. destruct (uart s) eqn:Hu; wsteps.
  - apply wp_cgaputc_at; [by destruct Hs|]. intros pos l Hs'. apply HQ. split; [done|done|]. cbn. by rewrite Hu.
  - apply wp_cgaputc_at; [done|]. intros pos l Hs'. apply HQ. split; [done|done|]. cbn. by rewrite Hu, app_nil_r.
Qed.

Lemma pr_cputs l X (Q : unit -> console -> Prop) s :
  screen_ok s -> plain l -> (forall s', printed l s s' -> Q tt s') -> wp (cputs l) X Q s.
Proof.
  intros Hs Hl. revert s Hs Q. induction Hl as [|c l Hc Hl IH]; intros s Hs Q HQ; [by apply HQ, printed_nil|].
  apply wp_bind, pr_consputc; [done..|]. intros s1 H1. apply IH; [apply H1|]. intros s2 H2. apply HQ.
  exact (printed_app [c] l _ _ _ H1 H2).
Qed.

Lemma pr_convert c args l args' X (Q : list parg -> console -> Prop) s :
  conversion c args = Some (l, args') -> screen_ok s -> plain l -> (forall s', printed l s s' -> Q args' s') -> wp (convert c args) X Q s.
Proof.
  intros Hc Hs Hl HQ. unfold conversion in Hc. unfold convert.
  destruct (c =? 100); [|destruct ((c =? 120) || (c =? 112))].
  1-2: destruct args as [|[v|] args]; [done| |done]; apply fmap_Some in Hc as (l' & Hi & [= <- <-]); apply wp_bind; unfold printint;
    apply wp_bind; eapply wp_some; [exact Hi|]; apply pr_cputs; [done..|]; intros s' H'; by apply wp_ret, HQ.
  destruct (c =? 115); [|destruct (c =? 37)].
  - destruct args as [|[|t] args]; [done|done|]. injection Hc as <- <-. apply wp_bind, pr_cputs; [done..|]. intros s' H'. by apply wp_ret, HQ.
  - injection Hc as <- <-. apply Forall_cons in Hl as [Hl _]. apply wp_bind, pr_consputc; [done..|]. intros s' H'. by apply wp_ret, HQ.
  - injection Hc as <- <-. apply Forall_cons in Hl as [H1 [H2 _]%Forall_cons]. apply wp_bind, pr_consputc; [done..|]. intros s1 P1.
    apply wp_bind, pr_consputc; [apply P1|exact H2|]. intros s2 P2. apply wp_ret, HQ. exact (printed_app [37] [c] _ _ _ P1 P2).
Qed.

Lemma pr_format n fmt args l X (Q : unit -> console -> Prop) s :
  (length fmt <= n)%nat -> rendered fmt args = Some l -> screen_ok s -> plain l -> (forall s', printed l s s' -> Q tt s') ->
  wp (format fmt args) X Q s.
Proof.
  revert fmt args l s Q. induction n as [|n IH]; intros [|c fmt] args l s Q Hn Hr Hs Hl HQ; cbn in Hn; try lia;
    try (injection Hr as <-; by apply HQ, printed_nil).
  cbn [rendered format] in *. destruct (c =? 37).
  - destruct fmt as [|d fmt]; [injection Hr as <-; by apply HQ, printed_nil|].
    apply bind_Some in Hr as ([l1 args'] & Hc & (l2 & Hr & ->)%fmap_Some). cbn [fst snd] in *. apply Forall_app in Hl as [H1 H2].
    apply wp_bind. eapply pr_convert; [done..|]. intros s1 P1. eapply (IH fmt args' l2); [cbn in Hn; lia|done|apply P1|done|].
    intros s2 P2. apply HQ. by eapply printed_app.
  - apply fmap_Some in Hr as (l2 & Hr & ->). apply Forall_cons in Hl as [H1 H2]. apply wp_bind, pr_consputc; [done..|]. intros s1 P1.
    eapply (IH fmt args l2); [lia|done|apply P1|done|]. intros s2 P2. apply HQ. exact (printed_app [c] l2 _ _ _ P1 P2).
Qed.

Lemma digits_plain fuel base x : 10 <= base <= 16 -> (0 < fuel)%nat -> 0 <= x < base ^ Z.of_nat fuel ->
  exists l, digits_loop 97 fuel base x = Some l /\ plain l.
Proof.
  intros Hb. revert x. induction fuel as [|fuel IH]; intros x Hf Hx; [lia|]. cbn [digits_loop].
  pose proof (Z.mod_pos_bound x base ltac:(lia)) as Hm.
  assert (digit 97 (x mod base) <> BACKSPACE) as Hd by (unfold digit, BACKSPACE; destruct (Z.ltb_spec (x mod base) 10); lia).
  destruct (Z.eqb_spec (x / base) 0) as [H0|H0]; [eexists; split; [done|by constructor]|].
  rewrite Nat2Z.inj_succ, Z.pow_succ_r in Hx by lia.
  assert (0 <= x / base < base ^ Z.of_nat fuel) as Hq by (split; [apply Z.div_pos; lia|apply Z.div_lt_upper_bound; lia]).
  destruct fuel as [|fuel]; [cbn in Hq; lia|].
  destruct (IH (x / base) ltac:(lia) Hq) as (l & -> & Hl). eexists. split; [done|by constructor].
Qed.

Lemma int_plain xx base sign : 10 <= base <= 16 -> exists l, int_chars 97 xx base sign = Some l /\ plain l.
Proof.
  intros Hb. unfold int_chars. set (x := u32 _).
  assert (0 <= x < base ^ Z.of_nat 16) as Hx.
  { assert (0 <= x < 2 ^ 32) by (unfold x, u32; apply Z.mod_pos_bound; lia). split; [lia|].
    apply Z.lt_le_trans with (10 ^ 16); [lia|]. apply Z.pow_le_mono_l. lia. }
  destruct (digits_plain 16 base x Hb ltac:(lia) Hx) as (l & -> & Hl). eexists. split; [done|]. apply Forall_rev, Forall_app. split; [done|].
  destruct (_ && _); [|done]. apply Forall_cons. unfold BACKSPACE. split; [lia|done].
Qed.

(** Numbers as [%d] and [%p] print them. *)
Definition dec (v : Z) : list Z := default [] (int_chars 97 (i32 v) 10 true).
Definition hex (v : Z) : list Z := default [] (int_chars 97 (i32 v) 16 false).

Lemma dec_chars v : int_chars 97 (i32 v) 10 true = Some (dec v) /\ plain (dec v).
Proof. unfold dec. destruct (int_plain (i32 v) 10 true) as (l & -> & Hl); [lia|done]. Qed.
Lemma hex_chars v : int_chars 97 (i32 v) 16 false = Some (hex v) /\ plain (hex v).
Proof. unfold hex. destruct (int_plain (i32 v) 16 false) as (l & -> & Hl); [lia|done]. Qed.

Lemma rendered_text p fmt args : Forall (fun c => c <> 37) p -> rendered (p ++ fmt) args = app p <$> rendered fmt args.
Proof.
  induction 1 as [|c p Hc Hp IH]; cbn [app rendered]; [by destruct (rendered fmt args)|].
  destruct (Z.eqb_spec c 37); [done|]. rewrite IH. by destruct (rendered fmt args).
Qed.
Lemma rendered_d fmt v args : rendered (37 :: 100 :: fmt) (AInt v :: args) = app (dec v) <$> rendered fmt args.
Proof. cbn [rendered]. unfold conversion. cbn [Z.eqb Pos.eqb orb]. by rewrite (proj1 (dec_chars v)). Qed.
Lemma rendered_p fmt v args : rendered (37 :: 112 :: fmt) (AInt v :: args) = app (hex v) <$> rendered fmt args.
Proof. cbn [rendered]. unfold conversion. cbn [Z.eqb Pos.eqb orb]. by rewrite (proj1 (hex_chars v)). Qed.
Lemma rendered_s fmt t args : rendered (37 :: 115 :: fmt) (AStr (Some t) :: args) = app t <$> rendered fmt args.
Proof. done. Qed.

(** ** A panic *)

Section texts.
Context (m : machine) (pt : list proc) (q : mlfq) (np : Z) (ip : option nat) (tk : Z) (fi : bool) (kp : Z).
Abbreviation st e := (mkk m pt q np ip tk fi kp e).

(** [cprintf] without the lock. *)
Lemma pr_cprintf_off e fmt args l X (Q : unit -> kstate kenv -> Prop) :
  rendered fmt args = Some l -> plain l -> screen_ok (e_con e) -> locking (e_con e) = 0 ->
  (forall c, printed l (e_con e) c -> Q tt (st (e <| e_con := c |>))) -> wp (cprintf fmt args) X Q (st e).
Proof.
  intros Hr Hl Hs Hk HQ. unfold cprintf. apply wp_bind. unfold k_get. apply wp_gets. change (part _) with (e_con e). rewrite Hk. cbn [Z.eqb negb]. cbv zeta.
  apply wp_bind, wp_ret, wp_bind. unfold on_cons, own. apply wp_zoom. eapply pr_format; [reflexivity|done|done|done|]. intros c Hc. by apply wp_ret, HQ.
Qed.

(** The words of a call stack. *)
Definition pcs_text (l : list Z) : list Z := concat (map (fun pc => 32 :: hex pc) l).

Lemma rendered_pc pc : rendered (text " %p") [AInt pc] = Some (32 :: hex pc).
Proof.
  change (text " %p") with ([32] ++ [37; 112]). rewrite rendered_text by (by repeat constructor). rewrite rendered_p. cbn. by rewrite app_nil_r.
Qed.
Lemma plain_pc pc : plain (32 :: hex pc).
Proof. apply Forall_cons. split; [done|]. apply hex_chars. Qed.

Lemma pr_pcs l e X (Q : unit -> kstate kenv -> Prop) :
  screen_ok (e_con e) -> locking (e_con e) = 0 -> (forall c, printed (pcs_text l) (e_con e) c -> Q tt (st (e <| e_con := c |>))) ->
  wp (for_each l (fun pc => cprintf (text " %p") [AInt pc])) X Q (st e).
Proof.
  revert e Q. induction l as [|pc l IH]; intros e Q Hs Hk HQ.
  - apply wp_ret. replace e with (e <| e_con := e_con e |>) by by destruct e. by apply HQ, printed_nil.
  - apply wp_bind. eapply pr_cprintf_off; [apply rendered_pc|apply plain_pc|done|done|]. intros c1 P1.
    destruct (pr_same _ _ _ P1) as (_ & _ & Hk1). apply (IH (e <| e_con := c1 |>)); [apply P1|cbn; congruence|]. intros c2 P2.
    change (e <| e_con := c1 |> <| e_con := c2 |>) with (e <| e_con := c2 |>). apply HQ. exact (printed_app (32 :: hex pc) _ _ _ _ P1 P2).
Qed.

Definition panic_head (id : Z) : list Z := text "lapicid " ++ dec id ++ text ": panic: ".

Lemma rendered_head id : rendered (text "lapicid %d: panic: ") [AInt id] = Some (panic_head id).
Proof.
  change (text "lapicid %d: panic: ") with (text "lapicid " ++ 37 :: 100 :: text ": panic: ").
  rewrite rendered_text by (by repeat constructor). by rewrite rendered_d.
Qed.
Lemma plain_head id : plain (panic_head id).
Proof. unfold panic_head. rewrite !Forall_app. split; [by repeat constructor|]. split; [apply dec_chars|by repeat constructor]. Qed.
End texts.

(** C40: [panic] comes to its endless loop whatever locks are held, by whom ever,
    and touches none of them.  Interrupts are off on its CPU, the message and
    the call stack have been sent, and no CPU gets a character to the console
    any more. *)
Theorem panic_freezes word fmt v m pt q np ip tk fi kp e c msg :
  cpus m !! here m = Some c -> screen_ok (e_con e) -> rendered fmt [] = Some msg -> plain msg ->
  wp (panic_code word fmt v) never (fun _ ks => exists con,
      ks = mkk (m <| cpus ::= <[here m := c <| intr_on := false |>]> |>) pt q np ip tk fi kp (e <| e_con := con |>) /\
      serial con = serial (e_con e) ++ (if uart (e_con e) then
        map u8 (panic_head (lapicid m) ++ msg ++ [NL] ++ pcs_text (getcallerpcs word v)) else []) /\
      forall ch, consputc ch con = Stop frozen)
    (mkk m pt q np ip tk fi kp e).
Proof.
  intros Hc Hs Hr Hp. unfold panic_code. apply wp_bind, wp_on_mach. unfold cli, cpu_at. wsteps. eapply wp_some; [done|]. unfold set_cpu. wsteps.
  set (m' := m <| cpus ::= _ |>). set (e1 := e <| e_con ::= fun c => c <| locking := 0 |> |>).
  unfold on_cons at 1, own. apply wp_zoom, wp_modify, wp_bind, wp_gets, wp_bind. match goal with |- wp _ _ _ ?x => change x with (mkk m' pt q np ip tk fi kp e1) end. cbn beta. change (lapicid _) with (lapicid m).
  eapply pr_cprintf_off; [apply rendered_head|apply plain_head|by destruct Hs|done|]. intros c1 P1. pose proof (pr_same _ _ _ P1) as (_ & _ & L1).
  apply wp_bind. eapply pr_cprintf_off; [exact Hr|done|apply P1|exact L1|]. intros c2 P2. pose proof (pr_same _ _ _ P2) as (_ & _ & L2).
  apply wp_bind. eapply pr_cprintf_off with (l := [NL]); [done|by repeat constructor|apply P2|cbn in *; congruence|]. intros c3 P3. pose proof (pr_same _ _ _ P3) as (_ & _ & L3).
  apply wp_bind. eapply pr_pcs; [apply P3|cbn in *; congruence|]. intros c4 P4. apply wp_zoom, wp_modify.
  eexists. split; [reflexivity|]. split; [|done].
  pose proof (printed_app _ _ _ _ _ P1 (printed_app _ _ _ _ _ P2 (printed_app _ _ _ _ _ P3 P4))) as [_ _ HS]. exact HS.
Qed.

(** A CPU that panics, two frames deep, while another one holds the lock of
    the console. *)
Definition two_frames (a : Z) : Z :=
  if a =? 0x8010aff0 then 0x8010b000 else if a =? 0x8010aff4 then 0x80101234 else if a =? 0x8010b004 then 0x80105678 else 0.
Definition busy_cpu : machine := mkmachine [mkcpu 3 true 0 false None 0 0] 0 3 {[ cons_lock := mklock "console" 1 (Some 1%nat) ]}.

Lemma panic_freezes_witness :
  wp (panic_code two_frames (text "acquire") 0x8010aff8) never (fun _ ks => exists con,
      ks = mkk (busy_cpu <| cpus ::= <[0%nat := mkcpu 3 false 0 false None 0 0]> |>) [] mlfq0 1 None 0 true 0 (small_env <| e_con := con |>) /\
      serial con = map u8 (text "lapicid 3: panic: acquire" ++ [NL] ++ text " 80101234 80105678 0 0 0 0 0 0 0 0") /\
      forall ch, consputc ch con = Stop frozen)
    (mkk busy_cpu [] mlfq0 1 None 0 true 0 small_env).
Proof.
  exact (panic_freezes two_frames (text "acquire") 0x8010aff8 busy_cpu [] mlfq0 1 None 0 true 0 small_env _ (text "acquire")
    eq_refl (proj1 small_con_ok) eq_refl (ltac:(by repeat constructor))).
Defined.

(** ** The list of processes *)

Section list.
Context (word : Z -> Z) (w : who) (L : list Z) (HL : cons_lock ∉ L) (pt : list proc) (q : mlfq) (np : Z) (ip : option nat) (tk : Z) (fi : bool) (kp : Z).
Abbreviation st m e := (mkk m pt q np ip tk fi kp e).

Lemma pr_cprintf m e fmt args l X (Q : unit -> kstate kenv -> Prop) :
  view m L w -> rendered fmt args = Some l -> plain l -> screen_ok (e_con e) ->
  (forall m' c, view m' L w -> printed l (e_con e) c -> Q tt (st m' (e <| e_con := c |>))) -> wp (cprintf fmt args) X Q (st m e).
Proof using HL.
  intros Hv Hr Hl Hs HQ. destruct (decide (locking (e_con e) = 0)) as [Hk|Hk].
  { eapply pr_cprintf_off; [done..|]. intros c Hc. by apply HQ. }
  unfold cprintf. apply wp_bind. unfold k_get. apply wp_gets. change (part _) with (e_con e).
  apply Z.eqb_neq in Hk. rewrite Hk. cbn [negb]. cbv zeta. apply wp_bind. change (k_acquire cons_lock) with (acquire_k (E := kenv) cons_lock).
  eapply wp_acquire_k; [done|done|]. intros m1 Hv1. apply wp_bind. unfold on_cons, own. apply wp_zoom. eapply pr_format; [reflexivity|done|done|done|].
  intros c Hc. change (k_release cons_lock) with (release_k (E := kenv) cons_lock). change (set_part _ _) with (st m1 (e <| e_con := c |>)).
  eapply wp_release_k with (L1 := []); [exact Hv1|]. intros m2 Hv2. by apply HQ.
Qed.

(** What [procdump] says about a process. *)
Definition stack_of (p : proc) : list Z :=
  if decide (state p = SLEEPING) then pcs_text (until_nul (getcallerpcs word (u32 (c_ebp (ctx p) + 8)))) else [].
Definition proc_text (p : proc) : list Z :=
  dec (pid p) ++ [32] ++ state_name (state p) ++ [32] ++ default [] (str_of (name p)) ++ text " level" ++ dec (level p).
Definition proc_line (p : proc) : list Z :=
  if decide (state p = UNUSED) then [] else proc_text p ++ stack_of p ++ [NL].

(** The name ends inside of its array. *)
Definition named (p : proc) : Prop := exists n, str_of (name p) = Some n /\ plain n.

Lemma rendered_proc p n : str_of (name p) = Some n ->
  rendered (text "%d %s %s level%d") [AInt (pid p); AStr (Some (state_name (state p))); AStr (Some n); AInt (level p)] = Some (proc_text p).
Proof.
  intros Hn. change (text "%d %s %s level%d") with (37 :: 100 :: [32] ++ 37 :: 115 :: [32] ++ 37 :: 115 :: text " level" ++ [37; 100]).
  rewrite rendered_d, (rendered_text [32]) by (by repeat constructor). rewrite rendered_s, (rendered_text [32]) by (by repeat constructor).
  rewrite rendered_s, rendered_text by (by repeat constructor). rewrite rendered_d. unfold proc_text. rewrite Hn. cbn [rendered fmap option_fmap option_map default id].
  by rewrite app_nil_r.
Qed.

Lemma plain_proc p : named p -> plain (proc_text p).
Proof.
  intros (n & Hn & Hp). unfold proc_text. rewrite Hn. cbn [default id]. rewrite !Forall_app.
  split; [apply dec_chars|]. split; [by repeat constructor|]. split; [by destruct (state p); repeat constructor|].
  split; [by repeat constructor|]. split; [done|]. split; [by repeat constructor|apply dec_chars].
Qed.

Lemma pr_stack l m e X (Q : unit -> kstate kenv -> Prop) :
  view m L w -> screen_ok (e_con e) ->
  (forall m' c, view m' L w -> printed (pcs_text (until_nul l)) (e_con e) c -> Q tt (st m' (e <| e_con := c |>))) ->
  wp (for_until l (fun pc => if pc =? 0 then ret (Some tt) else cprintf (text " %p") [AInt pc] ;;; ret None) ;;; ret tt) X Q (st m e).
Proof using HL.
  intros Hv Hs HQ. apply wp_bind. revert m e Hv Hs Q HQ. induction l as [|pc l IH]; intros m e Hv Hs Q HQ.
  - do 2 apply wp_ret. replace e with (e <| e_con := e_con e |>) by by destruct e. by apply HQ, printed_nil.
  - cbn [for_until until_nul] in *. apply wp_bind. destruct (pc =? 0).
    + do 3 apply wp_ret. replace e with (e <| e_con := e_con e |>) by by destruct e. by apply HQ, printed_nil.
    + apply wp_bind. eapply pr_cprintf; [done|apply rendered_pc|apply plain_pc|done|]. intros m1 c1 Hv1 P1. apply wp_ret.
      apply (IH m1 (e <| e_con := c1 |>)); [done|apply P1|]. intros m2 c2 Hv2 P2.
      change (e <| e_con := c1 |> <| e_con := c2 |>) with (e <| e_con := c2 |>). apply HQ; [done|]. exact (printed_app (32 :: hex pc) _ _ _ _ P1 P2).
Qed.

Lemma pr_proc p m e X (Q : unit -> kstate kenv -> Prop) i :
  pt !! i = Some p -> (state p <> UNUSED -> named p) -> view m L w -> screen_ok (e_con e) ->
  (forall m' c, view m' L w -> printed (proc_line p) (e_con e) c -> Q tt (st m' (e <| e_con := c |>))) ->
  wp (p <~ proc_at i;
    if decide (state p = UNUSED) then ret tt
    else
      n <~ of_option (Undef "name") (str_of (name p));
      cprintf (text "%d %s %s level%d") [AInt (pid p); AStr (Some (state_name (state p))); AStr (Some n); AInt (level p)] ;;;
      (if decide (state p = SLEEPING) then
         for_until (getcallerpcs word (u32 (c_ebp (ctx p) + 8))) (fun pc =>
           if pc =? 0 then ret (Some tt) else cprintf (text " %p") [AInt pc] ;;; ret None) ;;;
         ret tt
       else ret tt) ;;;
      cprintf [NL] []) X Q (st m e).
Proof using HL.
  intros Hp Hn Hv Hs HQ. apply wp_bind. eapply wp_proc_at; [done|]. unfold proc_line in HQ. destruct (decide (state p = UNUSED)) as [Hu|Hu].
  { apply wp_ret. replace e with (e <| e_con := e_con e |>) by by destruct e. by apply HQ, printed_nil. }
  pose proof (plain_proc p (Hn Hu)) as Hpl. destruct (Hn Hu) as (n & Hnm & _). apply wp_bind. eapply wp_some; [done|].
  apply wp_bind. eapply pr_cprintf; [done|by apply rendered_proc|done|done|]. intros m1 c1 Hv1 P1. apply wp_bind.
  assert (forall m2 c2, view m2 L w -> printed (proc_text p ++ stack_of p) (e_con e) c2 -> wp (cprintf [NL] []) X Q (st m2 (e <| e_con := c2 |>))) as Hend.
  { intros m2 c2 Hv2 P2. eapply pr_cprintf with (l := [NL]); [done|done|by repeat constructor|apply P2|]. intros m3 c3 Hv3 P3.
    change (e <| e_con := c2 |> <| e_con := c3 |>) with (e <| e_con := c3 |>). apply HQ; [done|]. rewrite app_assoc. by eapply printed_app. }
  unfold stack_of in Hend. destruct (decide (state p = SLEEPING)).
  - eapply pr_stack; [done|apply P1|]. intros m2 c2 Hv2 P2. apply Hend; [done|]. by eapply printed_app.
  - apply wp_ret. apply Hend; [done|]. by rewrite app_nil_r.
Qed.

(** [procdump] prints a line for each process in use, in the order of the
    table: its pid, state, name and level, and the call stack of a sleeping
    one; it leaves the locks as they were. *)
Theorem procdump_lists m e :
  length pt = NPROC -> Forall (fun p => state p <> UNUSED -> named p) pt -> view m L w -> screen_ok (e_con e) ->
  wp (procdump word) never (fun _ ks => exists m' con, ks = st m' (e <| e_con := con |>) /\ view m' L w /\
    printed (concat (map proc_line pt)) (e_con e) con) (st m e).
Proof using HL.
  intros Hlen Hn Hv Hs. unfold procdump, slots.
  apply wp_for_seq with (I := fun j ks => exists m' con, ks = st m' (e <| e_con := con |>) /\ view m' L w /\
    printed (concat (map proc_line (take j pt))) (e_con e) con).
  - exists m, (e_con e). split; [by destruct e|]. split; [done|]. by apply printed_nil.
  - intros j ks Hj (m1 & c1 & -> & Hv1 & P1). destruct (lookup_lt_is_Some_2 pt j) as [p Hp]; [lia|].
    eapply pr_proc; [done|by apply (Forall_lookup_1 _ _ _ _ Hn Hp)|done|apply P1|]. intros m2 c2 Hv2 P2. exists m2, c2. split; [done|]. split; [done|].
    rewrite (take_S_r _ _ _ Hp), map_app, concat_app. eapply printed_app; [done|]. cbn [map concat]. by rewrite app_nil_r.
  - intros ks (m1 & c1 & -> & Hv1 & P1). exists m1, c1. rewrite take_ge in P1 by lia. done.
Qed.
End list.
