(* ===== verification/Kbd.v ===== *)
(** * The keyboard ([kbd.c], [kbd.h])

    [kbdgetc] turns the bytes of the keyboard controller into characters;
    [kbdintr] feeds them to the console.  The controller is the list of the
    bytes it has ready. *)
From Stdlib Require Import ZArith Lia.
From stdpp Require Import base list gmap strings.
From S2P Require Import Prelude Params Bytes Ring Spinlock Proc Sched SchedInv Kern Sleeplock FsData Bio Log Fs Demo Console Env ConsoleThms.
#[local] Open Scope Z_scope.
#[local] Open Scope kernel_scope.

Abbreviation SHIFT := 1%Z.
Abbreviation CTL := 2%Z.
Abbreviation CAPSLOCK := 8%Z.
Abbreviation E0ESC := 64%Z.

(** An array of 256 [uchar]s: its first elements, and those given by index. *)
Definition table (l : list Z) (at_index : list (Z * Z)) : list Z :=
  foldl (fun d '(i, v) => <[Z.to_nat i := u8 v]> d) (map u8 l ++ replicate (256 - length l) 0) at_index.

Definition shiftcode : list Z := table
  []
  [(0x1d, 2); (0x2a, 1); (0x36, 1); (0x38, 4); (0x9d, 2); (0xb8, 4)].

Definition togglecode : list Z := table
  []
  [(0x3a, 8); (0x45, 16); (0x46, 32)].

Definition normalmap : list Z := table
  [0; 27; 49; 50; 51; 52; 53; 54; 55; 56; 57; 48; 45; 61; 8; 9;
   113; 119; 101; 114; 116; 121; 117; 105; 111; 112; 91; 93; 10; 0; 97; 115;
   100; 102; 103; 104; 106; 107; 108; 59; 39; 96; 0; 92; 122; 120; 99; 118;
   98; 110; 109; 44; 46; 47; 0; 42; 0; 32; 0; 0; 0; 0; 0; 0;
   0; 0; 0; 0; 0; 0; 0; 55; 56; 57; 45; 52; 53; 54; 43; 49;
   50; 51; 48; 46; 0; 0; 0; 0]
  [(0x9c, 10); (0xb5, 47); (0xc8, 226); (0xd0, 227); (0xc9, 230); (0xd1, 231);
   (0xcb, 228); (0xcd, 229); (0x97, 224); (0xcf, 225); (0xd2, 232); (0xd3, 233)].

Definition shiftmap : list Z := table
  [0; 27; 33; 64; 35; 36; 37; 94; 38; 42; 40; 41; 95; 43; 8; 9;
   81; 87; 69; 82; 84; 89; 85; 73; 79; 80; 123; 125; 10; 0; 65; 83;
   68; 70; 71; 72; 74; 75; 76; 58; 34; 126; 0; 124; 90; 88; 67; 86;
   66; 78; 77; 60; 62; 63; 0; 42; 0; 32; 0; 0; 0; 0; 0; 0;
   0; 0; 0; 0; 0; 0; 0; 55; 56; 57; 45; 52; 53; 54; 43; 49;
   50; 51; 48; 46; 0; 0; 0; 0]
  [(0x9c, 10); (0xb5, 47); (0xc8, 226); (0xd0, 227); (0xc9, 230); (0xd1, 231);
   (0xcb, 228); (0xcd, 229); (0x97, 224); (0xcf, 225); (0xd2, 232); (0xd3, 233)].

Definition ctlmap : list Z := table
  [0; 0; 0; 0; 0; 0; 0; 0; 0; 0; 0; 0; 0; 0; 0; 0;
   17; 23; 5; 18; 20; 25; 21; 9; 15; 16; 0; 0; 13; 0; 1; 19;
   4; 6; 7; 8; 10; 11; 12; 0; 0; 0; 0; 28; 26; 24; 3; 22;
   2; 14; 13; 0; 0; -17; 0; 0]
  [(0x9c, 13); (0xb5, -17); (0xc8, 226); (0xd0, 227); (0xc9, 230); (0xd1, 231);
   (0xcb, 228); (0xcd, 229); (0x97, 224); (0xcf, 225); (0xd2, 232); (0xd3, 233)].

Definition charcode (k : Z) : list Z := if k =? 0 then normalmap else if k =? 1 then shiftmap else ctlmap.

(** [c += 'A' - 'a'] for a small letter, the reverse for a capital one *)
Definition swap_case (c : Z) : Z :=
  if (97 <=? c) && (c <=? 122) then c - 32
  else if (65 <=? c) && (c <=? 90) then c + 32
  else c.

(** [kbdgetc] for the byte [data] of the controller: the character and
    [shift]. *)
Definition kbdgetc (shift data : Z) : Z * Z :=
  if data =? 0xE0 then (0, Z.lor shift E0ESC)
  else if negb (Z.land data 0x80 =? 0) then
    let data := if negb (Z.land shift E0ESC =? 0) then data else Z.land data 0x7F in
    (0, Z.ldiff shift (Z.lor (byte_at shiftcode (Z.to_nat data)) E0ESC))
  else
    let esc := negb (Z.land shift E0ESC =? 0) in
    let data := if esc then Z.lor data 0x80 else data in
    let shift := if esc then Z.ldiff shift E0ESC else shift in
    let shift := Z.lor shift (byte_at shiftcode (Z.to_nat data)) in
    let shift := Z.lxor shift (byte_at togglecode (Z.to_nat data)) in
    let c := byte_at (charcode (Z.land shift (Z.lor CTL SHIFT))) (Z.to_nat data) in
    (if negb (Z.land shift CAPSLOCK =? 0) then swap_case c else c, shift).

(** The results of [kbdgetc] until the controller has no byte. *)
Fixpoint kbd_chars (shift : Z) (ports : list Z) : list Z * Z :=
  match ports with
  | [] => ([], shift)
  | d :: ports =>
      let '(c, shift) := kbdgetc shift d in
      let '(l, shift) := kbd_chars shift ports in (c :: l, shift)
  end.

Section ops.
Context {S E : Type} `{KernOps S E} `{Sub E console}.

(** [kbdintr] with the bytes [ports] in the controller. *)
Definition kbdintr (ports : list Z) : M S bool :=
  c <~ k_get (T := console);
  let '(l, shift) := kbd_chars (kshift c) ports in
  k_mod (T := console) (fun c => c <| kshift := shift |>) ;;;
  consoleintr l.

(** [uartintr] with the bytes [ports] in the receiver. *)
Definition uartintr (ports : list Z) : M S bool :=
  c <~ k_get (T := console);
  consoleintr (if uart c then map u8 ports else []).
End ops.

(** ** Every key gives a byte *)

Definition kbd_check (shift data : Z) : bool :=
  let '(c, shift') := kbdgetc shift data in
  (0 <=? c) && (c <? 256) && (0 <=? shift') && (shift' <? 128).

Lemma kbd_check_all :
  forallb (fun a => forallb (fun d => kbd_check (Z.of_nat a) (Z.of_nat d)) (seq 0 256)) (seq 0 128) = true.
Proof. vm_compute. reflexivity. Qed.

Lemma kbdgetc_byte shift data :
  0 <= shift < 128 -> is_byte data ->
  is_byte (fst (kbdgetc shift data)) /\ 0 <= snd (kbdgetc shift data) < 128.
Proof.
  intros Hs Hd. unfold is_byte in *. pose proof kbd_check_all as H. rewrite forallb_forall in H.
  specialize (H (Z.to_nat shift) ltac:(apply in_seq; lia)). rewrite forallb_forall in H.
  specialize (H (Z.to_nat data) ltac:(apply in_seq; lia)). rewrite !Z2Nat.id in H by lia.
  unfold kbd_check in H. destruct (kbdgetc shift data). cbn. lia.
Qed.

Lemma kbd_chars_bytes shift ports :
  0 <= shift < 128 -> Forall is_byte ports ->
  Forall is_byte (fst (kbd_chars shift ports)) /\ 0 <= snd (kbd_chars shift ports) < 128.
Proof.
  intros Hs Hp. revert shift Hs. induction Hp as [|d ports Hd Hp IH]; intros shift Hs; cbn [kbd_chars]; [done|].
  pose proof (kbdgetc_byte shift d Hs Hd) as [Hc Hs']. destruct (kbdgetc shift d) as [c shift']. cbn in Hc, Hs'.
  destruct (IH shift' Hs') as [Hl Hs2]. destruct (kbd_chars shift' ports) as [l shift2]. cbn in *.
  split; [by constructor|done].
Qed.

Section kernel.
Context {S E : Type} `{KernOps S E} `{Sub E console} `{!KernLaws S console}.

(** The keyboard drives the line editor.  Whatever bytes the keyboard
    controller has ready, [kbdintr] returns: every result of [kbdgetc] is a
    byte, its modifier state stays in range, and the console's lines become
    what these characters make of them. *)
Theorem kbdintr_edits s t ports :
  at_ s [] t -> cons_ok t -> Forall is_byte ports ->
  wp (kbdintr ports) never (fun _ s' => exists t', at_ s' [] t' /\ cons_ok t' /\
    chars_of t' = foldl (fun st c => key_spec c st) (chars_of t) (fst (kbd_chars (kshift t) ports))) s.
Proof using Type*.
  intros Hat [Hs Hi] Hp. unfold kbdintr. mstep. mstep.
  destruct (kbd_chars_bytes _ _ (sc_shift _ Hs) Hp) as [Hl Hr]. destruct (kbd_chars (kshift t) ports) as [l shift].
  cbn [fst snd] in *. mstep. mstep. apply (wp_consoleintr _ _ (t <| kshift := shift |>)); [done| |done|].
  - destruct Hs as [H1 H2 H3 H4]. by split; [split|].
  - intros r s' t' H1 H2 H3. by exists t'.
Qed.
End kernel.

(** Shift down, "a", shift up, return. *)
Lemma kbdintr_edits_witness :
  wp (kbdintr [0x2a; 0x1e; 0xaa; 0x1c]) never (fun _ s' => exists t', at_ (H0 := sub_laws small_env) s' [] t' /\
    cons_ok t' /\ chars_of t' = foldl (fun st c => key_spec c st) (chars_of small_con)
      (fst (kbd_chars (kshift small_con) [0x2a; 0x1e; 0xaa; 0x1c]))) (small small_env).
Proof.
  apply (kbdintr_edits (KernLaws0 := sub_laws small_env) (small small_env) small_con).
  - exact (sub_at (T := console) (small small_env) [] small_env (small_at _)).
  - apply small_con_ok.
  - unfold is_byte. repeat constructor; lia.
Defined.

Lemma shifted_a : fst (kbd_chars 0 [0x2a; 0x1e; 0xaa; 0x1c]) = [0; 65; 0; 10].
Proof. reflexivity. Qed.
