(* ===== verification/Lwp.v ===== *)
(** * Threads ([lwp.c], and the thread routines of [proc.c])

    A thread is a slot of the process table with pid -1 whose [lwpgroup] is
    the slot of its main thread; the threads of a group are linked by
    [t_link] behind the main thread. *)
From Stdlib Require Import ZArith Lia.
From stdpp Require Import base list gmap strings.
From S2P Require Import Prelude Params Mmu Bytes Cstring Spinlock Proc Sched SchedInv Kern Sleeplock FsData Bio Log Fs Pipe Demo Kalloc Vm File Life.
#[local] Open Scope Z_scope.
#[local] Open Scope kernel_scope.

Section table.
Context {E : Type}.
Abbreviation K := (kstate E).

Definition find_unused : M K (option nat) :=
  acquire_k ptable_lock ;;;
  r <~ for_until slots (fun i =>
    p <~ proc_at i;
    if decide (state p = UNUSED) then release_k ptable_lock ;;; ret (Some i) else ret None);
  match r with
  | Some i => ret (Some i)
  | None => release_k ptable_lock ;;; ret None
  end.

(** [p->lwpgroup->pid] is read only when the thread id matches. *)
Definition find_thread (tid gid : Z) : M K (option nat) :=
  acquire_k ptable_lock ;;;
  r <~ for_until slots (fun i =>
    p <~ proc_at i;
    if thread_id p =? tid then
      g <~ deref (lwpgroup p);
      pg <~ proc_at g;
      if pid pg =? gid then release_k ptable_lock ;;; ret (Some i) else ret None
    else ret None);
  match r with
  | Some i => ret (Some i)
  | None => release_k ptable_lock ;;; ret None
  end.

Definition init_next_t (p : option nat) (id : Z) : M K unit :=
  acquire_k mlfqstr_lock ;;;
  set_next_t id p ;;;
  release_k mlfqstr_lock.

Definition add_thread (i : nat) : M K unit :=
  acquire_k mlfqstr_lock ;;;
  p <~ proc_at i;
  g <~ deref (lwpgroup p);
  pg <~ proc_at g;
  o <~ next_t_at (pid pg);
  n <~ deref o;
  pn <~ proc_at n;
  upd_proc i (fun p => p <| t_link := t_link pn |>) ;;;
  upd_proc n (fun p => p <| t_link := Some i |>) ;;;
  release_k mlfqstr_lock.

(** The walk of [rm_thread] to the thread before [i]. *)
Definition rm_thread (i : nat) : M K unit :=
  p <~ proc_at i;
  main <~ deref (lwpgroup p);
  pm <~ proc_at main;
  acquire_k mlfqstr_lock ;;;
  o <~ next_t_at (pid pm);
  (if decide (o = Some i) then update_next_t main ;;; ret tt else ret tt) ;;;
  release_k mlfqstr_lock ;;;
  loop (S NPROC) (fun pptr =>
    match pptr with
    | None => ret (inr tt)
    | Some j =>
        pj <~ proc_at j;
        if decide (t_link pj = Some i) then
          p <~ proc_at i;
          upd_proc j (fun pj => pj <| t_link := t_link p |>) ;;;
          upd_proc i (fun p => p <| t_link := None |>) ;;;
          ret (inr tt)
        else ret (inl (t_link pj))
    end) (Some main).

Definition acquire_ptable : M K unit := acquire_k ptable_lock.
Definition release_ptable : M K unit := release_k ptable_lock.
Definition is_holding_ptable : M K bool := on_mach (holding ptable_lock).
End table.

Section ops.
Context `{Layout} {E : Type} `{Sub E kmem} `{Sub E filest}.
Abbreviation K := (kstate E).

(** A store through the page table that is loaded: [*(int* )va = v]. *)
Definition user_store (pd va v : Z) : M K unit := user_write pd va (put32 (replicate 4 0) 0 v).

(** The search for a place for the stack: the first thread of the list whose
    [ustack] is not mapped; [pte] is read without a test. *)
Definition find_stack (cur : nat) : M K (option nat) :=
  c <~ proc_at cur;
  loop (S NPROC) (fun pptr =>
    match pptr with
    | None => ret (inr None)
    | Some j =>
        pj <~ proc_at j;
        r <~ walkpgdir (pgdir c) (ustack pj) false;
        match r with
        | None => undef "thread_create: null pte"
        | Some pte =>
            e <~ load_pte pte;
            ret (if negb (is_present e) then inr (Some j) else inl (t_link pj))
        end
    end) (Some cur).

(** [thread] is the address of the [thread_t], the thread id before the group
    id.  The early returns keep [ptable.lock]. *)
Definition thread_create (thread start_routine arg : Z) : M K Z :=
  cur <~ curproc;
  o <~ find_unused;
  match o with
  | None => ret (-1)
  | Some i =>
      acquire_ptable ;;;
      upd_proc i (fun p => p <| state := EMBRYO |> <| pid := -1 |> <| lwpgroup := Some cur |>
                             <| waiting_tid := -1 |> <| parent := None |> <| timequant := 1 |>
                             <| s_link := None |> <| share := 0 |> <| stride := -1 |> <| pass := 0 |>) ;;;
      k <~ kalloc;
      upd_proc i (fun p => p <| kstack := k |>) ;;;
      if k =? 0 then upd_proc i (fun p => p <| state := UNUSED |>) ;;; ret (-1)
      else
        upd_proc i new_stack ;;;
        r <~ find_stack cur;
        match r with
        | None => ret (-1)
        | Some j =>
            pj <~ proc_at j;
            c <~ proc_at cur;
            let us := u32 (ustack pj + PGSIZE) in
            upd_proc i (fun p => p <| ustack := us |>) ;;;
            s <~ allocuvm (pgdir c) (u32 (us - PGSIZE)) us;
            if s =? 0 then
              kfree k ;;;
              upd_proc i (fun p => p <| kstack := 0 |> <| state := UNUSED |>) ;;;
              ret (-1)
            else
              upd_proc cur (fun c => c <| sz := s |>) ;;;
              switchuvm (Some cur) ;;;
              dup_files cur i ;;;
              c <~ proc_at cur;
              upd_proc i (fun p => p <| cwd := cwd c |>) ;;;
              copy_name i (name c) ;;;
              let sp := Z.land (u32 (us - 4)) (u32 (Z.lnot 3)) in
              user_store (pgdir c) sp arg ;;;
              let sp := u32 (sp - 4) in
              user_store (pgdir c) sp 0xFFFFFFFF ;;;
              upd_proc i (fun p => p <| pgdir := pgdir c |> <| sz := sz c |>
                <| tf := (tf c) <| esp := sp |> <| eip := start_routine |> <| ebp := us |> |>) ;;;
              (if thread_count c =? 1 then
                 init_next_t (Some i) (pid c) ;;;
                 upd_proc cur (fun c => c <| t_link := Some i |>) ;;;
                 upd_proc i (fun p => p <| t_link := None |>)
               else add_thread i) ;;;
              c <~ proc_at cur;
              upd_proc i (fun p => p <| thread_id := next_tid c |>) ;;;
              upd_proc cur (fun c => c <| next_tid ::= fun n => i32 (n + 1) |>) ;;;
              user_store (pgdir c) (u32 (thread + 4)) (pid c) ;;;
              user_store (pgdir c) thread (next_tid c) ;;;
              upd_proc cur (fun c => c <| thread_count ::= fun n => i32 (n + 1) |>) ;;;
              upd_proc i (fun p => p <| state := RUNNABLE |>) ;;;
              release_ptable ;;;
              ret 0
        end
  end.

(** [thread_exit] up to the switch. *)
Definition thread_exit (rv : Z) : M K handoff :=
  i <~ curproc;
  p <~ proc_at i;
  main <~ deref (lwpgroup p);
  acquire_ptable ;;;
  upd_proc i (fun p => p <| state := ZOMBIE |> <| retval := rv |>) ;;;
  upd_proc main (fun m => m <| thread_count ::= fun n => i32 (n - 1) |>) ;;;
  rm_thread i ;;;
  p <~ proc_at i;
  upd_proc main (fun m => if waiting_tid m =? thread_id p then m <| waiting_tid := -1 |> else m) ;;;
  m <~ proc_at main;
  s <~ deallocuvm (pgdir m) (ustack p) (u32 (ustack p - PGSIZE));
  upd_proc main (fun m => m <| sz := u32 s |>) ;;;
  r <~ thread_swtch main;
  ret match r with
      | inl z => if z =? -1 then ToScheduler else Stay
      | inr t => ToThread t
      end.

(** [thread_join] up to the end of its [if]: no thread when it returns -1;
    otherwise the thread, with [true] when [yield] and [acquire_ptable] come
    before [thread_join_reap]. *)
Definition thread_join_enter (tid gid : Z) : M K (option nat * bool) :=
  cur <~ curproc;
  o <~ find_thread tid gid;
  match o with
  | None => ret (None, false)
  | Some i =>
      acquire_ptable ;;;
      p <~ proc_at i;
      if decide (state p = ZOMBIE) then ret (Some i, false)
      else
        upd_proc cur (fun c => c <| waiting_tid := tid |> <| state := RUNNABLE |>) ;;;
        release_ptable ;;;
        ret (Some i, true)
  end.

(** The rest of [thread_join], [ptable.lock] being held; [rv] is the address
    [retval]. *)
Definition thread_join_reap (i : nat) (rv : Z) : M K Z :=
  cur <~ curproc;
  c <~ proc_at cur;
  p <~ proc_at i;
  user_store (pgdir c) rv (retval p) ;;;
  kfree (kstack p) ;;;
  upd_proc i (fun p => p <| kstack := 0 |> <| pid := 0 |> <| lwpgroup := None |> <| thread_id := 0 |>
                         <| killed := 0 |> <| state := UNUSED |> <| name ::= <[0%nat := 0]> |>
                         <| t_link := None |> <| s_link := None |> <| pgdir := 0 |>) ;;;
  release_ptable ;;;
  ret 0.

(** [thread_join] up to the switch of [yield]. *)
Definition thread_join (tid gid rv : Z) : M K (Z + handoff) :=
  r <~ thread_join_enter tid gid;
  match r with
  | (None, _) => ret (inl (-1))
  | (Some i, false) => v <~ thread_join_reap i rv; ret (inl v)
  | (Some i, true) =>
      h <~ yield_enter;
      match h with
      | Stay => yield_exit ;;; acquire_ptable ;;; v <~ thread_join_reap i rv; ret (inl v)
      | _ => ret (inr h)
      end
  end.
End ops.
