(* ===== verification/Syscall.v ===== *)
(** * System call arguments ([syscall.c])

    The arguments are read from the user stack through the page table of the
    process, which is the one that is loaded.  A routine with an out
    parameter yields [None] where the code returns -1 and the value of the
    parameter where it returns 0. *)
From Stdlib Require Import ZArith Lia.
From stdpp Require Import base list gmap strings.
From S2P Require Import Prelude Params Mmu Bytes Cstring Spinlock Proc Sched SchedInv Kern Sleeplock FsData Demo Kalloc Vm.
#[local] Open Scope Z_scope.
#[local] Open Scope kernel_scope.

(** [&ticks] *)
Definition ticks_chan : chan := ChAddr (tickslock + 4).

Section args.
Context {E : Type} `{Sub E kmem}.
Abbreviation K := (kstate E).

(** [*myproc()] *)
Definition my : M K proc := i <~ curproc; proc_at i.

Definition fetchint (addr : Z) : M K (option Z) :=
  p <~ my;
  if (sz p <=? addr) || (sz p <? u32 (addr + 4)) then ret None
  else l <~ user_load (pgdir p) addr 4; ret (Some (i32 (get32 l 0))).

(** The string with its terminating 0; the code returns its length. *)
Definition fetchstr (addr : Z) : M K (option (list Z)) :=
  p <~ my;
  if sz p <=? addr then ret None
  else
    loop (Z.to_nat (sz p - addr) + 1) (fun '(a, s) =>
      if a <? sz p then
        c <~ user_byte (pgdir p) a;
        ret (if c =? 0 then inr (Some (s ++ [0])) else inl (a + 1, s ++ [c]))
      else ret (inr None)) (addr, []).

Definition argint (n : Z) : M K (option Z) :=
  p <~ my; fetchint (u32 (esp (tf p) + 4 + 4 * n)).

(** The address. *)
Definition argptr (n size : Z) : M K (option Z) :=
  p <~ my;
  i <~ argint n;
  match i with
  | None => ret None
  | Some i =>
      let a := u32 i in
      ret (if (size <? 0) || (sz p <=? a) || (sz p <? u32 (a + size)) then None else Some a)
  end.

Definition argstr (n : Z) : M K (option (list Z)) :=
  a <~ argint n;
  match a with
  | None => ret None
  | Some a => fetchstr (u32 a)
  end.
End args.

(** How a system call ends: it returns, or its kernel stack is left, by a
    switch to another thread or to the scheduler. *)
Inductive sysres := Ret (v : Z) | Leave (h : handoff).

(** [if(arg < 0) return -1;] *)
Definition or_fail {S A} (m : M S (option A)) (k : A -> M S Z) : M S Z :=
  o <~ m;
  match o with
  | None => ret (-1)
  | Some a => k a
  end.
