(* ===== verification/Sysproc.v ===== *)
(** * System calls on processes, threads and semaphores ([sysproc.c],
    [syslwp.c], [syssemaphore.c], [sysrwlock.c])

    A call that gives up its kernel stack ends with [Leave]; [sys_sleep] and
    [sys_xem_wait] stop with [Asleep] where they sleep. *)
From Stdlib Require Import ZArith Lia.
From stdpp Require Import base list gmap strings.
From S2P Require Import Prelude Params Mmu Bytes Cstring Spinlock Proc Sched SchedInv Kern Sleeplock FsData Bio Log Demo Semaphore Kalloc Fs Pipe Vm File Life Lwp Syscall.
#[local] Open Scope Z_scope.
#[local] Open Scope kernel_scope.

Section calls.
Context `{Layout} {E : Type} `{Sub E fsstate} `{Sub E kmem} `{Sub E filest} `{Sub E semst} `{DevSw (kstate E)}.
Abbreviation K := (kstate E).

(** ** [sysproc.c] *)

Definition sys_fork : M K Z := fork.

Definition sys_exit : M K sysres := exit_enter ;;; ret (Leave ToScheduler).

Definition sys_wait : M K sysres :=
  r <~ wait_enter;
  ret match r with Some id => Ret id | None => Leave ToScheduler end.

Definition sys_kill : M K Z := or_fail (argint 0) kill.

Definition sys_getpid : M K Z := p <~ my; ret (pid p).

(** [myproc()->parent] is followed without a test. *)
Definition sys_getppid : M K Z :=
  p <~ my; i <~ deref (parent p); q <~ proc_at i; ret (pid q).

Definition sys_sbrk : M K Z :=
  or_fail (argint 0) (fun n =>
    p <~ my;
    r <~ growproc n;
    ret (if r <? 0 then -1 else i32 (sz p))).

(** [ticks - ticks0 < n] compares unsigned numbers. *)
Definition sys_sleep : M K Z :=
  or_fail (argint 0) (fun n =>
    acquire_k tickslock ;;;
    ticks0 <~ gets ticks;
    loop NPROC (fun _ : unit =>
      t <~ gets ticks;
      if u32 (t - ticks0) <? u32 n then
        p <~ my;
        if negb (killed p =? 0) then release_k tickslock ;;; ret (inr (-1))
        else k_sleep (T := E) ticks_chan tickslock ;;; ret (inl tt)
      else release_k tickslock ;;; ret (inr 0)) tt).

Definition sys_uptime : M K Z :=
  acquire_k tickslock ;;;
  xticks <~ gets ticks;
  release_k tickslock ;;;
  ret (i32 xticks).

(** [yield] up to the switch. *)
Definition sys_yield : M K sysres :=
  h <~ yield_enter;
  match h with
  | Stay => r <~ yield_exit; ret (Ret r)
  | _ => ret (Leave h)
  end.

Definition sys_getlev : M K Z := getlev.

Definition sys_set_cpu_share : M K Z := or_fail (argint 0) set_cpu_share.

(** ** [syslwp.c] *)

(** [argptr(0, (char** )&thread, sizeof(thread))] checks the 4 bytes of a
    pointer; [*thread] has 8. *)
Definition sys_thread_create : M K Z :=
  or_fail (argptr 0 4) (fun thread =>
  or_fail (argptr 1 4) (fun start_routine =>
  or_fail (argptr 2 4) (fun arg =>
    thread_create thread start_routine arg))).

Definition sys_thread_exit : M K sysres :=
  o <~ argptr 0 4;
  match o with
  | None => ret (Ret (-1))
  | Some rv => h <~ thread_exit rv; ret match h with Stay => Ret 0 | _ => Leave h end
  end.

(** The arguments: the thread, by its id and its group, and [retval]. *)
Definition join_args : M K (option (Z * Z * Z)) :=
  p <~ my;
  let addr := u32 (esp (tf p) + 4) in
  if (ustack p <=? addr) || (ustack p <? u32 (addr + 8)) then ret None
  else
    t <~ user_load (pgdir p) addr 8;
    let addr := u32 (addr + 8) in
    if (ustack p <=? addr) || (ustack p <? u32 (addr + 4)) then ret None
    else
      r <~ user_load (pgdir p) addr 4;
      ret (Some (i32 (get32 t 0), i32 (get32 t 4), get32 r 0)).

Definition sys_thread_join : M K sysres :=
  o <~ join_args;
  match o with
  | None => ret (Ret (-1))
  | Some (tid, gid, rv) =>
      r <~ thread_join tid gid rv;
      ret match r with inl v => Ret v | inr h => Leave h end
  end.

(** ** [syssemaphore.c], [sysrwlock.c] *)

(** The address of a pointer argument, checked against [ustack]. *)
Definition get_xemt : M K Z :=
  p <~ my;
  let addr := u32 (esp (tf p) + 4) in
  ret (if (ustack p <=? addr) || (ustack p <? u32 (addr + 4)) then 0 else addr).
Definition get_rwlockt : M K Z := get_xemt.

(** The argument is used as a pointer without a check. *)
Definition sys_xem_init : M K Z := or_fail (argint 0) (fun a => xem_init (u32 a)).
Definition sys_xem_wait : M K Z := or_fail (argint 0) (fun a => xem_wait (u32 a)).
Definition sys_xem_post : M K Z := or_fail (argint 0) (fun a => xem_post (u32 a)).

(** The checks cover the 4 bytes of a pointer. *)
Definition sys_rwlock_init : M K Z := or_fail (argptr 0 4) rwlock_init.
Definition sys_rwlock_acquire_readlock : M K Z := or_fail (argptr 0 4) rwlock_acquire_readlock.
Definition sys_rwlock_acquire_writelock : M K Z := or_fail (argptr 0 4) rwlock_acquire_writelock.
Definition sys_rwlock_release_readlock : M K Z := or_fail (argptr 0 4) rwlock_release_readlock.
Definition sys_rwlock_release_writelock : M K Z := or_fail (argptr 0 4) rwlock_release_writelock.
End calls.
