(* ===== verification/Sysfile.v ===== *)
(** * System calls on files ([sysfile.c])

    The bytes of a user buffer are read before the call that uses them and
    written after it.  A path is the string the argument points to. *)
From Stdlib Require Import ZArith Lia.
From stdpp Require Import base list gmap strings.
From S2P Require Import Prelude Params Mmu Bytes Cstring Spinlock Proc Sched SchedInv Kern Sleeplock FsData Bio Log Demo Kalloc Fs Pipe Vm File Life Syscall.
#[local] Open Scope Z_scope.
#[local] Open Scope kernel_scope.

(** [struct stat] as [stati] fills it in: [type] and [nlink] are [short]s,
    two bytes of padding follow each. *)
Definition stat_bytes (old : list Z) (st : stat) : list Z :=
  put32 (put16 (put32 (put32 (put16 old 0 (st_type st)) 4 (st_dev st)) 8 (st_ino st)) 12 (st_nlink st))
    16 (st_size st).
Definition STAT_SIZE : Z := 20.

(** [argfd] for a descriptor that was fetched. *)
Definition open_fd (p : proc) (fd : Z) : option nat :=
  if (fd <? 0) || (Z.of_nat NOFILE <=? fd) then None else mjoin (ofile p !! Z.to_nat fd).

Section calls.
Context `{Layout} {E : Type} `{Sub E fsstate} `{Sub E kmem} `{Sub E filest} `{DevSw (kstate E)}.
Abbreviation K := (kstate E).

(** The descriptor and the file. *)
Definition argfd (n : Z) : M K (option (Z * nat)) :=
  o <~ argint n;
  match o with
  | None => ret None
  | Some fd =>
      p <~ my;
      ret ((fun f => (fd, f)) <$> open_fd p fd)
  end.

Definition fdalloc (f : nat) : M K (option Z) :=
  cur <~ curproc;
  for_until (seq 0 NOFILE) (fun fd =>
    p <~ proc_at cur;
    match ofile p !! fd with
    | Some (Some _) => ret None
    | Some None =>
        upd_proc cur (fun p => p <| ofile ::= <[fd := Some f]> |>) ;;;
        ret (Some (Z.of_nat fd))
    | None => undef "ofile"
    end).

Definition sys_dup : M K Z :=
  or_fail (argfd 0) (fun '(_, f) =>
  or_fail (fdalloc f) (fun fd =>
    filedup f ;;;
    ret fd)).

(** The bytes that were read go to [p]. *)
Definition copy_read (p : Z) (r : Z * list Z) : M K Z :=
  c <~ my;
  user_write (pgdir c) p (snd r) ;;;
  ret (fst r).

Definition sys_read : M K Z :=
  or_fail (argfd 0) (fun '(_, f) =>
  or_fail (argint 2) (fun n =>
  or_fail (argptr 1 n) (fun p =>
    r <~ fileread f n;
    copy_read p r))).

Definition sys_write : M K Z :=
  or_fail (argfd 0) (fun '(_, f) =>
  or_fail (argint 2) (fun n =>
  or_fail (argptr 1 n) (fun p =>
    c <~ my;
    l <~ user_load (pgdir c) p (Z.to_nat n);
    filewrite f l n))).

Definition sys_pread : M K Z :=
  or_fail (argfd 0) (fun '(_, f) =>
  or_fail (argint 2) (fun n =>
  or_fail (argptr 1 n) (fun addr =>
  or_fail (argint 3) (fun off =>
    r <~ pos_read f n off;
    copy_read addr r)))).

Definition sys_pwrite : M K Z :=
  or_fail (argfd 0) (fun '(_, f) =>
  or_fail (argint 2) (fun n =>
  or_fail (argptr 1 n) (fun addr =>
  or_fail (argint 3) (fun off =>
    c <~ my;
    l <~ user_load (pgdir c) addr (Z.to_nat n);
    pos_write f l n off)))).

(** [myproc()->ofile[fd] = 0] *)
Definition clear_fd (fd : Z) : M K unit :=
  i <~ curproc; upd_proc i (fun p => p <| ofile ::= <[Z.to_nat fd := None]> |>).

Definition sys_close : M K Z :=
  or_fail (argfd 0) (fun '(fd, f) =>
    clear_fd fd ;;;
    fileclose f ;;;
    ret 0).

Definition sys_fstat : M K Z :=
  or_fail (argfd 0) (fun '(_, f) =>
  or_fail (argptr 1 STAT_SIZE) (fun a =>
  or_fail (filestat f) (fun st =>
    c <~ my;
    old <~ user_load (pgdir c) a (Z.to_nat STAT_SIZE);
    user_write (pgdir c) a (stat_bytes old st) ;;;
    ret 0))).

(** [char name[DIRSIZ];] *)
Definition name_buf : list Z := replicate (Z.to_nat DIRSIZ) 0.

(** [ip->nlink += d] *)
Definition add_nlink (ip : nat) (d : Z) : M K unit :=
  mod_inode ip (fun n => n <| inlink ::= fun k => i16 (k + d) |>).

Definition link_bad (ip : nat) : M K Z :=
  ilock (Some ip) ;;;
  add_nlink ip (-1) ;;;
  iupdate ip ;;;
  iunlockput ip ;;;
  end_op ;;;
  ret (-1).

Definition sys_link : M K Z :=
  or_fail (argstr 0) (fun old =>
  or_fail (argstr 1) (fun new =>
    begin_op ;;;
    o <~ namei old;
    match o with
    | None => end_op ;;; ret (-1)
    | Some ip =>
        ilock (Some ip) ;;;
        nd <~ get_inode ip;
        if itype nd =? T_DIR then iunlockput ip ;;; end_op ;;; ret (-1)
        else
          add_nlink ip 1 ;;;
          iupdate ip ;;;
          iunlock (Some ip) ;;;
          r <~ nameiparent new name_buf;
          match r with
          | (None, _) => link_bad ip
          | (Some dp, name) =>
              ilock (Some dp) ;;;
              nd <~ get_inode dp;
              ni <~ get_inode ip;
              r <~ (if negb (idev nd =? idev ni) then ret (-1) else dirlink dp name (inum ni));
              if r <? 0 then iunlockput dp ;;; link_bad ip
              else
                iunlockput dp ;;;
                iput ip ;;;
                end_op ;;;
                ret 0
          end
    end)).

Definition isdirempty (dp : nat) : M K bool :=
  nd <~ get_inode dp;
  r <~ for_until (drop 2 (dir_offsets (isize nd))) (fun k =>
    de <~ read_dirent dp (DIRENT_SIZE * Z.of_nat k) "isdirempty: readi";
    ret (if negb (de_inum de =? 0) then Some tt else None));
  ret (bool_decide (r = None)).

Definition unlink_bad (dp : nat) : M K Z := iunlockput dp ;;; end_op ;;; ret (-1).

Definition sys_unlink : M K Z :=
  or_fail (argstr 0) (fun path =>
    begin_op ;;;
    r <~ nameiparent path name_buf;
    match r with
    | (None, _) => end_op ;;; ret (-1)
    | (Some dp, name) =>
        ilock (Some dp) ;;;
        c1 <~ namecmp name (chars ".");
        c2 <~ (if c1 =? 0 then ret 0 else namecmp name (chars ".."));
        if (c1 =? 0) || (c2 =? 0) then unlink_bad dp
        else
          r <~ dirlookup dp name;
          match r with
          | None => unlink_bad dp
          | Some (ip, off) =>
              ilock (Some ip) ;;;
              nd <~ get_inode ip;
              if inlink nd <? 1 then panic "unlink: nlink < 1"
              else
                keep <~ (if itype nd =? T_DIR then e <~ isdirempty ip; ret (negb e) else ret false);
                if keep : bool then iunlockput ip ;;; unlink_bad dp
                else
                  w <~ writei dp (replicate (Z.to_nat DIRENT_SIZE) 0) off DIRENT_SIZE;
                  if negb (w =? DIRENT_SIZE) then panic "unlink: writei"
                  else
                    nd <~ get_inode ip;
                    (if itype nd =? T_DIR then add_nlink dp (-1) ;;; iupdate dp else ret tt) ;;;
                    iunlockput dp ;;;
                    add_nlink ip (-1) ;;;
                    iupdate ip ;;;
                    iunlockput ip ;;;
                    end_op ;;;
                    ret 0
          end
    end).

(** The inode, locked. *)
Definition create (path : list Z) (type major minor : Z) : M K (option nat) :=
  r <~ nameiparent path name_buf;
  match r with
  | (None, _) => ret None
  | (Some dp, name) =>
      ilock (Some dp) ;;;
      r <~ dirlookup dp name;
      match r with
      | Some (ip, _) =>
          iunlockput dp ;;;
          ilock (Some ip) ;;;
          nd <~ get_inode ip;
          if (type =? T_FILE) && (itype nd =? T_FILE) then ret (Some ip)
          else iunlockput ip ;;; ret None
      | None =>
          nd <~ get_inode dp;
          ip <~ ialloc (idev nd) type;
          ilock (Some ip) ;;;
          mod_inode ip (fun n => n <| imajor := major |> <| iminor := minor |> <| inlink := 1 |>) ;;;
          iupdate ip ;;;
          (if type =? T_DIR then
             add_nlink dp 1 ;;;
             iupdate dp ;;;
             ni <~ get_inode ip;
             r1 <~ dirlink ip (chars ".") (inum ni);
             nd <~ get_inode dp;
             r2 <~ (if r1 <? 0 then ret (-1) else dirlink ip (chars "..") (inum nd));
             if r2 <? 0 then panic "create dots" else ret tt
           else ret tt) ;;;
          ni <~ get_inode ip;
          r <~ dirlink dp name (inum ni);
          if r <? 0 then panic "create: dirlink"
          else
            iunlockput dp ;;;
            ret (Some ip)
      end
  end.

(** [sys_open] up to the file: the inode, locked, in a transaction. *)
Definition open_inode (path : list Z) (omode : Z) : M K (option nat) :=
  if negb (Z.land omode O_CREATE =? 0) then
    o <~ create path T_FILE 0 0;
    match o with
    | None => end_op ;;; ret None
    | Some ip => ret (Some ip)
    end
  else
    o <~ namei path;
    match o with
    | None => end_op ;;; ret None
    | Some ip =>
        ilock (Some ip) ;;;
        nd <~ get_inode ip;
        if (itype nd =? T_DIR) && negb (omode =? O_RDONLY) then
          iunlockput ip ;;; end_op ;;; ret None
        else ret (Some ip)
    end.

(** [f->readable = !(omode & O_WRONLY); f->writable = ...] *)
Definition mode_readable (omode : Z) : Z := bz (Z.land omode O_WRONLY =? 0).
Definition mode_writable (omode : Z) : Z :=
  bz (negb (Z.land omode O_WRONLY =? 0) || negb (Z.land omode O_RDWR =? 0)).

(** A file and its descriptor. *)
Definition open_file : M K (option (nat * Z)) :=
  f <~ filealloc;
  match f with
  | None => ret None
  | Some f =>
      o <~ fdalloc f;
      match o with
      | None => fileclose f ;;; ret None
      | Some fd => ret (Some (f, fd))
      end
  end.

Definition sys_open : M K Z :=
  or_fail (argstr 0) (fun path =>
  or_fail (argint 1) (fun omode =>
    begin_op ;;;
    or_fail (open_inode path omode) (fun ip =>
      o <~ open_file;
      match o with
      | None => iunlockput ip ;;; end_op ;;; ret (-1)
      | Some (f, fd) =>
          iunlock (Some ip) ;;;
          end_op ;;;
          mod_file f (fun x => x <| fkind := FD_INODE |> <| fip := Some ip |> <| foff := 0 |>
            <| readable := mode_readable omode |> <| writable := mode_writable omode |>) ;;;
          ret fd
      end))).

(** [sys_mkdir] and [sys_mknod] once the inode is made, or not. *)
Definition close_new (o : option nat) : M K Z :=
  match o with
  | None => end_op ;;; ret (-1)
  | Some ip => iunlockput ip ;;; end_op ;;; ret 0
  end.

Definition sys_mkdir : M K Z :=
  begin_op ;;;
  path <~ argstr 0;
  o <~ match path with
       | None => ret None
       | Some path => create path T_DIR 0 0
       end;
  close_new o.

Definition sys_mknod : M K Z :=
  begin_op ;;;
  path <~ argstr 0;
  major <~ match path with Some _ => argint 1 | None => ret None end;
  minor <~ match major with Some _ => argint 2 | None => ret None end;
  o <~ match path, major, minor with
       | Some path, Some major, Some minor => create path T_DEV (i16 major) (i16 minor)
       | _, _, _ => ret None
       end;
  close_new o.

Definition sys_chdir : M K Z :=
  cur <~ curproc;
  begin_op ;;;
  path <~ argstr 0;
  o <~ match path with None => ret None | Some path => namei path end;
  match o with
  | None => end_op ;;; ret (-1)
  | Some ip =>
      ilock (Some ip) ;;;
      nd <~ get_inode ip;
      if negb (itype nd =? T_DIR) then iunlockput ip ;;; end_op ;;; ret (-1)
      else
        iunlock (Some ip) ;;;
        p <~ proc_at cur;
        c <~ of_option (Undef "cwd") (cwd p);
        iput c ;;;
        end_op ;;;
        upd_proc cur (fun p => p <| cwd := Some ip |>) ;;;
        ret 0
  end.

Definition sys_pipe : M K Z :=
  or_fail (argptr 0 8) (fun fd =>
  or_fail pipealloc (fun '(rf, wf) =>
    fd0 <~ fdalloc rf;
    fd1 <~ match fd0 with Some _ => fdalloc wf | None => ret None end;
    match fd0, fd1 with
    | Some fd0, Some fd1 =>
        p <~ my;
        user_write (pgdir p) fd (put32 (put32 (replicate 8 0) 0 fd0) 4 fd1) ;;;
        ret 0
    | _, _ =>
        match fd0 with Some fd0 => clear_fd fd0 | None => ret tt end ;;;
        fileclose rf ;;;
        fileclose wf ;;;
        ret (-1)
    end)).
End calls.
