(* ===== verification/Exec.v ===== *)
(** * Running a program ([exec.c], [loaduvm] of [vm.c], [sys_exec] of
    [sysfile.c])

    [exec] takes the path and the arguments as strings with their terminating
    0, the array [argv] being these strings followed by a null pointer. *)
From Stdlib Require Import ZArith Lia.
From stdpp Require Import base list gmap strings.
From S2P Require Import Prelude Params Mmu Bytes Cstring Spinlock Proc Sched SchedInv Kern Sleeplock FsData Bio Log Demo Kalloc Fs Pipe Vm File Life Syscall.
#[local] Open Scope Z_scope.
#[local] Open Scope kernel_scope.

(** [elf.h] *)
Abbreviation ELF_MAGIC := 0x464C457F%Z.
Abbreviation ELF_PROG_LOAD := 1%Z.
Definition ELFHDR_SIZE : Z := 52.
Definition PROGHDR_SIZE : Z := 32.
Record elfhdr := mkelf { elf_magic : Z; elf_entry : Z; elf_phoff : Z; elf_phnum : Z }.
Definition elf_decode (d : list Z) : elfhdr := mkelf (get32 d 0) (get32 d 24) (get32 d 28) (get16 d 44).
Record proghdr := mkph { ph_type : Z; ph_off : Z; ph_vaddr : Z; ph_filesz : Z; ph_memsz : Z }.
Definition ph_decode (d : list Z) : proghdr :=
  mkph (get32 d 0) (get32 d 4) (get32 d 8) (get32 d 16) (get32 d 20).

(** What follows the last slash of a path. *)
Fixpoint after_slash (last s : list Z) : list Z :=
  match s with
  | [] => last
  | c :: s => if c =? 0 then last else after_slash (if c =? 47 then s else last) s
  end.

(** The words [exec] leaves on the new stack, [argc] and the pointers to the
    arguments among them. *)
Definition stack_words (args : list Z) (sp : Z) : list Z :=
  [0xffffffff; Z.of_nat (length args); u32 (sp - (Z.of_nat (length args) + 1) * 4)] ++ args ++ [0].
Definition words_bytes (l : list Z) : list Z := put_words (replicate (4 * length l) 0) 0 l.

Section calls.
Context `{Layout} {E : Type} `{Sub E fsstate} `{Sub E kmem} `{Sub E filest} `{DevSw (kstate E)}.
Abbreviation K := (kstate E).

Definition loaduvm (pgdir addr : Z) (ip : nat) (offset sz : Z) : M K Z :=
  if negb (addr mod PGSIZE =? 0) then panic "loaduvm: addr must be page aligned"
  else
    r <~ for_until (seq 0 (page_count 0 sz)) (fun k =>
      let i := PGSIZE * Z.of_nat k in
      r <~ walkpgdir pgdir (u32 (addr + i)) false;
      match r with
      | None => panic "loaduvm: address should exist"
      | Some pte =>
          e <~ load_pte pte;
          let pa := P2V (PTE_ADDR e) in
          let n := if sz - i <? PGSIZE then sz - i else PGSIZE in
          r <~ readi ip (u32 (offset + i)) n;
          d <~ page_at pa;
          set_page pa (splice d 0 (snd r)) ;;;
          ret (if negb (fst r =? n) then Some (-1) else None)
      end);
    ret (default 0 r).

(** The loop over the program headers: the size of the image, [None] for
    [goto bad]. *)
Definition load_segments (pgdir : Z) (ip : nat) (elf : elfhdr) : M K (option Z) :=
  loop (Z.to_nat (elf_phnum elf) + 1) (fun '(i, off, sz) =>
    if i <? elf_phnum elf then
      r <~ readi ip off PROGHDR_SIZE;
      if negb (fst r =? PROGHDR_SIZE) then ret (inr None)
      else
        let ph := ph_decode (snd r) in
        let next sz := inl (i + 1, u32 (off + PROGHDR_SIZE), sz) in
        if negb (ph_type ph =? ELF_PROG_LOAD) then ret (next sz)
        else if ph_memsz ph <? ph_filesz ph then ret (inr None)
        else if u32 (ph_vaddr ph + ph_memsz ph) <? ph_vaddr ph then ret (inr None)
        else
          sz <~ allocuvm pgdir sz (u32 (ph_vaddr ph + ph_memsz ph));
          if sz =? 0 then ret (inr None)
          else if negb (ph_vaddr ph mod PGSIZE =? 0) then ret (inr None)
          else
            r <~ loaduvm pgdir (ph_vaddr ph) ip (ph_off ph) (ph_filesz ph);
            ret (if r <? 0 then inr None else next sz)
    else ret (inr (Some sz))) (0, elf_phoff elf, 0).

(** The strings on the new stack: their addresses and the stack pointer. *)
Definition push_args (pgdir : Z) (argv : list (list Z)) (sp : Z) : M K (option (list Z * Z)) :=
  loop (length argv + 1) (fun '(rest, args, sp) =>
    match rest with
    | [] => ret (inr (Some (args, sp)))
    | a :: rest =>
        if (MAXARG <=? length args)%nat then ret (inr None)
        else
          n <~ of_option (Undef "strlen") (strlen a);
          let sp := Z.land (u32 (sp - (n + 1))) (u32 (Z.lnot 3)) in
          r <~ copyout pgdir sp a (n + 1);
          ret (if r <? 0 then inr None else inl (rest, args ++ [sp], sp))
    end) (argv, [], sp).

(** [bad]: with the inode while it is locked. *)
Definition exec_bad (pgdir : Z) (ip : option nat) : M K Z :=
  (if pgdir =? 0 then ret tt else freevm pgdir) ;;;
  match ip with
  | Some ip => iunlockput ip ;;; end_op
  | None => ret tt
  end ;;;
  ret (-1).

(** The new stack and the switch to the new image. *)
Definition exec_commit (pgdir sz entry : Z) (path : list Z) (argv : list (list Z)) : M K Z :=
  let sz := PGROUNDUP sz in
  sz <~ allocuvm pgdir sz (u32 (sz + 2 * PGSIZE));
  if sz =? 0 then exec_bad pgdir None
  else
    clearpteu pgdir (u32 (sz - 2 * PGSIZE)) ;;;
    o <~ push_args pgdir argv sz;
    match o with
    | None => exec_bad pgdir None
    | Some (args, sp) =>
        let ustack := stack_words args sp in
        let n := 4 * Z.of_nat (length ustack) in
        let sp := u32 (sp - n) in
        r <~ copyout pgdir sp (words_bytes ustack) n;
        if r <? 0 then exec_bad pgdir None
        else
          cur <~ curproc;
          copy_name cur (after_slash path path) ;;;
          p <~ proc_at cur;
          let oldpgdir := Proc.pgdir p in
          upd_proc cur (fun p => p <| Proc.pgdir := pgdir |> <| Proc.sz := sz |> <| Proc.ustack := sz |>
                                   <| tf := (tf p) <| eip := entry |> <| esp := sp |> |>) ;;;
          switchuvm (Some cur) ;;;
          freevm oldpgdir ;;;
          ret 0
    end.

Definition exec (path : list Z) (argv : list (list Z)) : M K Z :=
  begin_op ;;;
  o <~ namei path;
  match o with
  | None => end_op ;;; ret (-1)
  | Some ip =>
      ilock (Some ip) ;;;
      r <~ readi ip 0 ELFHDR_SIZE;
      let elf := elf_decode (snd r) in
      if negb (fst r =? ELFHDR_SIZE) then exec_bad 0 (Some ip)
      else if negb (elf_magic elf =? ELF_MAGIC) then exec_bad 0 (Some ip)
      else
        pgdir <~ setupkvm;
        if pgdir =? 0 then exec_bad 0 (Some ip)
        else
          o <~ load_segments pgdir ip elf;
          match o with
          | None => exec_bad pgdir (Some ip)
          | Some sz =>
              iunlockput ip ;;;
              end_op ;;;
              exec_commit pgdir sz (elf_entry elf) path argv
          end
  end.

(** The arguments [uargv] points to: at most [MAXARG - 1]. *)
Definition fetch_argv (uargv : Z) : M K (option (list (list Z))) :=
  loop (MAXARG + 1) (fun '(i, argv) =>
    if Z.of_nat MAXARG <=? i then ret (inr None)
    else
      o <~ fetchint (u32 (uargv + 4 * i));
      match o with
      | None => ret (inr None)
      | Some uarg =>
          if uarg =? 0 then ret (inr (Some argv))
          else
            o <~ fetchstr (u32 uarg);
            ret match o with None => inr None | Some s => inl (i + 1, argv ++ [s]) end
      end) (0, []).

Definition sys_exec : M K Z :=
  or_fail (argstr 0) (fun path =>
  or_fail (argint 1) (fun uargv =>
  or_fail (fetch_argv (u32 uargv)) (fun argv =>
    exec path argv))).
End calls.
