(* ===== verification/Trap.v ===== *)
(** * Traps and the system call table ([trap.c], [syscall.c],
    [prac_syscall.c])

    [trap] runs with the registers the trap saved.  It ends by returning to
    what was interrupted, or by leaving the kernel stack; what it does after
    it is switched back to is [trap_tail]. *)
From Stdlib Require Import ZArith Lia.
From stdpp Require Import base list gmap strings.
From S2P Require Import Prelude Params Mmu Seg Bytes Cstring Spinlock Proc Sched SchedInv Kern Sleeplock FsData Bio Log Demo Semaphore Kalloc Fs Pipe Vm File Life Console Dump Kbd Lwp Syscall Sysproc Sysfile Exec.
#[local] Open Scope Z_scope.
#[local] Open Scope kernel_scope.

(** [traps.h] *)
Abbreviation T_IRQ0 := 32%Z.
Abbreviation IRQ_TIMER := 0%Z.
Abbreviation IRQ_KBD := 1%Z.
Abbreviation IRQ_COM1 := 4%Z.
Abbreviation IRQ_IDE := 14%Z.
Abbreviation IRQ_SPURIOUS := 31%Z.

Section calls.
Context `{Layout} {E : Type} `{Sub E fsstate} `{Sub E kmem} `{Sub E filest} `{Sub E semst} `{Sub E console}.
Abbreviation K := (kstate E).

Definition my_syscall (str : list Z) : M K Z :=
  cprintf (text "%s" ++ [NL]) [AStr (Some (removelast str))] ;;;
  ret (i32 0xABCDABCD).
Definition sys_my_syscall : M K Z := or_fail (argstr 0) my_syscall.

(** A call that returns. *)
Definition plain (m : M K Z) : M K sysres := v <~ m; ret (Ret v).

(** [syscalls[num]] *)
Definition syscalls (num : Z) : option (M K sysres) :=
  match num with
  | 1 => Some (plain sys_fork)
  | 2 => Some sys_exit
  | 3 => Some sys_wait
  | 4 => Some (plain sys_pipe)
  | 5 => Some (plain sys_read)
  | 6 => Some (plain sys_kill)
  | 7 => Some (plain sys_exec)
  | 8 => Some (plain sys_fstat)
  | 9 => Some (plain sys_chdir)
  | 10 => Some (plain sys_dup)
  | 11 => Some (plain sys_getpid)
  | 12 => Some (plain sys_sbrk)
  | 13 => Some (plain sys_sleep)
  | 14 => Some (plain sys_uptime)
  | 15 => Some (plain sys_open)
  | 16 => Some (plain sys_write)
  | 17 => Some (plain sys_mknod)
  | 18 => Some (plain sys_unlink)
  | 19 => Some (plain sys_link)
  | 20 => Some (plain sys_mkdir)
  | 21 => Some (plain sys_close)
  | 22 => Some (plain sys_my_syscall)
  | 23 => Some (plain sys_getppid)
  | 24 => Some sys_yield
  | 25 => Some (plain sys_getlev)
  | 26 => Some (plain sys_set_cpu_share)
  | 27 => Some (plain sys_thread_create)
  | 28 => Some sys_thread_exit
  | 29 => Some sys_thread_join
  | 30 => Some (plain sys_xem_init)
  | 31 => Some (plain sys_xem_wait)
  | 32 => Some (plain sys_xem_post)
  | 33 => Some (plain sys_rwlock_init)
  | 34 => Some (plain sys_rwlock_acquire_readlock)
  | 35 => Some (plain sys_rwlock_acquire_writelock)
  | 36 => Some (plain sys_rwlock_release_readlock)
  | 37 => Some (plain sys_rwlock_release_writelock)
  | 38 => Some (plain sys_pread)
  | 39 => Some (plain sys_pwrite)
  | _ => None
  end.
Definition NSYSCALLS : Z := 40.

(** [curproc->tf->eax = v] *)
Definition set_eax (cur : nat) (v : Z) : M K unit :=
  upd_proc cur (fun p => p <| tf := (tf p) <| eax := u32 v |> |>).

(** [syscall]; [Some h] when the call leaves the kernel stack. *)
Definition syscall : M K (option handoff) :=
  cur <~ curproc;
  p <~ proc_at cur;
  let num := i32 (eax (tf p)) in
  match (if (0 <? num) && (num <? NSYSCALLS) then syscalls num else None) with
  | Some f =>
      r <~ f;
      match r with
      | Ret v => set_eax cur v ;;; ret None
      | Leave h => ret (Some h)
      end
  | None =>
      cprintf (text "%d %s: unknown sys call %d" ++ [NL]) [AInt (pid p); AStr (Some (field 16 (name p))); AInt num] ;;;
      set_eax cur (-1) ;;;
      ret None
  end.

Inductive trapres := TReturn | TLeave (h : handoff).

(** [if(myproc() && myproc()->killed && (tf->cs&3) == DPL_USER) exit();] *)
Definition exit_if_killed (f : trapframe) (k : M K trapres) : M K trapres :=
  o <~ on_mach myproc;
  match o with
  | None => k
  | Some i =>
      p <~ proc_at i;
      if negb (killed p =? 0) && (Z.land (cs f) 3 =? DPL_USER) then exit_enter ;;; ret (TLeave ToScheduler)
      else k
  end.

(** The clock interrupt on the first CPU. *)
Definition clock_tick : M K unit :=
  i <~ on_mach cpuid;
  if (i =? 0)%nat then
    acquire_k tickslock ;;;
    modify (fun s => s <| ticks := u32 (ticks s + 1) |>) ;;;
    wakeup ticks_chan ;;;
    release_k tickslock
  else ret tt.

(** An exception in the kernel. *)
Definition kernel_trap (f : trapframe) (cr2 : Z) : M K unit :=
  c <~ on_mach cpuid;
  cprintf (text "unexpected trap %d from cpu %d eip %x (cr2=0x%x)" ++ [NL])
    [AInt (trapno f); AInt (Z.of_nat c); AInt (eip f); AInt cr2] ;;;
  panic "trap".

(** An exception the kernel does not handle; [cr2] is the register with the
    address of a page fault. *)
Definition unexpected_trap (f : trapframe) (cr2 : Z) : M K unit :=
  o <~ on_mach myproc;
  match o with
  | Some i =>
      if Z.land (cs f) 3 =? 0 then kernel_trap f cr2
      else
        p <~ proc_at i;
        c <~ on_mach cpuid;
        cprintf (text "pid %d tid %d %s: trap %d err %d on cpu %d eip 0x%x addr 0x%x--kill proc" ++ [NL])
          [AInt (pid p); AInt (thread_id p); AStr (Some (field 16 (name p))); AInt (trapno f); AInt (err f);
           AInt (Z.of_nat c); AInt (eip f); AInt cr2] ;;;
        upd_proc i (fun p => p <| killed := 1 |>)
  | None => kernel_trap f cr2
  end.

(** The interrupt itself.  [ports] are the bytes the keyboard or the serial
    port has ready, [word] the words of the kernel's stacks.  The
    acknowledgements are left out. *)
Definition trap_device (word : Z -> Z) (f : trapframe) (cr2 : Z) (ports : list Z) : M K unit :=
  let n := trapno f in
  if n =? T_IRQ0 + IRQ_TIMER then clock_tick
  else if n =? T_IRQ0 + IRQ_IDE then ret tt
  else if n =? T_IRQ0 + IRQ_IDE + 1 then ret tt
  else if n =? T_IRQ0 + IRQ_KBD then d <~ kbdintr ports; if d : bool then procdump word else ret tt
  else if n =? T_IRQ0 + IRQ_COM1 then d <~ uartintr ports; if d : bool then procdump word else ret tt
  else if (n =? T_IRQ0 + 7) || (n =? T_IRQ0 + IRQ_SPURIOUS) then
    c <~ on_mach cpuid;
    cprintf (text "cpu%d: spurious interrupt at %x:%x" ++ [NL])
      [AInt (Z.of_nat c); AInt (cs f); AInt (eip f)]
  else unexpected_trap f cr2.

(** After the [yield]. *)
Definition trap_tail (f : trapframe) : M K trapres := exit_if_killed f (ret TReturn).

(** [if(myproc() && myproc()->state == RUNNING && timer) yield();] and on *)
Definition trap_preempt (f : trapframe) : M K trapres :=
  o <~ on_mach myproc;
  match o with
  | None => trap_tail f
  | Some i =>
      p <~ proc_at i;
      if bool_decide (state p = RUNNING) && (trapno f =? T_IRQ0 + IRQ_TIMER) then
        h <~ yield_enter;
        match h with
        | Stay => yield_exit ;;; trap_tail f
        | _ => ret (TLeave h)
        end
      else trap_tail f
  end.

Definition trap (word : Z -> Z) (f : trapframe) (cr2 : Z) (ports : list Z) : M K trapres :=
  if trapno f =? T_SYSCALL then
    i <~ curproc;
    p <~ proc_at i;
    if negb (killed p =? 0) then exit_enter ;;; ret (TLeave ToScheduler)
    else
      upd_proc i (fun p => p <| tf := f |>) ;;;
      r <~ syscall;
      match r with
      | Some h => ret (TLeave h)
      | None =>
          p <~ proc_at i;
          if negb (killed p =? 0) then exit_enter ;;; ret (TLeave ToScheduler) else ret TReturn
      end
  else
    trap_device word f cr2 ports ;;;
    exit_if_killed f (trap_preempt f).
End calls.
