(* ===== verification/TrapThms.v ===== *)
(** * The clock interrupt

    What [trap] does on a clock interrupt while a process without threads
    runs, and what the state [yield] leaves behind means for the next one and
    for another CPU. *)
From Stdlib Require Import ZArith Lia.
From stdpp Require Import base list gmap strings.
From S2P Require Import Prelude Params Mmu Seg Bytes Cstring Spinlock Proc Sched SchedInv SchedPick SchedThms SchedRun Kern Sleeplock FsData Bio Log Demo Semaphore Kalloc Fs Pipe Vm File Life Console Env Kbd Lwp Syscall Sysproc Sysfile Exec Trap.
#[local] Open Scope Z_scope.
#[local] Open Scope kernel_scope.

Section timer.
Context `{Layout} {E : Type} `{Sub E fsstate} `{Sub E kmem} `{Sub E filest} `{Sub E semst} `{Sub E console}.
Context (np : Z) (ip : option nat) (fi : bool) (kp : Z) (e : E).
Abbreviation st m pt q tk := (mkk m pt q np ip tk fi kp e).
Implicit Types (m : machine) (pt : list proc) (q : mlfq) (w : who) (p : proc) (f : trapframe).

(** The clock interrupt of the first CPU changes no process that is awake. *)
Lemma wp_clock_tick pt q m w tk (Q : unit -> kstate E -> Prop) :
  view m [] w -> w_on w = false -> w_cpu w = 0%nat -> sched_inv pt q ->
  (forall m' pt' q', view m' [] w -> sched_inv pt' q' -> same_queue q q' ->
     (forall j p, pt !! j = Some p -> state p <> SLEEPING -> pt' !! j = Some p) ->
     Q tt (st m' pt' q' (u32 (tk + 1)))) ->
  wp clock_tick never Q (st m pt q tk).
Proof.
  intros Hv Hon Hcpu Hinv HQ. unfold clock_tick. kstep. apply wp_on_mach.
  pose proof Hv as (c & Hc & _ & _ & _ & Hi & _). rewrite Hon in Hi.
  unfold wp at 1. unfold cpuid. rewrite (mycpu_run _ _ _ Hc Hi), Hcpu. cbn [Nat.eqb]. cbn beta iota.
  do 3 kstep. apply wp_modify. kstep.
  eapply wp_wakeup with (pt := pt) (q := q); [done|set_solver|set_solver|done|]. intros m1 q1 Hv1 Hinv1 Hq1.
  ksteps. apply HQ; [done..|]. intros j p Hj Hs. rewrite list_lookup_fmap, Hj. cbn.
  unfold wake. destruct (sleeps_on ticks_chan p) eqn:Hso; [|done]. by apply sleeps_on_state in Hso.
Qed.

Lemma wp_exit_if_killed pt q m w tk i p f k (Q : trapres -> kstate E -> Prop) :
  view m [] w -> w_proc w = Some i -> pt !! i = Some p -> killed p = 0 ->
  (forall m', view m' [] w -> wp k never Q (st m' pt q tk)) ->
  wp (exit_if_killed f k) never Q (st m pt q tk).
Proof.
  intros Hv Hw Hi Hk HQ. unfold exit_if_killed. kstep. eapply wp_myproc_k; [done|].
  intros m' Hv'. rewrite Hw. ksteps. rewrite Hk. cbn. by apply HQ.
Qed.

Lemma wp_trap_tail pt q m w tk i p f (Q : trapres -> kstate E -> Prop) :
  view m [] w -> w_proc w = Some i -> pt !! i = Some p -> killed p = 0 ->
  (forall m', view m' [] w -> Q TReturn (st m' pt q tk)) ->
  wp (trap_tail f) never Q (st m pt q tk).
Proof.
  intros Hv Hw Hi Hk HQ. eapply wp_exit_if_killed; [done..|]. intros m' Hv'. kstep. by apply HQ.
Qed.

(** The clock interrupt up to the test for preemption. *)
Lemma wp_timer pt q m w tk i p word f cr2 ports (Q : trapres -> kstate E -> Prop) :
  trapno f = T_IRQ0 + IRQ_TIMER -> view m [] w -> w_on w = false -> w_cpu w = 0%nat ->
  w_proc w = Some i -> sched_inv pt q -> pt !! i = Some p -> state p <> SLEEPING -> killed p = 0 ->
  (forall m' pt' q', view m' [] w -> sched_inv pt' q' -> same_queue q q' -> pt' !! i = Some p ->
     wp (trap_preempt f) never Q (st m' pt' q' (u32 (tk + 1)))) ->
  wp (trap word f cr2 ports) never Q (st m pt q tk).
Proof.
  intros Hf Hv Hon Hcpu Hw Hinv Hi Hs Hk HQ. unfold trap, trap_device. rewrite Hf.
  change (T_IRQ0 + IRQ_TIMER =? T_SYSCALL) with false. rewrite Z.eqb_refl. kstep.
  eapply wp_clock_tick; [done..|]. intros m1 pt1 q1 Hv1 Hinv1 Hq1 Hsame.
  eapply wp_exit_if_killed; [done|done|by apply Hsame|done|]. intros m2 Hv2.
  by apply HQ; [..|apply Hsame].
Qed.

(** A process that is not [RUNNING] is not preempted. *)
Lemma wp_timer_runnable pt q m w tk i p word f cr2 ports :
  trapno f = T_IRQ0 + IRQ_TIMER -> view m [] w -> w_on w = false -> w_cpu w = 0%nat ->
  w_proc w = Some i -> sched_inv pt q -> pt !! i = Some p -> state p = RUNNABLE -> killed p = 0 ->
  wp (trap word f cr2 ports) never (fun r s => r = TReturn /\ ptable s !! i = Some p) (st m pt q tk).
Proof.
  intros Hf Hv Hon Hcpu Hw Hinv Hi Hs Hk. eapply wp_timer; [done|done|done|done|done|done|done|by rewrite Hs|done|].
  intros m1 pt1 q1 Hv1 Hinv1 Hq1 Hi1. unfold trap_preempt. kstep.
  eapply wp_myproc_k; [done|]. intros m2 Hv2. rewrite Hw. ksteps. rewrite Hs. cbn [bool_decide andb decide].
  rewrite bool_decide_eq_false_2 by done. by eapply wp_trap_tail.
Qed.

Lemma wp_timer_stay pt q m w tk i p word f cr2 ports (Q : trapres -> kstate E -> Prop) :
  trapno f = T_IRQ0 + IRQ_TIMER -> view m [] w -> w_on w = false -> w_cpu w = 0%nat ->
  w_proc w = Some i -> sched_inv pt q -> pt !! i = Some p -> state p = RUNNING -> solo i p ->
  killed p = 0 -> yield_lowers p = false -> boosting (u32 (tk + 1)) q = false ->
  Z.rem (tickcount p) (timequant p) <> 0 ->
  (forall m' pt' q' p', view m' [] w -> sched_inv pt' q' -> pt' !! i = Some p' ->
     state p' = RUNNABLE -> killed p' = 0 ->
     Q TReturn (st m' pt' q' (u32 (tk + 1)))) ->
  wp (trap word f cr2 ports) never Q (st m pt q tk).
Proof.
  intros Hf Hv Hon Hcpu Hw Hinv Hi Hs Hsolo Hk Hlow Hboost Hrem HQ.
  eapply wp_timer; [done|done|done|done|done|done|done|by rewrite Hs|done|].
  intros m1 pt1 q1 Hv1 Hinv1 Hq1 Hi1. unfold trap_preempt. kstep.
  eapply wp_myproc_k; [done|]. intros m2 Hv2. rewrite Hw. ksteps. rewrite Hf, Hs, Z.eqb_refl.
  rewrite bool_decide_eq_true_2 by done. cbn [andb]. kstep. destruct Hsolo as [Hg Hc Ht _ _ _].
  eapply wp_yield_enter with (L := []); [done|done|set_solver|set_solver|set_solver|done|done| |done|lia|done|].
  { unfold active. rewrite Hs. done. }
  intros m3 q3 Hv3 Hinv3 _. pose proof (yield_table_self (u32 (tk + 1)) q1 i p pt1 Hi1) as Hself.
  set (p' := yield_proc (u32 (tk + 1)) q1 p) in *.
  assert (boosting (u32 (tk + 1)) q1 = false) as Hb.
  { unfold boosting in *. by destruct Hq1 as (_ & _ & -> & _). }
  assert (timequant p' = timequant p /\ killed p' = killed p) as [Hq Hkp].
  { unfold p', yield_proc, yield_self. rewrite Hb, Hlow. by repeat case_match. }
  unfold yield_hand. rewrite Hlow, Hq. cbn [orb].
  destruct (Z.eqb_spec (Z.rem (tickcount p) (timequant p)) 0); [done|].
  unfold yield_exit. ksteps. eapply wp_trap_tail; [done|done|done|by rewrite Hkp|].
  intros m5 Hv5. eapply HQ; [done..|apply yield_proc_runnable|by rewrite Hkp].
Qed.
End timer.

Section thms.
Context `{Layout} {E : Type} `{Sub E fsstate} `{Sub E kmem} `{Sub E filest} `{Sub E semst} `{Sub E console}.
Implicit Types (s : kstate E) (w : who) (p : proc) (f : trapframe).

End thms.

(** ** Concrete interrupts *)

(** A CPU in an interrupt: interrupts are off. *)
Definition cpu_off (id : Z) (o : option nat) : cpu := mkcpu id false 0 false o 0 0.
Definition mach_off : machine := mkmachine [cpu_off 7 (Some 0%nat)] 0 7 ∅.
Definition who_off : who := mkwho 0 false (Some 0%nat) [cpu_off 7 (Some 0%nat)].

Lemma view_off : view mach_off [] who_off.
Proof. exists (cpu_off 7 (Some 0%nat)). repeat split; try done; try set_solver. constructor. Qed.

(** One tick into its quantum of five. *)
Definition ticked : proc := (a_proc 0 1 RUNNING 2) <| tickcount := 1 |>.
Definition ticked_table : list proc := table_of [ticked].
Definition ticked_queue : mlfq := mkmlfq 0 0 0 1 0 None [0; 0; 1] (replicate NPROC None).
Definition timer_tf : trapframe := tf_zero <| trapno := 32 |>.


(** Two CPUs: the first runs the process, the second is in [scheduler]. *)
Definition mach_two : machine := mkmachine [cpu_one (Some 0%nat); mkcpu 8 true 0 false None 0 0] 0 7 ∅.
Definition two_cpus : kstate unit :=
  mkk mach_two ticked_table ticked_queue 2 (Some 0%nat) 10 false 2147483648 tt.
Definition on_second (s : kstate unit) : kstate unit :=
  s <| mach ::= fun m => m <| here := 1%nat |> <| lapicid := 8 |> |>.

