(* ===== verification/Ide.v ===== *)
(** * The IDE driver ([ide.c])

    The driver appends requests to a queue that is linked through the buffers
    and works on the first; the interrupt at its end starts the next.  The
    drive is modelled by what the driver uses of it: the command registers,
    which give unit and sector of a transfer, and the data port.  [status] is
    what the drive answers to the coming reads of its status register; when
    it is used up the drive is ready.

    The code below runs with [idelock] held; [iderw] is cut where it sleeps. *)
From Stdlib Require Import ZArith Lia.
From stdpp Require Import base list gmap strings relations.
From S2P Require Import Prelude Params Bytes FsData.
#[local] Open Scope Z_scope.
#[local] Open Scope kernel_scope.

Abbreviation SECTOR_SIZE := 512%Z.
Abbreviation IDE_BSY := 0x80%Z.
Abbreviation IDE_DRDY := 0x40%Z.
Abbreviation IDE_DF := 0x20%Z.
Abbreviation IDE_ERR := 0x01%Z.
Abbreviation IDE_CMD_READ := 0x20%Z.
Abbreviation IDE_CMD_WRITE := 0x30%Z.
Abbreviation IDE_CMD_RDMUL := 0xc4%Z.
Abbreviation IDE_CMD_WRMUL := 0xc5%Z.

(** ** The drive *)

(** A command the drive works on. *)
Record command := mkcommand { is_write : bool; unit_ : Z; sector_ : Z }.
Record drive := mkdrive {
  lba0 : Z; lba1 : Z; lba2 : Z; head_ : Z; nsectors : Z;
  active : option command;
  status : list Z;
  sectors : Z -> Z -> list Z
}.
#[export] Instance eta_drive : Eta drive := fun d =>
  mkdrive (lba0 d) (lba1 d) (lba2 d) (head_ d) (nsectors d) (active d) (status d) (sectors d).

(** The unit and the 28-bit sector number of the registers. *)
Definition reg_unit (d : drive) : Z := Z.land (Z.shiftr (head_ d) 4) 1.
Definition reg_sector (d : drive) : Z :=
  Z.lor (Z.lor (lba0 d) (Z.shiftl (lba1 d) 8)) (Z.lor (Z.shiftl (lba2 d) 16) (Z.shiftl (Z.land (head_ d) 0x0f) 24)).

Definition hw_outb (port v : Z) (d : drive) : drive :=
  if port =? 0x1f2 then d <| nsectors := v |>
  else if port =? 0x1f3 then d <| lba0 := v |>
  else if port =? 0x1f4 then d <| lba1 := v |>
  else if port =? 0x1f5 then d <| lba2 := v |>
  else if port =? 0x1f6 then d <| head_ := v |>
  else if port =? 0x1f7 then
    d <| active := Some (mkcommand ((v =? IDE_CMD_WRITE) || (v =? IDE_CMD_WRMUL)) (reg_unit d) (reg_sector d)) |>
  else d.
(** One sector through the data port. *)
Definition hw_outsl (data : list Z) (d : drive) : drive :=
  match active d with
  | Some c => d <| sectors ::= fun f u k => if (u =? unit_ c) && (k =? sector_ c) then data else f u k |>
  | None => d
  end.
Definition hw_insl (d : drive) : list Z :=
  match active d with Some c => sectors d (unit_ c) (sector_ c) | None => [] end.

(** ** The driver *)

Record ibuf := mkibuf { b_flags : Z; b_dev : Z; b_blockno : Z; b_qnext : Z; b_data : list Z }.
#[export] Instance eta_ibuf : Eta ibuf := fun b => mkibuf (b_flags b) (b_dev b) (b_blockno b) (b_qnext b) (b_data b).

Record idest := mkidest { ibufs : gmap Z ibuf; idequeue : Z; havedisk1 : Z; hw : drive; woken_bufs : list Z }.
#[export] Instance eta_idest : Eta idest := fun s => mkidest (ibufs s) (idequeue s) (havedisk1 s) (hw s) (woken_bufs s).

Definition buf_at (a : Z) : M idest ibuf := s <~ get; of_option (Undef "buf") (ibufs s !! a).
Definition set_buf (a : Z) (f : ibuf -> ibuf) : M idest unit := b <~ buf_at a; modify (fun s => s <| ibufs ::= <[a := f b]> |>).
Definition outb (port v : Z) : M idest unit := modify (fun s => s <| hw ::= hw_outb port v |>).
Definition outsl (data : list Z) : M idest unit := modify (fun s => s <| hw ::= hw_outsl data |>).
Definition insl : M idest (list Z) := gets (fun s => hw_insl (hw s)).
(** [inb(0x1f7)] *)
Definition inb_status : M idest Z :=
  s <~ get;
  match status (hw s) with
  | [] => ret IDE_DRDY
  | r :: l => put (s <| hw := (hw s) <| status := l |> |>) ;;; ret r
  end.

Definition idewait (checkerr : bool) : M idest Z :=
  s <~ get;
  r <~ loop (length (status (hw s)) + 1) (fun _ : unit =>
    r <~ inb_status;
    ret (if Z.land r (Z.lor IDE_BSY IDE_DRDY) =? IDE_DRDY then inr r else inl tt)) tt;
  ret (if checkerr && negb (Z.land r (Z.lor IDE_DF IDE_ERR) =? 0) then -1 else 0).

(** [initlock] and [ioapicenable] are left out. *)
Definition ideinit : M idest unit :=
  idewait false ;;;
  outb 0x1f6 (Z.lor 0xe0 (Z.shiftl 1 4)) ;;;
  for_until (seq 0 1000) (fun _ =>
    r <~ inb_status;
    if negb (r =? 0) then modify (fun s => s <| havedisk1 := 1 |>) ;;; ret (Some tt) else ret None) ;;;
  outb 0x1f6 (Z.lor 0xe0 (Z.shiftl 0 4)).

Definition idestart (a : Z) : M idest unit :=
  if a =? 0 then panic "idestart"
  else
    b <~ buf_at a;
    if FSSIZE <=? b_blockno b then panic "incorrect blockno"
    else
      let sector_per_block := BSIZE / SECTOR_SIZE in
      let sector := i32 (b_blockno b * sector_per_block) in
      let read_cmd := if sector_per_block =? 1 then IDE_CMD_READ else IDE_CMD_RDMUL in
      let write_cmd := if sector_per_block =? 1 then IDE_CMD_WRITE else IDE_CMD_WRMUL in
      if 7 <? sector_per_block then panic "idestart"
      else
        idewait false ;;;
        outb 0x3f6 0 ;;;
        outb 0x1f2 sector_per_block ;;;
        outb 0x1f3 (Z.land sector 0xff) ;;;
        outb 0x1f4 (Z.land (Z.shiftr sector 8) 0xff) ;;;
        outb 0x1f5 (Z.land (Z.shiftr sector 16) 0xff) ;;;
        outb 0x1f6 (Z.lor (Z.lor 0xe0 (Z.shiftl (Z.land (b_dev b) 1) 4)) (Z.land (Z.shiftr sector 24) 0x0f)) ;;;
        if negb (Z.land (b_flags b) B_DIRTY =? 0) then outb 0x1f7 write_cmd ;;; outsl (b_data b)
        else outb 0x1f7 read_cmd.

(** [ideintr]; [wakeup(b)] is recorded. *)
Definition ideintr : M idest unit :=
  s <~ get;
  let a := idequeue s in
  if a =? 0 then ret tt
  else
    b <~ buf_at a;
    modify (fun s => s <| idequeue := b_qnext b |>) ;;;
    (if Z.land (b_flags b) B_DIRTY =? 0 then
       r <~ idewait true;
       if 0 <=? r then d <~ insl; set_buf a (fun b => b <| b_data := d |>) else ret tt
     else ret tt) ;;;
    set_buf a (fun b => b <| b_flags ::= fun f => Z.land (Z.lor f B_VALID) (Z.lnot B_DIRTY) |>) ;;;
    modify (fun s => s <| woken_bufs ::= cons a |>) ;;;
    s <~ get;
    if negb (idequeue s =? 0) then idestart (idequeue s) else ret tt.

(** Where [pp] points: [&idequeue] or the [qnext] of a buffer. *)
Definition deref (pp : option Z) : M idest Z :=
  match pp with
  | None => gets idequeue
  | Some a => b <~ buf_at a; ret (b_qnext b)
  end.
Definition assign (pp : option Z) (v : Z) : M idest unit :=
  match pp with
  | None => modify (fun s => s <| idequeue := v |>)
  | Some a => set_buf a (fun b => b <| b_qnext := v |>)
  end.

(** [iderw] up to the wait; [locked] is [holdingsleep(&b->lock)]. *)
Definition iderw_enter (locked : bool) (a : Z) : M idest unit :=
  b <~ buf_at a;
  if negb locked then panic "iderw: buf not locked"
  else if Z.land (b_flags b) (Z.lor B_VALID B_DIRTY) =? B_VALID then panic "iderw: nothing to do"
  else
    s <~ get;
    if negb (b_dev b =? 0) && (havedisk1 s =? 0) then panic "iderw: ide disk 1 not present"
    else
      set_buf a (fun b => b <| b_qnext := 0 |>) ;;;
      pp <~ loop (size (ibufs s) + 1) (fun pp =>
        p <~ deref pp;
        ret (if p =? 0 then inr pp else inl (Some p))) None;
      assign pp a ;;;
      s <~ get;
      if idequeue s =? a then idestart a else ret tt.
(** [while((b->flags & (B_VALID|B_DIRTY)) != B_VALID)]: the process waits. *)
Definition iderw_waits (b : ibuf) : bool := negb (Z.land (b_flags b) (Z.lor B_VALID B_DIRTY) =? B_VALID).

(** ** The queue *)

Definition request_ok (have1 : Z) (b : ibuf) : Prop :=
  (b_dev b = 0 \/ (b_dev b = 1 /\ have1 <> 0)) /\ 0 <= b_blockno b < FSSIZE /\ iderw_waits b = true.

Fixpoint linked (bs : gmap Z ibuf) (h : Z) (q : list Z) : Prop :=
  match q with
  | [] => h = 0
  | a :: q => h = a /\ a <> 0 /\ exists b, bs !! a = Some b /\ linked bs (b_qnext b) q
  end.

Lemma linked_other bs h q a b : linked bs h q -> a ∉ q -> linked (<[a := b]> bs) h q.
Proof.
  revert h. induction q as [|x q IH]; cbn; intros h; [done|]. intros (-> & Hx & b' & Hb' & Hq) Ha. apply not_elem_of_cons in Ha as [Hne Ha].
  split; [done|]. split; [done|]. exists b'. rewrite lookup_insert_ne by done. split; [done|]. by apply IH.
Qed.

(** Only [qnext] matters. *)
Lemma linked_same bs h q a b b' : linked bs h q -> bs !! a = Some b -> b_qnext b' = b_qnext b -> linked (<[a := b']> bs) h q.
Proof.
  revert h. induction q as [|x q IH]; cbn; intros h Hl Ha Hn; [done|]. destruct Hl as (-> & Hx & bx & Hbx & Hq). split; [done|]. split; [done|].
  destruct (decide (a = x)) as [->|Hne].
  - exists b'. rewrite lookup_insert_eq. split; [done|]. rewrite Hn. replace b with bx by congruence. by apply IH.
  - exists bx. rewrite lookup_insert_ne by done. split; [done|]. by apply IH.
Qed.

(** Setting the last link. *)
Lemma linked_snoc bs h q y by_ a ba : linked bs h (q ++ [y]) -> bs !! y = Some by_ -> NoDup (q ++ [y]) -> bs !! a = Some ba -> b_qnext ba = 0 -> a <> 0 ->
  a ∉ q ++ [y] -> linked (<[y := by_ <| b_qnext := a |>]> bs) h (q ++ [y; a]).
Proof.
  revert h. induction q as [|x q IH]; cbn; intros h Hl Hy Hnd Ha Hn Ha0 Hna.
  - destruct Hl as (-> & Hy0 & b & Hb & Hq). assert (y <> a) by set_solver.
    split; [done|]. split; [done|]. eexists. rewrite lookup_insert_eq. split; [done|]. cbn. split; [done|]. split; [done|].
    exists ba. rewrite lookup_insert_ne by done. done.
  - destruct Hl as (-> & Hx & bx & Hbx & Hq). apply NoDup_cons in Hnd as [Hxq Hnd]. apply not_elem_of_cons in Hna as [Hax Hna].
    split; [done|]. split; [done|]. exists bx. rewrite lookup_insert_ne by (intros ->; set_solver). split; [done|]. by apply IH.
Qed.

(** ** The registers *)

Lemma mask_bit w n : 0 <= w -> 0 <= n -> Z.testbit (Z.ones w) n = (n <? w).
Proof. intros. rewrite Z.testbit_ones by lia. by destruct (Z.leb_spec 0 n); [|lia]. Qed.
(** The registers name the sector and the unit. *)
Lemma sector_regs k u : 0 <= k < 2 ^ 28 -> 0 <= u < 2 ->
  let h := Z.lor (Z.lor 0xe0 (Z.shiftl (Z.land u 1) 4)) (Z.land (Z.shiftr k 24) 0x0f) in
  Z.lor (Z.lor (Z.land k 0xff) (Z.shiftl (Z.land (Z.shiftr k 8) 0xff) 8))
    (Z.lor (Z.shiftl (Z.land (Z.shiftr k 16) 0xff) 16) (Z.shiftl (Z.land h 0x0f) 24)) = k /\ Z.land (Z.shiftr h 4) 1 = u.
Proof.
  intros Hk Hu h.
  assert (Z.land h 0x0f = Z.land (Z.shiftr k 24) 0x0f) as Hlo.
  { unfold h. rewrite !Z.land_lor_distr_l. assert (u = 0 \/ u = 1) as [->| ->] by lia; cbn -[Z.land Z.shiftr Z.lor];
    rewrite <- Z.land_assoc; done. }
  split.
  - rewrite Hlo. change 0xff with (Z.ones 8). change 0x0f with (Z.ones 4). apply Z.bits_inj'. intros n Hn.
    rewrite !Z.lor_spec, !Z.land_spec, !Z.shiftl_spec, !Z.land_spec, mask_bit by lia.
    destruct (Z.ltb_spec n 8).
    { rewrite andb_true_r. rewrite !(Z.testbit_neg_r _ (n - _)) by lia. cbn. rewrite !orb_false_r. done. }
    rewrite andb_false_r. cbn [orb].
    destruct (Z.ltb_spec n 16).
    { rewrite (Z.testbit_neg_r _ (n - 16)), (Z.testbit_neg_r _ (n - 24)) by lia. rewrite Z.shiftr_spec, mask_bit by lia.
      replace (n - 8 + 8) with n by lia. destruct (Z.ltb_spec (n - 8) 8); [|lia]. cbn. by rewrite andb_true_r, !orb_false_r. }
    destruct (Z.ltb_spec n 24).
    { rewrite (Z.testbit_neg_r _ (n - 24)) by lia. rewrite !Z.shiftr_spec, !mask_bit by lia. destruct (Z.ltb_spec (n - 8) 8); [lia|].
      destruct (Z.ltb_spec (n - 16) 8); [|lia]. replace (n - 16 + 16) with n by lia. by rewrite andb_true_r, andb_false_r, orb_false_r. }
    rewrite !Z.shiftr_spec, !mask_bit by lia. destruct (Z.ltb_spec (n - 8) 8); [lia|]. destruct (Z.ltb_spec (n - 16) 8); [lia|].
    replace (n - 24 + 24) with n by lia. rewrite !andb_false_r. cbn [orb]. destruct (Z.ltb_spec (n - 24) 4); [by rewrite andb_true_r|].
    rewrite andb_false_r. symmetry. destruct (Z.eq_dec k 0) as [->|]; [apply Z.bits_0|]. apply Z.bits_above_log2; [lia|].
    enough (Z.log2 k < 28) by lia. apply Z.log2_lt_pow2; lia.
  - unfold h. rewrite !Z.shiftr_lor, !Z.land_lor_distr_l. rewrite (Z.shiftr_land _ _ 4).
    assert (u = 0 \/ u = 1) as [->| ->] by lia; cbn -[Z.land Z.shiftr Z.lor]; rewrite <- Z.land_assoc; change (Z.land (Z.shiftr 15 4) 1) with 0; rewrite Z.land_0_r; done.
Qed.

(** ** The code *)

(** Status bytes without an error. *)
Definition no_error (r : Z) : Prop := Z.land r (Z.lor IDE_DF IDE_ERR) = 0.

Lemma wp_idewait ck s X (Q : Z -> idest -> Prop) :
  Forall no_error (status (hw s)) ->
  (forall l, Forall no_error l -> Q 0 (s <| hw := (hw s) <| status := l |> |>)) -> wp (idewait ck) X Q s.
Proof.
  intros Hst HQ. unfold idewait. wstep. wsteps.
  apply wp_loop with (I := fun _ s' => exists l, Forall no_error l /\ s' = s <| hw := (hw s) <| status := l |> |> /\ (length l <= length (status (hw s)))%nat)
    (var := fun _ s' => length (status (hw s'))).
  - exists (status (hw s)). split; [done|]. split; [by destruct s as [? ? ? [] ?]|done].
  - lia.
  - intros _ s' (l & Hl & -> & Hle). unfold inb_status. wsteps. cbn [status hw setter]. destruct l as [|r l].
    + wsteps. change (Z.land IDE_DRDY (Z.lor IDE_BSY IDE_DRDY) =? IDE_DRDY) with true. cbn beta iota. wsteps.
      change (Z.land IDE_DRDY (Z.lor IDE_DF IDE_ERR) =? 0) with true. cbn [negb]. rewrite andb_false_r. by apply HQ.
    + apply Forall_cons in Hl as [Hr Hl]. wsteps. destruct (_ =? IDE_DRDY).
      * wsteps. unfold no_error in Hr. rewrite Hr. cbn [negb Z.eqb]. rewrite andb_false_r. by apply HQ.
      * cbn in Hle. split; [exists l; split; [done|]; split; [done|cbn; lia]|cbn; lia].
Qed.

Definition dirty (b : ibuf) : bool := negb (Z.land (b_flags b) B_DIRTY =? 0).
(** The command for a buffer, and the sectors when it has been given. *)
Definition cmd_of (b : ibuf) : command := mkcommand (dirty b) (b_dev b) (b_blockno b).
Definition written (b : ibuf) (f : Z -> Z -> list Z) : Z -> Z -> list Z := fun u k =>
  if dirty b && ((u =? b_dev b) && (k =? b_blockno b)) then b_data b else f u k.

(** The drive works on [b]; nothing else has changed. *)
Record started (b : ibuf) (d d' : drive) : Prop := {
  sd_active : active d' = Some (cmd_of b);
  sd_status : Forall no_error (status d');
  sd_sectors : forall u k, sectors d' u k = written b (sectors d) u k
}.

Lemma wp_buf_at a b s X (Q : ibuf -> idest -> Prop) : ibufs s !! a = Some b -> Q b s -> wp (buf_at a) X Q s.
Proof. intros Hb HQ. unfold buf_at. wsteps. rewrite Hb. by apply wp_ret. Qed.
Lemma wp_set_buf a b f s X (Q : unit -> idest -> Prop) :
  ibufs s !! a = Some b -> Q tt (s <| ibufs ::= <[a := f b]> |>) -> wp (set_buf a f) X Q s.
Proof. intros Hb HQ. unfold set_buf. wstep. eapply wp_buf_at; [done|]. by wsteps. Qed.

Lemma wp_idestart a b s X (Q : unit -> idest -> Prop) :
  a <> 0 -> ibufs s !! a = Some b -> (b_dev b = 0 \/ b_dev b = 1) -> 0 <= b_blockno b < FSSIZE -> Forall no_error (status (hw s)) ->
  (forall d, started b (hw s) d -> Q tt (s <| hw := d |>)) -> wp (idestart a) X Q s.
Proof.
  intros Ha Hb Hdev Hblk Hst HQ. unfold idestart. rewrite (proj2 (Z.eqb_neq a 0)) by done. wstep. eapply wp_buf_at; [done|].
  destruct (Z.leb_spec FSSIZE (b_blockno b)); [lia|]. unfold FSSIZE in *. change (BSIZE / SECTOR_SIZE) with 1. cbn zeta. cbn [Z.eqb Pos.eqb Z.ltb Z.compare Pos.compare Pos.compare_cont].
  rewrite Z.mul_1_r, i32_small by lia. wsteps. apply wp_idewait; [done|]. intros l Hl. unfold outb, outsl. wsteps.
  destruct (sector_regs (b_blockno b) (b_dev b)) as [Hs Hu]; [lia|lia|]. fold (dirty b).
  destruct (dirty b) eqn:Hdirty; wsteps; eapply HQ.
  - split; cbn -[Z.lor Z.land Z.shiftl Z.shiftr].
    + unfold cmd_of, reg_unit, reg_sector. cbn -[Z.lor Z.land Z.shiftl Z.shiftr]. rewrite Hs, Hu, Hdirty. done.
    + done.
    + intros u k. unfold written, reg_unit, reg_sector. cbn -[Z.lor Z.land Z.shiftl Z.shiftr]. by rewrite Hs, Hu, Hdirty.
  - split; cbn -[Z.lor Z.land Z.shiftl Z.shiftr].
    + unfold cmd_of, reg_unit, reg_sector. cbn -[Z.lor Z.land Z.shiftl Z.shiftr]. rewrite Hs, Hu, Hdirty. done.
    + done.
    + intros u k. unfold written. by rewrite Hdirty.
Qed.

(** ** What the driver promises: a disk that serves requests in order *)

Record adisk := mkad { pend : list Z; abufs : gmap Z ibuf; adata : Z -> Z -> list Z }.

Definition strip (b : ibuf) : ibuf := b <| b_qnext := 0 |>.
(** A request is carried out as a whole: the block is written, or read into
    the buffer, which is valid and clean afterwards. *)
Definition served (b : ibuf) (f : Z -> Z -> list Z) : ibuf :=
  (if dirty b then b else b <| b_data := f (b_dev b) (b_blockno b) |>)
    <| b_flags := Z.land (Z.lor (b_flags b) B_VALID) (Z.lnot B_DIRTY) |>.

Inductive ad_step (have1 : Z) : adisk -> adisk -> Prop :=
| ad_request q bs f a b :
    bs !! a = Some b -> a <> 0 -> a ∉ q -> request_ok have1 b -> ad_step have1 (mkad q bs f) (mkad (q ++ [a]) bs f)
| ad_serve q bs f a b :
    bs !! a = Some b -> ad_step have1 (mkad (a :: q) bs f) (mkad q (<[a := served b f]> bs) (written b f))
| ad_use q bs f a b : a ∉ q -> ad_step have1 (mkad q bs f) (mkad q (<[a := strip b]> bs) f).

(** The driver: processes call [iderw] for buffers that they alone use and
    that are not in the queue, change such buffers, and the drive interrupts
    when it has a command, at any time; it reports no errors. *)
Inductive ide_step : idest -> idest -> Prop :=
| id_request s a b s' :
    ibufs s !! a = Some b -> a <> 0 -> (forall q, linked (ibufs s) (idequeue s) q -> a ∉ q) -> request_ok (havedisk1 s) b ->
    iderw_enter true a s = Ok (tt, s') -> ide_step s s'
| id_interrupt s s' : active (hw s) <> None -> ideintr s = Ok (tt, s') -> ide_step s s'
| id_use s a b : (forall q, linked (ibufs s) (idequeue s) q -> a ∉ q) -> ide_step s (s <| ibufs ::= <[a := b]> |>)
| id_status s l : Forall no_error l -> ide_step s (s <| hw := (hw s) <| status := l |> |>).

(** The drive works on the first request; a write has reached the sectors. *)
Definition works (bs : gmap Z ibuf) (d : drive) (q : list Z) (f : Z -> Z -> list Z) : Prop :=
  match q with
  | [] => forall u k, sectors d u k = f u k
  | a :: _ => exists b, bs !! a = Some b /\ active d = Some (cmd_of b) /\ forall u k, sectors d u k = written b f u k
  end.

Record implements (s : idest) (x : adisk) : Prop := {
  im_linked : linked (ibufs s) (idequeue s) (pend x);
  im_nodup : NoDup (pend x);
  im_bufs : abufs x = strip <$> ibufs s;
  im_req : forall a, a ∈ pend x -> exists b, ibufs s !! a = Some b /\ request_ok (havedisk1 s) b;
  im_works : works (ibufs s) (hw s) (pend x) (adata x);
  im_status : Forall no_error (status (hw s))
}.

Lemma linked_length s x : implements s x -> (length (pend x) <= size (ibufs s))%nat.
Proof.
  intros Hi. pose proof (im_nodup _ _ Hi) as Hnd. rewrite <- (size_list_to_set (C := gset Z)) by done. rewrite <- size_dom.
  apply subseteq_size. intros a Ha%elem_of_list_to_set. destruct (im_req _ _ Hi a Ha) as (b & Hb & _). by eapply elem_of_dom_2.
Qed.

(** The pointer that follows a part of the queue. *)
Lemma linked_next bs h q1 q2 : linked bs h (q1 ++ q2) ->
  match last q1 with
  | None => h = hd 0 q2
  | Some y => exists b, bs !! y = Some b /\ b_qnext b = hd 0 q2
  end.
Proof.
  revert h. induction q1 as [|x q1 IH]; cbn [app linked]; intros h Hl.
  - destruct q2 as [|a q2]; [done|]. by destruct Hl as [-> _].
  - destruct Hl as (-> & _ & b & Hb & Hq). specialize (IH _ Hq). destruct q1 as [|y q1]; [by exists b|].
    rewrite last_cons_cons. destruct (last (y :: q1)) eqn:Hlast; [done|]. by apply last_None in Hlast.
Qed.
Lemma linked_nonzero bs h q : linked bs h q -> forall a, a ∈ q -> a <> 0.
Proof.
  revert h. induction q as [|x q IH]; intros h Hl a; [by intros ?%not_elem_of_nil|]. destruct Hl as (-> & Hx & b & _ & Hq).
  intros [->|Ha]%elem_of_cons; [done|]. by eapply IH.
Qed.

(** The end of the queue. *)
Lemma wp_find_end q2 q1 fuel s X (Q : option Z -> idest -> Prop) :
  (length q2 < fuel)%nat -> linked (ibufs s) (idequeue s) (q1 ++ q2) -> Q (last (q1 ++ q2)) s ->
  wp (loop fuel (fun pp => p <~ deref pp; ret (if p =? 0 then inr pp else inl (Some p))) (last q1)) X Q s.
Proof.
  revert q1 fuel. induction q2 as [|a q2 IH]; intros q1 [|fuel] Hf Hl HQ; cbn in Hf; try lia; cbn [loop]; pose proof (linked_next _ _ _ _ Hl) as Hn.
  - wstep. wstep. apply wp_mono with (Q := fun p s' => p = 0 /\ s' = s).
    + unfold deref. destruct (last q1) as [y|]; [|by wsteps]. destruct Hn as (b & Hb & Hq). wstep. eapply wp_buf_at; [done|]. by wsteps.
    + intros p s' [-> ->]. cbn [Z.eqb]. wsteps. by rewrite app_nil_r in HQ.
  - assert (a <> 0) as Ha by (eapply linked_nonzero; [done|]; apply elem_of_app; right; apply elem_of_cons; by left).
    wstep. wstep. apply wp_mono with (Q := fun p s' => p = a /\ s' = s).
    + unfold deref. destruct (last q1) as [y|]; [|by wsteps]. destruct Hn as (b & Hb & Hq). wstep. eapply wp_buf_at; [done|]. by wsteps.
    + intros p s' [-> ->]. rewrite (proj2 (Z.eqb_neq a 0)) by done. wsteps. replace (Some a) with (last (q1 ++ [a])) by apply last_snoc.
      apply IH; [lia|by rewrite <- app_assoc|by rewrite <- app_assoc].
Qed.

(** Changing the link of a buffer. *)
Lemma strip_link (bs : gmap Z ibuf) a b v : bs !! a = Some b -> strip <$> (<[a := b <| b_qnext := v |>]> bs) = strip <$> bs.
Proof.
  intros Hb. rewrite fmap_insert. change (strip (b <| b_qnext := v |>)) with (strip b). apply insert_id. by rewrite lookup_fmap, Hb.
Qed.

Lemma works_link bs d q f a b v : bs !! a = Some b -> works bs d q f -> works (<[a := b <| b_qnext := v |>]> bs) d q f.
Proof.
  intros Ha. destruct q as [|c q]; [done|]. cbn. intros (bc & Hc & Hact & Hsec). destruct (decide (a = c)) as [->|Hne].
  - rewrite lookup_insert_eq. assert (bc = b) as -> by congruence. by exists (b <| b_qnext := v |>).
  - rewrite lookup_insert_ne by done. by exists bc.
Qed.
Lemma req_link (bs : gmap Z ibuf) h1 a b v c : bs !! a = Some b ->
  (exists bc, bs !! c = Some bc /\ request_ok h1 bc) -> exists bc, <[a := b <| b_qnext := v |>]> bs !! c = Some bc /\ request_ok h1 bc.
Proof.
  intros Ha (bc & Hc & Hok). destruct (decide (a = c)) as [->|Hne].
  - rewrite lookup_insert_eq. assert (bc = b) as -> by congruence. by exists (b <| b_qnext := v |>).
  - rewrite lookup_insert_ne by done. by exists bc.
Qed.

(** The links of [a] and of the last buffer are set: [a] is in the queue. *)
Lemma appended s x a b q y by_ s' :
  implements s x -> ibufs s !! a = Some b -> a <> 0 -> a ∉ pend x -> request_ok (havedisk1 s) b -> pend x = q ++ [y] ->
  <[a := b <| b_qnext := 0 |>]> (ibufs s) !! y = Some by_ ->
  s' = s <| ibufs := <[y := by_ <| b_qnext := a |>]> (<[a := b <| b_qnext := 0 |>]> (ibufs s)) |> ->
  implements s' (mkad (pend x ++ [a]) (abufs x) (adata x)).
Proof.
  intros [Hl Hnd Hbs Hreq Hw Hst] Hb Ha0 Hna Hok Hq Hy ->. split; cbn -[last].
  - rewrite Hq, <- app_assoc in *. cbn. eapply linked_snoc; [by apply linked_other|done|done|apply lookup_insert_eq|done|done|done].
  - apply NoDup_app. split; [done|]. split; [|apply NoDup_singleton]. intros c Hc ->%list_elem_of_singleton. done.
  - rewrite Hbs. rewrite strip_link by done. symmetry. by apply strip_link.
  - intros c Hc. apply req_link; [done|]. apply req_link; [done|]. apply elem_of_app in Hc as [Hc|Hc]; [by apply Hreq|].
    apply list_elem_of_singleton in Hc as ->. by exists b.
  - assert (works (ibufs s) (hw s) (pend x ++ [a]) (adata x)) as Hw' by (rewrite Hq in *; by destruct q).
    apply works_link; [done|]. by apply works_link.
  - done.
Qed.

Lemma wp_iderw_enter s x a b X (Q : unit -> idest -> Prop) :
  implements s x -> ibufs s !! a = Some b -> a <> 0 -> a ∉ pend x -> request_ok (havedisk1 s) b ->
  (forall s', implements s' (mkad (pend x ++ [a]) (abufs x) (adata x)) -> havedisk1 s' = havedisk1 s -> Q tt s') -> wp (iderw_enter true a) X Q s.
Proof.
  intros Hi Hb Ha0 Hna Hok HQ. pose proof Hi as [Hl Hnd Hbs Hreq Hw Hst]. pose proof Hok as (Hdev & Hblk & Hwait).
  unfold iderw_enter. wstep. eapply wp_buf_at; [done|]. cbn [negb]. unfold iderw_waits in Hwait. apply negb_true_iff in Hwait. rewrite Hwait.
  wsteps. assert (negb (b_dev b =? 0) && (havedisk1 s =? 0) = false) as ->.
  { destruct Hdev as [->|[-> Hh]]; [done|]. by rewrite (proj2 (Z.eqb_neq _ 0) Hh). }
  wstep. eapply wp_set_buf; [done|]. set (s1 := s <| ibufs ::= _ |>). wstep.
  assert (linked (ibufs s1) (idequeue s1) (pend x)) as Hl1 by (by apply linked_other).
  change None with (last (@nil Z)). apply wp_find_end with (q2 := pend x).
  { pose proof (linked_length _ _ Hi). lia. }
  { done. }
  cbn [app]. set (b0 := b <| b_qnext := 0 |>) in *. assert (ibufs s1 !! a = Some b0) as Hb1 by apply lookup_insert_eq.
  assert (strip <$> ibufs s1 = strip <$> ibufs s) as Hs1 by (by apply strip_link).
  destruct (last (pend x)) as [y|] eqn:Hlast.
  - apply last_Some in Hlast as [q Hq]. assert (y ∈ pend x) as Hy by (rewrite Hq; apply elem_of_app; right; by apply list_elem_of_singleton).
    destruct (Hreq y Hy) as (by_ & Hby & _). assert (a <> y) as Hay by (by intros ->).
    assert (ibufs s1 !! y = Some by_) as Hy1 by (unfold s1; cbn; by rewrite lookup_insert_ne).
    cbn [assign]. wstep. eapply wp_set_buf; [done|]. wsteps.
    assert (idequeue s <> a) as Hne.
    { destruct (pend x) as [|c p]; [by apply app_cons_not_nil in Hq|]. destruct Hl as [-> _]. intros ->. apply Hna, elem_of_cons. by left. }
    change (idequeue (s1 <| ibufs ::= <[y := by_ <| b_qnext := a |>]> |>)) with (idequeue s).
    rewrite (proj2 (Z.eqb_neq _ _) Hne). wsteps. apply HQ; [|done].
    eapply (appended s x a b q y by_); [done|done|done|done|done|done|exact Hy1|done].
  - apply last_None in Hlast as Hq. rewrite Hq in *. cbn [assign]. wsteps.
    change (idequeue (s1 <| idequeue := a |>)) with a. rewrite Z.eqb_refl.
    eapply wp_idestart; [done|exact Hb1|destruct Hdev as [?|[? _]]; [by left|by right]|done|done|]. intros d [Hact Hst' Hsec].
    apply HQ; [|done]. split; cbn.
    + split; [done|]. split; [done|]. by exists b0.
    + apply NoDup_singleton.
    + by rewrite Hbs, <- Hs1.
    + intros c ->%list_elem_of_singleton. exists b0. split; [done|exact Hok].
    + exists b0. split; [done|]. split; [done|]. intros u k. rewrite Hsec. cbn in Hw. unfold written. by destruct (_ && _).
    + done.
Qed.

Lemma set_same s a b : ibufs s !! a = Some b -> s <| ibufs ::= <[a := b]> |> <| hw := (hw s) <| status := status (hw s) |> |> = s.
Proof. destruct s as [bs i h [] w]. intros Hb. unfold setter. cbn in *. f_equal. by apply insert_id. Qed.

(** The first buffer after its transfer. *)
Lemma wp_transfer a b s f X (Q : unit -> idest -> Prop) :
  ibufs s !! a = Some b -> active (hw s) = Some (cmd_of b) -> (forall u k, sectors (hw s) u k = written b f u k) -> Forall no_error (status (hw s)) ->
  (forall l, Forall no_error l -> Q tt (s <| ibufs ::= <[a := if dirty b then b else b <| b_data := f (b_dev b) (b_blockno b) |>]> |>
     <| hw := (hw s) <| status := l |> |>)) ->
  wp (if Z.land (b_flags b) B_DIRTY =? 0 then
        r <~ idewait true;
        if 0 <=? r then d <~ insl; set_buf a (fun b => b <| b_data := d |>) else ret tt
      else ret tt) X Q s.
Proof.
  intros Hb Hact Hsec Hst HQ. unfold dirty in *. destruct (Z.land (b_flags b) B_DIRTY =? 0) eqn:Hd; cbn [negb] in *.
  - wstep. apply wp_idewait; [done|]. intros l Hl. cbn [Z.leb Z.compare]. unfold insl. wsteps.
    assert (hw_insl (hw (s <| hw := (hw s) <| status := l |> |>)) = f (b_dev b) (b_blockno b)) as ->.
    { unfold hw_insl. cbn. rewrite Hact. cbn. rewrite Hsec. unfold written, dirty. by rewrite Hd. }
    eapply wp_set_buf; [done|]. by apply HQ.
  - wsteps. specialize (HQ (status (hw s)) Hst). by rewrite set_same in HQ.
Qed.

Lemma wp_ideintr s x X (Q : unit -> idest -> Prop) :
  implements s x ->
  match pend x with
  | [] => Q tt s
  | a :: q => forall s' b, abufs x !! a = Some b -> implements s' (mkad q (<[a := served b (adata x)]> (abufs x)) (written b (adata x))) ->
      havedisk1 s' = havedisk1 s -> Q tt s'
  end -> wp ideintr X Q s.
Proof.
  intros [Hl Hnd Hbs Hreq Hw Hst] HQ. destruct x as [q0 bs f]. cbn in *. unfold ideintr. wsteps. destruct q0 as [|a q].
  { cbn in Hl. rewrite Hl. cbn [Z.eqb]. by wsteps. }
  destruct Hl as (-> & Ha0 & b & Hb & Hl). rewrite (proj2 (Z.eqb_neq a 0)) by done. apply NoDup_cons in Hnd as [Haq Hnd].
  destruct Hw as (b' & Hb' & Hact & Hsec). assert (b' = b) as -> by congruence.
  wstep. eapply wp_buf_at; [done|]. wsteps. eapply (wp_transfer a b _ f); [done|done|done|done|]. intros l Hst'.
  set (bt := if dirty b then b else _). wsteps. eapply wp_set_buf; [apply lookup_insert_eq|]. wsteps.
  set (b2 := bt <| b_flags ::= _ |>). match goal with |- context [idequeue ?t =? 0] => set (s2 := t) end.
  change (idequeue s2) with (b_qnext b). pose proof (linked_next _ _ [] q Hl) as Hh. cbn in Hh.
  assert (ibufs s2 = <[a := b2]> (ibufs s)) as E2 by (apply insert_insert_eq).
  assert (strip b2 = served (strip b) f) as Hs2 by (unfold b2, bt, served; change (dirty (strip b)) with (dirty b); by destruct (dirty b)).
  assert (linked (ibufs s2) (b_qnext b) q) as Hl2 by (rewrite E2; by apply linked_other).
  assert (<[a := served (strip b) f]> bs = strip <$> ibufs s2) as Hbs2 by (by rewrite E2, fmap_insert, Hs2, Hbs).
  assert (bs !! a = Some (strip b)) as Hba by (by rewrite Hbs, lookup_fmap, Hb).
  assert (forall c, c ∈ q -> exists bc, ibufs s2 !! c = Some bc /\ request_ok (havedisk1 s) bc) as Hreq2.
  { intros c Hc. rewrite E2, lookup_insert_ne by (by intros ->). apply Hreq, elem_of_cons. by right. }
  destruct q as [|c q]; cbn in Hh; rewrite Hh.
  - cbn [Z.eqb negb]. wsteps. eapply HQ; [done| |done]. by split.
  - destruct (Hreq2 c) as (bc & Hbc & Hdev & Hblk & Hwait); [apply elem_of_cons; by left|]. destruct Hl2 as (_ & Hc0 & Hl2).
    rewrite (proj2 (Z.eqb_neq c 0)) by done. cbn [negb]. eapply wp_idestart; [done|exact Hbc|destruct Hdev as [?|[? _]]; [by left|by right]|done|done|].
    intros d [Hact' Hst2 Hsec']. eapply HQ; [done| |done]. split; cbn; [done|done|done|done| |done].
    exists bc. split; [done|]. split; [done|]. intros u k. rewrite Hsec'. unfold written at 1 2. destruct (dirty bc && _); [done|]. apply Hsec.
Qed.

Lemma implements_use s x a b : implements s x -> a ∉ pend x ->
  implements (s <| ibufs ::= <[a := b]> |>) (mkad (pend x) (<[a := strip b]> (abufs x)) (adata x)).
Proof.
  intros [Hl Hnd Hbs Hreq Hw Hst] Ha. split; cbn.
  - by apply linked_other.
  - done.
  - by rewrite fmap_insert, Hbs.
  - intros c Hc. rewrite lookup_insert_ne by (by intros ->). by apply Hreq.
  - destruct (pend x) as [|c q]; [done|]. destruct Hw as (bc & Hbc & Hr). exists bc. split; [|done].
    rewrite lookup_insert_ne; [done|]. intros ->. apply Ha, elem_of_cons. by left.
  - done.
Qed.

Lemma ide_step_implements s s' x : implements s x -> ide_step s s' ->
  exists x', rtc (ad_step (havedisk1 s)) x x' /\ implements s' x' /\ havedisk1 s' = havedisk1 s.
Proof.
  intros Hi Hstep. destruct Hstep as [s a b s' Hb Ha Hna Hok Hrun|s s' _ Hrun|s a b Hna|s l Hl].
  - specialize (Hna _ (im_linked _ _ Hi)). exists (mkad (pend x ++ [a]) (abufs x) (adata x)).
    assert (implements s' (mkad (pend x ++ [a]) (abufs x) (adata x)) /\ havedisk1 s' = havedisk1 s) as [Hi' Hh].
    { assert (wp (iderw_enter true a) never (fun _ s' => implements s' (mkad (pend x ++ [a]) (abufs x) (adata x)) /\ havedisk1 s' = havedisk1 s) s) as Hwp
        by (by eapply wp_iderw_enter). unfold wp in Hwp. by rewrite Hrun in Hwp. }
    split; [|done]. apply rtc_once. destruct x as [q bs f]. apply (ad_request _ q bs f a (strip b)); [|done|done|done].
    pose proof (im_bufs _ _ Hi) as Hbs. cbn in Hbs. by rewrite Hbs, lookup_fmap, Hb.
  - destruct x as [[|a q] bs f].
    + exists (mkad [] bs f). assert (s' = s) as ->; [|done].
      assert (wp ideintr never (fun _ s' => s' = s) s) as Hwp by (by eapply wp_ideintr). unfold wp in Hwp. by rewrite Hrun in Hwp.
    + assert (wp ideintr never (fun _ s' => exists b, bs !! a = Some b /\ implements s' (mkad q (<[a := served b f]> bs) (written b f)) /\
        havedisk1 s' = havedisk1 s) s) as Hwp.
      { eapply wp_ideintr; [done|]. cbn. intros s1 b Hb Hi1 Hh. by exists b. }
      unfold wp in Hwp. rewrite Hrun in Hwp. destruct Hwp as (b & Hb & Hi' & Hh). eexists. split; [|done]. by apply rtc_once, ad_serve.
  - specialize (Hna _ (im_linked _ _ Hi)). eexists. split; [|split; [by apply (implements_use s x a b)|done]].
    apply rtc_once. destruct x as [q bs f]. by apply ad_use.
  - exists x. split; [done|]. split; [|done]. destruct Hi as [? ? ? ? Hw ?]. by split.
Qed.


(** *** A write and a read of the same block *)

Definition buf_w : ibuf := mkibuf B_DIRTY 0 7 0 [1; 2; 3].
Definition buf_r : ibuf := mkibuf 0 0 7 0 [].
Definition ide0 : idest :=
  mkidest (<[0x1000 := buf_w]> (<[0x2000 := buf_r]> ∅)) 0 0 (mkdrive 0 0 0 0 0 None [IDE_BSY; IDE_DRDY] (fun _ _ => [])) [].
Definition after_ (m : M idest unit) (s : idest) : idest := match m s with Ok (_, s') => s' | Stop _ => s end.
Definition ide1 : idest := after_ (iderw_enter true 0x1000) ide0.
Definition ide2 : idest := after_ (iderw_enter true 0x2000) ide1.
Definition ide3 : idest := after_ ideintr ide2.

Lemma linked_det bs h q q' : linked bs h q -> linked bs h q' -> q = q'.
Proof.
  revert h q'. induction q as [|a q IH]; intros h [|a' q']; cbn; [done|intros -> (Ha & Hne & _); congruence|intros (-> & Hne & _) ->; done|].
  intros (-> & _ & b & Hb & Hq) (-> & _ & b' & Hb' & Hq'). assert (b' = b) as -> by congruence. f_equal. by eapply IH.
Qed.

