(* ===== verification/Sh.v ===== *)
(** * The shell's parser ([sh.c])

    The parser walks over the line with one pointer, which is the state here,
    and makes a tree whose words are pairs of pointers into the line: where a
    word starts and where it ends.  [nulterminate] then puts a 0 at each end.
    [EXEC] nodes are filled in while [REDIR] nodes around them already exist,
    so that [set_arg] reaches through those to the node it fills in. *)
From Stdlib Require Import ZArith Lia.
From stdpp Require Import base list strings.
From S2P Require Import Prelude Params Bytes Cstring.
#[local] Open Scope Z_scope.
#[local] Open Scope kernel_scope.

Definition MAXARGS : nat := 10.

(** A word of the line: its first character and the one after its last. *)
Definition word : Type := nat * nat.

Inductive cmd : Type :=
| EXEC (argv : list word)
| REDIR (c : cmd) (file : word) (mode fd : Z)
| PIPE (left right : cmd)
| LIST (left right : cmd)
| BACK (c : cmd).

Definition whitespace : list Z := [32; 9; 13; 10; 11; 0].
Definition symbols : list Z := chars "<|>&;()".

(** [strchr(set, c)] as a condition. *)
Definition in_set (set : list Z) (c : Z) : bool :=
  match strchr set c with Some (Some _) => true | _ => false end.

(** The next argument of the [EXEC] node inside. *)
Fixpoint set_arg (c : cmd) (w : word) : cmd :=
  match c with
  | EXEC argv => EXEC (argv ++ [w])
  | REDIR c file mode fd => REDIR (set_arg c w) file mode fd
  | _ => c
  end.

Section parser.
Context (buf : list Z) (es : nat).

(** [*s] *)
Definition rd (s : nat) : M nat Z := of_option (Undef "line") (buf !! s).

(** [while(s < es && test(c)) s++] *)
Definition scan (test : Z -> bool) (s : nat) : M nat nat :=
  loop (es - s + 1) (fun s =>
    if (s <? es)%nat then c <~ rd s; ret (if test c then inl (s + 1)%nat else inr s)
    else ret (inr s)) s.

Definition gettoken : M nat (Z * word) :=
  s <~ get;
  s <~ scan (in_set whitespace) s;
  let q := s in
  c <~ rd s;
  '(r, s) <~ (if c =? 0 then ret (c, s)
              else if in_set (chars "|();&<") c then ret (c, (s + 1)%nat)
              else if c =? 62 then
                c' <~ rd (s + 1);
                ret (if c' =? 62 then (43, (s + 2)%nat) else (c, (s + 1)%nat))
              else
                s <~ scan (fun c => negb (in_set whitespace c) && negb (in_set symbols c)) s;
                ret (97, s));
  let eq := s in
  s <~ scan (in_set whitespace) s;
  put s ;;;
  ret (r, (q, eq)).

Definition peek (toks : string) : M nat bool :=
  s <~ get;
  s <~ scan (in_set whitespace) s;
  put s ;;;
  c <~ rd s;
  ret (negb (c =? 0) && in_set (chars toks) c).

Definition parseredirs (c : cmd) : M nat cmd :=
  loop (es + 1) (fun cmd =>
    b <~ peek "<>";
    if negb b then ret (inr cmd)
    else
      '(tok, _) <~ gettoken;
      '(a, file) <~ gettoken;
      if negb (a =? 97) then panic "missing file for redirection"
      else if tok =? 60 then ret (inl (REDIR cmd file O_RDONLY 0))
      else if tok =? 62 then ret (inl (REDIR cmd file (Z.lor O_WRONLY O_CREATE) 1))
      else if tok =? 43 then ret (inl (REDIR cmd file (Z.lor O_WRONLY O_CREATE) 1))
      else ret (inl cmd)) c.

(** [while(peek(ps, es, "&"))] *)
Definition parsebacks (c : cmd) : M nat cmd :=
  loop (es + 1) (fun cmd =>
    b <~ peek "&";
    if b then gettoken ;;; ret (inl (BACK cmd)) else ret (inr cmd)) c.

(** [while(!peek(ps, es, "|)&;"))] *)
Definition parseargs (r : cmd) : M nat cmd :=
  loop (es + 1) (fun '(r, argc) =>
    b <~ peek "|)&;";
    if b then ret (inr r)
    else
      '(tok, w) <~ gettoken;
      if tok =? 0 then ret (inr r)
      else if negb (tok =? 97) then panic "syntax"
      else
        let r := set_arg r w in
        let argc := (argc + 1)%nat in
        if (MAXARGS <=? argc)%nat then panic "too many args"
        else r <~ parseredirs r; ret (inl (r, argc))) (r, 0%nat).

Fixpoint parseline (fuel : nat) : M nat cmd :=
  match fuel with
  | O => stop_with NoFuel
  | S fuel =>
      cmd <~ parsepipe fuel;
      cmd <~ parsebacks cmd;
      b <~ peek ";";
      if b then gettoken ;;; r <~ parseline fuel; ret (LIST cmd r)
      else ret cmd
  end
with parsepipe (fuel : nat) : M nat cmd :=
  match fuel with
  | O => stop_with NoFuel
  | S fuel =>
      cmd <~ parseexec fuel;
      b <~ peek "|";
      if b then gettoken ;;; r <~ parsepipe fuel; ret (PIPE cmd r)
      else ret cmd
  end
with parseexec (fuel : nat) : M nat cmd :=
  match fuel with
  | O => stop_with NoFuel
  | S fuel =>
      b <~ peek "(";
      if b then parseblock fuel
      else r <~ parseredirs (EXEC []); parseargs r
  end
with parseblock (fuel : nat) : M nat cmd :=
  match fuel with
  | O => stop_with NoFuel
  | S fuel =>
      b <~ peek "(";
      if negb b then panic "parseblock"
      else
        gettoken ;;;
        cmd <~ parseline fuel;
        b <~ peek ")";
        if negb b then panic "syntax - missing )"
        else gettoken ;;; parseredirs cmd
  end.
End parser.

(** [*p = 0] *)
Definition nul_at (p : nat) : M (list Z) unit :=
  b <~ get;
  if (p <? length b)%nat then put (<[p := 0]> b) else undef "line".

Fixpoint nulterminate (c : cmd) : M (list Z) unit :=
  match c with
  | EXEC argv => for_each argv (fun w => nul_at w.2)
  | REDIR c file _ _ => nulterminate c ;;; nul_at file.2
  | PIPE l r => nulterminate l ;;; nulterminate r
  | LIST l r => nulterminate l ;;; nulterminate r
  | BACK c => nulterminate c
  end.

(** The C string that starts at a pointer. *)
Definition c_string (b : list Z) (w : word) : list Z := until_nul (drop w.1 b).

(** The calls nest at most four deep for each character of the line. *)
Definition parse_fuel (es : nat) : nat := 4 * es + 4.

(** The line is the state; the result is the tree. *)
Definition parsecmd : M (list Z) cmd := fun buf =>
  match strlen buf with
  | None => Stop (Undef "line")
  | Some n =>
      let es := Z.to_nat n in
      match (c <~ parseline buf es (parse_fuel es);
             peek buf es "" ;;;
             s <~ get;
             if negb (s =? es)%nat then panic "syntax" else ret c) 0%nat with
      | Stop e => Stop e
      | Ok (c, _) => (nulterminate c ;;; ret c) buf
      end
  end.
