(* ===== verification/ShThms.v ===== *)
(** * What the shell's parser reads ([sh.c])

    Every line is parsed without reading or writing outside it, and the words
    of the tree are C strings afterwards; and every way to spell a command
    with or without white space is parsed to that command. *)
From Stdlib Require Import ZArith Lia.
From stdpp Require Import base list strings.
From S2P Require Import Prelude Params Bytes Cstring Sh.
#[local] Open Scope Z_scope.
#[local] Open Scope kernel_scope.

Definition is_ws (c : Z) : bool := in_set whitespace c.
Definition is_sym (c : Z) : bool := in_set symbols c.
Definition is_wordch (c : Z) : bool := negb (is_ws c) && negb (is_sym c) && negb (c =? 0).

(** The line in the buffer. *)
Lemma strlen_split buf n : strlen buf = Some n ->
  exists line tail, buf = line ++ 0 :: tail /\ n = Z.of_nat (length line) /\ Forall (fun c => c <> 0) line.
Proof.
  revert n. induction buf as [|c buf IH]; intros n; cbn [strlen]; [done|]. destruct (Z.eqb_spec c 0) as [->|Hc].
  - intros [= <-]. exists [], buf. done.
  - destruct (strlen buf) as [m|] eqn:Hs; [|done]. intros [= <-]. destruct (IH m eq_refl) as (line & tail & -> & -> & Hl).
    exists (c :: line), tail. split; [done|]. split; [cbn; lia|]. by constructor.
Qed.

(** Membership in a string literal. *)
Lemma in_set_elem set c : in_set set c = true -> c ∈ set /\ c <> 0.
Proof.
  unfold in_set. induction set as [|d set IH]; cbn [strchr]; [done|]. destruct (Z.eqb_spec d 0) as [->|Hd]; [done|].
  destruct (Z.eqb_spec d c) as [<-|Hc]; [intros _; split; [apply elem_of_cons; by left|done]|].
  destruct (strchr set c) as [[k|]|]; [|done|done]. intros _. destruct IH as [Hin Hne]; [done|].
  split; [apply elem_of_cons; by right|done].
Qed.

(** Cases on the character of a string literal. *)
Ltac char_cases H :=
  let Hin := fresh in let Hne := fresh in
  apply in_set_elem in H as [Hin Hne];
  repeat (apply elem_of_cons in Hin as [->|Hin]; [try by vm_compute|]); [..|try by apply not_elem_of_nil in Hin].

(** ** Commands

    The tree with its words read from the line. *)
Inductive ast : Type :=
| AExec (argv : list (list Z))
| ARedir (c : ast) (file : list Z) (mode fd : Z)
| APipe (left right : ast)
| AList (left right : ast)
| ABack (c : ast).

Fixpoint view (text : word -> list Z) (c : cmd) : ast :=
  match c with
  | EXEC argv => AExec (map text argv)
  | REDIR c file mode fd => ARedir (view text c) (text file) mode fd
  | PIPE l r => APipe (view text l) (view text r)
  | LIST l r => AList (view text l) (view text r)
  | BACK c => ABack (view text c)
  end.

Lemma in_symbols c : in_set (chars "|();&<") c = true -> c <> 0 /\ c <> 97 /\ c <> 62 /\ c <> 43 /\ is_sym c = true.
Proof.
  intros Hc. by char_cases Hc.
Qed.
Lemma not_symbol c : in_set (chars "|();&<") c = false -> c <> 62 -> is_sym c = false.
Proof.
  intros Hc Hne. apply not_true_iff_false. intros Hs. by char_cases Hs.
Qed.
Lemma wordch_split c : is_wordch c = (negb (is_ws c) && negb (is_sym c)) && negb (c =? 0).
Proof. done. Qed.

(** ** Spelling *)

Inductive tok : Type :=
| TSym (c : Z)
| TApp
| TWord (w : list Z).

Definition no_head (test : Z -> bool) (l : list Z) : Prop := forall c, head l = Some c -> test c = false.

(** [spells ts l]: [l] is the tokens [ts] with white space between them as
    one likes, and where two words meet at least some. *)
Inductive spells : list tok -> list Z -> Prop :=
| sp_nil ws : Forall (fun c => is_ws c = true) ws -> spells [] ws
| sp_sym ws c ts l : Forall (fun c => is_ws c = true) ws -> is_sym c = true ->
    (c = 62 -> no_head (Z.eqb 62) l) -> spells ts l -> spells (TSym c :: ts) (ws ++ c :: l)
| sp_app ws ts l : Forall (fun c => is_ws c = true) ws -> spells ts l -> spells (TApp :: ts) (ws ++ 62 :: 62 :: l)
| sp_word ws c w ts l : Forall (fun c => is_ws c = true) ws -> Forall (fun c => is_wordch c = true) (c :: w) ->
    no_head is_wordch l -> spells ts l -> spells (TWord (c :: w) :: ts) (ws ++ c :: w ++ l).

Lemma sym_char c : is_sym c = true -> is_ws c = false /\ c <> 0 /\ is_wordch c = false.
Proof. unfold is_sym. intros Hc. by char_cases Hc. Qed.
Lemma word_char c : is_wordch c = true -> is_ws c = false /\ is_sym c = false /\ c <> 0.
Proof. rewrite wordch_split, !andb_true_iff, !negb_true_iff, Z.eqb_neq. tauto. Qed.

Lemma white_prefix a str ws c l : Forall (fun c => is_ws c = true) a -> is_ws c = false -> a ++ str = ws ++ c :: l ->
  exists ws', ws = a ++ ws' /\ str = ws' ++ c :: l.
Proof.
  revert ws. induction a as [|x a IH]; intros ws Ha Hc Heq; [by exists ws|]. apply Forall_cons in Ha as [Hx Ha].
  destruct ws as [|y ws]; cbn in Heq; injection Heq as -> Heq; [congruence|].
  destruct (IH ws Ha Hc Heq) as (ws' & -> & ->). by exists ws'.
Qed.

(** Leading white space does not matter. *)
Lemma spells_skip a str ts : Forall (fun c => is_ws c = true) a -> spells ts (a ++ str) -> spells ts str.
Proof.
  intros Ha Hs. remember (a ++ str) as l eqn:Hl. destruct Hs as [ws Hws|ws c ts l Hws Hc Hh Hs|ws ts l Hws Hs|ws c w ts l Hws Hw Hh Hs].
  - subst. apply Forall_app in Hws as [_ ?]. by constructor.
  - destruct (white_prefix a str ws c l Ha) as (ws' & -> & ->); [by apply sym_char|done|]. apply Forall_app in Hws as [_ ?].
    by constructor.
  - destruct (white_prefix a str ws 62 (62 :: l) Ha) as (ws' & -> & ->); [done|done|]. apply Forall_app in Hws as [_ ?].
    by constructor.
  - destruct (white_prefix a str ws c (w ++ l) Ha) as (ws' & -> & ->); [|done|].
    + apply Forall_cons in Hw as [Hc _]. by apply word_char.
    + apply Forall_app in Hws as [_ ?]. by constructor.
Qed.

Lemma spells_nonempty t ts : ~ spells (t :: ts) [].
Proof.
  intros Hs. remember (t :: ts) as ts0 eqn:Ht. remember [] as str eqn:Hstr. destruct Hs as [|ws c ? l| ws ? l|ws c ? ? l]; [done| | |];
    by destruct ws.
Qed.

(** The first token of a text that does not start with white space. *)
Lemma spells_inv ts str : spells ts str -> no_head is_ws str ->
  match ts with
  | [] => str = []
  | TSym c :: ts => exists l, str = c :: l /\ is_sym c = true /\ (c = 62 -> no_head (Z.eqb 62) l) /\ spells ts l
  | TApp :: ts => exists l, str = 62 :: 62 :: l /\ spells ts l
  | TWord w :: ts => exists l, str = w ++ l /\ w <> [] /\ Forall (fun c => is_wordch c = true) w /\ no_head is_wordch l /\ spells ts l
  end.
Proof.
  intros [ws Hws|ws c ts' l Hws Hc Hh Hs|ws ts' l Hws Hs|ws c w ts' l Hws Hw Hh Hs] Hn;
    (destruct ws as [|x ws]; [|exfalso; apply Forall_cons in Hws as [Hx _]; specialize (Hn x eq_refl); congruence]); cbn.
  - done.
  - by exists l.
  - by exists l.
  - by exists l.
Qed.

(** ** The tokens of a command *)

Inductive level := LLine | LBack | LPipe | LExec.

Definition paren (ts : list tok) : list tok := TSym 40 :: ts ++ [TSym 41].
Definition redir_toks (r : list Z * Z * Z) : list tok := let '(file, mode, _) := r in [TSym (if mode =? O_RDONLY then 60 else 62); TWord file].

(** The commands at each level of the grammar, in parentheses where they
    belong to a higher one. *)
Fixpoint toks (lv : level) (a : ast) : list tok :=
  match a with
  | AExec argv => map TWord argv
  | ARedir c file mode fd => toks LExec c ++ redir_toks (file, mode, fd)
  | APipe l r =>
      let ts := toks LExec l ++ TSym 124 :: toks LPipe r in
      match lv with LExec => paren ts | _ => ts end
  | ABack c =>
      let ts := toks LBack c ++ [TSym 38] in
      match lv with LExec | LPipe => paren ts | _ => ts end
  | AList l r =>
      let ts := toks LBack l ++ TSym 59 :: toks LLine r in
      match lv with LLine => ts | _ => paren ts end
  end.

Definition redir_ok (r : list Z * Z * Z) : Prop :=
  let '(_, mode, fd) := r in (mode = O_RDONLY /\ fd = 0) \/ (mode = Z.lor O_WRONLY O_CREATE /\ fd = 1).

(** At most nine arguments, and the redirections that there are. *)
Fixpoint printable (a : ast) : Prop :=
  match a with
  | AExec argv => (length argv < MAXARGS)%nat
  | ARedir c file mode fd => printable c /\ redir_ok (file, mode, fd)
  | APipe l r | AList l r => printable l /\ printable r
  | ABack c => printable c
  end.

Definition wrap (a : ast) (rs : list (list Z * Z * Z)) : ast := foldl (fun a '(file, mode, fd) => ARedir a file mode fd) a rs.

(** The end of the line or one of [syms]. *)
Definition ends (syms : string) (ts : list tok) : Prop := ts = [] \/ exists c ts', ts = TSym c :: ts' /\ in_set (chars syms) c = true.

(** Properties of all characters of a literal. *)
Ltac by_char := let x := fresh in let Hx := fresh in intros x Hx; by char_cases Hx.

Lemma ends_sub A B ts : (forall c, in_set (chars A) c = true -> in_set (chars B) c = true) -> ends A ts -> ends B ts.
Proof. intros Hs [->|(c & ts' & -> & Hc)]; [by left|]. right. exists c, ts'. split; [done|]. by apply Hs. Qed.
Lemma ends_cons B c ts : in_set (chars B) c = true -> ends B (TSym c :: ts).
Proof. intros Hc. right. by exists c, ts. Qed.

Section line.
Context (line tail : list Z) (Hnz : Forall (fun c => c <> 0) line).
Abbreviation buf := (line ++ 0 :: tail).
Abbreviation es := (length line).
Implicit Types (s q e : nat) (X : stop -> Prop).

(** The character at [i]; 0 at the end. *)
Definition ch (i : nat) : Z := default 0 (line !! i).

Lemma buf_ch i : (i <= es)%nat -> buf !! i = Some (ch i).
Proof using All.
  intros Hi. unfold ch. destruct (decide (i = es)) as [->|Hne].
  - rewrite (lookup_ge_None_2 line es), lookup_app_r, Nat.sub_diag by lia. done.
  - rewrite lookup_app_l by lia. destruct (line !! i) as [c|] eqn:Hc; [done|]. apply lookup_ge_None in Hc. lia.
Qed.
Lemma ch_end : ch es = 0.
Proof using All. unfold ch. by rewrite lookup_ge_None_2. Qed.
Lemma ch_nz i : (i <= es)%nat -> ch i = 0 -> i = es.
Proof using All.
  intros Hi Hc. destruct (decide (i = es)) as [|Hne]; [done|]. exfalso. unfold ch in Hc.
  destruct (lookup_lt_is_Some_2 line i ltac:(lia)) as [c Hl]. rewrite Hl in Hc. cbn in Hc. subst.
  by apply (Forall_lookup_1 _ _ _ _ Hnz Hl).
Qed.

Lemma wp_rd s (st : nat) X (Q : Z -> nat -> Prop) : (s <= es)%nat -> Q (ch s) st -> wp (rd buf s) X Q st.
Proof using All. intros Hs HQ. unfold rd. rewrite buf_ch by done. by apply wp_ret. Qed.

Lemma wp_scan test s st X (Q : nat -> nat -> Prop) :
  (s <= es)%nat ->
  (forall s', (s <= s' <= es)%nat -> (forall i, (s <= i < s')%nat -> test (ch i) = true) ->
     s' = es \/ test (ch s') = false -> Q s' st) ->
  wp (scan buf es test s) X Q st.
Proof using All.
  intros Hs HQ. unfold scan.
  apply wp_loop with (I := fun s' st' => st' = st /\ (s <= s' <= es)%nat /\ forall i, (s <= i < s')%nat -> test (ch i) = true)
    (var := fun s' _ => (es - s')%nat); [split; [done|split; [lia|lia]]|lia|].
  intros s' st' (-> & Hr & Ht). destruct (Nat.ltb_spec s' es) as [Hlt|Hge].
  - wsteps. apply wp_rd; [lia|]. wsteps. destruct (test (ch s')) eqn:Hc.
    + split; [|lia]. split; [done|]. split; [lia|]. intros i Hi. destruct (decide (i = s')) as [->|]; [done|]. apply Ht. lia.
    + apply HQ; [lia|done|by right].
  - wsteps. apply HQ; [lia|done|left; lia].
Qed.

(** A maximal run of word characters. *)
Record word_ok (w : word) : Prop := {
  wo_range : (w.1 < w.2 <= es)%nat;
  wo_chars : forall i, (w.1 <= i < w.2)%nat -> is_wordch (ch i) = true;
  wo_end : is_wordch (ch w.2) = false
}.

(** What [gettoken] returns: 0 at the end of the line, a word, or the code of
    a symbol. *)
Definition token (r : Z) (w : word) : Prop :=
  if r =? 0 then w.1 = es
  else if r =? 97 then word_ok w
  else (w.1 < es)%nat /\ is_sym (ch w.1) = true /\
    ((w.2 = (w.1 + 1)%nat /\ r = ch w.1 /\ (r = 62 -> ch w.2 <> 62)) \/
     (w.2 = (w.1 + 2)%nat /\ r = 43 /\ ch w.1 = 62 /\ ch (w.1 + 1) = 62)).

(** Only white space from [s] to [s']. *)
Definition blank s s' : Prop := (s <= s' <= es)%nat /\ forall i, (s <= i < s')%nat -> is_ws (ch i) = true.

Lemma wp_gettoken s X (Q : Z * word -> nat -> Prop) :
  (s <= es)%nat ->
  (forall r q e s', blank s q -> (q <= e)%nat -> blank e s' -> s' = es \/ is_ws (ch s') = false -> (s < es -> s < s')%nat ->
     token r (q, e) -> Q (r, (q, e)) s') ->
  wp (gettoken buf es) X Q s.
Proof using All.
  intros Hs HQ. unfold gettoken. wsteps. apply wp_scan; [done|]. intros q Hq Hws Hstop. wsteps. apply wp_rd; [lia|].
  assert (blank s q) as Hb by done. destruct (Z.eqb_spec (ch q) 0) as [Hz|Hz].
  { apply ch_nz in Hz; [|lia]. subst q. wsteps. apply wp_scan; [lia|]. intros s' Hs' Hws' Hst'. wsteps.
    apply HQ; [done|done|done|done|lia|]. unfold token. by rewrite ch_end. }
  assert (q < es)%nat as Hqe by (destruct (decide (q = es)) as [->|]; [by rewrite ch_end in Hz|lia]).
  assert (is_ws (ch q) = false) as Hnw by (destruct Hstop as [->|]; [lia|done]).
  destruct (in_set (chars "|();&<") (ch q)) eqn:Hsym.
  { apply in_symbols in Hsym as (_ & H97 & H62 & _ & Hsym). wsteps. apply wp_scan; [lia|]. intros s' Hs' Hws' Hst'. wsteps.
    apply HQ; [done|lia|done|done|lia|]. unfold token. cbn. rewrite (proj2 (Z.eqb_neq _ _)), (proj2 (Z.eqb_neq _ _)) by done.
    split; [done|]. split; [done|]. left. done. }
  destruct (Z.eqb_spec (ch q) 62) as [H62|H62].
  { assert (is_sym (ch q) = true) by (by rewrite H62). wsteps. apply wp_rd; [lia|]. wsteps.
    destruct (Z.eqb_spec (ch (q + 1)) 62) as [H2|H2].
    - assert (q + 1 < es)%nat.
      { destruct (decide (q + 1 = es)%nat) as [He|]; [rewrite He, ch_end in H2; done|lia]. }
      wsteps. apply wp_scan; [lia|]. intros s' Hs' Hws' Hst'. wsteps. apply HQ; [done|lia|done|done|lia|].
      split; [done|]. split; [done|]. right. done.
    - wsteps. apply wp_scan; [lia|]. intros s' Hs' Hws' Hst'. wsteps. apply HQ; [done|lia|done|done|lia|].
      rewrite H62. split; [done|]. split; [done|]. left. done. }
  wsteps. apply wp_scan; [lia|]. intros e He Hwe Hste. cbv beta in Hwe, Hste. wsteps. apply wp_scan; [lia|]. intros s' Hs' Hws' Hst'. wsteps.
  assert (q < e)%nat as Hlt.
  { destruct (decide (q = e)) as [<-|]; [|lia]. destruct Hste as [->|Hf]; [lia|].
    change (negb (is_ws (ch q)) && negb (is_sym (ch q)) = false) in Hf. rewrite Hnw in Hf.
    rewrite (not_symbol (ch q)) in Hf by done. done. }
  apply HQ; [done|lia|done|done|lia|]. split; cbn [fst snd].
  - lia.
  - intros i Hi. rewrite wordch_split. unfold is_ws, is_sym. rewrite (Hwe i Hi). cbn. apply negb_true_iff, Z.eqb_neq. intros Hc. apply ch_nz in Hc; lia.
  - rewrite wordch_split. unfold is_ws, is_sym. destruct Hste as [->|Hf]; [by rewrite ch_end, andb_false_r|by rewrite Hf].
Qed.

Lemma wp_peek toks s X (Q : bool -> nat -> Prop) :
  (s <= es)%nat ->
  (forall s', blank s s' -> s' = es \/ is_ws (ch s') = false -> Q (negb (ch s' =? 0) && in_set (chars toks) (ch s')) s') ->
  wp (peek buf es toks) X Q s.
Proof using All.
  intros Hs HQ. unfold peek. wsteps. apply wp_scan; [done|]. intros s' Hs' Hws Hst. wsteps. apply wp_rd; [lia|]. wsteps.
  by apply HQ.
Qed.

(** ** Safety *)

Fixpoint cmd_ok (c : cmd) : Prop :=
  match c with
  | EXEC argv => (length argv < MAXARGS)%nat /\ Forall word_ok argv
  | REDIR c file _ fd => cmd_ok c /\ word_ok file /\ (fd = 0 \/ fd = 1)
  | PIPE l r | LIST l r => cmd_ok l /\ cmd_ok r
  | BACK c => cmd_ok c
  end.

(** An [EXEC] node with [n] arguments so far, under redirections. *)
Fixpoint filling (n : nat) (c : cmd) : Prop :=
  match c with
  | EXEC argv => length argv = n
  | REDIR c _ _ _ => filling n c
  | _ => False
  end.

Lemma set_arg_ok n c w : cmd_ok c -> filling n c -> (n + 1 < MAXARGS)%nat -> word_ok w ->
  cmd_ok (set_arg c w) /\ filling (n + 1) (set_arg c w).
Proof using All.
  induction c as [argv|c IH file mode fd|l IHl r IHr|l IHl r IHr|c IH]; cbn; intros Hc Hf Hn Hw; try done.
  - rewrite length_app. cbn. split; [split; [lia|]|lia]. apply Forall_app. split; [apply Hc|by constructor].
  - destruct Hc as (Hc & Hfile & Hfd). destruct (IH Hc Hf Hn Hw). done.
Qed.

Section safety.
Context (X : stop -> Prop) (HX : forall m, X (Panic m)).

(** A parser step that starts at [s]: what it may rely on of the rest. *)
Definition after (s : nat) (K : cmd -> Prop) (Q : cmd -> nat -> Prop) : Prop :=
  forall c s', cmd_ok c -> K c -> (s <= s' <= es)%nat -> Q c s'.

Lemma safe_redirs c s (K : cmd -> Prop) Q :
  (s <= es)%nat -> cmd_ok c -> K c -> (forall c file mode fd, K c -> K (REDIR c file mode fd)) ->
  after s K Q -> wp (parseredirs buf es c) X Q s.
Proof using All.
  intros Hs Hc HK HKr HQ. unfold parseredirs.
  apply wp_loop with (I := fun c s' => cmd_ok c /\ K c /\ (s <= s' <= es)%nat) (var := fun _ s' => (es - s')%nat); [done|lia|].
  intros c1 s1 (Hc1 & HK1 & Hs1). wstep. apply wp_peek; [lia|]. intros s2 [Hb2 _] _.
  destruct (negb (ch s2 =? 0)) eqn:Hnz2; cbn [andb negb]; [|wsteps; apply HQ; [done|done|lia]].
  destruct (in_set _ _); cbn [negb]; [|wsteps; apply HQ; [done|done|lia]].
  assert (s2 < es)%nat by (destruct (decide (s2 = es)) as [->|]; [by rewrite ch_end in Hnz2|lia]).
  wstep. apply wp_gettoken; [lia|]. intros tok q e s3 Hb3 Hqe Hb3' _ Hlt _. destruct Hb3, Hb3'. wstep. apply wp_gettoken; [lia|].
  intros a q' e' s4 Hb4 Hqe' Hb4' _ _ Htok. destruct Hb4, Hb4'. destruct (Z.eqb_spec a 97) as [->|Ha]; cbn [negb]; [|wsteps; apply HX].
  destruct (tok =? 60), (tok =? 62), (tok =? 43); wsteps; (split; [|lia]);
    (split; [cbn; auto|]); (split; [auto|lia]).
Qed.

(** A test that succeeds is not at the end of the line. *)
Lemma peeked s toks : (s <= es)%nat -> negb (ch s =? 0) && in_set (chars toks) (ch s) = true -> (s < es)%nat.
Proof using All.
  intros Hs [Hnz2 _]%andb_true_iff. destruct (decide (s = es)) as [->|]; [by rewrite ch_end in Hnz2|lia].
Qed.

Lemma safe_backs c s Q : (s <= es)%nat -> cmd_ok c -> after s (fun _ => True) Q -> wp (parsebacks buf es c) X Q s.
Proof using All.
  intros Hs Hc HQ. unfold parsebacks.
  apply wp_loop with (I := fun c s' => cmd_ok c /\ (s <= s' <= es)%nat) (var := fun _ s' => (es - s')%nat); [done|lia|].
  intros c1 s1 (Hc1 & Hs1). wstep. apply wp_peek; [lia|]. intros s2 [Hb2 _] _.
  destruct (_ && _) eqn:Hp; [|wsteps; apply HQ; [done|done|lia]]. apply peeked in Hp; [|lia].
  wstep. apply wp_gettoken; [lia|]. intros tok q e s3 Hb3 Hqe Hb3' _ Hlt _. destruct Hb3, Hb3'. wsteps. split; [|lia].
  split; [done|lia].
Qed.

Lemma safe_args c s Q : (s <= es)%nat -> cmd_ok c -> filling 0 c -> after s (fun _ => True) Q -> wp (parseargs buf es c) X Q s.
Proof using All.
  intros Hs Hc Hf HQ. unfold parseargs.
  apply wp_loop with (I := fun '(c, n) s' => cmd_ok c /\ filling n c /\ (s <= s' <= es)%nat) (var := fun _ s' => (es - s')%nat); [done|lia|].
  intros [c1 n] s1 (Hc1 & Hf1 & Hs1). wstep. apply wp_peek; [lia|]. intros s2 [Hb2 _] _.
  destruct (_ && _); [wsteps; apply HQ; [done|done|lia]|].
  wstep. apply wp_gettoken; [lia|]. intros tok q e s3 Hb3 Hqe Hb3' _ Hlt Htok. destruct Hb3, Hb3'. unfold token in Htok.
  destruct (Z.eqb_spec tok 0) as [->|Ht]; [wsteps; apply HQ; [done|done|lia]|].
  destruct (Z.eqb_spec tok 97) as [->|]; cbn [negb]; [|wsteps; apply HX].
  destruct (Nat.leb_spec MAXARGS (n + 1)); [wsteps; apply HX|].
  destruct (set_arg_ok n c1 (q, e)) as [Hc2 Hf2]; [done|done|lia|done|].
  assert (s1 < s3)%nat by (pose proof (wo_range _ Htok); cbn in *; lia).
  wstep. eapply (safe_redirs _ _ (filling (n + 1))); [lia|done|done|done|]. intros c3 s4 Hc3 Hf3 Hs4. wsteps.
  split; [|lia]. split; [done|]. split; [done|lia].
Qed.

Lemma safe_parse fuel :
  (forall s Q, (s <= es)%nat -> (4 * (es - s) + 4 <= fuel)%nat -> after s (fun _ => True) Q -> wp (parseline buf es fuel) X Q s) /\
  (forall s Q, (s <= es)%nat -> (4 * (es - s) + 3 <= fuel)%nat -> after s (fun _ => True) Q -> wp (parsepipe buf es fuel) X Q s) /\
  (forall s Q, (s <= es)%nat -> (4 * (es - s) + 2 <= fuel)%nat -> after s (fun _ => True) Q -> wp (parseexec buf es fuel) X Q s) /\
  (forall s Q, (s <= es)%nat -> (4 * (es - s) + 1 <= fuel)%nat -> after s (fun _ => True) Q -> wp (parseblock buf es fuel) X Q s).
Proof using All.
  induction fuel as [|fuel (IHl & IHp & IHe & IHb)]; [split; [|split; [|split]]; intros; lia|].
  split; [|split; [|split]]; intros s Q Hs Hf HQ; cbn [parseline parsepipe parseexec parseblock].
  - wstep. apply IHp; [done|lia|]. intros c1 s1 Hc1 _ Hs1. wstep. apply safe_backs; [lia|done|]. intros c2 s2 Hc2 _ Hs2.
    wstep. apply wp_peek; [lia|]. intros s3 [Hb3 _] _. destruct (_ && _) eqn:Hp; [|wsteps; apply HQ; [done|done|lia]].
    apply peeked in Hp; [|lia]. wstep. apply wp_gettoken; [lia|]. intros tok q e s4 Hb4 Hqe Hb4' _ Hlt _. destruct Hb4, Hb4'.
    wstep. apply IHl; [lia|lia|]. intros c5 s5 Hc5 _ Hs5. wsteps. apply HQ; [done|done|lia].
  - wstep. apply IHe; [done|lia|]. intros c1 s1 Hc1 _ Hs1.
    wstep. apply wp_peek; [lia|]. intros s3 [Hb3 _] _. destruct (_ && _) eqn:Hp; [|wsteps; apply HQ; [done|done|lia]].
    apply peeked in Hp; [|lia]. wstep. apply wp_gettoken; [lia|]. intros tok q e s4 Hb4 Hqe Hb4' _ Hlt _. destruct Hb4, Hb4'.
    wstep. apply IHp; [lia|lia|]. intros c5 s5 Hc5 _ Hs5. wsteps. apply HQ; [done|done|lia].
  - wstep. apply wp_peek; [lia|]. intros s3 [Hb3 _] _. destruct (_ && _) eqn:Hp.
    + apply IHb; [lia|lia|]. intros c1 s1 Hc1 _ Hs1. apply HQ; [done|done|lia].
    + wstep. eapply (safe_redirs _ _ (filling 0)); [lia|split; [unfold MAXARGS; cbn; lia|done]|done|done|]. intros c1 s1 Hc1 Hf1 Hs1.
      apply safe_args; [lia|done|done|]. intros c2 s2 Hc2 _ Hs2. apply HQ; [done|done|lia].
  - wstep. apply wp_peek; [lia|]. intros s3 [Hb3 _] _. destruct (_ && _) eqn:Hp; cbn [negb]; [|wsteps; apply HX].
    apply peeked in Hp; [|lia]. wstep. apply wp_gettoken; [lia|]. intros tok q e s4 Hb4 Hqe Hb4' _ Hlt _. destruct Hb4, Hb4'.
    wstep. apply IHl; [lia|lia|]. intros c5 s5 Hc5 _ Hs5.
    wstep. apply wp_peek; [lia|]. intros s6 [Hb6 _] _. destruct (_ && _) eqn:Hp6; cbn [negb]; [|wsteps; apply HX].
    wstep. apply wp_gettoken; [lia|]. intros tok' q' e' s7 Hb7 Hqe7 Hb7' _ _ _. destruct Hb7, Hb7'.
    eapply (safe_redirs _ _ (fun _ => True)); [lia|done|done|done|]. intros c8 s8 Hc8 _ Hs8. apply HQ; [done|done|lia].
Qed.
End safety.

(** ** Ending the words *)

(** The characters of a word. *)
Definition text (w : word) : list Z := take (w.2 - w.1) (drop w.1 line).

(** The line with some of its other characters set to 0. *)
Record nulled (b : list Z) : Prop := {
  nu_length : length b = length buf;
  nu_char : forall i, b !! i = buf !! i \/ (b !! i = Some 0 /\ is_wordch (ch i) = false)
}.

Lemma c_string_word b w : nulled b -> word_ok w -> b !! w.2 = Some 0 -> c_string b w = text w.
Proof using All.
  intros [Hlen Hch] [Hr Hw He] H0. unfold c_string, text. destruct w as [q e]. cbn [fst snd] in *.
  assert (forall i, (q <= i < e)%nat -> b !! i = line !! i /\ exists c, line !! i = Some c /\ c <> 0) as Hin.
  { intros i Hi. specialize (Hw i Hi). destruct (Hch i) as [->|[_ Hf]]; [|congruence]. rewrite lookup_app_l by lia.
    split; [done|]. destruct (lookup_lt_is_Some_2 line i ltac:(lia)) as [c Hc]. exists c. split; [done|].
    by apply (Forall_lookup_1 _ _ _ _ Hnz Hc). }
  rewrite (until_nul_take _ (e - q)).
  - apply list_eq. intros i. destruct (decide (i < e - q)%nat).
    + rewrite !lookup_take_lt, !lookup_drop by lia. apply Hin. lia.
    + rewrite !lookup_take_ge by lia. done.
  - intros i Hi. rewrite lookup_drop. destruct (Hin (q + i)%nat) as [-> ?]; [lia|done].
  - rewrite lookup_drop. by replace (q + (e - q))%nat with e by lia.
Qed.

Lemma wp_nul_at w b X (Q : unit -> list Z -> Prop) :
  nulled b -> word_ok w ->
  (forall b', nulled b' -> b' !! w.2 = Some 0 -> (forall i, b !! i = Some 0 -> b' !! i = Some 0) -> Q tt b') -> wp (nul_at w.2) X Q b.
Proof using All.
  intros [Hlen Hch] [Hr _ He] HQ. unfold nul_at. wsteps. rewrite length_app in Hlen. cbn in Hlen.
  destruct (Nat.ltb_spec w.2 (length b)); [|lia]. wsteps. apply HQ.
  - split; [by rewrite length_insert, length_app|]. intros i. destruct (decide (w.2 = i)) as [<-|Hne].
    + right. by rewrite list_lookup_insert_eq by lia.
    + rewrite list_lookup_insert_ne by done. apply Hch.
  - by rewrite list_lookup_insert_eq by lia.
  - intros i Hi. destruct (decide (w.2 = i)) as [<-|Hne]; [by rewrite list_lookup_insert_eq by lia|by rewrite list_lookup_insert_ne].
Qed.

(** The zeros of [b] are zeros of [b']. *)
Definition keeps (b b' : list Z) : Prop := forall i, b !! i = Some 0 -> b' !! i = Some 0.
(** The words of [c] are strings of [b], and stay so. *)
Definition ended (c : cmd) (b : list Z) : Prop :=
  nulled b /\ forall b', nulled b' -> keeps b b' -> view (c_string b') c = view text c.

Lemma ended_keeps c b b' : ended c b -> nulled b' -> keeps b b' -> ended c b'.
Proof using All. intros [_ Hv] Hn Hk. split; [done|]. intros b2 Hn2 Hk2. apply Hv; [done|]. intros i Hi. by apply Hk2, Hk. Qed.

Lemma wp_nul_args argv b X (Q : unit -> list Z -> Prop) :
  nulled b -> Forall word_ok argv -> (forall b', ended (EXEC argv) b' -> keeps b b' -> Q tt b') ->
  wp (for_each argv (fun w => nul_at w.2)) X Q b.
Proof using All.
  revert b Q. induction argv as [|w argv IH]; intros b Q Hb Hw HQ; cbn [for_each].
  - wsteps. apply HQ; [done|]. by intros i.
  - apply Forall_cons in Hw as [Hw Hws]. wstep. apply wp_nul_at; [done|done|]. intros b1 Hb1 H1 Hk1.
    apply IH; [done|done|]. intros b2 [Hb2 Hv2] Hk2. apply HQ; [|intros i Hi; by apply Hk2, Hk1]. split; [done|].
    intros b3 Hb3 Hk3. specialize (Hv2 b3 Hb3 Hk3). cbn in *. injection Hv2 as Hv2. rewrite Hv2. do 2 f_equal.
    by apply c_string_word, Hk3, Hk2.
Qed.

Lemma wp_nulterminate c b X (Q : unit -> list Z -> Prop) :
  nulled b -> cmd_ok c -> (forall b', ended c b' -> keeps b b' -> Q tt b') -> wp (nulterminate c) X Q b.
Proof using All.
  revert b Q. induction c as [argv|c IH file mode fd|l IHl r IHr|l IHl r IHr|c IH]; intros b Q Hb Hc HQ; cbn [nulterminate cmd_ok] in *.
  - apply wp_nul_args; [done|apply Hc|done].
  - destruct Hc as (Hc & Hfile & _). wstep. apply IH; [done|done|]. intros b1 [Hb1 Hv1] Hk1. apply wp_nul_at; [done|done|].
    intros b2 Hb2 H2 Hk2. apply HQ; [|intros i Hi; by apply Hk2, Hk1]. split; [done|]. intros b3 Hb3 Hk3. cbn. f_equal.
    + apply Hv1; [done|]. intros i Hi. by apply Hk3, Hk2.
    + by apply c_string_word, Hk3.
  - destruct Hc as [Hl Hr]. wstep. apply IHl; [done|done|]. intros b1 He1 Hk1. apply IHr; [by apply He1|done|]. intros b2 [Hb2 Hv2] Hk2.
    apply HQ; [|intros i Hi; by apply Hk2, Hk1]. destruct (ended_keeps _ _ _ He1 Hb2 Hk2) as [_ Hv1]. split; [done|].
    intros b3 Hb3 Hk3. cbn. by rewrite Hv1, Hv2.
  - destruct Hc as [Hl Hr]. wstep. apply IHl; [done|done|]. intros b1 He1 Hk1. apply IHr; [by apply He1|done|]. intros b2 [Hb2 Hv2] Hk2.
    apply HQ; [|intros i Hi; by apply Hk2, Hk1]. destruct (ended_keeps _ _ _ He1 Hb2 Hk2) as [_ Hv1]. split; [done|].
    intros b3 Hb3 Hk3. cbn. by rewrite Hv1, Hv2.
  - apply IH; [done|done|]. intros b1 [Hb1 Hv1] Hk1. apply HQ; [|done]. split; [done|]. intros b3 Hb3 Hk3. cbn. by rewrite Hv1.
Qed.

Lemma nulled_buf : nulled buf.
Proof using All. split; [done|]. intros i. by left. Qed.

(** The parser proper, from the start of the line. *)
Definition parse : M nat cmd :=
  c <~ parseline buf es (parse_fuel es); peek buf es "" ;;; s <~ get; if negb (s =? es)%nat then panic "syntax" else ret c.

Lemma parsecmd_parse : parsecmd buf = match parse 0%nat with Stop e => Stop e | Ok (c, _) => (nulterminate c ;;; ret c) buf end.
Proof using All.
  unfold parsecmd. assert (strlen buf = Some (Z.of_nat es)) as ->.
  { clear -Hnz. induction line as [|c l IH]; [done|]. apply Forall_cons in Hnz as [Hc Hl]. cbn [strlen app].
    rewrite (proj2 (Z.eqb_neq c 0) Hc). change (length (c :: l)) with (S (length l)). specialize (IH Hl). cbn [app] in IH. rewrite IH. cbn. f_equal. lia. }
  by rewrite Nat2Z.id.
Qed.

Lemma wp_parse X : (forall m, X (Panic m)) -> wp parse X (fun c _ => cmd_ok c) 0%nat.
Proof using All.
  intros HX. unfold parse. wstep. apply (proj1 (safe_parse X HX (parse_fuel es))); [lia|unfold parse_fuel; lia|].
  intros c s Hc _ Hs. wstep. apply wp_peek; [lia|]. intros s1 [Hb _] _. wsteps. destruct (negb _); wsteps; [apply HX|done].
Qed.

(** ** Reading a spelling *)

Lemma drop_ch q : (q < es)%nat -> drop q line = ch q :: drop (q + 1) line.
Proof using All.
  intros Hq. destruct (lookup_lt_is_Some_2 line q Hq) as [c Hc]. rewrite (drop_S _ _ _ Hc), Nat.add_1_r. unfold ch. by rewrite Hc.
Qed.

Lemma blank_spells s s' ts : blank s s' -> spells ts (drop s line) -> spells ts (drop s' line).
Proof using All.
  intros [Hr Hb] Hs. apply (spells_skip (take (s' - s) (drop s line))).
  - apply Forall_lookup. intros i c Hi. assert (i < s' - s)%nat as Hlt.
    { apply lookup_lt_Some in Hi. rewrite length_take in Hi. lia. }
    rewrite lookup_take_lt, lookup_drop in Hi by done. specialize (Hb (s + i)%nat ltac:(lia)). unfold ch in Hb. by rewrite Hi in Hb.
  - replace (drop s' line) with (drop (s' - s) (drop s line)) by (rewrite drop_drop; f_equal; lia). by rewrite take_drop.
Qed.

Lemma stop_head q : (q <= es)%nat -> q = es \/ is_ws (ch q) = false -> no_head is_ws (drop q line).
Proof using All.
  intros Hq Hst c Hc. destruct (decide (q = es)) as [->|]; [by rewrite drop_all in Hc|]. rewrite drop_ch in Hc by lia.
  injection Hc as <-. destruct Hst; [done|done].
Qed.

(** Whether the next token is one of [toks]. *)
Definition starts (toks : string) (ts : list tok) : bool :=
  match ts with
  | TSym c :: _ => in_set (chars toks) c
  | TApp :: _ => in_set (chars toks) 62
  | _ => false
  end.

Lemma ends_starts A B ts : (forall c, in_set (chars A) c = true -> in_set (chars B) c = false) -> ends A ts -> starts B ts = false.
Proof using. intros Hs [->|(c & ts' & -> & Hc)]; [done|]. by apply Hs. Qed.

Lemma wp_look toks ts s X (Q : bool -> nat -> Prop) :
  (s <= es)%nat -> spells ts (drop s line) -> (forall c, in_set (chars toks) c = true -> is_sym c = true) ->
  (forall s', (s' <= es)%nat -> spells ts (drop s' line) -> Q (starts toks ts) s') -> wp (peek buf es toks) X Q s.
Proof using All.
  intros Hs Hsp Htk HQ. apply wp_peek; [done|]. intros s' Hb Hst. pose proof (blank_spells _ _ _ Hb Hsp) as Hsp'. destruct Hb as [Hr _].
  assert (negb (ch s' =? 0) && in_set (chars toks) (ch s') = starts toks ts) as ->; [|by apply HQ; [lia|]].
  pose proof (spells_inv _ _ Hsp' (stop_head s' ltac:(lia) Hst)) as Hi.
  assert (forall c l, drop s' line = c :: l -> ch s' = c /\ (s' < es)%nat) as Hch.
  { intros c l Hd. destruct (decide (s' = es)) as [->|]; [by rewrite drop_all in Hd|]. rewrite drop_ch in Hd by lia.
    injection Hd as <- _. split; [done|lia]. }
  destruct ts as [|[c| |w] ts]; cbn.
  - assert (s' = es) as ->; [|by rewrite ch_end]. destruct (decide (s' = es)); [done|]. rewrite drop_ch in Hi by lia. done.
  - destruct Hi as (l & Hd & Hc & _). destruct (Hch _ _ Hd) as [-> _]. apply sym_char in Hc as (_ & Hc & _).
    by rewrite (proj2 (Z.eqb_neq c 0)).
  - destruct Hi as (l & Hd & _). by destruct (Hch _ _ Hd) as [-> _].
  - destruct Hi as (l & Hd & Hw & Hwc & _). destruct w as [|c w]; [done|]. cbn in Hd. destruct (Hch _ _ Hd) as [-> _].
    apply Forall_cons in Hwc as [Hc _]. apply word_char in Hc as (_ & Hc & _).
    destruct (in_set (chars toks) c) eqn:Hin; [|by rewrite andb_false_r]. apply Htk in Hin. congruence.
Qed.

Definition code (t : tok) : Z := match t with TSym c => c | TApp => 43 | TWord _ => 97 end.

Lemma ch_drop q i l : drop q line = l -> ch (q + i) = default 0 (l !! i).
Proof using All. intros <-. unfold ch. by rewrite lookup_drop. Qed.

Lemma word_extent q e v l : word_ok (q, e) -> drop q line = v ++ l -> Forall (fun c => is_wordch c = true) v -> no_head is_wordch l ->
  e = (q + length v)%nat.
Proof using All.
  intros [Hr Hw He] Hd Hv Hl. cbn [fst snd] in *. destruct (Nat.lt_trichotomy e (q + length v)) as [Hlt|[Heq|Hgt]]; [|done|].
  - exfalso. replace e with (q + (e - q))%nat in He by lia. rewrite (ch_drop q (e - q) (v ++ l) Hd), lookup_app_l in He by lia.
    destruct (lookup_lt_is_Some_2 v (e - q) ltac:(lia)) as [c Hc]. rewrite Hc in He. cbn in He.
    pose proof (Forall_lookup_1 _ _ _ _ Hv Hc). cbn in *. congruence.
  - exfalso. specialize (Hw (q + length v)%nat ltac:(lia)). rewrite (ch_drop q (length v) (v ++ l) Hd), lookup_app_r, Nat.sub_diag in Hw by lia.
    destruct l as [|c l]; [done|]. cbn in Hw. specialize (Hl c eq_refl). congruence.
Qed.

(** The token at [q] is the first of the spelling. *)
Lemma token_spec t ts r q e : (q <= es)%nat -> token r (q, e) -> spells (t :: ts) (drop q line) ->
  r = code t /\ spells ts (drop e line) /\ forall v, t = TWord v -> text (q, e) = v.
Proof using All.
  unfold token. cbn [fst snd]. intros Hq Htok Hsp. destruct (Z.eqb_spec r 0) as [->|Hr0].
  { subst q. rewrite drop_all in Hsp. by apply spells_nonempty in Hsp. }
  destruct (Z.eqb_spec r 97) as [->|H97].
  - pose proof (wo_range _ Htok) as Hr. pose proof (wo_chars _ Htok) as Hw. cbn [fst snd] in *.
    destruct (word_char (ch q)) as (Hws & Hsym & _); [apply Hw; lia|].
    pose proof (spells_inv _ _ Hsp (stop_head q ltac:(lia) (or_intror Hws))) as Hi. pose proof (drop_ch q ltac:(lia)) as Hd.
    destruct t as [c| |v].
    + destruct Hi as (l & Hl & Hc & _). rewrite Hd in Hl. injection Hl as <- _. congruence.
    + destruct Hi as (l & Hl & _). rewrite Hd in Hl. injection Hl as Hc _. by rewrite Hc in Hsym.
    + destruct Hi as (l & Hl & _ & Hv & Hh & Hs). pose proof (word_extent _ _ _ _ Htok Hl Hv Hh) as ->. split; [done|].
      assert (drop (q + length v) line = l) as -> by (rewrite <- drop_drop, Hl; by rewrite drop_app_length). split; [done|].
      intros v' [= <-]. unfold text. cbn [fst snd]. rewrite Hl. replace (q + length v - q)%nat with (length v) by lia. apply take_app_length.
  - destruct Htok as (Hlt & Hsym & Htok). destruct (sym_char _ Hsym) as (Hws & _ & Hnw).
    pose proof (spells_inv _ _ Hsp (stop_head q ltac:(lia) (or_intror Hws))) as Hi. pose proof (drop_ch q Hlt) as Hd.
    destruct t as [c| |v].
    + destruct Hi as (l & Hl & Hc & Hh & Hs). rewrite Hd in Hl. injection Hl as <- <-.
      destruct Htok as [(-> & -> & _)|(-> & -> & H62 & H62')]; [done|]. exfalso. specialize (Hh H62 62).
      assert (q + 1 < es)%nat by (destruct (decide (q + 1 = es)%nat) as [E|]; [rewrite E, ch_end in H62'; done|lia]).
      rewrite drop_ch in Hh by done. rewrite H62' in Hh. by specialize (Hh eq_refl).
    + destruct Hi as (l & Hl & Hs). rewrite Hd in Hl. injection Hl as Hc Hl.
      assert (q + 1 < es)%nat by (destruct (decide (q + 1 < es)%nat); [done|rewrite drop_ge in Hl by lia; done]).
      rewrite drop_ch in Hl by done. injection Hl as Hc' Hl.
      destruct Htok as [(-> & -> & Hn)|(-> & -> & _)]; [by destruct (Hn Hc)|]. split; [done|]. split; [|done].
      by replace (q + 2)%nat with (q + 1 + 1)%nat by lia; rewrite Hl.
    + destruct Hi as (l & Hl & Hv0 & Hv & _). destruct v as [|c v]; [done|]. rewrite Hd in Hl. injection Hl as <- _.
      apply Forall_cons in Hv as [Hv _]. congruence.
Qed.

Lemma wp_token t ts s X (Q : Z * word -> nat -> Prop) :
  (s <= es)%nat -> spells (t :: ts) (drop s line) ->
  (forall w s', (s' <= es)%nat -> spells ts (drop s' line) -> (forall v, t = TWord v -> text w = v) -> Q (code t, w) s') ->
  wp (gettoken buf es) X Q s.
Proof using All.
  intros Hs Hsp HQ. apply wp_gettoken; [done|]. intros r q e s' Hb Hqe Hb' _ _ Htok.
  destruct (token_spec t ts r q e) as (-> & Hts & Hv); [apply Hb|done|exact (blank_spells _ _ _ Hb Hsp)|].
  apply HQ; [apply Hb'|exact (blank_spells _ _ _ Hb' Hts)|done].
Qed.

Lemma wp_token_end s X (Q : Z * word -> nat -> Prop) :
  (s <= es)%nat -> spells [] (drop s line) -> (forall w s', (s' <= es)%nat -> spells [] (drop s' line) -> Q (0, w) s') ->
  wp (gettoken buf es) X Q s.
Proof using All.
  intros Hs Hsp HQ. apply wp_gettoken; [done|]. intros r q e s' Hb Hqe Hb' _ _ Htok.
  assert (r = 0 /\ q = es) as [-> ->].
  { pose proof (blank_spells _ _ _ Hb Hsp) as Hq. destruct Hb as [Hr _]. unfold token in Htok. destruct (Z.eqb_spec r 0); [done|]. exfalso.
    assert (is_ws (ch q) = false /\ (q < es)%nat) as [Hws Hlt].
    { destruct (r =? 97); [|split; [apply sym_char, Htok|apply Htok]]. destruct Htok as [Hwr Hw _]. cbn in *. split; [|lia].
      apply (word_char (ch q)), Hw. lia. }
    pose proof (spells_inv _ _ Hq (stop_head q ltac:(lia) (or_intror Hws))) as Hd. rewrite drop_ch in Hd by lia. done. }
  apply HQ; [apply Hb'|]. assert (s' = es) as -> by (destruct Hb' as [? _]; lia). rewrite drop_all. by constructor.
Qed.

(** ** Parsing a spelling *)
Section complete.
Context (X : stop -> Prop) (HX : X NoFuel).

Lemma wp_loop_partial {S A B} (I : A -> S -> Prop) (fuel : nat) body (x : A) (Q : B -> S -> Prop) (st : S) :
  I x st -> (forall x (st : S), I x st -> wp (body x) X (fun r st' => match r with inl x' => I x' st' | inr b => Q b st' end) st) ->
  wp (loop fuel body x) X Q st.
Proof using HX.
  intros HI Hbody. revert x st HI. induction fuel as [|fuel IH]; intros x st HI; cbn [loop]; [by apply wp_stop|].
  wstep. eapply wp_mono; [by apply Hbody|]. intros [x'|b] st' Hr; [by apply IH|by apply wp_ret].
Qed.

(** [c] is the command [a], and [ts] is left. *)
Definition reads (a : ast) (ts : list tok) (c : cmd) (s : nat) : Prop :=
  (s <= es)%nat /\ spells ts (drop s line) /\ view text c = a.

Lemma wp_redirs c rs ts s : (s <= es)%nat -> Forall redir_ok rs -> starts "<>" ts = false ->
  spells (concat (map redir_toks rs) ++ ts) (drop s line) ->
  wp (parseredirs buf es c) X (fun c' s' => reads (wrap (view text c) rs) ts c' s' /\ (rs = [] -> c' = c)) s.
Proof using All.
  intros Hs Hrs Hts Hsp. unfold parseredirs.
  apply wp_loop_partial with (I := fun c' s' => (s' <= es)%nat /\ exists d r, rs = d ++ r /\ spells (concat (map redir_toks r) ++ ts) (drop s' line) /\
    view text c' = wrap (view text c) d /\ (d = [] -> c' = c)).
  { split; [done|]. by exists [], rs. }
  intros c1 s1 (Hs1 & d & r & -> & Hsp1 & Hv1 & Hc1). apply Forall_app in Hrs as [Hd Hr].
  wstep. eapply wp_look; [done|exact Hsp1| |].
  { intros x Hx. by char_cases Hx. }
  intros s2 Hs2 Hsp2. destruct r as [|[[file mode] fd] r].
  { cbn [map concat app]. rewrite Hts. cbn [negb]. wsteps. rewrite app_nil_r. split; [done|]. intros ->. by apply Hc1. }
  apply Forall_cons in Hr as [Hok Hr]. cbn [map concat redir_toks app starts] in *.
  assert (in_set (chars "<>") (if mode =? O_RDONLY then 60 else 62) = true) as -> by (by destruct (mode =? O_RDONLY)). cbn [negb].
  wstep. eapply wp_token; [done|exact Hsp2|]. intros w3 s3 Hs3 Hsp3 _. wstep. eapply wp_token; [done|exact Hsp3|].
  intros w4 s4 Hs4 Hsp4 Ht4. cbn [code Z.eqb Pos.eqb negb].
  assert (exists m, (if mode =? O_RDONLY then 60 else 62) = m /\ (m = 60 /\ mode = O_RDONLY /\ fd = 0 \/ m = 62 /\ mode = Z.lor O_WRONLY O_CREATE /\ fd = 1)) as (m & -> & Hm).
  { destruct Hok as [[-> ->]|[-> ->]]; eexists; (split; [done|]); [by left|by right]. }
  destruct Hm as [(-> & -> & ->)|(-> & -> & ->)]; cbn [Z.eqb Pos.eqb]; wsteps; (split; [done|]);
    (eexists (d ++ [_]), r; split; [by rewrite <- app_assoc|]); (split; [done|]); (split; [|by intros [_ [=]]%app_eq_nil]);
    unfold wrap; rewrite foldl_app; cbn; by rewrite Hv1, (Ht4 file).
Qed.

Lemma wp_args argv rs ts s : (s <= es)%nat -> (length argv < MAXARGS)%nat -> Forall redir_ok rs -> ends "|)&;" ts ->
  spells (map TWord argv ++ concat (map redir_toks rs) ++ ts) (drop s line) ->
  wp (r <~ parseredirs buf es (EXEC []); parseargs buf es r) X (reads (wrap (AExec argv) rs) ts) s.
Proof using All.
  intros Hs Hlen Hrs Hend Hsp.
  (* the loop starts with the redirections read if there are no words *)
  set (I := fun '(c, n) s' => (s' <= es)%nat /\
    ((exists ws r, c = EXEC ws /\ argv = map text ws ++ r /\ r <> [] /\ n = length ws /\
        spells (map TWord r ++ concat (map redir_toks rs) ++ ts) (drop s' line)) \/
     reads (wrap (AExec argv) rs) ts c s')).
  wstep. apply wp_mono with (Q := fun c' s' => I (c', 0%nat) s').
  - destruct argv as [|v argv].
    + eapply wp_mono; [apply (wp_redirs (EXEC []) rs ts); [done|done| |done]|].
      { by eapply ends_starts; [|done]; by_char. }
      intros c' s' [Hr _]. split; [apply Hr|by right].
    + eapply wp_mono; [eapply (wp_redirs (EXEC []) []); [done|done| |exact Hsp]; done|].
      intros c' s' [(Hs' & Hsp' & _) Hc]. rewrite Hc by done. split; [done|]. left. by exists [], (v :: argv).
  - intros c' s' HI. unfold parseargs. apply wp_loop_partial with (I := I); [done|]. clear HI s' c'. intros [c n] s1 [Hs1 HI].
    wstep. destruct HI as [(ws & r & -> & Ha & Hr & -> & Hsp1)|(_ & Hsp1 & Hv)].
    + destruct r as [|v r]; [done|]. cbn [map app] in Hsp1. eapply wp_look; [done|exact Hsp1|by_char|]. intros s2 Hs2 Hsp2. cbn [starts].
      wstep. eapply wp_token; [done|exact Hsp2|]. intros w s3 Hs3 Hsp3 Hw. cbn [code Z.eqb Pos.eqb negb set_arg].
      assert (argv = map text (ws ++ [w]) ++ r) as Ha' by (rewrite map_app, <- app_assoc; cbn; by rewrite (Hw v)).
      rewrite Ha', length_app, length_map, length_app in Hlen. cbn in Hlen. destruct (Nat.leb_spec MAXARGS (length ws + 1)); [lia|].
      wstep. destruct r as [|v' r].
      * eapply wp_mono; [apply (wp_redirs (EXEC (ws ++ [w])) rs ts); [done|done| |done]|].
        { by eapply ends_starts; [|done]; by_char. }
        intros c' s' [Hrd _]. wsteps. split; [apply Hrd|]. right. cbn [view] in Hrd. rewrite app_nil_r in Ha'. by rewrite <- Ha' in Hrd.
      * eapply wp_mono; [eapply (wp_redirs (EXEC (ws ++ [w])) []); [done|done| |exact Hsp3]; done|].
        intros c' s' [(Hs' & Hsp' & _) Hc]. rewrite Hc by done. wsteps. split; [done|]. left. exists (ws ++ [w]), (v' :: r).
        rewrite length_app. done.
    + eapply wp_look; [done|exact Hsp1|by_char|]. intros s2 Hs2 Hsp2. destruct Hend as [->|(x & ts' & -> & Hx)].
      * cbn [starts]. wstep. eapply wp_token_end; [done|done|]. intros w s3 Hs3 Hsp3. cbn. wsteps. done.
      * cbn [starts]. rewrite Hx. wsteps. done.
Qed.

(** The four levels of the grammar. *)
Definition exec_reads a := forall fuel rs ts s, (s <= es)%nat -> Forall redir_ok rs -> ends "|)&;" ts ->
  spells (toks LExec a ++ concat (map redir_toks rs) ++ ts) (drop s line) -> wp (parseexec buf es fuel) X (reads (wrap a rs) ts) s.
Definition pipe_reads a := forall fuel ts s, (s <= es)%nat -> ends ")&;" ts ->
  spells (toks LPipe a ++ ts) (drop s line) -> wp (parsepipe buf es fuel) X (reads a ts) s.
Definition backs (n : nat) (a : ast) : ast := Nat.iter n ABack a.
Definition back_reads a := forall fuel n ts s, (s <= es)%nat -> ends ");" ts ->
  spells (toks LBack a ++ replicate n (TSym 38) ++ ts) (drop s line) ->
  wp (c <~ parsepipe buf es fuel; parsebacks buf es c) X (reads (backs n a) ts) s.
Definition line_reads a := forall fuel ts s, (s <= es)%nat -> ends ")" ts ->
  spells (toks LLine a ++ ts) (drop s line) -> wp (parseline buf es fuel) X (reads a ts) s.

Lemma wp_backs c n ts s : (s <= es)%nat -> ends ");" ts -> spells (replicate n (TSym 38) ++ ts) (drop s line) ->
  wp (parsebacks buf es c) X (reads (backs n (view text c)) ts) s.
Proof using All.
  intros Hs Hend Hsp. unfold parsebacks.
  apply wp_loop_partial with (I := fun c' s' => (s' <= es)%nat /\ exists k, spells (replicate k (TSym 38) ++ ts) (drop s' line) /\
    backs k (view text c') = backs n (view text c)); [split; [done|by exists n]|].
  intros c1 s1 (Hs1 & k & Hsp1 & Hv). wstep. eapply wp_look; [done|exact Hsp1|by_char|]. intros s2 Hs2 Hsp2. destruct k as [|k].
  - cbn [replicate app]. rewrite (ends_starts ");" "&" ts) by (done || by_char). wsteps. done.
  - cbn [replicate app starts] in *. assert (in_set (chars "&") 38 = true) as -> by done. wstep.
    eapply wp_token; [done|exact Hsp2|]. intros w s3 Hs3 Hsp3 _. wsteps. split; [done|]. exists k. split; [done|].
    rewrite <- Hv. cbn [view]. unfold backs. by rewrite Nat.iter_succ_r.
Qed.

Lemma pipe_of_exec a : exec_reads a -> toks LPipe a = toks LExec a -> pipe_reads a.
Proof using All.
  intros Ha Ht [|fuel] ts s Hs Hend Hsp; [by apply wp_stop|]. cbn [parsepipe]. wstep. rewrite Ht in Hsp.
  eapply wp_mono; [apply (Ha fuel [] ts); [done|done|by eapply ends_sub; [|done]; by_char|done]|]. intros c s1 (Hs1 & Hsp1 & Hv).
  wstep. eapply wp_look; [done|exact Hsp1|by_char|]. intros s2 Hs2 Hsp2. rewrite (ends_starts ")&;" "|" ts) by (done || by_char).
  wsteps. done.
Qed.

Lemma back_of_pipe a : pipe_reads a -> toks LBack a = toks LPipe a -> back_reads a.
Proof using All.
  intros Ha Ht fuel n ts s Hs Hend Hsp. rewrite Ht in Hsp. wstep.
  eapply wp_mono; [apply (Ha fuel (replicate n (TSym 38) ++ ts)); [done| |done]|].
  - destruct n; [by eapply ends_sub; [|done]; by_char|by apply ends_cons].
  - intros c s1 (Hs1 & Hsp1 & <-). by apply wp_backs.
Qed.

(** [parseline] up to the semicolon. *)
Lemma parseline_backs fuel (k : cmd -> M nat cmd) Q s :
  wp (c <~ (c <~ parsepipe buf es fuel; parsebacks buf es c); k c) X Q s ->
  wp (c <~ parsepipe buf es fuel; c <~ parsebacks buf es c; k c) X Q s.
Proof using. clear. unfold wp, bind. destruct (parsepipe buf es fuel s) as [[c s1]|]; done. Qed.

Lemma line_of_back a : back_reads a -> toks LLine a = toks LBack a -> line_reads a.
Proof using All.
  intros Ha Ht [|fuel] ts s Hs Hend Hsp; [by apply wp_stop|]. cbn [parseline]. apply parseline_backs. wstep. rewrite Ht in Hsp.
  eapply wp_mono; [apply (Ha fuel 0%nat ts); [done|by eapply ends_sub; [|done]; by_char|done]|]. intros c s1 (Hs1 & Hsp1 & Hv).
  wstep. eapply wp_look; [done|exact Hsp1|by_char|]. intros s2 Hs2 Hsp2. rewrite (ends_starts ")" ";" ts) by (done || by_char).
  wsteps. done.
Qed.

Lemma exec_of_line a : line_reads a -> toks LExec a = paren (toks LLine a) -> exec_reads a.
Proof using All.
  intros Ha Ht [|fuel] rs ts s Hs Hrs Hend Hsp; [by apply wp_stop|]. cbn [parseexec]. rewrite Ht in Hsp. unfold paren in Hsp.
  cbn [app] in Hsp. rewrite <- app_assoc in Hsp. cbn [app] in Hsp. wstep. eapply wp_look; [done|exact Hsp|by_char|].
  clear s Hs Hsp. intros s Hs Hsp. cbn [starts]. assert (in_set (chars "(") 40 = true) as -> by done.
  destruct fuel as [|fuel]; [by apply wp_stop|]. cbn [parseblock]. wstep. eapply wp_look; [done|exact Hsp|by_char|].
  clear s Hs Hsp. intros s Hs Hsp. cbn [starts]. assert (in_set (chars "(") 40 = true) as -> by done. cbn [negb].
  wstep. eapply wp_token; [done|exact Hsp|]. intros w1 s1 Hs1 Hsp1 _. wstep.
  eapply wp_mono; [apply (Ha fuel (TSym 41 :: concat (map redir_toks rs) ++ ts)); [done|by apply ends_cons|done]|].
  intros c s2 (Hs2 & Hsp2 & Hv). wstep. eapply wp_look; [done|exact Hsp2|by_char|]. intros s3 Hs3 Hsp3. cbn [starts].
  assert (in_set (chars ")") 41 = true) as -> by done. cbn [negb]. wstep. eapply wp_token; [done|exact Hsp3|]. intros w4 s4 Hs4 Hsp4 _.
  eapply wp_mono; [apply (wp_redirs c rs ts); [done|done|by eapply ends_starts; [|done]; by_char|done]|]. intros c' s' [Hr _]. by rewrite Hv in Hr.
Qed.

Lemma exec_args argv : (length argv < MAXARGS)%nat -> exec_reads (AExec argv).
Proof using All.
  intros Hlen [|fuel] rs ts s Hs Hrs Hend Hsp; [by apply wp_stop|]. cbn [parseexec]. wstep. eapply wp_look; [done|exact Hsp|by_char|].
  intros s1 Hs1 Hsp1. assert (starts "(" (toks LExec (AExec argv) ++ concat (map redir_toks rs) ++ ts) = false) as ->; [|by apply wp_args].
  destruct argv; [|done]. destruct rs as [|[[file mode] fd] rs]; cbn.
  - by eapply ends_starts; [|done]; by_char.
  - by destruct (mode =? O_RDONLY).
Qed.

Lemma exec_redir a file mode fd : redir_ok (file, mode, fd) -> exec_reads a -> exec_reads (ARedir a file mode fd).
Proof using All.
  intros Hr Ha fuel rs ts s Hs Hrs Hend Hsp. apply (Ha fuel ((file, mode, fd) :: rs)); [done|by constructor|done|].
  cbn [toks map concat] in *. by rewrite <- app_assoc in Hsp |- *.
Qed.

Lemma pipe_pipe l r : exec_reads l -> pipe_reads r -> pipe_reads (APipe l r).
Proof using All.
  intros Hl Hr [|fuel] ts s Hs Hend Hsp; [by apply wp_stop|]. cbn [parsepipe toks] in *. rewrite <- app_assoc in Hsp. wstep.
  eapply wp_mono; [apply (Hl fuel [] (TSym 124 :: toks LPipe r ++ ts)); [done|done|by apply ends_cons|done]|]. intros c s1 (Hs1 & Hsp1 & Hv).
  wstep. eapply wp_look; [done|exact Hsp1|by_char|]. intros s2 Hs2 Hsp2. cbn [starts]. assert (in_set (chars "|") 124 = true) as -> by done.
  wstep. eapply wp_token; [done|exact Hsp2|]. intros w s3 Hs3 Hsp3 _. wstep. eapply wp_mono; [by apply (Hr fuel ts)|].
  intros c' s' (Hs' & Hsp' & Hv'). wsteps. split; [done|]. split; [done|]. cbn [view]. by rewrite Hv, Hv'.
Qed.

Lemma back_back a : back_reads a -> back_reads (ABack a).
Proof using All.
  intros Ha fuel n ts s Hs Hend Hsp. unfold backs. rewrite <- Nat.iter_succ_r. apply (Ha fuel (S n)); [done|done|].
  cbn [toks] in Hsp. by rewrite <- app_assoc in Hsp.
Qed.

Lemma line_list l r : back_reads l -> line_reads r -> line_reads (AList l r).
Proof using All.
  intros Hl Hr [|fuel] ts s Hs Hend Hsp; [by apply wp_stop|]. cbn [parseline toks] in *. apply parseline_backs. rewrite <- app_assoc in Hsp. wstep.
  eapply wp_mono; [apply (Hl fuel 0%nat (TSym 59 :: toks LLine r ++ ts)); [done|by apply ends_cons|done]|]. intros c s1 (Hs1 & Hsp1 & Hv).
  wstep. eapply wp_look; [done|exact Hsp1|by_char|]. intros s2 Hs2 Hsp2. cbn [starts]. assert (in_set (chars ";") 59 = true) as -> by done.
  wstep. eapply wp_token; [done|exact Hsp2|]. intros w s3 Hs3 Hsp3 _. wstep. eapply wp_mono; [by apply (Hr fuel ts)|].
  intros c' s' (Hs' & Hsp' & Hv'). wsteps. split; [done|]. split; [done|]. cbn [view]. by rewrite Hv, Hv'.
Qed.

Lemma all_read a : printable a -> exec_reads a /\ pipe_reads a /\ back_reads a /\ line_reads a.
Proof using All.
  induction a as [argv|a IH file mode fd|l IHl r IHr|l IHl r IHr|a IH]; cbn [printable]; intros Hp.
  - pose proof (exec_args argv Hp) as He. pose proof (pipe_of_exec _ He eq_refl) as Hpi.
    pose proof (back_of_pipe _ Hpi eq_refl) as Hb. pose proof (line_of_back _ Hb eq_refl). done.
  - destruct Hp as [Hp Hr]. destruct (IH Hp) as (He & _). pose proof (exec_redir a file mode fd Hr He) as He'.
    pose proof (pipe_of_exec _ He' eq_refl) as Hpi. pose proof (back_of_pipe _ Hpi eq_refl) as Hb.
    pose proof (line_of_back _ Hb eq_refl). done.
  - destruct Hp as [Hl Hr]. destruct (IHl Hl) as (He & _). destruct (IHr Hr) as (_ & Hpr & _).
    pose proof (pipe_pipe l r He Hpr) as Hpi. pose proof (back_of_pipe _ Hpi eq_refl) as Hb.
    pose proof (line_of_back _ Hb eq_refl) as Hli. pose proof (exec_of_line _ Hli eq_refl). done.
  - destruct Hp as [Hl Hr]. destruct (IHl Hl) as (_ & _ & Hbl & _). destruct (IHr Hr) as (_ & _ & _ & Hlr).
    pose proof (line_list l r Hbl Hlr) as Hli. pose proof (exec_of_line _ Hli eq_refl) as He.
    pose proof (pipe_of_exec _ He eq_refl) as Hpi. pose proof (back_of_pipe _ Hpi eq_refl). done.
  - destruct (IH Hp) as (_ & _ & Hba & _). pose proof (back_back a Hba) as Hb. pose proof (line_of_back _ Hb eq_refl) as Hli.
    pose proof (exec_of_line _ Hli eq_refl) as He. pose proof (pipe_of_exec _ He eq_refl). done.
Qed.

Lemma wp_parse_reads a : printable a -> spells (toks LLine a) line -> wp (parse) X (fun c _ => view text c = a) 0%nat.
Proof using All.
  intros Hp Hsp. unfold parse. wstep. destruct (all_read a Hp) as (_ & _ & _ & Hl).
  eapply wp_mono; [apply (Hl (parse_fuel es) []); [lia|by left|by rewrite app_nil_r]|]. intros c s (Hs & Hsp1 & Hv).
  wstep. apply wp_peek; [done|]. intros s1 Hb Hst. wsteps. pose proof (blank_spells _ _ _ Hb Hsp1) as Hd. destruct Hb as [Hr _].
  pose proof (spells_inv _ _ Hd (stop_head s1 ltac:(lia) Hst)) as Hnil. assert (s1 = es) as ->.
  { destruct (decide (s1 = es)); [done|]. rewrite drop_ch in Hnil by lia. done. }
  rewrite Nat.eqb_refl. cbn [negb]. by wsteps.
Qed.
End complete.

(** Both together: no stop is left. *)
Lemma wp_parse_complete a : printable a -> spells (toks LLine a) line -> wp parse never (fun c _ => cmd_ok c /\ view text c = a) 0%nat.
Proof using All.
  intros Hp Hsp. pose proof (wp_parse (fun e : stop => exists m, e = Panic m) (fun m => ex_intro _ m eq_refl)) as H1.
  pose proof (wp_parse_reads (fun e : stop => e = NoFuel) eq_refl a Hp Hsp) as H2. unfold wp in *.
  destruct (parse 0%nat) as [[c s]|e]; [done|]. destruct H1 as [m ->]. done.
Qed.
End line.

Lemma wp_parsecmd line tail : Forall (fun c => c <> 0) line ->
  wp parsecmd (fun e : stop => exists m, e = Panic m) (fun c buf' =>
    cmd_ok line c /\ length buf' = length (line ++ 0 :: tail) /\ view (c_string buf') c = view (text line) c) (line ++ 0 :: tail).
Proof.
  intros Hnz. unfold wp. rewrite parsecmd_parse by done.
  pose proof (wp_parse line tail Hnz (fun e : stop => exists m, e = Panic m) (fun m => ex_intro _ m eq_refl)) as Hp. unfold wp in Hp.
  destruct (parse line tail 0%nat) as [[c s]|e]; [|done].
  match goal with |- context [(nulterminate c ;;; ret c) ?b] => set (m := nulterminate c ;;; ret c) end.
  change (wp m (fun e : stop => exists m, e = Panic m) (fun c buf' =>
    cmd_ok line c /\ length buf' = length (line ++ 0 :: tail) /\ view (c_string buf') c = view (text line) c) (line ++ 0 :: tail)).
  subst m. wstep. eapply (wp_nulterminate line tail); [done|by apply nulled_buf|done|]. intros b [Hb Hv] _. wsteps.
  split; [done|]. split; [apply Hb|]. apply Hv; [done|by intros i].
Qed.

(** C23: The shell's parser is total and stays in the line.  For every line
    [parsecmd] either returns a tree or reports a syntax error with [panic]:
    its loops and its recursion end, and it never reads or writes outside the
    line.  In the tree no command has more than nine arguments, and every
    word, read as the C string at its pointer, is a maximal run of characters
    other than white space and symbols of the line that was given. *)
Theorem parsecmd_total buf n : strlen buf = Some n ->
  wp parsecmd (fun e : stop => exists m, e = Panic m) (fun c buf' =>
    exists line, line = take (Z.to_nat n) buf /\ cmd_ok line c /\ length buf' = length buf /\
      view (c_string buf') c = view (text line) c) buf.
Proof.
  intros (line & tail & -> & -> & Hnz)%strlen_split. rewrite Nat2Z.id. eapply wp_mono; [by apply wp_parsecmd|].
  intros c buf' Hc. exists line. split; [by rewrite take_app_length|done].
Qed.

Lemma parsecmd_total_witness :
  wp parsecmd (fun e : stop => exists m, e = Panic m) (fun c buf' =>
    exists line, line = take (Z.to_nat 9) (chars "ls>f(;|&)") /\ cmd_ok line c /\ length buf' = length (chars "ls>f(;|&)") /\
      view (c_string buf') c = view (text line) c) (chars "ls>f(;|&)").
Proof. apply (parsecmd_total (chars "ls>f(;|&)") 9). by vm_compute. Defined.

Lemma spells_nz ts l : spells ts l -> Forall (fun c => c <> 0) l.
Proof.
  assert (forall ws, Forall (fun c => is_ws c = true) ws -> Forall (fun c => c <> 0) ws) as Hws.
  { intros ws Hw. eapply Forall_impl; [exact Hw|]. intros c Hc ->. done. }
  induction 1 as [ws Hw|ws c ts l Hw Hc _ _ IH|ws ts l Hw _ IH|ws c w ts l Hw Hc _ _ IH]; [by apply Hws| | |]; apply Forall_app; (split; [by apply Hws|]).
  - constructor; [by apply sym_char|done].
  - by repeat constructor.
  - change (c :: w ++ l) with ((c :: w) ++ l). apply Forall_app. split; [|done]. eapply Forall_impl; [exact Hc|].
    intros x Hx. by apply word_char.
Qed.

(** C24: Reading back a command.  A command with at most nine arguments to a
    program, written in the shell's grammar with parentheses where they are
    needed and with any white space, is parsed to that command: [parsecmd]
    returns its tree, and the C strings at the pointers of the tree are its
    words. *)
Theorem parsecmd_roundtrip a line tail :
  printable a -> spells (toks LLine a) line ->
  wp parsecmd never (fun c buf' => view (c_string buf') c = a) (line ++ 0 :: tail).
Proof.
  intros Hp Hsp. pose proof (spells_nz _ _ Hsp) as Hnz. unfold wp. rewrite parsecmd_parse by done.
  pose proof (wp_parse_complete line tail Hnz a Hp Hsp) as Hw. unfold wp in Hw.
  destruct (parse line tail 0%nat) as [[c s]|e]; [|done]. destruct Hw as [Hc Hv].
  change (wp (nulterminate c ;;; ret c) never (fun c buf' => view (c_string buf') c = a) (line ++ 0 :: tail)).
  wstep. eapply (wp_nulterminate line tail); [done|by apply nulled_buf|done|]. intros b [Hb Hvb] _. wsteps.
  rewrite <- Hv. apply Hvb; [done|by intros i].
Qed.

(** [ls -l|( cat<f;wc )&] *)
Definition sample : ast :=
  ABack (APipe (AExec [[108; 115]; [45; 108]])
    (AList (ARedir (AExec [[99; 97; 116]]) [102] O_RDONLY 0) (AExec [[119; 99]]))).
Definition sample_line : list Z := take 20 (chars "ls -l|( cat<f;wc )& ").

Ltac spell_side := try (by repeat constructor); try (intros ? [= <-]; by vm_compute); try done.

Lemma sample_spells : spells (toks LLine sample) sample_line.
Proof.
  vm_compute.
  apply (sp_word [] 108 [115]); [spell_side..|]. apply (sp_word [32] 45 [108]); [spell_side..|]. apply (sp_sym [] 124); [spell_side..|].
  apply (sp_sym [] 40); [spell_side..|]. apply (sp_word [32] 99 [97; 116]); [spell_side..|]. apply (sp_sym [] 60); [spell_side..|].
  apply (sp_word [] 102 []); [spell_side..|]. apply (sp_sym [] 59); [spell_side..|]. apply (sp_word [] 119 [99]); [spell_side..|].
  apply (sp_sym [32] 41); [spell_side..|]. apply (sp_sym [] 38); [spell_side..|]. by apply sp_nil; repeat constructor.
Qed.

Lemma parsecmd_roundtrip_witness :
  wp parsecmd never (fun c buf' => view (c_string buf') c = sample) (sample_line ++ 0 :: []).
Proof.
  apply (parsecmd_roundtrip sample sample_line []).
  - unfold sample. cbn. unfold MAXARGS. split; [lia|]. split; [split; [lia|by left]|lia].
  - apply sample_spells.
Defined.
