(* ===== verification/User.v ===== *)
(** * User programs and their library ([user.h], [printf.c], [ulib.c])

    A user program is a tree of system calls: [UCall c k] makes the call [c]
    and goes on as [k] says for the kernel's reply.  [fork] replies twice, 0
    in the child.  [UExit] is [exit()].  The replies a process may get are a
    parameter, so that nothing is assumed here about the kernel. *)
From Stdlib Require Import ZArith Lia.
From stdpp Require Import base list strings.
From S2P Require Import Prelude Params Bytes Cstring Console.
#[local] Open Scope Z_scope.

(** The system calls the programs use. *)
Inductive sys : Type :=
| Sfork | Swait | Spipe | Sgetpid
| Sread (fd n : Z)
| Swrite (fd : Z) (data : list Z)
| Sclose (fd : Z)
| Skill (pid : Z)
| Sexec (path : list Z) (argv : list (list Z))
| Sopen (path : list Z) (mode : Z)
| Smknod (path : list Z) (major minor : Z)
| Sunlink (path : list Z)
| Sfstat (fd : Z)
| Slink (old new : list Z)
| Smkdir (path : list Z)
| Schdir (path : list Z)
| Sdup (fd : Z)
| Ssbrk (n : Z)
| Ssleep (n : Z)
| Smy_syscall (s : list Z).

(** The value the call returns and what it stores through its pointers. *)
Record reply := mkreply { rv : Z; rdata : list Z }.

Inductive U (A : Type) : Type :=
| UDone (a : A)
| UExit
| UCall (c : sys) (k : reply -> U A)
| UStop (e : stop).
Arguments UDone {A} a.
Arguments UExit {A}.
Arguments UCall {A} c k.
Arguments UStop {A} e.

Fixpoint ubind {A B} (m : U A) (f : A -> U B) : U B :=
  match m with
  | UDone a => f a
  | UExit => UExit
  | UCall c k => UCall c (fun r => ubind (k r) f)
  | UStop e => UStop e
  end.

Declare Scope user_scope.
Delimit Scope user_scope with user.
Notation "x <~ m ; k" := (ubind m (fun x => k))
  (at level 20, m at level 99, k at level 200) : user_scope.
Notation "' pat <~ m ; k" := (ubind m (fun x => match x with pat => k end))
  (at level 20, pat pattern, m at level 99, k at level 200) : user_scope.
Notation "m ;;; k" := (ubind m (fun _ => k))
  (at level 100, k at level 200, right associativity) : user_scope.
#[local] Open Scope user_scope.

Definition call (c : sys) : U reply := UCall c UDone.
Definition uof_option {A} (e : stop) (o : option A) : U A := match o with Some a => UDone a | None => UStop e end.

(** [while] with a bound. *)
Fixpoint uloop {X B} (fuel : nat) (body : X -> U (X + B)) (x : X) : U B :=
  match fuel with
  | O => UStop NoFuel
  | S fuel => r <~ body x; match r with inl x' => uloop fuel body x' | inr b => UDone b end
  end.
Fixpoint ufor_each {X} (l : list X) (body : X -> U unit) : U unit :=
  match l with
  | [] => UDone tt
  | x :: l => body x ;;; ufor_each l body
  end.

(** ** The C library *)

(** [write(fd, &c, 1)]; the cast to [char] keeps eight bits. *)
Definition putc (fd c : Z) : U unit := call (Swrite fd [u8 c]) ;;; UDone tt.
Definition putcs (fd : Z) (l : list Z) : U unit := ufor_each l (putc fd).

Definition printint (fd xx base : Z) (sgn : bool) : U unit :=
  l <~ uof_option (Undef "printint: buf") (int_chars 65 xx base sgn);
  putcs fd l.

(** One conversion of [printf]: the arguments that are left. *)
Definition conversion (fd c : Z) (ap : list parg) : U (list parg) :=
  if c =? 100 then
    match ap with AInt v :: ap => printint fd (i32 v) 10 true ;;; UDone ap | _ => UStop (Undef "printf: argument") end
  else if (c =? 120) || (c =? 112) then
    match ap with AInt v :: ap => printint fd (i32 v) 16 false ;;; UDone ap | _ => UStop (Undef "printf: argument") end
  else if c =? 115 then
    match ap with AStr s :: ap => putcs fd (default null_str s) ;;; UDone ap | _ => UStop (Undef "printf: argument") end
  else if c =? 99 then
    match ap with AInt v :: ap => putc fd v ;;; UDone ap | _ => UStop (Undef "printf: argument") end
  else if c =? 37 then putc fd c ;;; UDone ap
  else putc fd 37 ;;; putc fd c ;;; UDone ap.

(** [printf] over a format without its terminating 0; [state] is the test of
    the variable of that name. *)
Fixpoint printf_loop (fd : Z) (fmt : list Z) (state : bool) (ap : list parg) : U unit :=
  match fmt with
  | [] => UDone tt
  | c :: fmt =>
      if negb state then
        if c =? 37 then printf_loop fd fmt true ap else putc fd c ;;; printf_loop fd fmt false ap
      else ap <~ conversion fd c ap; printf_loop fd fmt false ap
  end.

(** A string literal without its terminating 0; [\n] is written [nl]. *)
Definition lit (s : string) : list Z := removelast (chars s).
Definition nl : list Z := [10].
Definition printf (fd : Z) (fmt : list Z) (ap : list parg) : U unit := printf_loop fd fmt false ap.

(** [gets]: the characters put in the buffer before the terminating 0. *)
Definition gets (max : Z) : U (list Z) :=
  uloop (S (Z.to_nat max)) (fun buf =>
    if Z.of_nat (length buf) + 1 <? max then
      r <~ call (Sread 0 1);
      if rv r <? 1 then UDone (inr buf)
      else
        let c := hd 0 (rdata r) in
        let buf := buf ++ [c] in
        UDone (if (c =? 10) || (c =? 13) then inr buf else inl buf)
    else UDone (inr buf)) [].

(** [stat]: the result and the bytes of the [struct stat]. *)
Definition stat (n : list Z) : U reply :=
  fd <~ call (Sopen n O_RDONLY);
  if rv fd <? 0 then UDone (mkreply (-1) [])
  else
    r <~ call (Sfstat (rv fd));
    call (Sclose (rv fd)) ;;;
    UDone r.
