(* ===== verification/UserProgs.v ===== *)
(** * The user programs ([cat.c], [echo.c], [wc.c], [ls.c], [init.c], ...)

    Each program as a tree of system calls.  [argv] are the arguments without
    the program's name.  Loops that end only when the kernel says so take a
    bound. *)
From Stdlib Require Import ZArith Lia.
From stdpp Require Import base list strings.
From S2P Require Import Prelude Params Bytes Cstring Console FsData User.
#[local] Open Scope Z_scope.
#[local] Open Scope user_scope.

(** [for(i = 1; i < argc; i++)] over files that are opened and closed. *)
Definition for_files (name : string) (argv : list (list Z)) (body : Z -> list Z -> U unit) : U unit :=
  ufor_each argv (fun arg =>
    fd <~ call (Sopen arg 0);
    if rv fd <? 0 then printf 1 (lit name ++ lit ": cannot open %s" ++ nl) [AStr (Some arg)] ;;; UExit
    else body (rv fd) arg ;;; call (Sclose (rv fd)) ;;; UDone tt).

(** *** [cat.c] *)

Definition cat (fuel : nat) (fd : Z) : U unit :=
  n <~ uloop fuel (fun _ : unit =>
    r <~ call (Sread fd 512);
    if 0 <? rv r then
      w <~ call (Swrite 1 (take (Z.to_nat (rv r)) (rdata r)));
      if negb (rv w =? rv r) then printf 1 (lit "cat: write error" ++ nl) [] ;;; UExit
      else UDone (inl tt)
    else UDone (inr (rv r))) tt;
  if n <? 0 then printf 1 (lit "cat: read error" ++ nl) [] ;;; UExit else UDone tt.

Definition cat_main (fuel : nat) (argv : list (list Z)) : U unit :=
  match argv with
  | [] => cat fuel 0 ;;; UExit
  | _ => for_files "cat" argv (fun fd _ => cat fuel fd) ;;; UExit
  end.

(** *** [echo.c] *)

Fixpoint echo_main (argv : list (list Z)) : U unit :=
  match argv with
  | [] => UExit
  | arg :: rest => printf 1 (lit "%s%s") [AStr (Some arg); AStr (Some (if negb (length rest =? 0)%nat then [32] else nl))] ;;; echo_main rest
  end.

(** *** [wc.c] *)

(** [l], [w], [c] and [inword]. *)
Record counts := mkcounts { n_lines : Z; n_words : Z; n_bytes : Z; inword : bool }.

Definition in_space (c : Z) : bool :=
  match strchr [32; 13; 9; 10; 11; 0] c with Some (Some _) => true | _ => false end.

Definition wc_count (k : counts) (b : Z) : counts :=
  let l := if b =? 10 then i32 (n_lines k + 1) else n_lines k in
  let c := i32 (n_bytes k + 1) in
  if in_space b then mkcounts l (n_words k) c false
  else if negb (inword k) then mkcounts l (i32 (n_words k + 1)) c true
  else mkcounts l (n_words k) c (inword k).

Definition wc (fuel : nat) (fd : Z) (name : list Z) : U unit :=
  '(n, k) <~ uloop fuel (fun k =>
    r <~ call (Sread fd 512);
    if 0 <? rv r then UDone (inl (foldl wc_count k (take (Z.to_nat (rv r)) (rdata r))))
    else UDone (inr (rv r, k))) (mkcounts 0 0 0 false);
  if n <? 0 then printf 1 (lit "wc: read error" ++ nl) [] ;;; UExit
  else printf 1 (lit "%d %d %d %s" ++ nl) [AInt (n_lines k); AInt (n_words k); AInt (n_bytes k); AStr (Some name)].

Definition wc_main (fuel : nat) (argv : list (list Z)) : U unit :=
  match argv with
  | [] => wc fuel 0 [] ;;; UExit
  | _ => for_files "wc" argv (wc fuel) ;;; UExit
  end.

(** *** Programs that make one call for each argument *)
Definition kill_main (argv : list (list Z)) : U unit :=
  match argv with
  | [] => printf 2 (lit "usage: kill pid..." ++ nl) [] ;;; UExit
  | _ =>
      ufor_each argv (fun arg =>
        pid <~ uof_option (Undef "atoi") (atoi (arg ++ [0]));
        call (Skill pid) ;;; UDone tt) ;;;
      UExit
  end.

Definition ln_main (argv : list (list Z)) : U unit :=
  match argv with
  | [old; new] =>
      r <~ call (Slink old new);
      (if rv r <? 0 then printf 2 (lit "link %s %s: failed" ++ nl) [AStr (Some old); AStr (Some new)] else UDone tt) ;;;
      UExit
  | _ => printf 2 (lit "Usage: ln old new" ++ nl) [] ;;; UExit
  end.

(** The loop of [mkdir] and [rm] ends at the first failure. *)
Fixpoint until_failure (c : list Z -> sys) (msg : list Z) (argv : list (list Z)) : U unit :=
  match argv with
  | [] => UDone tt
  | arg :: argv =>
      r <~ call (c arg);
      if rv r <? 0 then printf 2 msg [AStr (Some arg)] else until_failure c msg argv
  end.
Definition mkdir_main (argv : list (list Z)) : U unit :=
  match argv with
  | [] => printf 2 (lit "Usage: mkdir files..." ++ nl) [] ;;; UExit
  | _ => until_failure Smkdir (lit "mkdir: %s failed to create" ++ nl) argv ;;; UExit
  end.
Definition rm_main (argv : list (list Z)) : U unit :=
  match argv with
  | [] => printf 2 (lit "Usage: rm files..." ++ nl) [] ;;; UExit
  | _ => until_failure Sunlink (lit "rm: %s failed to delete" ++ nl) argv ;;; UExit
  end.

Definition zombie_main : U unit :=
  r <~ call Sfork;
  (if 0 <? rv r then call (Ssleep 5) ;;; UDone tt else UDone tt) ;;;
  UExit.

Definition my_userapp_main : U unit :=
  r <~ call (Smy_syscall (lit "Hello xv6!"));
  printf 1 (lit "Return value: 0x%x" ++ nl) [AInt (rv r)] ;;;
  UExit.

(** *** [ls.c] *)

(** The characters after the last slash. *)
Fixpoint basename (path : list Z) : list Z :=
  match path with
  | [] => []
  | c :: path => if (c =? 47) || existsb (Z.eqb 47) path then basename path else c :: path
  end.
(** [fmtname] pads a short name with blanks. *)
Definition fmtname (path : list Z) : list Z :=
  let p := basename path in
  if DIRSIZ <=? Z.of_nat (length p) then p
  else p ++ replicate (Z.to_nat DIRSIZ - length p) 32.

(** The fields of the [struct stat]. *)
Definition st_type (d : list Z) : Z := i16 (get16 d 0).
Definition st_ino (d : list Z) : Z := get32 d 8.
Definition st_size (d : list Z) : Z := get32 d 16.
Definition ls_show (path st : list Z) : U unit :=
  printf 1 (lit "%s %d %d %d" ++ nl) [AStr (Some (fmtname path)); AInt (st_type st); AInt (st_ino st); AInt (st_size st)].

Definition ls (fuel : nat) (path : list Z) : U unit :=
  fd <~ call (Sopen path 0);
  if rv fd <? 0 then printf 2 (lit "ls: cannot open %s" ++ nl) [AStr (Some path)]
  else
    st <~ call (Sfstat (rv fd));
    if rv st <? 0 then
      printf 2 (lit "ls: cannot stat %s" ++ nl) [AStr (Some path)] ;;;
      call (Sclose (rv fd)) ;;; UDone tt
    else
      (if st_type (rdata st) =? T_FILE then ls_show path (rdata st)
       else if st_type (rdata st) =? T_DIR then
         if 512 <? Z.of_nat (length path) + 1 + DIRSIZ + 1 then printf 1 (lit "ls: path too long" ++ nl) []
         else
           uloop fuel (fun _ : unit =>
             r <~ call (Sread (rv fd) 16);
             if negb (rv r =? 16) then UDone (inr tt)
             else if get16 (rdata r) 0 =? 0 then UDone (inl tt)
             else
               let buf := path ++ [47] ++ until_nul (slice (rdata r) 2 (Z.to_nat DIRSIZ)) in
               st <~ stat buf;
               (if rv st <? 0 then printf 1 (lit "ls: cannot stat %s" ++ nl) [AStr (Some buf)]
                else ls_show buf (rdata st)) ;;;
               UDone (inl tt)) tt
       else UDone tt) ;;;
      call (Sclose (rv fd)) ;;; UDone tt.

Definition ls_main (fuel : nat) (argv : list (list Z)) : U unit :=
  match argv with
  | [] => ls fuel (lit ".") ;;; UExit
  | _ => ufor_each argv (ls fuel) ;;; UExit
  end.

(** *** [init.c] *)

(** [while((wpid = wait()) >= 0 && wpid != pid)] *)
Definition reap (fuel : nat) (pid : Z) : U unit :=
  uloop fuel (fun _ : unit =>
    r <~ call Swait;
    if (0 <=? rv r) && negb (rv r =? pid) then printf 1 (lit "zombie!" ++ nl) [] ;;; UDone (inl tt)
    else UDone (inr tt)) tt.

Definition init_main (fuel : nat) : U unit :=
  fd <~ call (Sopen (lit "console") O_RDWR);
  (if rv fd <? 0 then
     call (Smknod (lit "console") 1 1) ;;;
     call (Sopen (lit "console") O_RDWR) ;;; UDone tt
   else UDone tt) ;;;
  call (Sdup 0) ;;;
  call (Sdup 0) ;;;
  uloop fuel (fun _ : unit =>
    printf 1 (lit "init: starting sh" ++ nl) [] ;;;
    r <~ call Sfork;
    if rv r <? 0 then printf 1 (lit "init: fork failed" ++ nl) [] ;;; UExit
    else if rv r =? 0 then
      call (Sexec (lit "sh") [lit "sh"]) ;;;
      printf 1 (lit "init: exec sh failed" ++ nl) [] ;;;
      UExit
    else reap fuel (rv r) ;;; UDone (inl tt)) tt.

(** [forktest.c] has its own [printf], which writes the format. *)
Definition say (s : list Z) : U unit := call (Swrite 1 s) ;;; UDone tt.

(** [for(n=0; n<N; n++)]: the value of [n] after it. *)
Fixpoint forks (n k : nat) : U nat :=
  match k with
  | O => UDone n
  | S k =>
      r <~ call Sfork;
      if rv r <? 0 then UDone n
      else if rv r =? 0 then UExit
      else forks (S n) k
  end.
Fixpoint waits (n : nat) : U unit :=
  match n with
  | O => UDone tt
  | S n =>
      r <~ call Swait;
      if rv r <? 0 then say (lit "wait stopped early" ++ nl) ;;; UExit else waits n
  end.
Definition forktest : U unit :=
  say (lit "fork test" ++ nl) ;;;
  n <~ forks 0 1000;
  if (n =? 1000)%nat then say (lit "fork claimed to work N times!" ++ nl) ;;; UExit
  else
    waits n ;;;
    r <~ call Swait;
    if negb (rv r =? -1) then say (lit "wait got too many" ++ nl) ;;; UExit
    else say (lit "fork test OK" ++ nl).
Definition forktest_main : U unit := forktest ;;; UExit.

(** [for(i = 0; i < 4; i++) if(fork() > 0) break]: the value of [i]. *)
Fixpoint spread (i k : nat) : U nat :=
  match k with
  | O => UDone i
  | S k => r <~ call Sfork; if 0 <? rv r then UDone i else spread (S i) k
  end.
Definition stressfs_main : U unit :=
  printf 1 (lit "stressfs starting" ++ nl) [] ;;;
  i <~ spread 0 4;
  printf 1 (lit "write %d" ++ nl) [AInt (Z.of_nat i)] ;;;
  let path := lit "stressfs" ++ [48 + Z.of_nat i] in
  fd <~ call (Sopen path (Z.lor O_CREATE O_RDWR));
  ufor_each (seq 0 20) (fun _ => call (Swrite (rv fd) (replicate 512 97)) ;;; UDone tt) ;;;
  call (Sclose (rv fd)) ;;;
  printf 1 (lit "read" ++ nl) [] ;;;
  fd <~ call (Sopen path O_RDONLY);
  ufor_each (seq 0 20) (fun _ => call (Sread (rv fd) 512) ;;; UDone tt) ;;;
  call (Sclose (rv fd)) ;;;
  call Swait ;;;
  UExit.

(** [expipe.c]; the descriptors are the words that [pipe] stores. *)
Definition expipe_main (fuel : nat) : U unit :=
  p <~ call Spipe;
  let fds0 := word_at (rdata p) 0 in
  let fds1 := word_at (rdata p) 1 in
  pid <~ call Sfork;
  if 0 <? rv pid then
    call (Sclose fds0) ;;;
    ufor_each (lit "ABCDEFGHIJKLMNOPQRSTUVWXYZ") (fun c => call (Swrite fds1 [c]) ;;; call (Ssleep 10) ;;; UDone tt) ;;;
    call (Sclose fds1) ;;;
    call Swait ;;;
    UExit
  else if rv pid =? 0 then
    call (Sclose fds1) ;;;
    uloop fuel (fun _ : unit =>
      n <~ call (Sread fds0 1);
      if rv n <=? 0 then UDone (inr tt)
      else printf 1 (lit "%s" ++ nl) [AStr (Some (until_nul (take 1 (rdata n))))] ;;; UDone (inl tt)) tt ;;;
    call (Sclose fds0) ;;;
    UExit
  else printf 1 (lit "fork failed") [] ;;; UExit.
