(* ===== verification/Grep.v ===== *)
(** * grep ([grep.c])

    The matcher of Kernighan and Pike on the characters of a pattern and of a
    text, a relation that says what a pattern matches, and the proof that the
    two agree; then the program, which reads its input piece by piece. *)
From Stdlib Require Import ZArith Lia.
From stdpp Require Import base list strings.
From S2P Require Import Prelude Params Bytes Cstring Console User UserProgs.
#[local] Open Scope Z_scope.
#[local] Open Scope user_scope.

(** ** The matcher

    Strings are their characters without the terminating 0: the end of a list
    is where the code reads a 0. *)

(** [matchstar(c, re, text)], where [here] is [matchhere(re, .)]. *)
Fixpoint matchstar (here : list Z -> bool) (c : Z) (text : list Z) : bool :=
  if here text then true
  else
    match text with
    | [] => false
    | t :: text => if (t =? c) || (c =? 46) then matchstar here c text else false
    end.

Fixpoint matchhere (re text : list Z) {struct re} : bool :=
  let one c re1 :=
    if (c =? 36) && match re1 with [] => true | _ => false end then match text with [] => true | _ => false end
    else
      match text with
      | t :: text1 => if (c =? 46) || (c =? t) then matchhere re1 text1 else false
      | [] => false
      end in
  match re with
  | [] => true
  | c :: re1 =>
      match re1 with
      | s :: re2 => if s =? 42 then matchstar (matchhere re2) c text else one c re1
      | [] => one c re1
      end
  end.

(** The do-while loop of [match]. *)
Fixpoint search (re text : list Z) : bool :=
  if matchhere re text then true
  else match text with [] => false | _ :: text => search re text end.

Definition match_ (re text : list Z) : bool :=
  match re with
  | c :: re1 => if c =? 94 then matchhere re1 text else search re text
  | [] => search re text
  end.

(** ** What a pattern means

    [matches re p rest]: the pattern [re] stands for the text [p] when [rest]
    is what follows it. *)
Definition stands (c x : Z) : Prop := c = 46 \/ c = x.
Inductive matches : list Z -> list Z -> list Z -> Prop :=
| m_empty rest : matches [] [] rest
| m_star c re p1 p2 rest : Forall (stands c) p1 -> matches re p2 rest -> matches (c :: 42 :: re) (p1 ++ p2) rest
| m_end : matches [36] [] []
| m_char c re x p rest : stands c x -> head re <> Some 42 -> (c = 36 -> re <> []) -> matches re p rest -> matches (c :: re) (x :: p) rest.

Lemma matchstar_spec here c text :
  matchstar here c text = true <-> exists p q, text = p ++ q /\ Forall (stands c) p /\ here q = true.
Proof.
  induction text as [|t text IH]; cbn.
  - destruct (here []) eqn:Hh.
    + split; [|done]. intros _. by exists [], [].
    + split; [done|]. intros (p & q & Heq & _ & Hq). symmetry in Heq. apply app_eq_nil in Heq as [-> ->]. congruence.
  - destruct (here (t :: text)) eqn:Hh.
    + split; [|done]. intros _. by exists [], (t :: text).
    + assert ((t =? c) || (c =? 46) = true <-> stands c t) as Hst.
      { unfold stands. rewrite orb_true_iff, !Z.eqb_eq. intuition. }
      destruct ((t =? c) || (c =? 46)).
      * rewrite IH. split; intros (p & q & Heq & Hp & Hq).
        -- exists (t :: p), q. split; [cbn; congruence|]. split; [constructor; [by apply Hst|done]|done].
        -- destruct p as [|x p]; cbn in Heq; [subst; congruence|]. injection Heq as -> ->. apply Forall_cons in Hp as [_ Hp].
           by exists p, q.
      * split; [done|]. intros (p & q & Heq & Hp & Hq). destruct p as [|x p]; cbn in Heq; [subst; congruence|].
        injection Heq as -> ->. apply Forall_cons in Hp as [Hx _]. by apply Hst in Hx.
Qed.

Lemma matchhere_unfold_one c re text : head re <> Some 42 ->
  matchhere (c :: re) text =
  if (c =? 36) && match re with [] => true | _ => false end then match text with [] => true | _ => false end
  else match text with t :: text => if (c =? 46) || (c =? t) then matchhere re text else false | [] => false end.
Proof.
  intros Hh. destruct re as [|s re]; [done|]. cbn [matchhere]. destruct (Z.eqb_spec s 42) as [->|]; [done|]. done.
Qed.

Lemma matchhere_star c re text : matchhere (c :: 42 :: re) text = matchstar (matchhere re) c text.
Proof. done. Qed.

Lemma matchhere_spec re text : matchhere re text = true <-> exists p q, text = p ++ q /\ matches re p q.
Proof.
  remember (length re) as n eqn:Hn. revert re text Hn. induction (lt_wf n) as [n _ IH]. intros re text ->.
  destruct re as [|c re].
  { split; [|done]. intros _. exists [], text. split; [done|constructor]. }
  destruct (decide (head re = Some 42)) as [Hstar|Hh].
  - destruct re as [|s re]; [done|]. injection Hstar as ->. rewrite matchhere_star, matchstar_spec. split.
    + intros (p1 & q & -> & Hp1 & Hq). apply (IH (length re)) in Hq as (p2 & r & -> & Hm); [|cbn; lia|done].
      exists (p1 ++ p2), r. split; [by rewrite <- app_assoc|]. by constructor.
    + intros (p & q & -> & Hm). inversion Hm as [|c' re' p1 p2 rest Hp1 Hm2| |c' re' x p' rest Hx Hn]; subst; [|by destruct Hn].
      exists p1, (p2 ++ q). split; [by rewrite <- app_assoc|]. split; [done|]. apply (IH (length re)); [cbn; lia|done|].
      by exists p2, q.
  - rewrite matchhere_unfold_one by done.
    destruct ((c =? 36) && match re with [] => true | _ => false end) eqn:Hend.
    + apply andb_true_iff in Hend as [->%Z.eqb_eq Hre]. destruct re; [|done]. destruct text as [|t text].
      * split; [|done]. intros _. exists [], []. split; [done|constructor].
      * split; [done|]. intros (p & q & Heq & Hm). inversion Hm; subst; [done|].
        by match goal with Hx : 36 = 36 -> _ |- _ => destruct (Hx eq_refl) end.
    + assert (c = 36 -> re <> []) as Hc by (intros -> ->; done). destruct text as [|t text].
      * split; [done|]. intros (p & q & Heq & Hm). symmetry in Heq. apply app_eq_nil in Heq as [-> ->].
        by inversion Hm; subst.
      * assert ((c =? 46) || (c =? t) = true <-> stands c t) as Hst by (unfold stands; by rewrite orb_true_iff, !Z.eqb_eq).
        destruct ((c =? 46) || (c =? t)).
        -- rewrite (IH (length re)) by (cbn; lia || done). split.
           ++ intros (p & q & -> & Hm). exists (t :: p), q. split; [done|]. constructor; [by apply Hst|done|done|done].
           ++ intros (p & q & Heq & Hm). inversion Hm as [|c' re' p1 p2 rest Hp1 Hm2| |c' re' x p' rest Hx Hn Hc' Hm2]; subst.
              ** done.
              ** by destruct Hc.
              ** injection Heq as -> ->. by exists p', q.
        -- split; [done|]. intros (p & q & Heq & Hm).
           inversion Hm as [|c' re' p1 p2 rest Hp1 Hm2| |c' re' x p' rest Hx Hn Hc' Hm2]; subst; [done|by destruct Hc|].
           injection Heq as -> ->. by apply Hst in Hx.
Qed.

Lemma search_spec re text : search re text = true <-> exists pre p q, text = pre ++ p ++ q /\ matches re p q.
Proof.
  induction text as [|t text IH]; cbn [search]; destruct (matchhere re _) eqn:Hm.
  - split; [|done]. intros _. apply matchhere_spec in Hm as (p & q & -> & Hm). by exists [], p, q.
  - split; [done|]. intros (pre & p & q & Heq & Hpq). symmetry in Heq. apply app_eq_nil in Heq as [-> Heq].
    assert (matchhere re [] = true) by (apply matchhere_spec; by exists p, q). congruence.
  - split; [|done]. intros _. apply matchhere_spec in Hm as (p & q & -> & Hm). by exists [], p, q.
  - rewrite IH. split; intros (pre & p & q & Heq & Hpq).
    + exists (t :: pre), p, q. split; [cbn; congruence|done].
    + destruct pre as [|x pre]; cbn in Heq.
      * assert (matchhere re (t :: text) = true) by (apply matchhere_spec; by exists p, q). congruence.
      * injection Heq as -> ->. by exists pre, p, q.
Qed.

(** C26: The pattern matcher.  [match(re, text)] is 1 exactly if [text] has a
    part that the pattern stands for, where a character stands for itself, a
    dot for any character, a character and a star for any number of such
    characters, a dollar at the end for the end of the text, and a caret at
    the beginning ties the part to the beginning of the text; and 0
    otherwise.  The matcher tries and backtracks; the relation [matches]
    says nothing of how. *)
Theorem match_correct re text :
  match_ re text = true <->
  match re with
  | c :: re1 => if c =? 94 then exists p q, text = p ++ q /\ matches re1 p q
                else exists pre p q, text = pre ++ p ++ q /\ matches re p q
  | [] => exists pre p q, text = pre ++ p ++ q /\ matches re p q
  end.
Proof.
  unfold match_. destruct re as [|c re]; [apply search_spec|]. destruct (c =? 94); [apply matchhere_spec|apply search_spec].
Qed.

(** ** The program *)

Abbreviation BUFSIZE := 1024%nat.

(** [while((q = strchr(p, '\n')) != 0)]: the buffer and [p] at the end. *)
Definition print_lines (pattern buf : list Z) : U (list Z * nat) :=
  uloop (BUFSIZE + 1) (fun '(buf, p) =>
    o <~ uof_option (Undef "strchr") (strchr (drop p buf) 10);
    match o with
    | None => UDone (inr (buf, p))
    | Some k =>
        let q := (p + k)%nat in
        let buf := <[q := 0]> buf in
        if match_ pattern (until_nul (drop p buf)) then
          let buf := <[q := 10]> buf in
          call (Swrite 1 (slice buf p (q + 1 - p))) ;;;
          UDone (inl (buf, (q + 1)%nat))
        else UDone (inl (buf, (q + 1)%nat))
    end) (buf, 0%nat).

Definition grep (fuel : nat) (pattern : list Z) (fd : Z) : U unit :=
  uloop fuel (fun '(buf, m) =>
    r <~ call (Sread fd (Z.of_nat (BUFSIZE - m - 1)));
    if 0 <? rv r then
      let n := Z.to_nat (rv r) in
      let buf := splice buf m (take n (rdata r)) in
      let m := (m + n)%nat in
      let buf := <[m := 0]> buf in
      '(buf, p) <~ print_lines pattern buf;
      let m := if (p =? 0)%nat then 0%nat else m in
      UDone (inl (if (0 <? m)%nat then (splice buf 0 (slice buf p (m - p)), (m - p)%nat) else (buf, m)))
    else UDone (inr tt)) (replicate BUFSIZE 0, 0%nat).

Definition grep_main (fuel : nat) (argv : list (list Z)) : U unit :=
  match argv with
  | [] => printf 2 (lit "usage: grep pattern [file ...]" ++ nl) [] ;;; UExit
  | [pattern] => grep fuel pattern 0 ;;; UExit
  | pattern :: files => for_files "grep" files (fun fd _ => grep fuel pattern fd) ;;; UExit
  end.
