(* ===== verification/ShRun.v ===== *)
(** * Running commands ([sh.c]: [runcmd], [getcmd], [main])

    The shell as a tree of system calls, and the descriptors with which the
    processes it makes run their programs. *)
From Stdlib Require Import ZArith Lia.
From stdpp Require Import base list strings gmap.
From S2P Require Import Prelude Params Bytes Cstring Console User Sh ShThms.
#[local] Open Scope Z_scope.
#[local] Open Scope user_scope.

(** The shell's own [panic]. *)
Definition sh_panic {A} (s : string) : U A := printf 2 (lit "%s" ++ nl) [AStr (Some (lit s))] ;;; UExit.

Definition fork1 : U Z :=
  r <~ call Sfork;
  if rv r =? -1 then sh_panic "fork" else UDone (rv r).

Section run.
Context (text : word -> list Z).

(** [runcmd] never returns. *)
Fixpoint runcmd (c : cmd) : U unit :=
  match c with
  | EXEC argv =>
      match argv with
      | [] => UExit
      | w :: _ =>
          call (Sexec (text w) (map text argv)) ;;;
          printf 2 (lit "exec %s failed" ++ nl) [AStr (Some (text w))] ;;;
          UExit
      end
  | REDIR c file mode fd =>
      call (Sclose fd) ;;;
      r <~ call (Sopen (text file) mode);
      if rv r <? 0 then printf 2 (lit "open %s failed" ++ nl) [AStr (Some (text file))] ;;; UExit
      else runcmd c
  | LIST l r =>
      pid <~ fork1;
      if pid =? 0 then runcmd l
      else call Swait ;;; runcmd r
  | PIPE l r =>
      p <~ call Spipe;
      if rv p <? 0 then sh_panic "pipe"
      else
        let p0 := word_at (rdata p) 0 in
        let p1 := word_at (rdata p) 1 in
        pid <~ fork1;
        if pid =? 0 then
          call (Sclose 1) ;;; call (Sdup p1) ;;; call (Sclose p0) ;;; call (Sclose p1) ;;;
          runcmd l
        else
          pid <~ fork1;
          if pid =? 0 then
            call (Sclose 0) ;;; call (Sdup p0) ;;; call (Sclose p0) ;;; call (Sclose p1) ;;;
            runcmd r
          else
            call (Sclose p0) ;;; call (Sclose p1) ;;;
            call Swait ;;; call Swait ;;;
            UExit
  | BACK c =>
      pid <~ fork1;
      if pid =? 0 then runcmd c else UExit
  end.
End run.

(** [getcmd]: the result and the buffer. *)
Definition getcmd (nbuf : nat) : U (Z * list Z) :=
  printf 2 (lit "$ ") [] ;;;
  l <~ gets (Z.of_nat nbuf);
  let buf := splice (replicate nbuf 0) 0 l in
  UDone (if byte_at buf 0 =? 0 then -1 else 0, buf).

(** [runcmd(parsecmd(buf))]; a syntax error is reported by [panic]. *)
Definition run_line (buf : list Z) : U unit :=
  match parsecmd buf with
  | Ok (c, buf) => runcmd (c_string buf) c
  | Stop (Panic msg) => sh_panic msg
  | Stop e => UStop e
  end.

(** [cd] is run by the shell itself. *)
Definition is_cd (buf : list Z) : bool := (byte_at buf 0 =? 99) && (byte_at buf 1 =? 100) && (byte_at buf 2 =? 32).

Definition sh_main (fuel : nat) : U unit :=
  uloop fuel (fun _ : unit =>
    fd <~ call (Sopen (lit "console") O_RDWR);
    if rv fd <? 0 then UDone (inr tt)
    else if 3 <=? rv fd then call (Sclose (rv fd)) ;;; UDone (inr tt)
    else UDone (inl tt)) tt ;;;
  uloop fuel (fun _ : unit =>
    '(r, buf) <~ getcmd 100;
    if r <? 0 then UDone (inr tt)
    else if is_cd buf then
      let dir := drop 3 (removelast (until_nul buf)) in
      d <~ call (Schdir dir);
      (if rv d <? 0 then printf 2 (lit "cannot cd %s" ++ nl) [AStr (Some dir)] else UDone tt) ;;;
      UDone (inl tt)
    else
      pid <~ fork1;
      if pid =? 0 then run_line buf ;;; UDone (inl tt)
      else call Swait ;;; UDone (inl tt)) tt ;;;
  UExit.

(** ** Descriptors

    What a descriptor stands for: what the process was given, a file the
    shell opened, or an end of a pipe. *)
Inductive target :=
| Inherited (n : Z)
| File (path : list Z) (mode : Z)
| PipeR (i : nat)
| PipeW (i : nat).
Abbreviation fdtab := (gmap Z target).

(** [fdalloc] takes the least descriptor that is free. *)
Definition least_free (t : fdtab) (fd : Z) : Prop :=
  0 <= fd < Z.of_nat NOFILE /\ t !! fd = None /\ forall j, 0 <= j < fd -> is_Some (t !! j).

(** What the kernel replies, and the descriptors after it. *)
Inductive answer (t : fdtab) : sys -> reply -> fdtab -> Prop :=
| a_close fd d : is_Some (t !! fd) -> answer t (Sclose fd) (mkreply 0 d) (delete fd t)
| a_close_bad fd d : t !! fd = None -> answer t (Sclose fd) (mkreply (-1) d) t
| a_open path mode fd d : least_free t fd -> answer t (Sopen path mode) (mkreply fd d) (<[fd := File path mode]> t)
| a_open_fail path mode d : answer t (Sopen path mode) (mkreply (-1) d) t
| a_dup fd x fd' d : t !! fd = Some x -> least_free t fd' -> answer t (Sdup fd) (mkreply fd' d) (<[fd' := x]> t)
| a_dup_bad fd d : t !! fd = None -> answer t (Sdup fd) (mkreply (-1) d) t
| a_dup_full fd d : (forall fd', ~ least_free t fd') -> answer t (Sdup fd) (mkreply (-1) d) t
| a_pipe i p0 p1 d : least_free t p0 -> least_free (<[p0 := PipeR i]> t) p1 -> word_at d 0 = p0 -> word_at d 1 = p1 ->
    answer t Spipe (mkreply 0 d) (<[p1 := PipeW i]> (<[p0 := PipeR i]> t))
| a_pipe_fail d : answer t Spipe (mkreply (-1) d) t
| a_fork pid d : -1 <= pid -> answer t Sfork (mkreply pid d) t
| a_wait pid d : answer t Swait (mkreply pid d) t
| a_write fd b n d : answer t (Swrite fd b) (mkreply n d) t
| a_exec path argv d : answer t (Sexec path argv) (mkreply (-1) d) t.

(** Every process that comes out of [p], [fork] followed both ways, makes its
    calls as [ok] says, and returns only as [Q] says. *)
Fixpoint always {A} (ok : fdtab -> sys -> Prop) (Q : A -> fdtab -> Prop) (p : U A) (t : fdtab) : Prop :=
  match p with
  | UDone a => Q a t
  | UExit => True
  | UCall c k => ok t c /\ forall r t', answer t c r t' -> always ok Q (k r) t'
  | UStop _ => False
  end.

(** The standard descriptors and no other. *)
Definition std_only (t : fdtab) : Prop := forall fd, is_Some (t !! fd) <-> 0 <= fd < 3.

(** [stage text c t argv t']: some process of the command [c] is to run the
    program [argv] with the descriptors [t'], if the shell has [t]. *)
Inductive stage (text : word -> list Z) : cmd -> fdtab -> list (list Z) -> fdtab -> Prop :=
| st_exec ws t : ws <> [] -> stage text (EXEC ws) t (map text ws) t
| st_redir c file mode fd t argv t' :
    stage text c (<[fd := File (text file) mode]> t) argv t' -> stage text (REDIR c file mode fd) t argv t'
| st_left l r i t argv t' : stage text l (<[1 := PipeW i]> t) argv t' -> stage text (PIPE l r) t argv t'
| st_right l r i t argv t' : stage text r (<[0 := PipeR i]> t) argv t' -> stage text (PIPE l r) t argv t'
| st_first l r t argv t' : stage text l t argv t' -> stage text (LIST l r) t argv t'
| st_second l r t argv t' : stage text r t argv t' -> stage text (LIST l r) t argv t'
| st_back c t argv t' : stage text c t argv t' -> stage text (BACK c) t argv t'.

(** ** Rules *)
Section rules.
Context (ok : fdtab -> sys -> Prop).

Lemma always_bind {A B} (m : U A) (f : A -> U B) Q t :
  always ok (fun a t => always ok Q (f a) t) m t -> always ok Q (ubind m f) t.
Proof.
  revert t. induction m as [a| |c k IH|e]; cbn; intros t; [done|done| |done]. intros [Hok Hk]. split; [done|].
  intros r t' Ha. by apply IH, Hk.
Qed.

Lemma always_call {B} c (f : reply -> U B) Q t :
  ok t c -> (forall r t', answer t c r t' -> always ok Q (f r) t') -> always ok Q (ubind (call c) f) t.
Proof. done. Qed.

(** A program that only writes. *)
Definition writes {A} (p : U A) : Prop :=
  forall t Q, (forall fd b, ok t (Swrite fd b)) -> (forall a, Q a t) -> always ok Q p t.

Lemma writes_bind {A B} (m : U A) (f : A -> U B) : writes m -> (forall a, writes (f a)) -> writes (ubind m f).
Proof. intros Hm Hf t Q Hok HQ. apply always_bind, Hm; [done|]. intros a. by apply Hf. Qed.
Lemma writes_done {A} (a : A) : writes (UDone a).
Proof. intros t Q _ HQ. apply HQ. Qed.
Lemma writes_putc fd c : writes (putc fd c).
Proof. intros t Q Hok HQ. cbn. split; [apply Hok|]. intros r t' Ha. inversion Ha; subst. apply HQ. Qed.
Lemma writes_putcs fd l : writes (putcs fd l).
Proof. induction l as [|c l IH]; cbn [putcs ufor_each]; [apply writes_done|]. apply writes_bind; [apply writes_putc|done]. Qed.

(** A format whose conversions are all [%s], and enough strings. *)
Fixpoint strings_only (fmt : list Z) (state : bool) (ap : list parg) : bool :=
  match fmt with
  | [] => true
  | c :: fmt =>
      if negb state then strings_only fmt (c =? 37) ap
      else (c =? 115) && match ap with AStr _ :: ap => strings_only fmt false ap | _ => false end
  end.

Lemma writes_printf fd fmt ap : strings_only fmt false ap = true -> writes (printf fd fmt ap).
Proof.
  unfold printf. generalize false as state. revert ap. induction fmt as [|c fmt IH]; intros ap state Hs; cbn [printf_loop strings_only] in *.
  - apply writes_done.
  - destruct state; cbn [negb] in *.
    + apply andb_true_iff in Hs as [->%Z.eqb_eq Hs]. destruct ap as [|[v|str] ap]; [done|done|]. cbn [conversion Z.eqb Pos.eqb orb].
      intros t Q Hok HQ. apply always_bind, always_bind, writes_putcs; [done|]. intros _. cbn. by apply IH.
    + destruct (c =? 37); [by apply IH|]. apply writes_bind; [apply writes_putc|]. intros _. by apply IH.
Qed.

Lemma always_printf {B} fd fmt ap (k : U B) Q t :
  strings_only fmt false ap = true -> (forall fd b, ok t (Swrite fd b)) -> always ok Q k t -> always ok Q (printf fd fmt ap ;;; k) t.
Proof. intros Hs Hok Hk. apply always_bind, writes_printf; done. Qed.

Lemma always_fork1 {B} (f : Z -> U B) Q t :
  (forall fd b, ok t (Swrite fd b)) -> ok t Sfork -> (forall pid, 0 <= pid -> always ok Q (f pid) t) -> always ok Q (ubind fork1 f) t.
Proof.
  intros Hw Hf Hk. apply always_bind. unfold fork1. apply always_call; [done|]. intros r t' Ha. inversion Ha; subst. cbn [rv].
  destruct (Z.eqb_spec pid (-1)); [by apply always_printf|]. apply Hk. lia.
Qed.
End rules.

Lemma always_mono {A} (ok ok' : fdtab -> sys -> Prop) (Q : A -> fdtab -> Prop) p t :
  (forall t c, ok t c -> ok' t c) -> always ok Q p t -> always ok' Q p t.
Proof.
  intros Hok. revert t. induction p as [a| |c k IH|e]; cbn; intros t; [done|done| |done]. intros [Hc Hk]. split; [by apply Hok|].
  intros r t' Ha. by apply IH, Hk.
Qed.

(** ** The processes of a command *)

(** A program is run with the standard descriptors only, as [P] says, and the
    shell waits with nothing else open. *)
Definition tidy (P : list (list Z) -> fdtab -> Prop) (t : fdtab) (c : sys) : Prop :=
  match c with
  | Sexec path argv => P argv t /\ std_only t /\ head argv = Some path
  | Swait => std_only t
  | _ => True
  end.

Lemma always_tidy {A} P P' (Q : A -> fdtab -> Prop) p t :
  (forall argv t, P argv t -> P' argv t) -> always (tidy P) Q p t -> always (tidy P') Q p t.
Proof. intros HP. apply always_mono. intros t' []; try done. intros (? & ? & ?). split; [by apply HP|done]. Qed.

Fixpoint std_redirs (c : cmd) : Prop :=
  match c with
  | EXEC _ => True
  | REDIR c _ _ fd => 0 <= fd < 3 /\ std_redirs c
  | PIPE l r | LIST l r => std_redirs l /\ std_redirs r
  | BACK c => std_redirs c
  end.

Lemma std_none t fd : std_only t -> 3 <= fd -> t !! fd = None.
Proof. intros Ht Hfd. destruct (t !! fd) as [x|] eqn:Hx; [|done]. assert (is_Some (t !! fd)) as Hs by by exists x. apply Ht in Hs. lia. Qed.
Lemma std_insert t fd x : std_only t -> 0 <= fd < 3 -> std_only (<[fd := x]> t).
Proof.
  intros Ht Hfd j. destruct (decide (fd = j)) as [<-|Hne]; [rewrite lookup_insert_eq|rewrite lookup_insert_ne by done; apply Ht].
  split; [done|]. by exists x.
Qed.

Lemma least_free_unique t fd fd' : least_free t fd -> least_free t fd' -> fd = fd'.
Proof.
  intros (Hr & Hn & Hl) (Hr' & Hn' & Hl'). destruct (Z.lt_trichotomy fd fd') as [Hlt|[Heq|Hgt]]; [|done|].
  - destruct (Hl' fd ltac:(lia)). congruence.
  - destruct (Hl fd' ltac:(lia)). congruence.
Qed.
(** The descriptor that was closed is the one that is taken. *)
Lemma least_free_closed t fd : (forall j, 0 <= j < 3 -> is_Some (t !! j)) -> 0 <= fd < 3 -> least_free (delete fd t) fd.
Proof.
  intros Ht Hfd. split; [unfold NOFILE; lia|]. split; [apply lookup_delete_eq|]. intros j Hj. rewrite lookup_delete_ne by lia.
  apply Ht. lia.
Qed.
Lemma least_free_std t : std_only t -> least_free t 3.
Proof. intros Ht. split; [unfold NOFILE; lia|]. split; [by apply std_none|]. intros j Hj. apply Ht. lia. Qed.
Lemma least_free_std2 t x : std_only t -> least_free (<[3 := x]> t) 4.
Proof.
  intros Ht. split; [unfold NOFILE; lia|]. split; [rewrite lookup_insert_ne by lia; by apply std_none|]. intros j Hj.
  destruct (decide (j = 3)) as [->|]; [by rewrite lookup_insert_eq|]. rewrite lookup_insert_ne by lia. apply Ht. lia.
Qed.

(** The pipe as the processes have it before they close its ends. *)
Definition piped (t : fdtab) (i : nat) : fdtab := <[4 := PipeW i]> (<[3 := PipeR i]> t).

(** [close(fd); dup(p); close(p0); close(p1)] in a child. *)
Lemma always_plumb {B} P (Q : B -> fdtab -> Prop) t i fd p x (k : U B) :
  std_only t -> (fd = 0 \/ fd = 1) -> piped t i !! p = Some x -> 3 <= p ->
  always (tidy P) Q k (<[fd := x]> t) ->
  always (tidy P) Q (call (Sclose fd) ;;; call (Sdup p) ;;; call (Sclose 3) ;;; call (Sclose 4) ;;; k) (piped t i).
Proof.
  intros Ht Hfd Hp Hp3 Hk. assert (forall j, 0 <= j < 3 -> is_Some (piped t i !! j)) as Hstd.
  { intros j Hj. unfold piped. rewrite !lookup_insert_ne by lia. apply Ht. lia. }
  apply always_call; [done|]. intros r1 t1 Ha1. inversion Ha1 as [? ? Hs|? ? Hn| | | | | | | | | | |]; subst; [|destruct (Hstd fd ltac:(lia)); congruence].
  assert (delete fd (piped t i) !! p = Some x) as Hp1 by (rewrite lookup_delete_ne by lia; done).
  pose proof (least_free_closed _ fd Hstd ltac:(lia)) as Hlf.
  apply always_call; [done|]. intros r2 t2 Ha2. inversion Ha2 as [| | | |? y fd' ? Hy Hlf'|? ? Hn|? ? Hfull| | | | | |]; subst; [|congruence|by destruct (Hfull fd)].
  rewrite Hp1 in Hy. injection Hy as <-. pose proof (least_free_unique _ _ _ Hlf' Hlf) as ->.
  assert (forall j, 3 <= j -> <[fd := x]> (delete fd (piped t i)) !! j = piped t i !! j) as Hhi.
  { intros j Hj. rewrite lookup_insert_ne, lookup_delete_ne by lia. done. }
  apply always_call; [done|]. intros r3 t3 Ha3. inversion Ha3 as [|? ? Hn| | | | | | | | | | |]; subst; [|rewrite Hhi in Hn by lia; by unfold piped in Hn; simplify_map_eq].
  apply always_call; [done|]. intros r4 t4 Ha4. inversion Ha4 as [|? ? Hn| | | | | | | | | | |]; subst.
  - assert (delete 4 (delete 3 (<[fd := x]> (delete fd (piped t i)))) = <[fd := x]> t) as ->; [|done].
    apply map_eq. intros j. destruct (decide (j = fd)) as [->|]; [rewrite !lookup_delete_ne, !lookup_insert_eq by lia; done|].
    rewrite (lookup_insert_ne t) by done. destruct (decide (j = 4)) as [->|]; [rewrite lookup_delete_eq; symmetry; by apply std_none|].
    rewrite lookup_delete_ne by done. destruct (decide (j = 3)) as [->|]; [rewrite lookup_delete_eq; symmetry; by apply std_none|].
    rewrite lookup_delete_ne, lookup_insert_ne, lookup_delete_ne by done. unfold piped. by rewrite !lookup_insert_ne by done.
  - rewrite lookup_delete_ne, Hhi in Hn by lia. by unfold piped in Hn; simplify_map_eq.
Qed.

(** [close(p[0]); close(p[1])] in the shell. *)
Lemma always_unplug {B} P (Q : B -> fdtab -> Prop) t i (k : U B) :
  std_only t -> always (tidy P) Q k t -> always (tidy P) Q (call (Sclose 3) ;;; call (Sclose 4) ;;; k) (piped t i).
Proof.
  intros Ht Hk. apply always_call; [done|]. intros r1 t1 Ha1. inversion Ha1 as [|? ? Hn| | | | | | | | | | |]; subst; [|by unfold piped in Hn; simplify_map_eq].
  apply always_call; [done|]. intros r2 t2 Ha2. inversion Ha2 as [|? ? Hn| | | | | | | | | | |]; subst; [|by unfold piped in Hn; simplify_map_eq].
  assert (delete 4 (delete 3 (piped t i)) = t) as ->; [|done]. apply map_eq. intros j. unfold piped.
  destruct (decide (j = 4)) as [->|]; [rewrite lookup_delete_eq; symmetry; by apply std_none|]. rewrite lookup_delete_ne by done.
  destruct (decide (j = 3)) as [->|]; [rewrite lookup_delete_eq; symmetry; by apply std_none|]. by rewrite lookup_delete_ne, !lookup_insert_ne by done.
Qed.

Lemma always_waits {B} P (Q : B -> fdtab -> Prop) t (k : U B) :
  std_only t -> always (tidy P) Q k t -> always (tidy P) Q (call Swait ;;; k) t.
Proof. intros Ht Hk. apply always_call; [done|]. intros r t' Ha. by inversion Ha; subst. Qed.

Lemma runcmd_tidy text c t (Q : unit -> fdtab -> Prop) :
  std_redirs c -> std_only t -> always (tidy (stage text c t)) Q (runcmd text c) t.
Proof.
  revert t. induction c as [argv|c IH file mode fd|l IHl r IHr|l IHl r IHr|c IH]; intros t Hr Ht; cbn [runcmd std_redirs] in *.
  - destruct argv as [|w ws]; [done|]. apply always_call; [split; [by constructor|done]|]. intros rp t' Ha. inversion Ha; subst.
    by apply always_printf.
  - destruct Hr as [Hfd Hr]. apply always_call; [done|]. intros r1 t1 Ha1.
    inversion Ha1 as [|? ? Hn| | | | | | | | | | |]; subst; [|destruct (proj2 (Ht fd) Hfd); congruence].
    pose proof (least_free_closed t fd (fun j Hj => proj2 (Ht j) Hj) Hfd) as Hlf.
    apply always_call; [done|]. intros r2 t2 Ha2. inversion Ha2 as [| |? ? fd' ? Hlf'|? ? ?| | | | | | | | |]; subst; cbn [rv].
    + pose proof (least_free_unique _ _ _ Hlf' Hlf) as ->. destruct (Z.ltb_spec fd 0); [lia|]. rewrite insert_delete_eq.
      eapply always_tidy; [|apply IH; [done|by apply std_insert]]. intros argv t' Hs. by constructor.
    + by apply always_printf.
  - destruct Hr as [Hl Hr]. apply always_call; [done|]. intros p t1 Ha1.
    inversion Ha1 as [| | | | | | |i p0 p1 d Hp0 Hp1 Hd0 Hd1|d| | | |]; subst; cbn [rv rdata Z.ltb Z.compare]; [|by apply always_printf].
    pose proof (least_free_unique _ _ _ Hp0 (least_free_std t Ht)) as E0. rewrite E0 in *.
    pose proof (least_free_unique _ _ _ Hp1 (least_free_std2 t _ Ht)) as E1. rewrite E1 in *. fold (piped t i).
    apply always_fork1; [done|done|]. intros pid Hpid. destruct (pid =? 0).
    { eapply always_plumb; [done|by right|unfold piped; apply lookup_insert_eq|lia|].
      eapply always_tidy; [|apply IHl; [done|by apply std_insert; [|lia]]]. intros argv t' Hs. by eapply st_left. }
    apply always_fork1; [done|done|]. intros pid' Hpid'. destruct (pid' =? 0).
    { eapply always_plumb; [done|by left|unfold piped; by rewrite lookup_insert_ne, lookup_insert_eq|lia|].
      eapply always_tidy; [|apply IHr; [done|by apply std_insert; [|lia]]]. intros argv t' Hs. by eapply st_right. }
    by apply always_unplug, always_waits, always_waits.
  - destruct Hr as [Hl Hr]. apply always_fork1; [done|done|]. intros pid Hpid. destruct (pid =? 0).
    + eapply always_tidy; [|by apply IHl]. intros argv t' Hs. by constructor.
    + apply always_waits; [done|]. eapply always_tidy; [|by apply IHr]. intros argv t' Hs. by eapply st_second.
  - apply always_fork1; [done|done|]. intros pid Hpid. destruct (pid =? 0); [|done].
    eapply always_tidy; [|by apply IH]. intros argv t' Hs. by constructor.
Qed.

Lemma cmd_ok_redirs line c : cmd_ok line c -> std_redirs c.
Proof.
  induction c as [argv|c IH file mode fd|l IHl r IHr|l IHl r IHr|c IH]; cbn; [done| | | |done].
  - intros (Hc & _ & Hfd). split; [lia|by apply IH].
  - intros [? ?]. auto.
  - intros [? ?]. auto.
Qed.


Definition std_fds : fdtab := <[0 := Inherited 0]> (<[1 := Inherited 1]> (<[2 := Inherited 2]> ∅)).

