(* ===== verification/Umalloc.v ===== *)
(** * The allocator of user programs ([umalloc.c])

    Headers are pairs of the link and the size in units of eight bytes; the
    heap is a map from addresses to headers.  The free blocks form a circle
    that starts at [base] and goes up through the heap.  [sbrk] gives the
    memory between the break and a limit. *)
From Stdlib Require Import ZArith Lia.
From stdpp Require Import base list gmap strings relations.
From S2P Require Import Prelude Params.
#[local] Open Scope Z_scope.
#[local] Open Scope kernel_scope.

Record heap := mkheap { mem_ : gmap Z (Z * Z); freep : Z; brk : Z; limit : Z }.
#[export] Instance eta_heap : Eta heap := fun h => mkheap (mem_ h) (freep h) (brk h) (limit h).

Section ops.
Context (base : Z).

(** The header at [p]: [p->s.ptr] and [p->s.size]. *)
Definition hdr (h : heap) (p : Z) : Z * Z := default (0, 0) (mem_ h !! p).
Definition rd_ptr (p : Z) : M heap Z := gets (fun h => (hdr h p).1).
Definition rd_size (p : Z) : M heap Z := gets (fun h => (hdr h p).2).
Definition set_ptr (p v : Z) : M heap unit := modify (fun h => h <| mem_ ::= <[p := (v, (hdr h p).2)]> |>).
Definition set_size (p v : Z) : M heap unit := modify (fun h => h <| mem_ ::= <[p := ((hdr h p).1, v)]> |>).
Definition set_freep (p : Z) : M heap unit := modify (fun h => h <| freep := p |>).

(** The address [n] units after [p]. *)
Definition plus (p n : Z) : Z := u32 (p + 8 * n).

Definition sbrk (n : Z) : M heap Z :=
  h <~ get;
  if (0 <=? brk h + n) && (brk h + n <=? limit h) then put (h <| brk := brk h + n |>) ;;; ret (brk h)
  else ret (-1).

(** [if(q + size == ptr)] the block at [ptr] is joined to [q], otherwise [q]
    is linked to it. *)
Definition join (q size ptr : Z) : M heap unit :=
  if plus q size =? ptr then
    n <~ rd_size ptr;
    set_size q (u32 (size + n)) ;;;
    nn <~ rd_ptr ptr;
    set_ptr q nn
  else set_ptr q ptr.

Definition free (ap : Z) : M heap unit :=
  let bp := u32 (ap - 8) in
  h <~ get;
  p <~ loop (size (mem_ h) + 2) (fun p =>
    ptr <~ rd_ptr p;
    if (p <? bp) && (bp <? ptr) then ret (inr p)
    else if (ptr <=? p) && ((p <? bp) || (bp <? ptr)) then ret (inr p)
    else ret (inl ptr)) (freep h);
  pptr <~ rd_ptr p;
  bsize <~ rd_size bp;
  join bp bsize pptr ;;;
  psize <~ rd_size p;
  join p psize bp ;;;
  set_freep p.

Definition morecore (nu : Z) : M heap Z :=
  let nu := if nu <? 4096 then 4096 else nu in
  p <~ sbrk (i32 (nu * 8));
  if p =? -1 then ret 0
  else set_size p nu ;;; free (u32 (p + 8)) ;;; gets freep.

(** [(nbytes + sizeof(Header) - 1)/sizeof(Header) + 1] *)
Definition units (nbytes : Z) : Z := u32 (u32 (nbytes + 8 - 1) / 8 + 1).

Definition malloc (nbytes : Z) : M heap Z :=
  let nunits := units nbytes in
  h <~ get;
  (if freep h =? 0 then set_freep base ;;; set_ptr base base ;;; set_size base 0 else ret tt) ;;;
  prevp <~ gets freep;
  p <~ rd_ptr prevp;
  h <~ get;
  loop (2 * size (mem_ h) + 4) (fun '(prevp, p) =>
    psize <~ rd_size p;
    if nunits <=? psize then
      p <~ (if psize =? nunits then ptr <~ rd_ptr p; set_ptr prevp ptr ;;; ret p
            else
              set_size p (psize - nunits) ;;;
              let p := plus p (psize - nunits) in
              set_size p nunits ;;;
              ret p);
      set_freep prevp ;;;
      ret (inr (u32 (p + 8)))
    else
      fp <~ gets freep;
      if p =? fp then
        p <~ morecore nunits;
        if p =? 0 then ret (inr 0)
        else n <~ rd_ptr p; ret (inl (p, n))
      else n <~ rd_ptr p; ret (inl (p, n))) (prevp, p).
End ops.
