(* ===== verification/UmallocThms.v ===== *)
(** * Blocks are not shared ([umalloc.c])

    The free blocks are a list in ascending order, with gaps between them;
    [free] puts a block in its place and joins it with its neighbours,
    [malloc] takes a block or the end of one.  The allocated blocks never
    overlap the free ones or each other. *)
From Stdlib Require Import ZArith Lia.
From stdpp Require Import base list gmap strings relations.
From S2P Require Import Prelude Params Umalloc.
#[local] Open Scope Z_scope.
#[local] Open Scope kernel_scope.

(** Loops with a bound that depends on the proof state. *)
Lemma wp_loop_rank {S X B} (I : nat -> X -> S -> Prop) (fuel : nat) body (x : X) E (Q : B -> S -> Prop) (s : S) v :
  I v x s -> (v < fuel)%nat ->
  (forall v x s, I v x s -> wp (body x) E (fun r s' => match r with inl x' => exists v', (v' < v)%nat /\ I v' x' s' | inr b => Q b s' end) s) ->
  wp (loop fuel body x) E Q s.
Proof.
  intros HI Hv Hbody. revert v x s HI Hv. induction fuel as [|fuel IH]; intros v x s HI Hv; [lia|]. cbn [loop]. wstep.
  eapply wp_mono; [by apply Hbody|]. intros [x'|b] s' Hr; [|by apply wp_ret]. destruct Hr as (v' & Hlt & HI'). eapply IH; [done|lia].
Qed.

(** Steps from position [i] to position [t] of a circle of [n]. *)
Definition dist (n i t : nat) : nat := if (i <=? t)%nat then t - i else n + t - i.
Definition after (n i : nat) : nat := if (S i <? n)%nat then S i else 0%nat.
Lemma dist_after n i t : (i < n)%nat -> (t < n)%nat -> i <> t -> (dist n (after n i) t < dist n i t)%nat.
Proof. unfold dist, after. intros. destruct (Nat.ltb_spec (S i) n), (Nat.leb_spec i t); [destruct (Nat.leb_spec (S i) t); lia..| |]; cbn; lia. Qed.
Lemma dist_lt n i t : (i < n)%nat -> (t < n)%nat -> (dist n i t < n)%nat.
Proof. unfold dist. intros. destruct (Nat.leb_spec i t); lia. Qed.

Abbreviation block := (Z * Z)%type.

(** The bytes of a block, and of blocks. *)
Definition within (x : Z) (b : block) : Prop := b.1 <= x < b.1 + 8 * b.2.
Definition covers (l : list block) (x : Z) : Prop := exists b, b ∈ l /\ within x b.

(** Ascending, with gaps. *)
Fixpoint asc (l : list block) : Prop :=
  match l with
  | [] => True
  | b :: l => Forall (fun c => b.1 + 8 * b.2 < c.1) l /\ asc l
  end.

(** No two blocks overlap. *)
Fixpoint apart (l : list block) : Prop :=
  match l with
  | [] => True
  | b :: l => (forall x, within x b -> ~ covers l x) /\ apart l
  end.

Section ring.
Context (base : Z).

(** The address after a place in the circle. *)
Definition nxt (l : list block) : Z := match l with b :: _ => b.1 | [] => base end.

Fixpoint ring (m : gmap Z (Z * Z)) (l : list block) : Prop :=
  match l with
  | [] => True
  | b :: l => m !! b.1 = Some (nxt l, b.2) /\ ring m l
  end.

Lemma circle_app m l1 l2 : ring m (l1 ++ l2) -> ring m l2.
Proof. induction l1 as [|b l1 IH]; [done|]. intros [_ Hr]. by apply IH. Qed.
Lemma ring_at m l1 b l2 : ring m (l1 ++ b :: l2) -> m !! b.1 = Some (nxt l2, b.2).
Proof. intros Hr. apply circle_app in Hr. by destruct Hr. Qed.
Lemma ring_other m l p v : ring m l -> (forall b, b ∈ l -> b.1 <> p) -> ring (<[p := v]> m) l.
Proof.
  induction l as [|b l IH]; [done|]. intros [Hb Hr] Hp. split.
  - rewrite lookup_insert_ne; [done|]. apply not_eq_sym, Hp, elem_of_cons. by left.
  - apply IH; [done|]. intros c Hc. apply Hp, elem_of_cons. by right.
Qed.
(** Another tail, from a place with the same address on. *)
Lemma ring_tail m m' l1 l2 l2' : ring m (l1 ++ l2) -> nxt l2' = nxt l2 -> (forall b, b ∈ l1 -> m' !! b.1 = m !! b.1) -> ring m' l2' -> ring m' (l1 ++ l2').
Proof.
  intros Hr Hn Hm Hr'. induction l1 as [|b l1 IH]; [done|]. destruct Hr as [Hb Hr]. split.
  - rewrite Hm by (apply elem_of_cons; by left). rewrite Hb. do 2 f_equal. destruct l1; [done|done].
  - apply IH; [done|]. intros c Hc. apply Hm, elem_of_cons. by right.
Qed.

Lemma asc_app l1 l2 : asc (l1 ++ l2) <-> asc l1 /\ asc l2 /\ forall b c, b ∈ l1 -> c ∈ l2 -> b.1 + 8 * b.2 < c.1.
Proof.
  induction l1 as [|b l1 IH]; cbn.
  - split; [|tauto]. intros Ha. split; [done|]. split; [done|]. by intros b c ?%not_elem_of_nil.
  - rewrite IH, Forall_app. split.
    + intros [[H1 H2] (H3 & H4 & H5)]. split; [done|]. split; [done|]. intros b' c [->|Hb']%elem_of_cons Hc.
      * by apply (proj1 (Forall_forall _ _) H2).
      * by apply H5.
    + intros [[H1 H2] [H3 H4]]. split; [split; [done|]|split; [done|split; [done|]]].
      * apply Forall_forall. intros c Hc. apply H4; [apply elem_of_cons; by left|done].
      * intros b' c Hb' Hc. apply H4; [apply elem_of_cons; by right|done].
Qed.

Lemma covers_app l1 l2 x : covers (l1 ++ l2) x <-> covers l1 x \/ covers l2 x.
Proof.
  unfold covers. split.
  - intros (b & [Hb|Hb]%elem_of_app & Hx); [left|right]; by exists b.
  - intros [(b & Hb & Hx)|(b & Hb & Hx)]; exists b; rewrite elem_of_app; auto.
Qed.
Lemma covers_cons b l x : covers (b :: l) x <-> within x b \/ covers l x.
Proof.
  unfold covers. split.
  - intros (c & [->|Hc]%elem_of_cons & Hx); [by left|right; by exists c].
  - intros [Hx|(c & Hc & Hx)]; [exists b|exists c]; rewrite elem_of_cons; auto.
Qed.
End ring.

Lemma covers_perm l l' x : l ≡ₚ l' -> covers l x -> covers l' x.
Proof. intros Hp (b & Hb & Hx). exists b. split; [by rewrite <- Hp|done]. Qed.
Lemma apart_perm l l' : l ≡ₚ l' -> apart l -> apart l'.
Proof.
  induction 1 as [|b l l' Hp IH|b c l|l1 l2 l3 _ IH1 _ IH2]; [done| | |by auto].
  - intros [Hb Hl]. split; [|by apply IH]. intros x Hx Hc. apply (Hb x Hx). by eapply covers_perm.
  - intros [Hb [Hc Hl]]. cbn in *. split; [|split; [|done]].
    + intros x Hx [Hxb|Hl']%covers_cons; [|by apply (Hc x)]. apply (Hb x Hxb), covers_cons. by left.
    + intros x Hx Hl'. apply (Hb x Hx), covers_cons. by right.
Qed.

Lemma asc_lookup l i j b c : asc l -> l !! i = Some b -> l !! j = Some c -> (i < j)%nat -> b.1 + 8 * b.2 < c.1.
Proof.
  revert i j. induction l as [|a l IH]; intros i j; [done|]. intros [Ha Hl] Hi Hj Hlt. destruct j as [|j]; [lia|]. cbn in Hj.
  destruct i as [|i]; cbn in Hi.
  - injection Hi as <-. apply (proj1 (Forall_forall _ _) Ha). by eapply list_elem_of_lookup_2.
  - eapply IH; [done|done|done|lia].
Qed.

(** Where a block that is not in the list belongs. *)
Lemma place l b0 bp : asc (b0 :: l) -> b0.1 < bp -> (forall b, b ∈ l -> b.1 <> bp) -> (forall b, b ∈ b0 :: l -> 0 <= b.2) ->
  exists l1 p l2, b0 :: l = l1 ++ p :: l2 /\ p.1 < bp /\ forall c, c ∈ l2 -> bp < c.1.
Proof.
  revert b0. induction l as [|c l IH]; intros b0 Ha Hb Hne Hn.
  - exists [], b0, []. split; [done|]. split; [done|]. by intros c ?%not_elem_of_nil.
  - destruct (Z.lt_ge_cases c.1 bp) as [Hc|Hc].
    + destruct (IH c) as (l1 & p & l2 & Heq & Hp & Hl2); [apply Ha|done| | |].
      * intros b Hbl. apply Hne, elem_of_cons. by right.
      * intros b Hbl. apply Hn, elem_of_cons. by right.
      * exists (b0 :: l1), p, l2. split; [by rewrite Heq|done].
    + assert (bp < c.1) as Hlt by (specialize (Hne c ltac:(apply elem_of_cons; by left)); lia).
      exists [], b0, (c :: l). split; [done|]. split; [done|]. intros d [->|Hd]%elem_of_cons; [done|].
      destruct Ha as [_ [Ha _]]. pose proof (proj1 (Forall_forall _ _) Ha d Hd) as Hcd. cbn in Hcd.
      specialize (Hn c ltac:(apply elem_of_cons; right; apply elem_of_cons; by left)). lia.
Qed.

(** ** Joining *)

Definition joined (a : block) (l : list block) : bool := match l with c :: _ => a.1 + 8 * a.2 =? c.1 | [] => false end.
(** The block [a] before the blocks [l]. *)
Definition merge (a : block) (l : list block) : list block :=
  if joined a l then match l with c :: l => (a.1, a.2 + c.2) :: l | [] => [a] end else a :: l.

Lemma merge_spec a l : (forall c, c ∈ l -> 0 <= c.2) -> exists n l', merge a l = (a.1, n) :: l' /\ a.2 <= n.
Proof.
  intros Hl. unfold merge. destruct (joined a l); [|exists a.2, l; split; [by destruct a|lia]].
  destruct l as [|c l]; [exists a.2, []; split; [by destruct a|lia]|]. specialize (Hl c ltac:(apply elem_of_cons; by left)).
  exists (a.2 + c.2), l. split; [done|lia].
Qed.

Lemma merge_covers a l x : 0 <= a.2 -> (forall c, c ∈ l -> 0 <= c.2) -> covers (merge a l) x <-> within x a \/ covers l x.
Proof.
  intros Ha Hl. unfold merge. destruct (joined a l) eqn:Hj; [|apply covers_cons]. destruct l as [|c l]; [done|].
  cbn in Hj. apply Z.eqb_eq in Hj. specialize (Hl c ltac:(apply elem_of_cons; by left)). rewrite !covers_cons. unfold within. cbn [fst snd].
  split; [intros [?|?]|intros [?|[?|?]]]; try tauto; [|left; lia|left; lia].
  destruct (Z.lt_ge_cases x c.1); [left; lia|right; left; lia].
Qed.

Lemma merge_asc a l : asc l -> (forall c, c ∈ l -> a.1 + 8 * a.2 <= c.1 /\ 1 <= c.2) -> asc (merge a l).
Proof.
  intros Hl Ha. unfold merge, joined. destruct l as [|c l]; [done|]. destruct Hl as [Hc Hl]. destruct (Z.eqb_spec (a.1 + 8 * a.2) c.1) as [He|He].
  - split; [|done]. eapply Forall_impl; [exact Hc|]. cbn. intros d Hd. lia.
  - split; [|done]. apply Forall_cons. specialize (Ha c ltac:(apply elem_of_cons; by left)). split; [lia|].
    eapply Forall_impl; [exact Hc|]. cbn. intros d Hd. lia.
Qed.

(** What holds of [a] and [l], holds of the result. *)
Lemma merge_blocks (P : Z -> Prop) B a l : 1 <= a.2 -> a.1 + 8 * a.2 <= B -> P a.1 -> (forall c, c ∈ l -> 1 <= c.2 /\ c.1 + 8 * c.2 <= B /\ P c.1) ->
  forall c, c ∈ merge a l -> 1 <= c.2 /\ c.1 + 8 * c.2 <= B /\ P c.1.
Proof.
  intros H1 H2 H3 Hl c. unfold merge. destruct (joined a l) eqn:Hj; [|intros [->|Hc]%elem_of_cons; [done|by apply Hl]].
  destruct l as [|d l]; [done|]. cbn in Hj. apply Z.eqb_eq in Hj. destruct (Hl d ltac:(apply elem_of_cons; by left)) as (Hd1 & Hd2 & _).
  intros [->|Hc]%elem_of_cons; [cbn; split; [lia|split; [lia|done]]|]. apply Hl, elem_of_cons. by right.
Qed.

Lemma merge_head a l : forall c, c ∈ merge a l -> c.1 = a.1 \/ c ∈ l.
Proof.
  intros c. unfold merge. destruct (joined a l).
  - destruct l as [|d l]; [intros ->%list_elem_of_singleton; by left|]. intros [->|Hc]%elem_of_cons; [by left|right; apply elem_of_cons; by right].
  - intros [->|Hc]%elem_of_cons; [by left|by right].
Qed.

Lemma merge_pos a l : 1 <= a.2 -> (forall c, c ∈ l -> 1 <= c.2) -> forall c, c ∈ merge a l -> 1 <= c.2.
Proof.
  intros Ha Hl c. unfold merge. destruct (joined a l); [|intros [->|Hc]%elem_of_cons; auto].
  destruct l as [|d l]; [by intros ->%list_elem_of_singleton|]. pose proof (Hl d ltac:(apply elem_of_cons; by left)).
  intros [->|Hc]%elem_of_cons; [cbn; lia|apply Hl, elem_of_cons; by right].
Qed.

Lemma merge_length a l : (length (merge a l) <= length l + 1)%nat.
Proof. unfold merge. destruct (joined a l); [destruct l|]; cbn; lia. Qed.

(** The list with the block [b] in its place. *)
Section insertion.
Context (L F1 F2 : list block) (base : Z) (p b : block).
Context (HF : (base, 0) :: L = F1 ++ p :: F2) (Hasc : asc ((base, 0) :: L)) (HL : forall c, c ∈ L -> 1 <= c.2).
Context (Hb : 1 <= b.2) (Hbb : base < b.1) (Hp : p.1 + 8 * p.2 <= b.1) (Hp1 : p.1 < b.1) (Hn : forall c, c ∈ F2 -> b.1 + 8 * b.2 <= c.1).

Lemma ins_sizes : 0 <= p.2 /\ forall c, c ∈ F2 -> 1 <= c.2.
Proof using All.
  destruct F1 as [|c F1']; injection HF as H1 H2.
  - subst. split; [cbn; lia|done].
  - subst. split; [|intros d Hd; apply HL, elem_of_app; right; apply elem_of_cons; by right].
    assert (1 <= p.2); [|lia]. apply HL, elem_of_app. right. apply elem_of_cons. by left.
Qed.

Lemma ins_asc : asc (F1 ++ merge p (merge b F2)).
Proof using All.
  destruct ins_sizes as [Hp2 HF2]. rewrite HF in Hasc. apply asc_app in Hasc as (H1 & [Hpf H2] & H3).
  assert (asc (merge b F2)) as Hm by (apply merge_asc; [done|]; intros c Hc; split; [by apply Hn|by apply HF2]).
  assert (forall c, c ∈ merge b F2 -> p.1 + 8 * p.2 <= c.1 /\ 1 <= c.2) as Hall.
  { intros c Hc. split; [|by eapply (merge_pos b F2)]. apply merge_head in Hc as [->|Hc]; [done|]. specialize (Hn c Hc). lia. }
  apply asc_app. split; [done|]. split; [by apply merge_asc|]. intros c d Hc Hd.
  assert (c.1 + 8 * c.2 < p.1) as Hcp by (apply H3; [done|apply elem_of_cons; by left]).
  apply merge_head in Hd as [->|Hd]; [done|]. destruct (Hall d Hd). lia.
Qed.

Lemma ins_covers x : covers (F1 ++ merge p (merge b F2)) x <-> covers L x \/ within x b.
Proof using All.
  destruct ins_sizes as [Hp2 HF2]. assert (covers L x <-> covers ((base, 0) :: L) x) as ->.
  { rewrite covers_cons. unfold within. cbn. split; [by right|]. intros [?|?]; [lia|done]. }
  pose proof (merge_pos b F2 Hb HF2) as Hm.
  rewrite HF, !covers_app, covers_cons, !merge_covers; [tauto|lia| |done|].
  - intros c Hc. specialize (HF2 c Hc). lia.
  - intros c Hc. specialize (Hm c Hc). lia.
Qed.

(** The first block stays the first; the block at [p] or the one after it has
    the size of [b]. *)
Lemma ins_list : exists L' q l2, F1 ++ merge p (merge b F2) = (base, 0) :: L' /\ (base, 0) :: L' = F1 ++ q :: l2 /\ q.1 = p.1 /\
  (b.2 <= q.2 \/ exists c l3, l2 = c :: l3 /\ b.2 <= c.2).
Proof using All.
  destruct ins_sizes as [Hp2 HF2]. destruct (merge_spec b F2) as (n & l' & Hm & Hbn); [intros c Hc; specialize (HF2 c Hc); lia|].
  destruct F1 as [|c F1']; injection HF as H1 H2.
  - exists (merge b F2), (base, 0), (merge b F2). rewrite <- H1. assert (merge (base, 0) (merge b F2) = (base, 0) :: merge b F2) as ->.
    { rewrite Hm. unfold merge, joined. cbn [fst snd]. by rewrite (proj2 (Z.eqb_neq _ _)) by lia. }
    split; [done|]. split; [done|]. split; [done|]. right. by exists (b.1, n), l'.
  - rewrite <- H1. exists (F1' ++ merge p (merge b F2)). rewrite Hm. unfold merge at 1 2 3. destruct (joined p _).
    + exists (p.1, p.2 + n), l'. split; [done|]. split; [done|]. split; [done|]. left. cbn. lia.
    + exists p, ((b.1, n) :: l'). split; [done|]. split; [done|]. split; [done|]. right. by exists (b.1, n), l'.
Qed.

Lemma ins_blocks (P : Z -> Prop) B : b.1 + 8 * b.2 <= B -> P b.1 -> (forall c, c ∈ L -> c.1 + 8 * c.2 <= B /\ P c.1) ->
  forall c, c ∈ F1 ++ merge p (merge b F2) -> c = (base, 0) \/ (1 <= c.2 /\ c.1 + 8 * c.2 <= B /\ P c.1).
Proof using All.
  intros Hb1 HPb HLB c Hc. destruct ins_sizes as [Hp2 HF2].
  assert (forall d, d ∈ (base, 0) :: L -> d = (base, 0) \/ (1 <= d.2 /\ d.1 + 8 * d.2 <= B /\ P d.1)) as Hall.
  { intros d [->|Hd]%elem_of_cons; [by left|]. right. split; [by apply HL|by apply HLB]. }
  apply elem_of_app in Hc as [Hc|Hc]; [apply Hall; rewrite HF; apply elem_of_app; by left|].
  assert (forall d, d ∈ F2 -> 1 <= d.2 /\ d.1 + 8 * d.2 <= B /\ P d.1) as HF2'.
  { intros d Hd. destruct (Hall d) as [->|?]; [rewrite HF; apply elem_of_app; right; apply elem_of_cons; by right| |done].
    exfalso. specialize (Hn _ Hd). cbn in Hn. lia. }
  pose proof (merge_blocks P B b F2 Hb Hb1 HPb HF2') as Hm.
  destruct (Hall p) as [Hpb|(Hq1 & Hq2 & Hq3)]; [rewrite HF; apply elem_of_app; right; apply elem_of_cons; by left| |].
  - destruct (merge_spec b F2) as (n & l' & Hml & _); [intros d Hd; specialize (HF2 d Hd); lia|].
    rewrite Hpb in Hc. assert (merge (base, 0) (merge b F2) = (base, 0) :: merge b F2) as Hmm.
    { rewrite Hml. unfold merge, joined. cbn [fst snd]. by rewrite (proj2 (Z.eqb_neq _ _)) by lia. }
    rewrite Hmm in Hc. apply elem_of_cons in Hc as [->|Hc]; [by left|]. right. by apply Hm.
  - right. by eapply (merge_blocks P B p (merge b F2)).
Qed.
End insertion.

Section heap.
Context (base : Z) (Hbase : 0 < base).

(** The free blocks [L] and the allocated blocks [A] of a heap. *)
Record inv (h : heap) (L A : list block) : Prop := {
  in_ring : ring base (mem_ h) ((base, 0) :: L);
  in_asc : asc ((base, 0) :: L);
  in_free : forall b, b ∈ L -> 1 <= b.2 /\ b.1 + 8 * b.2 <= brk h /\ b.1 mod 8 = 0;
  in_live : forall b, b ∈ A -> 1 <= b.2 /\ base < b.1 /\ b.1 + 8 * b.2 <= brk h /\ b.1 mod 8 = 0 /\ exists x, mem_ h !! b.1 = Some (x, b.2);
  in_apart : forall x, covers L x -> ~ covers A x;
  in_pair : apart A;
  in_freep : exists n, (freep h, n) ∈ (base, 0) :: L;
  in_brk : base < brk h /\ brk h <= limit h /\ limit h < 2 ^ 32 - 8 /\ brk h mod 8 = 0
}.

(** The free block at [p], or the one after it, has at least [n] units. *)
Definition room (p : Z) (L : list block) (n : Z) : Prop :=
  exists F1 q l2, (base, 0) :: L = F1 ++ q :: l2 /\ q.1 = p /\ (n <= q.2 \/ exists c l3, l2 = c :: l3 /\ n <= c.2).

Lemma inv_perm h L A A' : A ≡ₚ A' -> inv h L A -> inv h L A'.
Proof using.
  intros Hp [? ? ? Hl Hap Hpa ? ?]. split; try done.
  - intros b Hb. apply Hl. by rewrite Hp.
  - intros x Hx (b & Hb & Hxb). apply (Hap x Hx). exists b. split; [by rewrite Hp|done].
  - by eapply apart_perm.
Qed.

(** The search of [free]. *)
Lemma wp_search h F F1 p F2 bp fuel X (Q : Z -> heap -> Prop) n :
  ring base (mem_ h) F -> asc F -> (forall b, b ∈ F -> base <= b.1 /\ 0 <= b.2) -> F = F1 ++ p :: F2 -> p.1 < bp -> (forall c, c ∈ F2 -> bp < c.1) ->
  (freep h, n) ∈ F -> base < bp -> nxt base F = base -> (length F < fuel)%nat -> Q p.1 h ->
  wp (loop fuel (fun p =>
    ptr <~ rd_ptr p;
    if (p <? bp) && (bp <? ptr) then ret (inr p)
    else if (ptr <=? p) && ((p <? bp) || (bp <? ptr)) then ret (inr p)
    else ret (inl ptr)) (freep h)) X Q h.
Proof using All.
  intros Hr Ha Hb HF Hp HF2 Hfp Hbp Hhd Hf HQ. apply list_elem_of_lookup in Hfp as [i0 Hi0].
  assert (forall i b, F !! i = Some b -> (hdr h b.1).1 = nxt base (drop (S i) F)) as Hptr.
  { intros i b Hi. unfold hdr. rewrite <- (take_drop_middle F i b Hi) in Hr. by rewrite (ring_at _ _ _ _ _ Hr). }
  assert (F !! length F1 = Some p) as Ht by (by rewrite HF, list_lookup_middle).
  apply wp_loop_rank with (I := fun v q h' => h' = h /\ exists i m, F !! i = Some (q, m) /\ v = dist (length F) i (length F1)) (v := dist (length F) i0 (length F1)).
  { split; [done|]. by exists i0, n. }
  { apply lookup_lt_Some in Hi0, Ht. unfold dist. destruct (Nat.leb_spec i0 (length F1)); lia. }
  clear Hi0. intros v q h' (-> & i & m & Hi & ->). wstep. unfold rd_ptr. wsteps. pose proof (Hptr i (q, m) Hi) as Hq. cbn [fst] in Hq. rewrite Hq.
  pose proof (Hb (q, m) (list_elem_of_lookup_2 _ _ _ Hi)) as [Hqb Hqm]. cbn [fst snd] in *.
  destruct (Nat.lt_trichotomy i (length F1)) as [Hlt|[->|Hgt]].
  - (* before the place *)
    destruct (lookup_lt_is_Some_2 F (S i)) as [c Hc]; [apply lookup_lt_Some in Ht; lia|].
    rewrite (drop_S _ _ _ Hc). cbn [nxt]. pose proof (asc_lookup F i (S i) (q, m) c Ha Hi Hc ltac:(lia)) as Hqc. cbn [fst snd] in Hqc.
    assert (c.1 < bp) as Hcb.
    { destruct (decide (S i = length F1)) as [E|]; [rewrite E in Hc; congruence|].
      pose proof (asc_lookup F (S i) (length F1) c p Ha Hc Ht ltac:(lia)). pose proof (Hb c (list_elem_of_lookup_2 _ _ _ Hc)). lia. }
    destruct (Z.ltb_spec bp c.1); [lia|]. destruct (Z.leb_spec c.1 q); [lia|]. rewrite andb_false_r. cbn [andb]. wsteps.
    eexists. split; [|split; [done|exists (S i), c.2; split; [by destruct c|done]]]. unfold dist.
    destruct (Nat.leb_spec i (length F1)), (Nat.leb_spec (S i) (length F1)); lia.
  - (* the place *)
    assert ((q, m) = p) as <- by congruence. rewrite HF, (drop_app_ge F1) by lia. replace (S (length F1) - length F1)%nat with 1%nat by lia. cbn [drop fst] in *. change (drop 0 F2) with F2.
    destruct (Z.ltb_spec q bp); [|lia]. destruct F2 as [|c F2]; cbn [nxt andb].
    + destruct (Z.ltb_spec bp base); [lia|]. destruct (Z.leb_spec base q); [|lia]. cbn [andb orb]. by wsteps.
    + specialize (HF2 c ltac:(apply elem_of_cons; by left)). destruct (Z.ltb_spec bp c.1); [|lia]. by wsteps.
  - (* after it *)
    assert (bp < q) as Hbq.
    { change q with (q, m).1. apply HF2. rewrite HF, lookup_app_r, lookup_cons_ne_0 in Hi by lia. by eapply list_elem_of_lookup_2. }
    destruct (Z.ltb_spec q bp); [lia|]. cbn [andb orb]. destruct (F !! S i) as [c|] eqn:Hc.
    + rewrite (drop_S _ _ _ Hc). cbn [nxt]. pose proof (asc_lookup F i (S i) (q, m) c Ha Hi Hc ltac:(lia)) as Hqc. cbn [fst snd] in Hqc.
      destruct (Z.leb_spec c.1 q); [lia|]. cbn [andb]. wsteps.
      eexists. split; [|split; [done|exists (S i), c.2; split; [by destruct c|done]]]. unfold dist. apply lookup_lt_Some in Hc.
      destruct (Nat.leb_spec i (length F1)), (Nat.leb_spec (S i) (length F1)); lia.
    + apply lookup_ge_None in Hc. rewrite drop_ge by lia. cbn [nxt]. destruct (Z.ltb_spec bp base); [lia|]. rewrite andb_false_r. wsteps.
      destruct F as [|c F']; [by apply app_cons_not_nil in HF|]. cbn [nxt] in Hhd.
      eexists. split; [|split; [done|exists 0%nat, c.2; split; [cbn; rewrite <- Hhd; by destruct c|done]]].
      unfold dist. cbn [Nat.leb]. apply lookup_lt_Some in Hi, Ht. cbn [length] in *. destruct (Nat.leb_spec i (length F1)); lia.
Qed.

Lemma hdr_at h p v : mem_ h !! p = Some v -> hdr h p = v.
Proof. unfold hdr. by intros ->. Qed.

Lemma wp_join h a l x X (Q : unit -> heap -> Prop) :
  mem_ h !! a.1 = Some (x, a.2) -> ring base (mem_ h) l -> (forall c, c ∈ l -> c.1 <> a.1 /\ 0 <= c.2 /\ c.1 + 8 * c.2 < 2 ^ 32) ->
  0 <= a.1 -> 0 <= a.2 -> a.1 + 8 * a.2 < 2 ^ 32 -> (l = [] -> base < a.1) ->
  (forall n l' , merge a l = (a.1, n) :: l' -> Q tt (h <| mem_ := <[a.1 := (nxt base l', n)]> (mem_ h) |>)) ->
  wp (join a.1 a.2 (nxt base l)) X Q h.
Proof using All.
  intros Ha Hr Hl Ha1 Ha2 Ha3 Hnil HQ. unfold join, plus. rewrite u32_small by lia.
  assert ((a.1 + 8 * a.2 =? nxt base l) = joined a l) as ->.
  { destruct l as [|c l]; [|done]. cbn. specialize (Hnil eq_refl). apply Z.eqb_neq. lia. }
  unfold merge in HQ. destruct (joined a l) eqn:Hj.
  - destruct l as [|c l]; [done|]. cbn in Hj. apply Z.eqb_eq in Hj. destruct (Hl c ltac:(apply elem_of_cons; by left)) as (Hne & Hc1 & Hc2).
    destruct Hr as [Hc Hr]. unfold rd_size, rd_ptr, set_size, set_ptr. wsteps. cbn [nxt].
    assert (hdr h c.1 = (nxt base l, c.2)) as Hhc by (by apply hdr_at). assert (hdr h a.1 = (x, a.2)) as Hha by (by apply hdr_at).
    rewrite Hhc, Hha. cbn [fst snd]. set (h1 := h <| mem_ ::= _ |>).
    assert (hdr h1 c.1 = (nxt base l, c.2)) as ->.
    { apply hdr_at. unfold h1. cbn. by rewrite lookup_insert_ne. }
    assert (hdr h1 a.1 = (x, u32 (a.2 + c.2))) as -> by (apply hdr_at; apply lookup_insert_eq). cbn [fst snd].
    specialize (HQ (a.2 + c.2) l eq_refl). rewrite u32_small by lia.
    assert (h1 <| mem_ ::= <[a.1 := (nxt base l, a.2 + c.2)]> |> = h <| mem_ := <[a.1 := (nxt base l, a.2 + c.2)]> (mem_ h) |>) as ->; [|done].
    unfold h1, setter. cbn. by rewrite insert_insert_eq.
  - unfold set_ptr. wsteps. assert (hdr h a.1 = (x, a.2)) as -> by (by apply hdr_at). cbn [snd]. apply (HQ a.2 l). by destruct a.
Qed.

Lemma ring_merge m a l n l' : ring base m l -> (forall c, c ∈ l -> c.1 <> a.1) -> merge a l = (a.1, n) :: l' ->
  ring base (<[a.1 := (nxt base l', n)]> m) (merge a l).
Proof using.
  intros Hr Hl Hm. rewrite Hm. split; [apply lookup_insert_eq|]. apply ring_other.
  - unfold merge in Hm. destruct (joined a l); [|by injection Hm as _ ->]. destruct l as [|c l]; [by injection Hm as _ <-|].
    injection Hm as _ <-. by destruct Hr.
  - intros c Hc. apply Hl. unfold merge in Hm. destruct (joined a l); [|by injection Hm as _ ->].
    destruct l as [|d l]; [by injection Hm as _ <-|]. injection Hm as _ <-. apply elem_of_cons. by right.
Qed.

Lemma live_apart h L b A : inv h L (b :: A) -> forall c, c ∈ L -> c.1 + 8 * c.2 <= b.1 \/ b.1 + 8 * b.2 <= c.1.
Proof using.
  intros Hi c Hc. destruct (in_free _ _ _ Hi c Hc) as (Hc1 & _). assert (b ∈ b :: A) as Hb by (apply elem_of_cons; by left).
  destruct (in_live _ _ _ Hi b Hb) as (Hb1 & _). destruct (Z.le_gt_cases (c.1 + 8 * c.2) b.1) as [|Hx]; [by left|].
  destruct (Z.le_gt_cases (b.1 + 8 * b.2) c.1) as [|Hy]; [by right|]. exfalso.
  apply (in_apart _ _ _ Hi (Z.max b.1 c.1)); [exists c|exists b]; (split; [done|]); unfold within; lia.
Qed.

Lemma ring_size m l : ring base m l -> asc l -> (forall b, b ∈ l -> 0 <= b.2) -> (length l <= size m)%nat.
Proof using.
  revert m. induction l as [|b l IH]; cbn [length]; intros m Hr Ha Hn; [lia|]. destruct Hr as [Hb Hr], Ha as [Hbl Ha].
  assert (length l <= size (delete b.1 m))%nat as Hl.
  { apply IH; [|done|intros c Hc; apply Hn, elem_of_cons; by right]. assert (forall c, c ∈ l -> c.1 <> b.1) as Hne.
    { intros c Hc. pose proof (proj1 (Forall_forall _ _) Hbl c Hc) as Hlt. cbn in Hlt. specialize (Hn b ltac:(apply elem_of_cons; by left)). lia. }
    clear -Hr Hne. induction l as [|c l IH]; [done|]. destruct Hr as [Hc Hr]. split.
    - rewrite lookup_delete_ne; [done|]. apply not_eq_sym, Hne, elem_of_cons. by left.
    - apply IH; [done|]. intros d Hd. apply Hne, elem_of_cons. by right. }
  rewrite map_size_delete_Some in Hl by (by eexists). assert (size m <> 0%nat); [|lia].
  intros ->%map_size_empty_inv. done.
Qed.

Lemma inv_size h L A : inv h L A -> (length ((base, 0%Z) :: L) <= size (mem_ h))%nat.
Proof using.
  intros Hi. apply ring_size; [by eapply in_ring|by eapply in_asc|]. intros b [->|Hb]%elem_of_cons; [done|].
  destruct (in_free _ _ _ Hi b Hb). lia.
Qed.

(** The links of a block in its place. *)
Lemma wp_relink h F F1 p F2 bp n x X (Q : unit -> heap -> Prop) :
  ring base (mem_ h) F -> F = F1 ++ p :: F2 -> asc F -> (forall c, c ∈ F -> base <= c.1 /\ 0 <= c.2 /\ c.1 + 8 * c.2 < 2 ^ 32) ->
  mem_ h !! bp = Some (x, n) -> p.1 < bp -> (forall c, c ∈ F2 -> bp + 8 * n <= c.1) -> base < bp -> 1 <= n -> bp + 8 * n < 2 ^ 32 ->
  (forall c, c ∈ F2 -> 1 <= c.2) ->
  (forall m', ring base m' (F1 ++ merge p (merge (bp, n) F2)) -> (forall a, a <> bp -> a <> p.1 -> m' !! a = mem_ h !! a) ->
     Q tt (h <| mem_ := m' |> <| freep := p.1 |>)) ->
  wp (pptr <~ rd_ptr p.1; bsize <~ rd_size bp; join bp bsize pptr ;;; psize <~ rd_size p.1; join p.1 psize bp ;;; set_freep p.1) X Q h.
Proof using All.
  intros Hr HF Ha Hc Hbm Hp HF2 Hbb Hn Hbe HF2s HQ. rewrite HF in Hr, Ha. pose proof (ring_at _ _ _ _ _ Hr) as Hpm. pose proof (circle_app _ _ _ _ Hr) as [_ Hr2].
  assert (forall c, c ∈ F2 -> c.1 <> bp /\ 0 <= c.2 /\ c.1 + 8 * c.2 < 2 ^ 32) as Hl2.
  { intros c Hc2. destruct (Hc c) as (? & ? & ?); [rewrite HF; apply elem_of_app; right; apply elem_of_cons; by right|]. specialize (HF2 c Hc2). lia. }
  destruct (Hc p) as (Hpb & Hp2 & Hpe); [rewrite HF; apply elem_of_app; right; apply elem_of_cons; by left|].
  unfold rd_ptr, rd_size. wsteps. rewrite (hdr_at _ _ _ Hpm), (hdr_at _ _ _ Hbm). cbn [fst snd].
  change bp with (bp, n).1. change n with (bp, n).2 at 1. eapply wp_join; [exact Hbm|exact Hr2|exact Hl2|cbn; lia|cbn; lia|done|cbn; lia|].
  intros n' l' Hm. cbn [fst snd] in *. set (h1 := h <| mem_ := _ |>).
  assert (ring base (mem_ h1) (merge (bp, n) F2)) as Hr1 by exact (ring_merge (mem_ h) (bp, n) F2 n' l' Hr2 (fun c Hc2 => proj1 (Hl2 c Hc2)) Hm).
  assert (mem_ h1 !! p.1 = Some (nxt base F2, p.2)) as Hpm1 by (unfold h1; cbn; rewrite lookup_insert_ne by lia; done).
  wsteps. rewrite (hdr_at _ _ _ Hpm1). cbn [snd]. replace bp with (nxt base (merge (bp, n) F2)) by (by rewrite Hm).
  assert (forall c, c ∈ merge (bp, n) F2 -> c.1 <> p.1 /\ 0 <= c.2 /\ c.1 + 8 * c.2 < 2 ^ 32) as Hlm.
  { intros c Hcm. split; [apply merge_head in Hcm as [->|Hcm]; [cbn; lia|specialize (HF2 c Hcm); lia]|].
    destruct (merge_blocks (fun _ => True) (2 ^ 32 - 1) (bp, n) F2 Hn) with (c := c) as (? & ? & _); [cbn; lia|done| |done|lia].
    intros d Hd. destruct (Hl2 d Hd) as (_ & _ & ?). split; [by apply HF2s|]. split; [lia|done]. }
  eapply wp_join; [exact Hpm1|exact Hr1|exact Hlm|lia|done|done|by rewrite Hm|].
  intros n2 l2 Hm2. unfold set_freep. wsteps. apply (HQ (<[p.1 := (nxt base l2, n2)]> (mem_ h1))).
  - eapply ring_tail; [exact Hr|by rewrite Hm2| |].
    + intros c Hcf. apply asc_app in Ha as (_ & _ & H3). specialize (H3 c p Hcf ltac:(apply elem_of_cons; by left)).
      destruct (Hc c) as (_ & ? & _); [rewrite HF; apply elem_of_app; by left|].
      rewrite lookup_insert_ne by lia. unfold h1. cbn. by rewrite lookup_insert_ne by lia.
    + apply ring_merge; [done| |done]. intros c Hcm. by apply Hlm.
  - intros a Ha1 Ha2. rewrite lookup_insert_ne by done. unfold h1. cbn. by rewrite lookup_insert_ne.
Qed.

(** A block in its place among the free ones. *)
Lemma inv_freed h L bp n A F1 p F2 m' :
  inv h L ((bp, n) :: A) -> (base, 0) :: L = F1 ++ p :: F2 -> p.1 < bp -> p.1 + 8 * p.2 <= bp ->
  (forall c, c ∈ F2 -> c ∈ L) -> (forall c, c ∈ F2 -> bp + 8 * n <= c.1) ->
  ring base m' (F1 ++ merge p (merge (bp, n) F2)) -> (forall a, a <> bp -> a <> p.1 -> m' !! a = mem_ h !! a) ->
  exists L', inv (h <| mem_ := m' |> <| freep := p.1 |>) L' A /\ room p.1 L' n /\ (length L' <= length L + 1)%nat.
Proof using All.
  intros Hi HF Hp Hpe HF2L HF2e Hr' Hm'.
  pose proof (live_apart _ _ _ _ Hi) as Hap. cbn [fst snd] in Hap.
  pose proof Hi as [Hr Ha Hfree Hlive Hapart Hpair (fn & Hfp) (Hbb & Hbl & Hlim & Hal)].
  destruct (Hlive (bp, n)) as (Hn & Hbbp & Hbe & Hbal & x & Hbm); [apply elem_of_cons; by left|]. cbn [fst snd] in *.
  assert (p ∈ (base, 0) :: L) as HpF by (rewrite HF; apply elem_of_app; right; apply elem_of_cons; by left).
  assert (forall c, c ∈ L -> 1 <= c.2) as HLp by (intros c Hc; by apply Hfree).
  destruct (ins_list L F1 F2 base p (bp, n)) as (L' & q & l2 & HL' & Hq & Hqp & Hroom); [done..|].
  pose proof (ins_asc L F1 F2 base p (bp, n) HF Ha HLp Hn Hbbp Hpe Hp HF2e) as Hasc'. rewrite HL' in Hasc', Hr'.
  exists L'. split; [|split; [by exists F1, q, l2|]].
  2: { apply (f_equal length) in HL', HF. rewrite length_app in HL', HF. pose proof (merge_length p (merge (bp, n) F2)).
       pose proof (merge_length (bp, n) F2). cbn in *. lia. }
  split; cbn [mem_ freep brk limit setter].
  - exact Hr'.
  - exact Hasc'.
  - intros c Hc. destruct (ins_blocks L F1 F2 base p (bp, n) HF Ha HLp Hn Hbbp Hpe Hp HF2e (fun a => a mod 8 = 0) (brk h)) with (c := c) as [->|?];
      [done|done|intros d Hd; destruct (Hfree d Hd) as (_ & ? & ?); done|rewrite HL'; apply elem_of_cons; by right| |done].
    exfalso. destruct Hasc' as [Hasc' _]. pose proof (proj1 (Forall_forall _ _) Hasc' _ Hc) as Hlt. cbn in Hlt. lia.
  - intros b Hb. destruct (Hlive b) as (H1 & H2 & H3 & H4 & y & H5); [apply elem_of_cons; by right|]. do 4 (split; [done|]). exists y.
    rewrite Hm'; [done| |].
    + intros Heq. destruct Hpair as [Hpair _]. apply (Hpair bp); [unfold within; cbn; lia|]. exists b. split; [done|]. unfold within. lia.
    + intros Heq. apply elem_of_cons in HpF as [->|HpL]; [cbn in Heq; lia|]. destruct (Hfree p HpL).
      apply (Hapart p.1); [exists p; split; [done|unfold within; lia]|]. exists b. split; [apply elem_of_cons; by right|unfold within; lia].
  - intros y Hy HyA. assert (covers ((base, 0) :: L') y) as Hy' by (apply covers_cons; by right). rewrite <- HL' in Hy'.
    apply (ins_covers L F1 F2 base p (bp, n) HF Ha HLp Hn Hbbp Hpe Hp HF2e) in Hy' as [Hy'|Hy'].
    + apply (Hapart y Hy'), covers_cons. by right.
    + by apply (proj1 Hpair y Hy').
  - apply Hpair.
  - destruct (merge_spec p (merge (bp, n) F2)) as (n2 & l4 & Hm2 & _).
    { intros c Hc. pose proof (merge_pos (bp, n) F2 Hn (fun d Hd => HLp d (HF2L d Hd)) c Hc). lia. }
    exists n2. rewrite <- HL', Hm2. apply elem_of_app. right. apply elem_of_cons. by left.
  - done.
Qed.

Lemma wp_free h L bp n A X (Q : unit -> heap -> Prop) :
  inv h L ((bp, n) :: A) ->
  (forall h' L', inv h' L' A -> room (freep h') L' n -> brk h' = brk h -> limit h' = limit h -> (length L' <= length L + 1)%nat -> Q tt h') ->
  wp (free (bp + 8)) X Q h.
Proof using All.
  intros Hi HQ. pose proof (live_apart _ _ _ _ Hi) as Hap. cbn [fst snd] in Hap. pose proof (inv_size _ _ _ Hi) as Hsz.
  pose proof Hi as [Hr Ha Hfree Hlive Hapart Hpair (fn & Hfp) (Hbb & Hbl & Hlim & Hal)].
  destruct (Hlive (bp, n)) as (Hn & Hbbp & Hbe & Hbal & x & Hbm); [apply elem_of_cons; by left|]. cbn [fst snd] in *.
  unfold free. rewrite u32_small by lia. replace (bp + 8 - 8) with bp by lia. cbn zeta. wsteps.
  destruct (place L (base, 0) bp) as (F1 & p & F2 & HF & Hp & HF2); [done|done| | |].
  { intros b Hb Heq. destruct (Hfree b Hb) as (? & _). destruct (Hap b Hb); lia. }
  { intros b [->|Hb]%elem_of_cons; [done|]. destruct (Hfree b Hb). lia. }
  assert (forall b, b ∈ (base, 0) :: L -> base <= b.1 /\ 0 <= b.2) as Hge.
  { intros b [->|Hb]%elem_of_cons; [done|]. destruct Ha as [Ha _]. pose proof (proj1 (Forall_forall _ _) Ha b Hb) as Hlt. cbn in Hlt.
    destruct (Hfree b Hb). lia. }
  eapply wp_search; [exact Hr|exact Ha|done|exact HF|exact Hp|exact HF2|exact Hfp|lia|done|lia|].
  assert (p ∈ (base, 0) :: L) as HpF by (rewrite HF; apply elem_of_app; right; apply elem_of_cons; by left).
  assert (p.1 + 8 * p.2 <= bp) as Hpe.
  { apply elem_of_cons in HpF as [->|HpL]; [cbn; lia|]. destruct (Hap p HpL); [done|]. lia. }
  assert (forall c, c ∈ F2 -> c ∈ L) as HF2L.
  { intros c Hc. destruct F1 as [|f F1]; injection HF as _ ->; [done|]. apply elem_of_app. right. apply elem_of_cons. by right. }
  assert (forall c, c ∈ F2 -> bp + 8 * n <= c.1) as HF2e.
  { intros c Hc. destruct (Hap c (HF2L c Hc)); [|done]. specialize (HF2 c Hc). destruct (Hfree c (HF2L c Hc)). lia. }
  eapply (wp_relink _ ((base, 0) :: L)); [exact Hr|exact HF|exact Ha| |exact Hbm|exact Hp|exact HF2e|lia|lia|lia|by intros c Hc; apply Hfree, HF2L|].
  { intros c Hc. split; [by apply Hge|]. split; [by apply Hge|]. apply elem_of_cons in Hc as [->|Hc]; [cbn; lia|]. destruct (Hfree c Hc). lia. }
  intros m' Hr' Hm'. destruct (inv_freed h L bp n A F1 p F2 m') as (L' & Hi' & Hc & Hlen); [done..|]. by apply (HQ _ L').
Qed.

(** ** Taking memory from the kernel *)

Lemma inv_grown h L A n :
  inv h L A -> 1 <= n -> brk h + 8 * n <= limit h ->
  inv (h <| brk := brk h + 8 * n |> <| mem_ ::= <[brk h := ((hdr h (brk h)).1, n)]> |>) L ((brk h, n) :: A).
Proof using All.
  intros [Hr Ha Hfree Hlive Hapart Hpair Hfp (Hbb & Hbl & Hlim & Hal)] Hn Hroom. split; cbn [mem_ freep brk limit setter].
  - apply ring_other; [done|]. intros b [->|Hb]%elem_of_cons; [cbn; lia|]. destruct (Hfree b Hb). lia.
  - done.
  - intros b Hb. destruct (Hfree b Hb) as (? & ? & ?). split; [done|]. split; [lia|done].
  - intros b [->|Hb]%elem_of_cons; cbn [fst snd].
    + split; [done|]. split; [done|]. split; [lia|]. split; [done|]. eexists. apply lookup_insert_eq.
    + destruct (Hlive b Hb) as (? & ? & ? & ? & x & ?). split; [done|]. split; [done|]. split; [lia|]. split; [done|].
      exists x. by rewrite lookup_insert_ne by lia.
  - intros x Hx [Hxb|HxA]%covers_cons; [|by apply (Hapart x)]. destruct Hx as (b & Hb & Hx). destruct (Hfree b Hb). unfold within in *. cbn in Hxb. lia.
  - split; [|done]. intros x Hx (b & Hb & Hxb). destruct (Hlive b Hb) as (? & ? & ? & _). unfold within in *. cbn in Hx. lia.
  - done.
  - split; [lia|]. split; [done|]. split; [done|]. rewrite Z.add_mod, Hal by lia. rewrite (Z.mul_comm 8), Z_mod_mult. done.
Qed.

Lemma wp_morecore h L A nu X (Q : Z -> heap -> Prop) :
  inv h L A -> 1 <= nu < 2 ^ 28 ->
  (limit h < brk h + 8 * Z.max 4096 nu -> Q 0 h) ->
  (forall h' L', inv h' L' A -> room (freep h') L' nu -> (length L' <= length L + 1)%nat -> limit h' = limit h -> Q (freep h') h') ->
  wp (morecore nu) X Q h.
Proof using All.
  intros Hi Hnu Hfail HQ. pose proof (in_brk _ _ _ Hi) as (Hbb & Hbl & Hlim & Hal). unfold morecore.
  set (n := if nu <? 4096 then 4096 else nu). assert (n = Z.max 4096 nu) as Hnm by (unfold n; destruct (Z.ltb_spec nu 4096); lia).
  assert (nu <= n /\ 1 <= n < 2 ^ 28) as [Hn1 Hn2] by lia.
  rewrite i32_small by lia. unfold sbrk. wsteps. destruct (Z.leb_spec 0 (brk h + n * 8)); [|lia]. cbn [andb].
  destruct (Z.leb_spec (brk h + n * 8) (limit h)) as [Hle|Hgt]; [|wsteps; apply Hfail; lia].
  wsteps. destruct (Z.eqb_spec (brk h) (-1)); [lia|]. unfold set_size. wsteps. rewrite u32_small by lia.
  pose proof (inv_grown h L A n Hi ltac:(lia) ltac:(lia)) as Hi1. replace (8 * n) with (n * 8) in Hi1 by lia.
  eapply wp_free; [exact Hi1|]. intros h' L' Hi' Hroom Hb' Hl' Hlen. wsteps. apply (HQ h' L'); [done| |done|done].
  destruct Hroom as (F1 & q & l2 & Heq & Hq & Hs). exists F1, q, l2. split; [done|]. split; [done|].
  destruct Hs as [?|(c & l3 & -> & ?)]; [left; lia|right; exists c, l3; split; [done|lia]].
Qed.

(** ** Taking a block *)

(** The head of the circle is never taken. *)
Lemma split_tail L F1 pv G : (base, 0) :: L = F1 ++ pv :: G -> exists F1', L = F1' ++ G /\ forall G', exists L', F1 ++ pv :: G' = (base, 0) :: L' /\ L' = F1' ++ G'.
Proof using.
  destruct F1 as [|f F1]; intros [= Hh Ht]; subst.
  - exists []. split; [done|]. intros G'. by exists G'.
  - exists (F1 ++ [pv]). split; [by rewrite <- app_assoc|]. intros G'. exists (F1 ++ pv :: G'). split; [done|by rewrite <- app_assoc].
Qed.

(** The new block [t] was part of the free ones, and the rest of them is left. *)
Lemma inv_taken h L A F1 pv b F2 b' t m' :
  inv h L A -> (base, 0) :: L = F1 ++ pv :: b :: F2 ->
  (* [b'] is nothing or the beginning of [b] *)
  Forall (fun c => c.1 = b.1 /\ 1 <= c.2 /\ c.1 + 8 * c.2 <= t.1) b' -> (length b' <= 1)%nat ->
  1 <= t.2 -> b.1 <= t.1 -> t.1 + 8 * t.2 = b.1 + 8 * b.2 -> t.1 mod 8 = 0 ->
  ring base m' (F1 ++ pv :: b' ++ F2) -> (exists x, m' !! t.1 = Some (x, t.2)) ->
  (forall a, a <> t.1 -> a ∉ (F1 ++ pv :: b :: F2).*1 -> m' !! a = mem_ h !! a) ->
  exists L', inv (h <| mem_ := m' |> <| freep := pv.1 |>) L' (t :: A).
Proof using All.
  intros [Hr Ha Hfree Hlive Hapart Hpair Hfp Hbrk] HF Hb' Hlen Ht1 Ht2 Ht3 Ht4 Hr' (x & Hx) Hm'.
  destruct (split_tail _ _ _ _ HF) as (F1' & HL & Hsplit). destruct (Hsplit (b' ++ F2)) as (L' & HL' & HL'').
  rewrite HL' in Hr'. exists L'. assert (b ∈ L) as HbL by (rewrite HL; apply elem_of_app; right; apply elem_of_cons; by left).
  destruct (Hfree b HbL) as (Hb1 & Hb2 & Hb3). assert (base < b.1) as Hbb.
  { destruct Ha as [Ha _]. pose proof (proj1 (Forall_forall _ _) Ha b HbL) as Hlt. cbn in Hlt. lia. }
  assert (forall c, c ∈ b' -> c.1 = b.1 /\ 1 <= c.2 /\ c.1 + 8 * c.2 <= t.1) as Hb'' by (intros c Hc; by apply (proj1 (Forall_forall _ _) Hb')).
  destruct Ha as [Hab Ha]. rewrite HL in Ha. apply asc_app in Ha as (Ha1 & [Hab2 Ha2] & Ha3).
  assert (forall c, c ∈ F1' -> c.1 + 8 * c.2 < b.1) as HF1 by (intros c Hc; apply Ha3; [done|apply elem_of_cons; by left]).
  assert (forall c, c ∈ F2 -> b.1 + 8 * b.2 < c.1) as HF2 by (intros c Hc; by apply (proj1 (Forall_forall _ _) Hab2)).
  assert (forall c, c ∈ L' -> (c ∈ L /\ (c.1 + 8 * c.2 < b.1 \/ b.1 + 8 * b.2 < c.1)) \/ c ∈ b') as Hsub.
  { intros c Hc. rewrite HL'' in Hc. rewrite HL. apply elem_of_app in Hc as [Hc|[Hc|Hc]%elem_of_app].
    - left. split; [apply elem_of_app; by left|left; by apply HF1].
    - by right.
    - left. split; [apply elem_of_app; right; apply elem_of_cons; by right|right; by apply HF2]. }
  assert (forall y, covers L' y -> covers L y /\ ~ within y t) as Hcov.
  { intros y (c & [[Hc Hcb]|Hc]%Hsub & Hy); unfold within in *.
    - split; [by exists c|lia].
    - destruct (Hb'' c Hc) as (? & ? & ?). split; [exists b; split; [done|unfold within; lia]|lia]. }
  assert (forall c, c ∈ A -> c.1 <> t.1 /\ c.1 ∉ (F1 ++ pv :: b :: F2).*1) as Hfar.
  { intros c Hc. destruct (Hlive c Hc) as (? & ? & _). split.
    - intros Heq. apply (Hapart t.1); [exists b|exists c]; (split; [done|]); unfold within; lia.
    - rewrite <- HF. intros (f & Hf & [->|HfL]%elem_of_cons)%list_elem_of_fmap; [cbn in Hf; lia|]. destruct (Hfree f HfL) as (? & _).
      apply (Hapart f.1); [exists f|exists c]; (split; [done|]); unfold within; lia. }
  assert (asc ((base, 0) :: L')) as Hasc'.
  { split.
    - apply Forall_forall. intros c [[Hc _]|Hc]%Hsub; [by apply (proj1 (Forall_forall _ _) Hab)|]. destruct (Hb'' c Hc) as (-> & _). cbn. lia.
    - rewrite HL''. apply asc_app. split; [done|]. split.
      + apply asc_app. split; [destruct b' as [|? [|]]; [done|done|cbn in Hlen; lia]|]. split; [done|]. intros c d Hc Hd.
        destruct (Hb'' c Hc) as (? & ? & ?). specialize (HF2 d Hd). lia.
      + intros c d Hc Hd. specialize (HF1 c Hc). apply elem_of_app in Hd as [Hd|Hd]; [destruct (Hb'' d Hd); lia|specialize (HF2 d Hd); lia]. }
  split; cbn [mem_ freep brk limit setter].
  - exact Hr'.
  - exact Hasc'.
  - intros c [[Hc _]|Hc]%Hsub; [by apply Hfree|]. destruct (Hb'' c Hc) as (-> & ? & ?). split; [done|]. split; [lia|done].
  - intros c [->|Hc]%elem_of_cons; [split; [done|]; split; [lia|]; split; [lia|]; split; [done|]; by exists x|].
    destruct (Hlive c Hc) as (? & ? & ? & ? & y & Hy). do 4 (split; [done|]). exists y. rewrite Hm'; [done|by apply Hfar|by apply Hfar].
  - intros y [Hy Hyt]%Hcov [?|HyA]%covers_cons; [done|]. by apply (Hapart y).
  - split; [|done]. intros y Hy HyA. apply (Hapart y); [|done]. exists b. split; [done|]. unfold within in *. lia.
  - exists pv.2. rewrite <- HL'. apply elem_of_app. right. apply elem_of_cons. left. by destruct pv.
  - done.
Qed.

Lemma wp_take h L A F1 pv b F2 n X (Q : Z * Z + Z -> heap -> Prop) :
  inv h L A -> (base, 0) :: L = F1 ++ pv :: b :: F2 -> 1 <= n <= b.2 ->
  (forall t h' L', t.2 = n -> inv h' L' (t :: A) -> limit h' = limit h -> Q (inr (t.1 + 8)) h') ->
  wp (p <~ (if b.2 =? n then ptr <~ rd_ptr b.1; set_ptr pv.1 ptr ;;; ret b.1
            else set_size b.1 (b.2 - n) ;;; let p := plus b.1 (b.2 - n) in set_size p n ;;; ret p);
      set_freep pv.1 ;;; ret (inr (u32 (p + 8)))) X Q h.
Proof using All.
  intros Hi HF Hn HQ. pose proof Hi as [Hr Ha Hfree Hlive Hapart Hpair Hfp (Hbb & Hbl & Hlim & Hal)].
  assert (b ∈ L) as HbL.
  { destruct (split_tail _ _ _ _ HF) as (F1' & -> & _). apply elem_of_app. right. apply elem_of_cons. by left. }
  destruct (Hfree b HbL) as (Hb1 & Hb2 & Hb3). assert (base < b.1) as Hb4.
  { destruct Ha as [Ha _]. pose proof (proj1 (Forall_forall _ _) Ha b HbL) as Hlt. cbn in Hlt. lia. }
  assert (forall c, c ∈ (base, 0) :: L -> 0 <= c.2) as Hpos.
  { intros c [->|Hc]%elem_of_cons; [done|]. destruct (Hfree c Hc). lia. }
  rewrite HF in Hr, Ha, Hpos. apply asc_app in Ha as (_ & [Ha1 [Ha2 _]] & Ha3).
  assert (forall c, c ∈ F1 -> c.1 < pv.1) as HF1.
  { intros c Hc. specialize (Ha3 c pv Hc ltac:(apply elem_of_cons; by left)). specialize (Hpos c ltac:(apply elem_of_app; by left)). lia. }
  assert (pv.1 < b.1) as Hpv.
  { pose proof (proj1 (Forall_forall _ _) Ha1 b ltac:(apply elem_of_cons; by left)) as Hlt. cbn in Hlt.
    specialize (Hpos pv ltac:(apply elem_of_app; right; apply elem_of_cons; by left)). lia. }
  assert (forall c, c ∈ F2 -> b.1 + 8 * b.2 < c.1) as HF2 by (intros c Hc; by apply (proj1 (Forall_forall _ _) Ha2)).
  pose proof (circle_app _ _ _ _ Hr) as (Hmp & Hmb & Hr2). cbn [nxt] in Hmp.
  destruct (Z.eqb_spec b.2 n) as [Heq|Hne].
  - unfold rd_ptr, set_ptr, set_freep. wsteps. rewrite (hdr_at _ _ _ Hmb), (hdr_at _ _ _ Hmp), u32_small by lia. cbn [fst snd].
    destruct (inv_taken h L A F1 pv b F2 [] b (<[pv.1 := (nxt base F2, pv.2)]> (mem_ h))) as (L' & Hi'); try done; try (cbn; lia).
    + eapply ring_tail; [exact Hr|done| |].
      * intros c Hc. specialize (HF1 c Hc). by rewrite lookup_insert_ne by lia.
      * split; [apply lookup_insert_eq|]. apply ring_other; [done|]. intros c Hc. specialize (HF2 c Hc). lia.
    + exists (nxt base F2). by rewrite lookup_insert_ne by lia.
    + intros a _ Hna. rewrite lookup_insert_ne; [done|]. intros <-. apply Hna, list_elem_of_fmap. exists pv. split; [done|].
      apply elem_of_app. right. apply elem_of_cons. by left.
    + by apply (HQ b _ L').
  - unfold plus. set (t := (b.1 + 8 * (b.2 - n), n)). rewrite (u32_small (b.1 + 8 * (b.2 - n))) by lia. change (b.1 + 8 * (b.2 - n)) with t.1.
    unfold set_size, set_freep. wsteps. rewrite (hdr_at _ _ _ Hmb). cbn [fst]. rewrite u32_small by (cbn; lia). set (h1 := h <| mem_ ::= _ |>).
    destruct (inv_taken h L A F1 pv b F2 [(b.1, b.2 - n)] t (<[t.1 := ((hdr h1 t.1).1, n)]> (<[b.1 := (nxt base F2, b.2 - n)]> (mem_ h)))) as (L' & Hi'); try done; try (cbn; lia).
    + apply Forall_singleton. cbn. lia.
    + unfold t. cbn [fst]. rewrite Z.add_mod, Hb3 by lia. rewrite (Z.mul_comm 8), Z_mod_mult. done.
    + eapply ring_other; [|intros c [Hc|[->|[->|Hc]%elem_of_cons]%elem_of_cons]%elem_of_app; cbn; [specialize (HF1 c Hc); lia|lia|lia|specialize (HF2 c Hc); lia]].
      change (F1 ++ pv :: [(b.1, b.2 - n)] ++ F2) with (F1 ++ [pv] ++ (b.1, b.2 - n) :: F2).
      rewrite (app_assoc F1 [pv]). eapply (ring_tail _ (mem_ h) _ _ (b :: F2)); [rewrite <- app_assoc; exact Hr|done| |].
      * intros c [Hc|Hc]%elem_of_app; [specialize (HF1 c Hc)|apply list_elem_of_singleton in Hc as ->]; by rewrite lookup_insert_ne by lia.
      * split; [apply lookup_insert_eq|]. apply ring_other; [done|]. intros c Hc. specialize (HF2 c Hc). cbn. lia.
    + eexists. apply lookup_insert_eq.
    + intros a Ha' Hna. rewrite lookup_insert_ne by done. rewrite lookup_insert_ne; [done|]. intros <-. apply Hna, list_elem_of_fmap. exists b. split; [done|].
      apply elem_of_app. right. apply elem_of_cons. right. apply elem_of_cons. by left.
    + by apply (HQ t _ L').
Qed.
(** ** The search of [malloc] *)

(** Positions of the circle. *)
Definition at_pos (L : list block) (i : nat) (p : Z) : Prop := exists n, ((base, 0) :: L) !! i = Some (p, n).

Lemma pos_next h L A i p : inv h L A -> at_pos L i p -> at_pos L (after (S (length L)) i) (hdr h p).1.
Proof using.
  intros Hi (n & Hp). pose proof (in_ring _ _ _ Hi) as Hr. rewrite <- (take_drop_middle _ _ _ Hp) in Hr. apply ring_at in Hr. cbn [fst snd] in Hr.
  rewrite (hdr_at _ _ _ Hr). cbn [fst]. unfold after, at_pos. apply lookup_lt_Some in Hp. cbn [length] in Hp. destruct (Nat.ltb_spec (S i) (S (length L))) as [Hlt|Hge].
  - destruct (lookup_lt_is_Some_2 ((base, 0) :: L) (S i)) as [c Hc]; [cbn [length]; lia|]. rewrite (drop_S _ _ _ Hc). exists c.2. by destruct c.
  - rewrite drop_ge by (cbn [length]; lia). by exists 0.
Qed.

Lemma pos_inj h L A i j p : inv h L A -> at_pos L i p -> at_pos L j p -> i = j.
Proof using.
  intros Hi (n & Hp) (m & Hq). destruct (Nat.lt_trichotomy i j) as [Hlt|[?|Hlt]]; [|done|]; exfalso.
  all: assert (forall k x y, ((base, 0) :: L) !! k = Some (x, y) -> 0 <= y) as Hpos
    by (intros k x y [[= -> ->]|Hk]%list_elem_of_lookup_2%elem_of_cons; [done|]; destruct (in_free _ _ _ Hi _ Hk); cbn in *; lia).
  - pose proof (asc_lookup _ _ _ _ _ (in_asc _ _ _ Hi) Hp Hq Hlt) as Hx. specialize (Hpos _ _ _ Hp). cbn in Hx. lia.
  - pose proof (asc_lookup _ _ _ _ _ (in_asc _ _ _ Hi) Hq Hp Hlt) as Hx. specialize (Hpos _ _ _ Hq). cbn in Hx. lia.
Qed.

Lemma room_next h L A n : inv h L A -> room (freep h) L n ->
  exists t, at_pos L t (freep h) /\ ((exists m, ((base, 0) :: L) !! t = Some (freep h, m) /\ n <= m) \/
    exists m, ((base, 0) :: L) !! after (S (length L)) t = Some ((hdr h (freep h)).1, m) /\ n <= m).
Proof using.
  intros Hi (F1 & q & l2 & HF & Hq & Hs). exists (length F1).
  assert (((base, 0) :: L) !! length F1 = Some (freep h, q.2)) as Ht by (rewrite HF, list_lookup_middle, <- Hq by done; by destruct q).
  split; [by exists q.2|]. destruct Hs as [?|(c & l3 & -> & ?)]; [left; by exists q.2|right].
  exists c.2. split; [|done]. pose proof (in_ring _ _ _ Hi) as Hr. rewrite HF in Hr. apply ring_at in Hr. rewrite <- Hq, (hdr_at _ _ _ Hr). cbn [nxt fst].
  assert (S (length L) = length (F1 ++ q :: c :: l3)) as Hlen by (by rewrite <- HF). rewrite length_app in Hlen. cbn [length] in Hlen. unfold after.
  destruct (Nat.ltb_spec (S (length F1)) (S (length L))); [|lia]. rewrite HF, lookup_app_r by lia.
  replace (S (length F1) - length F1)%nat with 1%nat by lia. by destruct c.
Qed.

(** A block that is large enough is not the head, and has one before it. *)
Lemma pos_fits L i p q m n : 1 <= n <= m -> at_pos L i p -> ((base, 0) :: L) !! after (S (length L)) i = Some (q, m) ->
  exists F1 F2 k, (base, 0) :: L = F1 ++ (p, k) :: (q, m) :: F2.
Proof using.
  intros Hn (k & Hi) Hj. unfold after in Hj. destruct (Nat.ltb_spec (S i) (S (length L))); [|injection Hj as _ <-; lia].
  exists (take i ((base, 0) :: L)), (drop (S (S i)) ((base, 0) :: L)), k.
  by rewrite <- (drop_S _ _ _ Hj), (take_drop_middle _ _ _ Hi).
Qed.

Lemma pos_size h L A i p m : inv h L A -> ((base, 0) :: L) !! i = Some (p, m) -> (hdr h p).2 = m.
Proof using.
  intros Hi Hp. pose proof (in_ring _ _ _ Hi) as Hr. rewrite <- (take_drop_middle _ _ _ Hp) in Hr. apply ring_at, hdr_at in Hr. cbn in Hr. by rewrite Hr.
Qed.

Lemma freep_pos h L A : inv h L A -> 0 < freep h.
Proof using All.
  intros Hi. destruct (in_freep _ _ _ Hi) as (k & Hk). apply elem_of_cons in Hk as [[= Hk _]|Hk]; [lia|].
  destruct (in_asc _ _ _ Hi) as [Ha _]. pose proof (proj1 (Forall_forall _ _) Ha _ Hk) as Hx. cbn in Hx. lia.
Qed.

(** Where the search is: before more memory was asked for, or on its way to a
    block that is large enough. *)
Definition searching (h : heap) (L A : list block) (n : Z) (v : nat) (x : Z * Z) (h' : heap) : Prop :=
  exists L' i t, let j := after (S (length L')) i in
    inv h' L' A /\ limit h' = limit h /\ at_pos L' i x.1 /\ at_pos L' j x.2 /\ at_pos L' t (freep h') /\
    ((h' = h /\ L' = L /\ v = (dist (S (length L)) j t + length L + 3)%nat) \/
     (exists m, ((base, 0) :: L') !! t = Some (freep h', m) /\ n <= m /\ v = dist (S (length L')) j t) \/
     (exists m, ((base, 0) :: L') !! j = Some (x.2, m) /\ n <= m /\ v = 0%nat)).

Lemma searching_grown h L A n h' L' : inv h' L' A -> limit h' = limit h -> room (freep h') L' n ->
  exists v, (v <= length L')%nat /\ searching h L A n v (freep h', (hdr h' (freep h')).1) h'.
Proof using.
  intros Hi Hl Hr. destruct (room_next h' L' A n Hi Hr) as (t & Ht & Hs).
  pose proof (pos_next _ _ _ _ _ Hi Ht) as Hj. destruct Hs as [(m & Hm & Hn)|(m & Hm & Hn)].
  - exists (dist (S (length L')) (after (S (length L')) t) t). split.
    + apply lookup_lt_Some in Hm. destruct Hj as (? & Hj%lookup_lt_Some). cbn [length] in *. pose proof (dist_lt _ _ _ Hj Hm). lia.
    + exists L', t, t. do 5 (split; [done|]). right. left. by exists m.
  - exists 0%nat. split; [lia|]. exists L', t, t. do 5 (split; [done|]). right. right. by exists m.
Qed.

Lemma wp_malloc_step h L A n v x h' X : 1 <= n < 2 ^ 28 -> searching h L A n v x h' ->
  wp ((fun '(prevp, p) =>
    psize <~ rd_size p;
    if n <=? psize then
      p <~ (if psize =? n then ptr <~ rd_ptr p; set_ptr prevp ptr ;;; ret p
            else
              set_size p (psize - n) ;;;
              let p := plus p (psize - n) in
              set_size p n ;;;
              ret p);
      set_freep prevp ;;;
      ret (inr (u32 (p + 8)))
    else
      fp <~ gets freep;
      if p =? fp then
        p <~ morecore n;
        if p =? 0 then ret (inr 0)
        else n <~ rd_ptr p; ret (inl (p, n))
      else n <~ rd_ptr p; ret (inl (p, n))) x) X
    (fun r h'' => match r with
                  | inl x' => exists v', (v' < v)%nat /\ searching h L A n v' x' h''
                  | inr b => (b = 0 /\ h'' = h /\ limit h < brk h + 8 * Z.max 4096 n) \/
                             exists t L', b = t.1 + 8 /\ t.2 = n /\ inv h'' L' (t :: A) /\ limit h'' = limit h
                  end) h'.
Proof using All.
  intros Hn (L' & i & t & Hi & Hl & Hpi & Hpj & Hpt & Hv). destruct x as [prevp p]. cbn [fst snd] in *. set (j := after (S (length L')) i) in *.
  destruct Hpj as (m & Hj). unfold rd_size at 1. wsteps. rewrite (pos_size _ _ _ _ _ _ Hi Hj). destruct (Z.leb_spec n m) as [Hfit|Hsmall].
  - destruct (pos_fits L' i prevp p m n) as (F1 & F2 & k & HF); [lia|done|done|].
    eapply (wp_take h' L' A F1 (prevp, k) (p, m) F2); [exact Hi|exact HF|cbn; lia|]. intros b h'' L'' Hb Hi' Hl'. right. exists b, L''. split; [done|]. split; [done|]. split; [done|]. congruence.
  - wsteps. destruct (Z.eqb_spec p (freep h')) as [->|Hne].
    + assert (j = t) as Hjt by (eapply pos_inj; [exact Hi|by exists m|done]).
      destruct Hv as [(-> & -> & ->)|[(m' & Hm & Hle & ->)|(m' & Hm & Hle & ->)]]; [|rewrite <- Hjt in Hm; rewrite Hm in Hj; injection Hj; lia|rewrite Hm in Hj; injection Hj; lia].
      wstep. eapply wp_morecore; [exact Hi|done| |].
      * intros Hlim. wsteps. by left.
      * intros h'' L'' Hi'' Hroom Hlen Hl''. pose proof (freep_pos _ _ _ Hi''). destruct (Z.eqb_spec (freep h'') 0) as [Hz|_]; [lia|].
        unfold rd_ptr. wsteps. destruct (searching_grown h L A n h'' L'' Hi'' Hl'' Hroom) as (v' & Hv' & Hs). exists v'. split; [lia|done].
    + unfold rd_ptr. wsteps. assert (at_pos L' j p) as Hpj by (by exists m). pose proof (pos_next _ _ _ _ _ Hi Hpj) as Hpn.
      assert (j <> t) as Hjt. { intros ->. destruct Hpt as (? & Hpt). rewrite Hpt in Hj. injection Hj. congruence. }
      pose proof Hj as Hjl%lookup_lt_Some. pose proof Hpt as (? & Htl%lookup_lt_Some). cbn [length] in Hjl, Htl.
      pose proof (dist_after _ _ _ Hjl Htl Hjt) as Hd.
      destruct Hv as [(-> & -> & ->)|[(m' & Hm & Hle & ->)|(m' & Hm & Hle & ->)]]; [| |rewrite Hm in Hj; injection Hj; lia].
      * exists (dist (S (length L)) (after (S (length L)) j) t + length L + 3)%nat. split; [lia|]. exists L, j, t. do 5 (split; [done|]). left. by split.
      * exists (dist (S (length L')) (after (S (length L')) j) t). split; [lia|]. exists L', j, t. do 5 (split; [done|]). right. left. by exists m'.
Qed.

(** Before the first call there is no circle. *)
Definition ready (h : heap) (A : list block) : Prop :=
  (freep h = 0 /\ A = [] /\ base < brk h /\ brk h <= limit h /\ limit h < 2 ^ 32 - 8 /\ brk h mod 8 = 0) \/ exists L, inv h L A.

Lemma units_small nbytes : 0 <= nbytes <= 2 ^ 30 -> nbytes + 8 <= 8 * units nbytes /\ 1 <= units nbytes < 2 ^ 28.
Proof using.
  intros Hn. unfold units. rewrite (u32_small (nbytes + 8 - 1)) by lia.
  assert (8 * ((nbytes + 8 - 1) / 8) <= nbytes + 7 < 8 * ((nbytes + 8 - 1) / 8) + 8) as Hd by (pose proof (Z.div_mod (nbytes + 8 - 1) 8); pose proof (Z.mod_pos_bound (nbytes + 8 - 1) 8); lia).
  rewrite u32_small by lia. lia.
Qed.

Lemma wp_malloc h A nbytes X : ready h A -> 0 <= nbytes <= 2 ^ 30 ->
  wp (malloc base nbytes) X (fun r h' =>
    (r = 0 /\ ready h' A /\ limit h' = limit h /\ limit h < brk h + 8 * Z.max 4096 (units nbytes)) \/
    exists t, r = t.1 + 8 /\ nbytes + 8 <= 8 * t.2 /\ ready h' (t :: A) /\ limit h' = limit h) h.
Proof using All.
  intros Hr Hn. destruct (units_small nbytes Hn) as [Hu Hu']. unfold malloc. set (n := units nbytes) in *. wsteps.
  eapply wp_mono with (Q := fun _ h1 => limit h1 = limit h /\ brk h1 = brk h /\ exists L, inv h1 L A).
  { destruct Hr as [(-> & -> & Hbrk)|(L & Hi)]; cbn [Z.eqb].
    - unfold set_freep, set_ptr, set_size. wsteps. split; [done|]. split; [done|]. exists []. unfold hdr. csimpl. rewrite lookup_insert_eq. cbn [default]. split; try done; csimpl.
      + split; [|done]. cbn. apply lookup_insert_eq.
      + by intros b ?%not_elem_of_nil.
      + by intros b ?%not_elem_of_nil.
      + by intros x (b & ?%not_elem_of_nil & _).
      + exists 0. apply elem_of_cons. by left.
    - pose proof (freep_pos _ _ _ Hi). destruct (Z.eqb_spec (freep h) 0); [lia|]. wsteps. split; [done|]. split; [done|by exists L]. }
  intros [] h1 (Hl & Hbr & L & Hi). wsteps. unfold rd_ptr at 1. wsteps.
  pose proof (in_freep _ _ _ Hi) as (k & Hk). apply list_elem_of_lookup in Hk as (t & Ht). assert (at_pos L t (freep h1)) as Hpt by (by exists k).
  pose proof (pos_next _ _ _ _ _ Hi Hpt) as Hpj.
  eapply wp_loop_rank with (I := searching h1 L A n) (v := (dist (S (length L)) (after (S (length L)) t) t + length L + 3)%nat).
  - exists L, t, t. do 5 (split; [done|]). by left.
  - pose proof (inv_size _ _ _ Hi) as Hsz. destruct Hpj as (? & Hpj%lookup_lt_Some). apply lookup_lt_Some in Ht. cbn [length] in *. pose proof (dist_lt _ _ _ Hpj Ht). lia.
  - intros v x h2 Hs. eapply wp_mono; [by apply wp_malloc_step|]. intros [x'|b] h3 Hb; [done|].
    destruct Hb as [(-> & -> & Hlim)|(b' & L' & -> & Hb' & Hi' & Hl')].
    + left. split; [done|]. split; [right; by exists L|]. split; [done|]. by rewrite <- Hl, <- Hbr.
    + right. exists b'. split; [done|]. split; [lia|]. split; [right; by exists L'|congruence].
Qed.

(** ** Programs *)

(** The pointers a program holds, with the bytes it asked for.  It allocates,
    frees, and writes into the bytes it asked for. *)
Inductive ustep : heap * list (Z * Z) -> heap * list (Z * Z) -> Prop :=
| ustep_malloc h l n p h' : 0 <= n <= 2 ^ 30 -> malloc base n h = Ok (p, h') -> ustep (h, l) (h', if p =? 0 then l else (p, n) :: l)
| ustep_free h l1 p n l2 h' : free p h = Ok (tt, h') -> ustep (h, l1 ++ (p, n) :: l2) (h', l1 ++ l2)
| ustep_write h l p n m' : (p, n) ∈ l -> (forall a, a + 8 <= p \/ p + n <= a -> m' !! a = mem_ h !! a) -> ustep (h, l) (h <| mem_ := m' |>, l).

Definition payload (x t : Z * Z) : Prop := x.1 = t.1 + 8 /\ 0 <= x.2 /\ x.2 + 8 <= 8 * t.2.

(** The pointers are the payloads of allocated blocks. *)
Definition holds (lim : Z) (s : heap * list (Z * Z)) : Prop := limit s.1 = lim /\ exists A, ready s.1 A /\ Forall2 payload s.2 A.

Lemma ready_inv h t A : ready h (t :: A) -> exists L, inv h L (t :: A).
Proof using. by intros [(_ & ? & _)|?]. Qed.

Lemma holds_split lim h l1 x l2 : holds lim (h, l1 ++ x :: l2) ->
  exists t A1 A2 L, Forall2 payload l1 A1 /\ payload x t /\ Forall2 payload l2 A2 /\ inv h L (t :: A1 ++ A2).
Proof using.
  intros (_ & A & Hr & HF). cbn [fst snd] in *. apply Forall2_app_inv_l in HF as (A1 & A2 & HF1 & HF2 & ->).
  apply Forall2_cons_inv_l in HF2 as (t & A3 & Hx & HF3 & ->).
  destruct Hr as [(_ & H & _)|(L & Hi)]; [symmetry in H; by apply app_cons_not_nil in H|].
  exists t, A1, A3, L. do 3 (split; [done|]). eapply inv_perm; [|exact Hi]. by rewrite Permutation_middle.
Qed.

Lemma inv_write h L t A x m' : inv h L (t :: A) -> payload x t -> (forall a, a + 8 <= x.1 \/ x.1 + x.2 <= a -> m' !! a = mem_ h !! a) ->
  inv (h <| mem_ := m' |>) L (t :: A).
Proof using All.
  intros Hi (Hx1 & Hx2 & Hx3) Hm. pose proof (live_apart _ _ _ _ Hi) as Hap. destruct Hi as [Hr Ha Hfree Hlive Hapart Hpair Hfp Hbrk].
  destruct (Hlive t) as (Ht1 & Ht2 & _); [apply elem_of_cons; by left|]. split; cbn [mem_ freep brk limit setter]; try done.
  - rewrite <- (app_nil_r ((base, 0) :: L)). eapply ring_tail with (l2 := []); [rewrite app_nil_r; exact Hr|done| |done].
    intros b [->|Hb]%elem_of_cons; apply Hm; cbn [fst]; [lia|]. destruct (Hfree b Hb). destruct (Hap b Hb); lia.
  - intros b Hb. destruct (Hlive b Hb) as (H1 & H2 & H3 & H4 & y & H5). do 4 (split; [done|]). exists y. rewrite Hm; [done|].
    apply elem_of_cons in Hb as [->|Hb]; [lia|]. destruct Hpair as [Hpair _].
    destruct (Z.lt_ge_cases b.1 t.1) as [?|Hge]; [lia|]. destruct (Z.le_gt_cases (t.1 + 8 * t.2) b.1); [lia|].
    exfalso. apply (Hpair b.1); [unfold within; lia|]. exists b. split; [done|unfold within; lia].
Qed.

Lemma holds_step lim s s' : holds lim s -> ustep s s' -> holds lim s'.
Proof using All.
  intros Hh Hs. destruct Hs as [h l n p h' Hn Hm|h l1 p n l2 h' Hf|h l p n m' Hin Hm].
  - destruct Hh as (Hl & A & Hr & HF). pose proof (wp_malloc h A n never Hr Hn) as Hw. unfold wp in Hw. rewrite Hm in Hw.
    destruct Hw as [(-> & Hr' & Hl' & _)|(t & -> & Ht & Hr' & Hl')]; cbn [Z.eqb].
    + split; [cbn in *; congruence|]. by exists A.
    + destruct (ready_inv _ _ _ Hr') as (L & Hi). destruct (in_live _ _ _ Hi t) as (_ & ? & _); [apply elem_of_cons; by left|].
      destruct (Z.eqb_spec (t.1 + 8) 0); [lia|]. split; [cbn in *; congruence|]. exists (t :: A). split; [done|]. constructor; [|done]. split; [done|cbn; lia].
  - destruct (holds_split _ _ _ _ _ Hh) as (t & A1 & A2 & L & HF1 & (Hp & _) & HF2 & Hi). cbn [fst] in Hp.
    pose proof (wp_free h L t.1 t.2 (A1 ++ A2) never (fun _ h2 => limit h2 = limit h /\ ready h2 (A1 ++ A2))) as Hw.
    unfold wp in Hw. rewrite Hp in Hf. rewrite Hf in Hw. destruct Hw as [Hl2 Hr2].
    + by destruct t.
    + intros h2 L2 Hi2 _ _ Hl2 _. split; [done|right; by exists L2].
    + destruct Hh as [Hl _]. split; [cbn in *; congruence|]. exists (A1 ++ A2). split; [done|by apply Forall2_app].
  - apply list_elem_of_split in Hin as (l1 & l2 & ->). destruct (holds_split _ _ _ _ _ Hh) as (t & A1 & A2 & L & HF1 & Hp & HF2 & Hi).
    destruct Hh as [Hl _]. split; [done|]. exists (A1 ++ t :: A2). split; [|apply Forall2_app; [done|by constructor]]. right. exists L.
    eapply inv_perm; [apply Permutation_middle|]. by eapply inv_write.
Qed.

Lemma holds_reachable lim s s' : holds lim s -> rtc ustep s s' -> holds lim s'.
Proof using All. intros Hh Hs. induction Hs as [|s s1 s' Hst _ IH]; [done|]. by apply IH, (holds_step _ s). Qed.

Lemma payload_apart h L t u A x y : inv h L (t :: A) -> u ∈ A -> payload x t -> payload y u -> x.1 + x.2 <= y.1 - 8 \/ y.1 + y.2 <= x.1 - 8.
Proof using.
  intros Hi Hu (? & ? & ?) (? & ? & ?). destruct (in_pair _ _ _ Hi) as [Hp _]. destruct (in_live _ _ _ Hi u) as (? & _); [apply elem_of_cons; by right|].
  destruct (in_live _ _ _ Hi t) as (? & _); [apply elem_of_cons; by left|].
  destruct (Z.le_gt_cases (x.1 + x.2) (y.1 - 8)) as [|Hx]; [by left|]. destruct (Z.le_gt_cases (y.1 + y.2) (x.1 - 8)) as [|Hy]; [by right|]. exfalso.
  apply (Hp (Z.max t.1 u.1)); [unfold within; lia|]. exists u. split; [done|]. unfold within. lia.
Qed.

Lemma holds_apart lim h l i j x y : holds lim (h, l) -> (i < j)%nat -> l !! i = Some x -> l !! j = Some y -> x.1 + x.2 <= y.1 - 8 \/ y.1 + y.2 <= x.1 - 8.
Proof using.
  intros Hh Hij Hx Hy. pose proof Hh as Hh'. rewrite <- (take_drop_middle _ _ _ Hx) in Hh'.
  destruct (holds_split _ _ _ _ _ Hh') as (t & A1 & A2 & L & _ & Hpx & HF & Hi).
  destruct (Forall2_lookup_l _ _ _ (j - S i) y HF) as (u & Hu & Hpy); [rewrite lookup_drop; by replace (S i + (j - S i))%nat with j by lia|].
  eapply payload_apart; [exact Hi| |exact Hpx|exact Hpy]. apply elem_of_app. right. by eapply list_elem_of_lookup_2.
Qed.

End heap.

(** Two blocks, the first freed and taken again in part. *)
Module Play.
Definition h0 : heap := mkheap ∅ 0 0x4000 0x40000.
Definition final {A} (r : res (A * heap)) : heap := match r with Ok (_, h) => h | Stop _ => h0 end.
Definition h1 : heap := final (malloc 0x1000 200 h0).
Definition h2 : heap := final (malloc 0x1000 100 h1).
Definition h3 : heap := final (free 0xbf38 h2).
Definition h4 : heap := final (malloc 0x1000 60 h3).

Lemma plays : rtc (ustep 0x1000) (h0, []) (h4, [(0xbfc0, 60); (0xbec8, 100)]).
Proof.
  eapply rtc_l; [apply (ustep_malloc 0x1000 h0 [] 200 0xbf38 h1); [lia|vm_compute; reflexivity]|].
  eapply rtc_l; [apply (ustep_malloc 0x1000 h1 _ 100 0xbec8 h2); [lia|vm_compute; reflexivity]|].
  eapply rtc_l; [apply (ustep_free 0x1000 h2 [(0xbec8, 100)] 0xbf38 200 [] h3); vm_compute; reflexivity|].
  eapply rtc_once. apply (ustep_malloc 0x1000 h3 _ 60 0xbfc0 h4); [lia|vm_compute; reflexivity].
Qed.

End Play.
