(* ===== verification/Mkfs.v ===== *)
(** * The tool that makes the first disk image ([mkfs.c])

    The image is a list of blocks, the host's files are their names and the
    results of reading them, [None] for one that cannot be opened.  Failed
    asserts and [exit(1)] are [Panic].  Reading and writing the image file
    does not fail on the host, but for a read past its end. *)
From Stdlib Require Import ZArith Lia.
From stdpp Require Import base list gmap strings.
From S2P Require Import Prelude Params Bytes Cstring FsData Fs.
#[local] Open Scope Z_scope.
#[local] Open Scope kernel_scope.

Definition NINODES : Z := 200.
Definition nbitmap : Z := FSSIZE / (BSIZE * 8) + 1.
Definition ninodeblocks : Z := NINODES / IPB + 1.
Definition nlog : Z := LOGSIZE.
Definition nmeta : Z := 2 + nlog + ninodeblocks + nbitmap.
Definition nblocks : Z := FSSIZE - nmeta.
Definition zeroes : list Z := replicate (Z.to_nat BSIZE) 0.

Record mkst := mkmk { img : list (list Z); freeinode : Z; freeblock : Z }.
#[export] Instance eta_mkst : Eta mkst := fun m => mkmk (img m) (freeinode m) (freeblock m).

(** The bytes of [x] in order, read as a number of this machine. *)
Definition xshort (x : Z) : Z := get16 (put16 [0; 0] 0 x) 0.
Definition xint (x : Z) : Z := get32 (put32 [0; 0; 0; 0] 0 x) 0.

Definition new_sb : superblock :=
  mksb (xint FSSIZE) (xint nblocks) (xint NINODES) (xint nlog) (xint 2) (xint (2 + nlog)) (xint (2 + nlog + ninodeblocks)).

(** Writing behind the end of the image fills the gap with zeros. *)
Definition wsect (sec : Z) (buf : list Z) : M mkst unit :=
  modify (fun m => m <| img ::= fun l => <[Z.to_nat sec := buf]> (l ++ replicate (S (Z.to_nat sec) - length l) zeroes) |>).
Definition rsect (sec : Z) : M mkst (list Z) :=
  m <~ get;
  match img m !! Z.to_nat sec with
  | Some b => ret b
  | None => panic "read"
  end.

Definition winode (inum : Z) (ip : inode) : M mkst unit :=
  let bn := IBLOCK inum new_sb in
  buf <~ rsect bn;
  wsect bn (store_dinode buf (dinode_off inum) ip).
Definition rinode (inum : Z) : M mkst inode :=
  let bn := IBLOCK inum new_sb in
  buf <~ rsect bn;
  ret (load_dinode buf (dinode_off inum) inode0).

Definition ialloc (type : Z) : M mkst Z :=
  inum <~ gets freeinode;
  modify (fun m => m <| freeinode ::= fun i => i + 1 |>) ;;;
  winode inum (inode0 <| itype := xshort type |> <| inlink := xshort 1 |> <| isize := xint 0 |>) ;;;
  ret inum.

(** The bits of the first [used] blocks. *)
Definition bits (used : Z) : list Z := fold_left (fun d i => bit_set d (Z.of_nat i)) (seq 0 (Z.to_nat used)) zeroes.
Definition balloc (used : Z) : M mkst unit :=
  if negb (used <? BSIZE * 8) then panic "assert"
  else wsect (sb_bmapstart new_sb) (bits used).

(** [freeblock++] *)
Definition next_block : M mkst Z :=
  b <~ gets freeblock;
  modify (fun m => m <| freeblock := b + 1 |>) ;;;
  ret b.

Definition addr (din : inode) (i : Z) : Z := default 0 (iaddrs din !! Z.to_nat i).
(** [if(xint(din.addrs[i]) == 0) din.addrs[i] = xint(freeblock++);] *)
Definition need_addr (din : inode) (i : Z) : M mkst inode :=
  if xint (addr din i) =? 0 then b <~ next_block; ret (din <| iaddrs ::= <[Z.to_nat i := xint b]> |>)
  else ret din.

(** The block of the file with number [fbn]. *)
Definition append_block (din : inode) (fbn : Z) : M mkst (inode * Z) :=
  if fbn <? NDIRECT then
    din <~ need_addr din fbn;
    ret (din, xint (addr din fbn))
  else
    din <~ need_addr din NDIRECT;
    indirect <~ rsect (xint (addr din NDIRECT));
    let i := fbn - NDIRECT in
    if NINDIRECT <=? i then undef "indirect"
    else
      indirect <~ (if word_at indirect i =? 0 then
                     b <~ next_block;
                     let indirect := set_word indirect i (xint b) in
                     wsect (xint (addr din NDIRECT)) indirect ;;;
                     ret indirect
                   else ret indirect);
      ret (din, xint (word_at indirect i)).

Definition iappend (inum : Z) (xp : list Z) : M mkst unit :=
  din <~ rinode inum;
  r <~ loop (S (length xp)) (fun '(din, off, p) =>
    if (length p =? 0)%nat then ret (inr (din, off))
    else
      let fbn := off / BSIZE in
      if negb (fbn <? MAXFILE) then panic "assert"
      else
        r <~ append_block din fbn;
        let '(din, x) := r in
        let n1 := Z.min (Z.of_nat (length p)) ((fbn + 1) * BSIZE - off) in
        buf <~ rsect x;
        wsect x (splice buf (Z.to_nat (off - fbn * BSIZE)) (take (Z.to_nat n1) p)) ;;;
        ret (inl (din, off + n1, drop (Z.to_nat n1) p))) (din, xint (isize din), xp);
  let '(din, off) := r in
  winode inum (din <| isize := xint off |>).

(** A directory entry, with [strncpy(de.name, name, DIRSIZ)]. *)
Definition entry (inum : Z) (name : list Z) : M mkst (list Z) :=
  n <~ of_option (Undef "strncpy") (strncpy (replicate (Z.to_nat DIRSIZ) 0) (name ++ [0]) (Z.to_nat DIRSIZ));
  ret (dirent_encode (mkdirent (xshort inum) n)).

(** [if(argv[i][0] == '_') ++argv[i];] *)
Definition skip_underscore (name : list Z) : list Z :=
  match name with
  | c :: rest => if c =? 95 then rest else name
  | [] => []
  end.

Definition file := (list Z * option (list (list Z)))%type.

Definition add_file (rootino : Z) (f : file) : M mkst unit :=
  let '(name, reads) := f in
  if existsb (fun c => c =? 47) name then panic "assert"
  else match reads with
  | None => panic "open"
  | Some chunks =>
      inum <~ ialloc T_FILE;
      de <~ entry inum (skip_underscore name);
      iappend rootino de ;;;
      for_each chunks (fun buf => iappend inum buf)
  end.

(** [memset(buf, 0, sizeof(buf)); memmove(buf, &sb, sizeof(sb));] *)
Definition sb_block : list Z :=
  put_words zeroes 0 [sb_size new_sb; sb_nblocks new_sb; sb_ninodes new_sb; sb_nlog new_sb; sb_logstart new_sb; sb_inodestart new_sb; sb_bmapstart new_sb].

Definition main (files : list file) : M mkst unit :=
  for_each (seq 0 (Z.to_nat FSSIZE)) (fun i => wsect (Z.of_nat i) zeroes) ;;;
  wsect 1 sb_block ;;;
  rootino <~ ialloc T_DIR;
  if negb (rootino =? ROOTINO) then panic "assert"
  else
    de <~ entry rootino [46];
    iappend rootino de ;;;
    de <~ entry rootino [46; 46];
    iappend rootino de ;;;
    for_each files (add_file rootino) ;;;
    din <~ rinode rootino;
    let off := xint (isize din) in
    let off := (off / BSIZE + 1) * BSIZE in
    winode rootino (din <| isize := xint off |>) ;;;
    used <~ gets freeblock;
    balloc used.

(** [mkfs fs.img files...], from an empty image. *)
Definition make_image (files : list file) : M mkst unit := put (mkmk [] 1 nmeta) ;;; main files.
