(* ===== verification/MkfsThms.v ===== *)
(** * The image is a file system ([mkfs.c])

    What the kernel finds on the image: inodes whose trees hold the bytes of
    the host's files, in blocks of their own that the bitmap marks. *)
From Stdlib Require Import ZArith Lia.
From stdpp Require Import base list gmap strings.
From S2P Require Import Prelude Params Bytes Cstring Sleeplock FsData Bio Log LogRec LogTx LogThms Fs FsBlk FsInode FsMap FsFile FsThms Mkfs.
#[local] Open Scope Z_scope.
#[local] Open Scope kernel_scope.

(** The file system of an image, with nothing cached. *)
Definition mount (im : list (list Z)) : fsstate :=
  mkfs im [] (replicate NBUF buf0) (seq 0 NBUF) (mklog 0 0 0 0 0 0 []) (sb_decode (nth 1 im [])) [].

Lemma content_mount im n : content (mount im) n = nth (Z.to_nat n) im [].
Proof. reflexivity. Qed.

(** Blocks [m] except [p] are the same. *)
Definition same_but (p : Z) (im im' : list (list Z)) : Prop :=
  forall m, 0 <= m -> m <> p -> content (mount im') m = content (mount im) m.

(** The files [ds] in the trees with the addresses [As]; the blocks from [fb]
    on were never used. *)
Record forest (im : list (list Z)) (fb : Z) (As ds : list (list Z)) : Prop := {
  fo_len : length As = length ds;
  fo_blocks : length im = Z.to_nat FSSIZE /\ Forall is_block im;
  fo_range : nmeta <= fb <= FSSIZE;
  fo_zero : forall n, fb <= n < FSSIZE -> content (mount im) n = zeroes;
  fo_shape : forall k A, As !! k = Some A -> length A = 13%nat /\ A !! 11%nat = Some 0 /\ A !! 12%nat = Some 0;
  fo_addr : forall k A sl, As !! k = Some A -> slot_ok sl -> slot_addr (mount im) A sl <> 0 -> nmeta <= slot_addr (mount im) A sl < fb;
  fo_inj : forall k k' A A' sl sl', As !! k = Some A -> As !! k' = Some A' -> slot_ok sl -> slot_ok sl' ->
    slot_addr (mount im) A sl <> 0 -> slot_addr (mount im) A sl = slot_addr (mount im) A' sl' -> k = k' /\ sl = sl';
  fo_bytes : forall k A d j, As !! k = Some A -> ds !! k = Some d -> 0 <= j < MAXFILE * BSIZE ->
    file_byte (mount im) A j = nth (Z.to_nat j) d 0
}.

Lemma file_byte_hole t A j : slot_addr t A (bn_slot (j / BSIZE)) = 0 -> file_byte t A j = 0.
Proof. unfold file_byte. by intros ->. Qed.

Lemma file_byte_same t t' A A' j :
  slot_addr t' A' (bn_slot (j / BSIZE)) = slot_addr t A (bn_slot (j / BSIZE)) ->
  (slot_addr t A (bn_slot (j / BSIZE)) <> 0 -> content t' (slot_addr t A (bn_slot (j / BSIZE))) = content t (slot_addr t A (bn_slot (j / BSIZE)))) ->
  file_byte t' A' j = file_byte t A j.
Proof. unfold file_byte. intros -> Hc. destruct (Z.eqb_spec (slot_addr t A (bn_slot (j / BSIZE))) 0); [done|]. by rewrite Hc. Qed.

Lemma byte_at_zeroes k : byte_at zeroes k = 0.
Proof. unfold byte_at, zeroes. generalize (Z.to_nat BSIZE). intros n. revert k. induction n as [|n IH]; intros [|k]; cbn; auto. Qed.

Lemma nmeta_pos : 0 < nmeta.
Proof. done. Qed.

(** ** A new block *)
Section new.
Context (im : list (list Z)) (fb : Z) (As ds : list (list Z)) (k : nat) (A : list Z).
Context (Hf : forest im fb As ds) (HA : As !! k = Some A) (Hroom : fb < FSSIZE).
Context (sl : slot) (Hsl : slot_ok sl) (Hempty : slot_addr (mount im) A sl = 0).
Context (im' : list (list Z)) (A' : list Z).
Context (Hblocks : length im' = Z.to_nat FSSIZE /\ Forall is_block im').
Context (Hshape : length A' = 13%nat /\ A' !! 11%nat = Some 0 /\ A' !! 12%nat = Some 0).
Context (isl : slot) (Hisl : slot_ok isl) (Hidx : (length (snd isl) < depth (fst isl))%nat).
Context (Hsame : same_but (slot_addr (mount im) A isl) im im') (Hisl0 : slot_addr (mount im) A isl <> 0 \/ im' = im).
Context (Hroot : forall i, default 0 (A' !! i) = if decide ((i, []) = sl) then fb else default 0 (A !! i)).
Context (Hword : forall i l j, slot_ok (i, l ++ [j]) -> slot_addr (mount im) A (i, l) <> 0 ->
  word_at (content (mount im') (slot_addr (mount im) A (i, l))) j =
  if decide ((i, l ++ [j]) = sl) then fb else word_at (content (mount im) (slot_addr (mount im) A (i, l))) j).
Context (Hparent : forall i l j, (i, l ++ [j]) = sl -> slot_addr (mount im) A (i, l) <> 0).

(** Only the index block has changed. *)
Lemma new_content m : 0 <= m -> (m = slot_addr (mount im) A isl -> m = 0) -> content (mount im') m = content (mount im) m.
Proof using All.
  intros Hm Hne. destruct Hisl0 as [Hi|Heq]; [|by rewrite Heq]. apply Hsame; [done|]. intros Heq. apply Hi. rewrite <- Heq. by apply Hne.
Qed.

Lemma new_zero : content (mount im') fb = zeroes.
Proof using All.
  pose proof nmeta_pos. pose proof (fo_range _ _ _ _ Hf). rewrite new_content; [apply (fo_zero _ _ _ _ Hf); lia|lia|].
  intros Heq. pose proof (fo_addr _ _ _ _ Hf k A isl HA Hisl). lia.
Qed.

Lemma new_mine sl' : slot_ok sl' -> slot_addr (mount im') A' sl' = if decide (sl' = sl) then fb else slot_addr (mount im) A sl'.
Proof using All.
  pose proof nmeta_pos. pose proof (fo_range _ _ _ _ Hf). apply new_slots; [done|lia|exact new_zero|exact Hroot|exact Hword|exact Hparent].
Qed.

Lemma new_others k' B sl' : As !! k' = Some B -> k' <> k -> slot_ok sl' -> slot_addr (mount im') B sl' = slot_addr (mount im) B sl'.
Proof using All.
  intros HB Hk Hok. apply slot_addr_same; [done|]. intros m (sl1 & Hok1 & _ & <- & Hne). pose proof nmeta_pos.
  pose proof (fo_addr _ _ _ _ Hf k' B sl1 HB Hok1 Hne). apply new_content; [lia|]. intros Heq. exfalso. apply Hk.
  by apply (fo_inj _ _ _ _ Hf k' k B A sl1 isl).
Qed.

Lemma forest_new : forest im' (fb + 1) (<[k := A']> As) ds.
Proof using All.
  pose proof nmeta_pos as Hpos. pose proof Hf as [Hlen Hb Hr Hz Hs Ha Hi Hby].
  assert (forall k' B sl', <[k := A']> As !! k' = Some B -> slot_ok sl' ->
    (k' = k /\ sl' = sl /\ slot_addr (mount im') B sl' = fb) \/
    exists B0, As !! k' = Some B0 /\ slot_addr (mount im') B sl' = slot_addr (mount im) B0 sl') as Hcase.
  { intros k' B sl' HB Hok. apply list_lookup_insert_Some in HB as [(<- & <- & _)|(Hne & HB)].
    - rewrite new_mine by done. destruct (decide (sl' = sl)) as [->|]; [by left|right; by exists A].
    - right. exists B. split; [done|]. apply (new_others k'); [done|congruence|done]. }
  split; [by rewrite length_insert|done|lia|..].
  - intros n Hn. rewrite new_content; [apply Hz; lia|lia|]. intros Heq. pose proof (Ha k A isl HA Hisl). lia.
  - intros k' B HB. apply list_lookup_insert_Some in HB as [(_ & <- & _)|(_ & HB)]; [done|by eapply Hs].
  - intros k' B sl' HB Hok Hne. destruct (Hcase k' B sl' HB Hok) as [(_ & _ & ->)|(B0 & HB0 & Heq)]; [lia|].
    rewrite Heq in Hne |- *. pose proof (Ha k' B0 sl' HB0 Hok Hne). lia.
  - intros k1 k2 B1 B2 sl1 sl2 HB1 HB2 Hok1 Hok2 Hne Heq.
    destruct (Hcase k1 B1 sl1 HB1 Hok1) as [(-> & -> & E1)|(C1 & HC1 & E1)], (Hcase k2 B2 sl2 HB2 Hok2) as [(-> & -> & E2)|(C2 & HC2 & E2)]; [done|..].
    + rewrite E1, E2 in Heq. pose proof (Ha k2 C2 sl2 HC2 Hok2). lia.
    + rewrite E1, E2 in Heq. rewrite E1 in Hne. pose proof (Ha k1 C1 sl1 HC1 Hok1 Hne). lia.
    + rewrite E1 in Hne. rewrite E1, E2 in Heq. by apply (Hi k1 k2 C1 C2).
  - intros k' B d j HB Hd Hj. pose proof (block_of_offset j Hj) as Hleaf. pose proof (proj1 Hleaf) as Hok.
    destruct (Hcase k' B _ HB Hok) as [(-> & Hsl' & E)|(B0 & HB0 & E)].
    + rewrite <- (Hby k A d j HA Hd Hj), (file_byte_hole (mount im)) by (by rewrite Hsl'). unfold file_byte. rewrite E, new_zero.
      destruct (fb =? 0); [done|apply byte_at_zeroes].
    + rewrite <- (Hby k' B0 d j HB0 Hd Hj). apply file_byte_same; [done|]. intros Hne. pose proof (Ha k' B0 _ HB0 Hok Hne).
      apply new_content; [lia|]. intros Heq. exfalso. destruct (Hi k' k B0 A _ isl HB0 HA Hok Hisl Hne Heq) as [_ Hsl'].
      destruct Hleaf as [_ Hlf]. rewrite Hsl' in Hlf. lia.
Qed.
End new.

(** ** Bytes at the end of a file *)
Section append.
Context (im : list (list Z)) (fb : Z) (As ds : list (list Z)) (k : nat) (A d : list Z).
Context (Hf : forest im fb As ds) (HA : As !! k = Some A) (Hd : ds !! k = Some d).
Context (bn : Z) (Hbn : 0 <= bn < MAXFILE) (Hoff : bn = Z.of_nat (length d) / BSIZE).
Context (x : Z) (Hx : x = slot_addr (mount im) A (bn_slot bn)) (Hx0 : x <> 0).
Context (p : list Z) (Hp : Z.of_nat (length d) mod BSIZE + Z.of_nat (length p) <= BSIZE).
Context (im' : list (list Z)) (Hblocks : length im' = Z.to_nat FSSIZE /\ Forall is_block im').
Context (Hsame : same_but x im im') (Hdata : content (mount im') x = splice (content (mount im) x) (Z.to_nat (Z.of_nat (length d) mod BSIZE)) p).

Lemma append_slots k' B sl : As !! k' = Some B -> slot_ok sl -> slot_addr (mount im') B sl = slot_addr (mount im) B sl.
Proof using All.
  intros HB Hok. apply slot_addr_same; [done|]. intros m (sl1 & Hok1 & Hlt & <- & Hne). pose proof nmeta_pos.
  pose proof (fo_addr _ _ _ _ Hf k' B sl1 HB Hok1 Hne). apply Hsame; [lia|]. intros Heq. rewrite Hx in Heq.
  destruct (bn_slot_leaf bn Hbn) as [Hlf1 Hlf2]. destruct (fo_inj _ _ _ _ Hf k' k B A sl1 (bn_slot bn)) as [_ ->]; [done..|]. lia.
Qed.

Lemma append_byte j : 0 <= j < MAXFILE * BSIZE -> file_byte (mount im') A j = nth (Z.to_nat j) (d ++ p) 0.
Proof using All.
  intros Hj. pose proof (block_of_offset j Hj) as [Hok Hlf]. pose proof (fo_bytes _ _ _ _ Hf k A d j HA Hd Hj) as Hold.
  pose proof (Z.div_mod (Z.of_nat (length d)) BSIZE ltac:(done)) as Hdm. pose proof (Z.mod_pos_bound (Z.of_nat (length d)) BSIZE ltac:(done)) as Hm.
  pose proof (Z.div_mod j BSIZE ltac:(done)) as Hjm. pose proof (Z.mod_pos_bound j BSIZE ltac:(done)) as Hjb.
  set (o := Z.of_nat (length d) mod BSIZE) in *. change BSIZE with 512 in *.
  destruct (Z.eq_dec (j / 512) bn) as [Heq|Hne].
  - unfold file_byte in Hold |- *. change BSIZE with 512 in *. rewrite (append_slots k A) by (rewrite ?Heq; done || apply bn_slot_leaf, Hbn).
    rewrite Heq, <- Hx in Hold |- *. destruct (Z.eqb_spec x 0); [done|]. rewrite Hdata.
    assert (length (content (mount im) x) = 512%nat) as Hlc.
    { rewrite content_mount. destruct (fo_blocks _ _ _ _ Hf) as [Hl Hb]. pose proof (fo_addr _ _ _ _ Hf k A (bn_slot bn) HA) as Ha.
      rewrite <- Hx in Ha. specialize (Ha (proj1 (bn_slot_leaf bn Hbn)) Hx0). pose proof (fo_range _ _ _ _ Hf). pose proof nmeta_pos.
      destruct (lookup_lt_is_Some_2 im (Z.to_nat x)) as [c Hc]; [lia|]. rewrite (nth_lookup_Some _ _ _ _ Hc). by apply (Forall_lookup_1 _ _ _ _ Hb Hc). }
    unfold byte_at in *. rewrite !nth_lookup in Hold. rewrite !nth_lookup, lookup_splice by lia.
    rewrite lookup_app. destruct (decide _) as [Hin|Hout].
    + rewrite (lookup_ge_None_2 d) by lia. do 2 f_equal. lia.
    + rewrite Hold. destruct (d !! Z.to_nat j) eqn:Hdj; [done|]. rewrite lookup_ge_None in Hdj. rewrite (lookup_ge_None_2 p) by lia. done.
  - rewrite (file_byte_same (mount im) (mount im') A A), Hold.
    + rewrite !nth_lookup, lookup_app. destruct (d !! Z.to_nat j) eqn:Hdj; [done|]. apply lookup_ge_None in Hdj. rewrite (lookup_ge_None_2 p); [done|].
      destruct (Nat.le_gt_cases (length p) (Z.to_nat j - length d)); [done|]. exfalso. apply Hne. symmetry. apply Z.div_unique with (j - 512 * bn); lia.
    + by apply (append_slots k).
    + change BSIZE with 512. intros Hne0. pose proof nmeta_pos. pose proof (fo_addr _ _ _ _ Hf k A _ HA Hok Hne0). apply Hsame; [lia|]. intros Hxx. rewrite Hx in Hxx.
      destruct (fo_inj _ _ _ _ Hf k k A A _ (bn_slot bn) HA HA Hok (proj1 (bn_slot_leaf bn Hbn)) Hne0 Hxx) as [_ Hs].
      apply Hne, bn_slot_inj; [apply Z.div_pos; lia|lia|done].
Qed.

Lemma forest_append : forest im' fb As (<[k := d ++ p]> ds).
Proof using All.
  pose proof nmeta_pos as Hpos. pose proof Hf as [Hlen Hb Hr Hz Hs Ha Hi Hby]. pose proof append_slots as Hsl.
  assert (nmeta <= x < fb) as Hxr. { rewrite Hx. apply (Ha k); [done|apply bn_slot_leaf, Hbn|by rewrite <- Hx]. }
  split; [by rewrite length_insert|done|done|..].
  - intros n Hn. rewrite Hsame; [by apply Hz|lia|lia].
  - done.
  - intros k' B sl HB Hok. rewrite (Hsl k') by done. by apply (Ha k').
  - intros k1 k2 B1 B2 sl1 sl2 HB1 HB2 Hok1 Hok2. rewrite (Hsl k1 B1), (Hsl k2 B2) by done. by apply Hi.
  - intros k' B d' j HB Hd' Hj. apply list_lookup_insert_Some in Hd' as [(<- & <- & _)|(Hne & Hd')].
    + assert (B = A) as -> by congruence. by apply append_byte.
    + rewrite <- (Hby k' B d' j HB Hd' Hj). pose proof (block_of_offset j Hj) as [Hok Hlf]. apply file_byte_same; [by apply (Hsl k')|].
      intros Hne0. pose proof (Ha k' B _ HB Hok Hne0). apply Hsame; [lia|]. intros Hxx. rewrite Hx in Hxx.
      destruct (Hi k' k B A _ (bn_slot bn) HB HA Hok (proj1 (bn_slot_leaf bn Hbn)) Hne0 Hxx) as [? _]. congruence.
Qed.
End append.

(** ** The operations *)

Lemma xint_id x : 0 <= x < 2 ^ 32 -> xint x = x.
Proof. intros Hx. unfold xint. apply get32_put32_eq; [cbn; lia|done]. Qed.

Lemma xshort_id x : 0 <= x < 2 ^ 16 -> xshort x = x.
Proof.
  intros Hx. unfold xshort, get16, put16, byte_at. cbn. rewrite (Z.mod_small (x / 256)) by (split; [apply Z.div_pos; lia|apply Z.div_lt_upper_bound; lia]).
  pose proof (Z.div_mod x 256). lia.
Qed.

Definition sized (im : list (list Z)) : Prop := length im = Z.to_nat FSSIZE.

Lemma wp_rsect sec m X (Q : list Z -> mkst -> Prop) : sized (img m) -> 0 <= sec < FSSIZE -> Q (content (mount (img m)) sec) m -> wp (rsect sec) X Q m.
Proof.
  intros Hm Hs HQ. unfold rsect. wsteps. destruct (lookup_lt_is_Some_2 (img m) (Z.to_nat sec)) as [b Hb]; [unfold sized in Hm; lia|].
  rewrite content_mount, (nth_lookup_Some _ _ _ _ Hb) in HQ. rewrite Hb. by wsteps.
Qed.

Lemma wp_wsect sec b m X (Q : unit -> mkst -> Prop) : sized (img m) -> 0 <= sec < FSSIZE ->
  Q tt (m <| img := <[Z.to_nat sec := b]> (img m) |>) -> wp (wsect sec b) X Q m.
Proof.
  intros Hm Hs HQ. unfold wsect. wsteps. unfold setter in *. cbn in *. unfold sized in Hm.
  replace (S (Z.to_nat sec) - length (img m))%nat with 0%nat by lia. by rewrite app_nil_r.
Qed.

Lemma content_write im sec b n : sized im -> 0 <= sec < FSSIZE -> 0 <= n ->
  content (mount (<[Z.to_nat sec := b]> im)) n = if n =? sec then b else content (mount im) n.
Proof.
  intros Hm Hs Hn. rewrite !content_mount, !nth_lookup. unfold sized in Hm. destruct (Z.eqb_spec n sec) as [->|Hne].
  - by rewrite list_lookup_insert_eq by lia.
  - by rewrite list_lookup_insert_ne by lia.
Qed.

Lemma blocks_write im sec b : sized im /\ Forall is_block im -> is_block b -> sized (<[Z.to_nat sec := b]> im) /\ Forall is_block (<[Z.to_nat sec := b]> im).
Proof. intros [Hm Hb] Hn. unfold sized. rewrite length_insert. split; [done|by apply Forall_insert]. Qed.

Lemma image_block im n : sized im /\ Forall is_block im -> 0 <= n < FSSIZE -> is_block (content (mount im) n).
Proof.
  intros [Hm Hb] Hn. rewrite content_mount. unfold sized in Hm. destruct (lookup_lt_is_Some_2 im (Z.to_nat n)) as [c Hc]; [lia|].
  rewrite (nth_lookup_Some _ _ _ _ Hc). by apply (Forall_lookup_1 _ _ _ _ Hb Hc).
Qed.

(** Blocks are added to file [k]: the others and the blocks before the data
    stay as they are. *)
Record adds (k : nat) (im : list (list Z)) (As ds : list (list Z)) (im' : list (list Z)) (fb' : Z) (A' : list Z) : Prop := {
  ex_forest : forest im' fb' (<[k := A']> As) ds;
  ex_slots : forall k' B sl, k' <> k -> As !! k' = Some B -> slot_ok sl -> slot_addr (mount im') B sl = slot_addr (mount im) B sl;
  ex_meta : forall b, 0 <= b < nmeta -> content (mount im') b = content (mount im) b
}.

Lemma idx_slot : slot_ok (10%nat, []) /\ (length (@nil Z) < depth 10)%nat.
Proof. split; [split; [cbn; lia|split; [cbn; lia|constructor]]|cbn; lia]. Qed.

Lemma root_slot i : (i < 13)%nat -> slot_ok (i, []).
Proof. intros Hi. split; [done|]. split; [cbn; lia|constructor]. Qed.

Lemma snoc_not_root (i i' : nat) (l : list Z) (j : Z) : (i, l ++ [j]) <> (i', []).
Proof. intros [= _ Hl]. by apply app_nil in Hl as [_ ?]. Qed.

Lemma snoc_one (i i' : nat) (l : list Z) (j j' : Z) : (i, l ++ [j]) = (i', [j']) -> i = i' /\ l = [].
Proof. intros [= -> Hl]. split; [done|]. by apply (app_inj_tail l []) in Hl as [-> _]. Qed.

(** [need_addr], on slots without indirect blocks above them. *)
Lemma adds_root k im fb As ds A i : forest im fb As ds -> As !! k = Some A -> fb < FSSIZE -> (i <= 10)%nat -> default 0 (A !! i) = 0 ->
  adds k im As ds im (fb + 1) (<[i := fb]> A) /\
  forall sl, slot_ok sl -> slot_addr (mount im) (<[i := fb]> A) sl = if decide (sl = (i, [])) then fb else slot_addr (mount im) A sl.
Proof.
  intros Hf HA Hfb Hi H0. destruct (fo_shape _ _ _ _ Hf k A HA) as (Hl & H11 & H12). destruct idx_slot as [Hi1 Hi2].
  assert (forall j, default 0 (<[i := fb]> A !! j) = if decide ((j, []) = (i, @nil Z)) then fb else default 0 (A !! j)) as Hroot.
  { intros j. destruct (decide ((j, []) = (i, @nil Z))) as [[= ->]|Hne]; [by rewrite list_lookup_insert_eq by lia|].
    rewrite list_lookup_insert_ne; [done|]. congruence. }
  assert (forall (i' : nat) (l : list Z) (j a b : Z), a = if decide ((i', l ++ [j]) = (i, [])) then b else a) as Hno.
  { intros. rewrite decide_False; [done|apply snoc_not_root]. }
  assert (length (<[i := fb]> A) = 13%nat /\ <[i := fb]> A !! 11%nat = Some 0 /\ <[i := fb]> A !! 12%nat = Some 0) as Hsh.
  { rewrite length_insert, !list_lookup_insert_ne by lia. done. }
  assert (slot_addr (mount im) A (i, []) = 0) as Hemp by (by rewrite slot_addr_root).
  assert (forall (i' : nat) (l : list Z) (j : Z), (i', l ++ [j]) = (i, []) -> slot_addr (mount im) A (i', l) <> 0) as Hpar.
  { intros i' l j E. by apply snoc_not_root in E. }
  split; [split|].
  - eapply (forest_new im fb As ds k A Hf HA Hfb (i, []) (root_slot i ltac:(lia)) Hemp im (<[i := fb]> A) (fo_blocks _ _ _ _ Hf) Hsh (10%nat, []) Hi1 Hi2); [done|by right|done|by intros; apply Hno|done].
  - done.
  - done.
  - intros sl Hok. apply (new_mine im fb As ds k A Hf HA Hfb (i, []) (root_slot i ltac:(lia)) Hemp im (<[i := fb]> A) (fo_blocks _ _ _ _ Hf) Hsh (10%nat, []) Hi1 Hi2); [done|by right|done|by intros; apply Hno|done|done].
Qed.

(** A word of the indirect block is filled in. *)
Lemma adds_entry k im fb As ds A a j : forest im fb As ds -> As !! k = Some A -> fb < FSSIZE -> A !! 10%nat = Some a -> a <> 0 -> 0 <= j < 128 ->
  word_at (content (mount im) a) j = 0 ->
  let im' := <[Z.to_nat a := set_word (content (mount im) a) j fb]> im in
  adds k im As ds im' (fb + 1) A /\
  forall sl, slot_ok sl -> slot_addr (mount im') A sl = if decide (sl = (10%nat, [j])) then fb else slot_addr (mount im) A sl.
Proof.
  intros Hf HA Hfb Ha Ha0 Hj Hw im'. pose proof (fo_blocks _ _ _ _ Hf) as Hbl. destruct idx_slot as [Hi1 Hi2]. pose proof nmeta_pos as Hpos.
  pose proof (fo_range _ _ _ _ Hf) as Hr.
  assert (slot_addr (mount im) A (10%nat, []) = a) as Hsa by (by rewrite slot_addr_root, Ha).
  assert (nmeta <= a < fb) as Har. { rewrite <- Hsa. apply (fo_addr _ _ _ _ Hf k); [done|done|by rewrite Hsa]. }
  assert (slot_ok (10%nat, [j])) as Hok by (split; [cbn; lia|]; split; [cbn; lia|by apply Forall_singleton]).
  assert (slot_addr (mount im) A (10%nat, [j]) = 0) as Hemp.
  { change [j] with ([] ++ [j]). rewrite slot_snoc, Hsa. by destruct (Z.eqb_spec a 0). }
  pose proof (image_block im a Hbl ltac:(lia)) as [Hbl1 Hbl2].
  assert (is_block (set_word (content (mount im) a) j fb)) as Hnb by (split; [by rewrite length_set_word|by apply bytes_ok_set_word]).
  pose proof (blocks_write im a _ Hbl Hnb) as Hbl'.
  assert (same_but (slot_addr (mount im) A (10%nat, [])) im im') as Hsame.
  { intros m Hm Hne. unfold im'. rewrite content_write by (apply Hbl || lia). rewrite Hsa in Hne. by destruct (Z.eqb_spec m a). }
  assert (forall i, default 0 (A !! i) = if decide ((i, []) = (10%nat, [j])) then fb else default 0 (A !! i)) as Hroot.
  { intros i. by rewrite decide_False. }
  assert (forall (i : nat) (l : list Z) (q : Z), slot_ok (i, l ++ [q]) -> slot_addr (mount im) A (i, l) <> 0 ->
    word_at (content (mount im') (slot_addr (mount im) A (i, l))) q =
    if decide ((i, l ++ [q]) = (10%nat, [j])) then fb else word_at (content (mount im) (slot_addr (mount im) A (i, l))) q) as Hword.
  { intros i l q Hokq Hne. destruct (slot_ok_snoc _ _ _ Hokq) as (Hok' & Hq & _). pose proof (fo_addr _ _ _ _ Hf k A _ HA Hok' Hne).
    unfold im'. rewrite content_write by (apply Hbl || lia). destruct (Z.eqb_spec (slot_addr (mount im) A (i, l)) a) as [Heq|Hna].
    - destruct (fo_inj _ _ _ _ Hf k k A A (i, l) (10%nat, []) HA HA Hok' Hi1 Hne ltac:(congruence)) as [_ [= -> ->]]. cbn [app].
      destruct (decide ((10%nat, [q]) = (10%nat, [j]))) as [[= ->]|Hqj]; [rewrite word_at_set_eq by (change FSSIZE with 50000 in *; rewrite ?Heq; lia); done|].
      rewrite Heq, word_at_set_ne by (try lia; congruence). done.
    - rewrite decide_False; [done|]. intros E. apply Hna. rewrite <- Hsa. f_equal. by apply snoc_one in E as [-> ->]. }
  assert (forall (i : nat) (l : list Z) (q : Z), (i, l ++ [q]) = (10%nat, [j]) -> slot_addr (mount im) A (i, l) <> 0) as Hpar.
  { intros i l q E. apply snoc_one in E as [-> ->]. congruence. }
  pose proof (fo_shape _ _ _ _ Hf k A HA) as Hsh. split; [split|].
  - apply (forest_new im fb As ds k A Hf HA Hfb (10%nat, [j]) Hok Hemp im' A Hbl' Hsh (10%nat, []) Hi1 Hi2 Hsame ltac:(left; congruence) Hroot Hword Hpar).
  - intros k' B sl Hne HB Hsl. by apply (new_others im fb As ds k A Hf HA Hfb (10%nat, [j]) Hok Hemp im' A Hbl' Hsh (10%nat, []) Hi1 Hi2 Hsame ltac:(left; congruence) Hroot Hword Hpar k').
  - intros b Hb. apply Hsame; lia.
  - apply (new_mine im fb As ds k A Hf HA Hfb (10%nat, [j]) Hok Hemp im' A Hbl' Hsh (10%nat, []) Hi1 Hi2 Hsame ltac:(left; congruence) Hroot Hword Hpar).
Qed.

Lemma adds_refl k im fb As ds A : forest im fb As ds -> As !! k = Some A -> adds k im As ds im fb A.
Proof. intros Hf HA. split; [by rewrite list_insert_id|done|done]. Qed.

Lemma adds_trans k im As ds im1 fb1 A1 im2 fb2 A2 : (k < length As)%nat -> adds k im As ds im1 fb1 A1 -> adds k im1 (<[k := A1]> As) ds im2 fb2 A2 ->
  adds k im As ds im2 fb2 A2.
Proof.
  intros Hk [Hf1 Hs1 Hm1] [Hf2 Hs2 Hm2]. split.
  - by rewrite list_insert_insert_eq in Hf2.
  - intros k' B sl Hne HB Hok. rewrite (Hs2 k'), (Hs1 k') by (rewrite ?list_lookup_insert_ne; done). done.
  - intros b Hb. by rewrite Hm2, Hm1.
Qed.

(** The tree of a file of [n] bytes has exactly the blocks it needs. *)
Definition filled (im : list (list Z)) (A : list Z) (n : Z) : Prop :=
  (forall bn, 0 <= bn < 138 -> slot_addr (mount im) A (bn_slot bn) <> 0 <-> 512 * bn < n) /\ (default 0 (A !! 10%nat) <> 0 <-> 5120 < n).
Definition need (n : Z) : Z := (n + 511) / 512 + (if 5120 <? n then 1 else 0).

Lemma filled_grown im A im' A' n bn n' : filled im A n -> bn = n / 512 -> 0 <= n ->
  (forall b, 0 <= b < 138 -> b <> bn -> slot_addr (mount im') A' (bn_slot b) = slot_addr (mount im) A (bn_slot b)) ->
  slot_addr (mount im') A' (bn_slot bn) <> 0 -> (default 0 (A' !! 10%nat) <> 0 <-> 10 <= bn \/ default 0 (A !! 10%nat) <> 0) ->
  n < n' <= 512 * (bn + 1) -> filled im' A' n'.
Proof.
  intros [Hs Hi] -> Hn Hother Hthis Hidx Hn'. pose proof (Z.div_mod n 512 ltac:(lia)). pose proof (Z.mod_pos_bound n 512 ltac:(lia)). split.
  - intros b Hb. destruct (Z.eq_dec b (n / 512)) as [->|Hne]; [split; [lia|done]|]. rewrite Hother, Hs by done. lia.
  - rewrite Hidx, Hi. lia.
Qed.

Lemma need_grown n bn n' : bn = n / 512 -> 0 <= n -> n < n' <= 512 * (bn + 1) ->
  need n' - need n = (if 512 * bn <? n then 0 else 1) + (if (10 <=? bn) && negb (5120 <? n) then 1 else 0).
Proof.
  intros -> Hn Hn'. pose proof (Z.div_mod n 512 ltac:(lia)). pose proof (Z.mod_pos_bound n 512 ltac:(lia)). unfold need.
  assert ((n' + 511) / 512 = n / 512 + 1) as -> by (symmetry; apply Z.div_unique with (n' + 511 - 512 * (n / 512 + 1)); lia).
  destruct (Z.ltb_spec (512 * (n / 512)) n).
  - assert ((n + 511) / 512 = n / 512 + 1) as -> by (symmetry; apply Z.div_unique with (n mod 512 - 1); lia).
    destruct (Z.ltb_spec 5120 n'), (Z.ltb_spec 5120 n), (Z.leb_spec 10 (n / 512)); cbn [andb negb]; lia.
  - assert ((n + 511) / 512 = n / 512) as -> by (symmetry; apply Z.div_unique with 511; lia).
    destruct (Z.ltb_spec 5120 n'), (Z.ltb_spec 5120 n), (Z.leb_spec 10 (n / 512)); cbn [andb negb]; lia.
Qed.

Lemma tree_small im fb As ds k A sl : forest im fb As ds -> As !! k = Some A -> slot_ok sl -> xint (slot_addr (mount im) A sl) = slot_addr (mount im) A sl.
Proof.
  intros Hf HA Hok. apply xint_id. pose proof nmeta_pos. pose proof (fo_range _ _ _ _ Hf). change FSSIZE with 50000 in *.
  destruct (Z.eq_dec (slot_addr (mount im) A sl) 0) as [->|Hne]; [lia|]. pose proof (fo_addr _ _ _ _ Hf k A sl HA Hok Hne). lia.
Qed.

Lemma addr_slot im din i : addr din i = slot_addr (mount im) (iaddrs din) (Z.to_nat i, []).
Proof. by rewrite slot_addr_root. Qed.

Lemma wp_need_addr m k As ds din i X (Q : inode -> mkst -> Prop) :
  forest (img m) (freeblock m) As ds -> As !! k = Some (iaddrs din) -> freeblock m < FSSIZE -> 0 <= i <= 10 ->
  (forall A', adds k (img m) As ds (img m) (freeblock m + (if addr din i =? 0 then 1 else 0)) A' -> slot_addr (mount (img m)) A' (Z.to_nat i, []) <> 0 ->
     (forall sl, slot_ok sl -> sl <> (Z.to_nat i, []) -> slot_addr (mount (img m)) A' sl = slot_addr (mount (img m)) (iaddrs din) sl) ->
     Q (din <| iaddrs := A' |>) (m <| freeblock := freeblock m + (if addr din i =? 0 then 1 else 0) |>)) ->
  wp (need_addr din i) X Q m.
Proof.
  intros Hf HA Hfb Hi HQ. assert (slot_ok (Z.to_nat i, [])) as Hok by (apply root_slot; lia). pose proof nmeta_pos. pose proof (fo_range _ _ _ _ Hf) as Hr.
  unfold need_addr. rewrite (addr_slot (img m)), (tree_small _ _ _ _ k _ _ Hf HA Hok) in *. destruct (Z.eqb_spec (slot_addr (mount (img m)) (iaddrs din) (Z.to_nat i, [])) 0) as [H0|H0].
  - rewrite slot_addr_root in H0. unfold next_block. wsteps. rewrite xint_id by (change FSSIZE with 50000 in *; lia).
    destruct (adds_root k (img m) (freeblock m) As ds (iaddrs din) (Z.to_nat i) Hf HA Hfb ltac:(lia) H0) as [He Hs].
    apply (HQ (<[Z.to_nat i := freeblock m]> (iaddrs din))); [done| |].
    + rewrite Hs by done. rewrite decide_True by done. lia.
    + intros sl Hsl Hne. rewrite Hs by done. by rewrite decide_False.
  - wsteps. rewrite Z.add_0_r in HQ. assert (m <| freeblock := freeblock m |> = m) as Hm by (by destruct m).
    assert (din <| iaddrs := iaddrs din |> = din) as Hd by (by destruct din). rewrite Hm in HQ. specialize (HQ (iaddrs din)). rewrite Hd in HQ.
    apply HQ; [by apply adds_refl|done|done].
Qed.

Lemma bn_slot_direct bn : bn < 10 -> bn_slot bn = (Z.to_nat bn, []).
Proof. intros Hb. unfold bn_slot. change NDIRECT with 10. by destruct (Z.ltb_spec bn 10); [|lia]. Qed.
Lemma bn_slot_indirect bn : 10 <= bn < 138 -> bn_slot bn = (10%nat, [bn - 10]).
Proof.
  intros Hb. unfold bn_slot. change NDIRECT with 10. change NINDIRECT with 128. destruct (Z.ltb_spec bn 10); [lia|]. cbn zeta.
  by destruct (Z.ltb_spec (bn - 10) 128); [|lia].
Qed.

Lemma wp_append_direct m k As ds din n bn X (Q : inode * Z -> mkst -> Prop) :
  forest (img m) (freeblock m) As ds -> As !! k = Some (iaddrs din) -> filled (img m) (iaddrs din) n ->
  0 <= n -> bn = n / 512 -> bn < 10 -> freeblock m < FSSIZE ->
  (forall im' fb' A', adds k (img m) As ds im' fb' A' -> slot_addr (mount im') A' (bn_slot bn) <> 0 ->
     (forall n', n < n' <= 512 * (bn + 1) -> filled im' A' n' /\ fb' = freeblock m + need n' - need n) ->
     Q (din <| iaddrs := A' |>, slot_addr (mount im') A' (bn_slot bn)) (m <| img := im' |> <| freeblock := fb' |>)) ->
  wp (din <~ need_addr din bn; ret (din, xint (addr din bn))) X Q m.
Proof.
  intros Hf HA Hfl Hn Hbn Hlt Hfb HQ. assert (0 <= bn) as Hb0 by (rewrite Hbn; apply Z.div_pos; lia).
  wstep. eapply wp_need_addr; [exact Hf|exact HA|done|lia|]. intros A' He Hs Ho. wstep.
  set (fb' := freeblock m + _) in *. rewrite (addr_slot (img m)). cbn [iaddrs setter].
  assert (k < length As)%nat as Hk by (by eapply lookup_lt_Some).
  rewrite (tree_small (img m) fb' (<[k := A']> As) ds k A') by (apply He || (by apply list_lookup_insert_eq) || (apply root_slot; lia)).
  specialize (HQ (img m) fb' A' He). rewrite (bn_slot_direct bn) in HQ by lia.
  assert (m <| img := img m |> <| freeblock := fb' |> = m <| freeblock := fb' |>) as Hm by (by destruct m). rewrite Hm in HQ. apply HQ; [done|].
  intros n' Hn'. split.
  - eapply filled_grown; [exact Hfl|exact Hbn|lia| | | |done].
    + intros b Hb Hne. apply Ho; [apply bn_slot_leaf; change MAXFILE with 2113674; lia|]. intros E. apply Hne.
      apply bn_slot_inj; [lia|lia|]. by rewrite E, bn_slot_direct by lia.
    + by rewrite bn_slot_direct by lia.
    + rewrite <- (slot_addr_root (mount (img m)) A'), Ho, slot_addr_root; [lia|apply root_slot; lia|]. intros [= E]. lia.
  - unfold fb'. pose proof (need_grown n bn n' Hbn Hn Hn') as Hng. destruct (Z.leb_spec 10 bn); [lia|]. cbn [andb] in Hng.
    destruct Hfl as [Hfl _]. specialize (Hfl bn ltac:(lia)). rewrite bn_slot_direct in Hfl by lia.
    rewrite (addr_slot (img m)). destruct (Z.eqb_spec (slot_addr (mount (img m)) (iaddrs din) (Z.to_nat bn, [])) 0), (Z.ltb_spec (512 * bn) n); lia.
Qed.

Lemma wp_append_indirect m k As ds din n bn X (Q : inode * Z -> mkst -> Prop) :
  forest (img m) (freeblock m) As ds -> As !! k = Some (iaddrs din) -> filled (img m) (iaddrs din) n ->
  0 <= n -> bn = n / 512 -> 10 <= bn < 138 -> freeblock m + 1 < FSSIZE ->
  (forall im' fb' A', adds k (img m) As ds im' fb' A' -> slot_addr (mount im') A' (bn_slot bn) <> 0 ->
     (forall n', n < n' <= 512 * (bn + 1) -> filled im' A' n' /\ fb' = freeblock m + need n' - need n) ->
     Q (din <| iaddrs := A' |>, slot_addr (mount im') A' (bn_slot bn)) (m <| img := im' |> <| freeblock := fb' |>)) ->
  wp (din <~ need_addr din NDIRECT;
      indirect <~ rsect (xint (addr din NDIRECT));
      let i := bn - NDIRECT in
      if NINDIRECT <=? i then undef "indirect"
      else
        indirect <~ (if word_at indirect i =? 0 then
                       b <~ next_block;
                       let indirect := set_word indirect i (xint b) in
                       wsect (xint (addr din NDIRECT)) indirect ;;;
                       ret indirect
                     else ret indirect);
        ret (din, xint (word_at indirect i))) X Q m.
Proof.
  intros Hf HA Hfl Hn Hbn Hlt Hfb HQ. wstep. eapply wp_need_addr; [exact Hf|exact HA|lia|by vm_compute|]. intros A1 He1 Hs1 Ho1.
  set (fb1 := freeblock m + (if addr din NDIRECT =? 0 then 1 else 0)) in *. change (Z.to_nat NDIRECT) with 10%nat in *. assert (k < length As)%nat as Hk by (by eapply lookup_lt_Some).
  pose proof (ex_forest _ _ _ _ _ _ _ He1) as Hf1. assert (<[k := A1]> As !! k = Some A1) as HA1 by (by apply list_lookup_insert_eq).
  pose proof (fo_blocks _ _ _ _ Hf1) as Hbl. pose proof (fo_range _ _ _ _ Hf1) as Hr1. pose proof nmeta_pos as Hpos.
  assert (slot_ok (10%nat, [])) as Hok10 by apply idx_slot. assert (slot_ok (bn_slot bn)) as Hokb by (apply bn_slot_leaf; change MAXFILE with 2113674; lia).
  rewrite (addr_slot (img m)). cbn [iaddrs setter]. change (Z.to_nat NDIRECT) with 10%nat.
  rewrite (tree_small _ _ _ _ k A1 _ Hf1 HA1 Hok10). set (a := slot_addr (mount (img m)) A1 (10%nat, [])) in *.
  pose proof (fo_addr _ _ _ _ Hf1 k A1 _ HA1 Hok10 Hs1) as Har. fold a in Har. assert (A1 !! 10%nat = Some a) as Ha.
  { unfold a. rewrite slot_addr_root. destruct (fo_shape _ _ _ _ Hf1 k A1 HA1) as (Hl & _). destruct (lookup_lt_is_Some_2 A1 10) as [? E]; [lia|]. by rewrite E. }
  wstep. apply wp_rsect; [apply Hbl|lia|]. cbn [img setter]. cbn zeta. change NDIRECT with 10. change NINDIRECT with 128.
  destruct (Z.leb_spec 128 (bn - 10)); [lia|].
  assert (forall b, 0 <= b < 138 -> slot_addr (mount (img m)) A1 (bn_slot b) = slot_addr (mount (img m)) (iaddrs din) (bn_slot b)) as Hleaf.
  { intros b Hb. apply Ho1; [apply bn_slot_leaf; change MAXFILE with 2113674; lia|]. intros E. pose proof (bn_slot_leaf b ltac:(change MAXFILE with 2113674; lia)) as [_ Hlf].
    rewrite E in Hlf. by vm_compute in Hlf. }
  assert (forall im', (forall b, 0 <= b < 138 -> b <> bn -> slot_addr (mount im') A1 (bn_slot b) = slot_addr (mount (img m)) A1 (bn_slot b)) ->
    slot_addr (mount im') A1 (bn_slot bn) <> 0 -> forall n', n < n' <= 512 * (bn + 1) -> filled im' A1 n') as Hfill.
  { intros im' Hsl Hne n' Hn'. eapply filled_grown; [exact Hfl|exact Hbn|lia| |done| |done].
    - intros b Hb Hb'. by rewrite Hsl, Hleaf.
    - rewrite Ha. cbn [default]. split; [by left; lia|done]. }
  assert (forall n', n < n' <= 512 * (bn + 1) -> fb1 + (if slot_addr (mount (img m)) A1 (bn_slot bn) =? 0 then 1 else 0) = freeblock m + need n' - need n) as Hcount.
  { intros n' Hn'. pose proof (need_grown n bn n' Hbn Hn Hn') as Hng. destruct (Z.leb_spec 10 bn); [|lia]. cbn [andb] in Hng. unfold fb1. rewrite Hleaf by lia.
    destruct Hfl as [Hfl1 Hfl2]. specialize (Hfl1 bn ltac:(lia)). unfold addr. change (Z.to_nat NDIRECT) with 10%nat.
    destruct (Z.eqb_spec (default 0 (iaddrs din !! 10%nat)) 0), (Z.eqb_spec (slot_addr (mount (img m)) (iaddrs din) (bn_slot bn)) 0), (Z.ltb_spec (512 * bn) n), (Z.ltb_spec 5120 n); cbn [negb] in Hng; lia. }
  assert (slot_addr (mount (img m)) A1 (bn_slot bn) = word_at (content (mount (img m)) a) (bn - 10)) as Hword.
  { rewrite bn_slot_indirect by lia. change [bn - 10] with ([] ++ [bn - 10]). rewrite slot_snoc. fold a. by destruct (Z.eqb_spec a 0). }
  rewrite <- Hword. destruct (Z.eqb_spec (slot_addr (mount (img m)) A1 (bn_slot bn)) 0) as [H0|H0].
  - assert (fb1 < FSSIZE) as Hfb1 by (unfold fb1; destruct (_ =? _); lia). unfold next_block. wsteps. change (freeblock (m <| freeblock := fb1 |>)) with fb1. rewrite (xint_id fb1) by (change FSSIZE with 50000 in *; lia).
    cbn [freeblock setter] in *. destruct (adds_entry k (img m) fb1 (<[k := A1]> As) ds A1 a (bn - 10) Hf1 HA1 Hfb1 Ha Hs1 ltac:(lia)) as [He2 Hs2]; [by rewrite <- Hword|].
    apply wp_wsect; [apply Hbl|lia|]. wsteps. cbn [img setter]. set (im2 := <[Z.to_nat a := _]> (img m)) in *.
    assert (slot_addr (mount im2) A1 (bn_slot bn) = fb1) as Hx by (rewrite Hs2, decide_True by (done || by rewrite bn_slot_indirect); done).
    pose proof (image_block (img m) a Hbl ltac:(lia)) as [Hcl _]. rewrite word_at_set_eq by (change FSSIZE with 50000 in *; lia). rewrite (xint_id fb1) by (change FSSIZE with 50000 in *; lia).
    assert (slot_addr (mount im2) A1 (bn_slot bn) <> 0) as Hx0 by (rewrite Hx; lia).
    rewrite <- Hx at 1. apply (HQ im2 (fb1 + 1) A1); [by eapply adds_trans|done|]. intros n' Hn'. split; [|by apply Hcount]. apply Hfill; [|done|done].
    intros b Hb Hne. rewrite Hs2 by (apply bn_slot_leaf; change MAXFILE with 2113674; lia). rewrite decide_False; [done|]. intros E. apply Hne, bn_slot_inj; [lia|lia|].
    by rewrite E, bn_slot_indirect.
  - wsteps. rewrite <- Hword, (tree_small _ _ _ _ k A1 _ Hf1 HA1 Hokb). rewrite Z.add_0_r in Hcount.
    specialize (HQ (img m) fb1 A1 He1 H0). assert (m <| img := img m |> <| freeblock := fb1 |> = m <| freeblock := fb1 |>) as Hm by (by destruct m).
    rewrite Hm in HQ. apply HQ. intros n' Hn'. split; [by apply Hfill|by apply Hcount].
Qed.

Lemma need_mono n n' : 0 <= n <= n' -> need n <= need n'.
Proof.
  intros Hn. unfold need. assert ((n + 511) / 512 <= (n' + 511) / 512) by (apply Z.div_le_mono; lia).
  destruct (Z.ltb_spec 5120 n), (Z.ltb_spec 5120 n'); lia.
Qed.

(** [iappend] between two blocks: file [k] has become [d]. *)
Record growing (m0 : mkst) (k : nat) (As ds : list (list Z)) (d0 : list Z) (m : mkst) (A d : list Z) : Prop := {
  gw_forest : forest (img m) (freeblock m) (<[k := A]> As) (<[k := d]> ds);
  gw_filled : filled (img m) A (Z.of_nat (length d));
  gw_others : forall k' B sl, k' <> k -> As !! k' = Some B -> slot_ok sl -> slot_addr (mount (img m)) B sl = slot_addr (mount (img m0)) B sl;
  gw_meta : forall b, 0 <= b < nmeta -> content (mount (img m)) b = content (mount (img m0)) b;
  gw_count : freeblock m = freeblock m0 + need (Z.of_nat (length d)) - need (Z.of_nat (length d0));
  gw_next : freeinode m = freeinode m0
}.

Lemma wp_append_block m k As ds din n bn X (Q : inode * Z -> mkst -> Prop) :
  forest (img m) (freeblock m) As ds -> As !! k = Some (iaddrs din) -> filled (img m) (iaddrs din) n ->
  0 <= n -> bn = n / 512 -> bn < 138 -> freeblock m + 1 < FSSIZE ->
  (forall im' fb' A', adds k (img m) As ds im' fb' A' -> slot_addr (mount im') A' (bn_slot bn) <> 0 ->
     (forall n', n < n' <= 512 * (bn + 1) -> filled im' A' n' /\ fb' = freeblock m + need n' - need n) ->
     Q (din <| iaddrs := A' |>, slot_addr (mount im') A' (bn_slot bn)) (m <| img := im' |> <| freeblock := fb' |>)) ->
  wp (append_block din bn) X Q m.
Proof.
  intros. unfold append_block. change NDIRECT with 10 at 1. destruct (Z.ltb_spec bn 10).
  - eapply wp_append_direct; try done; lia.
  - eapply wp_append_indirect; try done; lia.
Qed.

(** One block of the loop. *)
Lemma wp_append_step m0 k As ds d0 m din d p X (Q : inode * Z * list Z + inode * Z -> mkst -> Prop) :
  growing m0 k As ds d0 m (iaddrs din) d -> (k < length As)%nat -> (k < length ds)%nat -> p <> [] -> bytes_ok p ->
  Z.of_nat (length d) < 138 * 512 -> freeblock m + 1 < FSSIZE ->
  (forall m' A' q p', p = q ++ p' -> q <> [] -> growing m0 k As ds d0 m' A' (d ++ q) ->
     Q (inl (din <| iaddrs := A' |>, Z.of_nat (length (d ++ q)), p')) m') ->
  wp (let fbn := Z.of_nat (length d) / BSIZE in
      if negb (fbn <? MAXFILE) then panic "assert"
      else
        r <~ append_block din fbn;
        let '(din, x) := r in
        let n1 := Z.min (Z.of_nat (length p)) ((fbn + 1) * BSIZE - Z.of_nat (length d)) in
        buf <~ rsect x;
        wsect x (splice buf (Z.to_nat (Z.of_nat (length d) - fbn * BSIZE)) (take (Z.to_nat n1) p)) ;;;
        ret (inl (din, Z.of_nat (length d) + n1, drop (Z.to_nat n1) p))) X Q m.
Proof.
  intros [Hf Hfl Ho Hm Hc Hn] Hk Hkd Hp Hpb Hlen Hroom HQ. cbn zeta. change BSIZE with 512. set (n := Z.of_nat (length d)) in *. set (bn := n / 512).
  pose proof (Z.div_mod n 512 ltac:(lia)) as Hdm. pose proof (Z.mod_pos_bound n 512 ltac:(lia)) as Hmod. fold bn in Hdm.
  assert (0 <= bn < 138) as Hbn by (unfold bn; split; [apply Z.div_pos; lia|apply Z.div_lt_upper_bound; lia]).
  change MAXFILE with 2113674. destruct (Z.ltb_spec bn 2113674); [|lia]. cbn [negb]. wstep.
  eapply wp_append_block; [exact Hf|by apply list_lookup_insert_eq|exact Hfl|lia|done|lia|lia|]. intros im1 fb1 A1 [Hf1 Ho1 Hm1] Hx Hgrow.
  rewrite list_insert_insert_eq in Hf1. set (x := slot_addr (mount im1) A1 (bn_slot bn)) in *. set (n1 := Z.min _ _).
  assert (0 < n1 <= 512 * (bn + 1) - n) as Hn1 by (unfold n1; destruct p; [done|cbn [length]; lia]). assert (n1 <= Z.of_nat (length p)) as Hn1' by (unfold n1; lia).
  assert (<[k := A1]> As !! k = Some A1) as HA1 by (by apply list_lookup_insert_eq). assert (<[k := d]> ds !! k = Some d) as Hd1 by (by apply list_lookup_insert_eq).
  assert (0 <= bn < MAXFILE) as Hbm by (change MAXFILE with 2113674; lia).
  pose proof (fo_addr _ _ _ _ Hf1 k A1 _ HA1 (proj1 (bn_slot_leaf bn Hbm)) Hx) as Hxr. fold x in Hxr. pose proof nmeta_pos. pose proof (fo_range _ _ _ _ Hf1).
  pose proof (fo_blocks _ _ _ _ Hf1) as Hbl. wstep. apply wp_rsect; [apply Hbl|lia|]. wstep. apply wp_wsect; [apply Hbl|lia|]. wsteps. cbn [img setter].
  set (q := take (Z.to_nat n1) p). assert (length q = Z.to_nat n1) as Hq by (unfold q; rewrite length_take; lia).
  assert (is_block (splice (content (mount im1) x) (Z.to_nat (n - bn * 512)) q)) as Hnb.
  { destruct (image_block im1 x Hbl ltac:(lia)) as [Hb1 Hb2]. split; [rewrite length_splice; lia|]. apply bytes_ok_splice; [done|]. by apply Forall_take. }
  pose proof (blocks_write im1 x _ Hbl Hnb) as Hbl2. set (im2 := <[Z.to_nat x := _]> im1) in *.
  assert (same_but x im1 im2) as Hsb. { intros b Hb Hne. unfold im2. rewrite content_write by (apply Hbl || lia). by destruct (Z.eqb_spec b x). }
  assert (content (mount im2) x = splice (content (mount im1) x) (Z.to_nat (Z.of_nat (length d) mod BSIZE)) q) as Hdata.
  { unfold im2. rewrite content_write by (apply Hbl || lia). rewrite Z.eqb_refl. do 2 f_equal. change BSIZE with 512. fold n. lia. }
  assert (Z.of_nat (length d) mod BSIZE + Z.of_nat (length q) <= BSIZE) as Hfit by (change BSIZE with 512; fold n; lia).
  pose proof (forest_append im1 fb1 (<[k := A1]> As) (<[k := d]> ds) k A1 d Hf1 HA1 Hd1 bn Hbm eq_refl x eq_refl Hx q Hfit im2 Hbl2 Hsb Hdata) as Hf2.
  pose proof (append_slots im1 fb1 (<[k := A1]> As) (<[k := d]> ds) k A1 d Hf1 HA1 Hd1 bn Hbm eq_refl x eq_refl Hx q Hfit im2 Hbl2 Hsb Hdata) as Hsl.
  rewrite list_insert_insert_eq in Hf2. destruct (Hgrow (n + n1) ltac:(lia)) as [Hfl1 Hfb1].
  assert (Z.of_nat (length (d ++ q)) = n + n1) as Hlq by (rewrite length_app, Hq; unfold n; lia). rewrite <- Hlq.
  apply (HQ _ A1 q); [by unfold q; rewrite take_drop|by intros E; rewrite E in Hq; cbn in Hq; lia|]. split; cbn [img freeblock freeinode setter].
  - done.
  - rewrite Hlq. destruct Hfl1 as [Hfl1 Hfl2]. split; [|done]. intros b Hb. rewrite (Hsl k A1); [by apply Hfl1|done|]. apply bn_slot_leaf. change MAXFILE with 2113674. lia.
  - intros k' B sl Hne HB Hok. rewrite (Hsl k'), (Ho1 k'), (Ho k') by (rewrite ?list_lookup_insert_ne; done). done.
  - intros b Hb. rewrite Hsb, Hm1, Hm by lia. done.
  - rewrite Hlq, Hfb1. fold n in Hc. lia.
  - done.
Qed.

(** ** The inodes *)

(** A file of the image: its type, addresses and bytes. *)
Record ifile := mkif { f_type : Z; f_addrs : list Z; f_data : list Z }.
Definition inode_of (f : ifile) : inode :=
  inode0 <| itype := f_type f |> <| inlink := 1 |> <| isize := Z.of_nat (length (f_data f)) |> <| iaddrs := f_addrs f |>.

(** Inode [i] of an image with the files [fl], the first of which is number 1. *)
Definition nth_inode (fl : list ifile) (i : Z) : inode :=
  if i =? 0 then inode0 else match fl !! Z.to_nat (i - 1) with Some f => inode_of f | None => inode0 end.

(** The blocks before the data, but for those of the inodes. *)
Definition clear_meta (im : list (list Z)) : Prop :=
  content (mount im) 1 = sb_block /\ forall b, 0 <= b < nmeta -> b <> 1 -> ~ (32 <= b < 58) -> content (mount im) b = zeroes.

Definition has_inodes (im : list (list Z)) (fl : list ifile) : Prop :=
  forall i, 0 <= i < NINODES -> load_dinode (content (mount im) (IBLOCK i new_sb)) (dinode_off i) inode0 = nth_inode fl i.

Lemma mount_sb im : content (mount im) 1 = sb_block -> sb (mount im) = new_sb.
Proof. intros Hc. cbn [sb mount]. change (nth 1 im []) with (content (mount im) 1). rewrite Hc. by vm_compute. Qed.

Lemma iblock_range i : 0 <= i < NINODES -> 32 <= IBLOCK i new_sb < 58.
Proof.
  intros Hi. unfold IBLOCK. change (sb_inodestart new_sb) with 32. change IPB with 8. change NINODES with 200 in Hi.
  pose proof (Z.div_pos i 8). pose proof (Z.div_lt_upper_bound i 8 26). lia.
Qed.

(** Writing before the data does not touch the trees. *)
Lemma forest_meta im im' fb As ds : forest im fb As ds -> sized im' /\ Forall is_block im' ->
  (forall b, nmeta <= b -> content (mount im') b = content (mount im) b) ->
  forest im' fb As ds /\ forall k A sl, As !! k = Some A -> slot_ok sl -> slot_addr (mount im') A sl = slot_addr (mount im) A sl.
Proof.
  intros [Hlen Hb Hr Hz Hs Ha Hi Hby] Hb' Hc.
  assert (forall k A sl, As !! k = Some A -> slot_ok sl -> slot_addr (mount im') A sl = slot_addr (mount im) A sl) as Hsl.
  { intros k A sl HA Hok. apply slot_addr_same; [done|]. intros m (sl1 & Hok1 & _ & <- & Hne). apply Hc. by apply (Ha k A sl1). }
  split; [|done]. split; [done|done|done|..].
  - intros n Hn. rewrite Hc by lia. by apply Hz.
  - done.
  - intros k A sl HA Hok. rewrite (Hsl k) by done. by apply (Ha k).
  - intros k1 k2 B1 B2 sl1 sl2 HB1 HB2 Hok1 Hok2. rewrite (Hsl k1 B1), (Hsl k2 B2) by done. by apply Hi.
  - intros k A d j HA Hd Hj. rewrite <- (Hby k A d j HA Hd Hj). pose proof (block_of_offset j Hj) as [Hok _].
    apply file_byte_same; [by apply (Hsl k)|]. intros Hne. apply Hc. by apply (Ha k A _ HA Hok).
Qed.

Lemma filled_same im im' A n : (forall sl, slot_ok sl -> slot_addr (mount im') A sl = slot_addr (mount im) A sl) -> filled im A n -> filled im' A n.
Proof.
  intros Hsl [H1 H2]. split; [|done]. intros b Hb. rewrite Hsl; [by apply H1|]. apply bn_slot_leaf. change MAXFILE with 2113674. lia.
Qed.

Lemma load_zeroes o : load_dinode zeroes o inode0 = inode0.
Proof.
  unfold load_dinode, get16, get32. rewrite !byte_at_zeroes. change (0 + 256 * 0) with 0. change (i16 0) with 0.
  cbn [map seq]. by rewrite !byte_at_zeroes.
Qed.

Record good (m : mkst) (fl : list ifile) : Prop := {
  go_forest : forest (img m) (freeblock m) (f_addrs <$> fl) (f_data <$> fl);
  go_filled : forall k f, fl !! k = Some f -> filled (img m) (f_addrs f) (Z.of_nat (length (f_data f))) /\ Z.of_nat (length (f_data f)) <= 138 * 512 /\ 0 <= f_type f < 2 ^ 15;
  go_count : freeblock m = nmeta + sumZ (fun f => need (Z.of_nat (length (f_data f)))) fl;
  go_next : freeinode m = 1 + Z.of_nat (length fl);
  go_inodes : has_inodes (img m) fl;
  go_meta : clear_meta (img m)
}.

Lemma wp_rinode m fl inum X (Q : inode -> mkst -> Prop) : sized (img m) -> has_inodes (img m) fl -> 0 <= inum < NINODES -> Q (nth_inode fl inum) m ->
  wp (rinode inum) X Q m.
Proof.
  intros Hm Hi Hn HQ. pose proof (iblock_range inum Hn). unfold rinode. cbn zeta. wstep.
  apply wp_rsect; [done|change FSSIZE with 50000; lia|]. wsteps. by rewrite Hi.
Qed.

Definition with_inode (im : list (list Z)) (inum : Z) (nd : inode) : list (list Z) :=
  <[Z.to_nat (IBLOCK inum new_sb) := store_dinode (content (mount im) (IBLOCK inum new_sb)) (dinode_off inum) nd]> im.

Lemma wp_winode m inum nd X (Q : unit -> mkst -> Prop) : sized (img m) -> 0 <= inum < NINODES ->
  Q tt (m <| img := with_inode (img m) inum nd |>) -> wp (winode inum nd) X Q m.
Proof.
  intros Hm Hn HQ. pose proof (iblock_range inum Hn). unfold winode. wstep.
  apply wp_rsect; [done|change FSSIZE with 50000; lia|]. by apply wp_wsect; [done|change FSSIZE with 50000; lia|].
Qed.

Section with_inode.
Context (im : list (list Z)) (Him : sized im /\ Forall is_block im) (inum : Z) (Hinum : 0 <= inum < NINODES) (nd : inode) (Hnd : storable nd).

Lemma with_inode_blocks : sized (with_inode im inum nd) /\ Forall is_block (with_inode im inum nd).
Proof using All.
  pose proof (iblock_range inum Hinum). apply blocks_write; [done|]. apply store_dinode_block, image_block; [done|]. change FSSIZE with 50000. lia.
Qed.

Lemma with_inode_content b : 0 <= b ->
  content (mount (with_inode im inum nd)) b = if b =? IBLOCK inum new_sb then store_dinode (content (mount im) b) (dinode_off inum) nd else content (mount im) b.
Proof using All.
  intros Hb. pose proof (iblock_range inum Hinum). unfold with_inode. rewrite content_write by (apply Him || done || (change FSSIZE with 50000; lia)).
  by destruct (Z.eqb_spec b (IBLOCK inum new_sb)) as [->|].
Qed.

Lemma with_inode_other b : 0 <= b -> ~ (32 <= b < 58) -> content (mount (with_inode im inum nd)) b = content (mount im) b.
Proof using All.
  intros Hb Hn. pose proof (iblock_range inum Hinum). rewrite with_inode_content by done. by destruct (Z.eqb_spec b (IBLOCK inum new_sb)); [lia|].
Qed.

Lemma with_inode_clear : clear_meta im -> clear_meta (with_inode im inum nd).
Proof using All.
  intros [H1 H2]. split; [rewrite with_inode_other by lia; done|]. intros b Hb Hb1 Hb2. rewrite with_inode_other by lia. by apply H2.
Qed.

Lemma with_inode_inodes fl fl' : has_inodes im fl ->
  nth_inode fl' inum = inode0 <| itype := itype nd |> <| imajor := imajor nd |> <| iminor := iminor nd |> <| inlink := inlink nd |> <| isize := isize nd |> <| iaddrs := iaddrs nd |> ->
  (forall i, 0 <= i < NINODES -> i <> inum -> nth_inode fl' i = nth_inode fl i) ->
  has_inodes (with_inode im inum nd) fl'.
Proof using All.
  intros Hi Hnew Hold i Hr. pose proof (iblock_range i Hr) as Hib. pose proof (iblock_range inum Hinum) as Hin. rewrite with_inode_content by lia.
  pose proof (image_block im (IBLOCK i new_sb) Him ltac:(change FSSIZE with 50000; lia)) as [Hl _].
  destruct (Z.eq_dec i inum) as [->|Hne].
  - rewrite Z.eqb_refl, Hnew. apply load_store; [done|]. pose proof (dinode_off_range inum). lia.
  - rewrite Hold by done. rewrite <- Hi by done. destruct (Z.eqb_spec (IBLOCK i new_sb) (IBLOCK inum new_sb)) as [Heq|]; [|done].
    apply load_same. intros j Hj. apply store_dinode_else; [by apply (so_addrs _ Hnd)|].
    destruct (dinode_off_ne i inum) as [?|?]; [lia|lia|done| |lia|lia]. unfold IBLOCK in Heq. lia.
Qed.
End with_inode.

Lemma tree_storable im fb As ds k A ty n : forest im fb As ds -> As !! k = Some A -> 0 <= ty < 2 ^ 15 -> 0 <= n < 2 ^ 32 ->
  storable (inode0 <| itype := ty |> <| inlink := 1 |> <| isize := n |> <| iaddrs := A |>).
Proof.
  intros Hf HA Ht Hn. destruct (fo_shape _ _ _ _ Hf k A HA) as (Hl & _). split; cbn; unfold is_short; try lia. split; [done|].
  apply Forall_lookup. intros i a Hi. pose proof (lookup_lt_Some _ _ _ Hi) as Hlt. assert (slot_ok (i, [])) as Hok by (apply root_slot; lia).
  pose proof (fo_addr _ _ _ _ Hf k A (i, []) HA Hok) as Ha. rewrite slot_addr_root, Hi in Ha. cbn in Ha.
  pose proof nmeta_pos. pose proof (fo_range _ _ _ _ Hf). change FSSIZE with 50000 in *. destruct (Z.eq_dec a 0); lia.
Qed.

(** ** [iappend] *)

Lemma wp_append_loop m0 k As ds A d din xp X (Q : inode * Z -> mkst -> Prop) :
  forest (img m0) (freeblock m0) As ds -> As !! k = Some A -> ds !! k = Some d -> iaddrs din = A -> filled (img m0) A (Z.of_nat (length d)) -> bytes_ok xp ->
  Z.of_nat (length d + length xp) <= 138 * 512 -> freeblock m0 + need (Z.of_nat (length d + length xp)) - need (Z.of_nat (length d)) + 1 < FSSIZE ->
  (forall m' A', growing m0 k As ds d m' A' (d ++ xp) -> Q (din <| iaddrs := A' |>, Z.of_nat (length (d ++ xp))) m') ->
  wp (loop (S (length xp)) (fun '(din, off, p) =>
    if (length p =? 0)%nat then ret (inr (din, off))
    else
      let fbn := off / BSIZE in
      if negb (fbn <? MAXFILE) then panic "assert"
      else
        r <~ append_block din fbn;
        let '(din, x) := r in
        let n1 := Z.min (Z.of_nat (length p)) ((fbn + 1) * BSIZE - off) in
        buf <~ rsect x;
        wsect x (splice buf (Z.to_nat (off - fbn * BSIZE)) (take (Z.to_nat n1) p)) ;;;
        ret (inl (din, off + n1, drop (Z.to_nat n1) p))) (din, Z.of_nat (length d), xp)) X Q m0.
Proof.
  intros Hf HA Hd Hdin Hfl Hb Hlen Hroom HQ. pose proof (lookup_lt_Some _ _ _ HA) as Hk. pose proof (lookup_lt_Some _ _ _ Hd) as Hkd.
  eapply wp_loop with (I := fun x m => exists A' d' p, x = (din <| iaddrs := A' |>, Z.of_nat (length d'), p) /\ d ++ xp = d' ++ p /\ bytes_ok p /\ growing m0 k As ds d m A' d')
    (var := fun x m => length x.2).
  - exists A, d, xp. split; [by rewrite <- Hdin; destruct din|]. split; [done|]. split; [done|]. split; [by rewrite !list_insert_id|done|done|done|lia|done].
  - cbn. lia.
  - intros x m (A' & d' & p & -> & Heq & Hpb & Hg). assert (length (d ++ xp) = length (d' ++ p)) as Hl by (by rewrite Heq). rewrite !length_app in Hl.
    destruct (Nat.eqb_spec (length p) 0) as [Hp0|Hp0].
    + wsteps. apply nil_length_inv in Hp0. subst p. rewrite app_nil_r in Heq. rewrite <- Heq in Hg |- *. by apply HQ.
    + pose proof (gw_count _ _ _ _ _ _ _ _ Hg) as Hc. pose proof (need_mono (Z.of_nat (length d')) (Z.of_nat (length d + length xp)) ltac:(lia)).
      eapply wp_append_step; [cbn [iaddrs setter]; exact Hg|done|done|by intros ->|done|lia|lia|].
      intros m' A2 q p' Hpq Hq Hg'. split.
      * exists A2, (d' ++ q), p'. split; [by destruct din|]. split; [by rewrite Heq, Hpq, app_assoc|]. split; [|done].
        rewrite Hpq in Hpb. by apply Forall_app in Hpb as [_ ?].
      * cbn [snd]. rewrite Hpq, length_app. destruct q; [done|cbn; lia].
Qed.

Lemma nth_inode_at fl k f : fl !! k = Some f -> nth_inode fl (Z.of_nat k + 1) = inode_of f.
Proof. intros Hf. unfold nth_inode. destruct (Z.eqb_spec (Z.of_nat k + 1) 0); [lia|]. replace (Z.to_nat (Z.of_nat k + 1 - 1)) with k by lia. by rewrite Hf. Qed.

Lemma nth_inode_insert fl k f i : i <> Z.of_nat k + 1 -> 0 <= i -> nth_inode (<[k := f]> fl) i = nth_inode fl i.
Proof. intros Hi H0. unfold nth_inode. destruct (Z.eqb_spec i 0); [done|]. by rewrite list_lookup_insert_ne by lia. Qed.

Lemma wp_iappend m fl k f xp X (Q : unit -> mkst -> Prop) :
  good m fl -> fl !! k = Some f -> Z.of_nat (length fl) < NINODES -> bytes_ok xp ->
  Z.of_nat (length (f_data f) + length xp) <= 138 * 512 ->
  freeblock m + need (Z.of_nat (length (f_data f) + length xp)) - need (Z.of_nat (length (f_data f))) + 1 < FSSIZE ->
  (forall m' A', good m' (<[k := mkif (f_type f) A' (f_data f ++ xp)]> fl) -> Q tt m') -> wp (iappend (Z.of_nat k + 1) xp) X Q m.
Proof.
  intros [Hf Hfl Hc Hn Hin Hcl] Hk Hmax Hb Hlen Hroom HQ. destruct (Hfl k f Hk) as (Hfk & Hlk & Htk). pose proof (lookup_lt_Some _ _ _ Hk) as Hlt.
  pose proof (fo_blocks _ _ _ _ Hf) as Hbl. assert (0 <= Z.of_nat k + 1 < NINODES) as Hino by (change NINODES with 200 in *; lia).
  assert ((f_addrs <$> fl) !! k = Some (f_addrs f)) as HAk by (by rewrite list_lookup_fmap, Hk).
  assert ((f_data <$> fl) !! k = Some (f_data f)) as Hdk by (by rewrite list_lookup_fmap, Hk).
  unfold iappend. wstep. eapply wp_rinode; [apply Hbl|exact Hin|done|]. rewrite (nth_inode_at _ _ _ Hk). wstep.
  cbn [isize inode_of setter]. rewrite xint_id by lia.
  eapply wp_append_loop; [exact Hf|exact HAk|exact Hdk|done|done|done|done|done|]. intros m' A' [Hf' Hfl' Ho Hm Hc' Hn'].
  rewrite length_app in *. rewrite xint_id by lia. pose proof (fo_blocks _ _ _ _ Hf') as Hbl'.
  set (g := mkif (f_type f) A' (f_data f ++ xp)) in *. set (nd := _ <| isize := _ |>).
  assert (nd = inode_of g) as Hnd by (unfold nd, inode_of; cbn; by rewrite length_app).
  assert (storable nd) as Hst.
  { rewrite Hnd. eapply (tree_storable _ _ _ _ k A' (f_type f)); [exact Hf'|apply list_lookup_insert_eq; by rewrite length_fmap|done|cbn [f_data g]; rewrite length_app; lia]. }
  apply wp_winode; [apply Hbl'|done|]. apply (HQ _ A').
  pose proof (with_inode_blocks (img m') Hbl' (Z.of_nat k + 1) Hino nd Hst) as Hbl2.
  destruct (forest_meta (img m') (with_inode (img m') (Z.of_nat k + 1) nd) _ _ _ Hf' Hbl2) as [Hf2 Hsl2].
  { intros b Hb2. apply (with_inode_other _ Hbl' _ Hino nd Hst); change nmeta with 71 in Hb2; lia. }
  split; cbn [img freeblock freeinode setter].
  - by rewrite !list_fmap_insert.
  - intros k' f' Hk'. apply list_lookup_insert_Some in Hk' as [(<- & <- & _)|(Hne & Hk')]; cbn [f_addrs f_data f_type g].
    + split; [|split; [rewrite length_app; lia|done]]. eapply filled_same; [|by rewrite length_app]. intros sl Hok.
      apply (Hsl2 k); [|done]. apply list_lookup_insert_eq. by rewrite length_fmap.
    + destruct (Hfl k' f' Hk') as (H1 & H2). split; [|done]. eapply filled_same; [|exact H1]. intros sl Hok.
      assert ((f_addrs <$> fl) !! k' = Some (f_addrs f')) as HB by (by rewrite list_lookup_fmap, Hk').
      rewrite (Hsl2 k'), (Ho k') by (rewrite ?list_lookup_insert_ne; done). done.
  - rewrite (sumZ_insert _ _ _ f) by done. cbn [f_data g]. rewrite length_app. lia.
  - by rewrite length_insert, Hn'.
  - apply (with_inode_inodes _ Hbl' _ Hino nd Hst fl).
    + intros i Hi. pose proof (iblock_range i Hi). rewrite Hm by (change nmeta with 71; lia). by apply Hin.
    + rewrite (nth_inode_at _ k g) by (by apply list_lookup_insert_eq). by rewrite Hnd.
    + intros i Hi Hne. by apply nth_inode_insert; [|lia].
  - apply (with_inode_clear _ Hbl' _ Hino nd Hst). destruct Hcl as [Hc1 Hc2]. split; [by rewrite Hm by done|].
    intros b Hb0 Hb1 Hb2. rewrite Hm by done. by apply Hc2.
Qed.

(** ** New files *)

Lemma slot_addr_none t sl : slot_addr t (replicate 13 0) sl = 0.
Proof. unfold slot_addr. destruct (replicate 13 0 !! sl.1) as [a|] eqn:Ha; [|done]. apply lookup_replicate in Ha as [-> _]. apply walk_0. Qed.

Lemma forest_empty_file im fb As ds : forest im fb As ds -> forest im fb (As ++ [replicate 13 0]) (ds ++ [[]]).
Proof.
  intros [Hlen Hb Hr Hz Hs Ha Hi Hby]. assert (forall k A, (As ++ [replicate 13 0]) !! k = Some A -> As !! k = Some A \/ (k = length As /\ A = replicate 13 0)) as Hcase.
  { intros k A [HA|(Hk & HA)]%lookup_app_Some; [by left|right]. apply list_lookup_singleton_Some in HA as [Hk0 <-]. split; [lia|done]. }
  split; [rewrite !length_app; cbn; lia|done|done|done|..].
  - intros k A [HA|[_ ->]]%Hcase; [by apply (Hs k)|done].
  - intros k A sl [HA|[_ ->]]%Hcase; [by apply (Ha k)|]. by rewrite slot_addr_none.
  - intros k1 k2 A1 A2 sl1 sl2 [H1|[-> ->]]%Hcase H2; [|by rewrite slot_addr_none]. apply Hcase in H2 as [H2|[-> ->]]; [by apply Hi|].
    rewrite slot_addr_none. congruence.
  - intros k A d j HA Hd Hj. apply Hcase in HA as [HA|[-> ->]].
    + rewrite lookup_app_l in Hd by (apply lookup_lt_Some in HA; lia). by apply (Hby k).
    + rewrite lookup_app_r, Hlen, Nat.sub_diag in Hd by lia. injection Hd as <-. rewrite file_byte_hole by apply slot_addr_none. by destruct (Z.to_nat j).
Qed.

Lemma filled_empty im : filled im (replicate 13 0) 0.
Proof. split; [|by vm_compute]. intros b Hb. rewrite slot_addr_none. lia. Qed.

(** The types and contents of the files of an image. *)
Definition view (f : ifile) : Z * list Z := (f_type f, f_data f).
Definition holds_files (m : mkst) (vs : list (Z * list Z)) : Prop := exists fl, good m fl /\ view <$> fl = vs.
Definition total (vs : list (Z * list Z)) : Z := nmeta + sumZ (fun v => need (Z.of_nat (length v.2))) vs.

Lemma sumZ_fmap {A B} (g : A -> B) (f : B -> Z) l : sumZ f (g <$> l) = sumZ (fun x => f (g x)) l.
Proof. induction l as [|x l IH]; cbn; [done|]. by rewrite IH. Qed.

Lemma holds_total m vs : holds_files m vs -> freeblock m = total vs.
Proof. intros (fl & Hg & <-). unfold total. rewrite sumZ_fmap. apply (go_count _ _ Hg). Qed.

Lemma wp_iappend_files m vs k ty d xp X (Q : unit -> mkst -> Prop) :
  holds_files m vs -> vs !! k = Some (ty, d) -> Z.of_nat (length vs) < NINODES -> bytes_ok xp -> Z.of_nat (length (d ++ xp)) <= 138 * 512 ->
  total (<[k := (ty, d ++ xp)]> vs) < 4096 ->
  (forall m', holds_files m' (<[k := (ty, d ++ xp)]> vs) -> Q tt m') -> wp (iappend (Z.of_nat k + 1) xp) X Q m.
Proof.
  intros Hh Hk Hlen Hb Hmax Htot HQ. pose proof (holds_total _ _ Hh) as Hfb. destruct Hh as (fl & Hg & Hv). rewrite <- Hv, list_lookup_fmap in Hk.
  destruct (fl !! k) as [f|] eqn:Hf; [|done]. injection Hk as Hty Hd. rewrite length_app in Hmax.
  unfold total in Htot, Hfb. rewrite (sumZ_insert _ vs k (ty, d)) in Htot by (rewrite <- Hv, list_lookup_fmap, Hf, <- Hty, <- Hd; done).
  cbn [snd] in Htot. rewrite length_app in Htot. eapply wp_iappend; [exact Hg|exact Hf|by rewrite <- Hv, length_fmap in Hlen|done|by rewrite Hd| |].
  - rewrite Hd, Hfb. change FSSIZE with 50000. lia.
  - intros m' A' Hg'. apply HQ. eexists. split; [exact Hg'|]. rewrite list_fmap_insert, Hv. by rewrite Hd, Hty.
Qed.

Lemma wp_ialloc_files m vs ty X (Q : Z -> mkst -> Prop) :
  holds_files m vs -> Z.of_nat (length vs) + 1 < NINODES -> 0 <= ty < 2 ^ 15 ->
  (forall m', holds_files m' (vs ++ [(ty, [])]) -> Q (Z.of_nat (length vs) + 1) m') -> wp (ialloc ty) X Q m.
Proof.
  intros (fl & [Hf Hfl Hc Hn Hin Hcl] & Hv) Hlen Hty HQ. rewrite <- Hv, length_fmap in Hlen. set (g := mkif ty (replicate 13 0) []).
  unfold ialloc. wsteps. rewrite xint_id, !xshort_id by lia. set (nd := _ <| isize := 0 |>). assert (nd = inode_of g) as Hnd by done.
  assert (storable nd) as Hst. { split; cbn; unfold is_short; try lia. split; [done|]. by repeat constructor. }
  assert (0 <= freeinode m < NINODES) as Hino by lia. pose proof (fo_blocks _ _ _ _ Hf) as Hbl.
  apply wp_winode; [apply Hbl|done|]. wsteps. rewrite Hn, Z.add_comm. cbn [img setter].
  rewrite <- Hv, length_fmap in HQ. apply HQ. exists (fl ++ [g]). split; [|by rewrite fmap_app].
  clear Hino. assert (0 <= Z.of_nat (length fl) + 1 < NINODES) as Hino by lia.
  pose proof (with_inode_blocks (img m) Hbl _ Hino nd Hst) as Hbl2.
  destruct (forest_meta (img m) (with_inode (img m) (Z.of_nat (length fl) + 1) nd) _ _ _ (forest_empty_file _ _ _ _ Hf) Hbl2) as [Hf2 Hsl2].
  { intros b Hb2. apply (with_inode_other _ Hbl _ Hino nd Hst); change nmeta with 71 in Hb2; lia. }
  assert (forall i, (fl ++ [g]) !! i = if decide (i = length fl) then Some g else fl !! i) as Hlook.
  { intros i. case_decide as Hi; [subst; by apply list_lookup_middle|]. destruct (decide (i < length fl)%nat); [by rewrite lookup_app_l by lia|].
    rewrite !lookup_ge_None_2; [done|lia|rewrite length_app; cbn; lia]. }
  split; cbn [img freeblock freeinode setter].
  - rewrite !fmap_app. exact Hf2.
  - intros k f Hk. rewrite Hlook in Hk. case_decide; [injection Hk as <-; split; [apply filled_empty|split; [cbn; lia|done]]|].
    destruct (Hfl k f Hk) as [H1 H2]. split; [|done]. eapply filled_same; [|exact H1]. intros sl Hok. apply (Hsl2 k); [|done].
    rewrite lookup_app_l by (rewrite length_fmap; by eapply lookup_lt_Some). by rewrite list_lookup_fmap, Hk.
  - rewrite Hc. clear. induction fl as [|f fl IH]; cbn [sumZ app]; [done|lia].
  - rewrite length_app. cbn [length]. lia.
  - apply (with_inode_inodes _ Hbl _ Hino nd Hst fl); [done| |].
    + rewrite (nth_inode_at _ (length fl) g); [by rewrite Hnd|]. by apply list_lookup_middle.
    + intros i Hi Hne. unfold nth_inode. destruct (Z.eqb_spec i 0); [done|]. rewrite Hlook, decide_False by lia. done.
  - by apply (with_inode_clear _ Hbl _ Hino nd Hst).
Qed.

(** ** Directory entries and whole files *)

(** A name in a directory: cut to [DIRSIZ] bytes, or with zeros behind it. *)
Definition dir_entry (inum : Z) (name : list Z) : list Z :=
  dirent_encode (mkdirent inum (take 14 name ++ replicate (14 - length name) 0)).

Lemma str_of_nul w : Forall (fun c => c <> 0) w -> str_of (w ++ [0]) = Some w.
Proof. induction 1 as [|c w Hc _ IH]; [done|]. cbn. destruct (Z.eqb_spec c 0); [done|]. by rewrite IH. Qed.

Lemma wp_entry inum name m X (Q : list Z -> mkst -> Prop) : 0 <= inum < 2 ^ 16 -> Forall (fun c => c <> 0) name -> Q (dir_entry inum name) m -> wp (entry inum name) X Q m.
Proof.
  intros Hi Hn HQ. unfold entry. wstep. change (Z.to_nat DIRSIZ) with 14%nat.
  rewrite (strncpy_spec (replicate 14 0) (name ++ [0]) 14 name) by (by apply str_of_nul || (cbn; lia)). cbn [of_option]. wsteps.
  rewrite xshort_id by done. change (drop 14 (replicate 14 0)) with (@nil Z). by rewrite app_nil_r.
Qed.

Lemma dir_entry_length inum name : length (dir_entry inum name) = 16%nat.
Proof. unfold dir_entry, dirent_encode. cbn [de_inum de_name]. rewrite !length_app, length_take, length_replicate. cbn [length]. lia. Qed.

Lemma dir_entry_bytes inum name : bytes_ok name -> bytes_ok (dir_entry inum name).
Proof.
  intros Hn. unfold dir_entry, dirent_encode. cbn [de_inum de_name]. constructor; [apply is_byte_mod|]. constructor; [apply is_byte_mod|].
  apply Forall_app. split; [by apply Forall_take|]. by apply Forall_replicate.
Qed.

(** A host file that [mkfs] takes: its name and what reading it gives. *)
Record fits (f : list Z * list (list Z)) : Prop := {
  ft_name : Forall (fun c => is_byte c /\ c <> 0 /\ c <> 47) f.1;
  ft_bytes : bytes_ok (concat f.2);
  ft_size : Z.of_nat (length (concat f.2)) <= 138 * 512
}.

Lemma fits_name f : fits f -> bytes_ok (skip_underscore f.1) /\ Forall (fun c => c <> 0) (skip_underscore f.1) /\ existsb (fun c => c =? 47) f.1 = false.
Proof.
  intros [Hn _ _]. assert (forall P : Z -> Prop, (forall c, is_byte c /\ c <> 0 /\ c <> 47 -> P c) -> Forall P (skip_underscore f.1)) as Hs.
  { intros P HP. apply (Forall_impl _ P) in Hn; [|done]. destruct f.1 as [|c l]; [done|]. cbn. destruct (c =? 95); [by apply Forall_cons in Hn as [_ ?]|done]. }
  split; [by apply Hs; intros c (? & _)|]. split; [by apply Hs; intros c (_ & ? & _)|].
  clear Hs. induction Hn as [|c l (_ & _ & Hc) _ IH]; [done|]. cbn. rewrite IH. destruct (Z.eqb_spec c 47); [done|reflexivity].
Qed.

Lemma need_nonneg n : 0 <= n -> 0 <= need n.
Proof. intros Hn. change 0 with (need 0). apply need_mono. lia. Qed.

Lemma total_cons v vs : total (v :: vs) = total vs + need (Z.of_nat (length v.2)).
Proof. unfold total. cbn [sumZ]. lia. Qed.
Lemma total_snoc vs v : total (vs ++ [v]) = total vs + need (Z.of_nat (length v.2)).
Proof. induction vs as [|w vs IH]; cbn [app]; rewrite !total_cons; [done|lia]. Qed.

(** The contents are read and appended in pieces. *)
Lemma wp_chunks m vs ty chunks X (Q : unit -> mkst -> Prop) :
  holds_files m (vs ++ [(ty, [])]) -> Z.of_nat (length vs) + 1 < NINODES -> bytes_ok (concat chunks) -> Z.of_nat (length (concat chunks)) <= 138 * 512 ->
  total (vs ++ [(ty, concat chunks)]) < 4096 -> (forall m', holds_files m' (vs ++ [(ty, concat chunks)]) -> Q tt m') ->
  wp (for_each chunks (fun buf => iappend (Z.of_nat (length vs) + 1) buf)) X Q m.
Proof.
  intros Hh Hlen Hb Hmax Htot HQ.
  eapply wp_for_each with (I := fun r m' => exists done_, chunks = done_ ++ r /\ holds_files m' (vs ++ [(ty, concat done_)])).
  - by exists [].
  - intros c r m' (done_ & Heq & Hh'). assert (concat chunks = (concat done_ ++ c) ++ concat r) as Hc by (by rewrite Heq, concat_app; cbn; rewrite app_assoc).
    assert (<[length vs := (ty, concat done_ ++ c)]> (vs ++ [(ty, concat done_)]) = vs ++ [(ty, concat done_ ++ c)]) as Hins.
    { rewrite insert_app_r_alt by lia. by rewrite Nat.sub_diag. }
    rewrite Hc in Hb, Hmax. apply Forall_app in Hb as [Hb _]. rewrite length_app in Hmax.
    eapply (wp_iappend_files m' _ (length vs) ty (concat done_)); [exact Hh'|by apply list_lookup_middle|rewrite length_app; cbn [length]; lia| | | |].
    + by apply Forall_app in Hb as [_ ?].
    + lia.
    + rewrite Hins. rewrite total_snoc in Htot |- *. cbn [snd] in *. rewrite Hc, (length_app _ (concat r)) in Htot.
      pose proof (need_mono (Z.of_nat (length (concat done_ ++ c))) (Z.of_nat (length (concat done_ ++ c) + length (concat r))) ltac:(lia)). lia.
    + intros m2 Hm2. exists (done_ ++ [c]). split; [by rewrite <- app_assoc|]. rewrite Hins in Hm2. by rewrite concat_app; cbn; rewrite app_nil_r.
  - intros m' (done_ & Heq & Hh'). rewrite app_nil_r in Heq. rewrite <- Heq in Hh'. by apply HQ.
Qed.

Lemma wp_add_file m rd vs f X (Q : unit -> mkst -> Prop) :
  let rd' := rd ++ dir_entry (Z.of_nat (length vs) + 2) (skip_underscore f.1) in
  holds_files m ((T_DIR, rd) :: vs) -> Z.of_nat (length vs) + 2 < NINODES -> fits f -> Z.of_nat (length rd) <= 4096 ->
  total ((T_DIR, rd') :: vs ++ [(T_FILE, concat f.2)]) < 4096 ->
  (forall m', holds_files m' ((T_DIR, rd') :: vs ++ [(T_FILE, concat f.2)]) -> Q tt m') ->
  wp (add_file ROOTINO (f.1, Some f.2)) X Q m.
Proof.
  intros rd' Hh Hlen Hfit Hrd Htot HQ. pose proof (fits_name f Hfit) as (Hnb & Hn0 & Hn47). change NINODES with 200 in *.
  unfold add_file. rewrite Hn47. wstep. eapply wp_ialloc_files; [exact Hh|cbn [length]; change NINODES with 200; lia|by vm_compute|].
  intros m1 Hh1. replace (Z.of_nat (length ((T_DIR, rd) :: vs)) + 1) with (Z.of_nat (length vs) + 2) by (cbn [length]; lia).
  wstep. apply wp_entry; [lia|done|]. set (de := dir_entry _ _) in *. pose proof (dir_entry_length (Z.of_nat (length vs) + 2) (skip_underscore f.1)) as Hde. fold de in Hde.
  rewrite total_cons, total_snoc in Htot. cbn [snd] in Htot. pose proof (need_nonneg (Z.of_nat (length (concat f.2))) ltac:(lia)).
  wstep. change ROOTINO with (Z.of_nat 0 + 1). eapply (wp_iappend_files m1 _ 0 T_DIR rd); [exact Hh1|done| | | | |].
  - cbn [app length]. rewrite length_app. cbn [length]. change NINODES with 200. lia.
  - by apply dir_entry_bytes.
  - rewrite length_app. lia.
  - change (((T_DIR, rd) :: vs) ++ [(T_FILE, [])]) with ((T_DIR, rd) :: vs ++ [(T_FILE, [])]). change (<[0%nat := (T_DIR, rd ++ de)]> ((T_DIR, rd) :: vs ++ [(T_FILE, [])])) with ((T_DIR, rd') :: vs ++ [(T_FILE, [])]).
    rewrite total_cons, total_snoc. cbn [snd length]. change (need (Z.of_nat 0)) with 0. lia.
  - intros m2 Hh2. change (<[0%nat := (T_DIR, rd ++ de)]> (((T_DIR, rd) :: vs) ++ [(T_FILE, [])])) with (((T_DIR, rd') :: vs) ++ [(T_FILE, [])]) in Hh2.
    replace (Z.of_nat (length vs) + 2) with (Z.of_nat (length ((T_DIR, rd') :: vs)) + 1) by (cbn [length]; lia).
    eapply wp_chunks; [exact Hh2|cbn [length]; change NINODES with 200; lia|apply Hfit|apply Hfit| |].
    + rewrite total_snoc, total_cons. cbn [snd]. lia.
    + intros m3 Hh3. by apply HQ.
Qed.

Definition dots : list Z := dir_entry 1 [46] ++ dir_entry 1 [46; 46].
Definition names (fs : list (list Z * list (list Z))) : list Z := concat (imap (fun k f => dir_entry (Z.of_nat k + 2) (skip_underscore f.1)) fs).
Definition contents (fs : list (list Z * list (list Z))) : list (Z * list Z) := (fun f => (T_FILE, concat f.2)) <$> fs.

Lemma names_length fs : length (names fs) = (16 * length fs)%nat.
Proof.
  unfold names. generalize (fun (k : nat) (f : list Z * list (list Z)) => dir_entry_length (Z.of_nat k + 2) (skip_underscore f.1)). intros Hl.
  assert (forall (g : nat -> list Z * list (list Z) -> list Z), (forall k f, length (g k f) = 16%nat) -> length (concat (imap g fs)) = (16 * length fs)%nat) as Hg; [|by apply Hg].
  clear Hl. induction fs as [|f fs IH]; intros g Hg; [done|]. cbn [imap concat length]. rewrite length_app, Hg, IH; [lia|]. intros k f'. apply Hg.
Qed.

Lemma names_snoc fs f : names (fs ++ [f]) = names fs ++ dir_entry (Z.of_nat (length fs) + 2) (skip_underscore f.1).
Proof. unfold names. rewrite imap_app, concat_app. cbn. by rewrite Nat.add_0_r, app_nil_r. Qed.

Lemma total_contents fs : total (contents fs) = nmeta + sumZ (fun f => need (Z.of_nat (length (concat f.2)))) fs.
Proof. unfold total, contents. by rewrite sumZ_fmap. Qed.

(** The blocks of the image that are used: for the root directory and the
    files. *)
Definition image_blocks (fs : list (list Z * list (list Z))) : Z :=
  total (contents fs) + need (16 * (Z.of_nat (length fs) + 2)).

Lemma image_blocks_prefix fs fs' : image_blocks fs <= image_blocks (fs ++ fs').
Proof.
  unfold image_blocks. rewrite !total_contents. assert (forall l, sumZ (fun f : list Z * list (list Z) => need (Z.of_nat (length (concat f.2)))) (fs ++ l) =
    sumZ (fun f => need (Z.of_nat (length (concat f.2)))) fs + sumZ (fun f => need (Z.of_nat (length (concat f.2)))) l) as ->.
  { intros l. induction fs as [|f fs IH]; cbn [app sumZ]; [done|lia]. }
  assert (0 <= sumZ (fun f : list Z * list (list Z) => need (Z.of_nat (length (concat f.2)))) fs') by (apply sumZ_nonneg; intros; apply need_nonneg; lia).
  pose proof (need_mono (16 * (Z.of_nat (length fs) + 2)) (16 * (Z.of_nat (length (fs ++ fs')) + 2)) ltac:(rewrite length_app; lia)). lia.
Qed.

Lemma wp_add_files m fs X (Q : unit -> mkst -> Prop) :
  holds_files m [(T_DIR, dots)] -> Z.of_nat (length fs) + 1 < NINODES -> Forall fits fs -> image_blocks fs < 4096 ->
  (forall m', holds_files m' ((T_DIR, dots ++ names fs) :: contents fs) -> Q tt m') ->
  wp (for_each ((fun f => (f.1, Some f.2)) <$> fs) (add_file ROOTINO)) X Q m.
Proof.
  intros Hh Hlen Hfit Htot HQ.
  eapply wp_for_each with (I := fun r m' => exists fs1 fs2, fs = fs1 ++ fs2 /\ r = (fun f => (f.1, Some f.2)) <$> fs2 /\ holds_files m' ((T_DIR, dots ++ names fs1) :: contents fs1)).
  - by exists [], fs.
  - intros x r m' (fs1 & fs2 & Hfs & Hr & Hh'). destruct fs2 as [|f fs2]; [done|]. injection Hr as -> ->.
    assert (fs = (fs1 ++ [f]) ++ fs2) as Hfs' by (by rewrite <- app_assoc). assert (length (contents fs1) = length fs1) as Hl by (unfold contents; by rewrite length_fmap).
    assert (length fs = length fs1 + S (length fs2))%nat as Hlf by (rewrite Hfs, length_app; done). change NINODES with 200 in *.
    assert (dots ++ names fs1 ++ dir_entry (Z.of_nat (length (contents fs1)) + 2) (skip_underscore f.1) = dots ++ names (fs1 ++ [f])) as Hn by (by rewrite names_snoc, Hl).
    assert (contents fs1 ++ [(T_FILE, concat f.2)] = contents (fs1 ++ [f])) as Hc by (unfold contents; by rewrite fmap_app).
    assert (length (dots ++ names (fs1 ++ [f])) = (32 + 16 * length (fs1 ++ [f]))%nat) as Hld by (rewrite length_app, names_length; done).
    eapply wp_add_file; [exact Hh'|rewrite Hl; change NINODES with 200; lia| | | |].
    + rewrite Hfs in Hfit. apply Forall_app in Hfit as [_ Hfit]. by apply Forall_cons in Hfit as [? _].
    + rewrite length_app, names_length. change (length dots) with 32%nat. lia.
    + rewrite <- app_assoc, Hn, Hc. rewrite total_cons. cbn [snd]. rewrite Hld. pose proof (image_blocks_prefix (fs1 ++ [f]) fs2) as Hp. rewrite <- Hfs' in Hp.
      unfold image_blocks in Hp at 1. replace (Z.of_nat (32 + 16 * length (fs1 ++ [f]))) with (16 * (Z.of_nat (length (fs1 ++ [f])) + 2)) by lia. lia.
    + intros m2 Hh2. exists (fs1 ++ [f]), fs2. split; [done|]. split; [done|]. by rewrite <- app_assoc, Hn, Hc in Hh2.
  - intros m' (fs1 & fs2 & Hfs & Hr & Hh'). symmetry in Hr. apply fmap_nil_inv in Hr. subst fs2. rewrite app_nil_r in Hfs. subst fs1. by apply HQ.
Qed.

(** ** The empty image *)

Lemma wp_zero_fill n m X (Q : unit -> mkst -> Prop) : img m = [] -> (forall im, im = replicate n zeroes -> Q tt (m <| img := im |>)) ->
  wp (for_each (seq 0 n) (fun i => wsect (Z.of_nat i) zeroes)) X Q m.
Proof.
  intros Hm HQ. eapply wp_for_each with (I := fun r m' => exists k, r = seq k (n - k) /\ (k <= n)%nat /\ m' = m <| img := replicate k zeroes |>).
  - exists 0%nat. rewrite Nat.sub_0_r. split; [done|]. split; [lia|]. by destruct m; cbn in *; rewrite Hm.
  - intros i r m' (k & Hr & Hk & ->). destruct (n - k)%nat as [|j] eqn:Hj; [done|]. injection Hr as -> ->. unfold wsect. wsteps.
    exists (S k). split; [f_equal; lia|]. split; [lia|]. unfold setter. cbn [img]. f_equal. rewrite Nat2Z.id, length_replicate. replace (S k - k)%nat with 1%nat by lia.
    rewrite insert_app_r_alt by (by rewrite length_replicate). rewrite length_replicate, Nat.sub_diag. cbn [replicate list_insert insert].
    by rewrite <- replicate_cons_app.
  - intros m' (k & Hr & Hk & ->). assert (n - k = 0)%nat as Hz by (by destruct (n - k)%nat). replace k with n by lia. by apply HQ.
Qed.

Lemma blank_content im b : im = replicate (Z.to_nat FSSIZE) zeroes -> 0 <= b < FSSIZE -> content (mount im) b = zeroes.
Proof. intros -> Hb. rewrite content_mount, nth_lookup, lookup_replicate_2 by lia. done. Qed.

Lemma zeroes_block : is_block zeroes.
Proof. split; [done|]. by apply Forall_replicate. Qed.

Lemma sb_block_block : is_block sb_block.
Proof. unfold sb_block. split; [by rewrite length_put_words|]. apply bytes_ok_put_words, zeroes_block. Qed.

Lemma good_start im : im = replicate (Z.to_nat FSSIZE) zeroes -> good (mkmk (<[Z.to_nat 1 := sb_block]> im) 1 nmeta) [].
Proof.
  intros Him. assert (sized im /\ Forall is_block im) as Hb by (rewrite Him; split; [apply length_replicate|apply Forall_replicate, zeroes_block]).
  assert (forall b, 0 <= b < FSSIZE -> content (mount (<[Z.to_nat 1 := sb_block]> im)) b = if b =? 1 then sb_block else zeroes) as Hc.
  { intros b Hb2. rewrite content_write by (apply Hb || (change FSSIZE with 50000 in *; lia)). by rewrite blank_content. }
  clear Him.
  split; cbn [img freeblock freeinode fmap list_fmap].
  - split; try done.
    + apply blocks_write; [done|apply sb_block_block].
    + intros n Hn. change nmeta with 71 in Hn. rewrite Hc by lia. by destruct (Z.eqb_spec n 1); [lia|].
  - done.
  - done.
  - done.
  - intros i Hi. pose proof (iblock_range i Hi). rewrite Hc by (change FSSIZE with 50000; lia). destruct (Z.eqb_spec (IBLOCK i new_sb) 1); [lia|].
    rewrite load_zeroes. unfold nth_inode. by destruct (i =? 0).
  - split; [by rewrite Hc|]. intros b Hb2 Hne _. change nmeta with 71 in Hb2. rewrite Hc by (change FSSIZE with 50000; lia). by destruct (Z.eqb_spec b 1).
Qed.

(** The bitmap block. *)
Lemma bits_spec n : (n <= 4096)%nat -> is_block (bits (Z.of_nat n)) /\ forall b, 0 <= b < BPB -> bit_at (bits (Z.of_nat n)) b = (b <? Z.of_nat n).
Proof.
  unfold bits. rewrite Nat2Z.id. induction n as [|n IH]; intros Hn.
  - split; [exact zeroes_block|]. intros b Hb. cbn [seq fold_left]. unfold bit_at. rewrite byte_at_zeroes, Z.land_0_l. change (negb (0 =? 0)) with false. change (Z.of_nat 0) with 0. by destruct (Z.ltb_spec b 0); [lia|].
  - rewrite seq_S, fold_left_app. cbn [fold_left plus]. destruct IH as [IH1 IH2]; [lia|].
    destruct (bit_set_spec _ IH1 (Z.of_nat n)) as [H1 H2]; [change BPB with 4096; lia|]. split; [done|]. intros b Hb. rewrite H2, IH2 by done.
    destruct (Z.eqb_spec b (Z.of_nat n)), (Z.ltb_spec b (Z.of_nat n)), (Z.ltb_spec b (Z.of_nat (S n))); lia || done.
Qed.

(** ** The finished image *)

(** What the kernel finds: an empty log, a bitmap, the root directory with
    its entries, the files with their bytes in trees of their own, and free
    inodes behind them. *)
Record image_of (fs : list (list Z * list (list Z))) (t : fsstate) : Prop := {
  im_disk : Z.of_nat (length (disk t)) = sb_size (sb t) /\ Forall is_block (disk t);
  im_layout : layout (sb t) 2 LOGSIZE;
  im_log : is_head (disk_at t 2) [] /\ sb_log (disk_at t 1) 2 LOGSIZE;
  im_meta : meta_used t;
  im_unused : forall b, image_blocks fs <= b < sb_size (sb t) -> used t b = false;
  im_root : itype (dinode_at t 1) = T_DIR /\ exists n, file_data t 1 = dots ++ names fs ++ replicate n 0;
  im_files : forall k f, fs !! k = Some f ->
    let nd := dinode_at t (Z.of_nat k + 2) in
    itype nd = T_FILE /\ inlink nd = 1 /\ no_holes t nd /\ file_data t (Z.of_nat k + 2) = concat f.2;
  im_maps : forall i, 1 <= i < Z.of_nat (length fs) + 2 -> map_ok t (iaddrs (dinode_at t i));
  im_apart : forall i j sl sl', 1 <= i < Z.of_nat (length fs) + 2 -> 1 <= j < Z.of_nat (length fs) + 2 -> slot_ok sl -> slot_ok sl' ->
    slot_addr t (iaddrs (dinode_at t i)) sl <> 0 -> slot_addr t (iaddrs (dinode_at t i)) sl = slot_addr t (iaddrs (dinode_at t j)) sl' -> i = j;
  im_free : forall i, Z.of_nat (length fs) + 2 <= i < sb_ninodes (sb t) -> itype (dinode_at t i) = 0
}.

Section finish.
Context (m : mkst) (fl : list ifile) (root : ifile) (Hg : good m fl) (Hroot : fl !! 0%nat = Some root) (Hfew : Z.of_nat (length fl) < NINODES).
Context (Hsmall : Z.of_nat (length (f_data root)) <= 4096) (Hfit : freeblock m < 4096).

Definition root_size : Z := (Z.of_nat (length (f_data root)) / BSIZE + 1) * BSIZE.
Definition root_inode : inode := (inode_of root) <| isize := root_size |>.
Definition final_image : list (list Z) := <[Z.to_nat 58 := bits (freeblock m)]> (with_inode (img m) 1 root_inode).

Lemma root_size_range : Z.of_nat (length (f_data root)) <= root_size < 2 ^ 16.
Proof using All.
  unfold root_size. change BSIZE with 512. pose proof (Z.div_mod (Z.of_nat (length (f_data root))) 512). pose proof (Z.mod_pos_bound (Z.of_nat (length (f_data root))) 512).
  pose proof (Z.div_le_upper_bound (Z.of_nat (length (f_data root))) 512 8). lia.
Qed.

Lemma root_storable : storable root_inode.
Proof using All.
  pose proof root_size_range. pose proof (go_filled _ _ Hg 0 root Hroot) as (_ & _ & Ht).
  eapply (tree_storable _ _ _ _ 0 (f_addrs root) (f_type root) root_size); [apply (go_forest _ _ Hg)|by rewrite list_lookup_fmap, Hroot|done|lia].
Qed.

Lemma root_blocks : sized (img m) /\ Forall is_block (img m).
Proof using All. apply (fo_blocks _ _ _ _ (go_forest _ _ Hg)). Qed.

Lemma one_inode : 0 <= 1 < NINODES.
Proof using. done. Qed.

Lemma bits_final : is_block (bits (freeblock m)) /\ forall b, 0 <= b < BPB -> bit_at (bits (freeblock m)) b = (b <? freeblock m).
Proof using All.
  pose proof (fo_range _ _ _ _ (go_forest _ _ Hg)) as Hr. pose proof nmeta_pos.
  rewrite <- (Z2Nat.id (freeblock m)) by lia. apply bits_spec. lia.
Qed.

Lemma final_blocks : sized final_image /\ Forall is_block final_image.
Proof using All.
  apply blocks_write; [|apply bits_final]. apply with_inode_blocks; [exact root_blocks|exact one_inode|exact root_storable].
Qed.

Lemma final_content b : 0 <= b -> ~ (32 <= b <= 58) -> content (mount final_image) b = content (mount (img m)) b.
Proof using All.
  intros Hb Hn. unfold final_image. rewrite content_write by (done || apply (with_inode_blocks _ root_blocks _ one_inode _ root_storable)).
  destruct (Z.eqb_spec b 58); [lia|]. apply (with_inode_other _ root_blocks _ one_inode _ root_storable); lia.
Qed.

Lemma final_forest : forest final_image (freeblock m) (f_addrs <$> fl) (f_data <$> fl) /\
  forall k f sl, fl !! k = Some f -> slot_ok sl -> slot_addr (mount final_image) (f_addrs f) sl = slot_addr (mount (img m)) (f_addrs f) sl.
Proof using All.
  destruct (forest_meta (img m) final_image _ _ _ (go_forest _ _ Hg) final_blocks) as [Hf Hs].
  { intros b Hb. change nmeta with 71 in Hb. apply final_content; lia. }
  split; [done|]. intros k f sl Hk Hok. apply (Hs k); [by rewrite list_lookup_fmap, Hk|done].
Qed.

Lemma final_sb : sb (mount final_image) = new_sb.
Proof using All. apply mount_sb. rewrite final_content by lia. apply (go_meta _ _ Hg). Qed.

Lemma final_inode i : 0 <= i < NINODES -> dinode_at (mount final_image) i = if i =? 1 then root_inode else nth_inode fl i.
Proof using All.
  intros Hi. pose proof (iblock_range i Hi) as Hib. unfold dinode_at. rewrite final_sb. unfold final_image.
  rewrite content_write by (lia || apply (with_inode_blocks _ root_blocks _ one_inode _ root_storable) || done).
  destruct (Z.eqb_spec (IBLOCK i new_sb) 58); [lia|].
  set (fl1 := <[0%nat := mkif (f_type root) (f_addrs root) (f_data root ++ replicate (Z.to_nat root_size - length (f_data root)) 0)]> fl).
  pose proof root_size_range as Hrs. pose proof (lookup_lt_Some _ _ _ Hroot) as Hlt.
  assert (nth_inode fl1 1 = root_inode) as Hr1.
  { etransitivity; [apply (nth_inode_at fl1 0); apply list_lookup_insert_eq; exact Hlt|]. unfold root_inode, inode_of. cbn [f_type f_addrs f_data].
    rewrite length_app, length_replicate. unfold setter. cbn. f_equal. lia. }
  assert (has_inodes (with_inode (img m) 1 root_inode) fl1) as Hh.
  { apply (with_inode_inodes _ root_blocks _ one_inode _ root_storable fl); [apply (go_inodes _ _ Hg)|by rewrite Hr1|]. intros j Hj Hne. apply nth_inode_insert; [done|lia]. }
  rewrite Hh by done. destruct (Z.eqb_spec i 1) as [->|Hne]; [done|]. apply nth_inode_insert; [done|lia].
Qed.

Lemma final_used b : 0 <= b < 4096 -> used (mount final_image) b = (b <? freeblock m).
Proof using All.
  intros Hb. unfold used. rewrite final_sb. unfold BBLOCK. change BPB with 4096. change (sb_bmapstart new_sb) with 58. rewrite Z.div_small, Z.mod_small by lia.
  unfold final_image. rewrite content_write by (done || apply (with_inode_blocks _ root_blocks _ one_inode _ root_storable)). cbn [Z.add Z.eqb Pos.eqb].
  apply bits_final. change BPB with 4096. lia.
Qed.

Lemma final_unused b : freeblock m <= b < FSSIZE -> used (mount final_image) b = false.
Proof using All.
  intros Hb. pose proof (fo_range _ _ _ _ (go_forest _ _ Hg)) as Hr. change nmeta with 71 in Hr. destruct (Z.lt_ge_cases b 4096) as [Hlt|Hge].
  - rewrite final_used by lia. by destruct (Z.ltb_spec b (freeblock m)); [lia|].
  - change FSSIZE with 50000 in Hb. unfold used. rewrite final_sb. unfold BBLOCK. change BPB with 4096. change (sb_bmapstart new_sb) with 58.
    pose proof (Z.div_le_lower_bound b 4096 1). pose proof (Z.div_lt_upper_bound b 4096 13). rewrite final_content by lia.
    destruct (go_meta _ _ Hg) as [_ Hz]. rewrite Hz by (change nmeta with 71; lia). unfold bit_at. by rewrite byte_at_zeroes.
Qed.

(** The files by their numbers. *)
Lemma final_file i : 1 <= i < Z.of_nat (length fl) + 1 -> exists f, fl !! Z.to_nat (i - 1) = Some f /\ iaddrs (dinode_at (mount final_image) i) = f_addrs f /\
  (i <> 1 -> dinode_at (mount final_image) i = inode_of f).
Proof using All.
  intros Hi. destruct (lookup_lt_is_Some_2 fl (Z.to_nat (i - 1))) as [f Hf]; [lia|]. exists f. split; [done|].
  rewrite final_inode by lia. destruct (Z.eqb_spec i 1) as [->|Hne].
  - change (Z.to_nat (1 - 1)) with 0%nat in Hf. assert (f = root) as -> by congruence. by split.
  - unfold nth_inode. destruct (Z.eqb_spec i 0); [lia|]. rewrite Hf. by split.
Qed.

Lemma final_bytes k f n : fl !! k = Some f -> (length (f_data f) <= n)%nat -> Z.of_nat n <= MAXFILE * BSIZE ->
  file_bytes (mount final_image) (f_addrs f) 0 n = f_data f ++ replicate (n - length (f_data f)) 0.
Proof using All.
  intros Hk Hn Hmax. pose proof (proj1 final_forest) as Hf. apply list_eq. intros j. rewrite file_bytes_lookup. destruct (decide (j < n)%nat) as [Hj|Hj].
  - rewrite (fo_bytes _ _ _ _ Hf k (f_addrs f) (f_data f)) by (rewrite ?list_lookup_fmap, ?Hk; done || lia).
    replace (Z.to_nat (0 + Z.of_nat j)) with j by lia. rewrite nth_lookup, lookup_app. destruct (f_data f !! j) eqn:Hd; [done|].
    apply lookup_ge_None in Hd. by rewrite lookup_replicate_2 by lia.
  - symmetry. apply lookup_ge_None. rewrite length_app, length_replicate. lia.
Qed.

Lemma final_map i : 1 <= i < Z.of_nat (length fl) + 1 -> map_ok (mount final_image) (iaddrs (dinode_at (mount final_image) i)).
Proof using All.
  intros Hi. destruct (final_file i Hi) as (f & Hf & -> & _). destruct final_forest as [Hfo _]. assert ((f_addrs <$> fl) !! Z.to_nat (i - 1) = Some (f_addrs f)) as HA by (by rewrite list_lookup_fmap, Hf).
  split.
  - by apply (fo_shape _ _ _ _ Hfo _ _ HA).
  - intros sl Hok Hne. pose proof (fo_addr _ _ _ _ Hfo _ _ _ HA Hok Hne) as Hr. rewrite final_used by (pose proof nmeta_pos; lia). rewrite final_sb.
    unfold is_data. change (data_start new_sb) with 71. change (sb_size new_sb) with 50000. change nmeta with 71 in Hr. split; [lia|]. destruct (Z.ltb_spec (slot_addr (mount final_image) (f_addrs f) sl) (freeblock m)); [done|lia].
  - intros sl sl' Hok Hok' Hne Heq. by apply (fo_inj _ _ _ _ Hfo _ _ _ _ sl sl' HA HA Hok Hok' Hne Heq).
Qed.

Lemma final_image_of fs : view <$> fl = (T_DIR, dots ++ names fs) :: contents fs -> freeblock m = image_blocks fs -> image_of fs (mount final_image).
Proof using All.
  intros Hv Hfb. assert (length fl = S (length fs)) as Hlen by (apply (f_equal length) in Hv; unfold contents in Hv; cbn [length] in Hv; by rewrite !length_fmap in Hv).
  assert (view root = (T_DIR, dots ++ names fs)) as Hvr 
    by (apply (f_equal (lookup 0%nat)) in Hv; rewrite list_lookup_fmap, Hroot in Hv; apply (inj Some) in Hv; exact Hv).
  assert (f_type root = T_DIR) as Hrt by exact (f_equal fst Hvr). assert (f_data root = dots ++ names fs) as Hrd by exact (f_equal snd Hvr). pose proof final_blocks as [Hsz Hbl]. destruct final_forest as [Hfo Hsl]. pose proof root_size_range as Hrs.
  pose proof (final_inode 1 one_inode) as Hr1. cbn [Z.eqb Pos.eqb] in Hr1. destruct (go_meta _ _ Hg) as [Hm1 Hm2]. split.
  - rewrite final_sb. split; [|done]. change (disk (mount final_image)) with final_image. unfold sized in Hsz. rewrite Hsz. by vm_compute.
  - rewrite final_sb. split; vm_compute; intuition discriminate.
  - change (disk_at (mount final_image)) with (content (mount final_image)). rewrite !final_content by lia. rewrite Hm1, Hm2 by (done || lia). split; [|by vm_compute].
    split; [exact zeroes_block|]. by vm_compute.
  - intros n Hn. rewrite final_sb in Hn. change (data_start new_sb) with 71 in Hn. rewrite final_used by lia. pose proof (fo_range _ _ _ _ Hfo) as Hr. change nmeta with 71 in Hr.
    by destruct (Z.ltb_spec n (freeblock m)); [|lia].
  - intros b Hb. rewrite final_sb in Hb. apply final_unused. rewrite Hfb. exact Hb.
  - unfold file_data. rewrite Hr1. split; [done|]. eexists. cbn [iaddrs isize root_inode inode_of setter].
    rewrite (final_bytes 0 root) by (done || lia || (change (MAXFILE * BSIZE) with 1082201088; lia)). by rewrite Hrd, <- app_assoc.
  - intros k f Hk. assert (fl !! S k = Some (mkif T_FILE (f_addrs (default root (fl !! S k))) (concat f.2))) as Hfk.
    { apply (f_equal (lookup (S k))) in Hv. rewrite list_lookup_fmap in Hv.
      change (((T_DIR, dots ++ names fs) :: contents fs) !! S k) with (contents fs !! k) in Hv. unfold contents in Hv. rewrite list_lookup_fmap, Hk in Hv.
      destruct (fl !! S k) as [g|]; [|done]. cbn in *. injection Hv as Ht Hd. destruct g. cbn in *. by subst. }
    set (g := mkif _ _ _) in Hfk. pose proof (lookup_lt_Some _ _ _ Hk) as Hlt. destruct (go_filled _ _ Hg _ _ Hfk) as ((Hfl1 & _) & Hmax & _). cbn [f_data f_addrs g] in Hmax, Hfl1.
    assert (dinode_at (mount final_image) (Z.of_nat k + 2) = inode_of g) as Hnd.
    { rewrite final_inode by (change NINODES with 200 in *; lia). destruct (Z.eqb_spec (Z.of_nat k + 2) 1); [lia|].
      replace (Z.of_nat k + 2) with (Z.of_nat (S k) + 1) by lia. by apply nth_inode_at. }
    cbn zeta. unfold file_data. rewrite Hnd. split; [done|]. split; [done|]. split.
    + intros j Hj. cbn [isize inode_of setter f_data g] in Hj. cbn [iaddrs inode_of setter]. change BSIZE with 512.
      pose proof (Z.div_mod j 512). pose proof (Z.mod_pos_bound j 512). assert (0 <= j / 512 < 138) by (split; [apply Z.div_pos; lia|apply Z.div_lt_upper_bound; lia]).
      rewrite (Hsl (S k) g) by (done || apply bn_slot_leaf; change MAXFILE with 2113674; lia). apply Hfl1; lia.
    + cbn [isize iaddrs inode_of setter]. rewrite Nat2Z.id, (final_bytes (S k) g) by (done || (change (MAXFILE * BSIZE) with 1082201088; cbn [f_data g]; lia)).
      rewrite Nat.sub_diag. apply app_nil_r.
  - intros i Hi. apply final_map. lia.
  - intros i j sl sl' Hi Hj Hok Hok'. destruct (final_file i) as (f & Hf & -> & _); [lia|]. destruct (final_file j) as (f' & Hf' & -> & _); [lia|]. intros Hne Heq.
    assert (Z.to_nat (i - 1) = Z.to_nat (j - 1)); [|lia].
    apply (fo_inj _ _ _ _ Hfo _ _ (f_addrs f) (f_addrs f') sl sl'); rewrite ?list_lookup_fmap, ?Hf, ?Hf'; done.
  - intros i Hi. rewrite final_sb in Hi. change (sb_ninodes new_sb) with 200 in Hi. rewrite final_inode by (change NINODES with 200; lia). destruct (Z.eqb_spec i 1); [lia|].
    unfold nth_inode. destruct (Z.eqb_spec i 0); [lia|]. by rewrite lookup_ge_None_2 by lia.
Qed.
End finish.

Lemma wp_dots m k X (Q : unit -> mkst -> Prop) : holds_files m [(T_DIR, [])] -> (forall m', holds_files m' [(T_DIR, dots)] -> wp k X Q m') ->
  wp (de <~ entry ROOTINO [46]; iappend ROOTINO de ;;; de <~ entry ROOTINO [46; 46]; iappend ROOTINO de ;;; k) X Q m.
Proof.
  intros Hh HQ. change ROOTINO with 1. change (iappend 1) with (iappend (Z.of_nat 0 + 1)). assert (forall l d, bytes_ok l -> bytes_ok (dir_entry 1 l) /\ length (d ++ dir_entry 1 l) = (length d + 16)%nat) as Hde.
  { intros l d Hl. split; [by apply dir_entry_bytes|]. by rewrite length_app, dir_entry_length. }
  destruct (Hde [46] []) as [Hb1 Hl1]; [by repeat constructor|]. destruct (Hde [46; 46] (dir_entry 1 [46])) as [Hb2 Hl2]; [by repeat constructor|].
  wstep. apply wp_entry; [by vm_compute|by repeat constructor|]. wstep.
  eapply (wp_iappend_files m _ 0 T_DIR []); [exact Hh|done|done|done|rewrite Hl1; cbn; lia|by vm_compute|]. intros m1 Hh1.
  wstep. apply wp_entry; [by vm_compute|by repeat constructor|]. wstep.
  eapply (wp_iappend_files m1 _ 0 T_DIR (dir_entry 1 [46])); [exact Hh1|done|done|done|rewrite Hl2, dir_entry_length; lia|by vm_compute|]. intros m2 Hh2. by apply HQ.
Qed.

(** The rest of [main]: the size of the root directory and the bitmap. *)
Lemma wp_finish m fs X (Q : unit -> mkst -> Prop) :
  holds_files m ((T_DIR, dots ++ names fs) :: contents fs) -> Z.of_nat (length fs) + 1 < NINODES -> image_blocks fs < 4096 ->
  (forall m', image_of fs (mount (img m')) -> Q tt m') ->
  wp (din <~ rinode ROOTINO;
      let off := xint (isize din) in
      let off := (off / BSIZE + 1) * BSIZE in
      winode ROOTINO (din <| isize := xint off |>) ;;;
      used <~ gets freeblock;
      balloc used) X Q m.
Proof.
  intros Hh Hlen Htot HQ. pose proof (holds_total _ _ Hh) as Hfb. rewrite total_cons in Hfb. cbn [snd] in Hfb. destruct Hh as (fl & Hg & Hv).
  assert (Z.of_nat (length (dots ++ names fs)) = 16 * (Z.of_nat (length fs) + 2)) as Hld by (rewrite length_app, names_length; change (length dots) with 32%nat; lia).
  rewrite Hld in Hfb. assert (freeblock m < 4096) as Hfit by (unfold image_blocks in Htot; lia).
  assert (length fl = S (length fs)) as Hlf by (apply (f_equal length) in Hv; unfold contents in Hv; cbn [length] in Hv; by rewrite !length_fmap in Hv).
  destruct (lookup_lt_is_Some_2 fl 0) as [root Hroot]; [lia|].
  assert (f_data root = dots ++ names fs) as Hrd by (apply (f_equal (lookup 0%nat)) in Hv; rewrite list_lookup_fmap, Hroot in Hv; apply (inj Some) in Hv; exact (f_equal snd Hv)).
  change NINODES with 200 in Hlen. assert (Z.of_nat (length (f_data root)) <= 4096) as Hsmall by (rewrite Hrd, Hld; lia).
  assert (Z.of_nat (length fl) < NINODES) as Hfew by (change NINODES with 200; lia). pose proof (root_blocks m fl root Hg Hroot Hfew Hsmall Hfit) as [Hsz _].
  pose proof (root_size_range m fl root Hg Hroot Hfew Hsmall Hfit) as Hrs.
  wstep. eapply wp_rinode; [exact Hsz|apply (go_inodes _ _ Hg)|done|]. change (nth_inode fl ROOTINO) with (nth_inode fl (Z.of_nat 0 + 1)).
  rewrite (nth_inode_at _ _ _ Hroot). cbn [isize inode_of setter]. rewrite (xint_id (Z.of_nat (length (f_data root)))) by lia. fold (root_size root). cbn zeta.
  rewrite (xint_id (root_size root)) by lia. wstep. apply wp_winode; [done|done|]. wsteps. unfold balloc. cbn [freeblock setter]. change (BSIZE * 8) with 4096.
  destruct (Z.ltb_spec (freeblock m) 4096); [|lia]. cbn [negb]. apply wp_wsect; [|by vm_compute|].
  { apply (with_inode_blocks _ (root_blocks m fl root Hg Hroot Hfew Hsmall Hfit) _ one_inode _ (root_storable m fl root Hg Hroot Hfew Hsmall Hfit)). }
  apply HQ. apply (final_image_of m fl root Hg Hroot Hfew Hsmall Hfit fs Hv). unfold image_blocks. lia.
Qed.

Lemma wp_make_image fs s X :
  Forall fits fs -> Z.of_nat (length fs) + 1 < NINODES -> image_blocks fs < 4096 ->
  wp (make_image ((fun f => (f.1, Some f.2)) <$> fs)) X (fun _ m => image_of fs (mount (img m))) s.
Proof.
  intros Hfit Hlen Htot. unfold make_image, main. do 3 wstep. apply (wp_zero_fill (Z.to_nat FSSIZE)); [reflexivity|]. intros im Him. wstep.
  apply wp_wsect; [by cbn [img setter]; rewrite Him; apply length_replicate|done|]. wstep. eapply (wp_ialloc_files _ []); [exists []; split; [exact (good_start im Him)|done]|done|done|].
  intros m1 Hh1. change (Z.of_nat (length []) + 1) with ROOTINO. change (negb (ROOTINO =? ROOTINO)) with false. cbn iota.
  apply wp_dots; [exact Hh1|]. intros m2 Hh2. wstep. eapply wp_add_files; [exact Hh2|done|done|done|]. intros m3 Hh3. by eapply wp_finish.
Qed.

Lemma wp_returns {S} (c : M S unit) (P : S -> Prop) s : wp c never (fun _ s' => P s') s -> exists s', c s = Ok (tt, s') /\ P s'.
Proof. unfold wp. destruct (c s) as [[[] s']|e]; [|done]. intros HP. by exists s'. Qed.

(** C16: For host files with plain names of which none is larger than the
    direct and singly indirect blocks hold, that fit into the inodes and the
    first bitmap block, [mkfs] makes an image on which the kernel finds a file
    system: the log is empty, the bitmap marks the blocks in use, the root
    directory lists the files in order, each file has the bytes of the host's
    file, no block belongs to two files, and the other inodes are free. *)
Theorem make_image_correct fs s :
  Forall fits fs -> Z.of_nat (length fs) + 1 < NINODES -> image_blocks fs < 4096 ->
  exists m, make_image ((fun f => (f.1, Some f.2)) <$> fs) s = Ok (tt, m) /\ image_of fs (mount (img m)).
Proof. intros Hfit Hlen Htot. by apply wp_returns, wp_make_image. Qed.

(** Two files, one of them with an underscore before its name. *)
Definition host : list (list Z * list (list Z)) := [([95; 99; 97; 116], [[1; 2; 3]; [4]]); ([82], [])].

Lemma make_image_correct_witness : exists m, make_image ((fun f => (f.1, Some f.2)) <$> host) (mkmk [] 0 0) = Ok (tt, m) /\ image_of host (mount (img m)).
Proof.
  apply (make_image_correct host (mkmk [] 0 0)); [|vm_compute; reflexivity|vm_compute; reflexivity].
  repeat constructor; cbn; lia || discriminate.
Defined.
