(* ===== verification/Hw.v ===== *)
(** * The devices the kernel sets up when it starts

    One record for what [mp.c], [lapic.c], [ioapic.c] and [picirq.c] touch:
    low memory, the kernel's variables about processors, the log of writes to
    ports and to the local APICs, the registers of the I/O APIC, and the
    clock chip.  What a device answers is a field of the record. *)
From Stdlib Require Import ZArith Lia.
From stdpp Require Import base list gmap strings.
From S2P Require Import Prelude Params Cstring.
#[local] Open Scope Z_scope.
#[local] Open Scope kernel_scope.

Record hwst := mkhw {
  low : mem;                  (* low memory, at kernel addresses *)
  apicids : list Z;           (* cpus[0 .. ncpu-1].apicid *)
  ioapicid : Z;
  lapic : Z;                  (* the pointer; 0 before mpinit *)
  ports : list (Z * Z);       (* the writes to ports, in order *)
  imcr : Z;                   (* what port 0x23 reads *)
  com1 : Z;                   (* the status of the serial port *)
  me : Z;                     (* the APIC id of the CPU that executes *)
  lver : Z;                   (* the version register of the local APICs *)
  llog : list (Z * Z * Z);    (* the writes to local APICs: whose, index, value *)
  icrlo : list Z;             (* what the next reads of ICRLO give; then idle *)
  isel : Z;                   (* the register the I/O APIC's window shows *)
  iregs : gmap Z Z;           (* the registers of the I/O APIC *)
  csel : Z;                   (* the register the clock chip's window shows *)
  rtc : nat -> Z -> Z;        (* the registers of the clock chip, at each read *)
  now : nat                   (* the reads of it so far *)
}.
#[export] Instance eta_hwst : Eta hwst := fun s =>
  mkhw (low s) (apicids s) (ioapicid s) (lapic s) (ports s) (imcr s) (com1 s) (me s) (lver s) (llog s) (icrlo s)
    (isel s) (iregs s) (csel s) (rtc s) (now s).

Ltac fields :=
  cbv beta iota delta [setter low apicids ioapicid lapic ports imcr com1 me lver llog icrlo isel iregs csel rtc now].

Definition ncpu (s : hwst) : Z := Z.of_nat (length (apicids s)).

Abbreviation CMOS_PORT := 0x70%Z.
Abbreviation CMOS_RETURN := 0x71%Z.

(** A write to a port: it is logged, and port 0x70 selects a register of the
    clock chip. *)
Definition outb (port v : Z) : M hwst unit :=
  modify (fun s => s <| ports ::= fun l => l ++ [(port, u8 v)] |> <| csel ::= fun c => if port =? CMOS_PORT then u8 v else c |>).

Definition rd32 (m : mem) (a : Z) : Z := m a + 256 * (m (a + 1) + 256 * (m (a + 2) + 256 * m (a + 3))).
Definition rd16 (m : mem) (a : Z) : Z := m a + 256 * m (a + 1).
(** The bytes of [l] from [a] on. *)
Definition place_bytes (a : Z) (l : list Z) (m : mem) : mem :=
  fun x => if (a <=? x) && (x <? a + Z.of_nat (length l)) then nth (Z.to_nat (x - a)) l 0 else m x.
Definition le16 (v : Z) : list Z := [u8 v; u8 (v / 256)].
Definition le32 (v : Z) : list Z := [u8 v; u8 (v / 256); u8 (v / 65536); u8 (v / 16777216)].

(** The devices before the kernel runs, with low memory [m], on the CPU with
    APIC id [id]. *)
Definition hw_start (m : mem) (id : Z) : hwst := mkhw m [] 0 0 [] 0 0x60 id 0x50014 [] [] 0 ∅ 0 (fun _ _ => 0) 0.
