(* ===== verification/Boot.v ===== *)
(** * The boot loader ([bootmain.c])

    It runs before the kernel, on physical memory and the ports of the first
    drive (the model of [Ide]), and reads the kernel, an ELF file that starts
    at sector 1.  [bootmain] yields the entry point it jumps to, or [None]
    where it returns to [bootasm.S]. *)
From Stdlib Require Import ZArith Lia.
From stdpp Require Import base list gmap strings.
From S2P Require Import Prelude Params Bytes Cstring Exec Ide Hw.
#[local] Open Scope Z_scope.
#[local] Open Scope kernel_scope.

Definition SECTSIZE : Z := 512.

Record bootst := mkboot { pmem : mem; bdrive : drive }.
#[export] Instance eta_bootst : Eta bootst := fun s => mkboot (pmem s) (bdrive s).

Definition port_out (port v : Z) : M bootst unit := modify (fun s => s <| bdrive ::= hw_outb port (u8 v) |>).
(** [inb(0x1F7)] *)
Definition port_status : M bootst Z :=
  s <~ get;
  match status (bdrive s) with
  | [] => ret IDE_DRDY
  | r :: l => put (s <| bdrive := (bdrive s) <| status := l |> |>) ;;; ret r
  end.

Definition waitdisk : M bootst unit :=
  s <~ get;
  loop (length (status (bdrive s)) + 1) (fun _ : unit =>
    r <~ port_status;
    ret (if Z.land r 0xC0 =? 0x40 then inr tt else inl tt)) tt.

Definition readsect (dst offset : Z) : M bootst unit :=
  waitdisk ;;;
  port_out 0x1f2 1 ;;;
  port_out 0x1f3 offset ;;;
  port_out 0x1f4 (Z.shiftr offset 8) ;;;
  port_out 0x1f5 (Z.shiftr offset 16) ;;;
  port_out 0x1f6 (Z.lor (Z.shiftr offset 24) 0xE0) ;;;
  port_out 0x1f7 0x20 ;;;
  waitdisk ;;;
  modify (fun s => s <| pmem ::= place_bytes dst (hw_insl (bdrive s)) |>).

Definition readseg (pa count offset : Z) : M bootst unit :=
  let epa := u32 (pa + count) in
  let pa := u32 (pa - offset mod SECTSIZE) in
  let offset := offset / SECTSIZE + 1 in
  loop (Z.to_nat (count / SECTSIZE) + 3) (fun '(pa, offset) =>
    if pa <? epa then
      readsect pa offset ;;;
      ret (inl (u32 (pa + SECTSIZE), u32 (offset + 1)))
    else ret (inr tt)) (pa, offset).

Definition bootmain : M bootst (option Z) :=
  let elf := 0x10000 in
  readseg elf 4096 0 ;;;
  magic <~ gets (fun s => rd32 (pmem s) elf);
  if negb (magic =? ELF_MAGIC) then ret None
  else
    phoff <~ gets (fun s => rd32 (pmem s) (elf + 28));
    phnum <~ gets (fun s => rd16 (pmem s) (elf + 44));
    let ph := u32 (elf + phoff) in
    let eph := u32 (ph + 32 * phnum) in
    loop (Z.to_nat phnum + 1) (fun ph =>
      if ph <? eph then
        pa <~ gets (fun s => rd32 (pmem s) (ph + 12));
        filesz <~ gets (fun s => rd32 (pmem s) (ph + 16));
        off <~ gets (fun s => rd32 (pmem s) (ph + 4));
        readseg pa filesz off ;;;
        memsz <~ gets (fun s => rd32 (pmem s) (ph + 20));
        filesz <~ gets (fun s => rd32 (pmem s) (ph + 16));
        (if filesz <? memsz then modify (fun s => s <| pmem ::= stosb (u32 (pa + filesz)) 0 (Z.to_nat (memsz - filesz)) |>) else ret tt) ;;;
        ret (inl (u32 (ph + 32)))
      else ret (inr tt)) ph ;;;
    entry <~ gets (fun s => rd32 (pmem s) (elf + 24));
    ret (Some entry).

(** ** Sectors *)

Lemma head_reg a : 0 <= a < 16 -> u8 (Z.lor a 0xE0) = Z.lor (Z.lor 0xe0 (Z.shiftl (Z.land 0 1) 4)) (Z.land a 0x0f).
Proof.
  intros Ha. rewrite <- (Z2Nat.id a) by lia. assert (Z.to_nat a < 16)%nat as Hn by lia. revert Hn. generalize (Z.to_nat a). intros n Hn.
  do 16 (destruct n as [|n]; [reflexivity|]). lia.
Qed.

Lemma u8_land x : u8 x = Z.land x 0xff.
Proof. unfold u8. change 0xff with (Z.ones 8). by rewrite Z.land_ones by lia. Qed.

Lemma wp_waitdisk s X (Q : unit -> bootst -> Prop) : (forall l, Q tt (s <| bdrive := (bdrive s) <| status := l |> |>)) -> wp waitdisk X Q s.
Proof.
  intros HQ. unfold waitdisk. wstep. wsteps.
  apply wp_loop with (I := fun _ s' => exists l, s' = s <| bdrive := (bdrive s) <| status := l |> |> /\ (length l <= length (status (bdrive s)))%nat)
    (var := fun _ s' => length (status (bdrive s'))).
  - exists (status (bdrive s)). split; [by destruct s as [? []]|done].
  - lia.
  - intros _ s' (l & -> & Hle). unfold port_status. wsteps. cbn [status bdrive setter]. destruct l as [|r l].
    + wsteps. change (Z.land IDE_DRDY 0xC0 =? 0x40) with true. cbn iota. apply HQ.
    + wsteps. destruct (_ =? 0x40); [apply HQ|]. cbn in Hle. split; [exists l; split; [done|lia]|cbn; lia].
Qed.

Lemma wp_port_out m d port v X (Q : unit -> bootst -> Prop) : Q tt (mkboot m (hw_outb port (u8 v) d)) -> wp (port_out port v) X Q (mkboot m d).
Proof. intros HQ. unfold port_out. by wstep. Qed.

(** [readsect] puts the sector into memory. *)
Lemma wp_readsect s dst offset X (Q : unit -> bootst -> Prop) : 0 <= offset < 2 ^ 28 ->
  (forall d', sectors d' = sectors (bdrive s) -> Q tt (mkboot (place_bytes dst (sectors (bdrive s) 0 offset) (pmem s)) d')) ->
  wp (readsect dst offset) X Q s.
Proof.
  intros Ho HQ. unfold readsect. wstep. apply wp_waitdisk. intros l1. destruct s as [m [b0 b1 b2 hd ns ac st se]]. cbn in HQ |- *.
  wstep. apply wp_port_out. change (hw_outb 0x1f2 _ _) with (mkdrive b0 b1 b2 hd (u8 1) ac l1 se).
  wstep. apply wp_port_out. change (hw_outb 0x1f3 _ _) with (mkdrive (u8 offset) b1 b2 hd (u8 1) ac l1 se).
  wstep. apply wp_port_out. change (hw_outb 0x1f4 _ _) with (mkdrive (u8 offset) (u8 (Z.shiftr offset 8)) b2 hd (u8 1) ac l1 se).
  wstep. apply wp_port_out. change (hw_outb 0x1f5 _ _) with (mkdrive (u8 offset) (u8 (Z.shiftr offset 8)) (u8 (Z.shiftr offset 16)) hd (u8 1) ac l1 se).
  wstep. apply wp_port_out. set (h := u8 (Z.lor (Z.shiftr offset 24) 0xE0)).
  change (hw_outb 0x1f6 _ _) with (mkdrive (u8 offset) (u8 (Z.shiftr offset 8)) (u8 (Z.shiftr offset 16)) h (u8 1) ac l1 se).
  wstep. apply wp_port_out. set (d := mkdrive (u8 offset) (u8 (Z.shiftr offset 8)) (u8 (Z.shiftr offset 16)) h (u8 1) ac l1 se).
  assert (0 <= Z.shiftr offset 24 < 16) as Hs by (rewrite Z.shiftr_div_pow2 by lia; split; [apply Z.div_pos; lia|apply Z.div_lt_upper_bound; lia]).
  destruct (sector_regs offset 0 Ho ltac:(lia)) as [Hk Hu]. rewrite <- head_reg in Hk, Hu by done. fold h in Hk, Hu.
  assert (reg_unit d = 0) as Hru by exact Hu. assert (reg_sector d = offset) as Hrs.
  { unfold reg_sector, d. cbn [lba0 lba1 lba2 head_]. by rewrite !u8_land. }
  assert (hw_outb 0x1f7 (u8 0x20) d = d <| active := Some (mkcommand false 0 offset) |>) as ->.
  { change (hw_outb 0x1f7 (u8 0x20) d) with (d <| active := Some (mkcommand false (reg_unit d) (reg_sector d)) |>). by rewrite Hru, Hrs. }
  wstep. apply wp_waitdisk. intros l2. wstep. by apply HQ.
Qed.

(** ** Segments *)

(** The file that starts at sector 1. *)
Definition file (d : drive) : mem := fun o => nth (Z.to_nat (o mod 512)) (sectors d 0 (o / 512 + 1)) 0.
Definition whole (d : drive) : Prop := forall k, 0 <= k -> length (sectors d 0 k) = 512%nat.

Lemma file_same d d' : sectors d' = sectors d -> file d' = file d.
Proof. intros Hs. unfold file. by rewrite Hs. Qed.

(** The sectors that [readseg] reads. *)
Definition rounds (count offset : Z) : Z := (offset mod 512 + count + 511) / 512.

Lemma wp_readseg s pa count offset X (Q : unit -> bootst -> Prop) :
  let lo := pa - offset mod 512 in
  whole (bdrive s) -> 0 <= offset -> 0 <= count -> 0 <= lo -> pa + count + 512 < 2 ^ 32 -> offset + count < 2 ^ 32 ->
  (forall m' d', sectors d' = sectors (bdrive s) ->
     (forall a, m' a = if (lo <=? a) && (a <? lo + 512 * rounds count offset) then file (bdrive s) (offset + (a - pa)) else pmem s a) -> Q tt (mkboot m' d')) ->
  wp (readseg pa count offset) X Q s.
Proof.
  intros lo Hw Ho Hc Hlo Hmax Hoff HQ. unfold readseg. change SECTSIZE with 512. pose proof (Z.mod_pos_bound offset 512 ltac:(lia)) as Hr. pose proof (Z.div_mod offset 512 ltac:(lia)) as Hdm.
  fold lo. rewrite (u32_small (pa + count)), (u32_small lo) by lia. set (n := rounds count offset).
  assert (512 * n <= offset mod 512 + count + 511 < 512 * n + 512) as Hn by (unfold n, rounds; pose proof (Z.div_mod (offset mod 512 + count + 511) 512); pose proof (Z.mod_pos_bound (offset mod 512 + count + 511) 512); lia).
  assert (0 <= n) as Hn0 by lia. pose proof (Z.div_mod count 512 ltac:(lia)) as Hcd. pose proof (Z.mod_pos_bound count 512 ltac:(lia)) as Hcm.
  apply wp_loop with (I := fun x s' => exists k, 0 <= k <= n /\ x = (lo + 512 * k, offset / 512 + 1 + k) /\ sectors (bdrive s') = sectors (bdrive s) /\
      forall a, pmem s' a = if (lo <=? a) && (a <? lo + 512 * k) then file (bdrive s) (offset + (a - pa)) else pmem s a)
    (var := fun x _ => Z.to_nat ((lo + 512 * n - x.1) / 512)).
  - exists 0. split; [lia|]. split; [f_equal; lia|]. split; [done|]. intros a. destruct (Z.leb_spec lo a), (Z.ltb_spec a (lo + 512 * 0)); [lia|done..].
  - cbn [fst]. replace (lo + 512 * n - lo) with (n * 512) by lia. rewrite Z.div_mul by lia. lia.
  - intros x s' (k & Hk & -> & Hs & Hm). destruct (Z.ltb_spec (lo + 512 * k) (pa + count)) as [Hlt|Hge].
    + assert (k < n) as Hkn by lia. wstep. apply wp_readsect; [lia|]. intros d' Hd'. wstep. rewrite (u32_small (lo + 512 * k + 512)), (u32_small (offset / 512 + 1 + k + 1)) by lia. split.
      * exists (k + 1). split; [lia|]. split; [f_equal; lia|]. split; [cbn; congruence|]. intros a. cbn [pmem]. unfold place_bytes. rewrite Hs, Hw, Hm by lia. change (Z.of_nat 512) with 512.
        destruct (Z.leb_spec (lo + 512 * k) a), (Z.ltb_spec a (lo + 512 * k + 512)), (Z.leb_spec lo a), (Z.ltb_spec a (lo + 512 * (k + 1))), (Z.ltb_spec a (lo + 512 * k)); cbn [andb]; try lia; try done.
        assert (offset + (a - pa) = 512 * (offset / 512 + k) + (a - (lo + 512 * k))) as Ha by lia. unfold file.
        rewrite <- (Z.div_unique (offset + (a - pa)) 512 (offset / 512 + k) (a - (lo + 512 * k))), <- (Z.mod_unique (offset + (a - pa)) 512 (offset / 512 + k) (a - (lo + 512 * k))) by lia.
        by replace (offset / 512 + k + 1) with (offset / 512 + 1 + k) by lia.
      * cbn [fst]. replace (lo + 512 * n - (lo + 512 * k + 512)) with ((n - k - 1) * 512) by lia. replace (lo + 512 * n - (lo + 512 * k)) with ((n - k) * 512) by lia. rewrite !Z.div_mul by lia. lia.
    + wstep. assert (k = n) as -> by lia. destruct s' as [m' d']. by apply HQ.
Qed.

(** A program header, and the memory that loading it writes. *)
Record seg := mkseg { sg_off : Z; sg_pa : Z; sg_filesz : Z; sg_memsz : Z }.
Definition seg_at (m : mem) (a : Z) : seg := mkseg (rd32 m (a + 4)) (rd32 m (a + 12)) (rd32 m (a + 16)) (rd32 m (a + 20)).
Definition seg_lo (g : seg) : Z := sg_pa g - sg_off g mod 512.
Definition seg_hi (g : seg) : Z := Z.max (seg_lo g + 512 * rounds (sg_filesz g) (sg_off g)) (sg_pa g + sg_memsz g).
Definition seg_no (d : drive) (i : Z) : seg := seg_at (file d) (rd32 (file d) 28 + 32 * i).

(** The segment is in memory: its bytes of the file, then zeros. *)
Definition loaded (f m : mem) (g : seg) : Prop :=
  (forall j, 0 <= j < sg_filesz g -> m (sg_pa g + j) = f (sg_off g + j)) /\ (forall j, sg_filesz g <= j < sg_memsz g -> m (sg_pa g + j) = 0).

(** A kernel that can be loaded: its program headers are in the first page, no
    segment reaches into the page of the headers, and they are in ascending
    order, with room for whole sectors. *)
Record kernel_on (d : drive) : Prop := {
  ko_whole : whole d;
  ko_magic : rd32 (file d) 0 = ELF_MAGIC;
  ko_table : 0 <= rd32 (file d) 28 /\ 0 <= rd16 (file d) 44 /\ rd32 (file d) 28 + 32 * rd16 (file d) 44 <= 4096;
  ko_seg : forall i, 0 <= i < rd16 (file d) 44 -> let g := seg_no d i in
    0 <= sg_off g /\ 0 <= sg_filesz g /\ 0 <= sg_memsz g /\ 0 <= seg_lo g /\ seg_hi g + 512 < 2 ^ 32 /\ sg_off g + sg_filesz g < 2 ^ 32 /\
    (seg_hi g <= 0x10000 \/ 0x11000 <= seg_lo g);
  ko_order : forall i j, 0 <= i < j -> j < rd16 (file d) 44 -> 
    sg_pa (seg_no d i) + Z.max (sg_filesz (seg_no d i)) (sg_memsz (seg_no d i)) <= seg_lo (seg_no d j)
}.

(** The headers are in memory. *)
Definition headers (d : drive) (m : mem) : Prop := forall a, 0 <= a < 4096 -> m (0x10000 + a) = file d a.

Lemma headers_32 d m a : headers d m -> 0 <= a -> a + 4 <= 4096 -> rd32 m (0x10000 + a) = rd32 (file d) a.
Proof. intros Hh H0 Ha. unfold rd32. rewrite <- !(Z.add_assoc 0x10000 a), !Hh by lia. done. Qed.
Lemma headers_16 d m a : headers d m -> 0 <= a -> a + 2 <= 4096 -> rd16 m (0x10000 + a) = rd16 (file d) a.
Proof. intros Hh H0 Ha. unfold rd16. rewrite <- !(Z.add_assoc 0x10000 a), !Hh by lia. done. Qed.

Lemma rounds_covers count offset : 0 <= count -> offset mod 512 + count <= 512 * rounds count offset.
Proof.
  intros Hc. unfold rounds. pose proof (Z.div_mod (offset mod 512 + count + 511) 512). pose proof (Z.mod_pos_bound (offset mod 512 + count + 511) 512). lia.
Qed.

(** Loading one segment. *)
Lemma wp_load_seg d i s X (Q : Z + unit -> bootst -> Prop) :
  kernel_on d -> 0 <= i < rd16 (file d) 44 -> sectors (bdrive s) = sectors d -> headers d (pmem s) ->
  let ph := 0x10000 + (rd32 (file d) 28 + 32 * i) in
  (forall m' d', sectors d' = sectors d -> headers d m' -> loaded (file d) m' (seg_no d i) ->
     (forall a, a < seg_lo (seg_no d i) -> m' a = pmem s a) -> Q (inl (ph + 32)) (mkboot m' d')) ->
  wp (pa <~ gets (fun s => rd32 (pmem s) (ph + 12));
      filesz <~ gets (fun s => rd32 (pmem s) (ph + 16));
      off <~ gets (fun s => rd32 (pmem s) (ph + 4));
      readseg pa filesz off ;;;
      memsz <~ gets (fun s => rd32 (pmem s) (ph + 20));
      filesz <~ gets (fun s => rd32 (pmem s) (ph + 16));
      (if filesz <? memsz then modify (fun s => s <| pmem ::= stosb (u32 (pa + filesz)) 0 (Z.to_nat (memsz - filesz)) |>) else ret tt) ;;;
      ret (inl (u32 (ph + 32)))) X Q s.
Proof.
  intros [Hw Hmag (Ht1 & Ht2 & Ht3) Hseg Hord] Hi Hsec Hh ph HQ. specialize (Hseg i Hi). cbn zeta in Hseg. destruct Hseg as (Ho & Hf & Hms & Hlo & Hhi & Hend & Hpage).
  set (g := seg_no d i) in *. unfold seg_hi in Hhi, Hpage. pose proof (rounds_covers (sg_filesz g) (sg_off g) Hf) as Hcov. unfold seg_lo in Hlo, Hhi, Hpage, HQ.
  assert (forall m c, headers d m -> 0 <= c <= 28 -> rd32 m (ph + c) = rd32 (file d) (rd32 (file d) 28 + 32 * i + c)) as Hfield.
  { intros m c Hm Hc. unfold ph. rewrite <- Z.add_assoc. apply headers_32; [done|lia|lia]. }
  wsteps. rewrite !Hfield by (done || lia). fold (sg_pa g). fold (sg_filesz g). fold (sg_off g).
  change (rd32 (file d) (rd32 (file d) 28 + 32 * i + 12)) with (sg_pa g). change (rd32 (file d) (rd32 (file d) 28 + 32 * i + 16)) with (sg_filesz g).
  change (rd32 (file d) (rd32 (file d) 28 + 32 * i + 4)) with (sg_off g).
  apply wp_readseg; [unfold whole; by rewrite Hsec|done|done|done|lia|lia|]. intros m1 d1 Hd1 Hm1. rewrite (file_same _ _ Hsec) in Hm1.
  assert (headers d m1) as Hh1.
  { intros a Ha. rewrite Hm1, <- (Hh a Ha). destruct (Z.leb_spec (sg_pa g - sg_off g mod 512) (0x10000 + a)), (Z.ltb_spec (0x10000 + a) (sg_pa g - sg_off g mod 512 + 512 * rounds (sg_filesz g) (sg_off g))); [lia|done..]. }
  wsteps. cbn [pmem]. rewrite !Hfield by (done || lia). change (rd32 (file d) (rd32 (file d) 28 + 32 * i + 16)) with (sg_filesz g).
  change (rd32 (file d) (rd32 (file d) 28 + 32 * i + 20)) with (sg_memsz g).
  pose proof (Z.mod_pos_bound (sg_off g) 512 ltac:(lia)) as Hmod. rewrite (u32_small (ph + 32)) by (unfold ph; lia). rewrite (u32_small (sg_pa g + sg_filesz g)) by lia.
  set (m2 := if sg_filesz g <? sg_memsz g then stosb (sg_pa g + sg_filesz g) 0 (Z.to_nat (sg_memsz g - sg_filesz g)) m1 else m1).
  assert (forall a, m2 a = if (sg_pa g + sg_filesz g <=? a) && (a <? sg_pa g + sg_memsz g) then 0 else m1 a) as Hm2.
  { intros a. unfold m2. destruct (Z.ltb_spec (sg_filesz g) (sg_memsz g)).
    - rewrite stosb_spec. unfold in_range. rewrite Z2Nat.id by lia. by replace (sg_pa g + sg_filesz g + (sg_memsz g - sg_filesz g)) with (sg_pa g + sg_memsz g) by lia.
    - destruct (Z.leb_spec (sg_pa g + sg_filesz g) a), (Z.ltb_spec a (sg_pa g + sg_memsz g)); [lia|done..]. }
  assert (Q (inl (ph + 32)) (mkboot m2 d1)) as Hend2.
  { apply HQ; [congruence|..].
    - intros a Ha. rewrite Hm2, <- (Hh1 a Ha). destruct (Z.leb_spec (sg_pa g + sg_filesz g) (0x10000 + a)), (Z.ltb_spec (0x10000 + a) (sg_pa g + sg_memsz g)); [lia|done..].
    - split; intros j Hj; rewrite Hm2.
      + destruct (Z.leb_spec (sg_pa g + sg_filesz g) (sg_pa g + j)); [lia|]. cbn [andb]. rewrite Hm1.
        destruct (Z.leb_spec (sg_pa g - sg_off g mod 512) (sg_pa g + j)); [|lia]. destruct (Z.ltb_spec (sg_pa g + j) (sg_pa g - sg_off g mod 512 + 512 * rounds (sg_filesz g) (sg_off g))); [|lia].
        cbn [andb]. f_equal. lia.
      + destruct (Z.leb_spec (sg_pa g + sg_filesz g) (sg_pa g + j)); [|lia]. by destruct (Z.ltb_spec (sg_pa g + j) (sg_pa g + sg_memsz g)); [|lia].
    - intros a Ha. rewrite Hm2, Hm1. destruct (Z.leb_spec (sg_pa g + sg_filesz g) a); [lia|]. cbn [andb]. by destruct (Z.leb_spec (sg_pa g - sg_off g mod 512) a); [lia|]. }
  unfold m2 in Hend2. destruct (sg_filesz g <? sg_memsz g); by wsteps.
Qed.

Lemma loaded_same f m m' g : 0 <= sg_filesz g -> loaded f m g ->
  (forall a, sg_pa g <= a < sg_pa g + Z.max (sg_filesz g) (sg_memsz g) -> m' a = m a) -> loaded f m' g.
Proof. intros Hf [H1 H2] Hs. split; intros j Hj; rewrite Hs by lia; [by apply H1|by apply H2]. Qed.

Lemma wp_bootmain d s X : kernel_on d -> sectors (bdrive s) = sectors d ->
  wp bootmain X (fun r s' => r = Some (rd32 (file d) 24) /\ forall i, 0 <= i < rd16 (file d) 44 -> loaded (file d) (pmem s') (seg_no d i)) s.
Proof.
  intros Hk Hsec. pose proof Hk as [Hw Hmag (Ht1 & Ht2 & Ht3) Hseg Hord]. unfold bootmain. cbn zeta. wstep.
  apply wp_readseg; [unfold whole; by rewrite Hsec|lia|lia|by vm_compute|lia|lia|]. intros m1 d1 Hd1 Hm1. change (rounds 4096 0) with 8 in Hm1. change (0x10000 - 0 mod 512) with 0x10000 in Hm1.
  rewrite (file_same _ _ Hsec) in Hm1. assert (headers d m1) as Hh1.
  { intros a Ha. rewrite Hm1. destruct (Z.leb_spec 0x10000 (0x10000 + a)); [|lia]. destruct (Z.ltb_spec (0x10000 + a) (0x10000 + 512 * 8)); [|lia]. cbn [andb]. f_equal. lia. }
  wsteps. cbn [pmem]. replace (rd32 m1 0x10000) with (rd32 (file d) 0) by (symmetry; apply (headers_32 d m1 0 Hh1); lia). rewrite Hmag. cbn [negb Z.eqb Pos.eqb]. 
  change (negb (ELF_MAGIC =? ELF_MAGIC)) with false. cbn iota.
  wsteps. cbn [pmem]. rewrite (headers_32 d m1 28 Hh1), (headers_16 d m1 44 Hh1) by lia. rewrite (u32_small (0x10000 + rd32 (file d) 28)) by lia. rewrite u32_small by lia.
  set (n := rd16 (file d) 44) in *. set (base := rd32 (file d) 28) in *.
  apply wp_loop with (I := fun ph s' => exists i, 0 <= i <= n /\ ph = 0x10000 + (base + 32 * i) /\ sectors (bdrive s') = sectors d /\ headers d (pmem s') /\
      forall j, 0 <= j < i -> loaded (file d) (pmem s') (seg_no d j)) (var := fun ph _ => Z.to_nat ((0x10000 + base + 32 * n - ph) / 32)).
  - exists 0. split; [lia|]. split; [lia|]. split; [cbn; congruence|]. split; [done|]. intros j Hj. lia.
  - replace (0x10000 + base + 32 * n - (0x10000 + base)) with (n * 32) by lia. rewrite Z.div_mul by lia. lia.
  - intros ph s' (i & Hi & -> & Hs' & Hh' & Hl'). destruct (Z.ltb_spec (0x10000 + (base + 32 * i)) (0x10000 + base + 32 * n)) as [Hlt|Hge].
    + assert (0 <= i < n) as Hin by lia. apply (wp_load_seg d i); [done|done|done|done|]. intros m2 d2 Hd2 Hh2 Hld Hkeep. fold base. split.
      * exists (i + 1). split; [lia|]. split; [lia|]. split; [done|]. split; [done|]. intros j Hj. destruct (Z.eq_dec j i) as [->|Hne]; [done|]. cbn [pmem].
        apply (loaded_same _ (pmem s')); [by apply Hseg; lia|apply Hl'; lia|]. intros a Ha. apply Hkeep. pose proof (Hord j i ltac:(lia) ltac:(lia)). lia.
      * replace (0x10000 + base + 32 * n - (0x10000 + (base + 32 * i) + 32)) with ((n - i - 1) * 32) by lia.
        replace (0x10000 + base + 32 * n - (0x10000 + (base + 32 * i))) with ((n - i) * 32) by lia. rewrite !Z.div_mul by lia. lia.
    + assert (i = n) as -> by lia. wsteps. split; [|done]. f_equal. apply (headers_32 d (pmem s') 24 Hh'); lia.
Qed.

(** C19: Whatever the drive answers while it is busy, the boot loader ends and
    jumps to the kernel's entry point with every segment of the kernel in
    memory: the bytes of the file, then zeros up to the segment's size. *)
Theorem bootmain_loads d m :
  kernel_on d -> exists s', bootmain (mkboot m d) = Ok (Some (rd32 (file d) 24), s') /\
    forall i, 0 <= i < rd16 (file d) 44 -> loaded (file d) (pmem s') (seg_no d i).
Proof.
  intros Hk. pose proof (wp_bootmain d (mkboot m d) never Hk eq_refl) as Hw. unfold wp in Hw.
  destruct (bootmain (mkboot m d)) as [[r s']|e]; [|done]. destruct Hw as [-> Hl]. by exists s'.
Qed.

(** A kernel of one segment of four bytes, with six zeros behind them, on a
    drive that is busy twice. *)
Definition header : list Z :=
  put_words (replicate 512 0) 0 [ELF_MAGIC; 0; 0; 0; 0; 0; 0x10000c; 52; 0; 0; 0; 1; 0; 1; 512; 0; 0x100000; 4; 10].
Definition tiny_drive : drive := mkdrive 0 0 0 0 0 None [0x80; 0xC0] (fun u k => if k =? 1 then header else replicate 512 7).

Lemma bootmain_loads_witness : exists s', bootmain (mkboot (fun _ => 9) tiny_drive) = Ok (Some 0x10000c, s') /\ loaded (file tiny_drive) (pmem s') (mkseg 512 0x100000 4 10).
Proof.
  destruct (bootmain_loads tiny_drive (fun _ => 9)) as (s' & Hs & Hl).
  - split.
    + intros k _. cbn [sectors tiny_drive]. destruct (k =? 1); reflexivity.
    + vm_compute. reflexivity.
    + vm_compute. repeat split; discriminate.
    + intros i Hi. assert (rd16 (file tiny_drive) 44 = 1) as E by (vm_compute; reflexivity). rewrite E in Hi. assert (i = 0) as -> by lia. vm_compute. intuition discriminate.
    + intros i j Hi Hj. assert (rd16 (file tiny_drive) 44 = 1) as E by (vm_compute; reflexivity). rewrite E in Hj. lia.
  - exists s'. split; [exact Hs|]. apply (Hl 0). vm_compute. split; [discriminate|reflexivity].
Defined.
