(* ===== verification/Mp.v ===== *)
(** * Finding the processors ([mp.c], [mp.h])

    The tables of the BIOS are bytes of low memory, read at kernel addresses,
    which do not wrap, as pointers of C do not. *)
From Stdlib Require Import ZArith Lia.
From stdpp Require Import base list gmap strings.
From S2P Require Import Prelude Params Mmu Bytes Cstring Hw.
#[local] Open Scope Z_scope.
#[local] Open Scope kernel_scope.

Definition sum (m : mem) (addr len : Z) : Z := u8 (fold_left (fun a i => a + m (addr + Z.of_nat i)) (seq 0 (Z.to_nat len)) 0).
(** [memcmp(p, s, 4) == 0] *)
Definition signature (m : mem) (p : Z) (s : list Z) : bool := forallb (fun i => m (p + Z.of_nat i) =? nth i s 0) (seq 0 4).

Definition mpsearch1 (m : mem) (a len : Z) : option Z :=
  let addr := P2V a in
  List.find (fun p => signature m p [95; 77; 80; 95] && (sum m p 16 =? 0))
    (map (fun i => addr + 16 * Z.of_nat i) (seq 0 (Z.to_nat ((len + 15) / 16)))).

Definition mpsearch (m : mem) : option Z :=
  let bda := P2V 0x400 in
  let p := Z.shiftl (Z.lor (Z.shiftl (m (bda + 0x0f)) 8) (m (bda + 0x0e))) 4 in
  let first :=
    if negb (p =? 0) then mpsearch1 m p 1024
    else
      let p := Z.lor (Z.shiftl (m (bda + 0x14)) 8) (m (bda + 0x13)) * 1024 in
      mpsearch1 m (u32 (p - 1024)) 1024 in
  match first with
  | Some mp => Some mp
  | None => mpsearch1 m 0xF0000 0x10000
  end.

(** The floating pointer and the table. *)
Definition mpconfig (m : mem) : option (Z * Z) :=
  mp ← mpsearch m;
  let physaddr := rd32 m (mp + 4) in
  if physaddr =? 0 then None
  else
    let conf := P2V physaddr in
    if negb (signature m conf [80; 67; 77; 80]) then None
    else if negb (m (conf + 6) =? 1) && negb (m (conf + 6) =? 4) then None
    else if negb (sum m conf (rd16 m (conf + 4)) =? 0) then None
    else Some (mp, conf).

Abbreviation MPPROC := 0%Z.
Abbreviation MPIOAPIC := 2%Z.

(** One round of the loop over the entries.  The [break] of the [default]
    case leaves the [switch], not the loop. *)
Definition entry (e : Z) '(p, ismp) : M hwst (Z * bool + bool) :=
  if p <? e then
    m <~ gets low;
    let t := m p in
    if t =? MPPROC then
      modify (fun s => if ncpu s <? Z.of_nat NCPU then s <| apicids ::= fun c => c ++ [m (p + 1)] |> else s) ;;;
      ret (inl (p + 20, ismp))
    else if t =? MPIOAPIC then
      modify (fun s => s <| ioapicid := m (p + 1) |>) ;;;
      ret (inl (p + 8, ismp))
    else if (t =? 1) || (t =? 3) || (t =? 4) then ret (inl (p + 8, ismp))
    else ret (inl (p, false))
  else ret (inr ismp).
Definition entries (fuel : nat) (p e : Z) : M hwst bool := loop fuel (entry e) (p, true).

Definition mpinit : M hwst unit :=
  m <~ gets low;
  match mpconfig m with
  | None => panic "Expect to run on an SMP"
  | Some (mp, conf) =>
      modify (fun s => s <| lapic := rd32 m (conf + 36) |>) ;;;
      let e := conf + rd16 m (conf + 4) in
      ismp <~ entries (Z.to_nat (rd16 m (conf + 4)) + 1) (conf + 44) e;
      if negb ismp then panic "Didn't find a suitable machine"
      else if negb (m (mp + 12) =? 0) then
        outb 0x22 0x70 ;;;
        i <~ gets imcr;
        outb 0x23 (Z.lor i 1)
      else ret tt
  end.

(** ** The entries of a table *)

(** [table m e p q l]: from [p] the entries [l], as type and second byte, of
    known types and each starting below [e], lead to [q]. *)
Inductive table (m : mem) (e : Z) : Z -> Z -> list (Z * Z) -> Prop :=
| table_end p : table m e p p []
| table_proc p q l : p < e -> m p = MPPROC -> table m e (p + 20) q l -> table m e p q ((m p, m (p + 1)) :: l)
| table_other p q l : p < e -> 1 <= m p <= 4 -> table m e (p + 8) q l -> table m e p q ((m p, m (p + 1)) :: l).

Definition procs (l : list (Z * Z)) : list Z := map snd (filter (fun x => x.1 = MPPROC) l).
Definition last_ioapic (d : Z) (l : list (Z * Z)) : Z := List.last (map snd (filter (fun x => x.1 = MPIOAPIC) l)) d.

(** What the entries [l] leave. *)
Definition record_all (l : list (Z * Z)) (s : hwst) : hwst :=
  s <| apicids ::= fun c => take (length c `max` NCPU) (c ++ procs l) |> <| ioapicid ::= fun d => last_ioapic d l |>.

Lemma record_proc i l s : record_all l (if ncpu s <? Z.of_nat NCPU then s <| apicids ::= fun c => c ++ [i] |> else s) = record_all ((MPPROC, i) :: l) s.
Proof.
  unfold record_all, ncpu, procs, last_ioapic. destruct s as [lo c io la po im co id lv ll ic ise ire cse rt nw].
  rewrite (filter_cons_True (fun x : Z * Z => x.1 = MPPROC) (MPPROC, i)) by done.
  rewrite (filter_cons_False (fun x : Z * Z => x.1 = MPIOAPIC)) by done. cbn [map snd apicids].
  destruct (Z.ltb_spec (Z.of_nat (length c)) (Z.of_nat NCPU)) as [H|H]; fields; f_equal.
  - rewrite <- app_assoc, length_app. cbn [app length]. f_equal. lia.
  - rewrite (max_l (length c)) by lia. by rewrite !take_app_length.
Qed.

Lemma record_ioapic i l s : record_all l (s <| ioapicid := i |>) = record_all ((MPIOAPIC, i) :: l) s.
Proof.
  unfold record_all, procs, last_ioapic. destruct s.
  rewrite (filter_cons_True (fun x : Z * Z => x.1 = MPIOAPIC) (MPIOAPIC, i)) by done.
  rewrite (filter_cons_False (fun x : Z * Z => x.1 = MPPROC)) by done.
  fields. cbn [map snd]. f_equal.
  generalize (map snd (filter (fun x : Z * Z => x.1 = MPIOAPIC) l)). intros k.
  destruct k as [|x k]; [done|]. cbn [List.last]. revert x. induction k as [|y k IH]; intros x; [done|]. exact (IH y).
Qed.

Lemma record_nil s : record_all [] s = s.
Proof. destruct s. unfold record_all, procs, last_ioapic. fields. cbn [map filter]. f_equal. rewrite app_nil_r. apply take_ge. lia. Qed.

Lemma record_other t i l s : t <> MPPROC -> t <> MPIOAPIC -> record_all ((t, i) :: l) s = record_all l s.
Proof.
  intros. unfold record_all, procs, last_ioapic.
  by rewrite (filter_cons_False (fun x : Z * Z => x.1 = MPPROC)), (filter_cons_False (fun x : Z * Z => x.1 = MPIOAPIC)).
Qed.

Lemma record_bios l s : low (record_all l s) = low s.
Proof. by destruct s. Qed.

Lemma entry_known e p s ismp l :
  let m := low s in
  p < e -> 0 <= m p <= 4 ->
  exists s', entry e (p, ismp) s = Ok (inl (p + if m p =? MPPROC then 20 else 8, ismp), s')
    /\ low s' = m /\ record_all l s' = record_all ((m p, m (p + 1)) :: l) s.
Proof.
  intros m Hp Hm. unfold entry. destruct (Z.ltb_spec p e); [|lia]. unfold bind, gets, modify, ret. fold m.
  destruct (Z.eqb_spec (m p) MPPROC) as [E0|]; [|destruct (Z.eqb_spec (m p) MPIOAPIC) as [E2|]].
  - eexists. split; [done|]. split; [by destruct (_ <? _)|]. rewrite E0. apply record_proc.
  - eexists. split; [done|]. split; [done|]. rewrite E2. apply record_ioapic.
  - exists s. split; [|split; [done|by rewrite record_other]].
    by assert ((m p =? 1) || (m p =? 3) || (m p =? 4) = true) as -> by lia.
Qed.

(** Known entries are recorded one by one. *)
Lemma loop_table e p q l s fuel ismp : table (low s) e p q l ->
  loop (length l + fuel) (entry e) (p, ismp) s = loop fuel (entry e) (q, ismp) (record_all l s).
Proof.
  remember (low s) as m eqn:Hm. intros H. revert s Hm.
  induction H as [p|p q l Hp E H IH|p q l Hp E H IH]; intros s ->; [by rewrite record_nil|..];
    (destruct (entry_known e p s ismp l) as (s' & He & Hb & Hr); [done|lia|]);
    cbn [length Nat.add]; rewrite (loop_inl _ _ _ _ _ _ He).
  - rewrite E in *. cbn [Z.eqb]. by rewrite IH, Hr.
  - destruct (Z.eqb_spec (low s p) MPPROC); [lia|]. by rewrite IH, Hr.
Qed.

(** At an entry of another type the loop stays for ever. *)
Lemma loop_unknown e p s fuel ismp : p < e -> ~ 0 <= low s p <= 4 -> loop fuel (entry e) (p, ismp) s = Stop NoFuel.
Proof.
  intros Hp Hm. revert ismp. induction fuel as [|fuel IH]; intros ismp; [done|].
  rewrite (loop_inl _ _ _ (p, false) _ s); [apply IH|].
  unfold entry. destruct (Z.ltb_spec p e); [|lia]. unfold bind, gets, ret.
  destruct (Z.eqb_spec (low s p) MPPROC); [lia|]. destruct (Z.eqb_spec (low s p) MPIOAPIC); [lia|].
  by assert ((low s p =? 1) || (low s p =? 3) || (low s p =? 4) = false) as -> by lia.
Qed.

Lemma table_length m e p q l : table m e p q l -> Z.of_nat (length l) <= Z.max 0 (e - p).
Proof. induction 1; cbn [length]; lia. Qed.

Lemma entries_unknown e p q l s fuel : table (low s) e p q l -> q < e -> ~ 0 <= low s q <= 4 -> entries fuel p e s = Stop NoFuel.
Proof.
  intros Ht Hq Hm. destruct (entries fuel p e s) as [r|[]] eqn:E; try done; exfalso; unfold entries in E;
    assert (loop fuel (entry e) (p, true) s <> Stop NoFuel) as H%(loop_more _ (length l)) by congruence;
    rewrite Nat.add_comm, (loop_table _ _ _ _ _ _ _ Ht), loop_unknown in H by (rewrite ?record_bios; done); congruence.
Qed.

Lemma entries_known e p q l s fuel : table (low s) e p q l -> e <= q -> e - p < Z.of_nat fuel -> (0 < fuel)%nat ->
  entries fuel p e s = Ok (true, record_all l s).
Proof.
  intros Ht Hq Hf Hf0. pose proof (table_length _ _ _ _ _ Ht). unfold entries.
  replace fuel with (length l + S (fuel - length l - 1))%nat by lia. rewrite (loop_table _ _ _ _ _ _ _ Ht).
  apply loop_inr. unfold entry. destruct (Z.ltb_spec q e); [lia|done].
Qed.

(** A table with known entries. *)
Lemma mpinit_known s m mp conf e q l : low s = m -> apicids s = [] -> mpconfig m = Some (mp, conf) -> e = conf + rd16 m (conf + 4) -> conf <= e ->
  table m e (conf + 44) q l -> e <= q ->
  mpinit s = Ok (tt, s <| apicids := take NCPU (procs l) |> <| ioapicid := last_ioapic (ioapicid s) l |>
                       <| lapic := rd32 m (conf + 36) |>
                       <| ports ::= fun p => p ++ if m (mp + 12) =? 0 then [] else [(0x22, 0x70); (0x23, u8 (Z.lor (imcr s) 1))] |>).
Proof.
  intros Hb Hc Hcf He Hle Ht Hq. unfold mpinit. rewrite (bind_ok _ _ _ _ _ (eq_refl : gets low s = Ok (low s, s))), Hb, Hcf, <- He.
  rewrite (bind_ok _ _ _ _ _ (eq_refl : modify _ s = Ok (tt, _))).
  erewrite bind_ok by (eapply entries_known; [cbn; rewrite Hb; exact Ht|lia..]). cbn [negb].
  destruct s as [lo c io la po im co id lv ll ic ise ire cse rt nw]. cbn [low apicids] in *. subst c lo.
  destruct (m (mp + 12) =? 0); cbn [negb]; unfold record_all, outb, bind, ret, gets, modify; fields; cbn [Z.eqb length];
    rewrite ?app_nil_r, <- ?app_assoc; done.
Qed.

(** C20: Where the BIOS has no valid table of processors, [mpinit] panics.
    Otherwise let the entries of the table be of known types up to an address
    [q].  If that is its end, [mpinit] returns and has recorded the first
    [NCPU] processors in their order, the last I/O APIC and the address of
    the local APIC; and external interrupts are masked exactly when the
    machine has an IMCR.  If the entry at [q] has another type, the loop of
    [mpinit] does not end, however long it runs. *)
Theorem mpinit_entries s m : low s = m -> apicids s = [] ->
  (mpconfig m = None -> mpinit s = Stop (Panic "Expect to run on an SMP"))
  /\ (forall mp conf e q l, mpconfig m = Some (mp, conf) -> e = conf + rd16 m (conf + 4) -> conf <= e ->
        table m e (conf + 44) q l ->
        (e <= q -> mpinit s =
           Ok (tt, s <| apicids := take NCPU (procs l) |> <| ioapicid := last_ioapic (ioapicid s) l |>
                     <| lapic := rd32 m (conf + 36) |>
                     <| ports ::= fun p => p ++ if m (mp + 12) =? 0 then [] else [(0x22, 0x70); (0x23, u8 (Z.lor (imcr s) 1))] |>))
        /\ (q < e -> ~ 0 <= m q <= 4 ->
            mpinit s = Stop NoFuel /\ forall fuel s', low s' = m -> entries fuel (conf + 44) e s' = Stop NoFuel)).
Proof.
  intros Hb Hc. split; [|intros mp conf e q l Hcf He Hle Ht; split; intros Hq; [by apply (mpinit_known s m mp conf e q)|intros Hm; split]].
  - intros Hn. unfold mpinit. by rewrite (bind_ok _ _ _ _ _ (eq_refl : gets low s = Ok (low s, s))), Hb, Hn.
  - unfold mpinit. rewrite (bind_ok _ _ _ _ _ (eq_refl : gets low s = Ok (low s, s))), Hb, Hcf, <- He.
    rewrite (bind_ok _ _ _ _ _ (eq_refl : modify _ s = Ok (tt, _))). unfold bind.
    by rewrite (entries_unknown _ _ q l) by (cbn; rewrite ?Hb; done).
  - intros fuel s' Hs. apply (entries_unknown _ _ q l); by rewrite ?Hs.
Qed.

(** A machine with two processors and an I/O APIC. *)
Definition two_cpu_bios (t : Z) : mem :=
  let mp := [95; 77; 80; 95; 0; 0x90; 0; 0; 1; 4; 0; 0; 0; 0; 0; 0] in
  let conf := [80; 67; 77; 80; 100; 0; 4; 0] ++ replicate 28 0 ++ [0; 0; 0xe0; 0xfe; 0; 0; 0; 0]
    ++ (0 :: 0 :: replicate 18 0) ++ (0 :: 3 :: replicate 18 0) ++ [2; 7; 0x20; 1; 0; 0; 0; 0] ++ [t; 0; 0; 0; 0; 0; 0; 0] in
  let check l := u8 (- fold_left Z.add l 0) in
  place_bytes (P2V 0xF0000) (<[10%nat := check mp]> mp) (place_bytes (P2V 0x9000) (<[7%nat := check conf]> conf) (fun _ => 0)).

(** At most [n] known entries from [p] on. *)
Fixpoint walk (n : nat) (m : mem) (e p : Z) : Z * list (Z * Z) :=
  match n with
  | O => (p, [])
  | S n =>
      if (p <? e) && (0 <=? m p) && (m p <=? 4) then
        let '(q, l) := walk n m e (p + if m p =? MPPROC then 20 else 8) in (q, (m p, m (p + 1)) :: l)
      else (p, [])
  end.

Lemma walk_table n m e p q l : walk n m e p = (q, l) -> table m e p q l.
Proof.
  revert p q l. induction n as [|n IH]; cbn [walk]; intros p q l H; [simplify_eq; constructor|].
  destruct ((p <? e) && (0 <=? m p) && (m p <=? 4)) eqn:E; [|simplify_eq; constructor].
  destruct (Z.eqb_spec (m p) MPPROC) as [E0|]; destruct (walk n m e _) as [q' l'] eqn:W; simplify_eq; apply IH in W;
    [apply table_proc|apply table_other]; (done || lia).
Qed.

Lemma mpinit_entries_witness :
  mpinit (hw_start (two_cpu_bios 1) 0) = Ok (tt, (hw_start (two_cpu_bios 1) 0) <| apicids := [0; 3] |> <| ioapicid := 7 |> <| lapic := 0xfee00000 |>)
  /\ (forall fuel, entries fuel (P2V 0x9000 + 44) (P2V 0x9000 + 100) (hw_start (two_cpu_bios 9) 0) = Stop NoFuel).
Proof.
  split.
  - destruct (mpinit_entries (hw_start (two_cpu_bios 1) 0) (two_cpu_bios 1) eq_refl eq_refl) as [_ H].
    destruct (H (P2V 0xF0000) (P2V 0x9000) (P2V 0x9000 + 100) (P2V 0x9000 + 100) [(0, 0); (0, 3); (2, 7); (1, 0)]) as [H1 _];
      [vm_compute; reflexivity|vm_compute; reflexivity|lia|apply (walk_table 4); vm_compute; reflexivity|].
    rewrite H1 by lia. reflexivity.
  - intros fuel. destruct (mpinit_entries (hw_start (two_cpu_bios 9) 0) (two_cpu_bios 9) eq_refl eq_refl) as [_ H].
    destruct (H (P2V 0xF0000) (P2V 0x9000) (P2V 0x9000 + 100) (P2V 0x9000 + 92) [(0, 0); (0, 3); (2, 7)]) as [_ H1];
      [vm_compute; reflexivity|vm_compute; reflexivity|lia|apply (walk_table 4); vm_compute; reflexivity|].
    apply H1; [lia|vm_compute; intros [_ H9]; by apply H9|done].
Defined.
