(* ===== verification/Apic.v ===== *)
(** * The interrupt controllers and the clock chip ([lapic.c], [ioapic.c],
    [picirq.c], [date.h])

    A write to the local APIC is an entry of the log [llog]; a read of the
    delivery status takes the next answer of [icrlo].  The I/O APIC and the
    clock chip are a register that selects and a window.  [microdelay] does
    nothing, as in the source. *)
From Stdlib Require Import ZArith Lia.
From stdpp Require Import base list gmap strings.
From S2P Require Import Prelude Params Mmu Cstring Seg Trap Hw.
#[local] Open Scope Z_scope.
#[local] Open Scope kernel_scope.

(** ** The local APIC *)

Abbreviation ID := 8%Z.
Abbreviation VER := 12%Z.
Abbreviation TPR := 32%Z.
Abbreviation EOI := 44%Z.
Abbreviation SVR := 60%Z.
Abbreviation ESR := 160%Z.
Abbreviation ICRLO := 192%Z.
Abbreviation ICRHI := 196%Z.
Abbreviation TIMER := 200%Z.
Abbreviation PCINT := 208%Z.
Abbreviation LINT0 := 212%Z.
Abbreviation LINT1 := 216%Z.
Abbreviation ERROR := 220%Z.
Abbreviation TICR := 224%Z.
Abbreviation TDCR := 248%Z.

Abbreviation ENABLE := 0x100%Z.
Abbreviation INIT := 0x500%Z.
Abbreviation STARTUP := 0x600%Z.
Abbreviation DELIVS := 0x1000%Z.
Abbreviation ASSERT := 0x4000%Z.
Abbreviation LEVEL := 0x8000%Z.
Abbreviation BCAST := 0x80000%Z.
Abbreviation X1 := 0xb%Z.
Abbreviation PERIODIC := 0x20000%Z.
Abbreviation MASKED := 0x10000%Z.
Abbreviation IRQ_ERROR := 19%Z.

Definition lapicw (index value : Z) : M hwst unit :=
  modify (fun s => s <| llog ::= fun l => l ++ [(me s, index, value)] |>).

(** [lapic[ICRLO]] *)
Definition read_icrlo : M hwst Z :=
  s <~ get;
  match icrlo s with
  | [] => ret 0
  | r :: l => put (s <| icrlo := l |>) ;;; ret r
  end.

Definition lapicinit : M hwst unit :=
  s <~ get;
  if lapic s =? 0 then ret tt
  else
    lapicw SVR (Z.lor ENABLE (T_IRQ0 + IRQ_SPURIOUS)) ;;;
    lapicw TDCR X1 ;;;
    lapicw TIMER (Z.lor PERIODIC (T_IRQ0 + IRQ_TIMER)) ;;;
    lapicw TICR 10000000 ;;;
    lapicw LINT0 MASKED ;;;
    lapicw LINT1 MASKED ;;;
    (if 4 <=? Z.land (Z.shiftr (lver s) 16) 0xff then lapicw PCINT MASKED else ret tt) ;;;
    lapicw ERROR (T_IRQ0 + IRQ_ERROR) ;;;
    lapicw ESR 0 ;;;
    lapicw ESR 0 ;;;
    lapicw EOI 0 ;;;
    lapicw ICRHI 0 ;;;
    lapicw ICRLO (Z.lor (Z.lor BCAST INIT) LEVEL) ;;;
    loop (length (icrlo s) + 1) (fun _ : unit =>
      r <~ read_icrlo;
      ret (if negb (Z.land r DELIVS =? 0) then inl tt else inr tt)) tt ;;;
    lapicw TPR 0.

(** [me] is the top byte of [lapic[ID]]. *)
Definition lapicid : M hwst Z :=
  s <~ get;
  ret (if lapic s =? 0 then 0 else me s).

Definition lapiceoi : M hwst unit :=
  s <~ get;
  if negb (lapic s =? 0) then lapicw EOI 0 else ret tt.

Definition lapicstartap (apicid addr : Z) : M hwst unit :=
  outb CMOS_PORT 0xF ;;;
  outb (CMOS_PORT + 1) 0x0A ;;;
  let wrv := P2V (Z.lor (Z.shiftl 0x40 4) 0x67) in
  modify (fun s => s <| low ::= place_bytes wrv (le16 0) |>) ;;;
  modify (fun s => s <| low ::= place_bytes (wrv + 2) (le16 (Z.shiftr addr 4)) |>) ;;;
  lapicw ICRHI (i32 (Z.shiftl apicid 24)) ;;;
  lapicw ICRLO (Z.lor (Z.lor INIT LEVEL) ASSERT) ;;;
  lapicw ICRLO (Z.lor INIT LEVEL) ;;;
  for_each (seq 0 2) (fun _ =>
    lapicw ICRHI (i32 (Z.shiftl apicid 24)) ;;;
    lapicw ICRLO (Z.lor STARTUP (Z.shiftr addr 12))).

(** ** The 8259A controllers, which are not used *)

Definition picinit : M hwst unit :=
  outb (0x20 + 1) 0xFF ;;;
  outb (0xA0 + 1) 0xFF.

(** ** The I/O APIC *)

Abbreviation REG_ID := 0%Z.
Abbreviation REG_VER := 1%Z.
Abbreviation REG_TABLE := 0x10%Z.
Abbreviation INT_DISABLED := 0x10000%Z.

Definition ireg (s : hwst) (reg : Z) : Z := default 0 (iregs s !! reg).

Definition ioapicread (reg : Z) : M hwst Z :=
  modify (fun s => s <| isel := reg |>) ;;;
  s <~ get;
  ret (ireg s (isel s)).

Definition ioapicwrite (reg data : Z) : M hwst unit :=
  modify (fun s => s <| isel := reg |>) ;;;
  modify (fun s => s <| iregs ::= <[isel s := data]> |>).

(** The result tells whether it prints that the id is not [ioapicid]. *)
Definition ioapicinit : M hwst bool :=
  v <~ ioapicread REG_VER;
  let maxintr := Z.land (Z.shiftr v 16) 0xFF in
  r <~ ioapicread REG_ID;
  s <~ get;
  for_each (seq 0 (Z.to_nat maxintr + 1)) (fun i =>
    let i := Z.of_nat i in
    ioapicwrite (REG_TABLE + 2 * i) (Z.lor INT_DISABLED (T_IRQ0 + i)) ;;;
    ioapicwrite (REG_TABLE + 2 * i + 1) 0) ;;;
  ret (negb (Z.shiftr r 24 =? ioapicid s)).

Definition ioapicenable (irq cpunum : Z) : M hwst unit :=
  ioapicwrite (REG_TABLE + 2 * irq) (T_IRQ0 + irq) ;;;
  ioapicwrite (REG_TABLE + 2 * irq + 1) (u32 (Z.shiftl cpunum 24)).

(** ** The time of day *)

Record rtcdate := mkdate { second : Z; minute : Z; hour : Z; day : Z; month : Z; year : Z }.

Abbreviation CMOS_STATA := 0xa%Z.
Abbreviation CMOS_STATB := 0xb%Z.
Abbreviation CMOS_UIP := 128%Z.
Abbreviation SECS := 0%Z.
Abbreviation MINS := 2%Z.
Abbreviation HOURS := 4%Z.
Abbreviation DAY := 7%Z.
Abbreviation MONTH := 8%Z.
Abbreviation YEAR := 9%Z.

Definition cmos_read (reg : Z) : M hwst Z :=
  outb CMOS_PORT reg ;;;
  s <~ get;
  modify (fun s => s <| now ::= S |>) ;;;
  ret (rtc s (now s) (csel s)).

Definition fill_rtcdate : M hwst rtcdate :=
  a <~ cmos_read SECS;
  b <~ cmos_read MINS;
  c <~ cmos_read HOURS;
  d <~ cmos_read DAY;
  e <~ cmos_read MONTH;
  f <~ cmos_read YEAR;
  ret (mkdate a b c d e f).

#[export] Instance rtcdate_dec : EqDecision rtcdate.
Proof. solve_decision. Defined.

Definition CONV (x : Z) : Z := Z.shiftr x 4 * 10 + Z.land x 0xf.

(** [fuel] bounds the rounds of the loop. *)
Definition cmostime (fuel : nat) : M hwst rtcdate :=
  sb <~ cmos_read CMOS_STATB;
  let bcd := Z.land sb (Z.shiftl 1 2) =? 0 in
  t1 <~ loop fuel (fun _ : unit =>
    t1 <~ fill_rtcdate;
    a <~ cmos_read CMOS_STATA;
    if negb (Z.land a CMOS_UIP =? 0) then ret (inl tt)
    else
      t2 <~ fill_rtcdate;
      ret (if decide (t1 = t2) then inr t1 else inl tt)) tt;
  let r := if bcd
           then mkdate (CONV (second t1)) (CONV (minute t1)) (CONV (hour t1)) (CONV (day t1)) (CONV (month t1)) (CONV (year t1))
           else t1 in
  ret (mkdate (second r) (minute r) (hour r) (day r) (month r) (year r + 2000)).

(** ** What [cmostime] returns *)

(** How the chip stores a number below 100. *)
Definition enc (bcd : bool) (x : Z) : Z := if bcd then 16 * (x / 10) + x mod 10 else x.

Lemma CONV_enc x : 0 <= x < 100 -> CONV (enc true x) = x.
Proof.
  intros Hx. unfold CONV, enc. change 0xf with (Z.ones 4). rewrite Z.land_ones, Z.shiftr_div_pow2 by lia. change (2 ^ 4) with 16.
  pose proof (Z.div_mod x 10 ltac:(lia)). pose proof (Z.mod_pos_bound x 10 ltac:(lia)).
  rewrite (Z.add_comm (16 * _)), (Z.mul_comm 16), Z.div_add, Z.mod_add, (Z.div_small (x mod 10)), (Z.mod_small (x mod 10)) by lia. lia.
Qed.

Lemma enc_inj bcd x y : 0 <= x < 100 -> 0 <= y < 100 -> enc bcd x = enc bcd y -> x = y.
Proof. intros Hx Hy H. destruct bcd; [|done]. by rewrite <- (CONV_enc x), <- (CONV_enc y), H. Qed.

Definition on_fields (f : Z -> Z) (d : rtcdate) : rtcdate :=
  mkdate (f (second d)) (f (minute d)) (f (hour d)) (f (day d)) (f (month d)) (f (year d)).

(** The chip [R] keeps time: [T n] is the second in which it answers read
    [n], [date] the date of a second, of two digits each.  The reads of a
    round take less than a minute. *)
Record clock_ok (R : nat -> Z -> Z) (T : nat -> Z) (date : Z -> rtcdate) (bcd : bool) : Prop := {
  ck_mono : forall n, T n <= T (S n);
  ck_fast : forall n, T (n + 13)%nat < T n + 60;
  ck_second : forall t, second (date t) = t mod 60;
  ck_digits : forall t, on_fields (fun x => bz ((0 <=? x) && (x <? 100))) (date t) = mkdate 1 1 1 1 1 1;
  ck_regs : forall n, mkdate (R n SECS) (R n MINS) (R n HOURS) (R n DAY) (R n MONTH) (R n YEAR) = on_fields (enc bcd) (date (T n));
  ck_statb : forall n, (Z.land (R n CMOS_STATB) 4 =? 0) = bcd
}.

(** Six reads from read [n] on. *)
Definition date_at (R : nat -> Z -> Z) (n : nat) : rtcdate :=
  mkdate (R n SECS) (R (n + 1)%nat MINS) (R (n + 2)%nat HOURS) (R (n + 3)%nat DAY) (R (n + 4)%nat MONTH) (R (n + 5)%nat YEAR).

Section clock.
Context (R : nat -> Z -> Z).
Implicit Types (s : hwst) (X : stop -> Prop).

Lemma wp_cmos_read reg s X (Q : Z -> hwst -> Prop) : 0 <= reg < 256 -> rtc s = R ->
  (forall s', rtc s' = R -> now s' = S (now s) -> Q (R (now s) reg) s') -> wp (cmos_read reg) X Q s.
Proof.
  intros Hr HR HQ. unfold cmos_read, outb. wsteps. rewrite <- HR in *.
  assert (u8 reg = reg) as E by (unfold u8; by rewrite Z.mod_small). cbn. rewrite E. by apply HQ.
Qed.

Lemma wp_fill_rtcdate s X (Q : rtcdate -> hwst -> Prop) : rtc s = R ->
  (forall s', rtc s' = R -> now s' = (now s + 6)%nat -> Q (date_at R (now s)) s') -> wp fill_rtcdate X Q s.
Proof.
  intros HR HQ. unfold fill_rtcdate.
  do 6 (apply wp_bind, wp_cmos_read; [lia|done|]; intros ? ? ?). apply wp_ret.
  match goal with |- Q ?d _ => replace d with (date_at R (now s)) end; [apply HQ; [done|lia]|].
  unfold date_at. repeat f_equal; lia.
Qed.

Context (T : nat -> Z) (date : Z -> rtcdate) (bcd : bool) (Hck : clock_ok R T date bcd).

Lemma T_mono n m : (n <= m)%nat -> T n <= T m.
Proof using Hck. induction 1 as [|m _ IH]; [lia|]. pose proof (ck_mono _ _ _ _ Hck m). lia. Qed.

(** Reads in the same second give its date. *)
Lemma date_at_second n : T n = T (n + 5)%nat -> date_at R n = on_fields (enc bcd) (date (T n)).
Proof using Hck.
  intros H. assert (forall k, (k <= 5)%nat -> T (n + k)%nat = T n) as HT.
  { intros k Hk. pose proof (T_mono n (n + k)%nat ltac:(lia)). pose proof (T_mono (n + k)%nat (n + 5)%nat ltac:(lia)). lia. }
  unfold date_at, on_fields.
  assert (forall k, (k <= 5)%nat -> on_fields (enc bcd) (date (T n)) = mkdate (R (n + k)%nat SECS) (R (n + k)%nat MINS) (R (n + k)%nat HOURS) (R (n + k)%nat DAY) (R (n + k)%nat MONTH) (R (n + k)%nat YEAR)) as Hk.
  { intros k Hk. rewrite (ck_regs _ _ _ _ Hck), HT by done. done. }
  pose proof (Hk 0%nat ltac:(lia)) as H0. rewrite Nat.add_0_r in H0. unfold on_fields in *.
  injection H0 as -> _ _ _ _ _. injection (Hk 1%nat ltac:(lia)) as _ -> _ _ _ _. injection (Hk 2%nat ltac:(lia)) as _ _ -> _ _ _.
  injection (Hk 3%nat ltac:(lia)) as _ _ _ -> _ _. injection (Hk 4%nat ltac:(lia)) as _ _ _ _ -> _. by injection (Hk 5%nat ltac:(lia)) as _ _ _ _ _ ->.
Qed.

(** Two equal readings were made in one second. *)
Lemma same_second n : date_at R n = date_at R (n + 7) -> T n = T (n + 7)%nat.
Proof using Hck.
  intros H. injection H as Hs _ _ _ _ _.
  assert (forall m, R m SECS = enc bcd (T m mod 60)) as Hsec.
  { intros m. pose proof (ck_regs _ _ _ _ Hck m) as E. unfold on_fields in E. injection E as -> _ _ _ _ _. by rewrite (ck_second _ _ _ _ Hck). }
  rewrite !Hsec in Hs. pose proof (Z.mod_pos_bound (T n) 60 ltac:(lia)). pose proof (Z.mod_pos_bound (T (n + 7)%nat) 60 ltac:(lia)).
  apply enc_inj in Hs; [|lia..].
  pose proof (T_mono n (n + 7) ltac:(lia)). pose proof (T_mono (n + 7) (n + 13) ltac:(lia)). pose proof (ck_fast _ _ _ _ Hck n).
  pose proof (Z.div_mod (T n) 60 ltac:(lia)). pose proof (Z.div_mod (T (n + 7)%nat) 60 ltac:(lia)). lia.
Qed.
(** A round of the loop that starts in a quiet stretch is the last. *)
Lemma wp_clock_loop N fuel s X (Q : rtcdate -> hwst -> Prop) :
  (forall n, (N <= n < N + 26)%nat -> Z.land (R n CMOS_STATA) CMOS_UIP = 0 /\ T n = T N) ->
  rtc s = R -> (now s <= N)%nat -> (N + 14 <= fuel)%nat ->
  (forall s' n, (now s <= n < now s')%nat -> Q (on_fields (enc bcd) (date (T n))) s') ->
  wp (loop fuel (fun _ : unit =>
    t1 <~ fill_rtcdate;
    a <~ cmos_read CMOS_STATA;
    if negb (Z.land a CMOS_UIP =? 0) then ret (inl tt)
    else
      t2 <~ fill_rtcdate;
      ret (if decide (t1 = t2) then inr t1 else inl tt)) tt) X Q s.
Proof using Hck.
  intros Hq HR HN Hf HQ.
  apply wp_loop with (I := fun _ s' => rtc s' = R /\ (now s <= now s' < N + 13)%nat) (var := fun _ s' => (N + 13 - now s')%nat); [split; [done|lia]|lia|].
  intros [] s1 [HR1 Hn1]. apply wp_bind, wp_fill_rtcdate; [done|]. intros s2 HR2 Hn2. apply wp_bind, wp_cmos_read; [lia|done|]. intros s3 HR3 Hn3.
  assert ((N <= now s1)%nat -> Z.land (R (now s2) CMOS_STATA) CMOS_UIP = 0 /\ date_at R (now s1) = date_at R (now s3)) as Hquiet.
  { intros Hge. split; [apply Hq; lia|]. assert (forall a b, (N <= a < N + 26)%nat -> (N <= b < N + 26)%nat -> T a = T b) as HT.
    { intros a b Ha Hb. by rewrite (proj2 (Hq a Ha)), (proj2 (Hq b Hb)). }
    rewrite (date_at_second (now s1)), (date_at_second (now s3)) by (apply HT; lia). do 2 f_equal. apply HT; lia. }
  destruct (Z.eqb_spec (Z.land (R (now s2) CMOS_STATA) CMOS_UIP) 0) as [Hu|Hu]; cbn [negb].
  2: { apply wp_ret. destruct (decide (N <= now s1)%nat) as [Hge|]; [by destruct (Hquiet Hge)|]. split; [split; [done|]|]; lia. }
  apply wp_bind, wp_fill_rtcdate; [done|]. intros s4 HR4 Hn4. apply wp_ret. destruct (decide _) as [He|He].
  - replace (now s3) with (now s1 + 7)%nat in He by lia. pose proof (same_second _ He) as Hsec.
    rewrite date_at_second; [apply HQ; lia|]. pose proof (T_mono (now s1) (now s1 + 5) ltac:(lia)). pose proof (T_mono (now s1 + 5) (now s1 + 7) ltac:(lia)). lia.
  - destruct (decide (N <= now s1)%nat) as [Hge|]; [by destruct (Hquiet Hge)|]. split; [split; [done|]|]; lia.
Qed.
End clock.


(** A chip in BCD that is read a hundred times a second. *)
Definition tick_date (t : Z) : rtcdate := mkdate (t mod 60) 59 23 31 12 26.
Definition tick_rtc (n : nat) (reg : Z) : Z :=
  match reg with
  | SECS => enc true ((Z.of_nat n / 100) mod 60)
  | MINS => enc true 59
  | HOURS => enc true 23
  | DAY => enc true 31
  | MONTH => enc true 12
  | YEAR => enc true 26
  | CMOS_STATB => 2
  | _ => 0
  end.

Lemma tick_ok : clock_ok tick_rtc (fun n => Z.of_nat n / 100) tick_date true.
Proof.
  split; [|..|done|done].
  - intros n. apply Z.div_le_mono; lia.
  - intros n. pose proof (Z.div_mod (Z.of_nat (n + 13)) 100 ltac:(lia)). pose proof (Z.mod_pos_bound (Z.of_nat (n + 13)) 100 ltac:(lia)).
    pose proof (Z.div_mod (Z.of_nat n) 100 ltac:(lia)). pose proof (Z.mod_pos_bound (Z.of_nat n) 100 ltac:(lia)). lia.
  - done.
  - intros t. unfold on_fields, tick_date. cbn -[Z.modulo Z.leb Z.ltb]. pose proof (Z.mod_pos_bound t 60 ltac:(lia)).
    destruct (Z.leb_spec 0 (t mod 60)), (Z.ltb_spec (t mod 60) 100); [done|lia..].
Qed.

