(* ===== verification/Main.v ===== *)
(** * Starting the kernel ([main.c], [uartinit] of [uart.c])

    [system] is the whole machine: the kernel's data, the devices, the IDE
    driver, the descriptor tables.  [main] runs the initialisers of the other
    files one after another on the boot CPU; [startothers] lets each other CPU
    run [mpenter] up to the store it waits for.  The code ends where
    [scheduler] begins. *)
From Stdlib Require Import ZArith Lia.
From stdpp Require Import base list gmap strings.
From S2P Require Import Prelude Params Mmu Bytes Cstring Spinlock Proc Sched SchedInv Kern Sleeplock FsData Bio Log Fs Pipe Demo Semaphore Kalloc Vm File Console Life Env Seg Trap Ide Hw Mp Apic.
#[local] Open Scope Z_scope.
#[local] Open Scope kernel_scope.

Record system := mksys {
  kern : kstate kenv;
  dev : hwst;
  disk0 : idest;
  gdts : list (list segdesc);   (* cpus[i].gdt *)
  idt : list gatedesc;
  idtr : list nat;              (* the CPUs that loaded idt *)
  started : list nat            (* the CPUs whose started is 1 *)
}.
#[export] Instance eta_system : Eta system := fun s =>
  mksys (kern s) (dev s) (disk0 s) (gdts s) (idt s) (idtr s) (started s).

Abbreviation K := (kstate kenv).
Definition on_k {A} (m : M K A) : M system A := zoom kern (fun k s => s <| kern := k |>) m.
Definition on_dev {A} (m : M hwst A) : M system A := zoom dev (fun d s => s <| dev := d |>) m.
Definition on_disk {A} (m : M idest A) : M system A := zoom disk0 (fun d s => s <| disk0 := d |>) m.

(** ** Processors *)

(** A record of the array [cpus], which starts out zero. *)
Definition cpu_zero (id : Z) : cpu := mkcpu id false 0 false None 0 0.

(** The array [cpus] once [mpinit] has stored the ids: mycpu() finds the
    executing CPU by its id.  Until then its registers are in a record that
    mycpu() cannot find. *)
Definition adopt_cpus (ids : list Z) (m : machine) : machine :=
  let c := default (cpu_zero (-1)) (cpus m !! here m) in
  match list_find (fun id => id = Spinlock.lapicid m) ids with
  | Some (b, id) => m <| cpus := <[b := c <| apicid := id |>]> (map cpu_zero ids) |> <| here := b |>
  | None => m <| cpus := map cpu_zero ids ++ [c] |> <| here := length ids |>
  end.

Definition mpinit_cpus : M system unit :=
  on_dev mpinit ;;;
  d <~ gets dev;
  on_k (on_mach (modify (adopt_cpus (apicids d)))).

(** [seginit] of [vm.c] *)
Definition seginit : M system unit :=
  i <~ on_k (on_mach cpuid);
  modify (fun s => s <| gdts ::= alter seginit_gdt i |>).

(** [idtinit] of [trap.c] *)
Definition idtinit : M system unit :=
  s <~ gets (fun s => here (mach (kern s)));
  modify (fun st => st <| idtr ::= fun l => l ++ [s] |>).

(** ** Devices *)

Abbreviation COM1 := 0x3f8%Z.
Definition idelock : Z := 0x80200060.

(** The reads that acknowledge earlier interrupts have no effect here. *)
Definition uartinit : M system unit :=
  on_dev (outb (COM1 + 2) 0 ;;;
          outb (COM1 + 3) 0x80 ;;;
          outb (COM1 + 0) (115200 / 9600) ;;;
          outb (COM1 + 1) 0 ;;;
          outb (COM1 + 3) 0x03 ;;;
          outb (COM1 + 4) 0 ;;;
          outb (COM1 + 1) 0x01) ;;;
  d <~ gets dev;
  if com1 d =? 0xFF then ret tt
  else
    on_k (on_cons (modify (fun c => c <| uart := true |>))) ;;;
    on_dev (ioapicenable IRQ_COM1 0) ;;;
    on_k (on_cons (for_each (text "xv6..." ++ [NL]) uartputc)).

Definition consoleinit_irq : M system unit :=
  on_k consoleinit ;;;
  on_dev (ioapicenable IRQ_KBD 0).

Definition ioapicinit_msg : M system unit :=
  b <~ on_dev ioapicinit;
  if b : bool then on_k (cprintf (text "ioapicinit: id isn't equal to ioapicid; not a MP" ++ [NL]) []) else ret tt.

Definition ideinit_irq : M system unit :=
  on_k (on_mach (initlock idelock "ide")) ;;;
  d <~ gets dev;
  on_dev (ioapicenable IRQ_IDE (ncpu d - 1)) ;;;
  on_disk ideinit.

(** ** [main] *)

(** The page directory of [entry.S] and [entryother.S]. *)
Abbreviation PTE_PS := 0x80%Z.
Definition entrypgdir : list Z :=
  <[Z.to_nat (Z.shiftr KERNBASE PDXSHIFT) := Z.lor (Z.lor (Z.lor 0 PTE_P) PTE_W) PTE_PS]>
  (<[0%nat := Z.lor (Z.lor (Z.lor 0 PTE_P) PTE_W) PTE_PS]> (replicate (Z.to_nat NPDENTRIES) 0)).

Section main.
Context `{Layout}.
(** What the linker placed: the entry points of [vectors.S], the code of
    [entryother.S] and of [initcode.S], and two addresses. *)
Context (vectors : nat -> Z) (entryother initcode : list Z) (mpenter_addr entrypgdir_addr : Z).

Definition tvinit : M system unit :=
  modify (fun s => s <| idt := tvinit_gates vectors |>) ;;;
  on_k (on_mach (initlock tickslock "time")).

(** [mpmain] up to [scheduler]. *)
Definition mpmain : M system unit :=
  i <~ on_k (on_mach cpuid);
  j <~ on_k (on_mach cpuid);
  on_k (cprintf (text "cpu%d: starting %d" ++ [NL]) [AInt (Z.of_nat j); AInt (Z.of_nat i)]) ;;;
  idtinit ;;;
  c <~ on_k (on_mach mycpu);
  modify (fun s => s <| started ::= fun l => l ++ [c] |>).

Definition mpenter : M system unit :=
  on_k switchkvm ;;;
  seginit ;;;
  on_dev lapicinit ;;;
  mpmain.

(** CPU [c] with APIC id [id] executes [m], then the CPU that executed before
    goes on. *)
Definition as_cpu {A} (c : nat) (id : Z) (m : M system A) : M system A :=
  s <~ get;
  let switch c id := on_k (on_mach (modify (fun m => m <| here := c |> <| Spinlock.lapicid := id |>))) ;;;
                     on_dev (modify (fun d => d <| me := id |>)) in
  switch c id ;;;
  a <~ m;
  switch (here (mach (kern s))) (Spinlock.lapicid (mach (kern s))) ;;;
  ret a.

Definition startothers : M system unit :=
  let code := P2V 0x7000 in
  on_dev (modify (fun d => d <| low ::= place_bytes code entryother |>)) ;;;
  d <~ gets dev;
  for_each (seq 0 (length (apicids d))) (fun c =>
    i <~ on_k (on_mach mycpu);
    if decide (c = i) then ret tt
    else
      stack <~ on_k kalloc;
      on_dev (modify (fun d => d <| low ::= place_bytes (code - 4) (le32 (stack + KSTACKSIZE)) |>)) ;;;
      on_dev (modify (fun d => d <| low ::= place_bytes (code - 8) (le32 mpenter_addr) |>)) ;;;
      on_dev (modify (fun d => d <| low ::= place_bytes (code - 12) (le32 (V2P entrypgdir_addr)) |>)) ;;;
      let id := nth c (apicids d) 0 in
      on_dev (lapicstartap id (V2P code)) ;;;
      as_cpu c id mpenter).

Definition main : M system unit :=
  on_k (kinit1 kend (P2V (4 * 1024 * 1024))) ;;;
  on_k kvmalloc ;;;
  mpinit_cpus ;;;
  on_dev lapicinit ;;;
  seginit ;;;
  on_dev picinit ;;;
  ioapicinit_msg ;;;
  consoleinit_irq ;;;
  uartinit ;;;
  on_k pinit ;;;
  tvinit ;;;
  on_k binit ;;;
  on_k fileinit ;;;
  ideinit_irq ;;;
  startothers ;;;
  on_k (kinit2 (P2V (4 * 1024 * 1024)) (P2V PHYSTOP)) ;;;
  on_k (userinit initcode) ;;;
  mpmain.
End main.
