(* ===== verification/MainThms.v ===== *)
(** * What [main] leaves ([main.c])

    The parts of [main] one after another: memory before the locks work, the
    devices, the tables, the other CPUs, the first process. *)
From Stdlib Require Import ZArith Lia ZifyBool.
From stdpp Require Import base list gmap strings.
From S2P Require Import Prelude Params Mmu Bytes Cstring Spinlock Proc Sched SchedInv SchedThms Kern Sleeplock FsData Bio Log Fs Pipe Demo Semaphore Kalloc Vm VmMap VmSpace VmThms VmInit BootMem File Console Life Env ConsoleThms UserInit Seg Trap Ide Hw Mp Apic Main.
#[local] Open Scope Z_scope.
#[local] Open Scope kernel_scope.

(** ** Memory *)

(** [pd] maps the kernel's part of every address space, with the tables [T]. *)
Definition kmap `{Layout} (pgs : gmap Z (list Z)) (pd : Z) (T : gmap Z Z) : Prop :=
  dir_ok pgs pd T /\ forall v, UPAGES <= v -> ent pgs T v = kern_ent v.

Lemma kmap_frame `{Layout} pgs pgs' pd T : (forall p, p ∈ own pd T ∅ -> pgs' !! p = pgs !! p) -> kmap pgs pd T -> kmap pgs' pd T.
Proof.
  unfold own. intros Hf [Hd He]. split.
  - eapply dir_ok_frame; [done|]. intros p Hp. apply Hf. set_solver.
  - intros v Hv. rewrite (ent_frame pgs); [by apply He|]. intros p Hp. apply Hf. set_solver.
Qed.

Lemma kmap_pte `{Layout} pgs pd T va : kmap pgs pd T -> KERNBASE <= va < 2 ^ 32 -> mmu_pte pgs pd va = kern_ent (va / 4096).
Proof.
  intros [Hd He] Hva. unfold KERNBASE in Hva. rewrite (mmu_pte_dir _ _ T) by (done || lia). apply He. unfold UPAGES. apply Z.div_le_lower_bound; lia.
Qed.

Section early.
Context `{Layout} (pt : list proc) (q : mlfq) (np : Z) (ip : option nat) (tk : Z) (fi : bool) (kp : Z) (m : machine) (e : kenv).
Abbreviation st e := (mkk m pt q np ip tk fi kp e).
Abbreviation real := (@sub_ops _ kenv kmem _ (@kern_ops kenv)).
Implicit Types (X : stop -> Prop).

Lemma real_ps (s : kstate kenv) t : @part _ _ real (@set_part _ _ real t s) = t.
Proof. done. Qed.
Lemma real_ss (s : kstate kenv) t t' : @set_part _ _ real t (@set_part _ _ real t' s) = @set_part _ _ real t s.
Proof. done. Qed.
Abbreviation off_laws := (unlocked_laws real real_ps real_ss (st e)).

Lemma off_at : at_ (H0 := off_laws) (st e) [] (e_mem e).
Proof. split; [|done]. exists (e_mem e). by destruct e. Qed.
Lemma off_inv s L k : at_ (H0 := off_laws) s L k -> s = st (e <| e_mem := k |>).
Proof. by intros [[t ->] <-]. Qed.

Lemma wp_off {A} (f f' : M (kstate kenv) A) X (Q : A -> kstate kenv -> Prop) :
  agree (fun s => use_lock (@part _ _ real s) = 0) f f' -> use_lock (e_mem e) = 0 -> wp f' X Q (st e) -> wp f X Q (st e).
Proof. intros Ha Hu Hf. eapply agree_wp; [exact Ha|done|]. by eapply wp_mono. Qed.

Lemma wp_freerange_off l a b X (Q : unit -> kstate kenv -> Prop) :
  let p := PGROUNDUP a in let n := Z.to_nat ((b - p) / PGSIZE) in
  use_lock (e_mem e) = 0 -> free_ok (e_mem e) l -> (forall v, v ∈ page_range p n -> page_ok v /\ (v ∉ l)) ->
  (forall k', free_ok k' (page_range p n ++ l) -> use_lock k' = 0 ->
     (forall v, v ∉ page_range p n -> pages k' !! v = pages (e_mem e) !! v) -> Q tt (st (e <| e_mem := k' |>))) ->
  wp (freerange a b) X Q (st e).
Proof.
  intros p n Hu Hf Hr HQ. eapply wp_off; [exact (lf_freerange _ real (unlocked real) (off_get real) (off_mod real real_ps) (off_acquire real) (off_release real) a b)|done|].
  eapply (wp_freerange (H1 := off_laws)); [apply off_at|apply not_elem_of_nil|exact Hf|exact Hr|].
  intros s' k' ->%off_inv Hf' Hu' Hp'. apply HQ; [done|congruence|done].
Qed.

Lemma wp_kalloc_off a l X (Q : Z -> kstate kenv -> Prop) :
  use_lock (e_mem e) = 0 -> free_ok (e_mem e) (a :: l) ->
  (forall k', free_ok k' l -> use_lock k' = 0 -> pages k' = pages (e_mem e) -> Q a (st (e <| e_mem := k' |>))) ->
  wp kalloc X Q (st e).
Proof.
  intros Hu Hf HQ. eapply wp_off; [exact (lf_kalloc _ real (unlocked real) (off_get real) (off_mod real real_ps) (off_acquire real) (off_release real))|done|].
  eapply (wp_kalloc (H1 := off_laws)); [apply off_at|apply not_elem_of_nil|exact Hf|].
  intros s' k' ->%off_inv Hf' Hp' Hu'. apply HQ; [done|congruence|done].
Qed.

Lemma wp_setupkvm_off l X (Q : Z -> kstate kenv -> Prop) :
  use_lock (e_mem e) = 0 -> free_ok (e_mem e) l -> (65 < length l)%nat ->
  (forall k' l' pd T, free_ok k' l' -> kmap (pages k') pd T -> own pd T ∅ ++ l' ≡ₚ l ->
     (length (tabs T) <= 64)%nat -> use_lock k' = 0 -> Q pd (st (e <| e_mem := k' |>))) ->
  wp setupkvm X Q (st e).
Proof.
  intros Hu Hf Hlen HQ. eapply wp_off; [exact (lf_setupkvm _ real (unlocked real) (off_get real) (off_mod real real_ps) (off_acquire real) (off_release real))|done|].
  eapply (wp_setupkvm (H1 := off_laws)); [apply not_elem_of_nil|apply off_at|exact Hf|intros; lia|].
  intros s' k' l' pd T Has Ho Hk Hfr Hu' Ht. destruct Has as [[Hat Hf' Hd _ _] _ _ _ _]. apply off_inv in Hat as ->.
  apply (HQ k' l' pd T); [done|done|done|done|congruence].
Qed.
End early.

(** ** CPUs that are not in a critical section *)

(** CPU [b] executes, no lock is held, and the CPUs, with the APIC ids [ids],
    have interrupts off and run no process. *)
Definition idle (id : Z) (c : cpu) : Prop := apicid c = id /\ ncli c = 0 /\ intr_on c = false /\ cproc c = None.
Record quiet (m : machine) (b : nat) (ids : list Z) : Prop := {
  qu_here : here m = b;
  qu_me : ids !! b = Some (Spinlock.lapicid m);
  qu_cpus : Forall2 idle ids (cpus m);
  qu_locks : forall lk, locked (lock_at m lk) = 0
}.

Lemma find_cpu_idle ids cs b id : NoDup ids -> Forall2 idle ids cs -> ids !! b = Some id -> find_cpu id cs = Some b.
Proof.
  intros Hnd Hf. revert b. induction Hf as [|i c ids cs (Hi & _) Hf IH]; intros b Hb; [done|].
  apply NoDup_cons in Hnd as [Hn Hnd]. cbn. destruct b as [|b]; cbn in Hb.
  - injection Hb as ->. by rewrite Hi, Z.eqb_refl.
  - rewrite Hi. destruct (Z.eqb_spec i id) as [->|]; [destruct Hn; by eapply list_elem_of_lookup_2|]. by rewrite (IH Hnd b).
Qed.

Lemma quiet_view m b ids : NoDup ids -> quiet m b ids -> view m [] (mkwho b false None (cpus m)).
Proof.
  intros Hnd [Hh Hm Hc Hl]. destruct (Forall2_lookup_l _ _ _ _ _ Hc Hm) as (c & Hcb & Ha & Hn & Hi & Hp).
  exists c. split; [split; [done|]; split; [done|by eapply find_cpu_idle]|]. split; [done|]. split; [done|]. split; [constructor|].
  split; [done|]. split; [by intros lk ?%not_elem_of_nil|]. split; [done|]. cbn. split; [by rewrite list_insert_id|]. by rewrite Hcb.
Qed.

Lemma find_cpu_Some id cs b : find_cpu id cs = Some b -> exists c, cs !! b = Some c /\ apicid c = id.
Proof.
  revert b. induction cs as [|c cs IH]; intros b; cbn; [done|]. destruct (Z.eqb_spec (apicid c) id) as [He|_].
  - intros [= <-]. by exists c.
  - intros (b' & Hb & ->)%fmap_Some. by apply IH.
Qed.

Lemma view_quiet m b ids cs : Forall2 idle ids cs -> view m [] (mkwho b false None cs) -> quiet m b ids.
Proof.
  intros Hf (c & (Hh & Hcb & Hfc) & Hn & Hp & _ & Hi & _ & Hl & Hcs & Hid). cbn in *. split.
  - done.
  - destruct (find_cpu_Some _ _ _ Hfc) as (c' & Hc' & <-). assert (c' = c) as -> by congruence.
    destruct (cs !! b) as [c0|] eqn:Hc0; [|done]. cbn in Hid. destruct (Forall2_lookup_r _ _ _ _ _ Hf Hc0) as (id & Hib & Ha & _).
    rewrite Hib. congruence.
  - rewrite Hcs. destruct (cs !! b) as [c0|] eqn:Hc0; [|done]. cbn in Hid.
    destruct (Forall2_lookup_r _ _ _ _ _ Hf Hc0) as (id & Hib & Ha & _). rewrite <- (list_insert_id ids b id) by done.
    apply Forall2_insert; [done|]. split; [congruence|done].
  - intros lk. apply Hl, not_elem_of_nil.
Qed.

(** ** The kernel's part of each step *)

Section steps.
Context (b : nat) (ids : list Z) (Hnd : NoDup ids).
Implicit Types (m : machine) (e : kenv) (X : stop -> Prop).

(** Code that the rules for locks cover. *)
Lemma q_view m (Q : machine -> Prop) :
  quiet m b ids -> (forall cs, view m [] (mkwho b false None cs) -> (forall m', view m' [] (mkwho b false None cs) -> quiet m' b ids) -> Q m) -> Q m.
Proof using Hnd.
  intros Hq HQ. apply (HQ (cpus m)); [by apply (quiet_view m b ids)|]. intros m' Hv. eapply view_quiet; [|done]. apply Hq.
Qed.

Lemma q_initlock m pt q np ip tk fi kp e lk nm X (Q : unit -> kstate kenv -> Prop) :
  quiet m b ids -> (forall m', quiet m' b ids -> Q tt (mkk m' pt q np ip tk fi kp e)) ->
  wp (on_mach (initlock lk nm)) X Q (mkk m pt q np ip tk fi kp e).
Proof using Hnd.
  intros Hq HQ. apply (q_view m); [done|]. intros cs Hv Hk. apply wp_on_mach. cbn. by apply HQ, Hk, view_initlock.
Qed.

Lemma q_mycpu m pt q np ip tk fi kp e X (Q : nat -> kstate kenv -> Prop) :
  quiet m b ids -> Q b (mkk m pt q np ip tk fi kp e) -> wp (on_mach mycpu) X Q (mkk m pt q np ip tk fi kp e).
Proof using Hnd.
  intros Hq HQ. apply (q_view m); [done|]. intros cs (c & Hon & _ & _ & _ & Hi & _) _. apply wp_on_mach. unfold wp.
  by rewrite (mycpu_run _ _ _ Hon).
Qed.

Lemma q_switchkvm m pt q np ip tk fi kp e X (Q : unit -> kstate kenv -> Prop) :
  quiet m b ids -> (forall m', quiet m' b ids -> Q tt (mkk m' pt q np ip tk fi kp e)) ->
  wp switchkvm X Q (mkk m pt q np ip tk fi kp e).
Proof.
  intros [Hh Hm Hc Hl] HQ. unfold switchkvm. kstep. kstep. apply wp_on_mach. destruct (Forall2_lookup_l _ _ _ _ _ Hc Hm) as (c & Hcb & Hid).
  wsteps. unfold cpu_at. wsteps. rewrite Hh. eapply wp_some; [done|]. unfold set_cpu. wsteps. apply HQ. split; [done|done| |done].
  cbn. rewrite <- (list_insert_id ids b (Spinlock.lapicid m)) by done. apply Forall2_insert; [done|]. exact Hid.
Qed.

Lemma q_pinit m pt q np ip tk fi kp e X (Q : unit -> kstate kenv -> Prop) :
  quiet m b ids -> length (qlevels q) = 3%nat -> mlfq_proc_cnt q = 0 ->
  (forall m', quiet m' b ids -> Q tt (mkk m' pt (boot_queue (next_t q)) np ip tk fi kp e)) ->
  wp pinit X Q (mkk m pt q np ip tk fi kp e).
Proof using Hnd.
  intros Hq Hlen Hcnt HQ. unfold pinit. kstep. apply q_initlock; [done|]. intros m1 Hq1. kstep. apply q_initlock; [done|]. intros m2 Hq2.
  apply (q_view m2); [done|]. intros cs Hv Hk. kstep. kstep. kstep. kstep. kstep. apply wp_set_qlevel; [done|]. kstep. apply wp_set_qlevel; [done|].
  kstep. apply wp_set_qlevel; [done|]. kstep. kstep. kstep.
  match goal with |- Q tt (mkk _ _ ?q' _ _ _ _ _ _) => replace q' with (boot_queue (next_t q)) end; [by apply HQ, Hk|].
  destruct q as [? ? ? n ? ? ql ?]. cbn in Hlen, Hcnt. subst n. by destruct ql as [|? [|? [|? [|]]]].
Qed.

Lemma q_consoleinit m pt q np ip tk fi kp e X (Q : unit -> kstate kenv -> Prop) :
  quiet m b ids -> (forall m', quiet m' b ids -> Q tt (mkk m' pt q np ip tk fi kp (e <| e_con ::= fun c => c <| locking := 1 |> |>))) ->
  wp consoleinit X Q (mkk m pt q np ip tk fi kp e).
Proof using Hnd. intros Hq HQ. unfold consoleinit. kstep. apply q_initlock; [done|]. intros m1 Hq1. by apply HQ. Qed.

Lemma wp_printint c v X (Q : unit -> console -> Prop) :
  screen_ok c -> 0 <= v < 2 ^ 31 -> (forall c', screen_ok c' -> Q tt c') -> wp (printint (i32 v) 10 true) X Q c.
Proof.
  intros Hs Hv HQ. unfold printint. rewrite i32_small by lia. destruct (printint_atoi 97 v) as (l & -> & _); [lia|]. wsteps.
  apply wp_cputs; [done|]. auto.
Qed.

(** A format with [%d] only, and an argument for each. *)
Fixpoint ints_ok (fmt : list Z) (args : list parg) : bool :=
  match fmt with
  | [] => true
  | c :: fmt =>
      if c =? 37 then
        match fmt, args with
        | d :: fmt, AInt v :: args => (d =? 100) && (0 <=? v) && (v <? 2 ^ 31) && ints_ok fmt args
        | _, _ => false
        end
      else ints_ok fmt args
  end.

Lemma wp_format_ints n fmt args c X (Q : unit -> console -> Prop) :
  (length fmt <= n)%nat -> ints_ok fmt args = true -> screen_ok c -> (forall c', screen_ok c' -> Q tt c') -> wp (format fmt args) X Q c.
Proof.
  revert fmt args c. induction n as [|n IH]; intros [|ch fmt] args c Hl Hok Hs HQ; cbn in Hl; try lia; [by apply HQ..|].
  cbn [ints_ok format] in *. destruct (ch =? 37).
  - destruct fmt as [|d fmt]; [done|]. destruct args as [|[v|] args]; [done| |done].
    rewrite !andb_true_iff in Hok. destruct Hok as [[[Hd%Z.eqb_eq Hv0] Hv1] Hok]. subst d. cbn in Hl. apply wp_bind. unfold convert. cbn [Z.eqb Pos.eqb].
    apply wp_bind, wp_printint; [done|lia|]. intros c' Hs'. apply wp_ret. apply IH; [lia|done..].
  - apply wp_bind, wp_consputc; [done|]. intros c' Hs' _. apply IH; [lia|done..].
Qed.

Lemma q_cprintf m pt q np ip tk fi kp e fmt args X (Q : unit -> kstate kenv -> Prop) :
  quiet m b ids -> screen_ok (e_con e) -> ints_ok fmt args = true ->
  (forall m' c', quiet m' b ids -> screen_ok c' -> Q tt (mkk m' pt q np ip tk fi kp (e <| e_con := c' |>))) ->
  wp (cprintf fmt args) X Q (mkk m pt q np ip tk fi kp e).
Proof using Hnd.
  intros Hq Hs Hok HQ. unfold cprintf. kstep. unfold k_get. kstep.
  apply (q_view m); [done|]. intros cs Hv Hk. cbv zeta. change (part _) with (e_con e).
  destruct (locking (e_con e) =? 0); cbn [negb].
  - kstep. kstep. kstep. unfold on_cons, own. apply wp_zoom. eapply wp_format_ints; [reflexivity|done|done|]. intros c' Hc'. kstep. by apply HQ.
  - kstep. change (k_acquire cons_lock) with (acquire_k (E := kenv) cons_lock). kstep. kstep. unfold on_cons, own. apply wp_zoom.
    eapply wp_format_ints; [reflexivity|done|done|]. intros c' Hc'. change (k_release cons_lock) with (release_k (E := kenv) cons_lock).
    change (set_part _ _) with (mkk m0 pt q np ip tk fi kp (e <| e_con := c' |>)). kstep. by apply HQ; [apply Hk|].
Qed.

(** [binit] links all the buffers and touches nothing else of the file system. *)
Lemma q_binit m pt q np ip tk fi kp e X (Q : unit -> kstate kenv -> Prop) :
  quiet m b ids ->
  (forall m' t', quiet m' b ids -> lru t' = rev (seq 0 NBUF) -> inodes t' = inodes (e_fs e) -> disk t' = disk (e_fs e) ->
     Q tt (mkk m' pt q np ip tk fi kp (e <| e_fs := t' |>))) ->
  wp binit X Q (mkk m pt q np ip tk fi kp e).
Proof using Hnd.
  intros Hq HQ. unfold binit. kstep. apply q_initlock; [done|]. intros m1 Hq1. kstep. unfold k_mod at 1, own. apply wp_zoom. apply wp_modify.
  apply wp_for_seq with (I := fun n s => exists m' t', s = mkk m' pt q np ip tk fi kp (e <| e_fs := t' |>) /\ quiet m' b ids /\
    lru t' = rev (seq 0 n) /\ inodes t' = inodes (e_fs e) /\ disk t' = disk (e_fs e)).
  - by eexists m1, _.
  - intros n s Hn (m2 & t2 & -> & Hq2 & Hl & Hi & Hd). kstep. unfold initsleeplock. kstep. apply q_initlock; [done|]. intros m3 Hq3.
    unfold k_mod, own. apply wp_zoom. apply wp_modify. apply wp_zoom. apply wp_modify. eexists m3, _. split; [reflexivity|]. split; [done|].
    rewrite (seq_S n 0), rev_app_distr. split; [|done]. cbn [rev app Nat.add]. change (n :: lru t2 = n :: rev (seq 0 n)). by rewrite Hl.
  - intros s (m2 & t2 & -> & Hq2 & Hl & Hi & Hd). by apply HQ.
Qed.
End steps.

(** ** The devices' part *)

(** Line [i] of the I/O APIC. *)
Definition redir (d : hwst) (i : Z) : Z * Z := (ireg d (REG_TABLE + 2 * i), ireg d (REG_TABLE + 2 * i + 1)).
Definition route (R : Z -> option Z) (i : Z) : Z * Z :=
  match R i with
  | Some cpu => (T_IRQ0 + i, u32 (Z.shiftl cpu 24))
  | None => (Z.lor INT_DISABLED (T_IRQ0 + i), 0)
  end.

(** The lines up to [n] are enabled and sent to CPUs as [R] says. *)
Definition routes (n : Z) (R : Z -> option Z) (d : hwst) : Prop := forall i, 0 <= i <= n -> redir d i = route R i.
Definition enable (irq cpu : Z) (R : Z -> option Z) (i : Z) : option Z := if i =? irq then Some cpu else R i.

(** A step that leaves the CPUs, the serial port and the I/O APIC alone. *)
Definition dev_same (d d' : hwst) : Prop := apicids d' = apicids d /\ com1 d' = com1 d /\ iregs d' = iregs d.

Lemma dev_same_trans d1 d2 d3 : dev_same d1 d2 -> dev_same d2 d3 -> dev_same d1 d3.
Proof. unfold dev_same. intuition congruence. Qed.
Lemma dev_same_routes n R d d' : dev_same d d' -> routes n R d -> routes n R d'.
Proof. intros (_ & _ & H) Hr i Hi. rewrite <- Hr by done. unfold redir, ireg. by rewrite H. Qed.

Implicit Types (d : hwst) (X : stop -> Prop).

Lemma d_lapicw i v d X (Q : unit -> hwst -> Prop) : (forall d', dev_same d d' -> Q tt d') -> wp (lapicw i v) X Q d.
Proof. intros HQ. by apply HQ. Qed.
Lemma d_outb p v d X (Q : unit -> hwst -> Prop) : (forall d', dev_same d d' -> Q tt d') -> wp (outb p v) X Q d.
Proof. intros HQ. by apply HQ. Qed.
Lemma d_low f d X (Q : unit -> hwst -> Prop) : (forall d', dev_same d d' -> Q tt d') -> wp (modify (fun d => d <| low ::= f |>)) X Q d.
Proof. intros HQ. by apply HQ. Qed.

Ltac dsteps :=
  repeat (lazymatch goal with
    | |- wp (bind _ _) _ _ _ => apply wp_bind
    | |- wp (lapicw _ _) _ _ _ => apply d_lapicw; let d := fresh "d" in let H := fresh "Hd" in intros d H
    | |- wp (outb _ _) _ _ _ => apply d_outb; let d := fresh "d" in let H := fresh "Hd" in intros d H
    | |- wp (modify (fun d => d <| low ::= _ |>)) _ _ _ => apply d_low; let d := fresh "d" in let H := fresh "Hd" in intros d H
    | |- wp (ret _) _ _ _ => apply wp_ret
    end; cbn beta).
Ltac dsame := repeat (eassumption || (eapply dev_same_trans; [eassumption|])); done.

Lemma d_delivery d0 d n X (Q : unit -> hwst -> Prop) :
  dev_same d0 d -> (length (icrlo d) < n)%nat -> (forall d', dev_same d0 d' -> Q tt d') ->
  wp (loop n (fun _ : unit =>
      r <~ read_icrlo;
      ret (if negb (Z.land r DELIVS =? 0) then inl tt else inr tt)) tt) X Q d.
Proof.
  intros Hd Hn HQ. apply wp_loop with (I := fun _ d' => dev_same d0 d') (var := fun _ d' => length (icrlo d')); [done|done|].
  intros [] d1 Hd1. unfold read_icrlo. apply wp_bind, wp_bind, wp_get. destruct (icrlo d1) as [|r l] eqn:Hl.
  - do 2 apply wp_ret. by apply HQ.
  - apply wp_bind, wp_put, wp_ret, wp_ret. destruct (Z.land r DELIVS =? 0); cbn [negb]; [by apply HQ|]. split; [done|]. cbn. lia.
Qed.

Lemma d_lapicinit d X (Q : unit -> hwst -> Prop) : (forall d', dev_same d d' -> Q tt d') -> wp lapicinit X Q d.
Proof.
  intros HQ. unfold lapicinit. apply wp_bind, wp_get. destruct (lapic d =? 0); [apply wp_ret; by apply HQ|].
  unfold lapicw. destruct (4 <=? _); repeat (lazymatch goal with
    | |- wp (bind _ _) _ _ _ => apply wp_bind
    | |- wp (modify _) _ _ _ => apply wp_modify
    | |- wp (ret _) _ _ _ => apply wp_ret end; cbn beta);
    (eapply d_delivery; [by repeat split|cbn; lia|]; intros d1 Hd1; apply wp_modify; by apply HQ).
Qed.

Lemma d_lapicstartap id a d X (Q : unit -> hwst -> Prop) : (forall d', dev_same d d' -> Q tt d') -> wp (lapicstartap id a) X Q d.
Proof.
  intros HQ. unfold lapicstartap. cbn [for_each seq]. dsteps. apply HQ. dsame.
Qed.

Lemma d_ioapicwrite r v d X (Q : unit -> hwst -> Prop) :
  (forall d', apicids d' = apicids d -> com1 d' = com1 d -> iregs d' = <[r := v]> (iregs d) -> Q tt d') -> wp (ioapicwrite r v) X Q d.
Proof. intros HQ. unfold ioapicwrite. wsteps. by apply HQ. Qed.

(** The two registers of a line. *)
Lemma redir_write d d' i j x y :
  iregs d' = <[REG_TABLE + 2 * i + 1 := y]> (<[REG_TABLE + 2 * i := x]> (iregs d)) ->
  redir d' j = if j =? i then (x, y) else redir d j.
Proof.
  intros H. unfold redir, ireg. rewrite H. destruct (Z.eqb_spec j i) as [->|Hne].
  - rewrite lookup_insert_ne, !lookup_insert_eq by lia. done.
  - by rewrite !lookup_insert_ne by lia.
Qed.

Lemma d_ioapicenable n R irq cpu d X (Q : unit -> hwst -> Prop) :
  routes n R d ->
  (forall d', apicids d' = apicids d -> com1 d' = com1 d -> routes n (enable irq cpu R) d' -> Q tt d') -> wp (ioapicenable irq cpu) X Q d.
Proof.
  intros Hr HQ. unfold ioapicenable. apply wp_bind, d_ioapicwrite. intros d1 Ha1 Hc1 Hi1. apply d_ioapicwrite. intros d2 Ha2 Hc2 Hi2.
  apply HQ; [congruence|congruence|]. intros i Hi. rewrite Hi1 in Hi2. rewrite (redir_write _ _ _ _ _ _ Hi2).
  unfold route, enable. destruct (Z.eqb_spec i irq) as [->|]; [done|]. by apply Hr.
Qed.

(** The highest line, as the I/O APIC tells it. *)
Definition maxintr (d : hwst) : Z := Z.land (Z.shiftr (ireg d REG_VER) 16) 0xFF.

Lemma d_ioapicinit d X (Q : bool -> hwst -> Prop) :
  (forall x d', apicids d' = apicids d -> com1 d' = com1 d -> routes (maxintr d) (fun _ => None) d' -> Q x d') -> wp ioapicinit X Q d.
Proof.
  intros HQ. unfold ioapicinit, ioapicread. wsteps.
  apply wp_for_seq with (I := fun n d' => apicids d' = apicids d /\ com1 d' = com1 d /\ routes (Z.of_nat n - 1) (fun _ => None) d').
  - split; [done|]. split; [done|]. intros i Hi. lia.
  - intros n d1 Hn (Ha & Hc & Hr). apply wp_bind, d_ioapicwrite. intros d2 Ha2 Hc2 Hi2. apply d_ioapicwrite. intros d3 Ha3 Hc3 Hi3.
    split; [congruence|]. split; [congruence|]. intros i Hi. rewrite Hi2 in Hi3. rewrite (redir_write _ _ _ _ _ _ Hi3).
    destruct (Z.eqb_spec i (Z.of_nat n)) as [->|]; [done|]. apply Hr. lia.
  - intros d1 (Ha & Hc & Hr). wsteps. apply HQ; [done|done|]. change (ireg _ _) with (ireg d REG_VER) in Hr. fold (maxintr d) in Hr.
    intros i Hi. apply Hr. lia.
Qed.

Lemma wp_inb_status (s : idest) X (Q : Z -> idest -> Prop) :
  (forall r s', match Ide.status (Ide.hw s) with [] => r = IDE_DRDY /\ s' = s | x :: l => r = x /\ Ide.status (Ide.hw s') = l end -> Q r s') ->
  wp inb_status X Q s.
Proof.
  intros HQ. unfold inb_status. apply wp_bind, wp_get. destruct (Ide.status (Ide.hw s)) as [|r l] eqn:Hs.
  - apply wp_ret. by apply HQ.
  - apply wp_bind, wp_put, wp_ret. by apply HQ.
Qed.

(** [ideinit] returns whatever the drive answers. *)
Lemma wp_ideinit (s : idest) X (Q : unit -> idest -> Prop) : (forall s', Q tt s') -> wp ideinit X Q s.
Proof.
  intros HQ. unfold ideinit. apply wp_bind. unfold idewait. apply wp_bind, wp_get, wp_bind.
  apply wp_loop with (I := fun _ _ => True) (var := fun _ s' => length (Ide.status (Ide.hw s'))); [done|lia|].
  intros [] s1 _. apply wp_bind, wp_inb_status. intros r s2 Hr. apply wp_ret. destruct (_ =? IDE_DRDY) eqn:Hd.
  2: { split; [done|]. destruct (Ide.status (Ide.hw s1)); [by destruct Hr as [-> _]|]. destruct Hr as [_ ->]. cbn. lia. }
  apply wp_ret. apply wp_bind. unfold Ide.outb. apply wp_modify. apply wp_bind.
  apply wp_for_until with (I := fun _ _ => True); [done| |].
  - intros x r' s3 _. apply wp_bind, wp_inb_status. intros r3 s4 _. destruct (negb _); [|by apply wp_ret].
    apply wp_bind, wp_modify, wp_ret, wp_modify. by apply HQ.
  - intros s3 _. apply wp_modify. by apply HQ.
Qed.

(** ** Steps of the whole machine *)

Section going.
Context (b : nat) (ids : list Z) (Hnd : NoDup ids) (n cm : Z) (pt : list proc) (np : Z) (ip : option nat).
Implicit Types (s : system) (q : mlfq) (R : Z -> option Z) (kp : Z) (k : kmem) (I : list inode).

(** The machine between two steps of [main], once the CPUs are known. *)
Record going s q R kp k I g it ir sa : Prop := {
  go_kern : exists m e, kern s = mkk m pt q np ip 0 true kp e /\ quiet m b ids /\ e_mem e = k /\
    screen_ok (e_con e) /\ inodes (e_fs e) = I;
  go_dev : apicids (dev s) = ids /\ com1 (dev s) = cm /\ routes n R (dev s);
  go_tabs : gdts s = g /\ idt s = it /\ idtr s = ir /\ started s = sa
}.

(** Code on the kernel's data, on the devices. *)
Lemma go_on_k {A} s q R kp k I g it ir sa (f : M (kstate kenv) A) X (Q : A -> system -> Prop) :
  going s q R kp k I g it ir sa ->
  (forall m e, quiet m b ids -> e_mem e = k -> screen_ok (e_con e) -> inodes (e_fs e) = I ->
     wp f X (fun a ks => exists m' e' q' k2 kp' I', ks = mkk m' pt q' np ip 0 true kp' e' /\ quiet m' b ids /\ e_mem e' = k2 /\
       screen_ok (e_con e') /\ inodes (e_fs e') = I' /\ forall s', going s' q' R kp' k2 I' g it ir sa -> Q a s')
     (mkk m pt q np ip 0 true kp e)) -> wp (on_k f) X Q s.
Proof.
  intros [(m & e & Hk & Hq & Hm & Hc & Hi) Hd Ht] Hf. apply wp_zoom. rewrite Hk. eapply wp_mono; [by apply Hf|].
  intros a ks (m' & e' & q' & k2 & kp' & I' & -> & Hq' & Hm' & Hc' & Hi' & HQ). apply HQ. split; [by exists m', e'|exact Hd|exact Ht].
Qed.

Lemma go_on_dev {A} s q R kp k I g it ir sa (f : M hwst A) X (Q : A -> system -> Prop) :
  going s q R kp k I g it ir sa ->
  (forall d, apicids d = ids -> com1 d = cm -> routes n R d ->
     wp f X (fun a d' => exists R', apicids d' = ids /\ com1 d' = cm /\ routes n R' d' /\
       forall s', going s' q R' kp k I g it ir sa -> Q a s') d) -> wp (on_dev f) X Q s.
Proof.
  intros [Hk (Ha & Hc & Hr) Ht] Hf. apply wp_zoom. eapply wp_mono; [by apply Hf|].
  intros a d' (R' & Ha' & Hc' & Hr' & HQ). apply HQ. split; [exact Hk|done|exact Ht].
Qed.

Lemma go_dev_same s q R kp k I g it ir sa f X (Q : unit -> system -> Prop) :
  going s q R kp k I g it ir sa -> (forall d Q', (forall d', dev_same d d' -> Q' tt d') -> wp f X Q' d) ->
  (forall s', going s' q R kp k I g it ir sa -> Q tt s') -> wp (on_dev f) X Q s.
Proof.
  intros Hg Hf HQ. eapply go_on_dev; [done|]. intros d Ha Hc Hr. apply Hf. intros d' Hs. exists R.
  pose proof (dev_same_routes _ _ _ _ Hs Hr). destruct Hs as (Ha' & Hc' & _). split; [congruence|]. split; [congruence|]. done.
Qed.

Lemma go_enable s q R kp k I g it ir sa irq cpu X (Q : unit -> system -> Prop) :
  going s q R kp k I g it ir sa -> (forall s', going s' q (enable irq cpu R) kp k I g it ir sa -> Q tt s') ->
  wp (on_dev (ioapicenable irq cpu)) X Q s.
Proof.
  intros Hg HQ. eapply go_on_dev; [done|]. intros d Ha Hc Hr. eapply d_ioapicenable; [done|]. intros d' Ha' Hc' Hr'.
  exists (enable irq cpu R). split; [congruence|]. split; [congruence|]. done.
Qed.

Lemma go_cprintf s q R kp k I g it ir sa fmt args X (Q : unit -> system -> Prop) :
  going s q R kp k I g it ir sa -> ints_ok fmt args = true -> (forall s', going s' q R kp k I g it ir sa -> Q tt s') ->
  wp (on_k (cprintf fmt args)) X Q s.
Proof using Hnd.
  intros Hg Hok HQ. eapply go_on_k; [done|]. intros m e Hq Hm Hc Hi. eapply q_cprintf; [done..|]. intros m' c' Hq' Hc'.
  eexists m', _, q, k, kp, I. split; [reflexivity|]. done.
Qed.

Lemma go_mycpu s q R kp k I g it ir sa X (Q : nat -> system -> Prop) :
  going s q R kp k I g it ir sa -> (forall s', going s' q R kp k I g it ir sa -> Q b s') -> wp (on_k (on_mach mycpu)) X Q s.
Proof using Hnd.
  intros Hg HQ. eapply go_on_k; [done|]. intros m e Hq Hm Hc Hi. eapply q_mycpu; [done..|].
  eexists m, e, q, k, kp, I. split; [reflexivity|]. done.
Qed.

Lemma go_initlock s q R kp k I g it ir sa lk nm X (Q : unit -> system -> Prop) :
  going s q R kp k I g it ir sa -> (forall s', going s' q R kp k I g it ir sa -> Q tt s') -> wp (on_k (on_mach (initlock lk nm))) X Q s.
Proof using Hnd.
  intros Hg HQ. eapply go_on_k; [done|]. intros m e Hq Hm Hc Hi. eapply q_initlock; [done..|]. intros m' Hq'.
  eexists m', e, q, k, kp, I. split; [reflexivity|]. done.
Qed.

Lemma go_seginit s q R kp k I g it ir sa X (Q : unit -> system -> Prop) :
  going s q R kp k I g it ir sa -> (forall s', going s' q R kp k I (alter seginit_gdt b g) it ir sa -> Q tt s') -> wp seginit X Q s.
Proof using Hnd.
  intros Hg HQ. unfold seginit. apply wp_bind. eapply go_mycpu; [done|]. intros s1 [Hk Hd (Hg1 & Ht)]. apply wp_modify, HQ.
  split; [exact Hk|exact Hd|]. split; [cbn; by rewrite Hg1|exact Ht].
Qed.

Lemma go_idtinit s q R kp k I g it ir sa X (Q : unit -> system -> Prop) :
  going s q R kp k I g it ir sa -> (forall s', going s' q R kp k I g it (ir ++ [b]) sa -> Q tt s') -> wp idtinit X Q s.
Proof.
  intros [Hk Hd (Hg & Hi & Hr & Hs)] HQ. unfold idtinit. apply wp_bind, wp_gets, wp_modify, HQ. split; [exact Hk|exact Hd|].
  split; [done|]. split; [done|]. split; [|done]. cbn. rewrite Hr. destruct Hk as (m & e & -> & Hq & _). cbn. by rewrite (qu_here _ _ _ Hq).
Qed.

(** A CPU's number fits the format. *)
Lemma cpu_text c : (c < NCPU)%nat -> ints_ok (text "cpu%d: starting %d" ++ [NL]) [AInt (Z.of_nat c); AInt (Z.of_nat c)] = true.
Proof. intros Hc. do 8 (destruct c as [|c]; [by vm_compute|]). unfold NCPU in Hc. lia. Qed.

Lemma go_mpmain s q R kp k I g it ir sa X (Q : unit -> system -> Prop) :
  (b < NCPU)%nat -> going s q R kp k I g it ir sa -> (forall s', going s' q R kp k I g it (ir ++ [b]) (sa ++ [b]) -> Q tt s') -> wp mpmain X Q s.
Proof using Hnd.
  intros Hb Hg HQ. unfold mpmain. apply wp_bind. eapply go_mycpu; [done|]. intros s1 Hg1. apply wp_bind. eapply go_mycpu; [done|]. intros s2 Hg2.
  apply wp_bind. eapply go_cprintf; [done|by apply cpu_text|]. intros s3 Hg3. apply wp_bind. eapply go_idtinit; [done|]. intros s4 Hg4.
  apply wp_bind. eapply go_mycpu; [done|]. intros s5 [Hk Hd (Hg5 & Hi & Hr & Hs)]. apply wp_modify, HQ. split; [exact Hk|exact Hd|].
  split; [done|]. split; [done|]. split; [done|]. cbn. by rewrite Hs.
Qed.

Lemma go_consoleinit s q R kp k I g it ir sa X (Q : unit -> system -> Prop) :
  going s q R kp k I g it ir sa -> (forall s', going s' q (enable IRQ_KBD 0 R) kp k I g it ir sa -> Q tt s') -> wp consoleinit_irq X Q s.
Proof using Hnd.
  intros Hg HQ. unfold consoleinit_irq. apply wp_bind. eapply go_on_k; [done|]. intros m e Hq Hm Hc Hi. apply (q_consoleinit b ids Hnd); [done|].
  intros m' Hq'. eexists m', _, q, k, kp, I. split; [reflexivity|]. split; [done|]. split; [done|]. split; [by destruct Hc|]. split; [done|].
  intros s' Hg'. by eapply go_enable.
Qed.

(** The serial port, if there is one. *)
Definition uart_route R : Z -> option Z := if cm =? 0xFF then R else enable IRQ_COM1 0 R.

Lemma go_uartinit s q R kp k I g it ir sa X (Q : unit -> system -> Prop) :
  going s q R kp k I g it ir sa -> (forall s', going s' q (uart_route R) kp k I g it ir sa -> Q tt s') -> wp uartinit X Q s.
Proof using Hnd.
  intros Hg HQ. unfold uartinit. apply wp_bind. eapply go_dev_same; [done| |].
  { intros d Q' HQ'. dsteps. apply HQ'. dsame. }
  intros s1 Hg1. apply wp_bind, wp_gets. rewrite (proj1 (proj2 (go_dev _ _ _ _ _ _ _ _ _ _ Hg1))). unfold uart_route in HQ.
  destruct (cm =? 0xFF); [by apply wp_ret, HQ|]. apply wp_bind. eapply go_on_k; [done|]. intros m e Hq Hm Hc Hi.
  unfold on_cons, own. apply wp_zoom, wp_modify. eexists m, _, q, k, kp, I. split; [reflexivity|]. split; [done|]. split; [done|].
  split; [by destruct Hc|]. split; [done|]. intros s2 Hg2. apply wp_bind. eapply go_enable; [done|]. intros s3 Hg3.
  eapply go_on_k; [done|]. clear m e Hq Hm Hc Hi. intros m e Hq Hm Hc Hi. apply wp_zoom.
  apply (wp_for_each (fun _ c => screen_ok c)).
  - exact Hc.
  - intros c l con Hcon. unfold uartputc. apply wp_bind, wp_get. destruct (uart con); [apply wp_put; by destruct Hcon|by apply wp_ret].
  - intros con Hcon. eexists m, _, q, k, kp, I. split; [reflexivity|]. split; [done|]. split; [done|]. split; [done|]. split; [done|]. done.
Qed.

Lemma go_ideinit s q R kp k I g it ir sa X (Q : unit -> system -> Prop) :
  going s q R kp k I g it ir sa -> (forall s', going s' q (enable IRQ_IDE (Z.of_nat (length ids) - 1) R) kp k I g it ir sa -> Q tt s') -> wp ideinit_irq X Q s.
Proof using Hnd.
  intros Hg HQ. unfold ideinit_irq. apply wp_bind. eapply go_initlock; [done|]. intros s1 Hg1. apply wp_bind, wp_gets, wp_bind.
  eapply go_enable; [done|]. intros s2 Hg2. apply wp_zoom, wp_ideinit. intros dk.
  unfold ncpu in Hg2. rewrite (proj1 (go_dev _ _ _ _ _ _ _ _ _ _ Hg1)) in Hg2. apply HQ. destruct Hg2 as [Hk Hd Ht]. by split.
Qed.
End going.

(** The steps up to [ioapicinit], which masks every interrupt. *)
Lemma go_setup b ids pt np ip s q kp k I m e (f : M system unit) X (Q : unit -> system -> Prop) :
  NoDup ids -> kern s = mkk m pt q np ip 0 true kp e -> quiet m b ids -> e_mem e = k -> screen_ok (e_con e) -> inodes (e_fs e) = I ->
  apicids (dev s) = ids ->
  (forall s', going b ids (maxintr (dev s)) (com1 (dev s)) pt np ip s' q (fun _ => None) kp k I (alter seginit_gdt b (gdts s)) (idt s) (idtr s) (started s) ->
     wp f X Q s') ->
  wp (on_dev lapicinit ;;; seginit ;;; on_dev picinit ;;; ioapicinit_msg ;;; f) X Q s.
Proof.
  intros Hnd Hk Hq Hm Hc Hi Ha HQ. apply wp_bind, wp_zoom, d_lapicinit. intros d1 Hd1.
  apply wp_bind. unfold seginit. apply wp_bind, wp_zoom. match goal with |- wp _ _ _ ?x => change x with (kern s) end. rewrite Hk. eapply q_mycpu; [done..|]. apply wp_modify.
  apply wp_bind, wp_zoom. unfold picinit. match goal with |- wp _ _ _ ?x => change x with d1 end. dsteps. unfold ioapicinit_msg. apply wp_bind, wp_zoom, d_ioapicinit.
  intros x d' Ha' Hc' Hr'. destruct (dev_same_trans _ _ _ Hd1 (dev_same_trans _ _ _ Hd Hd0)) as (Ha1 & Hc1 & Hi1).
  match type of Ha' with _ = apicids ?x => change x with d0 in Ha', Hc', Hr' end. replace (maxintr d0) with (maxintr (dev s)) in Hr' by (unfold maxintr, ireg; by rewrite Hi1).
  match goal with |- wp _ _ _ ?s2 => assert (going b ids (maxintr (dev s)) (com1 (dev s)) pt np ip s2 q (fun _ => None) kp k I (alter seginit_gdt b (gdts s)) (idt s) (idtr s) (started s)) as Hg end.
  { split; [by exists m, e|split; [cbn; congruence|split; [cbn; congruence|done]]|done]. }
  destruct x; [|by apply wp_ret, HQ]. eapply go_cprintf; [done|done|by vm_compute|done].
Qed.

(** ** The other CPUs *)

Section others.
Context (ids : list Z) (Hnd : NoDup ids) (n cm : Z) (pt : list proc) (np : Z) (ip : option nat).
Implicit Types (s : system) (q : mlfq) (R : Z -> option Z) (kp : Z) (k : kmem) (I : list inode) (b c : nat).

Lemma quiet_switch m b c id : quiet m b ids -> ids !! c = Some id -> quiet (m <| here := c |> <| Spinlock.lapicid := id |>) c ids.
Proof. intros [Hh Hm Hc Hl] Hid. by split. Qed.

(** CPU [c] takes a turn. *)
Lemma go_as_cpu {A} b c id s q R kp k I g it ir sa (f : M system A) X (Q : A -> system -> Prop) :
  going b ids n cm pt np ip s q R kp k I g it ir sa -> ids !! c = Some id ->
  (forall s', going c ids n cm pt np ip s' q R kp k I g it ir sa ->
     wp f X (fun a s2 => exists g2 ir2 sa2, going c ids n cm pt np ip s2 q R kp k I g2 it ir2 sa2 /\
       forall s3, going b ids n cm pt np ip s3 q R kp k I g2 it ir2 sa2 -> Q a s3) s') ->
  wp (as_cpu c id f) X Q s.
Proof.
  intros [(m & e & Hk & Hq & Hm & Hc & Hi) Hd Ht] Hid Hf. unfold as_cpu. apply wp_bind, wp_get. cbv zeta. apply wp_bind, wp_bind, wp_zoom, wp_zoom, wp_modify, wp_zoom, wp_modify.
  apply wp_bind. eapply wp_mono; [apply Hf|].
  - split; [|exact Hd|exact Ht]. eexists _, e. cbn. rewrite Hk. split; [reflexivity|]. split; [by eapply quiet_switch|]. done.
  - intros a s2 (g2 & ir2 & sa2 & [(m2 & e2 & Hk2 & Hq2 & Hm2 & Hc2 & Hi2) Hd2 Ht2] & HQ). rewrite Hk. cbn [mach].
    apply wp_bind, wp_bind, wp_zoom, wp_zoom, wp_modify, wp_zoom, wp_modify, wp_ret, HQ. split; [|exact Hd2|exact Ht2].
    eexists _, e2. cbn. rewrite Hk2. split; [reflexivity|]. split; [|done]. rewrite (qu_here _ _ _ Hq). eapply quiet_switch; [done|]. apply Hq.
Qed.

Lemma go_mpenter c s q R kp k I g it ir sa X (Q : unit -> system -> Prop) :
  (c < NCPU)%nat -> going c ids n cm pt np ip s q R kp k I g it ir sa ->
  (forall s', going c ids n cm pt np ip s' q R kp k I (alter seginit_gdt c g) it (ir ++ [c]) (sa ++ [c]) -> Q tt s') -> wp mpenter X Q s.
Proof using Hnd.
  intros Hc Hg HQ. unfold mpenter. apply wp_bind. eapply go_on_k; [done|]. intros m e Hq Hm Hcon Hi. apply (q_switchkvm c ids); [done|].
  intros m' Hq'. eexists m', e, q, k, kp, I. split; [reflexivity|]. do 4 (split; [done|]). intros s1 Hg1.
  apply wp_bind. eapply go_seginit; [done|done|]. intros s2 Hg2. apply wp_bind. eapply go_dev_same; [done|intros d Q'; apply d_lapicinit|]. intros s3 Hg3.
  by eapply go_mpmain.
Qed.

(** The segment tables when the CPUs with [P] have set up theirs. *)
Definition gdts_of (g0 g : list (list segdesc)) (P : nat -> bool) : Prop :=
  forall i, g !! i = if P i then seginit_gdt <$> g0 !! i else g0 !! i.

Lemma gdts_of_alter g0 g P c : gdts_of g0 g P -> P c = false -> gdts_of g0 (alter seginit_gdt c g) (fun i => (i =? c)%nat || P i).
Proof.
  intros Hg Hc i. destruct (Nat.eqb_spec i c) as [->|Hne]; cbn [orb].
  - by rewrite list_lookup_alter_eq, Hg, Hc.
  - rewrite list_lookup_alter_ne by done. apply Hg.
Qed.

(** The CPUs other than [b]. *)
Definition others_of b c : list nat := filter (fun i => i <> b) (seq 0 c).

Lemma others_S b c : others_of b (S c) = others_of b c ++ if decide (c = b) then [] else [c].
Proof.
  unfold others_of. rewrite seq_S, filter_app. f_equal. cbn [Nat.add]. destruct (decide (c = b)) as [->|Hne].
  - rewrite filter_cons_False by auto. done.
  - rewrite filter_cons_True by done. done.
Qed.

Section startothers.
Context `{Layout} (entryother : list Z) (mpenter_addr entrypgdir_addr : Z).

Lemma go_startothers b s q R kp k l I g0 g it ir sa X (Q : unit -> system -> Prop) :
  (b < length ids)%nat -> (length ids <= NCPU)%nat -> going b ids n cm pt np ip s q R kp k I g it ir sa ->
  use_lock k = 0 -> free_ok k l -> (NCPU <= length l)%nat -> gdts_of g0 g (fun i => (i =? b)%nat) ->
  (forall s' k' l' g', going b ids n cm pt np ip s' q R kp k' I g' it (ir ++ others_of b (length ids)) (sa ++ others_of b (length ids)) ->
     use_lock k' = 0 -> free_ok k' l' -> l' ⊆ l -> pages k' = pages k -> gdts_of g0 g' (fun i => (i <? length ids)%nat) -> Q tt s') ->
  wp (startothers entryother mpenter_addr entrypgdir_addr) X Q s.
Proof using Hnd.
  intros Hb Hlen Hg Hu Hf Hll Hgd HQ. unfold startothers. cbv zeta. apply wp_bind. eapply go_dev_same; [done|intros d Q'; apply d_low|]. intros s1 Hg1.
  apply wp_bind, wp_gets. rewrite (proj1 (go_dev _ _ _ _ _ _ _ _ _ _ _ _ _ _ _ _ _ Hg1)).
  apply wp_for_seq with (I := fun c s' => exists k' l' g', going b ids n cm pt np ip s' q R kp k' I g' it (ir ++ others_of b c) (sa ++ others_of b c) /\
    use_lock k' = 0 /\ free_ok k' l' /\ l' ⊆ l /\ (length l <= length l' + c)%nat /\ pages k' = pages k /\
    gdts_of g0 g' (fun i => (i =? b)%nat || (i <? c)%nat)).
  - exists k, l, g. rewrite !app_nil_r. do 4 (split; [done|]). split; [lia|]. split; [done|]. intros i. by rewrite orb_false_r.
  - intros c s2 Hc (k2 & l2 & g2 & Hg2 & Hu2 & Hf2 & Hs2 & Hl2 & Hp2 & Hgd2). apply wp_bind. eapply go_mycpu; [done|done|]. intros s3 Hg3.
    rewrite others_S. destruct (decide (c = b)) as [->|Hne].
    + apply wp_ret. exists k2, l2, g2. rewrite app_nil_r. do 4 (split; [done|]). split; [lia|]. split; [done|].
      intros i. rewrite Hgd2. replace ((i =? b)%nat || (i <? S b)%nat) with ((i =? b)%nat || (i <? b)%nat) by lia. done.
    + destruct l2 as [|stack l2]; [cbn in Hl2; lia|]. apply wp_bind. eapply go_on_k; [done|]. intros m e Hq Hm Hcon Hi. subst k2.
      eapply wp_kalloc_off; [done|done|]. intros k3 Hf3 Hu3 Hp3. eexists m, _, q, k3, kp, I. split; [reflexivity|]. do 4 (split; [done|]).
      intros s4 Hg4. apply wp_bind. eapply go_dev_same; [done|intros d Q'; apply d_low|]. intros s5 Hg5.
      apply wp_bind. eapply go_dev_same; [done|intros d Q'; apply d_low|]. intros s6 Hg6.
      apply wp_bind. eapply go_dev_same; [done|intros d Q'; apply d_low|]. intros s7 Hg7.
      apply wp_bind. eapply go_dev_same; [done|intros d Q'; apply d_lapicstartap|]. intros s8 Hg8.
      destruct (lookup_lt_is_Some_2 ids c) as [id Hid]; [done|]. rewrite (nth_lookup_Some _ _ 0 _ Hid).
      eapply go_as_cpu; [done|done|]. intros s9 Hg9. eapply (go_mpenter c); [lia|done|]. intros s10 Hg10.
      eexists _, _, _. split; [exact Hg10|]. intros s11 Hg11. rewrite <- !app_assoc in Hg11. eexists k3, l2, _. split; [exact Hg11|].
      split; [done|]. split; [done|]. split; [set_solver|]. split; [cbn in Hl2; lia|]. split; [congruence|].
      apply (gdts_of_alter _ _ _ c) in Hgd2; [|lia]. intros i. rewrite Hgd2.
      replace ((i =? b)%nat || (i <? S c)%nat) with ((i =? c)%nat || ((i =? b)%nat || (i <? c)%nat)) by lia. done.
  - intros s2 (k2 & l2 & g2 & Hg2 & Hu2 & Hf2 & Hs2 & _ & Hp2 & Hgd2). eapply HQ; [done..|]. intros i. rewrite Hgd2.
    replace ((i =? b)%nat || (i <? length ids)%nat) with (i <? length ids)%nat by lia. done.
Qed.
End startothers.
End others.
