(* ===== verification/BootThms.v ===== *)
(** * The kernel boots ([main.c])

    [main] as a whole: from the zeroed data of the kernel to the state in
    which every CPU enters [scheduler]. *)
From Stdlib Require Import ZArith Lia.
From stdpp Require Import base list gmap strings.
From S2P Require Import Prelude Params Mmu Bytes Cstring Spinlock Proc Sched SchedInv SchedPick SchedThms Kern Sleeplock FsData Bio Log Fs Pipe Demo Semaphore Kalloc Vm VmMap VmSpace VmThms VmInit BootMem File Console Life Env ConsoleThms UserInit Seg Trap Ide Hw Mp Apic Main MainThms.
#[local] Open Scope Z_scope.
#[local] Open Scope kernel_scope.

Implicit Types (s : system) (m : machine) (e : kenv) (q : mlfq) (k : kmem) (l : list Z) (X : stop -> Prop).

(** ** Before the CPUs are known *)

(** The CPU with APIC id [id] executes; its record is not one that mycpu()
    finds. *)
Record early (id : Z) (m : machine) : Prop := {
  ea_here : here m = 0%nat;
  ea_id : Spinlock.lapicid m = id;
  ea_cpu : exists c, cpus m = [c] /\ ncli c = 0 /\ intr_on c = false /\ cproc c = None;
  ea_locks : forall lk, locked (lock_at m lk) = 0
}.

Lemma early_start id : early id (mkmachine [cpu_zero (-1)] 0 id ∅).
Proof. split; [done|done|by exists (cpu_zero (-1))|done]. Qed.

Lemma early_initlock id m lk nm : early id m -> early id (m <| locks ::= <[lk := mklock nm 0 None]> |>).
Proof.
  intros [Hh Hi Hc Hl]. split; [done|done|done|]. intros lk'. unfold lock_at. cbn.
  destruct (decide (lk' = lk)) as [->|Hne]; [by rewrite lookup_insert_eq|]. rewrite lookup_insert_ne by done. apply Hl.
Qed.

(** The records of the CPUs take the place of that one. *)
Lemma adopt_quiet id m b ids : early id m -> NoDup ids -> ids !! b = Some id -> quiet (adopt_cpus ids m) b ids.
Proof.
  intros [Hh Hi (c & Hc & Hn & Hio & Hp) Hl] Hnd Hb. unfold adopt_cpus. rewrite Hc, Hh, Hi. cbn [lookup list_lookup default].
  assert (list_find (fun i => i = id) ids = Some (b, id)) as ->.
  { apply list_find_Some. split; [done|]. split; [done|]. intros j y Hj Hjb ->. pose proof (NoDup_lookup _ _ _ _ Hnd Hj Hb). lia. }
  split; [done|by cbn; rewrite Hi| |done]. cbn. apply Forall2_same_length_lookup_2.
  { by rewrite length_insert, length_map. }
  intros i x y Hx Hy. destruct (decide (i = b)) as [->|Hne].
  - rewrite list_lookup_insert_eq in Hy by (rewrite length_map; by eapply lookup_lt_Some). simplify_eq. done.
  - rewrite list_lookup_insert_ne in Hy by done. rewrite list_lookup_fmap, Hx in Hy. cbn in Hy. by injection Hy as <-.
Qed.

Section memory.
Context `{Layout} (pt : list proc) (q : mlfq) (np : Z) (ip : option nat) (tk : Z) (fi : bool).
Abbreviation st kp m e := (mkk m pt q np ip tk fi kp e).
Abbreviation MB4 := (P2V (4 * 1024 * 1024)).

(** Pages below the end of the first 4MB. *)
Lemma low_pages v : kend <= MB4 -> let p := PGROUNDUP kend in v ∈ page_range p (Z.to_nat ((MB4 - p) / PGSIZE)) -> page_ok v /\ v < MB4.
Proof.
  intros Hk p (j & Hj & ->)%elem_of_page_range. pose proof kend_range as Hr. revert Hj. subst p.
  change MB4 with 0x80400000 in *. unfold KERNBASE, PGSIZE, PHYSTOP in *. rewrite PGROUNDUP_div by lia. intros Hj. unfold page_ok, PGSIZE, KERNBASE, PHYSTOP.
  replace ((kend + 4095) / 4096 * 4096 + 4096 * Z.of_nat j) with (((kend + 4095) / 4096 + Z.of_nat j) * 4096) by lia.
  rewrite Z_mod_mult. assert (Z.of_nat j < (0x80400000 - (kend + 4095) / 4096 * 4096) / 4096) as Hj' by lia.
  Z.to_euclidean_division_equations. lia.
Qed.

Lemma low_length : kend + 73 * PGSIZE <= MB4 -> (73 <= Z.to_nat ((MB4 - PGROUNDUP kend) / PGSIZE))%nat.
Proof.
  intros Hk. pose proof kend_range as Hr. change MB4 with 0x80400000 in *. unfold KERNBASE, PGSIZE, PHYSTOP in *. rewrite PGROUNDUP_div by lia.
  Z.to_euclidean_division_equations. lia.
Qed.

Lemma length_page_range p n : length (page_range p n) = n.
Proof. unfold page_range. by rewrite length_rev, length_fmap, length_seq. Qed.

(** The first 4MB behind the kernel become free. *)
Lemma wp_kinit1 kp id m e Y (Q : unit -> kstate kenv -> Prop) :
  early id m -> freelist (e_mem e) = 0 -> kend + 73 * PGSIZE <= MB4 ->
  (forall m' k l, early id m' -> free_ok k l -> use_lock k = 0 -> (73 <= length l)%nat -> (forall v, v ∈ l -> v < MB4) ->
     Q tt (st kp m' (e <| e_mem := k |>))) ->
  wp (kinit1 kend MB4) Y Q (st kp m e).
Proof.
  intros He Hf Hk HQ. unfold kinit1. apply wp_bind, wp_on_mach. cbn. apply wp_bind. unfold k_mod, own. apply wp_zoom, wp_modify.
  change (set_part _ _) with (st kp (m <| locks ::= <[kmem_lock := mklock "kmem" 0 None]> |>) (e <| e_mem ::= fun k => k <| use_lock := 0 |> |>)).
  assert (kend <= MB4) as Hk' by (unfold PGSIZE in Hk; lia).
  eapply wp_freerange_off with (l := []); [done|by split; [|apply NoDup_nil|intros v ?%not_elem_of_nil]| |].
  - intros v Hv. split; [by apply low_pages|apply not_elem_of_nil].
  - rewrite app_nil_r. intros k' Hf' Hu Hp. eapply HQ; [by apply early_initlock|done|done| |].
    + rewrite length_page_range. by apply low_length.
    + intros v Hv. by apply low_pages.
Qed.

Lemma wp_set_kpgdir kp pd m e Y (Q : unit -> kstate kenv -> Prop) :
  Q tt (st pd m e) -> wp (modify (fun ks => ks <| kpgdir := pd |>)) Y Q (st kp m e).
Proof. done. Qed.

Lemma early_switchkvm kp id m e Y (Q : unit -> kstate kenv -> Prop) :
  early id m -> (forall m', early id m' -> Q tt (st kp m' e)) -> wp switchkvm Y Q (st kp m e).
Proof.
  intros [Hh Hi (c & Hc & Hn & Hio & Hp) Hl] HQ. unfold switchkvm. kstep. kstep. apply wp_on_mach. wsteps. unfold cpu_at. wsteps.
  rewrite Hh. eapply wp_some; [by rewrite Hc|]. unfold set_cpu. wsteps. apply HQ. split; [done|done| |done]. cbn. rewrite Hc. by eexists.
Qed.

(** The kernel's page directory. *)
Lemma wp_kvmalloc kp id m e l Y (Q : unit -> kstate kenv -> Prop) :
  early id m -> use_lock (e_mem e) = 0 -> free_ok (e_mem e) l -> (73 <= length l)%nat ->
  (forall m' k l' pd T, early id m' -> free_ok k l' -> kmap (pages k) pd T -> own pd T ∅ ++ l' ≡ₚ l -> use_lock k = 0 -> (NCPU <= length l')%nat ->
     Q tt (st pd m' (e <| e_mem := k |>))) ->
  wp kvmalloc Y Q (st kp m e).
Proof.
  intros He Hu Hf Hlen HQ. unfold kvmalloc. apply wp_bind. eapply wp_setupkvm_off; [done|exact Hf|lia|]. intros k l' pd T Hf' Hk Hp Ht Hu'.
  apply wp_bind, wp_set_kpgdir. eapply early_switchkvm; [exact He|]. intros m' He'. eapply HQ; [done..|].
  apply Permutation_length in Hp. unfold own in Hp. change (tabs ∅) with (@nil Z) in Hp. rewrite app_nil_r, length_app in Hp. cbn in Hp. unfold NCPU. lia.
Qed.
End memory.

(** ** The last steps *)

Section last.
Context `{Layout} (b : nat) (ids : list Z) (Hnd : NoDup ids) (n cm : Z).
Implicit Types (R : Z -> option Z) (kp : Z) (I : list inode).
Abbreviation MB4 := (P2V (4 * 1024 * 1024)).

Lemma high_pages v : v ∈ page_range MB4 (Z.to_nat ((P2V PHYSTOP - MB4) / PGSIZE)) -> kend <= MB4 -> page_ok v /\ MB4 <= v.
Proof.
  intros (j & Hj & ->)%elem_of_page_range Hk. change MB4 with (0x80400 * 4096) in *. change ((P2V PHYSTOP - 0x80400 * 4096) / PGSIZE) with 56320 in Hj.
  unfold page_ok, PGSIZE, KERNBASE, PHYSTOP. replace (0x80400 * 4096 + 4096 * Z.of_nat j) with ((0x80400 + Z.of_nat j) * 4096) by lia.
  rewrite Z_mod_mult. lia.
Qed.

(** All the memory is free, and locks are used from now on. *)
Lemma go_kinit2 pt np ip s q R kp k l I g it ir sa Y (Q : unit -> system -> Prop) :
  going b ids n cm pt np ip s q R kp k I g it ir sa -> use_lock k = 0 -> free_ok k l -> (forall v, v ∈ l -> v < MB4) -> kend <= MB4 ->
  (forall s' k' l', going b ids n cm pt np ip s' q R kp k' I g it ir sa -> use_lock k' = 1 -> free_ok k' (l' ++ l) -> (70 <= length l')%nat ->
     (forall v, v ∈ l' -> MB4 <= v) -> (forall v, v < MB4 -> pages k' !! v = pages k !! v) -> Q tt s') ->
  wp (on_k (kinit2 MB4 (P2V PHYSTOP))) Y Q s.
Proof.
  intros Hg Hu Hf Hl Hk HQ. eapply go_on_k; [done|]. intros m e Hq Hm Hc Hi. subst k. unfold kinit2. apply wp_bind.
  eapply wp_freerange_off; [done|exact Hf| |]; change (PGROUNDUP MB4) with MB4.
  - intros v Hv. destruct (high_pages v Hv Hk). split; [done|]. intros ?%Hl. lia.
  - intros k' Hf' Hu' Hp'. unfold k_mod, own. apply wp_zoom, wp_modify. eexists m, _, q, (k' <| use_lock := 1 |>), kp, I. split; [reflexivity|].
    do 4 (split; [done|]). intros s' Hg'. eapply HQ; [done|done| | | |].
    + destruct Hf' as [? ? ?]. split; [done|done|done].
    + rewrite length_page_range. change ((P2V PHYSTOP - MB4) / PGSIZE) with 56320. lia.
    + intros v Hv. by apply high_pages.
    + intros v Hv. cbn. apply Hp'. intros Hv'. destruct (high_pages v Hv' Hk). lia.
Qed.

Abbreviation root_ref := (fun i => i <| idev := ROOTDEV |> <| inum := ROOTINO |> <| iref := 1 |> <| ivalid := 0 |>).

Lemma go_userinit nt s R kp k l I g it ir sa code Y (Q : unit -> system -> Prop) :
  going b ids n cm boot_table 1 None s (boot_queue nt) R kp k I g it ir sa -> free_ok k l -> (70 <= length l)%nat ->
  Forall (fun i => iref i = 0) I -> bytes_ok code -> (length code < Z.to_nat PGSIZE)%nat ->
  (forall s' k' l' ks pd, going b ids n cm (<[0%nat := first_proc 1 ks pd]> boot_table) 2 (Some 0%nat) s' (bump 2 1 (boot_queue nt)) R kp k'
       (alter root_ref 0%nat I) g it ir sa ->
     free_ok k' l' -> runs_code k' pd code -> use_lock k' = use_lock k -> (forall p, p ∉ l -> pages k' !! p = pages k !! p) -> Q tt s') ->
  wp (on_k (userinit code)) Y Q s.
Proof using Hnd.
  intros [(m & e & Hk & Hq & Hm & Hc & Hi) Hd Ht] Hf Hlen Hz Hb Hcl HQ. apply wp_zoom. rewrite Hk. subst k I.
  assert (forall j, iref (inode_at (e_fs e) j) = 0) as Hz'.
  { intros j. unfold inode_at. destruct (inodes (e_fs e) !! j) as [i|] eqn:Hj; [|done]. by apply (Forall_lookup_1 _ _ _ _ Hz Hj). }
  eapply wp_mono; [apply (wp_userinit (mkwho b false None (cpus m))); [by apply (quiet_view m b ids)|done..]|].
  intros [] ks (m' & k' & l' & stk & pd & T & u & -> & Hv & Hf' & _ & Hr & Hu & Hp). eapply HQ; [|exact Hf'|exact Hr|exact Hu|exact Hp].
  split; [|exact Hd|exact Ht]. eexists m', _. split; [reflexivity|]. split; [eapply view_quiet; [|exact Hv]; apply Hq|]. done.
Qed.

Section same.
Context (pt : list proc) (np : Z) (ip : option nat).
Abbreviation going := (going b ids n cm pt np ip).

Lemma go_pinit s q R kp k I g it ir sa Y (Q : unit -> system -> Prop) :
  going s q R kp k I g it ir sa -> length (qlevels q) = 3%nat -> mlfq_proc_cnt q = 0 ->
  (forall s', going s' (boot_queue (next_t q)) R kp k I g it ir sa -> Q tt s') -> wp (on_k pinit) Y Q s.
Proof using Hnd.
  intros Hg Hl Hn HQ. eapply go_on_k; [done|]. intros m e Hq Hm Hc Hi. eapply q_pinit; [done..|]. intros m' Hq'.
  eexists m', e, _, k, kp, I. split; [reflexivity|]. done.
Qed.

Lemma go_tvinit vectors s q R kp k I g it ir sa Y (Q : unit -> system -> Prop) :
  going s q R kp k I g it ir sa -> (forall s', going s' q R kp k I g (tvinit_gates vectors) ir sa -> Q tt s') -> wp (tvinit vectors) Y Q s.
Proof using Hnd.
  intros [Hk Hd (Hg & Hi & Ht)] HQ. unfold tvinit. apply wp_bind, wp_modify. eapply go_initlock; [done| |exact HQ]. split; [exact Hk|exact Hd|done].
Qed.

Lemma go_binit s q R kp k I g it ir sa Y (Q : unit -> system -> Prop) :
  going s q R kp k I g it ir sa -> (forall s', going s' q R kp k I g it ir sa -> Q tt s') -> wp (on_k binit) Y Q s.
Proof using Hnd.
  intros Hg HQ. eapply go_on_k; [done|]. intros m e Hq Hm Hc Hi. eapply q_binit; [done..|]. intros m' t' Hq' _ Hi' _.
  eexists m', _, q, k, kp, I. split; [reflexivity|]. split; [done|]. split; [done|]. split; [done|]. split; [by cbn; rewrite Hi'|]. done.
Qed.
End same.
End last.

(** ** The whole of [main] *)

(** The kernel's data when [main] is entered on the CPU with APIC id [id]:
    zero, but for what the source initialises; the screen is in order. *)
Record at_entry (id : Z) (s : system) : Prop := {
  ae_kern : exists e, kern s = mkk (mkmachine [cpu_zero (-1)] 0 id ∅) boot_table mlfq0 1 None 0 true 0 e /\
    freelist (e_mem e) = 0 /\ screen_ok (e_con e) /\ Forall (fun i => iref i = 0) (inodes (e_fs e));
  ae_tabs : idtr s = [] /\ started s = []
}.

(** The CPU each interrupt goes to. *)
Definition irq_cpu (d : hwst) : Z -> option Z :=
  enable IRQ_IDE (ncpu d - 1) (uart_route (com1 d) (enable IRQ_KBD 0 (fun _ => None))).

(** The state from [s] on in which CPU [b] enters [scheduler], when [mpinit]
    left the devices [d]. *)
Record booted `{Layout} (b : nat) (d : hwst) (vectors : nat -> Z) (code : list Z) (s s' : system) : Prop := {
  bt_kern : exists m e l ks pd kp,
    kern s' = mkk m (<[0%nat := first_proc 1 ks pd]> boot_table) (bump 2 1 (boot_queue (next_t mlfq0))) 2 (Some 0%nat) 0 true kp e /\
    quiet m b (apicids d) /\ use_lock (e_mem e) = 1 /\ free_ok (e_mem e) l /\ runs_code (e_mem e) pd code /\
    (forall va, KERNBASE <= va < 2 ^ 32 -> mmu_pte (pages (e_mem e)) kp va = kern_ent (va / 4096)) /\
    inodes (e_fs e) = alter (fun i => i <| idev := ROOTDEV |> <| inum := ROOTINO |> <| iref := 1 |> <| ivalid := 0 |>) 0%nat (inodes (e_fs (env (kern s))));
  bt_sched : sched_inv (ptable (kern s')) (mlfqstr (kern s'));
  bt_first : forall c id, apicids d !! c = Some id ->
    wp (scheduler_select 0) never (fun r _ => r = (Some 0%nat, 1%nat)) ((kern s') <| mach ::= fun m => m <| here := c |> <| Spinlock.lapicid := id |> |>);
  bt_irq : forall i, 0 <= i <= maxintr d -> redir (dev s') i = route (irq_cpu d) i;
  bt_idt : idt s' = tvinit_gates vectors;
  bt_gdt : gdts_of (gdts s) (gdts s') (fun i => (i <? length (apicids d))%nat);
  bt_cpus : idtr s' = others_of b (length (apicids d)) ++ [b] /\ started s' = others_of b (length (apicids d)) ++ [b]
}.

(** The only process there is to choose. *)
Lemma first_slot id ks pd i p : <[0%nat := first_proc id ks pd]> boot_table !! i = Some p -> (i = 0%nat /\ p = first_proc id ks pd) \/ p = proc0.
Proof.
  unfold boot_table. destruct i as [|i].
  - rewrite list_lookup_insert_eq by (rewrite length_replicate; unfold NPROC; lia). intros [= <-]. by left.
  - rewrite list_lookup_insert_ne by done. intros [-> _]%lookup_replicate_1. by right.
Qed.

Lemma first_choice ks pd q idx r : choice (<[0%nat := first_proc 1 ks pd]> boot_table) q idx r -> r = (Some 0%nat, 1%nat).
Proof.
  set (pt := <[0%nat := _]> _).
  assert (forall v i, ready_at v pt i = true -> i = 0%nat) as Hr.
  { intros v i. unfold ready_at. destruct (pt !! i) as [p|] eqn:Hp; [|done]. by destruct (first_slot _ _ _ _ _ Hp) as [[-> _]| ->]. }
  assert (forall i, ~ stride_at pt i) as Hns.
  { intros i (p & Hp & Hs). by destruct (first_slot _ _ _ _ _ Hp) as [[_ ->]| ->]. }
  intros [j Hs|l k _ _ _ Hk _|l _ (Hl2 & _ & Hl) Hn].
  - by destruct (Hns j).
  - by rewrite (Hr _ _ Hk).
  - assert (l = 2) as ->.
    { destruct (decide (l = 2)) as [|Hne]; [done|]. assert (countb (at_level 2) pt = 0) as H0 by (apply Hl; lia). by vm_compute in H0. }
    specialize (Hn 0%nat ltac:(unfold NPROC; lia)). by vm_compute in Hn.
Qed.

Section boots.
Context `{Layout} (vectors : nat -> Z) (entryother initcode : list Z) (mpenter_addr entrypgdir_addr : Z).
Context (id : Z) (b : nat) (d : hwst) (Hnd : NoDup (apicids d)) (Hb : apicids d !! b = Some id).
Context (Hkend : kend + 73 * PGSIZE <= P2V (4 * 1024 * 1024)).
Abbreviation ids := (apicids d).
Abbreviation MB4 := (P2V (4 * 1024 * 1024)).

(** Up to [mpinit]. *)
Lemma boot_memory s (f : M system unit) Y (Q : unit -> system -> Prop) :
  at_entry id s -> mpinit (dev s) = Ok (tt, d) ->
  (forall s' m e l pd T, kern s' = mkk m boot_table mlfq0 1 None 0 true pd e -> quiet m b ids -> use_lock (e_mem e) = 0 -> free_ok (e_mem e) l ->
     (NCPU <= length l)%nat -> (forall v, v ∈ own pd T ∅ ++ l -> v < MB4) -> NoDup (own pd T ∅ ++ l) -> kmap (pages (e_mem e)) pd T ->
     screen_ok (e_con e) -> inodes (e_fs e) = inodes (e_fs (env (kern s))) -> dev s' = d -> gdts s' = gdts s -> idtr s' = [] -> started s' = [] ->
     wp f Y Q s') ->
  wp (on_k (kinit1 kend MB4) ;;; on_k kvmalloc ;;; mpinit_cpus ;;; f) Y Q s.
Proof using All.
  intros [(e & Hk & Hfl & Hsc & Hin) (Hir & Hst)] Hmp HQ. apply wp_bind, wp_zoom. rewrite Hk.
  eapply wp_kinit1; [apply early_start|done|done|]. intros m1 k1 l1 He1 Hf1 Hu1 Hlen Hlow.
  apply wp_bind, wp_zoom. match goal with |- wp _ _ _ ?x => change x with (mkk m1 boot_table mlfq0 1 None 0 true 0 (e <| e_mem := k1 |>)) end.
  eapply wp_kvmalloc; [done|done|exact Hf1|done|]. intros m2 k2 l2 pd T He2 Hf2 Hkm Hp Hu2 Hl2.
  apply wp_bind. unfold mpinit_cpus. apply wp_bind, wp_zoom. match goal with |- wp _ _ _ ?x => change x with (dev s) end. unfold wp at 1. rewrite Hmp.
  apply wp_bind, wp_gets, wp_zoom, wp_on_mach. cbn. eapply HQ; [reflexivity|by eapply adopt_quiet|done|exact Hf2|done| | |exact Hkm|done| |done..].
  - intros v Hv. apply Hlow. by rewrite <- Hp.
  - rewrite Hp. by eapply fo_nodup.
  - by rewrite Hk.
Qed.

Lemma gdts_first g : gdts_of g (alter seginit_gdt b g) (fun i => (i =? b)%nat).
Proof using All.
  intros i. rewrite (gdts_of_alter g g (fun _ => false) b) by done. by rewrite orb_false_r.
Qed.

End boots.

(** *** Two CPUs *)

Definition two_cpus : hwst := hw_start (two_cpu_bios 1) 0.
Definition two_cpus_found : hwst := two_cpus <| apicids := [0; 3] |> <| ioapicid := 7 |> <| lapic := 0xfee00000 |>.
Definition small_entry : system :=
  mksys (mkk (mkmachine [cpu_zero (-1)] 0 0 ∅) boot_table mlfq0 1 None 0 true 0 (small_env <| e_mem := mkkmem 0 0 ∅ |>))
    two_cpus (mkidest ∅ 0 0 (mkdrive 0 0 0 0 0 None [IDE_BSY; IDE_DRDY] (fun _ _ => [])) []) (replicate NCPU (replicate 6 (SEG 0 0 0 0))) [] [] [].
Definition small_code : list Z := [0x6a; 0x00; 0xeb; 0xfe].

